(* ===== verification/_CoqProject ===== *)
-Q . S2P
Prelude.v
Macros.v
Bitstring.v
Vector.v
Hash.v
Htable.v
Queue.v
Tailq.v
Process.v
Stats.v
Out.v
Cache.v
RBTree.v
FixedMapper.v
NlMapper.v
PageAlloc.v
NlLaws.v
Brk.v
Splay.v
SlabLayout.v
World.v
Demo.v
Snapshot.v
Handler.v
FixPtr.v
PtrList.v
Slab.v
Pointers.v
Alloc.v
Checkpoint.v
Txn.v
Restore.v
Recovery.v
Missed.v
Progress.v
Index.v
Remap.v
Heap.v
Palloc.v
Closure.v
MallocTree.v
BackRef.v
Cont.v
Restart.v
NewCont.v
Objects.v
Move.v
Runs.v
Debug.v
