(* ===== verification/Prelude.v ===== *)
(** * LibPM: a persistent-memory library, modelled and verified

    LibPM keeps a _container_ of objects in a file that is mapped into
    memory.  A program allocates objects ([container_palloc]), changes them
    with ordinary stores, and makes its changes durable with a checkpoint
    ([container_cpoint]).  Between two checkpoints the library keeps the last
    committed version of every changed page (its _snapshot_): data pages are
    write-protected after a checkpoint, and the signal handler copies a page
    at the first store to it.

    ** The parts and their files

    The utilities, each a header of macros or one C file:
    - [Macros.v]: rounding, flags and cache lines ([utils/macros.h],
      [settings.h], [atomics.c]);
    - [Bitstring.v] ([utils/bitstring.h]), [Vector.v] ([utils/vector.h]),
      [Hash.v] ([hash.c]), [Htable.v] ([htable.c]), [Queue.v] and [Tailq.v]
      ([utils/queue.h]: STAILQ and LIST, SLIST and TAILQ), [RBTree.v] and
      [Splay.v] ([utils/tree.h]);
    - [Out.v] ([out.c], [out.h]): the log, from the format of a message to the
      stream it is written to; [Cache.v] ([atomics.h], [atomics.c]): memory
      behind a cache, and what the flush operations make durable.

    The page allocators and the process they run in:
    - [Process.v]: the address space, the file and the statistics
      ([stats.h], the system calls of [page_alloc.c]); [Stats.v]: the reports
      ([stats.c]);
    - [FixedMapper.v] ([fixmapper.c]), [NlMapper.v] ([nlmapper.c]): the two
      allocators; [PageAlloc.v] ([page_alloc.c]): the table of functions
      between them and the slab, as the class [PageAllocator] with its laws
      [PageAllocatorLaws], which the fixed mapper satisfies, and, by
      [NlLaws.v], the nonlinear mapper too; [Brk.v]: neither moves the break
      of the process back.

    The slab, a tree of pages (directory, outer nodes, inner nodes, buckets
    of 28 entries) that describes all data pages, everything twice:
    - [SlabLayout.v] ([slabInt.h], [cont.h]): the structures and macros;
    - [World.v]: memory as the slab sees it, and the rules to step through
      it; [Demo.v]: a concrete memory;
    - [Handler.v] ([sfhandler.c]): the registration of the signal handler, and
      why a store may be modelled as a call of it;
    - [Snapshot.v] ([snapshot.c]), [Slab.v] and [Pointers.v] ([slab.c]),
      [Alloc.v] ([alloc.c]), [Checkpoint.v] ([checkpoint.c]), [Restore.v]
      ([restore.c]);
    - [Txn.v]: copy on write and checkpoint together, as transactions on the
      abstract memory of a bucket; [Missed.v]: the transactions that are not
      committed; [Recovery.v]: what a restart finds of it;
      [Index.v] and [Remap.v]: the walk of a restart over the slab tree, with
      the index it rebuilds; [Progress.v]: typed references and commitment in
      every run;
    - [Heap.v]: the invariant of a slab with its index, its size classes and
      its free list; [Palloc.v]: [slab_palloc] as a whole, which keeps it;
    - [FixPtr.v] ([fixptr.c], [fixptr.h]), [PtrList.v]: the list of persistent
      pointers and what it promises.

    The public interface:
    - [Closure.v] ([closure.c]): volatile objects that persistent pointers
      reach are moved into the container at a checkpoint; [MallocTree.v]: the
      tree of registered blocks and the classes of pointers; [BackRef.v]: the
      correction of the pointers that stay in volatile memory;
    - [Cont.v] ([cont.c]): creation, checkpoint, restore, root;
      [Restart.v]: how the restore ends;
      [NewCont.v]: a container that was just created, and allocations in it;
      [Objects.v]: programs that use the allocated objects as memory;
      [Move.v]: volatile blocks that move into such objects;
    - [Runs.v]: whole runs of these operations, on both allocators;
    - [Debug.v] ([debug.c], [pptr_print], [mallocat_pprint]): the functions that print the
      structures.

    A definition has the name of the C function, macro or type it models; a
    loop body or a branch that became a definition of its own has a comment.

    ** How the program is modelled

    A function that changes state is a function in the monad [M S] of this
    file: it returns a value and the new state ([Ok]) or stops with a fault
    ([Fail]): a failed assertion, [handle_error], a null or unmapped address,
    an index outside an array, a loop that does not end.  [wp m Q s] says that
    [m] returns from [s], with a result and a state that satisfy [Q]; it is
    never satisfied by a run that stops or diverges.  The state grows with the
    layers: an allocator's state ([fmst], [nlst]) contains the process
    ([proc]); [world] contains an allocator's state, the pages of the file
    and the static variables of the slab; [clst] contains a [world] and the
    tables of the closure.  [zoom] lifts an operation to a larger state.

    Integers are [Z] with the wrap-around of their C type written out.
    Intrusive lists are links in the elements, in a store; red-black and splay
    trees are values, with the node pointers as elements.  Memory is typed
    by page: a page holds one structure, or the bytes of a data page, and
    reading it as another one is the fault [WrongPage], also where the
    program would see stale bytes of an earlier use of the page.  A store
    ([Snapshot.store]) checks the protection of its page and runs
    the signal handler.

    ** What the theorems show
    - Utilities: every operation does what its abstract view says: sets of
      bits, finite maps, lists, sorted sequences, with the invariants of the
      red-black and hash tables kept, and all loops ending.
    - Allocators: the invariants of the two mappers ([fm_wf] and [nl_wf]) hold
      from the initialisation of an empty file through allocation, growth,
      freeing and swaps, and both mappers implement the interface the slab is
      proved against; a file that is opened again breaks both.
    - Slab: a store to a protected page leaves its old content in a page the
      snapshot refers to; a checkpoint of a bucket makes the current pages
      the snapshot, protects them and frees the old ones; an allocation takes
      the first free object; objects fit their page except for four sizes;
      ids, addresses, roots and recorded pointers lead back to what they came
      from.  These theorems are proved against [PageAllocatorLaws] and hold
      for every allocator that satisfies it.
    - Transactions: for a container with one bucket, sequences of snapshot,
      stores and checkpoint refine transactions on an abstract memory with a
      current and a committed content ([amem]); in every reachable state the
      snapshots lead to the committed content, and the calls that may come
      next do not fail; every reference, current or snapshot, leads to a page of
      its type, and in an infinite run whose transactions end every store is
      committed in the end.  A transaction with any number of snapshots of the
      bucket is committed exactly when there was one
      ([commit_needs_one_snapshot]); while it is open, the references that a
      restart follows lead to what it has stored ([restart_reads_uncommitted]).
    - Restart: if the pages of the nodes are writable, [slab_map] gives a tree
      whose nodes lead to their children, the committed content in every entry,
      and the search tree, size classes and free list over the entries
      ([slab_map_restores]).  The library does not make them writable: on the
      fixed mapper [container_restore] ends at its first store
      ([container_restore_fails]).
    - Allocation: [container_init] makes a slab that satisfies the invariant
      [heap], with 28 free entries and no object.  From any slab that
      satisfies it and has a free entry and three free pages left,
      [slab_palloc] of 1 to 4096 bytes returns the address of an object that
      was free, whichever path it takes then (the head of the size class, a
      free entry for a full head, a new size class; the bitmap in the page or in
      the entry; a page that is protected or not; an entry that becomes full;
      but not a new bucket, which is opened when no entry is free), keeps every
      other object with its bytes, and keeps the invariant; the blocks of
      several allocations are disjoint.  Programs of allocations, loads and stores
      refine programs on an abstract memory of separate blocks
      ([objects_refine_blocks]): copying a page at its first store cannot be
      seen in the objects.  All this holds while the free pages of the
      container are zero: [seen] says so, with the size classes below the
      break.  A page that a checkpoint has freed comes back with its old
      bytes, which a new entry takes for its bitmap
      ([Runs.new_entry_in_full_page]).
    - Closure: from any table of blocks that do not overlap and any table of
      pointers, the tree holds the blocks in order, every pointer comes into
      one class, and the back references to moved blocks are corrected, with
      no other byte changed.  On any slab that satisfies [heap], a pointer in
      an object has the volatile block it leads into moved to a new object,
      once, and leads to the same offset there ([persist_valloc_correct]).
      That the container is not mapped over the block is a hypothesis.
    - Durability: the order of stores is kept, but the flush operations work
      on the line of a pointer variable: nothing they are called for becomes
      durable ([flush_misses_data]).  With the operand corrected, they would
      ([pointee_flush]).
    - Log: a message is printed whole, or cut to the buffer, unless prefix and
      text overflow it.
    - Pointer list: appending adds a pair to the current list and keeps the
      committed one, on every path; the checkpoint makes the current list the
      committed one.  Pages are assumed to be new: a recycled page brings its
      old pairs along.
    - Printing: the two listings of the data pages agree; the reports of the
      statistics fit their buffer for counters of up to 17 digits.
    - Whole runs: examples, executed from an empty file: one transaction, the
      closure of a volatile object, and the ways in which restart, several
      allocations in a transaction, growth in a transaction, and a second
      bucket go wrong; the answers are the same on both allocators.

    ** Bounds and fuel

    Recursion that the C code does not bound takes fuel, and running out is
    the fault [Diverges]: the walk over a list ([STAILQ_FOREACH],
    [LIST_FOREACH]: the length of the list is enough), the splay loop, the
    repair after a removal ([remove_fix]: the length of the path), the growth
    of the hash table (33 doublings of a 32-bit length), the search
    [bit_nsearch] (which can truly diverge), the loops of the closure
    ([loops] in [Runs.v] is 100, for runs over at most two objects), and the
    loops over the inodes of a pointer list (more than their number is
    enough, [pptr_cpoint_correct]).  A 64-bit number has at most 20 digits.

    ** What is not modelled

    The contents of cache lines in the slab: [Cache.v] has them for the
    primitives of [atomics.h], elsewhere stores reach the file in program
    order and a flush only counts.  Crashes in the middle of an operation, allocations
    larger than a page (the program refuses them), more than one container
    (the array has one element), and threads.  The formatting of the debug
    output (a [printf] is its format and its arguments), the calls of [LOG] in
    the other files, the two [printf]s of [closure.c] outside
    [mallocat_pprint], and the programs under [benchmarks], [tests] and [sqlite].

    ** Plan

    Next: the whole closure on arbitrary heaps ([heap] has no pointer pages,
    which the loop over the persistent pointers writes between the moves); an
    invariant of a slab tree with many buckets, kept by allocation, checkpoint
    and the walk of a restart ([heap] has one bucket, so the path of
    [slab_palloc] that adds a bucket is outside [slab_palloc_correct]);
    crashes between any two stores. *)
From Stdlib Require Import ZArith Lia.
From stdpp Require Import base numbers list gmap strings.

#[global] Open Scope Z_scope.

(** ** Faults

    The ways a C function of the library can stop before it returns. *)
Inductive fault :=
  | AssertFailed      (** an [assert] whose condition is false *)
  | HandleError       (** the macro [handle_error]: print and abort *)
  | NullDeref         (** a NULL pointer is followed *)
  | OutOfBounds       (** an array or buffer is indexed outside its storage *)
  | Uninit            (** memory that was never initialised is read *)
  | Unmapped          (** an address no mapping covers is accessed *)
  | WrongPage         (** a page is read as a structure it does not hold *)
  | Sigsegv           (** a fault the handler cannot repair, which kills the process *)
  | DivByZero         (** an integer division by zero *)
  | Exits             (** [exit(1)] is called *)
  | Diverges.         (** the loop does not terminate (fuel exhausted) *)

#[export] Instance fault_eq_dec : EqDecision fault.
Proof. solve_decision. Defined.

(** ** The state-and-fault monad

    [Ok a s]: the call returned [a] and left the state [s]; [Fail f s]: it
    stopped with [f] and [s] is the state at that moment, which is what a
    process restarted on the same container file finds. *)
Inductive outcome (S A : Type) :=
  | Ok (a : A) (s : S)
  | Fail (f : fault) (s : S).
Arguments Ok {S A} a s.
Arguments Fail {S A} f s.

(** What a run from a concrete state returns. *)
Definition value {S A} (r : outcome S A) : A + fault := match r with Ok a _ => inl a | Fail f _ => inr f end.

Definition M (S A : Type) : Type := S -> outcome S A.

Section monad.
Context {S : Type}.

Definition ret {A} (a : A) : M S A := fun s => Ok a s.

Definition bind {A B} (m : M S A) (k : A -> M S B) : M S B := fun s =>
  match m s with
  | Ok a s' => k a s'
  | Fail f s' => Fail f s'
  end.

Definition fail {A} (f : fault) : M S A := fun s => Fail f s.

Definition gets {A} (f : S -> A) : M S A := fun s => Ok (f s) s.

Definition modify (f : S -> S) : M S unit := fun s => Ok tt (f s).

(** [assert(b)] *)
Definition assert_ (b : bool) : M S unit :=
  if b then ret tt else fail AssertFailed.

(** Follow an option, stopping with [f] on [None]. *)
Definition from_opt {A} (f : fault) (o : option A) : M S A :=
  match o with Some a => ret a | None => fail f end.

Definition when (b : bool) (m : M S unit) : M S unit :=
  if b then m else ret tt.

(** [for (i = from; i < from + n; i++) body(i)] with a fixed trip count. *)
Fixpoint for_ (n : nat) (from : Z) (body : Z -> M S unit) : M S unit :=
  match n with
  | O => ret tt
  | Datatypes.S n' => bind (body from) (fun _ => for_ n' (from + 1) body)
  end.

(** Run [body] on each element of a list, in order. *)
Fixpoint forM {A} (l : list A) (body : A -> M S unit) : M S unit :=
  match l with
  | [] => ret tt
  | x :: l' => bind (body x) (fun _ => forM l' body)
  end.
End monad.

(** A computation on a component [T] of the state [S]. *)
Definition zoom {S T A} (get : S -> T) (put : T -> S -> S) (m : M T A) : M S A := fun s =>
  match m (get s) with
  | Ok a t => Ok a (put t s)
  | Fail f t => Fail f (put t s)
  end.

Declare Scope pm_scope.
Delimit Scope pm_scope with pm.
Notation "'let!' x ':=' m 'in' k" := (bind m (fun x => k))
  (at level 10, x pattern, m at level 100, k at level 200,
   format "'[v' 'let!'  x  ':='  m  'in' '/' k ']'") : pm_scope.
Notation "m1 ;;; m2" := (bind m1 (fun _ => m2))
  (at level 199, right associativity,
   format "'[v' m1 ;;; '/' m2 ']'") : pm_scope.
#[global] Open Scope pm_scope.

(** ** Relations every run respects

    [grows R m]: a run of [m] that returns leads from a state to one related
    to it by the preorder [R].  It is closed under the operations of the
    monad; the tactic [grow] follows the text of a program. *)
Section grows.
Context {S : Type} (R : S -> S -> Prop) `{!PreOrder R}.

Definition grows {A} (m : M S A) : Prop := forall s a s', m s = Ok a s' -> R s s'.

Lemma grows_ret {A} (a : A) : grows (ret a).
Proof using PreOrder0. intros s b s' [= _ <-]. reflexivity. Qed.
Lemma grows_fail {A} f : grows (fail (A := A) f).
Proof. by intros s a s'. Qed.
Lemma grows_gets {A} (f : S -> A) : grows (gets f).
Proof using PreOrder0. intros s b s' [= _ <-]. reflexivity. Qed.
Lemma grows_modify f : (forall s, R s (f s)) -> grows (modify f).
Proof. intros H s b s' [= _ <-]. apply H. Qed.
Lemma grows_bind {A B} (m : M S A) (k : A -> M S B) : grows m -> (forall a, grows (k a)) -> grows (bind m k).
Proof using PreOrder0.
  intros Hm Hk s b s'. unfold bind. destruct (m s) as [a s1|] eqn:E; [|done]. intros E2. transitivity s1; [by eapply Hm|by eapply Hk].
Qed.
Lemma grows_assert b : grows (assert_ b).
Proof using PreOrder0. destruct b; [apply grows_ret|apply grows_fail]. Qed.
Lemma grows_from_opt {A} f (o : option A) : grows (from_opt f o).
Proof using PreOrder0. destruct o; [apply grows_ret|apply grows_fail]. Qed.
Lemma grows_when b m : grows m -> grows (when b m).
Proof using PreOrder0. intros Hm. destruct b; [done|apply grows_ret]. Qed.
Lemma grows_for n from body : (forall i, grows (body i)) -> grows (for_ n from body).
Proof using PreOrder0.
  intros Hb. revert from. induction n as [|n IH]; intros from; [apply grows_ret|]. by apply grows_bind.
Qed.
End grows.

Ltac grow := repeat first
  [ assumption | apply grows_fail | apply grows_ret; exact _ | apply grows_gets; exact _ | apply grows_assert; exact _
  | apply grows_from_opt; exact _ | apply grows_bind; [exact _| |intros ?] | apply grows_when; [exact _|]
  | apply grows_for; [exact _|intros ?]
  | match goal with |- grows _ (match ?x with _ => _ end) => destruct x end
  | apply grows_modify; intros ?; reflexivity ].

(** ** Reasoning about monadic code

    [wp m Q s]: [m], started in [s], returns and its result and final state
    satisfy [Q].  It is a total-correctness predicate: a fault falsifies it. *)
Section wp.
Context {S : Type}.

Definition wp {A} (m : M S A) (Q : A -> S -> Prop) (s : S) : Prop :=
  match m s with
  | Ok a s' => Q a s'
  | Fail _ _ => False
  end.

Lemma wp_ret {A} (a : A) (Q : A -> S -> Prop) s : Q a s -> wp (ret a) Q s.
Proof. done. Qed.

Lemma bind_run {A B} (m : M S A) (k : A -> M S B) s a s' :
  m s = Ok a s' -> bind m k s = k a s'.
Proof. unfold bind. by intros ->. Qed.

Lemma bind_fail {A B} (m : M S A) (k : A -> M S B) s f s' :
  m s = Fail f s' -> bind m k s = Fail f s'.
Proof. unfold bind. by intros ->. Qed.

Lemma wp_bind {A B} (m : M S A) (k : A -> M S B) (Q : B -> S -> Prop) s :
  wp m (fun a s' => wp (k a) Q s') s -> wp (bind m k) Q s.
Proof. unfold wp, bind. by destruct (m s). Qed.

Lemma wp_bind_assoc {A B C} (m : M S A) (k : A -> M S B) (h : B -> M S C) (Q : C -> S -> Prop) s :
  wp (bind m k) (fun b => wp (h b) Q) s -> wp (bind m (fun a => bind (k a) h)) Q s.
Proof. unfold wp, bind. destruct (m s) as [a s1|f s1]; [|done]. by destruct (k a s1). Qed.

Lemma wp_mono {A} (m : M S A) (Q Q' : A -> S -> Prop) s :
  wp m Q s -> (forall a s', Q a s' -> Q' a s') -> wp m Q' s.
Proof. unfold wp. destruct (m s); naive_solver. Qed.

Lemma wp_gets {A} (f : S -> A) (Q : A -> S -> Prop) s : Q (f s) s -> wp (gets f) Q s.
Proof. done. Qed.

Lemma wp_modify (f : S -> S) (Q : unit -> S -> Prop) s : Q tt (f s) -> wp (modify f) Q s.
Proof. done. Qed.

Lemma wp_assert b (Q : unit -> S -> Prop) s : b = true -> Q tt s -> wp (assert_ b) Q s.
Proof. by intros ->. Qed.

Lemma wp_from_opt {A} f (o : option A) (a : A) (Q : A -> S -> Prop) s :
  o = Some a -> Q a s -> wp (from_opt f o) Q s.
Proof. by intros ->. Qed.

Lemma wp_run {A} (m : M S A) (Q : A -> S -> Prop) s :
  wp m Q s <-> exists a s', m s = Ok a s' /\ Q a s'.
Proof. unfold wp. destruct (m s); naive_solver. Qed.

Lemma wp_ok {A} (m : M S A) (Q : A -> S -> Prop) s a s' :
  m s = Ok a s' -> Q a s' -> wp m Q s.
Proof. unfold wp. by intros ->. Qed.

(** A property of the outcome that evaluation can decide. *)
Lemma wp_and {A} (m : M S A) (Q Q' : A -> S -> Prop) s : wp m Q s -> wp m Q' s -> wp m (fun a s' => Q a s' /\ Q' a s') s.
Proof. unfold wp. by destruct (m s). Qed.

Lemma wp_check {A} (m : M S A) (Q : A -> S -> Prop) (check : A -> S -> bool) s :
  wp m Q s -> (match m s with Ok a s' => check a s' | Fail _ _ => false end) = true ->
  exists a s', Q a s' /\ check a s' = true.
Proof. unfold wp. destruct (m s) as [a s'|f s']; [eauto|done]. Qed.

(** A loop with a loop invariant indexed by the counter. *)
Lemma wp_for (I : Z -> S -> Prop) n from (body : Z -> M S unit) s (Q : unit -> S -> Prop) :
  I from s ->
  (forall i s', from <= i < from + Z.of_nat n -> I i s' ->
     wp (body i) (fun _ s'' => I (i + 1) s'') s') ->
  (forall s', I (from + Z.of_nat n) s' -> Q tt s') ->
  wp (for_ n from body) Q s.
Proof.
  revert from s. induction n as [|n IH]; intros from s HI Hbody HQ; simpl.
  - apply wp_ret, HQ. by replace (from + Z.of_nat 0) with from by lia.
  - apply wp_bind. eapply wp_mono; [apply Hbody; [lia|done]|].
    intros [] s' HI'. apply IH; [done| |].
    + intros i s'' Hi. apply Hbody. lia.
    + intros s'' HI''. apply HQ.
      by replace (from + Z.of_nat (Datatypes.S n)) with (from + 1 + Z.of_nat n) by lia.
Qed.
End wp.

Lemma wp_zoom {S T A} (get : S -> T) (put : T -> S -> S) (m : M T A) (Q : A -> S -> Prop) s :
  wp m (fun a t => Q a (put t s)) (get s) -> wp (zoom get put m) Q s.
Proof. unfold wp, zoom. by destruct (m (get s)). Qed.

Lemma wp_forM {S A} (I : list A -> S -> Prop) (l : list A) (body : A -> M S unit) s (Q : unit -> S -> Prop) :
  I [] s ->
  (forall done x todo s', l = done ++ x :: todo -> I done s' ->
     wp (body x) (fun _ s'' => I (done ++ [x]) s'') s') ->
  (forall s', I l s' -> Q tt s') ->
  wp (forM l body) Q s.
Proof.
  intros HI Hbody HQ.
  assert (Hg : forall todo done s', l = done ++ todo -> I done s' -> wp (forM todo body) Q s').
  { induction todo as [|x todo IH]; intros done s' -> Hd; simpl.
    - apply wp_ret, HQ. by rewrite app_nil_r.
    - apply wp_bind. eapply wp_mono; [by eapply Hbody|]. intros [] s'' Hs''.
      apply (IH (done ++ [x])); [by rewrite <- app_assoc|done]. }
  by apply (Hg l [] s).
Qed.

(** ** Shared automation

    [mstep] performs one step of a monadic goal; [msteps] as many as it can. *)
Ltac mstep :=
  match goal with
  | |- wp (bind _ _) _ _ => apply wp_bind
  | |- wp (ret _) _ _ => apply wp_ret
  | |- wp (gets _) _ _ => apply wp_gets
  | |- wp (modify _) _ _ => apply wp_modify
  | |- wp (assert_ _) _ _ => apply wp_assert
  | H : ?o = Some _ |- wp (from_opt _ ?o) _ _ => apply (wp_from_opt _ _ _ _ _ H)
  end.
Ltac msteps := repeat (mstep; cbn beta).

(** Split every boolean conjunction, disjunction and comparison in sight. *)
Ltac bsimpl :=
  rewrite ?andb_true_iff, ?orb_true_iff, ?andb_false_iff, ?orb_false_iff,
    ?negb_true_iff, ?negb_false_iff, ?Z.eqb_eq, ?Z.eqb_neq, ?Z.ltb_lt, ?Z.ltb_ge,
    ?Z.leb_le, ?Z.leb_gt in *.

(** ** Lists indexed by Z *)
Definition zget {A} (l : list A) (i : Z) : option A :=
  if 0 <=? i then l !! Z.to_nat i else None.

Definition zset {A} (l : list A) (i : Z) (x : A) : option (list A) :=
  if (0 <=? i) && (i <? Z.of_nat (length l)) then Some (<[Z.to_nat i := x]> l) else None.

Definition zlen {A} (l : list A) : Z := Z.of_nat (length l).

Lemma zlen_app {A} (l l' : list A) : zlen (l ++ l') = zlen l + zlen l'.
Proof. unfold zlen. rewrite length_app. lia. Qed.

Section zlist.
Context {A : Type}.
Implicit Types (l : list A) (i j : Z) (x y : A).

Lemma zlen_nonneg l : 0 <= zlen l.
Proof. unfold zlen. lia. Qed.

Lemma zget_is_Some l i : is_Some (zget l i) <-> 0 <= i < zlen l.
Proof.
  unfold zget, zlen. destruct (Z.leb_spec 0 i).
  - rewrite lookup_lt_is_Some. lia.
  - split; [by intros []|lia].
Qed.

Lemma zget_lt l i x : zget l i = Some x -> 0 <= i < zlen l.
Proof. intros H. apply zget_is_Some. by exists x. Qed.

Lemma zget_Some_nat l i x : zget l i = Some x -> l !! Z.to_nat i = Some x.
Proof. unfold zget. by destruct (0 <=? i). Qed.

Lemma zget_None l i : zget l i = None <-> i < 0 \/ zlen l <= i.
Proof.
  rewrite eq_None_not_Some, zget_is_Some. lia.
Qed.

Lemma zset_is_Some l i x : is_Some (zset l i x) <-> 0 <= i < zlen l.
Proof.
  unfold zset, zlen. destruct (Z.leb_spec 0 i), (Z.ltb_spec i (Z.of_nat (length l))); simpl;
    split; try lia; try (by intros []); by eexists.
Qed.

Lemma zset_Some l i x l' :
  zset l i x = Some l' <-> 0 <= i < zlen l /\ l' = <[Z.to_nat i := x]> l.
Proof.
  unfold zset, zlen. destruct (Z.leb_spec 0 i), (Z.ltb_spec i (Z.of_nat (length l))); simpl;
    naive_solver lia.
Qed.

Lemma zset_len l i x l' : zset l i x = Some l' -> zlen l' = zlen l.
Proof. intros [_ ->]%zset_Some. unfold zlen. by rewrite length_insert. Qed.

Lemma zget_zset l i j x l' :
  zset l i x = Some l' -> zget l' j = if decide (i = j) then Some x else zget l j.
Proof.
  intros [Hi ->]%zset_Some. unfold zget, zlen in *.
  case_decide as Hij; [subst|].
  - destruct (Z.leb_spec 0 j); [|lia]. apply list_lookup_insert_eq. lia.
  - destruct (Z.leb_spec 0 j); [|done]. apply list_lookup_insert_ne. lia.
Qed.

Lemma zget_zset_eq l i x l' : zset l i x = Some l' -> zget l' i = Some x.
Proof. intros H. rewrite (zget_zset _ _ _ _ _ H). by rewrite decide_True. Qed.

Lemma zget_zset_ne l i j x l' : zset l i x = Some l' -> i <> j -> zget l' j = zget l j.
Proof. intros H Hne. rewrite (zget_zset _ _ _ _ _ H). by rewrite decide_False. Qed.

Lemma zset_total l i x : 0 <= i < zlen l -> exists l', zset l i x = Some l'.
Proof. intros H. apply zset_is_Some with (x := x) in H as [l' ->]. eauto. Qed.

Lemma zget_total l i : 0 <= i < zlen l -> exists x, zget l i = Some x.
Proof. intros H. apply zget_is_Some in H as [x ->]. eauto. Qed.

Lemma zget_app_l l k i : i < zlen l -> zget (l ++ k) i = zget l i.
Proof.
  unfold zget, zlen. intros H. destruct (Z.leb_spec 0 i); [|done].
  apply lookup_app_l. lia.
Qed.

Lemma zget_app_r l k i : zlen l <= i -> zget (l ++ k) i = zget k (i - zlen l).
Proof.
  unfold zget, zlen. intros H.
  destruct (Z.leb_spec 0 i), (Z.leb_spec 0 (i - Z.of_nat (length l))); try lia.
  rewrite lookup_app_r by lia. f_equal. lia.
Qed.

Lemma zget_replicate n x i : 0 <= i < Z.of_nat n -> zget (replicate n x) i = Some x.
Proof.
  unfold zget. intros H. destruct (Z.leb_spec 0 i); [|lia].
  apply lookup_replicate_2. lia.
Qed.

Lemma zlen_replicate n x : zlen (replicate n x) = Z.of_nat n.
Proof. unfold zlen. by rewrite length_replicate. Qed.
End zlist.

Create HintDb pm discriminated.
#[export] Hint Resolve zlen_nonneg zget_zset_eq zset_len zget_lt : pm.
