(* ===== verification/Macros.v ===== *)
(** * Machine arithmetic of [src/utils/macros.h], [src/settings.h]

    C integers are [Z] with their wrap-around written out ([u8] .. [u64],
    [s32]); the rounding macros, the flag macros, the allocation-state macro
    and the cache-line walk of [src/atomics.c] are translated here.  Lemmas
    characterise each mask expression by the arithmetic it stands for. *)
From Stdlib Require Import ZArith Lia.
From stdpp Require Import base numbers list.
From S2P Require Import Prelude.
Open Scope Z_scope.

(** ** Fixed-width integers *)
Definition wrap (w x : Z) : Z := x mod 2 ^ w.
Definition u8 := wrap 8.
Definition u16 := wrap 16.
Definition u32 := wrap 32.
Definition u64 := wrap 64.
Definition s32 (x : Z) : Z := (x + 2 ^ 31) mod 2 ^ 32 - 2 ^ 31.

Definition in_u (w x : Z) : Prop := 0 <= x < 2 ^ w.

Lemma wrap_id w x : in_u w x -> wrap w x = x.
Proof. intros H. by apply Z.mod_small. Qed.

Lemma wrap_range w x : 0 <= w -> in_u w (wrap w x).
Proof. intros Hw. apply Z.mod_pos_bound. by apply Z.pow_pos_nonneg. Qed.

Lemma s32_id x : - 2 ^ 31 <= x < 2 ^ 31 -> s32 x = x.
Proof. intros H. unfold s32. rewrite Z.mod_small by lia. lia. Qed.

(** ** Settings *)
Definition CONTAINER_CNT := 1.
Definition PAGE_SIZE := 4096.
Definition CACHE_LINE_SIZE := 64.
Definition FM_FILE_SIZE := PAGE_SIZE * 2.
Definition CONTAINER_LIMA_ADDRESS := 0.

(** ** Rounding

    [~m] has all the high bits set in every width used, so [x & ~m] on a
    non-negative [x] is [Z.land x (Z.lnot m)]; the addition is what can wrap. *)
Definition PAGE_MASK := PAGE_SIZE - 1.
Definition CACHE_LINE_SIZE_MASK := CACHE_LINE_SIZE - 1.

Definition ROUND8 (x : Z) : Z := Z.land (u32 (x + 7)) (Z.lnot 7).
Definition ROUND_DWN8 (x : Z) : Z := Z.land x (Z.lnot 7).
Definition ROUNDPG (x : Z) : Z := Z.land (u64 (x + PAGE_MASK)) (Z.lnot PAGE_MASK).
Definition ROUND_DWNPG (x : Z) : Z := Z.land x (Z.lnot PAGE_MASK).
Definition PAGE_ROUND_DOWN (x : Z) : Z := Z.land x (Z.lnot PAGE_MASK).
Definition ROUND_UPCL (x : Z) : Z :=
  Z.land (u64 (x + CACHE_LINE_SIZE_MASK)) (Z.lnot CACHE_LINE_SIZE_MASK).
Definition ROUND_DWNCL (x : Z) : Z := Z.land x (Z.lnot CACHE_LINE_SIZE_MASK).

Definition MIN (x y : Z) : Z := if x <? y then x else y.
Definition MAX (x y : Z) : Z := if x >? y then x else y.

(** ** Pointers as integers *)
Definition ptoi (p : Z) : Z := u64 p.
Definition itop (i : Z) : Z := u64 i.

(** ** Flags *)
Definition test_flag (bitarray flag : Z) : Z := Z.land bitarray flag.
Definition set_flag (bitarray flag : Z) : Z := Z.lor bitarray flag.
Definition clear_flag (bitarray flag : Z) : Z := Z.land bitarray (Z.lnot flag).

(** ** Kinds of checkpoint and restore *)
Inductive cpoint_type :=
  | CPOINT_COMPLETE | CPOINT_INCOMPLETE | CPOINT_RESTORE | CPOINT_REGULAR.

#[export] Instance cpoint_type_eq_dec : EqDecision cpoint_type.
Proof. solve_decision. Defined.

(** [MIN(c, 1) ^ MIN(s, 1)]: true when exactly one of the two is zero. *)
Definition NOT_CS_CONSISTENT (c s : Z) : Z := Z.lxor (MIN c 1) (MIN s 1).

(** ** [src/atomics.c]: the cache lines [flush_memsegment] flushes

    [for (itr = low; itr < high; itr += CACHE_LINE_SIZE) flush(itr, fence)]. *)
Fixpoint flush_lines (fuel : nat) (itr high : Z) : option (list Z) :=
  match fuel with
  | O => None
  | S fuel' =>
      if itr <? high then
        match flush_lines fuel' (itr + CACHE_LINE_SIZE) high with
        | Some ls => Some (itr :: ls)
        | None => None
        end
      else Some []
  end.

Definition flush_memsegment (src n : Z) : option (list Z) :=
  let low := itop (ROUND_DWNCL (ptoi src)) in
  let high := itop (ROUND_UPCL (ptoi src + n)) in
  flush_lines (Z.to_nat (n / CACHE_LINE_SIZE + 3)) low high.

(** ** What the mask expressions compute *)
Lemma land_lnot_ones x k : 0 <= k -> Z.land x (Z.lnot (Z.ones k)) = x / 2 ^ k * 2 ^ k.
Proof.
  intros Hk. rewrite <- Z.ldiff_land, Z.ldiff_ones_r, Z.shiftl_mul_pow2, Z.shiftr_div_pow2 by done.
  done.
Qed.

(** [x & ~(m)] rounds [x] down to a multiple of [m + 1], a power of two. *)
Lemma mask_down x m k :
  0 <= k -> m = Z.ones k -> Z.land x (Z.lnot m) = x - x mod 2 ^ k.
Proof.
  intros Hk ->. rewrite land_lnot_ones by done.
  pose proof (Z.div_mod x (2 ^ k)). pose proof (Z.pow_pos_nonneg 2 k). lia.
Qed.

Ltac mask k := rewrite (mask_down _ _ k) by (done || reflexivity).

Lemma ROUND_DWNPG_eq x : ROUND_DWNPG x = x - x mod PAGE_SIZE.
Proof. unfold ROUND_DWNPG. by mask 12. Qed.

Lemma ROUND_DWNPG_spec x :
  0 <= x -> (PAGE_SIZE | ROUND_DWNPG x) /\ ROUND_DWNPG x <= x < ROUND_DWNPG x + PAGE_SIZE.
Proof.
  intros Hx. rewrite ROUND_DWNPG_eq. unfold PAGE_SIZE.
  pose proof (Z.mod_pos_bound x 4096). split; [|lia].
  exists (x / 4096). pose proof (Z.div_mod x 4096). lia.
Qed.

Lemma ROUND_DWNPG_aligned x : x mod PAGE_SIZE = 0 -> ROUND_DWNPG x = x.
Proof. intros H. rewrite ROUND_DWNPG_eq, H. lia. Qed.

Lemma ROUND_DWNPG_offset base off :
  base mod PAGE_SIZE = 0 -> 0 <= off < PAGE_SIZE -> ROUND_DWNPG (base + off) = base.
Proof.
  intros Hb Ho. rewrite ROUND_DWNPG_eq, <- Z.add_mod_idemp_l by done.
  rewrite Hb, Z.add_0_l, Z.mod_small by done. lia.
Qed.

Lemma up_mod x k :
  0 < k -> x + (k - 1) - (x + (k - 1)) mod k = k * ((x + (k - 1)) / k).
Proof. intros Hk. pose proof (Z.div_mod (x + (k - 1)) k). lia. Qed.

(** Rounding up to [k] yields the least multiple of [k] not below [x]. *)
Lemma round_up_least x k :
  0 < k ->
  let r := x + (k - 1) - (x + (k - 1)) mod k in
  (k | r) /\ x <= r < x + k /\ forall y, (k | y) -> x <= y -> r <= y.
Proof.
  intros Hk r. unfold r. pose proof (Z.mod_pos_bound (x + (k - 1)) k Hk) as Hm.
  rewrite up_mod in * by done. pose proof (Z.div_mod (x + (k - 1)) k) as Hd.
  split_and!; [by exists ((x + (k - 1)) / k); lia|lia|lia|].
  intros y [q ->] Hy.
  assert ((x + (k - 1)) / k <= q); [|nia].
  enough ((x + (k - 1)) / k < q + 1) by lia. apply Z.div_lt_upper_bound; lia.
Qed.

Lemma ROUND8_eq x : 0 <= x -> x + 7 < 2 ^ 32 -> ROUND8 x = x + (8 - 1) - (x + (8 - 1)) mod 8.
Proof.
  intros H1 H2. unfold ROUND8, u32. rewrite wrap_id by (unfold in_u; lia). by mask 3.
Qed.

Lemma ROUNDPG_eq x :
  0 <= x -> x + PAGE_MASK < 2 ^ 64 ->
  ROUNDPG x = x + (PAGE_SIZE - 1) - (x + (PAGE_SIZE - 1)) mod PAGE_SIZE.
Proof.
  intros H1 H2. unfold ROUNDPG, u64. rewrite wrap_id by (unfold in_u, PAGE_MASK, PAGE_SIZE in *; lia).
  by mask 12.
Qed.

Lemma ROUND8_fix x : 0 <= x -> x + 7 < 2 ^ 32 -> x mod 8 = 0 -> ROUND8 x = x.
Proof.
  intros H1 H2 H3. rewrite ROUND8_eq by done.
  rewrite <- Z.add_mod_idemp_l, H3 by done. change ((0 + (8 - 1)) mod 8) with 7. lia.
Qed.

(** Page rounding of an allocation request between one byte and a page. *)
Lemma ROUNDPG_page x : 1 <= x <= PAGE_SIZE -> ROUNDPG x = PAGE_SIZE.
Proof.
  intros Hx. rewrite ROUNDPG_eq by (unfold PAGE_MASK, PAGE_SIZE in *; lia).
  destruct (round_up_least x PAGE_SIZE) as ([q Hq] & Hr & Hl); [done|].
  unfold PAGE_SIZE in *. nia.
Qed.

Lemma NOT_CS_CONSISTENT_spec c s :
  0 <= c -> 0 <= s -> NOT_CS_CONSISTENT c s = 0 <-> (c = 0 <-> s = 0).
Proof.
  intros Hc Hs. unfold NOT_CS_CONSISTENT, MIN. rewrite Z.lxor_eq_0_iff.
  destruct (Z.ltb_spec c 1), (Z.ltb_spec s 1); lia.
Qed.

(** Setting, clearing and testing a single-bit flag. *)
Lemma flag_laws bits k :
  0 <= k ->
  let flag := 2 ^ k in
  test_flag (set_flag bits flag) flag <> 0 /\ test_flag (clear_flag bits flag) flag = 0 /\
  clear_flag (set_flag bits flag) flag = clear_flag bits flag.
Proof.
  intros Hk flag. unfold test_flag, set_flag, clear_flag, flag.
  assert (Hb : Z.testbit (2 ^ k) k = true) by (by apply Z.pow2_bits_true).
  split_and!.
  - intros H. apply (f_equal (fun z => Z.testbit z k)) in H.
    rewrite Z.land_spec, Z.lor_spec, Hb, orb_true_r, Z.testbit_0_l in H. done.
  - apply Z.bits_inj'. intros n Hn. rewrite !Z.land_spec, Z.lnot_spec, Z.testbit_0_l by done.
    destruct (Z.testbit bits n), (Z.testbit (2 ^ k) n); done.
  - apply Z.bits_inj'. intros n Hn. rewrite !Z.land_spec, Z.lor_spec, Z.lnot_spec by done.
    destruct (Z.testbit bits n), (Z.testbit (2 ^ k) n); done.
Qed.

#[export] Hint Resolve ROUND_DWNPG_offset ROUND_DWNPG_aligned ROUNDPG_page : pm.

(** ** The flush walk *)
Lemma flush_lines_spec fuel itr high ls :
  flush_lines fuel itr high = Some ls ->
  forall a, In a ls <-> exists k, 0 <= k /\ a = itr + k * CACHE_LINE_SIZE /\ a < high.
Proof.
  unfold CACHE_LINE_SIZE. revert itr ls. induction fuel as [|fuel IH]; intros itr ls; simpl; [done|].
  unfold CACHE_LINE_SIZE. destruct (Z.ltb_spec itr high) as [Hlt|Hge].
  - destruct (flush_lines fuel (itr + 64) high) as [ls'|] eqn:E; [|done].
    intros [= <-] a. simpl. rewrite (IH _ _ E a). split.
    + intros [->|(k & ? & -> & ?)]; [exists 0; lia|exists (k + 1); lia].
    + intros (k & ? & -> & ?). destruct (decide (k = 0)) as [->|]; [left; lia|].
      right. exists (k - 1). lia.
  - intros [= <-] a. split; [done|]. intros (k & ? & -> & ?). lia.
Qed.

Lemma flush_lines_total fuel itr high :
  high - itr <= (Z.of_nat fuel - 1) * CACHE_LINE_SIZE -> (0 < fuel)%nat ->
  exists ls, flush_lines fuel itr high = Some ls.
Proof.
  unfold CACHE_LINE_SIZE. revert itr. induction fuel as [|fuel IH]; intros itr H Hf; [lia|simpl].
  destruct (Z.ltb_spec itr high); [|eauto].
  unfold CACHE_LINE_SIZE. destruct (IH (itr + 64)) as [ls ->]; [lia|lia|eauto].
Qed.

(** The lines [flush_memsegment] flushes are exactly the 64-byte lines that
    meet the segment: it terminates, flushes every line holding a byte of the
    segment and no other. *)
Lemma flush_memsegment_spec src n :
  0 <= src -> 0 < n -> src + n + CACHE_LINE_SIZE_MASK < 2 ^ 64 ->
  exists ls, flush_memsegment src n = Some ls /\
    forall a, In a ls <-> (CACHE_LINE_SIZE | a) /\ exists b, src <= b < src + n /\ a <= b < a + CACHE_LINE_SIZE.
Proof.
  intros Hs Hn Hmax.
  assert (Hlow : ROUND_DWNCL src = src - src mod 64) by (unfold ROUND_DWNCL; by mask 6).
  assert (Hhigh : ROUND_UPCL (src + n) = src + n + (64 - 1) - (src + n + (64 - 1)) mod 64).
  { unfold ROUND_UPCL, u64. rewrite wrap_id; [by mask 6|].
    unfold in_u, CACHE_LINE_SIZE_MASK, CACHE_LINE_SIZE in *. lia. }
  destruct (round_up_least (src + n) 64) as ([q Hq] & Hr & _); [done|].
  pose proof (Z.mod_pos_bound src 64). pose proof (Z.div_mod src 64).
  unfold flush_memsegment, ptoi, itop. unfold CACHE_LINE_SIZE_MASK, CACHE_LINE_SIZE in *.
  assert (Eu : forall z, 0 <= z < 2 ^ 64 -> u64 z = z) by (intros; by apply wrap_id).
  rewrite (Eu src) by lia. rewrite Hlow, Hhigh, !Eu by lia.
  set (low := src - src mod 64) in *. set (high := _ - (src + n + (64 - 1)) mod 64) in *.
  destruct (flush_lines_total (Z.to_nat (n / 64 + 3)) low high) as [ls Els].
  { unfold CACHE_LINE_SIZE. pose proof (Z.div_mod n 64). pose proof (Z.mod_pos_bound n 64).
    pose proof (Z.div_pos n 64). lia. }
  { pose proof (Z.div_pos n 64). lia. }
  exists ls. split; [done|]. intros a. rewrite (flush_lines_spec _ _ _ _ Els).
  unfold CACHE_LINE_SIZE. split.
  - intros (k & Hk & -> & Hlt). split; [exists (src / 64 + k); lia|].
    destruct (Z.le_gt_cases src (low + k * 64)); [exists (low + k * 64)|exists src]; lia.
  - intros ([j ->] & b & Hb & Hab). exists (j - src / 64). lia.
Qed.

(** ** Properties *)

(** [flush_memsegment] terminates and flushes exactly the cache lines
    that hold a byte of the segment. *)
Theorem flush_memsegment_correct src n :
  0 <= src -> 0 < n -> src + n + CACHE_LINE_SIZE_MASK < 2 ^ 64 ->
  exists ls, flush_memsegment src n = Some ls /\
    forall a, In a ls <-> (CACHE_LINE_SIZE | a) /\ exists b, src <= b < src + n /\ a <= b < a + CACHE_LINE_SIZE.
Proof. apply flush_memsegment_spec. Qed.

Lemma flush_memsegment_correct_witness :
  exists ls, flush_memsegment 100 60 = Some ls /\
    forall a, In a ls <-> (CACHE_LINE_SIZE | a) /\ exists b, 100 <= b < 100 + 60 /\ a <= b < a + CACHE_LINE_SIZE.
Proof. apply (flush_memsegment_correct 100 60); reflexivity || (intros H; discriminate H). Defined.
