(* ===== verification/Bitstring.v ===== *)
(** * Bit strings: [src/utils/bitstring.h]

    A [bitstr_t *] is a list of bytes ([Z] in 0..255); an access outside the
    list is [None].  Every macro that reads or changes a bit string is a
    function here.  [bitz] is the abstract view: the boolean at bit position
    [i].  The theorems relate each macro to that view. *)
From Stdlib Require Import ZArith Lia.
From stdpp Require Import base numbers list option.
From S2P Require Import Prelude Macros.
Open Scope Z_scope.

Notation bitstr_t := Z (only parsing).

(** ** Addressing *)
Definition _bit_byte (bit : Z) : Z := Z.shiftr bit 3.
Definition _bit_mask (bit : Z) : Z := Z.shiftl 1 (Z.land bit 7).
Definition bitstr_size (nbits : Z) : Z := Z.shiftr (nbits + 7) 3.
Definition bit_alloc (nbits : Z) : list bitstr_t := replicate (Z.to_nat (bitstr_size nbits)) 0.

(** ** Single bits *)
Definition bit_test (name : list bitstr_t) (bit : Z) : option Z :=
  b ← zget name (_bit_byte bit); Some (Z.land b (_bit_mask bit)).

Definition bit_set (name : list bitstr_t) (bit : Z) : option (list bitstr_t) :=
  b ← zget name (_bit_byte bit); zset name (_bit_byte bit) (u8 (Z.lor b (_bit_mask bit))).

Definition bit_clear (name : list bitstr_t) (bit : Z) : option (list bitstr_t) :=
  b ← zget name (_bit_byte bit);
  zset name (_bit_byte bit) (u8 (Z.land b (Z.lnot (_bit_mask bit)))).

(** ** Ranges of bits *)

(** [_name[byte] op= m] *)
Definition byte_and (name : list bitstr_t) (byte m : Z) : option (list bitstr_t) :=
  b ← zget name byte; zset name byte (u8 (Z.land b m)).
Definition byte_or (name : list bitstr_t) (byte m : Z) : option (list bitstr_t) :=
  b ← zget name byte; zset name byte (u8 (Z.lor b m)).

(** [while (++_startbyte < _stopbyte) _name[_startbyte] = v]; [n] is the
    number of iterations, [_stopbyte - _startbyte - 1]. *)
Fixpoint byte_fill (n : nat) (name : list bitstr_t) (startbyte v : Z) : option (list bitstr_t) :=
  match n with
  | O => Some name
  | S n' => name' ← zset name (startbyte + 1) v; byte_fill n' name' (startbyte + 1) v
  end.

Definition bit_nclear (name : list bitstr_t) (start stop : Z) : option (list bitstr_t) :=
  let startbyte := _bit_byte start in
  let stopbyte := _bit_byte stop in
  let lo := Z.shiftr 255 (8 - Z.land start 7) in
  let hi := Z.shiftl 255 (Z.land stop 7 + 1) in
  if startbyte =? stopbyte then byte_and name startbyte (Z.lor lo hi)
  else
    name ← byte_and name startbyte lo;
    name ← byte_fill (Z.to_nat (stopbyte - startbyte - 1)) name startbyte 0;
    byte_and name stopbyte hi.

Definition bit_nset (name : list bitstr_t) (start stop : Z) : option (list bitstr_t) :=
  let startbyte := _bit_byte start in
  let stopbyte := _bit_byte stop in
  let lo := Z.shiftl 255 (Z.land start 7) in
  let hi := Z.shiftr 255 (7 - Z.land stop 7) in
  if startbyte =? stopbyte then byte_or name startbyte (Z.land lo hi)
  else
    name ← byte_or name startbyte lo;
    name ← byte_fill (Z.to_nat (stopbyte - startbyte - 1)) name startbyte 255;
    byte_or name stopbyte hi.

(** ** Searching

    [for (_lb = byte; continue(_lb); ++_value, _lb >>= 1);] *)
Fixpoint lb_loop (continue : Z -> bool) (fuel : nat) (lb value : Z) : option Z :=
  match fuel with
  | O => None
  | S fuel' =>
      if continue lb then lb_loop continue fuel' (Z.shiftr lb 1) (value + 1) else Some value
  end.

(** The byte loop of [bit_ffc] and [bit_ffs]: the first byte satisfying
    [hit] is scanned with [lb_loop]; [n] bytes remain from [byte] on. *)
Fixpoint byte_scan (hit : Z -> bool) (continue : Z -> bool) (n : nat)
    (name : list bitstr_t) (byte : Z) : option Z :=
  match n with
  | O => Some (-1)
  | S n' =>
      b ← zget name byte;
      if hit b then lb_loop continue 9 b (Z.shiftl byte 3)
      else byte_scan hit continue n' name (byte + 1)
  end.

(** The byte loop of [bit_fls], downwards. *)
Fixpoint byte_scan_down (hit : Z -> bool) (continue : Z -> bool) (n : nat)
    (name : list bitstr_t) (byte : Z) : option Z :=
  match n with
  | O => Some (-1)
  | S n' =>
      b ← zget name byte;
      if hit b then lb_loop continue 9 b (Z.shiftl byte 3)
      else byte_scan_down hit continue n' name (byte - 1)
  end.

Definition odd_bit (lb : Z) : bool := negb (Z.land lb 1 =? 0).

Definition bit_ffc (name : list bitstr_t) (nbits : Z) : option Z :=
  let stopbyte := _bit_byte (nbits - 1) in
  value ← (if 0 <? nbits
           then byte_scan (fun b => negb (b =? 255)) odd_bit (Z.to_nat (stopbyte + 1)) name 0
           else Some (-1));
  Some (if nbits <=? value then -1 else value).

Definition bit_ffs (name : list bitstr_t) (nbits : Z) : option Z :=
  let stopbyte := _bit_byte (nbits - 1) in
  value ← (if 0 <? nbits
           then byte_scan (fun b => negb (b =? 0)) (fun lb => negb (odd_bit lb))
                  (Z.to_nat (stopbyte + 1)) name 0
           else Some (-1));
  Some (if nbits <=? value then -1 else value).

Definition bit_fls (name : list bitstr_t) (nbits : Z) : option Z :=
  let startbyte := _bit_byte (nbits - 1) in
  value ← (if 0 <? nbits
           then byte_scan_down (fun b => negb (b =? 0)) (fun lb => negb (lb =? 1))
                  (Z.to_nat (startbyte + 1)) name startbyte
           else Some (-1));
  Some (if nbits <=? value then -1 else value).

(** ** [_bit_nsearch]: a clear range of [len] bits

    The loop variables of the macro.  The search is unbounded in the source;
    [fuel] bounds the iterations and [None] means it was not enough. *)
Record nsearch := Nsearch { ns_bit : Z; ns_bit0 : Z; ns_tmplen : Z; ns_match : bool }.

(** The inner search of the [_match == 0] branch; it leaves [_bit] alone
    when every byte up to [_stopbyte] is full. *)
Definition nsearch_first (name : list bitstr_t) (nbits bit : Z) : option Z :=
  let byte := _bit_byte bit in
  let stopbyte := _bit_byte (nbits - 1) in
  r ← byte_scan (fun b => negb (b =? 255)) odd_bit (Z.to_nat (stopbyte - byte + 1)) name byte;
  Some (if r =? -1 then bit else r).

Definition nsearch_step (name : list bitstr_t) (nbits len : Z) (s : nsearch) : option nsearch :=
  if negb (ns_match s) then
    bit ← nsearch_first name nbits (ns_bit s);
    Some (Nsearch (bit + 1) bit (ns_tmplen s - 1) true)
  else
    t ← bit_test name (ns_bit s);
    if t =? 0 then
      b ← zget name (_bit_byte (ns_bit s));
      if b =? 0 then Some (Nsearch (ns_bit s + 7 + 1) (ns_bit0 s) (ns_tmplen s - 8) true)
      else Some (Nsearch (ns_bit s + 1) (ns_bit0 s) (ns_tmplen s - 1) true)
    else Some (Nsearch (ns_bit s + 1) (ns_bit0 s) len false).

Fixpoint nsearch_loop (fuel : nat) (name : list bitstr_t) (nbits len : Z) (s : nsearch)
    : option nsearch :=
  match fuel with
  | O => None
  | S fuel' =>
      if (ns_bit s + ns_tmplen s <? nbits) && (0 <? ns_tmplen s) then
        s' ← nsearch_step name nbits len s; nsearch_loop fuel' name nbits len s'
      else Some s
  end.

Definition _bit_nsearch (fuel : nat) (name : list bitstr_t) (nbits len : Z) : option Z :=
  s ← nsearch_loop fuel name nbits len (Nsearch 0 (-1) len false);
  Some (if ns_tmplen s <=? 0 then ns_bit0 s else -1).

Definition bit_nsearch (fuel : nat) (name : list bitstr_t) (nbits len : Z) : option Z :=
  if 1 <? len then _bit_nsearch fuel name nbits len else bit_ffc name nbits.

(** ** The abstract view *)
Definition bitz (name : list bitstr_t) (i : Z) : bool :=
  match zget name (i / 8) with Some b => Z.testbit b (i mod 8) | None => false end.

Definition bytes_ok (name : list bitstr_t) : Prop := Forall (in_u 8) name.

(** ** Addressing lemmas *)
Lemma _bit_byte_eq i : _bit_byte i = i / 8.
Proof. unfold _bit_byte. by rewrite Z.shiftr_div_pow2. Qed.

Lemma _bit_mask_eq i : _bit_mask i = 2 ^ (i mod 8).
Proof.
  unfold _bit_mask. change 7 with (Z.ones 3). rewrite Z.land_ones by done.
  rewrite Z.shiftl_1_l. done.
Qed.

Lemma testbit_mask i n : 0 <= n -> Z.testbit (_bit_mask i) n = bool_decide (n = i mod 8).
Proof.
  intros Hn. rewrite _bit_mask_eq, Z.pow2_bits_eqb by (apply Z.mod_pos_bound; done).
  case_bool_decide; [by apply Z.eqb_eq|apply Z.eqb_neq; lia].
Qed.

Lemma testbit_u8 x n : 0 <= n < 8 -> Z.testbit (u8 x) n = Z.testbit x n.
Proof. intros Hn. unfold u8, wrap. apply Z.mod_pow2_bits_low. lia. Qed.

Lemma mod8 i : 0 <= i mod 8 < 8.
Proof. by apply Z.mod_pos_bound. Qed.

Lemma bit_addr_inj i j : i / 8 = j / 8 -> i mod 8 = j mod 8 -> i = j.
Proof. intros. rewrite (Z.div_mod i 8), (Z.div_mod j 8) by done. congruence. Qed.

Lemma bit_addr_range i n : 0 <= i < 8 * n -> 0 <= i / 8 < n.
Proof. intros Hi. split; [apply Z.div_pos; lia|apply Z.div_lt_upper_bound; lia]. Qed.
#[export] Hint Resolve bit_addr_range : pm.

Lemma bitz_lookup name i b :
  zget name (i / 8) = Some b -> bitz name i = Z.testbit b (i mod 8).
Proof. unfold bitz. by intros ->. Qed.

Lemma bitz_zset name k v name' j :
  zset name k v = Some name' ->
  bitz name' j = if decide (j / 8 = k) then Z.testbit v (j mod 8) else bitz name j.
Proof.
  intros Hs. unfold bitz. rewrite (zget_zset _ _ _ _ _ Hs).
  case_decide; [|by rewrite decide_False by congruence]. by rewrite decide_True by congruence.
Qed.

Lemma bytes_ok_zset name k v name' :
  bytes_ok name -> in_u 8 v -> zset name k v = Some name' -> bytes_ok name'.
Proof.
  intros Hok Hv [_ ->]%zset_Some. by apply Forall_insert.
Qed.

Lemma bytes_ok_zget name k b : bytes_ok name -> zget name k = Some b -> in_u 8 b.
Proof.
  unfold zget. destruct (0 <=? k); [|done]. intros H1 H2.
  by eapply Forall_lookup_1 in H2.
Qed.

Lemma u8_range x : in_u 8 (u8 x).
Proof. by apply wrap_range. Qed.
#[export] Hint Resolve u8_range bytes_ok_zset : pm.

(** ** Single bits *)
Lemma bit_test_spec name i t :
  bit_test name i = Some t -> (t =? 0) = negb (bitz name i).
Proof.
  unfold bit_test. rewrite _bit_byte_eq. intros (b & E & [= <-])%bind_Some.
  rewrite (bitz_lookup _ _ _ E). destruct (Z.testbit b (i mod 8)) eqn:Eb; simpl.
  - apply Z.eqb_neq. intros Hz. apply (f_equal (fun z => Z.testbit z (i mod 8))) in Hz.
    pose proof (mod8 i). rewrite Z.land_spec, Eb, testbit_mask, bool_decide_true, Z.testbit_0_l in Hz by lia.
    done.
  - apply Z.eqb_eq, Z.bits_inj'. intros n Hn. pose proof (mod8 i).
    rewrite Z.land_spec, testbit_mask, Z.testbit_0_l by done.
    case_bool_decide; [subst; by rewrite Eb|by rewrite andb_false_r].
Qed.

Lemma bit_test_total name i : 0 <= i < 8 * zlen name -> is_Some (bit_test name i).
Proof.
  intros Hi. unfold bit_test. rewrite _bit_byte_eq.
  destruct (zget_total name (i / 8)) as [b ->]; [by apply bit_addr_range|by eexists].
Qed.

Lemma bit_set_spec name i name' j :
  0 <= j -> bit_set name i = Some name' ->
  bitz name' j = bool_decide (j = i) || bitz name j.
Proof.
  intros Hj. unfold bit_set. rewrite _bit_byte_eq. intros (b & E & H)%bind_Some.
  rewrite (bitz_zset _ _ _ _ j H). pose proof (mod8 j). case_decide as Hd.
  - rewrite testbit_u8, Z.lor_spec, testbit_mask, orb_comm by lia.
    rewrite (bitz_lookup name j b) by congruence. f_equal.
    apply bool_decide_ext. split; [by apply bit_addr_inj|by intros ->].
  - rewrite bool_decide_false; [done|]. by intros ->.
Qed.

Lemma bit_clear_spec name i name' j :
  0 <= j -> bit_clear name i = Some name' ->
  bitz name' j = negb (bool_decide (j = i)) && bitz name j.
Proof.
  intros Hj. unfold bit_clear. rewrite _bit_byte_eq. intros (b & E & H)%bind_Some.
  rewrite (bitz_zset _ _ _ _ j H). pose proof (mod8 j). case_decide as Hd.
  - rewrite testbit_u8, Z.land_spec, Z.lnot_spec, testbit_mask, andb_comm by lia.
    rewrite (bitz_lookup name j b) by congruence. f_equal.
    apply (f_equal negb), bool_decide_ext. split; [by apply bit_addr_inj|by intros ->].
  - rewrite bool_decide_false; [done|]. by intros ->.
Qed.

Lemma bit_set_total name i :
  0 <= i < 8 * zlen name -> exists name', bit_set name i = Some name' /\ zlen name' = zlen name.
Proof.
  intros Hi. unfold bit_set. rewrite _bit_byte_eq.
  apply bit_addr_range in Hi as Hr.
  destruct (zget_total _ _ Hr) as [b ->].
  destruct (zset_total name (i / 8) (u8 (Z.lor b (_bit_mask i))) Hr) as [name' Hn].
  exists name'. simpl. eauto with pm.
Qed.

(** Only the byte of the bit changes. *)
Lemma bit_set_bytes name i name' : 0 <= i -> bytes_ok name -> bit_set name i = Some name' ->
  bytes_ok name' /\ forall j, i / 8 < Z.of_nat j -> name' !! j = name !! j.
Proof.
  intros Hi Hok. unfold bit_set. rewrite _bit_byte_eq. intros (b & E & Hz)%bind_Some. split.
  - eapply bytes_ok_zset; [exact Hok|apply u8_range|exact Hz].
  - intros j Hj. apply zset_Some in Hz as [_ ->]. apply list_lookup_insert_ne. pose proof (Z.div_pos i 8). lia.
Qed.

(** ** Ranges of bits *)
Lemma testbit_255 n : 0 <= n -> Z.testbit 255 n = (n <? 8).
Proof.
  intros Hn. change 255 with (Z.ones 8). rewrite Z.testbit_ones by done.
  by destruct (Z.leb_spec 0 n); [|lia].
Qed.

Lemma land_7 i : Z.land i 7 = i mod 8.
Proof. change 7 with (Z.ones 3). by rewrite Z.land_ones. Qed.

Lemma testbit_255_shl s n : 0 <= n < 8 -> 0 <= s -> Z.testbit (Z.shiftl 255 s) n = (s <=? n).
Proof.
  intros Hn Hs. rewrite Z.shiftl_spec by lia. destruct (Z.leb_spec s n).
  - rewrite testbit_255 by lia. apply Z.ltb_lt. lia.
  - by rewrite Z.testbit_neg_r by lia.
Qed.

Lemma testbit_255_shr s n : 0 <= n < 8 -> 0 <= s -> Z.testbit (Z.shiftr 255 s) n = (n + s <? 8).
Proof. intros Hn Hs. rewrite Z.shiftr_spec by lia. by rewrite testbit_255 by lia. Qed.

Lemma byte_and_spec name k m name' j :
  byte_and name k m = Some name' ->
  bitz name' j = if decide (j / 8 = k) then bitz name j && Z.testbit m (j mod 8) else bitz name j.
Proof.
  intros (b & E & H)%bind_Some. rewrite (bitz_zset _ _ _ _ j H).
  case_decide as Hd; [|done]. pose proof (mod8 j).
  by rewrite testbit_u8, Z.land_spec, (bitz_lookup name j b) by (congruence || lia).
Qed.

Lemma byte_or_spec name k m name' j :
  byte_or name k m = Some name' ->
  bitz name' j = if decide (j / 8 = k) then bitz name j || Z.testbit m (j mod 8) else bitz name j.
Proof.
  intros (b & E & H)%bind_Some. rewrite (bitz_zset _ _ _ _ j H).
  case_decide as Hd; [|done]. pose proof (mod8 j).
  by rewrite testbit_u8, Z.lor_spec, (bitz_lookup name j b) by (congruence || lia).
Qed.

Lemma byte_fill_spec n name k v name' j :
  byte_fill n name k v = Some name' ->
  bitz name' j = if decide (k < j / 8 <= k + Z.of_nat n) then Z.testbit v (j mod 8) else bitz name j.
Proof.
  revert name k. induction n as [|n IH]; intros name k; simpl.
  - intros [= <-]. rewrite decide_False; [done|lia].
  - intros (name1 & E & H)%bind_Some. rewrite (IH _ _ H), (bitz_zset _ _ _ _ j E).
    repeat case_decide; done || lia.
Qed.

Lemma byte_op_len (op : Z -> Z -> Z) name k m name' :
  (b ← zget name k; zset name k (u8 (op b m))) = Some name' -> zlen name' = zlen name.
Proof. intros (b & _ & H)%bind_Some. eauto with pm. Qed.

Lemma byte_fill_len n name k v name' : byte_fill n name k v = Some name' -> zlen name' = zlen name.
Proof.
  revert name k. induction n as [|n IH]; intros name k; simpl; [by intros [= <-]|].
  intros (name1 & E & H)%bind_Some. rewrite (IH _ _ H). eauto with pm.
Qed.

Ltac bitcases j :=
  repeat case_decide; pose proof (mod8 j); pose proof (Z.div_mod j 8);
  rewrite ?Z.testbit_0_l, ?testbit_255, ?Z.lor_spec, ?Z.land_spec, ?testbit_255_shl, ?testbit_255_shr
    by (lia || apply mod8);
  repeat match goal with
  | |- context [?a <=? ?b] => destruct (Z.leb_spec a b)
  | |- context [?a <? ?b] => destruct (Z.ltb_spec a b)
  | |- context [bitz ?n ?i] => destruct (bitz n i)
  end; try reflexivity; exfalso; lia.

(** [bit_nset] sets exactly the bits [start..stop]. *)
Lemma bit_nset_bits name start stop name' j :
  0 <= start <= stop -> bit_nset name start stop = Some name' ->
  bitz name' j = ((start <=? j) && (j <=? stop)) || bitz name j.
Proof.
  intros Hr. unfold bit_nset. rewrite !_bit_byte_eq, !land_7.
  pose proof (mod8 start). pose proof (mod8 stop).
  pose proof (Z.div_mod start 8). pose proof (Z.div_mod stop 8).
  pose proof (Z.div_le_mono start stop 8).
  destruct (Z.eqb_spec (start / 8) (stop / 8)) as [Heq|Hne]; intros H'.
  - rewrite (byte_or_spec _ _ _ _ j H'). bitcases j.
  - apply bind_Some in H' as (n1 & E1 & (n2 & E2 & E3)%bind_Some).
    rewrite (byte_or_spec _ _ _ _ j E3), (byte_fill_spec _ _ _ _ _ j E2), (byte_or_spec _ _ _ _ j E1).
    bitcases j.
Qed.

(** [bit_nclear] clears exactly the bits [start..stop]. *)
Lemma bit_nclear_bits name start stop name' j :
  0 <= start <= stop -> bit_nclear name start stop = Some name' ->
  bitz name' j = negb ((start <=? j) && (j <=? stop)) && bitz name j.
Proof.
  intros Hr. unfold bit_nclear. rewrite !_bit_byte_eq, !land_7.
  pose proof (mod8 start). pose proof (mod8 stop).
  pose proof (Z.div_mod start 8). pose proof (Z.div_mod stop 8).
  pose proof (Z.div_le_mono start stop 8).
  destruct (Z.eqb_spec (start / 8) (stop / 8)) as [Heq|Hne]; intros H'.
  - rewrite (byte_and_spec _ _ _ _ j H'). bitcases j.
  - apply bind_Some in H' as (n1 & E1 & (n2 & E2 & E3)%bind_Some).
    rewrite (byte_and_spec _ _ _ _ j E3), (byte_fill_spec _ _ _ _ _ j E2), (byte_and_spec _ _ _ _ j E1).
    bitcases j.
Qed.

Lemma byte_op_total (op : Z -> Z -> Z) name k m :
  0 <= k < zlen name -> is_Some (b ← zget name k; zset name k (u8 (op b m))).
Proof.
  intros Hk. destruct (zget_total _ _ Hk) as [b ->]. simpl. by apply zset_is_Some.
Qed.

Lemma byte_fill_total n name k v :
  -1 <= k -> k + Z.of_nat n < zlen name -> is_Some (byte_fill n name k v).
Proof.
  revert name k. induction n as [|n IH]; intros name k Hk Hn; simpl; [by eexists|].
  destruct (zset_total name (k + 1) v) as [name1 E]; [lia|]. rewrite E. simpl.
  apply IH; [lia|]. rewrite (zset_len _ _ _ _ E). lia.
Qed.

(** The three-part shape shared by [bit_nset] and [bit_nclear]. *)
Lemma byte_range_total (op : Z -> Z -> Z) name k1 k2 v m1 m2 m3 :
  0 <= k1 <= k2 -> k2 < zlen name ->
  exists name', (if k1 =? k2 then b ← zget name k1; zset name k1 (u8 (op b m3))
    else
      name ← (b ← zget name k1; zset name k1 (u8 (op b m1)));
      name ← byte_fill (Z.to_nat (k2 - k1 - 1)) name k1 v;
      b ← zget name k2; zset name k2 (u8 (op b m2))) = Some name' /\ zlen name' = zlen name.
Proof.
  intros Hk Hl. destruct (Z.eqb_spec k1 k2) as [<-|Hne].
  - destruct (byte_op_total op name k1 m3) as [n1 E1]; [lia|].
    exists n1. split; [done|]. by eapply byte_op_len.
  - destruct (byte_op_total op name k1 m1) as [n1 E1]; [lia|]. rewrite E1. simpl.
    apply byte_op_len in E1.
    destruct (byte_fill_total (Z.to_nat (k2 - k1 - 1)) n1 k1 v) as [n2 E2]; [lia|lia|].
    rewrite E2. simpl. apply byte_fill_len in E2.
    destruct (byte_op_total op n2 k2 m2) as [n3 E3]; [lia|].
    exists n3. split; [done|]. apply byte_op_len in E3. lia.
Qed.

Lemma range_addr start stop n :
  0 <= start <= stop -> stop < 8 * n -> 0 <= start / 8 <= stop / 8 /\ stop / 8 < n.
Proof.
  intros H1 H2. pose proof (Z.div_le_mono start stop 8). pose proof (Z.div_pos start 8).
  pose proof (bit_addr_range stop n). lia.
Qed.

Lemma bit_nset_total name start stop :
  0 <= start <= stop -> stop < 8 * zlen name ->
  exists name', bit_nset name start stop = Some name' /\ zlen name' = zlen name.
Proof.
  intros H1 H2. unfold bit_nset, byte_or. rewrite !_bit_byte_eq.
  destruct (range_addr start stop (zlen name)); try done.
  by apply (byte_range_total Z.lor).
Qed.

Lemma bit_nclear_total name start stop :
  0 <= start <= stop -> stop < 8 * zlen name ->
  exists name', bit_nclear name start stop = Some name' /\ zlen name' = zlen name.
Proof.
  intros H1 H2. unfold bit_nclear, byte_and. rewrite !_bit_byte_eq.
  destruct (range_addr start stop (zlen name)); try done.
  by apply (byte_range_total Z.land).
Qed.

(** ** The scanning loops *)
Lemma lb_loop_spec cont fuel lb v r :
  lb_loop cont fuel lb v = Some r ->
  v <= r /\ cont (Z.shiftr lb (r - v)) = false /\
  forall j, 0 <= j < r - v -> cont (Z.shiftr lb j) = true.
Proof.
  revert lb v. induction fuel as [|fuel IH]; intros lb v; simpl; [done|].
  destruct (cont lb) eqn:E.
  - intros H. apply IH in H as (H1 & H2 & H3). rewrite Z.shiftr_shiftr in H2 by lia.
    split_and!; [lia|by replace (r - v) with (1 + (r - (v + 1))) by lia|].
    intros j Hj. destruct (decide (j = 0)) as [->|]; [by rewrite Z.shiftr_0_r|].
    replace j with (1 + (j - 1)) by lia. rewrite <- Z.shiftr_shiftr by lia. apply H3. lia.
  - intros [= <-]. rewrite Z.sub_diag, Z.shiftr_0_r. split_and!; [lia|done|lia].
Qed.

Lemma lb_loop_total cont fuel lb v j :
  0 <= j < Z.of_nat fuel -> cont (Z.shiftr lb j) = false -> is_Some (lb_loop cont fuel lb v).
Proof.
  revert lb v j. induction fuel as [|fuel IH]; intros lb v j Hj Hc; simpl; [lia|].
  destruct (cont lb) eqn:E; [|by eexists].
  assert (j <> 0) by (intros ->; by rewrite Z.shiftr_0_r in Hc; congruence).
  apply (IH _ _ (j - 1)); [lia|]. rewrite Z.shiftr_shiftr by lia.
  by replace (1 + (j - 1)) with j by lia.
Qed.

Lemma odd_bit_shiftr b j : 0 <= j -> odd_bit (Z.shiftr b j) = Z.testbit b j.
Proof.
  intros Hj. unfold odd_bit. change 1 with (Z.ones 1). rewrite Z.land_ones by done.
  change (2 ^ 1) with 2. rewrite <- Z.bit0_mod, Z.shiftr_spec, Z.add_0_l by lia.
  by destruct (Z.testbit b j).
Qed.

Lemma byte_eq_bits b c :
  in_u 8 b -> in_u 8 c -> b <> c -> exists j, 0 <= j < 8 /\ Z.testbit b j <> Z.testbit c j.
Proof.
  intros Hb Hc Hne.
  destruct (decide (Forall (fun j => Z.testbit b (Z.of_nat j) = Z.testbit c (Z.of_nat j)) (seq 0 8)))
    as [Hall|Hx].
  - exfalso. apply Hne. rewrite <- (wrap_id 8 b), <- (wrap_id 8 c) by done.
    apply Z.bits_inj'. intros n Hn. unfold wrap.
    destruct (Z.ltb_spec n 8) as [Hlt|Hge].
    + rewrite !Z.mod_pow2_bits_low by done. rewrite Forall_forall in Hall.
      specialize (Hall (Z.to_nat n)). rewrite Z2Nat.id in Hall by done. apply Hall.
      apply in_seq. lia.
    + by rewrite !Z.mod_pow2_bits_high by lia.
  - apply not_Forall_Exists, Exists_exists in Hx as (n & Hn & Hx); [|intros ?; apply _].
    apply in_seq in Hn. exists (Z.of_nat n). split; [lia|done].
Qed.

#[local] Arguments lb_loop : simpl never.

Section scan.
Context (hit cont : Z -> bool).

Lemma byte_scan_spec n name byte r :
  byte_scan hit cont n name byte = Some r ->
  (r = -1 /\ forall k, byte <= k < byte + Z.of_nat n ->
     exists b, zget name k = Some b /\ hit b = false) \/
  (exists k b, byte <= k < byte + Z.of_nat n /\ zget name k = Some b /\ hit b = true /\
     lb_loop cont 9 b (8 * k) = Some r /\
     forall k', byte <= k' < k -> exists b', zget name k' = Some b' /\ hit b' = false).
Proof.
  revert byte. induction n as [|n IH]; intros byte; simpl.
  - intros [= <-]. left. split; [done|lia].
  - intros (b & E & H)%bind_Some. destruct (hit b) eqn:Eh.
    + right. exists byte, b. rewrite Z.shiftl_mul_pow2 in H by done.
      split_and!; [lia|lia|done|done| |lia]. by rewrite Z.mul_comm.
    + destruct (IH _ H) as [[-> Hall]|(k & b' & Hk & E' & Eh' & Hl & Hall)].
      * left. split; [done|]. intros k Hk.
        destruct (decide (k = byte)) as [->|]; [eauto|apply Hall; lia].
      * right. exists k, b'. split_and!; [lia|lia|done|done|done|]. intros k' Hk'.
        destruct (decide (k' = byte)) as [->|]; [eauto|apply Hall; lia].
Qed.

Lemma byte_scan_down_spec n name byte r :
  byte_scan_down hit cont n name byte = Some r ->
  (r = -1 /\ forall k, byte - Z.of_nat n < k <= byte ->
     exists b, zget name k = Some b /\ hit b = false) \/
  (exists k b, byte - Z.of_nat n < k <= byte /\ zget name k = Some b /\ hit b = true /\
     lb_loop cont 9 b (8 * k) = Some r /\
     forall k', k < k' <= byte -> exists b', zget name k' = Some b' /\ hit b' = false).
Proof.
  revert byte. induction n as [|n IH]; intros byte; simpl.
  - intros [= <-]. left. split; [done|lia].
  - intros (b & E & H)%bind_Some. destruct (hit b) eqn:Eh.
    + right. exists byte, b. rewrite Z.shiftl_mul_pow2 in H by done.
      split_and!; [lia|lia|done|done| |lia]. by rewrite Z.mul_comm.
    + destruct (IH _ H) as [[-> Hall]|(k & b' & Hk & E' & Eh' & Hl & Hall)].
      * left. split; [done|]. intros k Hk.
        destruct (decide (k = byte)) as [->|]; [eauto|apply Hall; lia].
      * right. exists k, b'. split_and!; [lia|lia|done|done|done|]. intros k' Hk'.
        destruct (decide (k' = byte)) as [->|]; [eauto|apply Hall; lia].
Qed.

Context (Hterm : forall b, in_u 8 b -> hit b = true -> exists j, 0 <= j < 9 /\ cont (Z.shiftr b j) = false).

Lemma byte_scan_total n name byte :
  bytes_ok name -> 0 <= byte -> byte + Z.of_nat n <= zlen name ->
  is_Some (byte_scan hit cont n name byte).
Proof.
  intros Hok. revert byte. induction n as [|n IH]; intros byte Hb Hn; simpl; [by eexists|].
  destruct (zget_total name byte) as [b E]; [lia|]. rewrite E. simpl.
  destruct (hit b) eqn:Eh; [|apply IH; lia].
  destruct (Hterm b) as (j & Hj & Hc); [by eapply bytes_ok_zget|done|].
  by apply (lb_loop_total _ _ _ _ j).
Qed.

Lemma byte_scan_down_total n name byte :
  bytes_ok name -> byte < zlen name -> 0 <= byte - Z.of_nat n + 1 ->
  is_Some (byte_scan_down hit cont n name byte).
Proof.
  intros Hok. revert byte. induction n as [|n IH]; intros byte Hb Hn; simpl; [by eexists|].
  destruct (zget_total name byte) as [b E]; [lia|]. rewrite E. simpl.
  destruct (hit b) eqn:Eh; [|apply IH; lia].
  destruct (Hterm b) as (j & Hj & Hc); [by eapply bytes_ok_zget|done|].
  by apply (lb_loop_total _ _ _ _ j).
Qed.
End scan.

(** ** What the searches return *)
Lemma byte_full b : in_u 8 b -> (b = 255 <-> forall j, 0 <= j < 8 -> Z.testbit b j = true).
Proof.
  intros Hb. split.
  - intros -> j Hj. rewrite testbit_255 by lia. lia.
  - intros Hall. destruct (decide (b = 255)) as [|Hne]; [done|].
    destruct (byte_eq_bits b 255) as (j & Hj & Hx); [done|by unfold in_u|done|].
    rewrite Hall, testbit_255 in Hx by lia. lia.
Qed.

Lemma byte_zero b : in_u 8 b -> (b = 0 <-> forall j, 0 <= j < 8 -> Z.testbit b j = false).
Proof.
  intros Hb. split.
  - intros -> j Hj. apply Z.testbit_0_l.
  - intros Hall. destruct (decide (b = 0)) as [|Hne]; [done|].
    destruct (byte_eq_bits b 0) as (j & Hj & Hx); [done|by unfold in_u|done|].
    by rewrite Hall, Z.testbit_0_l in Hx by lia.
Qed.

Lemma byte_not_full_bit b : in_u 8 b -> b <> 255 -> exists j, 0 <= j < 8 /\ Z.testbit b j = false.
Proof.
  intros Hb Hne. destruct (byte_eq_bits b 255) as (j & Hj & Hx); [done|by unfold in_u|done|].
  rewrite testbit_255 in Hx by lia. exists j. split; [done|].
  destruct (Z.ltb_spec j 8); [|lia]. by destruct (Z.testbit b j).
Qed.

Lemma byte_not_zero_bit b : in_u 8 b -> b <> 0 -> exists j, 0 <= j < 8 /\ Z.testbit b j = true.
Proof.
  intros Hb Hne. destruct (byte_eq_bits b 0) as (j & Hj & Hx); [done|by unfold in_u|done|].
  rewrite Z.testbit_0_l in Hx. exists j. split; [done|]. by destruct (Z.testbit b j).
Qed.

Lemma bits_of_byte name k b (P : bool -> Prop) i :
  zget name k = Some b -> (forall j, 0 <= j < 8 -> P (Z.testbit b j)) -> i / 8 = k -> P (bitz name i).
Proof. intros E Hall <-. rewrite (bitz_lookup _ _ _ E). apply Hall, mod8. Qed.

Lemma bitz_in_byte name k b j :
  zget name k = Some b -> 0 <= j < 8 -> bitz name (8 * k + j) = Z.testbit b j.
Proof.
  intros E Hj. rewrite (bitz_lookup _ _ b).
  - f_equal. rewrite Z.add_comm, Z.mul_comm, Z.mod_add, Z.mod_small by lia. done.
  - rewrite Z.add_comm, Z.mul_comm, Z.div_add, Z.div_small by lia. by rewrite Z.add_0_l.
Qed.

(** The two ascending searches, for the value [v] of the bit looked for. *)
Section first.
Context (v : bool) (full : Z).
Context (Hfull : forall b, in_u 8 b -> (b = full <-> forall j, 0 <= j < 8 -> Z.testbit b j = negb v)).
Context (Hsome : forall b, in_u 8 b -> b <> full -> exists j, 0 <= j < 8 /\ Z.testbit b j = v).
Context (cont : Z -> bool).
Context (Hcont : forall b j, 0 <= j -> cont (Z.shiftr b j) = negb (Bool.eqb (Z.testbit b j) v)).

Definition first_result (name : list Z) (nbits r : Z) : Prop :=
  (r = -1 /\ forall i, 0 <= i < nbits -> bitz name i = negb v) \/
  (0 <= r < nbits /\ bitz name r = v /\ forall i, 0 <= i < r -> bitz name i = negb v).

Lemma scan_first name nbits r :
  bytes_ok name -> 0 < nbits ->
  byte_scan (fun b => negb (b =? full)) cont (Z.to_nat (_bit_byte (nbits - 1) + 1)) name 0 = Some r ->
  first_result name nbits (if nbits <=? r then -1 else r).
Proof using v full Hfull Hsome cont Hcont.
  intros Hok Hn. rewrite _bit_byte_eq.
  assert (Hstop : 0 <= (nbits - 1) / 8) by (apply Z.div_pos; lia).
  assert (Hlow : forall b, zget name b <> None -> forall x, zget name b = Some x ->
    negb (x =? full) = false -> forall j, 0 <= j < 8 -> Z.testbit x j = negb v).
  { intros k _ x Ex Hx. apply negb_false_iff, Z.eqb_eq in Hx. apply Hfull; [|done].
    by eapply bytes_ok_zget. }
  intros [[-> Hall]|(k & b & Hk & E & Eh & Hl & Hall)]%byte_scan_spec.
  - destruct (Z.leb_spec nbits (-1)); [lia|]. left. split; [done|]. intros i Hi.
    destruct (Hall (i / 8)) as (x & Ex & Hx).
    { pose proof (Z.div_le_mono i (nbits - 1) 8). pose proof (Z.div_pos i 8). lia. }
    apply (bits_of_byte name (i / 8) x (fun c => c = negb v)); [done| |done].
    apply (Hlow (i / 8)); congruence.
  - apply lb_loop_spec in Hl as (H1 & H2 & H3).
    apply negb_true_iff, Z.eqb_neq in Eh.
    destruct (Hsome b) as (j & Hj & Ej); [by eapply bytes_ok_zget|done|].
    rewrite Hcont in H2 by lia. apply negb_false_iff, eqb_prop in H2.
    assert (Hj' : r - 8 * k <= j).
    { destruct (Z.le_gt_cases (r - 8 * k) j); [done|].
      specialize (H3 j). rewrite Hcont, Ej in H3 by lia.
      rewrite eqb_reflx in H3. exfalso. enough (false = true) by done. apply H3. lia. }
    assert (Hr : bitz name r = v).
    { replace r with (8 * k + (r - 8 * k)) by lia. rewrite (bitz_in_byte _ _ b) by (done || lia). done. }
    assert (Hbelow : forall i, 0 <= i < r -> bitz name i = negb v).
    { intros i Hi. pose proof (mod8 i). pose proof (Z.div_mod i 8).
      destruct (Z.lt_trichotomy (i / 8) k) as [Hlt|[<-|Hgt]]; [| |lia].
      - destruct (Hall (i / 8)) as (x & Ex & Hx); [lia|].
        apply (bits_of_byte name (i / 8) x (fun c => c = negb v)); [done| |done].
        apply (Hlow (i / 8)); congruence.
      - rewrite (bitz_lookup _ _ _ E). specialize (H3 (i mod 8)).
        rewrite Hcont in H3 by lia. destruct (Z.testbit b (i mod 8)), v; try done; exfalso;
        enough (false = true) by done; apply H3; lia. }
    destruct (Z.leb_spec nbits r).
    + left. split; [done|]. intros i Hi. apply Hbelow. lia.
    + right. split_and!; [lia|lia|done|done].
Qed.
End first.

Lemma bit_ffc_total name nbits :
  bytes_ok name -> nbits <= 8 * zlen name -> is_Some (bit_ffc name nbits).
Proof.
  intros Hok Hn. unfold bit_ffc. destruct (Z.ltb_spec 0 nbits); [|by eexists].
  rewrite _bit_byte_eq.
  destruct (byte_scan_total (fun b => negb (b =? 255)) odd_bit) with
    (n := Z.to_nat ((nbits - 1) / 8 + 1)) (name := name) (byte := 0) as [r Hr]; try done.
  - intros b Hb Hne. apply negb_true_iff, Z.eqb_neq in Hne.
    destruct (byte_not_full_bit b) as (j & Hj & Ej); [done|done|].
    exists j. split; [lia|]. by rewrite odd_bit_shiftr by lia.
  - pose proof (Z.div_pos (nbits - 1) 8). pose proof (bit_addr_range (nbits - 1) (zlen name)). lia.
  - rewrite Hr. by eexists.
Qed.

Lemma bit_ffc_first name nbits r :
  bytes_ok name -> bit_ffc name nbits = Some r -> first_result false name nbits r.
Proof.
  intros Hok. unfold bit_ffc. destruct (Z.ltb_spec 0 nbits) as [Hn|Hn].
  - intros (v & Hv & [= <-])%bind_Some. eapply (scan_first false 255); try done.
    + apply byte_full.
    + apply byte_not_full_bit.
    + intros b j Hj. cbn beta. rewrite odd_bit_shiftr by done. by destruct (Z.testbit b j).
  - simpl. destruct (Z.leb_spec nbits (-1)); intros [= <-]; left; (split; [done|lia]).
Qed.

Lemma bit_ffs_first name nbits r :
  bytes_ok name -> bit_ffs name nbits = Some r -> first_result true name nbits r.
Proof.
  intros Hok. unfold bit_ffs. destruct (Z.ltb_spec 0 nbits) as [Hn|Hn].
  - intros (v & Hv & [= <-])%bind_Some. eapply (scan_first true 0); try done.
    + apply byte_zero.
    + apply byte_not_zero_bit.
    + intros b j Hj. cbn beta. rewrite odd_bit_shiftr by done. by destruct (Z.testbit b j).
  - simpl. destruct (Z.leb_spec nbits (-1)); intros [= <-]; left; (split; [done|lia]).
Qed.

(** [bit_fls] keeps the highest bit of the last non-zero byte. *)
Definition last_result (name : list Z) (nbits r : Z) : Prop :=
  (r = -1 /\ forall i, 0 <= i < nbits -> bitz name i = false) \/
  (0 <= r < nbits /\ bitz name r = true /\ forall i, r < i < nbits -> bitz name i = false).

Lemma shiftr_one_top b j :
  in_u 8 b -> 0 <= j -> Z.shiftr b j = 1 -> Z.testbit b j = true /\ forall i, j < i -> Z.testbit b i = false.
Proof.
  intros Hb Hj H1. split.
  - by rewrite <- (Z.add_0_l j), <- Z.shiftr_spec, H1 by lia.
  - intros i Hi. replace i with ((i - j) + j) by lia.
    rewrite <- Z.shiftr_spec, H1 by lia. replace (i - j) with (Z.succ (i - j - 1)) by lia.
    change 1 with (2 * 0 + 1). rewrite Z.testbit_odd_succ by lia. apply Z.testbit_0_l.
Qed.

Lemma byte_top_one b : in_u 8 b -> b <> 0 -> exists j, 0 <= j < 9 /\ Z.shiftr b j = 1.
Proof.
  intros Hb Hne. assert (Hpos : 0 < b) by (unfold in_u in Hb; lia).
  exists (Z.log2 b). pose proof (Z.log2_spec b Hpos) as [H1 H2].
  assert (Z.log2 b < 8) by (apply Z.log2_lt_pow2; [done|apply Hb]).
  pose proof (Z.log2_nonneg b). split; [lia|].
  rewrite Z.shiftr_div_pow2 by done. rewrite Z.pow_succ_r in H2 by done.
  symmetry. apply (Z.div_unique _ _ _ (b - 2 ^ Z.log2 b)); lia.
Qed.

Lemma bit_fls_last name nbits r :
  bytes_ok name -> (forall i, nbits <= i -> i / 8 = (nbits - 1) / 8 -> bitz name i = false) ->
  bit_fls name nbits = Some r -> last_result name nbits r.
Proof.
  intros Hok Hpad. unfold bit_fls. destruct (Z.ltb_spec 0 nbits) as [Hn|Hn].
  2: { simpl. destruct (Z.leb_spec nbits (-1)); intros [= <-]; left; (split; [done|lia]). }
  rewrite _bit_byte_eq. assert (Hstop : 0 <= (nbits - 1) / 8) by (apply Z.div_pos; lia).
  assert (Hz : forall k x, zget name k = Some x -> negb (x =? 0) = false ->
    forall j, 0 <= j < 8 -> Z.testbit x j = false).
  { intros k x Ex Hx. apply negb_false_iff, Z.eqb_eq in Hx. apply byte_zero; [|done].
    by eapply bytes_ok_zget. }
  intros (v & [[-> Hall]|(k & b & Hk & E & Eh & Hl & Hall)]%byte_scan_down_spec & [= <-])%bind_Some.
  - destruct (Z.leb_spec nbits (-1)); [lia|]. left. split; [done|]. intros i Hi.
    pose proof (Z.div_le_mono i (nbits - 1) 8). pose proof (Z.div_pos i 8).
    destruct (Hall (i / 8)) as (x & Ex & Hx); [lia|].
    by apply (bits_of_byte name (i / 8) x (fun c => c = false)); [|eapply Hz|].
  - apply lb_loop_spec in Hl as (H1 & H2 & _). apply negb_false_iff, Z.eqb_eq in H2.
    apply negb_true_iff, Z.eqb_neq in Eh.
    assert (Hb : in_u 8 b) by by eapply bytes_ok_zget.
    destruct (shiftr_one_top b (v - 8 * k)) as [Ht Habove]; [done|lia|done|].
    assert (Hv8 : v - 8 * k < 8).
    { destruct (Z.lt_ge_cases (v - 8 * k) 8); [done|].
      rewrite <- (wrap_id 8 b) in Ht by done. unfold wrap in Ht.
      by rewrite Z.mod_pow2_bits_high in Ht by lia. }
    assert (Hr : bitz name v = true).
    { replace v with (8 * k + (v - 8 * k)) by lia. by rewrite (bitz_in_byte _ _ b) by (done || lia). }
    assert (Hup : forall i, v < i -> i / 8 <= (nbits - 1) / 8 -> bitz name i = false).
    { intros i Hi Hi8. pose proof (mod8 i). pose proof (Z.div_mod i 8).
      destruct (Z.lt_trichotomy (i / 8) k) as [Hlt|[<-|Hgt]]; [lia| |].
      - rewrite (bitz_lookup _ _ _ E). apply Habove. lia.
      - destruct (Hall (i / 8)) as (x & Ex & Hx); [lia|].
        by apply (bits_of_byte name (i / 8) x (fun c => c = false)); [|eapply Hz|]. }
    assert (Hlt : v < nbits).
    { destruct (Z.lt_ge_cases v nbits) as [|Hge]; [done|]. rewrite Hpad in Hr; [done|done|].
      pose proof (Z.div_le_mono (nbits - 1) v 8). pose proof (mod8 v). pose proof (Z.div_mod v 8). lia. }
    destruct (Z.leb_spec nbits v); [lia|]. right. split_and!; [lia|lia|done|].
    intros i Hi. apply Hup; [lia|]. pose proof (Z.div_le_mono i (nbits - 1) 8). lia.
Qed.

(** ** [_bit_nsearch] on concrete strings *)
Lemma nsearch_loop_step fuel name nbits len s :
  nsearch_loop (S fuel) name nbits len s =
    if (ns_bit s + ns_tmplen s <? nbits) && (0 <? ns_tmplen s) then
      s' ← nsearch_step name nbits len s; nsearch_loop fuel name nbits len s'
    else Some s.
Proof. done. Qed.

(** Two consecutive iterations that lead back to the same loop state make the
    search run for ever. *)
Lemma nsearch_loop_cycle name nbits len s s1 s2 :
  (ns_bit s + ns_tmplen s <? nbits) && (0 <? ns_tmplen s) = true ->
  (ns_bit s1 + ns_tmplen s1 <? nbits) && (0 <? ns_tmplen s1) = true ->
  (ns_bit s2 + ns_tmplen s2 <? nbits) && (0 <? ns_tmplen s2) = true ->
  nsearch_step name nbits len s = Some s1 -> nsearch_step name nbits len s1 = Some s2 ->
  nsearch_step name nbits len s2 = Some s1 ->
  forall fuel, nsearch_loop fuel name nbits len s = None.
Proof.
  intros G G1 G2 E E1 E2.
  assert (H12 : forall fuel, nsearch_loop fuel name nbits len s1 = None /\
                             nsearch_loop fuel name nbits len s2 = None).
  { induction fuel as [|fuel [IH1 IH2]]; [done|].
    rewrite !nsearch_loop_step, G1, G2, E1, E2. simpl. auto. }
  intros [|fuel]; [done|]. rewrite nsearch_loop_step, G, E. apply H12.
Qed.

Lemma bit_nsearch_never_returns fuel : bit_nsearch fuel [2; 0] 16 3 = None.
Proof.
  unfold bit_nsearch, _bit_nsearch. simpl.
  by rewrite (nsearch_loop_cycle _ _ _ _ (Nsearch 1 0 2 true) (Nsearch 2 0 3 false)).
Qed.

Lemma bit_nsearch_false_range :
  bit_nsearch 100 [128; 0; 255] 24 9 = Some 8 /\ bitz [128; 0; 255] 16 = true.
Proof. by vm_compute. Qed.

(** ** Properties *)

(** C35 [bit_ffc] always returns on a string that holds the bits: -1 when all
    of them are set, otherwise the first clear one. *)
Theorem bit_ffc_correct name nbits :
  bytes_ok name -> nbits <= 8 * zlen name ->
  exists r, bit_ffc name nbits = Some r /\ first_result false name nbits r.
Proof. intros H1 H2. destruct (bit_ffc_total _ _ H1 H2) as [r E]. eauto using bit_ffc_first. Qed.

Lemma bit_ffc_correct_witness :
  exists r, bit_ffc [255; 7] 16 = Some r /\ first_result false [255; 7] 16 r.
Proof. apply (bit_ffc_correct [255; 7] 16); [repeat constructor|]; unfold zlen; simpl; lia. Defined.

(** [bit_nset] sets the bits [start] to [stop], both included, and no
    other, and never touches a byte outside the string. *)
Theorem bit_nset_correct name start stop :
  0 <= start <= stop -> stop < 8 * zlen name ->
  exists name', bit_nset name start stop = Some name' /\ zlen name' = zlen name /\
    forall j, bitz name' j = ((start <=? j) && (j <=? stop)) || bitz name j.
Proof.
  intros H1 H2. destruct (bit_nset_total _ _ _ H1 H2) as (name' & E & Hl).
  exists name'. split_and!; [done..|]. intros j. by apply bit_nset_bits.
Qed.

Lemma bit_nset_correct_witness :
  exists name', bit_nset [0; 0; 0] 3 17 = Some name' /\ zlen name' = 3 /\
    forall j, bitz name' j = ((3 <=? j) && (j <=? 17)) || bitz [0; 0; 0] j.
Proof. apply (bit_nset_correct [0; 0; 0] 3 17); unfold zlen; simpl; lia. Defined.

(** [bit_nsearch], which looks for a clear range, is wrong in two ways: it
    never returns on the string 01000000 00000000 when asked for three bits,
    however many steps it is given, and on 00000001 00000000 11111111 it
    answers that nine bits from 8 on are clear although bit 16 is set. *)
Theorem bit_nsearch_unsound :
  (forall fuel, bit_nsearch fuel [2; 0] 16 3 = None) /\
  bit_nsearch 100 [128; 0; 255] 24 9 = Some 8 /\ bitz [128; 0; 255] 16 = true.
Proof. split; [apply bit_nsearch_never_returns|apply bit_nsearch_false_range]. Qed.
