(* ===== verification/Vector.v ===== *)
(** * Growable arrays: [src/utils/vector.h]

    A vector is the C struct: an [int] capacity, an [int] size and a buffer.
    The buffer is [None] when the pointer is NULL and otherwise the list of
    its cells, [None] in a cell never written.  [esz] is
    the size of one element.  [vector_repr] is the abstract view: the list
    of the elements. *)
From Stdlib Require Import ZArith Lia.
From stdpp Require Import base numbers list option.
From S2P Require Import Prelude Macros.
Open Scope Z_scope.

Record vector (A : Type) := Vec {
  v_capacity : Z;
  v_size : Z;
  v_buffer : option (list (option A));
}.
Arguments Vec {A}.
Arguments v_capacity {A}.
Arguments v_size {A}.
Arguments v_buffer {A}.

Definition INIT_SIZE := 2.

Section vector.
Context {A : Type} (esz : Z).
Implicit Types (v : vector A) (l : list A) (x : A).

(** [int buffer_size = esz * capacity] and the conversion to [size_t] in the
    call of [malloc] or [realloc]; a negative size is a request the
    allocator cannot satisfy, so the call returns NULL. *)
Definition buffer_size (capacity : Z) : Z := s32 (esz * capacity).

(** [malloc]: the cells that fit in the block, all unwritten. *)
Definition malloc_cells (capacity : Z) : option (list (option A)) :=
  if buffer_size capacity <? 0 then None
  else Some (replicate (Z.to_nat (buffer_size capacity / esz)) None).

(** [realloc] keeps the cells that still fit and adds unwritten ones. *)
Definition realloc_cells (old : option (list (option A))) (capacity : Z)
    : option (list (option A)) :=
  let cells := default [] old in
  if buffer_size capacity <? 0 then None
  else
    let n := Z.to_nat (buffer_size capacity / esz) in
    Some (take n cells ++ replicate (n - length cells) None).

Definition VECTOR_INITAT (c : Z) : M (vector A) unit := fun v =>
  match malloc_cells c with
  | None => Fail AssertFailed (Vec c 0 None)
  | Some b => Ok tt (Vec c 0 (Some b))
  end.

Definition VECTOR_INIT : M (vector A) unit := VECTOR_INITAT INIT_SIZE.

Definition VECTOR_FREE : M (vector A) unit := fun _ => Ok tt (Vec 0 0 None).

Definition __VECTOR_DOUBLE : M (vector A) unit := fun v =>
  let capacity := MAX INIT_SIZE (s32 (v_capacity v * 2)) in
  match realloc_cells (v_buffer v) capacity with
  | None => Fail AssertFailed (Vec capacity (v_size v) None)
  | Some b => Ok tt (Vec capacity (v_size v) (Some b))
  end.

(** [(p)->buffer[(p)->size++] = item] *)
Definition vector_store (x : A) : M (vector A) unit := fun v =>
  match v_buffer v with
  | None => Fail NullDeref v
  | Some b =>
      match zset b (v_size v) (Some x) with
      | None => Fail OutOfBounds v
      | Some b' => Ok tt (Vec (v_capacity v) (v_size v + 1) (Some b'))
      end
  end.

Definition VECTOR_APPEND (x : A) : M (vector A) unit :=
  let! full := gets (fun v => v_size v =? v_capacity v) in
  when full __VECTOR_DOUBLE ;;;
  vector_store x.

Definition VECTOR_SIZE v : Z := v_size v.
Definition VECTOR_CAPACITY v : Z := v_capacity v.
Definition VECTOR_BUFFSIZE v : Z := u64 (esz * v_capacity v).

(** [(p)->buffer[idx]]: the cell must lie in the buffer and hold a value. *)
Definition VECTOR_AT v (idx : Z) : fault + A :=
  match v_buffer v with
  | None => inl NullDeref
  | Some b =>
      match zget b idx with
      | None => inl OutOfBounds
      | Some None => inl Uninit
      | Some (Some x) => inr x
      end
  end.

(** [VECTOR_FOREACH(p, itr, i)]: the elements the body sees.  [itr] is
    loaded from [buffer[0]] before the first test and from [buffer[i + 1]]
    after each turn, before the test; the flag tells whether the last of
    these loads lies past the buffer. *)
Fixpoint foreach_items (n : nat) (b : list (option A)) (i : Z) : fault + list A :=
  match n with
  | O => inr []
  | S n' =>
      match zget b i with
      | Some (Some x) =>
          match foreach_items n' b (i + 1) with
          | inr xs => inr (x :: xs)
          | inl f => inl f
          end
      | Some None => inl Uninit
      | None => inl OutOfBounds
      end
  end.

Definition VECTOR_FOREACH v : fault + (list A * bool) :=
  match v_buffer v with
  | None => inl NullDeref
  | Some b =>
      match foreach_items (Z.to_nat (v_size v)) b 0 with
      | inl f => inl f
      | inr xs => inr (xs, Z.of_nat (length b) <=? Z.max 0 (v_size v))
      end
  end.

(** ** The abstract view *)
Definition cells_of v : list (option A) := default [] (v_buffer v).

Definition vector_repr v l : Prop :=
  v_size v = zlen l /\ v_capacity v = zlen (cells_of v) /\ zlen l <= v_capacity v /\
  take (length l) (cells_of v) = Some <$> l /\ (v_buffer v = None -> v_capacity v = 0).

(** A capacity whose buffer size still fits in [int] after doubling. *)
Definition can_double (c : Z) : Prop := esz * Z.max 2 (c * 2) < 2 ^ 31.

Context (Hesz : 0 < esz).

Lemma buffer_size_small c : 0 <= c -> esz * c < 2 ^ 31 -> buffer_size c = esz * c.
Proof using Hesz. intros H1 H2. unfold buffer_size. apply s32_id. nia. Qed.

Lemma buffer_cells c : 0 <= c -> esz * c < 2 ^ 31 -> buffer_size c / esz = c /\ 0 <= buffer_size c.
Proof using Hesz.
  intros H1 H2. rewrite buffer_size_small, Z.mul_comm, Z.div_mul by lia. split; [done|nia].
Qed.

Lemma VECTOR_INIT_repr v :
  esz * 2 < 2 ^ 31 -> wp VECTOR_INIT (fun _ v' => vector_repr v' [] /\ v_capacity v' = 2) v.
Proof using Hesz.
  intros H. unfold VECTOR_INIT, VECTOR_INITAT, wp, malloc_cells, INIT_SIZE.
  destruct (buffer_cells 2) as [E1 E2]; [lia|lia|].
  destruct (Z.ltb_spec (buffer_size 2) 0); [lia|]. rewrite E1.
  unfold vector_repr, zlen. simpl. split_and!; done || lia.
Qed.

Lemma VECTOR_DOUBLE_repr v l :
  vector_repr v l -> can_double (v_capacity v) ->
  wp __VECTOR_DOUBLE (fun _ v' => vector_repr v' l /\ is_Some (v_buffer v') /\
    v_capacity v' = Z.max 2 (v_capacity v * 2)) v.
Proof using Hesz.
  intros (H1 & H2 & H3 & H4 & H5) Hd. unfold can_double in Hd.
  unfold __VECTOR_DOUBLE, wp, realloc_cells.
  assert (0 <= v_capacity v) by (rewrite H2; apply zlen_nonneg).
  rewrite s32_id by nia.
  assert (EM : MAX INIT_SIZE (v_capacity v * 2) = Z.max 2 (v_capacity v * 2)).
  { unfold MAX, INIT_SIZE. destruct (Z.gtb_spec 2 (v_capacity v * 2)); lia. }
  rewrite EM. set (c := Z.max 2 (v_capacity v * 2)) in *.
  destruct (buffer_cells c) as [E1 E2]; [lia|lia|].
  destruct (Z.ltb_spec (buffer_size c) 0); [lia|]. rewrite E1.
  unfold vector_repr, zlen, cells_of in *. simpl in *.
  set (b := default [] (v_buffer v)) in *.
  assert (Eb : take (Z.to_nat c) b = b) by (apply take_ge; lia). rewrite Eb.
  split_and!; try done; try lia; rewrite ?length_app, ?length_replicate, ?take_app_le by lia; done || lia.
Qed.

Lemma vector_store_repr v l x :
  vector_repr v l -> is_Some (v_buffer v) -> zlen l < v_capacity v ->
  wp (vector_store x) (fun _ v' => vector_repr v' (l ++ [x]) /\ v_capacity v' = v_capacity v) v.
Proof using.
  intros (H1 & H2 & H3 & H4 & H5) [b Hb] Hlt. unfold vector_store, wp. rewrite Hb.
  unfold vector_repr, cells_of in *. rewrite Hb in *. simpl in *.
  destruct (zset_total b (v_size v) (Some x)) as [b' E]; [pose proof (zlen_nonneg l); lia|].
  rewrite E. pose proof (zset_len _ _ _ _ E) as Hlen. apply zset_Some in E as [Hi ->].
  unfold zlen in *. simpl. rewrite length_app, fmap_app. simpl.
  split_and!; try done; try lia.
  rewrite Nat.add_1_r, (take_S_r _ _ (Some x)).
  - rewrite take_insert_ge by lia. by rewrite H4.
  - rewrite H1, Nat2Z.id. apply list_lookup_insert_eq. lia.
Qed.

(** Appending adds one element at the end, growing the buffer when it is
    full; the capacity becomes [max 2 (2 c)] then and stays [c] otherwise. *)
Lemma VECTOR_APPEND_repr v l x :
  vector_repr v l -> can_double (v_capacity v) ->
  wp (VECTOR_APPEND x) (fun _ v' => vector_repr v' (l ++ [x]) /\
    v_capacity v' = if v_size v =? v_capacity v then Z.max 2 (v_capacity v * 2)
                    else v_capacity v) v.
Proof using Hesz.
  intros Hr Hd. unfold VECTOR_APPEND. msteps. pose proof Hr as (H1 & H2 & H3 & H4 & H5).
  destruct (Z.eqb_spec (v_size v) (v_capacity v)) as [He|Hne]; simpl.
  - eapply wp_mono; [by apply VECTOR_DOUBLE_repr|]. intros [] v' (Hr' & Hb' & Hc').
    eapply wp_mono; [apply vector_store_repr; [done|done|lia]|].
    intros [] v'' [? ?]. split; [done|lia].
  - apply wp_ret, vector_store_repr; [done| |lia].
    destruct (v_buffer v) eqn:Eb; [by eexists|]. pose proof (zlen_nonneg l).
    rewrite H5 in * by done. lia.
Qed.

(** A freed vector is an empty vector that can be appended to again. *)
Lemma VECTOR_FREE_repr v : wp VECTOR_FREE (fun _ v' => vector_repr v' []) v.
Proof using. unfold wp, VECTOR_FREE, vector_repr, zlen. simpl. split_and!; done || lia. Qed.

Lemma vector_repr_cell v l b i :
  vector_repr v l -> v_buffer v = Some b -> 0 <= i < zlen l ->
  exists x, zget l i = Some x /\ zget b i = Some (Some x).
Proof using.
  intros (H1 & H2 & H3 & H4 & H5) Hb Hi. unfold cells_of in *. rewrite Hb in *. simpl in *.
  destruct (zget_total l i Hi) as [x Hx]. exists x. split; [done|].
  unfold zget, zlen in *. destruct (Z.leb_spec 0 i); [|lia].
  rewrite <- (lookup_take_lt b (length l)) by lia. by rewrite H4, list_lookup_fmap, Hx.
Qed.

Lemma VECTOR_AT_repr v l i x :
  vector_repr v l -> zget l i = Some x -> VECTOR_AT v i = inr x.
Proof using.
  intros Hr Hx. unfold VECTOR_AT. apply zget_lt in Hx as Hi.
  destruct (v_buffer v) as [b|] eqn:Hb.
  - destruct (vector_repr_cell v l b i) as (y & Hy & ->); [done..|]. congruence.
  - destruct Hr as (H1 & H2 & H3 & H4 & H5). rewrite H5 in * by done. lia.
Qed.

Lemma foreach_items_repr v l b n i :
  vector_repr v l -> v_buffer v = Some b -> 0 <= i -> i + Z.of_nat n = zlen l ->
  foreach_items n b i = inr (drop (Z.to_nat i) l).
Proof using.
  intros Hr Hb. revert i. induction n as [|n IH]; intros i Hi Hn; simpl.
  - by rewrite drop_ge by (unfold zlen in *; lia).
  - destruct (vector_repr_cell v l b i) as (x & Hx & ->); [done..|lia|].
    rewrite IH by lia. replace (Z.to_nat (i + 1)) with (S (Z.to_nat i)) by lia.
    unfold zget in Hx. destruct (Z.leb_spec 0 i); [|lia]. by rewrite (drop_S _ _ _ Hx).
Qed.

(** [VECTOR_FOREACH] visits every element in order; its last load reads
    past the end of the buffer exactly when the vector is full. *)
Lemma VECTOR_FOREACH_repr v l :
  vector_repr v l -> is_Some (v_buffer v) ->
  VECTOR_FOREACH v = inr (l, v_size v =? v_capacity v).
Proof using.
  intros Hr [b Hb]. unfold VECTOR_FOREACH. rewrite Hb.
  pose proof Hr as (H1 & H2 & H3 & H4 & H5). pose proof (zlen_nonneg l).
  rewrite (foreach_items_repr v l b) by (done || lia). rewrite drop_0.
  unfold cells_of in H2. rewrite Hb in H2. simpl in H2. do 3 f_equal.
  unfold zlen in *. destruct (Z.leb_spec (Z.of_nat (length b)) (Z.max 0 (v_size v))),
    (Z.eqb_spec (v_size v) (v_capacity v)); lia.
Qed.
End vector.

Section vector_build.
Context {A : Type} (esz : Z) (Hesz : 0 < esz).

Lemma append_all_repr (xs l : list A) (v : vector A) :
  vector_repr v l -> v_capacity v <= Z.max 2 (2 * zlen l) ->
  esz * (4 * (zlen l + zlen xs) + 4) < 2 ^ 31 ->
  wp (forM xs (VECTOR_APPEND esz)) (fun _ v' => vector_repr v' (l ++ xs) /\
    v_capacity v' <= Z.max 2 (2 * zlen (l ++ xs)) /\
    (is_Some (v_buffer v) -> is_Some (v_buffer v'))) v.
Proof using Hesz.
  revert l v. induction xs as [|x xs IH]; intros l v Hr Hc Hb; simpl.
  - apply wp_ret. by rewrite app_nil_r.
  - apply wp_bind. pose proof (zlen_nonneg l). pose proof (zlen_nonneg xs).
    assert (E1 : zlen (l ++ [x]) = zlen l + 1) by (unfold zlen; rewrite length_app; simpl; lia).
    assert (E2 : zlen (x :: xs) = zlen xs + 1) by (unfold zlen; simpl; lia).
    eapply wp_mono; [apply VECTOR_APPEND_repr; [done|done|unfold can_double; nia]|].
    intros [] v' [Hr' Hc']. pose proof Hr as (H1 & _). simpl.
    eapply wp_mono; [apply (IH _ _ Hr'); [|lia]|].
    + destruct (Z.eqb_spec (v_size v) (v_capacity v)); lia.
    + intros [] v'' (? & ? & Hs). rewrite <- app_assoc in *. split_and!; try done.
      intros _. apply Hs. destruct (v_buffer v') eqn:Eb; [by eexists|].
      destruct Hr' as (F1 & F2 & F3 & _ & F5). rewrite F5 in * by done. lia.
Qed.
End vector_build.

(** ** Properties *)

(** Appending items to a fresh vector, however often it has to double,
    keeps all of them in order as long as the buffer fits in [int] bytes:
    [VECTOR_AT] reads back each one. *)
Theorem vector_appends_correct {A} (esz : Z) (xs : list A) v :
  0 < esz -> esz * (4 * zlen xs + 4) < 2 ^ 31 ->
  wp (VECTOR_INIT esz ;;; forM xs (VECTOR_APPEND esz)) (fun _ v' =>
    VECTOR_SIZE v' = zlen xs /\ forall i x, zget xs i = Some x -> VECTOR_AT v' i = inr x) v.
Proof.
  intros He Hb. mstep. eapply wp_mono; [apply VECTOR_INIT_repr; [done|pose proof (zlen_nonneg xs); nia]|].
  intros [] v0 [Hr Hc]. eapply wp_mono; [apply (append_all_repr esz He xs [] v0 Hr)|].
  - change (zlen (@nil A)) with 0. lia.
  - change (zlen (@nil A)) with 0. lia.
  - simpl. intros [] v' (Hr' & _). split; [apply Hr'|]. intros i x Hx. by eapply VECTOR_AT_repr.
Qed.

Lemma vector_appends_correct_witness :
  wp (VECTOR_INIT 8 ;;; forM [10; 20; 30] (VECTOR_APPEND 8)) (fun _ v' =>
    VECTOR_SIZE v' = 3 /\ forall i x, zget [10; 20; 30] i = Some x -> VECTOR_AT v' i = inr x) (Vec 0 0 None).
Proof. apply (vector_appends_correct 8 [10; 20; 30] (Vec 0 0 None)); reflexivity. Defined.
