(* ===== verification/Hash.v ===== *)
(** * The string hash: [src/hash.c]

    Bytes are [Z] in 0..255.  The C parameter is [const char *] and [char] is
    signed on the platforms the library is built for (x86-64), so each byte is
    sign-extended to [int] before it is shifted or added; every [uint32_t]
    assignment truncates. *)
From Stdlib Require Import ZArith Lia.
From stdpp Require Import base numbers list.
From S2P Require Import Prelude Macros.
Open Scope Z_scope.

(** The value of a [char] whose byte is [b]. *)
Definition char_val (b : Z) : Z := if b <? 128 then b else b - 256.

Definition DecodeFixed32 (b0 b1 b2 b3 : Z) : Z :=
  Z.lor (Z.lor (Z.lor (u32 (char_val b0)) (u32 (Z.shiftl (char_val b1) 8)))
           (u32 (Z.shiftl (char_val b2) 16)))
    (u32 (Z.shiftl (char_val b3) 24)).

Definition hash_m : Z := 0xc6a4a793.
Definition hash_r : Z := 24.

(** One turn of the four-byte loop. *)
Definition hash_word (h w : Z) : Z :=
  let h := u32 (h + w) in
  let h := u32 (h * hash_m) in
  Z.lxor h (Z.shiftr h 16).

(** [switch (limit - data)]: cases 3, 2 and 1 fall through. *)
Definition hash_tail (h : Z) (rest : list Z) : Z :=
  let finish h := let h := u32 (h * hash_m) in Z.lxor h (Z.shiftr h hash_r) in
  match rest with
  | [b0; b1; b2] =>
      let h := u32 (h + Z.shiftl (char_val b2) 16) in
      let h := u32 (h + Z.shiftl (char_val b1) 8) in
      finish (u32 (h + char_val b0))
  | [b0; b1] =>
      let h := u32 (h + Z.shiftl (char_val b1) 8) in
      finish (u32 (h + char_val b0))
  | [b0] => finish (u32 (h + char_val b0))
  | _ => h
  end.

Fixpoint hash_loop (h : Z) (data : list Z) : Z :=
  match data with
  | b0 :: b1 :: b2 :: b3 :: rest => hash_loop (hash_word h (DecodeFixed32 b0 b1 b2 b3)) rest
  | rest => hash_tail h rest
  end.

Definition Hash (data : list Z) (seed : Z) : Z :=
  hash_loop (u32 (Z.lxor seed (u64 (zlen data * hash_m)))) data.

(** The bytes of a [void *] in memory, least significant first. *)
Fixpoint le_bytes (n : nat) (x : Z) : list Z :=
  match n with
  | O => []
  | S n' => x mod 256 :: le_bytes n' (x / 256)
  end.

Fixpoint le_value (bs : list Z) : Z :=
  match bs with
  | [] => 0
  | b :: bs' => b + 256 * le_value bs'
  end.

(** [Hash((char * )&key, sizeof(void * ), 0)], the hash of a table key. *)
Definition hash_key (key : Z) : Z := Hash (le_bytes 8 key) 0.

(** ** Little-endian bytes *)
Lemma le_value_bytes n x : le_value (le_bytes n x) = x mod 256 ^ Z.of_nat n.
Proof.
  revert x. induction n as [|n IH]; intros x; simpl.
  - by rewrite Z.pow_0_r, Z.mod_1_r.
  - rewrite IH. replace (Z.of_nat (S n)) with (Z.of_nat n + 1) by lia.
    rewrite Z.pow_add_r, Z.mul_comm by lia. change (256 ^ 1) with 256.
    rewrite (Z.mul_comm (256 ^ _)), Z.rem_mul_r; lia.
Qed.

Lemma le_bytes_range n x : Forall (in_u 8) (le_bytes n x).
Proof.
  revert x. induction n as [|n IH]; intros x; simpl; constructor; [|done].
  by apply Z.mod_pos_bound.
Qed.

Lemma length_le_bytes n x : length (le_bytes n x) = n.
Proof. revert x. induction n as [|n IH]; intros x; simpl; [done|by rewrite IH]. Qed.

(** ** Range of the hash *)
Lemma lxor_shiftr_range x s : in_u 32 x -> 0 <= s -> in_u 32 (Z.lxor x (Z.shiftr x s)).
Proof.
  unfold in_u. intros [H1 H2] Hs.
  assert (H3 : 0 <= Z.shiftr x s) by (by apply Z.shiftr_nonneg).
  split; [by apply Z.lxor_nonneg|].
  destruct (decide (x = 0)) as [->|Hx]; [by rewrite Z.shiftr_0_l|].
  assert (Hl : Z.log2 x < 32) by (apply Z.log2_lt_pow2; lia).
  destruct (decide (Z.lxor x (Z.shiftr x s) = 0)) as [->|Hnz]; [done|].
  apply Z.log2_lt_pow2; [by apply Z.le_neq; split; [apply Z.lxor_nonneg|]|].
  eapply Z.le_lt_trans; [by apply Z.log2_lxor|].
  apply Z.max_lub_lt; [done|]. eapply Z.le_lt_trans; [|done].
  apply Z.log2_le_mono. rewrite Z.shiftr_div_pow2 by done.
  apply Z.div_le_upper_bound; [by apply Z.pow_pos_nonneg|].
  pose proof (Z.pow_pos_nonneg 2 s). nia.
Qed.

Lemma hash_word_range h w : in_u 32 (hash_word h w).
Proof. apply lxor_shiftr_range; [by apply wrap_range|done]. Qed.

Lemma hash_tail_range h rest : in_u 32 h -> in_u 32 (hash_tail h rest).
Proof.
  intros Hh. destruct rest as [|b0 [|b1 [|b2 [|b3 rest]]]]; simpl; try done;
    (apply lxor_shiftr_range; [by apply wrap_range|done]).
Qed.

Lemma hash_loop_range data h : in_u 32 h -> in_u 32 (hash_loop h data).
Proof.
  assert (Hn : forall n data h, (length data <= n)%nat -> in_u 32 h -> in_u 32 (hash_loop h data)).
  { clear. induction n as [|n IH]; intros data h Hl Hh.
    - destruct data; [done|simpl in Hl; lia].
    - destruct data as [|b0 [|b1 [|b2 [|b3 rest]]]]; try by apply hash_tail_range.
      simpl. apply IH; [simpl in Hl; lia|apply hash_word_range]. }
  by apply (Hn (length data)).
Qed.

Lemma Hash_range data seed : in_u 32 (Hash data seed).
Proof. apply hash_loop_range. by apply wrap_range. Qed.

Lemma hash_key_range key : in_u 32 (hash_key key).
Proof. apply Hash_range. Qed.

(** ** [DecodeFixed32] on 7-bit bytes *)
Lemma lor_disjoint_add a b k : 0 <= k -> 0 <= a < 2 ^ k -> (2 ^ k | b) -> Z.lor a b = a + b.
Proof.
  intros Hk Ha [q ->].
  assert (Hland : Z.land a (q * 2 ^ k) = 0).
  { apply Z.bits_inj'. intros n Hn.
    rewrite Z.land_spec, Z.testbit_0_l. destruct (Z.lt_ge_cases n k).
    - by rewrite Z.mul_pow2_bits_low, andb_false_r.
    - rewrite <- (Z.mod_small a (2 ^ k)), Z.mod_pow2_bits_high by lia. done. }
  by rewrite <- Z.lxor_lor, Z.add_nocarry_lxor.
Qed.

Lemma DecodeFixed32_ascii b0 b1 b2 b3 :
  Forall (in_u 7) [b0; b1; b2; b3] ->
  DecodeFixed32 b0 b1 b2 b3 = le_value [b0; b1; b2; b3].
Proof.
  rewrite !Forall_cons. unfold in_u. intros (H0 & H1 & H2 & H3 & _).
  assert (Hc : forall b, 0 <= b < 2 ^ 7 -> char_val b = b).
  { intros b Hb. unfold char_val. destruct (Z.ltb_spec b 128); lia. }
  unfold DecodeFixed32. rewrite !Hc, !Z.shiftl_mul_pow2 by done.
  unfold u32. rewrite !wrap_id by (unfold in_u; lia).
  rewrite (lor_disjoint_add b0 _ 8) by (try lia; exists b1; lia).
  rewrite (lor_disjoint_add (b0 + _) _ 16) by (try lia; exists b2; lia).
  rewrite (lor_disjoint_add (b0 + _ + _) _ 24) by (try lia; exists b3; lia).
  simpl. lia.
Qed.
