(* ===== verification/Htable.v ===== *)
(** * The chained hash table: [src/htable.c]

    The table maps [void *] keys to [void *] values, both [Z].  A bucket is
    the list of the entries reachable from [ht->list[i]] through [next_hash];
    each entry is reached from one bucket only, so lists are the chains
    themselves.  A [struct htable_entry **] is a position in a chain: the
    entries before it and the entries from it on.  [ht_map] is the abstract
    view, a finite map; [ht_wf] is the invariant of the table. *)
From Stdlib Require Import ZArith Lia.
From stdpp Require Import base numbers list gmap option.
From S2P Require Import Prelude Macros Hash.
Open Scope Z_scope.

Record htable_entry := HtEntry { hte_hash : Z; hte_key : Z; hte_val : Z }.

Record htable := Htable {
  ht_length : Z;
  ht_elems : Z;
  ht_list : list (list htable_entry);
}.

Definition htable_entry_alloc (key val hash : Z) : htable_entry := HtEntry hash key val.

(** ** Walking a chain

    [while ( *ptr != NULL && (( *ptr)->hash != hash || key != ( *ptr)->key))]. *)
Fixpoint chain_find (key hash : Z) (chain : list htable_entry)
    : list htable_entry * list htable_entry :=
  match chain with
  | [] => ([], [])
  | e :: rest =>
      if negb (hte_hash e =? hash) || negb (key =? hte_key e) then
        let '(before, from) := chain_find key hash rest in (e :: before, from)
      else ([], e :: rest)
  end.

Definition bucket_index (length hash : Z) : Z := Z.land hash (u32 (length - 1)).

(** The bucket a hash falls in, and the position in its chain. *)
Definition htable_find_pointer (ht : htable) (key hash : Z)
    : M htable (Z * (list htable_entry * list htable_entry)) :=
  let i := bucket_index (ht_length ht) hash in
  let! chain := from_opt OutOfBounds (zget (ht_list ht) i) in
  ret (i, chain_find key hash chain).

(** [*ptr = ...] at a position of bucket [i]: replace its chain. *)
Definition set_chain (i : Z) (chain : list htable_entry) : M htable unit := fun ht =>
  match zset (ht_list ht) i chain with
  | Some l => Ok tt (Htable (ht_length ht) (ht_elems ht) l)
  | None => Fail OutOfBounds ht
  end.

(** ** Resizing *)

(** [while (new_length < ht->elems) new_length *= 2] on [uint32_t]. *)
Fixpoint grow_length (fuel : nat) (new_length elems : Z) : option Z :=
  match fuel with
  | O => None
  | S fuel' =>
      if new_length <? elems then grow_length fuel' (u32 (new_length * 2)) elems
      else Some new_length
  end.

(** Move one entry to the front of its chain in the new array. *)
Definition rehash_entry (new_length : Z) (new_list : list (list htable_entry)) (e : htable_entry)
    : option (list (list htable_entry)) :=
  let i := bucket_index new_length (hte_hash e) in
  chain ← zget new_list i; zset new_list i (e :: chain).

Fixpoint rehash (new_length : Z) (es : list htable_entry) (new_list : list (list htable_entry))
    : option (list (list htable_entry)) :=
  match es with
  | [] => Some new_list
  | e :: es' => new_list' ← rehash_entry new_length new_list e; rehash new_length es' new_list'
  end.

(** The entries in the order the nested loops over buckets and chains meet
    them. *)
Definition ht_entries (ht : htable) : list htable_entry := concat (ht_list ht).

Definition htable_resize : M htable unit := fun ht =>
  match grow_length 33 4 (ht_elems ht) with
  | None => Fail Diverges ht
  | Some new_length =>
      match rehash new_length (ht_entries ht) (replicate (Z.to_nat new_length) []) with
      | None => Fail OutOfBounds ht
      | Some new_list =>
          let count := zlen (ht_entries ht) in
          if ht_elems ht =? count then Ok tt (Htable new_length (ht_elems ht) new_list)
          else Fail AssertFailed ht
      end
  end.

Definition htable_init : outcome htable unit := htable_resize (Htable 0 0 []).

(** [htable_free]: every entry is released; the count is checked. *)
Definition htable_free : M htable unit := fun ht =>
  if ht_elems ht =? zlen (ht_entries ht) then Ok tt (Htable 0 0 []) else Fail AssertFailed ht.

(** ** The operations *)
Definition htable_insert (key val : Z) : M htable Z :=
  let hash := hash_key key in
  let! ht := gets id in
  let! p := htable_find_pointer ht key hash in
  let '(i, (before, from)) := p in
  match from with
  | [] =>
      set_chain i (before ++ [htable_entry_alloc key val hash]) ;;;
      modify (fun ht => Htable (ht_length ht) (u32 (ht_elems ht + 1)) (ht_list ht)) ;;;
      let! big := gets (fun ht => ht_length ht <? ht_elems ht) in
      when big htable_resize ;;;
      ret 1
  | e :: rest =>
      set_chain i (before ++ HtEntry (hte_hash e) (hte_key e) val :: rest) ;;;
      ret 0
  end.

Definition htable_lookup (key : Z) : M htable Z :=
  let hash := hash_key key in
  let! ht := gets id in
  let! p := htable_find_pointer ht key hash in
  match p.2.2 with
  | [] => ret 0
  | e :: _ => ret (hte_val e)
  end.

Definition htable_remove (key : Z) : M htable Z :=
  let hash := hash_key key in
  let! ht := gets id in
  let! p := htable_find_pointer ht key hash in
  let '(i, (before, from)) := p in
  match from with
  | [] => ret 0
  | e :: rest =>
      set_chain i (before ++ rest) ;;;
      modify (fun ht => Htable (ht_length ht) (u32 (ht_elems ht - 1)) (ht_list ht)) ;;;
      ret (hte_val e)
  end.

(** ** Iteration

    The callback works on a state of its own ([W]); the table is an argument. *)
Section iterate.
Context {W : Type}.

Definition htable_foreach (ht : htable) (fn : Z -> Z -> M W unit) : M W unit :=
  forM (ht_entries ht) (fun e => fn (hte_key e) (hte_val e)) ;;;
  assert_ (ht_elems ht =? zlen (ht_entries ht)).

(** One chain of [htable_filter]: entries whose callback returns non-zero
    are unlinked and freed; the result also counts them. *)
Fixpoint chain_filter (fn : Z -> Z -> M W Z) (chain : list htable_entry)
    : M W (list htable_entry * Z) :=
  match chain with
  | [] => ret ([], 0)
  | e :: rest =>
      let! r := fn (hte_key e) (hte_val e) in
      let! p := chain_filter fn rest in
      if r =? 0 then ret (e :: p.1, p.2) else ret (p.1, p.2 + 1)
  end.

Fixpoint buckets_filter (fn : Z -> Z -> M W Z) (l : list (list htable_entry))
    : M W (list (list htable_entry) * Z) :=
  match l with
  | [] => ret ([], 0)
  | chain :: l' =>
      let! p := chain_filter fn chain in
      let! q := buckets_filter fn l' in
      ret (p.1 :: q.1, p.2 + q.2)
  end.

Definition htable_filter (ht : htable) (fn : Z -> Z -> M W Z) : M W htable :=
  let! p := buckets_filter fn (ht_list ht) in
  ret (Htable (ht_length ht) (u32 (ht_elems ht - p.2)) p.1).
End iterate.

(** ** Invariant and abstract view *)
Definition in_bucket (length : Z) (i : nat) (e : htable_entry) : Prop :=
  hte_hash e = hash_key (hte_key e) /\ bucket_index length (hte_hash e) = Z.of_nat i.

Record ht_wf (ht : htable) : Prop := {
  wf_pow2 : exists k, 2 <= k < 32 /\ ht_length ht = 2 ^ k;
  wf_list : zlen (ht_list ht) = ht_length ht;
  wf_buckets : forall i chain, ht_list ht !! i = Some chain -> Forall (in_bucket (ht_length ht) i) chain;
  wf_nodup : NoDup (hte_key <$> ht_entries ht);
  wf_elems : ht_elems ht = zlen (ht_entries ht);
  wf_load : ht_elems ht <= ht_length ht;
}.

Definition entry_pair (e : htable_entry) : Z * Z := (hte_key e, hte_val e).

Definition ht_map (ht : htable) : gmap Z Z := list_to_map (entry_pair <$> ht_entries ht).

(** ** Bucket arithmetic *)
Lemma bucket_index_mod k hash :
  0 <= k < 32 -> 0 <= hash -> bucket_index (2 ^ k) hash = hash mod 2 ^ k.
Proof.
  intros Hk Hh. unfold bucket_index, u32. rewrite wrap_id.
  - replace (2 ^ k - 1) with (Z.ones k) by (rewrite Z.ones_equiv; lia). apply Z.land_ones. lia.
  - pose proof (Z.pow_pos_nonneg 2 k). pose proof (Z.pow_lt_mono_r 2 k 32). unfold in_u. lia.
Qed.

Lemma bucket_index_range k hash :
  0 <= k < 32 -> 0 <= hash -> 0 <= bucket_index (2 ^ k) hash < 2 ^ k.
Proof.
  intros Hk Hh. rewrite bucket_index_mod by done. apply Z.mod_pos_bound.
  apply Z.pow_pos_nonneg; lia.
Qed.

(** The resize loop stops as long as there are at most [2^31] entries. *)
Lemma grow_length_total fuel k elems :
  2 <= k <= 31 -> elems <= 2 ^ 31 -> 32 - k <= Z.of_nat fuel ->
  exists k', k <= k' <= 31 /\ grow_length fuel (2 ^ k) elems = Some (2 ^ k') /\ elems <= 2 ^ k'.
Proof.
  revert k. induction fuel as [|fuel IH]; intros k Hk He Hf; [lia|]. simpl.
  destruct (Z.ltb_spec (2 ^ k) elems) as [Hlt|Hge].
  - assert (k < 31) by (destruct (decide (k = 31)) as [->|]; lia).
    replace (u32 (2 ^ k * 2)) with (2 ^ (k + 1)).
    + destruct (IH (k + 1)) as (k' & ? & ? & ?); [lia..|]. exists k'. split_and!; try done; lia.
    + rewrite Z.pow_add_r by lia. symmetry. apply wrap_id. unfold in_u.
      pose proof (Z.pow_le_mono_r 2 k 30). pose proof (Z.pow_pos_nonneg 2 k). lia.
  - exists k. split_and!; [lia|lia|done|done].
Qed.

(** With more entries than that the length wraps to 0 and stays there. *)
Lemma grow_length_zero fuel elems : 0 < elems -> grow_length fuel 0 elems = None.
Proof.
  intros He. induction fuel as [|fuel IH]; [done|]. simpl.
  destruct (Z.ltb_spec 0 elems); [|lia]. apply IH.
Qed.

(** ** Entries of a table after one chain changes *)
Lemma concat_perm (l : list (list htable_entry)) i c :
  zget l i = Some c -> concat l ≡ₚ c ++ concat (delete (Z.to_nat i) l).
Proof.
  unfold zget. destruct (0 <=? i); [|done]. intros H.
  change (c ++ concat (delete (Z.to_nat i) l)) with (concat (c :: delete (Z.to_nat i) l)).
  by rewrite (delete_Permutation _ _ _ H) at 1.
Qed.

Lemma zset_delete (l l' : list (list htable_entry)) i c :
  zset l i c = Some l' -> delete (Z.to_nat i) l' = delete (Z.to_nat i) l.
Proof.
  intros [Hi ->]%zset_Some. unfold zlen in Hi. apply list_eq. intros j.
  destruct (decide (j < Z.to_nat i)%nat).
  - rewrite !list_lookup_delete_lt by lia. by rewrite list_lookup_insert_ne by lia.
  - rewrite !list_lookup_delete_ge by lia. by rewrite list_lookup_insert_ne by lia.
Qed.

Lemma chain_update_perm (l l' : list (list htable_entry)) i c c' d d' x :
  zget l i = Some c -> zset l i c' = Some l' -> c ≡ₚ d ++ x -> c' ≡ₚ d' ++ x ->
  exists rest, concat l ≡ₚ d ++ rest /\ concat l' ≡ₚ d' ++ rest.
Proof.
  intros Hg Hs Hc Hc'. exists (x ++ concat (delete (Z.to_nat i) l)).
  rewrite (concat_perm l i c Hg), (concat_perm l' i c') by (by eapply zget_zset_eq).
  rewrite (zset_delete _ _ _ _ Hs), Hc, Hc', <- !app_assoc. done.
Qed.

(** ** The abstract map *)
Lemma entry_pair_fst (es : list htable_entry) : (entry_pair <$> es).*1 = hte_key <$> es.
Proof. rewrite <- list_fmap_compose. done. Qed.

Lemma map_perm es es' :
  NoDup (hte_key <$> es) -> es ≡ₚ es' ->
  (list_to_map (entry_pair <$> es) : gmap Z Z) = list_to_map (entry_pair <$> es').
Proof.
  intros Hnd Hp. apply list_to_map_proper; [by rewrite entry_pair_fst|by rewrite Hp].
Qed.

Lemma map_lookup_Some es key v :
  NoDup (hte_key <$> es) ->
  (list_to_map (entry_pair <$> es) : gmap Z Z) !! key = Some v <->
  exists e, e ∈ es /\ hte_key e = key /\ hte_val e = v.
Proof.
  intros Hnd. rewrite <- elem_of_list_to_map by (by rewrite entry_pair_fst).
  rewrite list_elem_of_fmap. unfold entry_pair. split.
  - intros (e & [= -> ->] & He). eauto.
  - intros (e & He & <- & <-). eauto.
Qed.

Lemma map_lookup_None es key :
  (list_to_map (entry_pair <$> es) : gmap Z Z) !! key = None <-> key ∉ hte_key <$> es.
Proof. by rewrite <- not_elem_of_list_to_map, entry_pair_fst. Qed.

(** ** Finding a key *)
Lemma chain_find_spec key hash chain before from :
  chain_find key hash chain = (before, from) ->
  chain = before ++ from /\
  Forall (fun e => ~ (hte_hash e = hash /\ hte_key e = key)) before /\
  match from with [] => True | e :: _ => hte_hash e = hash /\ hte_key e = key end.
Proof.
  revert before from. induction chain as [|e chain IH]; intros before from; simpl.
  - intros [= <- <-]. done.
  - destruct (Z.eqb_spec (hte_hash e) hash), (Z.eqb_spec key (hte_key e)); simpl.
    1: { intros [= <- <-]. naive_solver. }
    all: destruct (chain_find key hash chain) as [b f]; intros [= <- <-];
      destruct (IH b f) as (-> & ? & ?); [done|]; split_and!; try done;
      constructor; [naive_solver|done].
Qed.

Lemma wf_bucket ht i chain e :
  ht_wf ht -> zget (ht_list ht) i = Some chain -> e ∈ chain ->
  hte_hash e = hash_key (hte_key e) /\ bucket_index (ht_length ht) (hte_hash e) = i.
Proof.
  intros Hwf Hg He. pose proof (zget_lt _ _ _ Hg) as Hi. unfold zget in Hg.
  destruct (0 <=? i); [|done]. apply (wf_buckets _ Hwf) in Hg.
  rewrite Forall_forall in Hg. destruct (Hg e) as [? ?]; [by apply list_elem_of_In|].
  split; [done|]. lia.
Qed.

Lemma elem_of_entries ht e :
  e ∈ ht_entries ht <-> exists i chain, zget (ht_list ht) i = Some chain /\ e ∈ chain.
Proof.
  unfold ht_entries. rewrite list_elem_of_In, in_concat. split.
  - intros (chain & Hc & He). apply list_elem_of_In, list_elem_of_lookup in Hc as [n Hn].
    exists (Z.of_nat n), chain. split; [|by apply list_elem_of_In].
    unfold zget. destruct (Z.leb_spec 0 (Z.of_nat n)); [|lia]. by rewrite Nat2Z.id.
  - intros (i & chain & Hg & He). exists chain. split; [|by apply list_elem_of_In].
    unfold zget in Hg. destruct (0 <=? i); [|done].
    apply list_elem_of_In, list_elem_of_lookup. eauto.
Qed.

Lemma htable_find_pointer_spec {A} ht key (k : Z * (list htable_entry * list htable_entry) -> M htable A) :
  ht_wf ht ->
  exists before from, 
    let i := bucket_index (ht_length ht) (hash_key key) in
    bind (htable_find_pointer ht key (hash_key key)) k ht = k (i, (before, from)) ht /\
    zget (ht_list ht) i = Some (before ++ from) /\
    match from with
    | [] => ht_map ht !! key = None
    | e :: _ => hte_hash e = hash_key key /\ hte_key e = key /\ ht_map ht !! key = Some (hte_val e)
    end.
Proof.
  intros Hwf. set (i := bucket_index (ht_length ht) (hash_key key)).
  destruct (wf_pow2 _ Hwf) as (n & Hn & Elen). pose proof (hash_key_range key) as [Hh _].
  assert (Hi : 0 <= i < zlen (ht_list ht)).
  { rewrite (wf_list _ Hwf). unfold i. rewrite Elen. apply bucket_index_range; lia. }
  destruct (zget_total _ _ Hi) as [chain Hg].
  destruct (chain_find key (hash_key key) chain) as [before from] eqn:Hf.
  exists before, from. cbv zeta. unfold htable_find_pointer, bind. fold i. rewrite Hg. simpl.
  rewrite Hf. apply chain_find_spec in Hf as (-> & Hb & Hfrom). split_and!; [done|done|].
  destruct from as [|e from].
  - apply map_lookup_None. intros ([h k' v] & E & He)%list_elem_of_fmap. simpl in E. subst k'.
    apply elem_of_entries in He as (j & c & Hc & He).
    destruct (wf_bucket _ _ _ _ Hwf Hc He) as [E1 E2]. simpl in E1, E2. subst h j. fold i in Hc.
    rewrite Hg, app_nil_r in Hc. injection Hc as <-.
    rewrite Forall_forall in Hb. apply (Hb (HtEntry (hash_key key) key v)); [|done].
    by apply list_elem_of_In.
  - destruct Hfrom as [E1 E2]. split_and!; [done|done|].
    apply map_lookup_Some; [apply Hwf|]. exists e. split_and!; try done.
    apply elem_of_entries. exists i, (before ++ e :: from). split; [done|]. set_solver.
Qed.

(** ** Preservation of the invariant *)
Lemma ht_update_wf ht i c c' d d' x l' :
  ht_wf ht -> zget (ht_list ht) i = Some c -> zset (ht_list ht) i c' = Some l' ->
  c ≡ₚ d ++ x -> c' ≡ₚ d' ++ x ->
  Forall (fun e => hte_hash e = hash_key (hte_key e) /\ bucket_index (ht_length ht) (hte_hash e) = i) d' ->
  exists rest, ht_entries ht ≡ₚ d ++ rest /\
    forall n, let ht' := Htable (ht_length ht) n l' in
      ht_entries ht' ≡ₚ d' ++ rest /\
      (NoDup (hte_key <$> d' ++ rest) -> n = zlen (d' ++ rest) -> n <= ht_length ht -> ht_wf ht').
Proof.
  intros Hwf Hg Hs Hc Hc' Hd'.
  destruct (chain_update_perm _ _ _ _ _ _ _ _ Hg Hs Hc Hc') as (rest & P1 & P2).
  exists rest. split; [done|]. intros n ht'. split; [done|]. intros Hnd Hn Hload. split.
  - apply Hwf.
  - simpl. rewrite (zset_len _ _ _ _ Hs). apply Hwf.
  - simpl. intros j chain Hj. pose proof Hs as [Hi ->]%zset_Some.
    destruct (decide (j = Z.to_nat i)) as [->|Hne].
    + rewrite list_lookup_insert_eq in Hj by (unfold zlen in Hi; lia). injection Hj as <-.
      apply Forall_forall. intros e He%list_elem_of_In. rewrite Hc' in He.
      assert (He' : hte_hash e = hash_key (hte_key e) /\ bucket_index (ht_length ht) (hte_hash e) = i).
      { apply elem_of_app in He as [He|He].
        - rewrite Forall_forall in Hd'. apply Hd'. by apply list_elem_of_In.
        - eapply wf_bucket; [done|done|]. rewrite Hc. set_solver. }
      unfold in_bucket. rewrite Z2Nat.id by lia. done.
    + rewrite list_lookup_insert_ne in Hj by done. by apply Hwf in Hj.
  - unfold ht_entries. simpl. by rewrite P2.
  - unfold ht_entries. simpl. rewrite Hn. unfold zlen. by rewrite P2.
  - done.
Qed.

(** ** Resizing keeps the contents *)
Lemma rehash_spec k es new_list :
  2 <= k < 32 -> zlen new_list = 2 ^ k ->
  Forall (fun e => hte_hash e = hash_key (hte_key e)) es ->
  (forall i chain, new_list !! i = Some chain -> Forall (in_bucket (2 ^ k) i) chain) ->
  exists l, rehash (2 ^ k) es new_list = Some l /\ zlen l = 2 ^ k /\
    concat l ≡ₚ es ++ concat new_list /\
    (forall i chain, l !! i = Some chain -> Forall (in_bucket (2 ^ k) i) chain).
Proof.
  intros Hk. revert new_list. induction es as [|e es IH]; intros new_list Hlen Hes Hb; simpl.
  - eauto.
  - apply Forall_cons_iff in Hes as [He Hes].
    assert (Hi : 0 <= bucket_index (2 ^ k) (hte_hash e) < zlen new_list).
    { rewrite Hlen, He. apply bucket_index_range; [lia|]. apply hash_key_range. }
    unfold rehash_entry. set (i := bucket_index (2 ^ k) (hte_hash e)) in *.
    destruct (zget_total _ _ Hi) as [chain Hg]. rewrite Hg. simpl.
    destruct (zset_total _ _ (e :: chain) Hi) as [l1 Hs]. rewrite Hs. simpl.
    destruct (IH l1) as (l & -> & Hl & Hp & Hbl); [by rewrite (zset_len _ _ _ _ Hs)|done| |].
    + pose proof Hs as [_ ->]%zset_Some. intros j c Hj.
      destruct (decide (j = Z.to_nat i)) as [->|Hne].
      * unfold zlen in Hi. rewrite list_lookup_insert_eq in Hj by lia. injection Hj as <-.
        constructor; [split; [done|lia]|].
        unfold zget in Hg. destruct (0 <=? i); [|done]. by apply Hb in Hg.
      * rewrite list_lookup_insert_ne in Hj by done. by apply Hb in Hj.
    + exists l. split_and!; try done. rewrite Hp.
      destruct (chain_update_perm _ _ _ _ _ [] [e] chain Hg Hs) as (rest & P1 & P2); [done|done|].
      rewrite P2, P1. simpl. by rewrite <- Permutation_middle.
Qed.

Lemma concat_replicate_nil {A} n : concat (replicate n ([] : list A)) = [].
Proof. induction n as [|n IH]; [done|]. simpl. done. Qed.

Lemma wf_hashes ht : ht_wf ht -> Forall (fun e => hte_hash e = hash_key (hte_key e)) (ht_entries ht).
Proof.
  intros Hwf. apply Forall_forall. intros e (i & c & Hc & He)%list_elem_of_In%elem_of_entries.
  by eapply wf_bucket.
Qed.

(** Resizing needs only the counts, keys and stored hashes to be right; it
    re-establishes the whole invariant. *)
Lemma htable_resize_spec ht :
  Forall (fun e => hte_hash e = hash_key (hte_key e)) (ht_entries ht) ->
  NoDup (hte_key <$> ht_entries ht) -> ht_elems ht = zlen (ht_entries ht) ->
  ht_elems ht <= 2 ^ 31 ->
  exists ht', htable_resize ht = Ok tt ht' /\ ht_wf ht' /\ ht_entries ht' ≡ₚ ht_entries ht /\
    ht_elems ht' = ht_elems ht.
Proof.
  intros Hh Hnd Hn Hmax. unfold htable_resize.
  destruct (grow_length_total 33 2 (ht_elems ht)) as (k & Hk & E & Hle); [lia|lia|lia|].
  change 4 with (2 ^ 2). rewrite E.
  destruct (rehash_spec k (ht_entries ht) (replicate (Z.to_nat (2 ^ k)) [])) as (l & -> & Hl & Hp & Hb).
  - lia.
  - rewrite zlen_replicate. pose proof (Z.pow_pos_nonneg 2 k). lia.
  - done.
  - intros i c [-> _]%lookup_replicate_1. constructor.
  - rewrite concat_replicate_nil, app_nil_r in Hp.
    destruct (Z.eqb_spec (ht_elems ht) (zlen (ht_entries ht))); [|done].
    eexists. split; [done|]. split_and!; [|done|done]. split; simpl.
    + exists k. split; [lia|done].
    + done.
    + done.
    + unfold ht_entries at 1. simpl. by rewrite Hp.
    + unfold ht_entries at 1. simpl. rewrite Hn. unfold zlen. by rewrite Hp.
    + done.
Qed.

Lemma htable_init_wf : exists ht, htable_init = Ok tt ht /\ ht_wf ht /\ ht_map ht = ∅.
Proof.
  destruct (htable_resize_spec (Htable 0 0 [])) as (ht & E & Hwf & Hp & _); try done; [constructor|].
  exists ht. split_and!; [done|done|]. unfold ht_map. apply Permutation_nil_r in Hp. by rewrite Hp.
Qed.

(** ** The operations as operations on the map *)
Lemma htable_lookup_map ht key :
  ht_wf ht -> htable_lookup key ht = Ok (default 0 (ht_map ht !! key)) ht.
Proof.
  intros Hwf. unfold htable_lookup, gets, bind at 1, id.
  destruct (htable_find_pointer_spec ht key (fun p => match p.2.2 with [] => ret 0 | e :: _ => ret (hte_val e) end) Hwf)
    as (before & from & E & Hg & Hm). rewrite E.
  destruct from as [|e from]; simpl; [by rewrite Hm|]. by destruct Hm as (_ & _ & ->).
Qed.

Lemma set_chain_ok ht i chain l :
  zset (ht_list ht) i chain = Some l ->
  set_chain i chain ht = Ok tt (Htable (ht_length ht) (ht_elems ht) l).
Proof. unfold set_chain. by intros ->. Qed.

Lemma htable_insert_map ht key val :
  ht_wf ht -> ht_elems ht < 2 ^ 31 ->
  exists ht', htable_insert key val ht = Ok (if ht_map ht !! key then 0 else 1) ht' /\ ht_wf ht' /\
    ht_map ht' = <[key := val]> (ht_map ht).
Proof.
  intros Hwf Hmax. unfold htable_insert, gets, bind at 1, id.
  match goal with |- context [bind (htable_find_pointer _ _ _) ?k] =>
    destruct (htable_find_pointer_spec ht key k Hwf) as (before & from & E & Hg & Hm) end.
  rewrite E. clear E. set (i := bucket_index (ht_length ht) (hash_key key)) in *.
  pose proof (zget_lt _ _ _ Hg) as Hi. pose proof (wf_nodup _ Hwf) as Hnd.
  destruct from as [|e from]; cbn beta iota.
  - rewrite app_nil_r in Hg. set (new := htable_entry_alloc key val (hash_key key)).
    destruct (zset_total (ht_list ht) i (before ++ [new]) Hi) as [l Hs].
    destruct (ht_update_wf ht i before (before ++ [new]) [] [new] before l) as (rest & P & Hnew);
      [done|done|done|done|by rewrite Permutation_app_comm|by constructor; [|constructor]|].
    unfold bind. rewrite (set_chain_ok _ _ _ _ Hs). simpl.
    assert (En : u32 (ht_elems ht + 1) = ht_elems ht + 1).
    { apply wrap_id. unfold in_u. rewrite (wf_elems _ Hwf) in *. pose proof (zlen_nonneg (ht_entries ht)). lia. }
    rewrite En, Hm. destruct (Hnew (ht_elems ht + 1)) as [P' Hwf']. clear Hnew.
    set (ht1 := Htable (ht_length ht) (ht_elems ht + 1) l) in *. simpl in P, P'.
    assert (Hnd' : NoDup (hte_key <$> ht_entries ht1)).
    { rewrite P'. simpl. constructor; [|by rewrite <- P]. rewrite <- P. by apply map_lookup_None. }
    assert (Hn' : ht_elems ht1 = zlen (ht_entries ht1)).
    { simpl. rewrite (wf_elems _ Hwf). unfold zlen. rewrite P', P. simpl. lia. }
    assert (Hmap : ht_map ht1 = <[key := val]> (ht_map ht)).
    { unfold ht_map. rewrite (map_perm _ _ Hnd' P'). simpl. f_equal. symmetry. by apply map_perm. }
    assert (Hh : Forall (fun e => hte_hash e = hash_key (hte_key e)) (ht_entries ht1)).
    { rewrite P'. constructor; [done|]. rewrite <- P. by apply wf_hashes. }
    destruct (Z.ltb_spec (ht_length ht) (ht_elems ht + 1)) as [Hbig|Hok]; simpl.
    + destruct (htable_resize_spec ht1 Hh Hnd' Hn') as (ht2 & -> & Hwf2 & P2 & _); [simpl; lia|].
      exists ht2. split_and!; [done|done|]. rewrite <- Hmap. unfold ht_map.
      apply map_perm; [apply Hwf2|done].
    + exists ht1. split_and!; [done| |done]. apply Hwf'; [by rewrite P' in Hnd'| |done].
      simpl in Hn'. rewrite Hn'. unfold zlen. by rewrite P'.
  - destruct Hm as (Eh & <- & Hm). set (new := HtEntry (hte_hash e) (hte_key e) val).
    destruct (zset_total (ht_list ht) i (before ++ new :: from) Hi) as [l Hs].
    destruct (ht_update_wf ht i (before ++ e :: from) (before ++ new :: from) [e] [new] (before ++ from) l)
      as (rest & P & Hnew); [done|done|done|by rewrite <- Permutation_middle|by rewrite <- Permutation_middle| |].
    { constructor; [|constructor]. simpl. split; [done|]. by rewrite Eh. }
    unfold bind. rewrite (set_chain_ok _ _ _ _ Hs), Hm. simpl.
    destruct (Hnew (ht_elems ht)) as [P' Hwf']. eexists. split; [done|].
    assert (Hwf1 : ht_wf (Htable (ht_length ht) (ht_elems ht) l)).
    { apply Hwf'; [by rewrite P in Hnd| |apply Hwf].
      rewrite (wf_elems _ Hwf). unfold zlen. by rewrite P. }
    split; [done|]. unfold ht_map. rewrite (map_perm _ _ (wf_nodup _ Hwf1) P'), (map_perm _ _ Hnd P).
    simpl. by rewrite insert_insert_eq.
Qed.

Lemma htable_remove_map ht key :
  ht_wf ht ->
  exists ht', htable_remove key ht = Ok (default 0 (ht_map ht !! key)) ht' /\ ht_wf ht' /\
    ht_map ht' = delete key (ht_map ht).
Proof.
  intros Hwf. unfold htable_remove, gets, bind at 1, id.
  match goal with |- context [bind (htable_find_pointer _ _ _) ?k] =>
    destruct (htable_find_pointer_spec ht key k Hwf) as (before & from & E & Hg & Hm) end.
  rewrite E. clear E. set (i := bucket_index (ht_length ht) (hash_key key)) in *.
  pose proof (zget_lt _ _ _ Hg) as Hi. pose proof (wf_nodup _ Hwf) as Hnd.
  destruct from as [|e from]; cbn beta iota.
  - exists ht. split_and!; [by rewrite Hm|done|]. by rewrite delete_id.
  - destruct Hm as (Eh & <- & Hm).
    destruct (zset_total (ht_list ht) i (before ++ from) Hi) as [l Hs].
    destruct (ht_update_wf ht i (before ++ e :: from) (before ++ from) [e] [] (before ++ from) l)
      as (rest & P & Hnew); [done|done|done|by rewrite <- Permutation_middle|done|constructor|].
    unfold bind. rewrite (set_chain_ok _ _ _ _ Hs), Hm. simpl.
    destruct (Hnew (u32 (ht_elems ht - 1))) as [P' Hwf'].
    assert (En : u32 (ht_elems ht - 1) = zlen rest).
    { assert (E1 : ht_elems ht = zlen rest + 1).
      { rewrite (wf_elems _ Hwf). unfold zlen. rewrite P. simpl. lia. }
      rewrite E1. replace (zlen rest + 1 - 1) with (zlen rest) by lia. apply wrap_id.
      pose proof (zlen_nonneg rest). pose proof (wf_load _ Hwf).
      destruct (wf_pow2 _ Hwf) as (k & Hk & El). pose proof (Z.pow_le_mono_r 2 k 31).
      unfold in_u. lia. }
    rewrite P in Hnd. simpl in Hnd. inversion_clear Hnd as [|? ? Hnotin Hnd1]. rename Hnd1 into Hnd.
    eexists. split; [done|]. split.
    + apply Hwf'; [done|done|]. rewrite En. pose proof (wf_load _ Hwf) as Hl.
      rewrite (wf_elems _ Hwf) in Hl. unfold zlen in *. rewrite P in Hl. simpl in Hl. lia.
    + unfold ht_map. rewrite (map_perm (ht_entries ht) (e :: rest)).
      * simpl. rewrite delete_insert_id by by apply map_lookup_None.
        symmetry. apply map_perm; [done|by symmetry].
      * apply Hwf.
      * done.
Qed.

(** ** Filtering *)
Section filter.
Context (f : Z -> Z -> Z).

Definition keep (e : htable_entry) : bool := f (hte_key e) (hte_val e) =? 0.
Definition keeps (es : list htable_entry) : list htable_entry := List.filter keep es.

Lemma concat_keeps l : concat (keeps <$> l) = keeps (concat l).
Proof using.
  induction l as [|c l IH]; [done|].
  change (keeps c ++ concat (keeps <$> l) = keeps (c ++ concat l)). rewrite IH. unfold keeps. by rewrite List.filter_app.
Qed.

Lemma elem_of_keeps e es : e ∈ keeps es <-> e ∈ es /\ f (hte_key e) (hte_val e) = 0.
Proof using.
  unfold keeps. rewrite !list_elem_of_In, List.filter_In. unfold keep. by rewrite Z.eqb_eq.
Qed.

Lemma keeps_sublist es : keeps es `sublist_of` es.
Proof using. induction es as [|e es IH]; simpl; [done|]. destruct (keep e); by constructor. Qed.

(** The table with the bindings that are kept. *)
Definition kept (ht : htable) : htable :=
  Htable (ht_length ht) (u32 (ht_elems ht - (zlen (ht_entries ht) - zlen (keeps (ht_entries ht))))) (keeps <$> ht_list ht).

Lemma kept_wf ht :
  ht_wf ht -> ht_wf (kept ht) /\ forall k v, ht_map (kept ht) !! k = Some v <-> ht_map ht !! k = Some v /\ f k v = 0.
Proof using.
  intros Hwf. set (ht' := kept ht).
  assert (Ent : ht_entries ht' = keeps (ht_entries ht)) by apply concat_keeps.
  pose proof (sublist_length _ _ (keeps_sublist (ht_entries ht))) as Hlen.
  assert (Hnd : NoDup (hte_key <$> ht_entries ht')).
  { rewrite Ent. eapply sublist_NoDup; [apply (wf_nodup _ Hwf)|].
    apply fmap_sublist, keeps_sublist. }
  assert (En : ht_elems ht' = zlen (ht_entries ht')).
  { simpl. rewrite (wf_elems _ Hwf), Ent.
    replace (zlen (ht_entries ht) - _) with (zlen (keeps (ht_entries ht))) by lia.
    apply wrap_id. pose proof (wf_load _ Hwf) as Hl. rewrite (wf_elems _ Hwf) in Hl.
    destruct (wf_pow2 _ Hwf) as (k & Hk & El). pose proof (Z.pow_le_mono_r 2 k 31).
    unfold in_u, zlen in *. lia. }
  split; [split|].
  - apply Hwf.
  - simpl. unfold zlen. rewrite length_fmap. apply Hwf.
  - simpl. intros i c. rewrite list_lookup_fmap. intros (c0 & Hc & ->)%fmap_Some.
    apply (wf_buckets _ Hwf) in Hc.
    rewrite Forall_forall in Hc |- *. intros e [He _]%list_elem_of_In%elem_of_keeps.
    apply Hc. by apply list_elem_of_In.
  - done.
  - done.
  - rewrite En, Ent. pose proof (wf_load _ Hwf) as Hl. rewrite (wf_elems _ Hwf) in Hl.
    unfold zlen in *. simpl. lia.
  - intros k v. unfold ht_map. rewrite (map_lookup_Some _ _ _ Hnd), (map_lookup_Some _ _ _ (wf_nodup _ Hwf)), Ent.
    setoid_rewrite elem_of_keeps. naive_solver.
Qed.

(** The filter with an invariant [I] over the bindings visited so far. *)
Context {W : Type} (fn : Z -> Z -> M W Z).

Section rule.
Context (I : list htable_entry -> W -> Prop) (es : list htable_entry).
Context (Hstep : forall before e after w, es = before ++ e :: after -> I before w ->
  wp (fn (hte_key e) (hte_val e)) (fun r w' => r = f (hte_key e) (hte_val e) /\ I (before ++ [e]) w') w).

Lemma wp_chain_filter before chain after w :
  es = before ++ chain ++ after -> I before w ->
  wp (chain_filter fn chain)
    (fun p w' => p = (keeps chain, zlen chain - zlen (keeps chain)) /\ I (before ++ chain) w') w.
Proof using Hstep.
  revert before w. induction chain as [|e chain IH]; intros before w Hes HI; simpl.
  - apply wp_ret. rewrite app_nil_r. done.
  - apply wp_bind. eapply wp_mono; [by eapply (Hstep before e)|]. intros r w1 [-> HI1]. apply wp_bind.
    eapply wp_mono; [apply (IH (before ++ [e])); [by rewrite <- app_assoc|done]|]. intros p w2 [-> HI2].
    rewrite <- app_assoc in HI2. unfold keep. destruct (Z.eqb_spec (f (hte_key e) (hte_val e)) 0); apply wp_ret;
      (split; [|done]); unfold zlen; cbn [fst snd length]; f_equal; lia.
Qed.

Lemma wp_buckets_filter before l after w :
  es = before ++ concat l ++ after -> I before w ->
  wp (buckets_filter fn l)
    (fun p w' => p = (keeps <$> l, zlen (concat l) - zlen (keeps (concat l))) /\ I (before ++ concat l) w') w.
Proof using Hstep.
  revert before w. induction l as [|c l IH]; intros before w Hes HI; cbn [buckets_filter concat].
  - apply wp_ret. rewrite app_nil_r. done.
  - cbn [concat] in Hes. rewrite <- app_assoc in Hes. apply wp_bind. eapply wp_mono; [by eapply wp_chain_filter|].
    intros p w1 [-> HI1]. apply wp_bind. eapply wp_mono; [apply (IH (before ++ c)); [by rewrite <- app_assoc|done]|].
    intros q w2 [-> HI2]. apply wp_ret. rewrite <- app_assoc in HI2. split; [|done]. cbn [fst snd].
    assert (Ek : keeps (c ++ concat l) = keeps c ++ keeps (concat l)) by apply List.filter_app.
    rewrite Ek. unfold zlen. rewrite !length_app. f_equal. lia.
Qed.
End rule.

Lemma wp_htable_filter ht (I : list htable_entry -> W -> Prop) w :
  (forall before e after w, ht_entries ht = before ++ e :: after -> I before w ->
    wp (fn (hte_key e) (hte_val e)) (fun r w' => r = f (hte_key e) (hte_val e) /\ I (before ++ [e]) w') w) ->
  I [] w -> wp (htable_filter ht fn) (fun ht' w' => ht' = kept ht /\ I (ht_entries ht) w') w.
Proof using.
  intros Hstep HI. unfold htable_filter. apply wp_bind.
  eapply wp_mono; [apply (wp_buckets_filter I (ht_entries ht) Hstep [] _ []); [by rewrite app_nil_r|done]|].
  intros p w' [-> HI']. by apply wp_ret.
Qed.

Context (g : Z -> Z -> W -> W) (Hfn : forall k v w, fn k v w = Ok (f k v) (g k v w)).

Lemma htable_filter_map ht w :
  ht_wf ht ->
  exists ht', htable_filter ht fn w = Ok ht' (fold_left (fun w e => g (hte_key e) (hte_val e) w) (ht_entries ht) w) /\ ht_wf ht' /\
    forall k v, ht_map ht' !! k = Some v <-> ht_map ht !! k = Some v /\ f k v = 0.
Proof using Hfn.
  intros Hwf. exists (kept ht). split; [|by apply kept_wf].
  destruct (proj1 (wp_run _ _ _) (wp_htable_filter ht
    (fun es w' => w' = fold_left (fun w e => g (hte_key e) (hte_val e) w) es w) w
    ltac:(intros before e after w' _ ->; eapply wp_ok; [apply Hfn|]; by rewrite fold_left_app) eq_refl)) as (? & ? & E & -> & ->).
  exact E.
Qed.
End filter.

(** ** Visiting every entry *)
Lemma forM_fold {W A} (fn : A -> M W unit) (g : A -> W -> W) (l : list A) w :
  (forall x w, fn x w = Ok tt (g x w)) ->
  forM l fn w = Ok tt (fold_left (fun w x => g x w) l w).
Proof.
  intros Hfn. revert w. induction l as [|x l IH]; intros w; simpl; [done|].
  unfold bind. by rewrite Hfn, IH.
Qed.

Lemma htable_foreach_visits {W} ht (fn : Z -> Z -> M W unit) (g : Z -> Z -> W -> W) w :
  ht_wf ht -> (forall k v w, fn k v w = Ok tt (g k v w)) ->
  exists kvs, kvs ≡ₚ map_to_list (ht_map ht) /\
    htable_foreach ht fn w = Ok tt (fold_left (fun w kv => g kv.1 kv.2 w) kvs w).
Proof.
  intros Hwf Hfn. exists (entry_pair <$> ht_entries ht). split.
  - unfold ht_map. symmetry. apply map_to_list_to_map. rewrite entry_pair_fst. apply Hwf.
  - unfold htable_foreach, bind.
    rewrite (forM_fold _ (fun e => g (hte_key e) (hte_val e))) by (intros; apply Hfn).
    rewrite (wf_elems _ Hwf). simpl. rewrite Z.eqb_refl. simpl. unfold ret. f_equal.
    generalize (ht_entries ht) w. induction l as [|e es IH]; intros w'; simpl; [done|]. apply IH.
Qed.

Lemma htable_free_ok ht : ht_wf ht -> htable_free ht = Ok tt (Htable 0 0 []).
Proof. intros Hwf. unfold htable_free. rewrite (wf_elems _ Hwf). by rewrite Z.eqb_refl. Qed.

(** ** Properties *)

(** C26 Inserting returns 1 for a key that is not in the table and 0 for one
    that is, replaces the value in both cases, leaves every other key alone
    and keeps the table well formed, the resize that a full table triggers
    included. *)
Theorem htable_insert_correct ht key val :
  ht_wf ht -> ht_elems ht < 2 ^ 31 ->
  exists ht', htable_insert key val ht = Ok (if ht_map ht !! key then 0 else 1) ht' /\ ht_wf ht' /\
    ht_map ht' = <[key := val]> (ht_map ht).
Proof. apply htable_insert_map. Qed.

Lemma htable_insert_correct_witness :
  exists ht ht', htable_init = Ok tt ht /\ htable_insert 640 7 ht = Ok 1 ht' /\ ht_wf ht' /\
    ht_map ht' = {[640 := 7]}.
Proof.
  destruct htable_init_wf as (ht & Hi & Hwf & Hm). exists ht.
  destruct (htable_insert_correct ht 640 7 Hwf) as (ht' & E & Hwf' & Hm').
  { unfold htable_init in Hi. vm_compute in Hi. injection Hi as <-. vm_compute. reflexivity. }
  exists ht'. rewrite Hm in E, Hm'. rewrite lookup_empty in E. split_and!; done.
Defined.

(** Removing returns the value of the key, NULL when it is absent, and
    leaves a well-formed table without the key and with all the others. *)
Theorem htable_remove_correct ht key :
  ht_wf ht ->
  exists ht', htable_remove key ht = Ok (default 0 (ht_map ht !! key)) ht' /\ ht_wf ht' /\
    ht_map ht' = delete key (ht_map ht).
Proof. apply htable_remove_map. Qed.

Lemma htable_remove_correct_witness :
  exists ht ht', htable_init = Ok tt ht /\ htable_remove 640 ht = Ok 0 ht' /\ ht_wf ht' /\ ht_map ht' = ∅.
Proof.
  destruct htable_init_wf as (ht & Hi & Hwf & Hm). exists ht.
  destruct (htable_remove_correct ht 640 Hwf) as (ht' & E & Hwf' & Hm').
  exists ht'. rewrite Hm in E, Hm'. rewrite lookup_empty in E. rewrite delete_empty in Hm'. done.
Defined.

(** With a callback that returns [f k v], the filter keeps exactly the
    bindings with [f k v = 0], calls the callback on every binding once in
    the order of the table, and leaves a well-formed table. *)
Theorem htable_filter_correct {W} (f : Z -> Z -> Z) (g : Z -> Z -> W -> W) ht w :
  ht_wf ht ->
  exists ht', htable_filter ht (fun k v w => Ok (f k v) (g k v w)) w
      = Ok ht' (fold_left (fun w e => g (hte_key e) (hte_val e) w) (ht_entries ht) w) /\
    ht_wf ht' /\ forall k v, ht_map ht' !! k = Some v <-> ht_map ht !! k = Some v /\ f k v = 0.
Proof. by apply (htable_filter_map f (fun k v w => Ok (f k v) (g k v w)) g). Qed.

Lemma htable_filter_correct_witness :
  exists ht ht', htable_init = Ok tt ht /\
    htable_filter ht (fun k v w => Ok (k - 5) (w + v)) 0 = Ok ht' 0 /\ ht_wf ht'.
Proof.
  destruct htable_init_wf as (ht & Hi & Hwf & Hm). exists ht.
  destruct (htable_filter_correct (fun k _ => k - 5) (fun _ v w => w + v) ht 0 Hwf) as (ht' & E & Hwf' & _).
  exists ht'. split_and!; [done| |done]. rewrite E. f_equal.
  unfold htable_init in Hi. vm_compute in Hi. injection Hi as <-. reflexivity.
Defined.
