(* ===== verification/Queue.v ===== *)
(** * Intrusive lists: the [STAILQ_*] and [LIST_*] macros of [src/utils/queue.h]

    The links live inside the elements, so the macros act on a store.  A
    component that embeds a [STAILQ_ENTRY] (a [LIST_ENTRY]) in its elements
    instantiates [SLinks] ([DLinks]): how the link fields of an element are
    read and written in the component's state.  [SLinksLaws] ([DLinksLaws])
    is what the proofs need of these accessors; the theorems are stated
    against it.  Elements are named by keys of any type with decidable
    equality.

    [stailq_repr s h l] and [dlist_repr s h l] say that the pointers of the
    store [s] and of the head [h] spell the list [l]. *)
From Stdlib Require Import ZArith Lia.
From stdpp Require Import base numbers gmap option list.
From S2P Require Import Prelude.
Open Scope Z_scope.

(** ** Singly-linked tail queues *)

(** A [struct type **]: the head's [stqh_first] or some element's [stqe_next]. *)
Inductive sref (K : Type) := SHead | SNext (k : K).
Arguments SHead {K}.
Arguments SNext {K} k.

Record stailq (K : Type) := Stailq { stqh_first : option K; stqh_last : sref K }.
Arguments Stailq {K}.
Arguments stqh_first {K}.
Arguments stqh_last {K}.

Class SLinks (S K : Type) := {
  get_stqe_next : K -> M S (option K);
  set_stqe_next : K -> option K -> M S unit;
}.

Section stailq.
Context {S K : Type} `{SL : SLinks S K}.

Definition STAILQ_INIT : stailq K := Stailq None SHead.
Definition STAILQ_EMPTY (h : stailq K) : bool := bool_decide (stqh_first h = None).
Definition STAILQ_FIRST (h : stailq K) : option K := stqh_first h.

(** Writing through [stqh_last]. *)
Definition store_last (h : stailq K) (v : option K) : M S (stailq K) :=
  match stqh_last h with
  | SHead => ret (Stailq v SHead)
  | SNext k => set_stqe_next k v ;;; ret h
  end.

Definition STAILQ_INSERT_HEAD (h : stailq K) (elm : K) : M S (stailq K) :=
  set_stqe_next elm (stqh_first h) ;;;
  let last := match stqh_first h with None => SNext elm | Some _ => stqh_last h end in
  ret (Stailq (Some elm) last).

Definition STAILQ_INSERT_TAIL (h : stailq K) (elm : K) : M S (stailq K) :=
  set_stqe_next elm None ;;;
  let! h := store_last h (Some elm) in
  ret (Stailq (stqh_first h) (SNext elm)).

Definition STAILQ_REMOVE_HEAD (h : stailq K) : M S (stailq K) :=
  let! first := from_opt NullDeref (stqh_first h) in
  let! next := get_stqe_next first in
  ret (Stailq next (match next with None => SHead | Some _ => stqh_last h end)).

Definition STAILQ_INSERT_AFTER (h : stailq K) (tqelm elm : K) : M S (stailq K) :=
  let! next := get_stqe_next tqelm in
  set_stqe_next elm next ;;;
  set_stqe_next tqelm (Some elm) ;;;
  ret (Stailq (stqh_first h) (match next with None => SNext elm | Some _ => stqh_last h end)).

Definition STAILQ_REMOVE_AFTER (h : stailq K) (elm : K) : M S (stailq K) :=
  let! next := get_stqe_next elm in
  let! victim := from_opt NullDeref next in
  let! next2 := get_stqe_next victim in
  set_stqe_next elm next2 ;;;
  ret (Stailq (stqh_first h) (match next2 with None => SNext elm | Some _ => stqh_last h end)).

(** The search loop of [STAILQ_REMOVE]; it follows NULL, and so faults, when
    the element is not on the queue. *)
Fixpoint stailq_before (fuel : nat) (curelm elm : K) (eqb : K -> K -> bool) : M S K :=
  match fuel with
  | O => fail Diverges
  | Datatypes.S fuel' =>
      let! next := get_stqe_next curelm in
      let! n := from_opt NullDeref next in
      if eqb n elm then ret curelm else stailq_before fuel' n elm eqb
  end.

Definition STAILQ_REMOVE (fuel : nat) (eqb : K -> K -> bool) (h : stailq K) (elm : K)
    : M S (stailq K) :=
  let! first := from_opt NullDeref (stqh_first h) in
  if eqb first elm then STAILQ_REMOVE_HEAD h
  else
    let! curelm := stailq_before fuel first elm eqb in
    STAILQ_REMOVE_AFTER h curelm.

Definition STAILQ_CONCAT (h1 h2 : stailq K) : M S (stailq K * stailq K) :=
  if STAILQ_EMPTY h2 then ret (h1, h2)
  else
    let! h1 := store_last h1 (stqh_first h2) in
    ret (Stailq (stqh_first h1) (stqh_last h2), STAILQ_INIT).

(** [STAILQ_FOREACH]: the elements visited, following [stqe_next]. *)
Fixpoint stailq_walk (fuel : nat) (var : option K) : M S (list K) :=
  match var, fuel with
  | None, _ => ret []
  | Some _, O => fail Diverges
  | Some k, Datatypes.S fuel' =>
      let! next := get_stqe_next k in
      let! rest := stailq_walk fuel' next in
      ret (k :: rest)
  end.

Definition STAILQ_FOREACH (fuel : nat) (h : stailq K) : M S (list K) :=
  stailq_walk fuel (stqh_first h).

(** [STAILQ_FOREACH_MUTABLE]: the link is read before the body runs. *)
Fixpoint stailq_foreach_mutable (fuel : nat) (var : option K) (body : K -> M S unit) : M S unit :=
  match var, fuel with
  | None, _ => ret tt
  | Some _, O => fail Diverges
  | Some k, Datatypes.S fuel' =>
      let! tvar := get_stqe_next k in
      body k ;;;
      stailq_foreach_mutable fuel' tvar body
  end.
Definition STAILQ_FOREACH_MUTABLE (fuel : nat) (h : stailq K) (body : K -> M S unit) : M S unit :=
  stailq_foreach_mutable fuel (stqh_first h) body.

(** The element that contains the link [stqh_last] points at; of a queue with
    elements whose [stqh_last] is the head's own field there is none. *)
Definition STAILQ_LAST (h : stailq K) : M S (option K) :=
  if STAILQ_EMPTY h then ret None
  else match stqh_last h with SNext k => ret (Some k) | SHead => fail WrongPage end.

(** [SHead] is the head's own first field, so it does not move along with the
    pointers: the last two [if]s of the macro restore it. *)
Definition STAILQ_SWAP (h1 h2 : stailq K) : stailq K * stailq K :=
  let own_last h := if STAILQ_EMPTY h then Stailq (stqh_first h) SHead else h in
  (own_last (Stailq (stqh_first h2) (stqh_last h2)), own_last (Stailq (stqh_first h1) (stqh_last h1))).
End stailq.

(** What an embedding component promises about its link accessors: a view of
    the link fields that reads see and writes update pointwise. *)
Class SLinksLaws (S K : Type) `{EqDecision K} `{SLinks S K} := {
  slink_view : S -> K -> option (option K);
  get_stqe_next_ok : forall s k v, slink_view s k = Some v -> get_stqe_next k s = Ok v s;
  set_stqe_next_ok : forall s k v, is_Some (slink_view s k) ->
    exists s', set_stqe_next k v s = Ok tt s' /\
      forall j, slink_view s' j = if decide (j = k) then Some v else slink_view s j;
}.

Section stailq_repr.
Context {S K : Type} `{Laws : SLinksLaws S K}.
Implicit Types (s : S) (h : stailq K) (l : list K).

(** The pointer [p] starts a NULL-terminated chain through [l]. *)
Fixpoint lseg s (p : option K) l : Prop :=
  match l with
  | [] => p = None
  | x :: l' => p = Some x /\ exists q, slink_view s x = Some q /\ lseg s q l'
  end.

Definition last_ref l : sref K := match last l with None => SHead | Some x => SNext x end.

Definition stailq_repr s h l : Prop :=
  lseg s (stqh_first h) l /\ stqh_last h = last_ref l /\ NoDup l.

Definition frame_except (s s' : S) (ks : list K) : Prop :=
  forall j, j ∉ ks -> slink_view s' j = slink_view s j.

Lemma lseg_frame s s' p l :
  lseg s p l -> (forall j, j ∈ l -> slink_view s' j = slink_view s j) -> lseg s' p l.
Proof using.
  revert p. induction l as [|x l IH]; intros p; simpl; [done|].
  intros (-> & q & Hx & Hl) Hf. split; [done|]. exists q. split.
  - rewrite Hf; [done|by constructor].
  - apply IH; [done|]. intros j Hj. apply Hf. by constructor.
Qed.

Lemma lseg_link s p l x : lseg s p l -> x ∈ l -> is_Some (slink_view s x).
Proof using.
  revert p. induction l as [|y l IH]; intros p; simpl; [by intros _ ?%elem_of_nil|].
  intros (-> & q & Hy & Hl) [->|Hx]%elem_of_cons; [by eexists|eauto].
Qed.

Lemma lseg_first s p l : lseg s p l -> p = head l.
Proof using. destruct l; simpl; [done|]. by intros [-> _]. Qed.

(** Redirecting the last element of a chain to a fresh one-element chain. *)
Lemma lseg_snoc s s' p l x elm :
  lseg s p (l ++ [x]) -> NoDup (l ++ [x]) -> elm ∉ l ++ [x] ->
  (forall j, j ∈ l -> slink_view s' j = slink_view s j) ->
  slink_view s' x = Some (Some elm) -> slink_view s' elm = Some None ->
  lseg s' p ((l ++ [x]) ++ [elm]).
Proof using.
  revert p. induction l as [|y l IH]; intros p; simpl.
  - intros (-> & q & Hx & _) _ _ _ Hx' He'. eauto 10.
  - intros (-> & q & Hy & Hl) Hnd Hin Hf Hx He. split; [done|]. exists q. split.
    + rewrite Hf; [done|by constructor].
    + apply IH; try done.
      * by inversion Hnd.
      * set_solver.
      * intros j Hj. apply Hf. by constructor.
Qed.

Lemma STAILQ_INIT_repr s : stailq_repr s STAILQ_INIT [].
Proof using. split_and!; [done|done|constructor]. Qed.

Lemma STAILQ_FIRST_repr s h l : stailq_repr s h l -> STAILQ_FIRST h = head l.
Proof using. intros [Hl _]. by eapply lseg_first. Qed.

Lemma STAILQ_INSERT_HEAD_repr s h l elm :
  stailq_repr s h l -> elm ∉ l -> is_Some (slink_view s elm) ->
  wp (STAILQ_INSERT_HEAD h elm) (fun h' s' =>
    stailq_repr s' h' (elm :: l) /\ frame_except s s' [elm]) s.
Proof using.
  intros (Hl & Hlast & Hnd) Hin Hs. unfold STAILQ_INSERT_HEAD. apply wp_bind.
  destruct (set_stqe_next_ok s elm (stqh_first h) Hs) as (s' & E & Hv).
  eapply wp_ok; [exact E|]. apply wp_ret. split; [split_and!|].
  - simpl. split; [done|]. exists (stqh_first h). split; [rewrite Hv; by rewrite decide_True|].
    eapply lseg_frame; [done|]. intros j Hj. rewrite Hv, decide_False; [done|]. by intros ->.
  - simpl. rewrite (lseg_first _ _ _ Hl). destruct l as [|x l]; [done|]. simpl. rewrite Hlast. done.
  - by constructor.
  - intros j Hj. rewrite Hv, decide_False; [done|]. set_solver.
Qed.

Lemma STAILQ_INSERT_TAIL_repr s h l elm :
  stailq_repr s h l -> elm ∉ l -> is_Some (slink_view s elm) ->
  wp (STAILQ_INSERT_TAIL h elm) (fun h' s' =>
    stailq_repr s' h' (l ++ [elm]) /\
    (forall j, j <> elm -> j ∉ l -> slink_view s' j = slink_view s j)) s.
Proof using.
  intros (Hl & Hlast & Hnd) Hin Hs. unfold STAILQ_INSERT_TAIL. apply wp_bind.
  destruct (set_stqe_next_ok s elm None Hs) as (s1 & E & Hv).
  eapply wp_ok; [exact E|]. apply wp_bind. unfold store_last. rewrite Hlast. unfold last_ref.
  assert (Hnd' : NoDup (l ++ [elm])) by (apply NoDup_app; split_and!; [done|set_solver|apply NoDup_singleton]).
  destruct (last l) as [x|] eqn:El.
  - apply last_Some in El as [l0 ->].
    assert (Hx : is_Some (slink_view s1 x)).
    { rewrite Hv. case_decide; [by eexists|]. eapply lseg_link; [done|set_solver]. }
    destruct (set_stqe_next_ok s1 x (Some elm) Hx) as (s2 & E2 & Hv2).
    apply wp_bind. eapply wp_ok; [exact E2|]. do 2 apply wp_ret.
    assert (elm <> x) by set_solver. split; [split_and!|].
    + simpl. eapply lseg_snoc; try done.
      * intros j Hj. rewrite Hv2, Hv, !decide_False; [done|set_solver|].
        intros ->. apply NoDup_app in Hnd as (_ & Hd & _). set_solver.
      * by rewrite Hv2, decide_True.
      * by rewrite Hv2, Hv, decide_False, decide_True.
    + simpl. unfold last_ref. by rewrite last_snoc.
    + done.
    + intros j Hj Hjl. rewrite Hv2, Hv, !decide_False; [done|done|set_solver].
  - apply last_None in El as ->. do 2 apply wp_ret. split; [split_and!|].
    + simpl. split; [done|]. exists None. by rewrite Hv, decide_True.
    + done.
    + done.
    + intros j Hj _. by rewrite Hv, decide_False.
Qed.

Lemma STAILQ_REMOVE_HEAD_repr s h x l :
  stailq_repr s h (x :: l) ->
  wp (STAILQ_REMOVE_HEAD h) (fun h' s' => stailq_repr s' h' l /\ s' = s) s.
Proof using.
  intros ((Hf & q & Hx & Hl) & Hlast & Hnd). unfold STAILQ_REMOVE_HEAD.
  apply wp_bind. eapply wp_from_opt; [exact Hf|]. apply wp_bind.
  eapply wp_ok; [by apply get_stqe_next_ok|]. apply wp_ret. split; [|done]. split_and!; simpl.
  - done.
  - rewrite (lseg_first _ _ _ Hl). destruct l as [|y l]; [done|]. simpl. rewrite Hlast.
    unfold last_ref. simpl. done.
  - by inversion Hnd.
Qed.

(** Whatever the stores of links keep, the insertions keep. *)
Section steps.
Context (R : S -> S -> Prop) (HR : PreOrder R).
Context (Hstep : forall s k v s', is_Some (slink_view s k) -> set_stqe_next k v s = Ok tt s' -> R s s').

Lemma STAILQ_INSERT_HEAD_steps s h elm : is_Some (slink_view s elm) -> wp (STAILQ_INSERT_HEAD h elm) (fun _ s' => R s s') s.
Proof using Hstep.
  intros Hs. unfold STAILQ_INSERT_HEAD. apply wp_bind. destruct (set_stqe_next_ok s elm (stqh_first h) Hs) as (s' & E & _).
  eapply wp_ok; [exact E|]. apply wp_ret. by eapply Hstep.
Qed.

Lemma STAILQ_INSERT_TAIL_steps s h l elm :
  stailq_repr s h l -> is_Some (slink_view s elm) -> wp (STAILQ_INSERT_TAIL h elm) (fun _ s' => R s s') s.
Proof using Hstep HR.
  intros (Hl & Hlast & _) Hs. unfold STAILQ_INSERT_TAIL. apply wp_bind.
  destruct (set_stqe_next_ok s elm None Hs) as (s1 & E & Hv). eapply wp_ok; [exact E|]. apply wp_bind. unfold store_last.
  rewrite Hlast. unfold last_ref. destruct (last l) as [x|] eqn:El; [|do 2 apply wp_ret; by eapply Hstep].
  assert (Hx : is_Some (slink_view s1 x)).
  { rewrite Hv. case_decide; [by eexists|]. eapply lseg_link; [exact Hl|]. by apply last_Some_elem_of. }
  destruct (set_stqe_next_ok s1 x (Some elm) Hx) as (s2 & E2 & _). apply wp_bind. eapply wp_ok; [exact E2|]. do 2 apply wp_ret.
  transitivity s1; by eapply Hstep.
Qed.
End steps.

Lemma stailq_walk_repr s l p fuel :
  lseg s p l -> (length l <= fuel)%nat -> stailq_walk fuel p s = Ok l s.
Proof using.
  revert p fuel. induction l as [|x l IH]; intros p fuel; simpl.
  - intros -> _. by destruct fuel.
  - intros (-> & q & Hx & Hl) Hf. destruct fuel as [|fuel]; [simpl in Hf; lia|]. simpl.
    unfold bind. rewrite (get_stqe_next_ok _ _ _ Hx), (IH q) by (done || simpl in Hf; lia). done.
Qed.

Lemma STAILQ_FOREACH_repr s h l fuel :
  stailq_repr s h l -> (length l <= fuel)%nat -> STAILQ_FOREACH fuel h s = Ok l s.
Proof using. intros [Hl _] Hf. by apply stailq_walk_repr. Qed.
End stailq_repr.

(** Reading the last element, joining two queues, and exchanging them. *)
Section stailq_pairs.
Context {S K : Type} `{Laws : SLinksLaws S K}.
Implicit Types (s : S) (h : stailq K) (l : list K).

Lemma STAILQ_EMPTY_repr s h l : stailq_repr s h l -> STAILQ_EMPTY h = bool_decide (l = []).
Proof using.
  intros [Hl _]. unfold STAILQ_EMPTY. rewrite (lseg_first _ _ _ Hl).
  apply bool_decide_ext. by destruct l.
Qed.

Lemma STAILQ_LAST_repr s h l : stailq_repr s h l -> STAILQ_LAST h s = Ok (last l) s.
Proof using.
  intros Hr. unfold STAILQ_LAST. rewrite (STAILQ_EMPTY_repr _ _ _ Hr).
  destruct l as [|x l] using rev_ind; [done|]. rewrite bool_decide_false by (by destruct l).
  destruct Hr as (_ & -> & _). unfold last_ref. by rewrite last_snoc.
Qed.

Lemma STAILQ_SWAP_repr s h1 h2 l1 l2 :
  stailq_repr s h1 l1 -> stailq_repr s h2 l2 ->
  stailq_repr s (STAILQ_SWAP h1 h2).1 l2 /\ stailq_repr s (STAILQ_SWAP h1 h2).2 l1.
Proof using.
  intros Hr1 Hr2. unfold STAILQ_SWAP. simpl. destruct h1 as [f1 la1], h2 as [f2 la2]. simpl.
  rewrite (STAILQ_EMPTY_repr _ _ _ Hr1), (STAILQ_EMPTY_repr _ _ _ Hr2).
  split; case_bool_decide; subst; try done; [destruct Hr2 as (Hl & Hla & Hnd)|destruct Hr1 as (Hl & Hla & Hnd)];
    simpl in *; by subst.
Qed.

Lemma lseg_join s s' p l1 x l2 q :
  lseg s p (l1 ++ [x]) -> lseg s q l2 -> NoDup (l1 ++ [x]) -> (forall y, y ∈ l1 ++ [x] -> y ∉ l2) ->
  (forall j, slink_view s' j = if decide (j = x) then Some q else slink_view s j) ->
  lseg s' p ((l1 ++ [x]) ++ l2).
Proof using.
  intros Hl1 Hl2 Hnd Hd Hv. revert p Hl1. induction l1 as [|y l1 IH]; intros p; simpl.
  - intros (-> & r & Hx & _). split; [done|]. exists q. split; [by rewrite Hv, decide_True|].
    eapply lseg_frame; [done|]. intros j Hj. rewrite Hv, decide_False; [done|]. intros ->.
    apply (Hd x); [by constructor|done].
  - intros (-> & r & Hy & Hl). split; [done|]. exists r. simpl in Hnd. apply NoDup_cons in Hnd as [Hyn Hnd].
    split; [rewrite Hv, decide_False; [done|]; intros ->; set_solver|].
    apply IH; [done|intros z Hz; apply Hd; simpl; by constructor|done].
Qed.

Lemma STAILQ_CONCAT_repr s h1 h2 l1 l2 :
  stailq_repr s h1 l1 -> stailq_repr s h2 l2 -> (forall y, y ∈ l1 -> y ∉ l2) ->
  wp (STAILQ_CONCAT h1 h2) (fun hs s' => stailq_repr s' hs.1 (l1 ++ l2) /\ stailq_repr s' hs.2 []) s.
Proof using.
  intros Hr1 Hr2 Hd. unfold STAILQ_CONCAT. rewrite (STAILQ_EMPTY_repr _ _ _ Hr2).
  case_bool_decide as El2.
  { apply wp_ret. subst l2. by rewrite app_nil_r. }
  destruct Hr1 as (Hl1 & Hla1 & Hnd1), Hr2 as (Hl2 & Hla2 & Hnd2).
  assert (Hnd : NoDup (l1 ++ l2)) by (by apply NoDup_app).
  assert (Hlast : last_ref (l1 ++ l2) = last_ref l2).
  { unfold last_ref. rewrite last_app. destruct (last l2) eqn:E; [done|]. by apply last_None in E. }
  unfold store_last. rewrite Hla1. unfold last_ref. destruct l1 as [|x l1 _] using rev_ind.
  - apply wp_bind, wp_ret, wp_ret. split; [|apply STAILQ_INIT_repr]. split_and!; [done|by rewrite Hla2|done].
  - rewrite last_snoc. assert (Hx : is_Some (slink_view s x)) by (eapply (lseg_link _ _ _ _ Hl1); set_solver).
    destruct (set_stqe_next_ok s x (stqh_first h2) Hx) as (s' & E & Hv).
    apply wp_bind, wp_bind. eapply wp_ok; [exact E|]. apply wp_ret, wp_ret.
    split; [|apply STAILQ_INIT_repr]. split_and!; [|by rewrite Hlast|done].
    by eapply lseg_join.
Qed.
End stailq_pairs.

(** ** Doubly-linked lists *)
Class DLinks (S K : Type) := {
  get_le_next : K -> M S (option K);
  get_le_prev : K -> M S (sref K);
  set_le_next : K -> option K -> M S unit;
  set_le_prev : K -> sref K -> M S unit;
}.

Section dlist.
Context {S K : Type} `{DL : DLinks S K}.

Definition LIST_INIT : option K := None.
Definition LIST_FIRST (lh_first : option K) : option K := lh_first.
Definition LIST_EMPTY (lh_first : option K) : bool := bool_decide (lh_first = None).

(** [if (p != NULL) p->le_prev = prev] *)
Definition fix_prev (p : option K) (prev : sref K) : M S unit :=
  match p with None => ret tt | Some n => set_le_prev n prev end.

Definition LIST_INSERT_HEAD (lh_first : option K) (elm : K) : M S (option K) :=
  set_le_next elm lh_first ;;;
  fix_prev lh_first (SNext elm) ;;;
  set_le_prev elm SHead ;;;
  ret (Some elm).

Definition LIST_INSERT_AFTER (listelm elm : K) : M S unit :=
  let! next := get_le_next listelm in
  set_le_next elm next ;;;
  fix_prev next (SNext elm) ;;;
  set_le_next listelm (Some elm) ;;;
  set_le_prev elm (SNext listelm).

Definition LIST_INSERT_BEFORE (lh_first : option K) (listelm elm : K) : M S (option K) :=
  let! prev := get_le_prev listelm in
  set_le_prev elm prev ;;;
  set_le_next elm (Some listelm) ;;;
  let! first := (match prev with
                 | SHead => ret (Some elm)
                 | SNext k => set_le_next k (Some elm) ;;; ret lh_first
                 end) in
  set_le_prev listelm (SNext elm) ;;;
  ret first.

Definition LIST_REMOVE (lh_first : option K) (elm : K) : M S (option K) :=
  let! next := get_le_next elm in
  let! prev := get_le_prev elm in
  fix_prev next prev ;;;
  match prev with
  | SHead => ret next
  | SNext k => set_le_next k next ;;; ret lh_first
  end.

Fixpoint list_walk (fuel : nat) (var : option K) : M S (list K) :=
  match var, fuel with
  | None, _ => ret []
  | Some _, O => fail Diverges
  | Some k, Datatypes.S fuel' =>
      let! next := get_le_next k in
      let! rest := list_walk fuel' next in
      ret (k :: rest)
  end.

Definition LIST_FOREACH (fuel : nat) (lh_first : option K) : M S (list K) :=
  list_walk fuel lh_first.

Fixpoint list_foreach_mutable (fuel : nat) (var : option K) (body : K -> M S unit) : M S unit :=
  match var, fuel with
  | None, _ => ret tt
  | Some _, O => fail Diverges
  | Some k, Datatypes.S fuel' =>
      let! tvar := get_le_next k in
      body k ;;;
      list_foreach_mutable fuel' tvar body
  end.
Definition LIST_FOREACH_MUTABLE (fuel : nat) (lh_first : option K) (body : K -> M S unit) : M S unit :=
  list_foreach_mutable fuel lh_first body.

(** The new [lh_first] of the two heads. *)
Definition LIST_SWAP (first1 first2 : option K) : M S (option K * option K) :=
  fix_prev first2 SHead ;;;
  fix_prev first1 SHead ;;;
  ret (first2, first1).
End dlist.

Class DLinksLaws (S K : Type) `{EqDecision K} `{DLinks S K} := {
  dlink_view : S -> K -> option (option K * sref K);
  get_le_next_ok : forall s k v, dlink_view s k = Some v -> get_le_next k s = Ok v.1 s;
  get_le_prev_ok : forall s k v, dlink_view s k = Some v -> get_le_prev k s = Ok v.2 s;
  set_le_next_ok : forall s k v n, dlink_view s k = Some v ->
    exists s', set_le_next k n s = Ok tt s' /\
      forall j, dlink_view s' j = if decide (j = k) then Some (n, v.2) else dlink_view s j;
  set_le_prev_ok : forall s k v p, dlink_view s k = Some v ->
    exists s', set_le_prev k p s = Ok tt s' /\
      forall j, dlink_view s' j = if decide (j = k) then Some (v.1, p) else dlink_view s j;
}.

Section dlist_repr.
Context {S K : Type} `{Laws : DLinksLaws S K}.
Implicit Types (s : S) (l : list K).

Fixpoint dlseg s (prev : sref K) (p : option K) l : Prop :=
  match l with
  | [] => p = None
  | x :: l' => p = Some x /\ exists q, dlink_view s x = Some (q, prev) /\ dlseg s (SNext x) q l'
  end.

Definition dlist_repr s (lh_first : option K) l : Prop := dlseg s SHead lh_first l /\ NoDup l.

Lemma dlseg_frame s s' prev p l :
  dlseg s prev p l -> (forall j, j ∈ l -> dlink_view s' j = dlink_view s j) -> dlseg s' prev p l.
Proof using.
  revert prev p. induction l as [|x l IH]; intros prev p; simpl; [done|].
  intros (-> & q & Hx & Hl) Hf. split; [done|]. exists q. split.
  - rewrite Hf; [done|by constructor].
  - apply IH; [done|]. intros j Hj. apply Hf. by constructor.
Qed.

Lemma dlseg_first s prev p l : dlseg s prev p l -> p = head l.
Proof using. destruct l; simpl; [done|]. by intros [-> _]. Qed.

(** [fix_prev] rewrites the back pointer of the head of a segment. *)
Lemma fix_prev_ok s prev p l prev' :
  dlseg s prev p l -> NoDup l ->
  exists s', fix_prev p prev' s = Ok tt s' /\ dlseg s' prev' p l /\
    forall j, head l <> Some j -> dlink_view s' j = dlink_view s j.
Proof using.
  intros Hl Hnd. destruct l as [|x l]; simpl in *.
  - subst. by exists s.
  - destruct Hl as (-> & q & Hx & Hl). simpl.
    destruct (set_le_prev_ok s x _ prev' Hx) as (s' & -> & Hv). exists s'. split; [done|]. split.
    + split; [done|]. exists q. split; [by rewrite Hv, decide_True|].
      eapply dlseg_frame; [done|]. intros j Hj. rewrite Hv, decide_False; [done|].
      intros ->. by inversion Hnd.
    + intros j Hj. rewrite Hv, decide_False; [done|]. congruence.
Qed.

Lemma LIST_INSERT_HEAD_repr s h l elm v :
  dlist_repr s h l -> elm ∉ l -> dlink_view s elm = Some v ->
  wp (LIST_INSERT_HEAD h elm) (fun h' s' => dlist_repr s' h' (elm :: l) /\
    forall j, j <> elm -> j ∉ l -> dlink_view s' j = dlink_view s j) s.
Proof using.
  intros [Hl Hnd] Hin He. unfold LIST_INSERT_HEAD.
  destruct (set_le_next_ok s elm _ h He) as (s1 & E1 & V1).
  apply wp_bind. eapply wp_ok; [exact E1|].
  assert (Hl1 : dlseg s1 SHead h l).
  { eapply dlseg_frame; [done|]. intros j Hj. rewrite V1, decide_False; [done|]. by intros ->. }
  destruct (fix_prev_ok s1 _ _ _ (SNext elm) Hl1 Hnd) as (s2 & E2 & Hl2 & V2).
  apply wp_bind. eapply wp_ok; [exact E2|].
  assert (Hne : head l <> Some elm) by (destruct l; simpl; [done|set_solver]).
  assert (He2 : dlink_view s2 elm = Some (h, v.2)) by (by rewrite V2, V1, decide_True).
  destruct (set_le_prev_ok s2 elm _ SHead He2) as (s3 & E3 & V3).
  apply wp_bind. eapply wp_ok; [exact E3|]. apply wp_ret. split; [split|].
  - simpl. split; [done|]. exists h. split; [by rewrite V3, decide_True|].
    eapply dlseg_frame; [done|]. intros j Hj. rewrite V3, decide_False; [done|]. by intros ->.
  - by constructor.
  - intros j Hj Hjl. rewrite V3, decide_False, V2, V1, decide_False; try done.
    destruct l; simpl; [done|]. set_solver.
Qed.

Lemma dlseg_last s prev p l x :
  dlseg s prev p (l ++ [x]) -> exists pr, dlink_view s x = Some (None, pr).
Proof using.
  revert prev p. induction l as [|y l IH]; intros prev p; simpl.
  - intros (_ & q & Hx & ->). eauto.
  - intros (_ & q & _ & Hl). eauto.
Qed.

Lemma dlseg_snoc s s' prev p l x pr elm :
  dlseg s prev p (l ++ [x]) -> dlink_view s x = Some (None, pr) ->
  (forall j, j ∈ l -> dlink_view s' j = dlink_view s j) ->
  dlink_view s' x = Some (Some elm, pr) -> dlink_view s' elm = Some (None, SNext x) ->
  dlseg s' prev p ((l ++ [x]) ++ [elm]).
Proof using.
  revert prev p. induction l as [|y l IH]; intros prev p; simpl.
  - intros (-> & q & Hx & ->) Hxp _ Hx' He'. rewrite Hx in Hxp. injection Hxp as ->. eauto 10.
  - intros (-> & q & Hy & Hl) Hxp Hf Hx He. split; [done|]. exists q. split.
    + rewrite Hf; [done|by constructor].
    + apply IH; try done. intros j Hj. apply Hf. by constructor.
Qed.

(** Inserting after the last element appends. *)
Lemma LIST_INSERT_AFTER_last_repr s h l x elm v :
  dlist_repr s h (l ++ [x]) -> elm ∉ l ++ [x] -> dlink_view s elm = Some v ->
  wp (LIST_INSERT_AFTER x elm) (fun _ s' => dlist_repr s' h ((l ++ [x]) ++ [elm]) /\
    forall j, j <> elm -> j ∉ l ++ [x] -> dlink_view s' j = dlink_view s j) s.
Proof using.
  intros [Hl Hnd] Hin He. unfold LIST_INSERT_AFTER.
  destruct (dlseg_last _ _ _ _ _ Hl) as [pr Hx].
  apply wp_bind. eapply wp_ok; [by apply (get_le_next_ok _ _ _ Hx)|]. simpl.
  destruct (set_le_next_ok s elm _ None He) as (s1 & E1 & V1).
  apply wp_bind. eapply wp_ok; [exact E1|]. apply wp_bind, wp_ret.
  assert (elm <> x) by set_solver.
  assert (Hx1 : dlink_view s1 x = Some (None, pr)) by (by rewrite V1, decide_False).
  destruct (set_le_next_ok s1 x _ (Some elm) Hx1) as (s2 & E2 & V2).
  apply wp_bind. eapply wp_ok; [exact E2|].
  assert (He2 : dlink_view s2 elm = Some (None, v.2)) by (by rewrite V2, decide_False, V1, decide_True).
  destruct (set_le_prev_ok s2 elm _ (SNext x) He2) as (s3 & E3 & V3).
  eapply wp_ok; [exact E3|]. split; [split|].
  - eapply dlseg_snoc; [done|done| | |].
    + intros j Hj. assert (j <> x) by (intros ->; apply NoDup_app in Hnd as (_ & Hd & _); set_solver).
      rewrite V3, V2, V1, !decide_False; set_solver.
    + by rewrite V3, V2, decide_False, decide_True.
    + by rewrite V3, decide_True.
  - apply NoDup_app. split_and!; [done|set_solver|apply NoDup_singleton].
  - intros j Hj Hjl. rewrite V3, V2, V1, !decide_False; set_solver.
Qed.

Lemma LIST_REMOVE_head_repr s h x l :
  dlist_repr s h (x :: l) ->
  wp (LIST_REMOVE h x) (fun h' s' => dlist_repr s' h' l /\
    (forall j, j ∉ l -> dlink_view s' j = dlink_view s j)) s.
Proof using.
  intros [(-> & q & Hx & Hl) Hnd]. unfold LIST_REMOVE.
  apply wp_bind. eapply wp_ok; [apply (get_le_next_ok _ _ _ Hx)|].
  apply wp_bind. eapply wp_ok; [apply (get_le_prev_ok _ _ _ Hx)|]. simpl.
  inversion_clear Hnd as [|? ? Hxl Hnd1].
  destruct (fix_prev_ok s _ _ _ SHead Hl Hnd1) as (s1 & E1 & Hl1 & V1).
  apply wp_bind. eapply wp_ok; [exact E1|]. apply wp_ret. split; [done|].
  intros j Hj. apply V1. destruct l; simpl; [done|]. set_solver.
Qed.

Lemma list_walk_repr s l prev p fuel :
  dlseg s prev p l -> (length l <= fuel)%nat -> list_walk fuel p s = Ok l s.
Proof using.
  revert prev p fuel. induction l as [|x l IH]; intros prev p fuel; simpl.
  - intros -> _. by destruct fuel.
  - intros (-> & q & Hx & Hl) Hf. destruct fuel as [|fuel]; [simpl in Hf; lia|]. simpl.
    unfold bind. rewrite (get_le_next_ok _ _ _ Hx). simpl.
    rewrite (IH (SNext x) q) by (done || simpl in Hf; lia). done.
Qed.
End dlist_repr.

(** ** The links kept in a finite map

    The simplest store: enough to run the macros on concrete queues. *)
#[export] Instance gmap_slinks {K} `{Countable K} : SLinks (gmap K (option K)) K := {
  get_stqe_next k := fun s => match s !! k with Some v => Ok v s | None => Fail Unmapped s end;
  set_stqe_next k v := fun s => match s !! k with
    | Some _ => Ok tt (<[k := v]> s) | None => Fail Unmapped s end;
}.

#[export, refine] Instance gmap_slinks_laws {K} `{Countable K} : SLinksLaws (gmap K (option K)) K := {
  slink_view s k := s !! k;
}.
Proof.
  - intros s k v Hk. simpl. by rewrite Hk.
  - intros s k v [w Hk]. simpl. rewrite Hk. exists (<[k := v]> s). split; [done|].
    intros j. rewrite lookup_insert. by repeat case_decide; subst.
Defined.

#[export] Instance gmap_dlinks {K} `{Countable K} : DLinks (gmap K (option K * sref K)) K := {
  get_le_next k := fun s => match s !! k with Some v => Ok v.1 s | None => Fail Unmapped s end;
  get_le_prev k := fun s => match s !! k with Some v => Ok v.2 s | None => Fail Unmapped s end;
  set_le_next k n := fun s => match s !! k with
    | Some v => Ok tt (<[k := (n, v.2)]> s) | None => Fail Unmapped s end;
  set_le_prev k p := fun s => match s !! k with
    | Some v => Ok tt (<[k := (v.1, p)]> s) | None => Fail Unmapped s end;
}.

#[export, refine] Instance gmap_dlinks_laws {K} `{Countable K} :
    DLinksLaws (gmap K (option K * sref K)) K := {
  dlink_view s k := s !! k;
}.
Proof.
  - intros s k v Hk. simpl. by rewrite Hk.
  - intros s k v Hk. simpl. by rewrite Hk.
  - intros s k v n Hk. simpl. rewrite Hk. eexists. split; [done|].
    intros j. rewrite lookup_insert. by repeat case_decide; subst.
  - intros s k v p Hk. simpl. rewrite Hk. eexists. split; [done|].
    intros j. rewrite lookup_insert. by repeat case_decide; subst.
Defined.

(** ** Properties *)

(** [STAILQ_INSERT_TAIL] of an element that is not on the queue appends
    it, and changes the link field of no element off the queue; of the queue
    it then has, [STAILQ_FOREACH] visits every element in order. *)
Theorem STAILQ_INSERT_TAIL_correct {S K} `{Laws : SLinksLaws S K} (s : S) (h : stailq K) l elm :
  stailq_repr s h l -> elm ∉ l -> is_Some (slink_view s elm) ->
  wp (STAILQ_INSERT_TAIL h elm) (fun h' s' =>
    stailq_repr s' h' (l ++ [elm]) /\ frame_except s s' (elm :: l) /\
    STAILQ_FOREACH (length l + 2) h' s' = Ok (l ++ [elm]) s') s.
Proof.
  intros Hr Hn He. eapply wp_mono; [by apply STAILQ_INSERT_TAIL_repr|].
  intros h' s' [Hr' Hf]. split_and!; [done| |].
  - intros j [Hj1 Hj2]%not_elem_of_cons. auto.
  - apply STAILQ_FOREACH_repr; [done|]. rewrite length_app. simpl. lia.
Qed.

Lemma STAILQ_INSERT_TAIL_correct_witness :
  wp (STAILQ_INSERT_TAIL (STAILQ_INIT (K := Z)) 4) (fun h' s' =>
    stailq_repr s' h' [4] /\ frame_except {[4 := None]} s' [4] /\
    STAILQ_FOREACH 2 h' s' = Ok [4] s') ({[4 := None]} : gmap Z (option Z)).
Proof.
  apply (STAILQ_INSERT_TAIL_correct ({[4 := None]} : gmap Z (option Z)) STAILQ_INIT [] 4).
  - apply STAILQ_INIT_repr.
  - apply not_elem_of_nil.
  - exists None. reflexivity.
Defined.
