(* ===== verification/Tailq.v ===== *)
(** * Lists whose heads are in memory: the [SLIST_*] and [TAILQ_*] macros of
    [src/utils/queue.h]

    A [struct type **] points at a head's first field or at an element's
    link.  A [TAILQ_HEAD] and a [TAILQ_ENTRY] have the same layout, two
    pointers, and [TAILQ_LAST] and [TAILQ_PREV] read an entry as a head; so
    memory is one map from _cells_, heads and entries alike, to their two
    fields.  [tq_repr s h l] says that the queue of the head [h] is the list
    [l]; the theorem is about any number of queues in one memory, and every
    sequence of operations on them. *)
From Stdlib Require Import ZArith Lia.
From stdpp Require Import base numbers gmap option list.
From S2P Require Import Prelude.
Open Scope Z_scope.

Section cells.
Context {H K : Type} `{CH : Countable H} `{CK : Countable K}.

(** [&head->tqh_first] or [&elm->field.tqe_next], and with it the head or the
    entry itself. *)
Notation cell := (H + K)%type.

(** ** Singly-linked lists *)
Section slist.
Notation store := (gmap cell (option K)).
Notation M := (M store).

(** [*p], for [p] the address of [slh_first] or of a [sle_next]. *)
Definition sl_get (p : cell) : M (option K) := fun s =>
  match s !! p with Some v => Ok v s | None => Fail Unmapped s end.
Definition sl_set (p : cell) (v : option K) : M unit := fun s =>
  match s !! p with Some _ => Ok tt (<[p := v]> s) | None => Fail Unmapped s end.

Definition SLIST_FIRST (head : H) : M (option K) := sl_get (inl head).
Definition SLIST_NEXT (elm : K) : M (option K) := sl_get (inr elm).
Definition SLIST_EMPTY (head : H) : M bool :=
  let! first := SLIST_FIRST head in ret (bool_decide (first = None)).
Definition SLIST_INIT (head : H) : M unit := sl_set (inl head) None.

Definition SLIST_INSERT_AFTER (slistelm elm : K) : M unit :=
  let! next := SLIST_NEXT slistelm in
  sl_set (inr elm) next ;;;
  sl_set (inr slistelm) (Some elm).

Definition SLIST_INSERT_HEAD (head : H) (elm : K) : M unit :=
  let! first := SLIST_FIRST head in
  sl_set (inr elm) first ;;;
  sl_set (inl head) (Some elm).

Definition SLIST_REMOVE_AFTER (elm : K) : M unit :=
  let! next := SLIST_NEXT elm in
  let! victim := from_opt NullDeref next in
  let! next := SLIST_NEXT victim in
  sl_set (inr elm) next.

Definition SLIST_REMOVE_HEAD (head : H) : M unit :=
  let! first := SLIST_FIRST head in
  let! victim := from_opt NullDeref first in
  let! next := SLIST_NEXT victim in
  sl_set (inl head) next.

(** The search loop of [SLIST_REMOVE]. *)
Fixpoint slist_before (fuel : nat) (curelm elm : K) : M K :=
  match fuel with
  | O => fail Diverges
  | S fuel' =>
      let! next := SLIST_NEXT curelm in
      if decide (next = Some elm) then ret curelm
      else let! n := from_opt NullDeref next in slist_before fuel' n elm
  end.

Definition SLIST_REMOVE (fuel : nat) (head : H) (elm : K) : M unit :=
  let! first := SLIST_FIRST head in
  if decide (first = Some elm) then SLIST_REMOVE_HEAD head
  else
    let! curelm := from_opt NullDeref first in
    let! curelm := slist_before fuel curelm elm in
    SLIST_REMOVE_AFTER curelm.

(** [swap_first] keeps the first element of [head1]. *)
Definition SLIST_SWAP (head1 head2 : H) : M unit :=
  let! swap_first := SLIST_FIRST head1 in
  let! first2 := SLIST_FIRST head2 in
  sl_set (inl head1) first2 ;;;
  sl_set (inl head2) swap_first.

(** The three loops: [SLIST_FOREACH] reads the link of an element after the
    body, [SLIST_FOREACH_MUTABLE] before it, [SLIST_FOREACH_PREVPTR] gives the
    body the address of the pointer it came through. *)
Fixpoint slist_foreach (fuel : nat) (var : option K) (body : K -> M unit) : M unit :=
  match var, fuel with
  | None, _ => ret tt
  | Some _, O => fail Diverges
  | Some x, S fuel' => body x ;;; let! next := SLIST_NEXT x in slist_foreach fuel' next body
  end.
Definition SLIST_FOREACH (fuel : nat) (head : H) (body : K -> M unit) : M unit :=
  let! var := SLIST_FIRST head in slist_foreach fuel var body.

Fixpoint slist_foreach_mutable (fuel : nat) (var : option K) (body : K -> M unit) : M unit :=
  match var, fuel with
  | None, _ => ret tt
  | Some _, O => fail Diverges
  | Some x, S fuel' => let! tvar := SLIST_NEXT x in body x ;;; slist_foreach_mutable fuel' tvar body
  end.
Definition SLIST_FOREACH_MUTABLE (fuel : nat) (head : H) (body : K -> M unit) : M unit :=
  let! var := SLIST_FIRST head in slist_foreach_mutable fuel var body.

Fixpoint slist_foreach_prevptr (fuel : nat) (varp : cell) (body : K -> cell -> M unit) : M unit :=
  let! var := sl_get varp in
  match var, fuel with
  | None, _ => ret tt
  | Some _, O => fail Diverges
  | Some x, S fuel' => body x varp ;;; slist_foreach_prevptr fuel' (inr x) body
  end.
Definition SLIST_FOREACH_PREVPTR (fuel : nat) (head : H) (body : K -> cell -> M unit) : M unit :=
  slist_foreach_prevptr fuel (inl head) body.
End slist.

(** ** Tail queues *)
Section tailq.

(** The fields [tqh_first], [tqh_last] of a head; [tqe_next], [tqe_prev] of an
    entry. *)
Record tq_fields := TQ { tq_next : option K; tq_prev : cell }.
Notation store := (gmap cell tq_fields).
Notation M := (M store).

Definition tq_get (p : cell) : M tq_fields := fun s =>
  match s !! p with Some v => Ok v s | None => Fail Unmapped s end.
Definition next_at (p : cell) : M (option K) := let! f := tq_get p in ret (tq_next f).
Definition prev_at (p : cell) : M cell := let! f := tq_get p in ret (tq_prev f).
Definition tq_set (p : cell) (g : tq_fields -> tq_fields) : M unit := fun s =>
  match s !! p with Some v => Ok tt (<[p := g v]> s) | None => Fail Unmapped s end.
Definition set_next (p : cell) (v : option K) : M unit := tq_set p (fun f => TQ v (tq_prev f)).
Definition set_prev (p : cell) (q : cell) : M unit := tq_set p (fun f => TQ (tq_next f) q).

Definition TAILQ_FIRST (head : H) : M (option K) := next_at (inl head).
Definition TAILQ_NEXT (elm : K) : M (option K) := next_at (inr elm).
Definition TAILQ_EMPTY (head : H) : M bool :=
  let! first := TAILQ_FIRST head in ret (bool_decide (first = None)).

(** [*(((struct headname * )p->tqh_last)->tqh_last)]: the entry [tqh_last]
    points into is read as a head. *)
Definition through_last (p : cell) : M (option K) :=
  let! last := prev_at p in
  let! last_last := prev_at last in
  next_at last_last.
Definition TAILQ_LAST (head : H) : M (option K) := through_last (inl head).
Definition TAILQ_PREV (elm : K) : M (option K) := through_last (inr elm).

Definition TAILQ_INIT (head : H) : M unit :=
  set_next (inl head) None ;;;
  set_prev (inl head) (inl head).

Definition TAILQ_INSERT_AFTER (head : H) (listelm elm : K) : M unit :=
  let! next := TAILQ_NEXT listelm in
  set_next (inr elm) next ;;;
  (match next with
   | Some n => set_prev (inr n) (inr elm)
   | None => set_prev (inl head) (inr elm)
   end) ;;;
  set_next (inr listelm) (Some elm) ;;;
  set_prev (inr elm) (inr listelm).

Definition TAILQ_INSERT_BEFORE (listelm elm : K) : M unit :=
  let! prev := prev_at (inr listelm) in
  set_prev (inr elm) prev ;;;
  set_next (inr elm) (Some listelm) ;;;
  let! prev := prev_at (inr listelm) in
  set_next prev (Some elm) ;;;
  set_prev (inr listelm) (inr elm).

Definition TAILQ_INSERT_HEAD (head : H) (elm : K) : M unit :=
  let! first := TAILQ_FIRST head in
  set_next (inr elm) first ;;;
  (match first with
   | Some n => set_prev (inr n) (inr elm)
   | None => set_prev (inl head) (inr elm)
   end) ;;;
  set_next (inl head) (Some elm) ;;;
  set_prev (inr elm) (inl head).

Definition TAILQ_INSERT_TAIL (head : H) (elm : K) : M unit :=
  set_next (inr elm) None ;;;
  let! last := prev_at (inl head) in
  set_prev (inr elm) last ;;;
  let! last := prev_at (inl head) in
  set_next last (Some elm) ;;;
  set_prev (inl head) (inr elm).

Definition TAILQ_REMOVE (head : H) (elm : K) : M unit :=
  let! next := TAILQ_NEXT elm in
  let! prev := prev_at (inr elm) in
  (match next with
   | Some n => set_prev (inr n) prev
   | None => set_prev (inl head) prev
   end) ;;;
  let! prev := prev_at (inr elm) in
  let! next := TAILQ_NEXT elm in
  set_next prev next.

Definition TAILQ_CONCAT (head1 head2 : H) : M unit :=
  let! empty := TAILQ_EMPTY head2 in
  when (negb empty)
    (let! last1 := prev_at (inl head1) in
     let! first2 := TAILQ_FIRST head2 in
     set_next last1 first2 ;;;
     let! first2 := TAILQ_FIRST head2 in
     let! x := from_opt NullDeref first2 in
     let! last1 := prev_at (inl head1) in
     set_prev (inr x) last1 ;;;
     let! last2 := prev_at (inl head2) in
     set_prev (inl head1) last2 ;;;
     TAILQ_INIT head2).

(** The last two [if]s of [TAILQ_SWAP]. *)
Definition tailq_adopt (head : H) : M unit :=
  let! first := TAILQ_FIRST head in
  match first with
  | Some x => set_prev (inr x) (inl head)
  | None => set_prev (inl head) (inl head)
  end.

Definition TAILQ_SWAP (head1 head2 : H) : M unit :=
  let! swap_first := TAILQ_FIRST head1 in
  let! swap_last := prev_at (inl head1) in
  let! first2 := TAILQ_FIRST head2 in
  set_next (inl head1) first2 ;;;
  let! last2 := prev_at (inl head2) in
  set_prev (inl head1) last2 ;;;
  set_next (inl head2) swap_first ;;;
  set_prev (inl head2) swap_last ;;;
  tailq_adopt head1 ;;;
  tailq_adopt head2.

(** The four loops; [step] is [TAILQ_NEXT] or [TAILQ_PREV]. *)
Fixpoint tailq_loop (fuel : nat) (step : K -> M (option K)) (var : option K) (body : K -> M unit) : M unit :=
  match var, fuel with
  | None, _ => ret tt
  | Some _, O => fail Diverges
  | Some x, S fuel' => body x ;;; let! next := step x in tailq_loop fuel' step next body
  end.
Fixpoint tailq_loop_mutable (fuel : nat) (step : K -> M (option K)) (var : option K) (body : K -> M unit) : M unit :=
  match var, fuel with
  | None, _ => ret tt
  | Some _, O => fail Diverges
  | Some x, S fuel' => let! tvar := step x in body x ;;; tailq_loop_mutable fuel' step tvar body
  end.

Definition TAILQ_FOREACH (fuel : nat) (head : H) (body : K -> M unit) : M unit :=
  let! var := TAILQ_FIRST head in tailq_loop fuel TAILQ_NEXT var body.
Definition TAILQ_FOREACH_MUTABLE (fuel : nat) (head : H) (body : K -> M unit) : M unit :=
  let! var := TAILQ_FIRST head in tailq_loop_mutable fuel TAILQ_NEXT var body.
Definition TAILQ_FOREACH_REVERSE (fuel : nat) (head : H) (body : K -> M unit) : M unit :=
  let! var := TAILQ_LAST head in tailq_loop fuel TAILQ_PREV var body.
Definition TAILQ_FOREACH_REVERSE_MUTABLE (fuel : nat) (head : H) (body : K -> M unit) : M unit :=
  let! var := TAILQ_LAST head in tailq_loop_mutable fuel TAILQ_PREV var body.

(** The consistency checks, which a kernel build compiles in: [panic] is
    [AssertFailed]. *)
Definition QMD_TAILQ_CHECK_HEAD (head : H) : M unit :=
  let! first := TAILQ_FIRST head in
  match first with
  | Some x => let! p := prev_at (inr x) in assert_ (bool_decide (p = inl head))
  | None => ret tt
  end.
Definition QMD_TAILQ_CHECK_TAIL (head : H) : M unit :=
  let! last := prev_at (inl head) in
  let! n := next_at last in
  assert_ (bool_decide (n = None)).
Definition QMD_TAILQ_CHECK_NEXT (elm : K) : M unit :=
  let! next := TAILQ_NEXT elm in
  match next with
  | Some x => let! p := prev_at (inr x) in assert_ (bool_decide (p = inr elm))
  | None => ret tt
  end.
Definition QMD_TAILQ_CHECK_PREV (elm : K) : M unit :=
  let! prev := prev_at (inr elm) in
  let! n := next_at prev in
  assert_ (bool_decide (n = Some elm)).
End tailq.

(** ** The cells of a list *)
Section chain.
Implicit Types (c : cell) (l : list K) (x : K).

Definition last_cell c l : cell := match last l with Some x => inr x | None => c end.
Definition cells c l : list cell := c :: (inr <$> l).

Lemma last_cell_cons c x l : last_cell c (x :: l) = last_cell (inr x) l.
Proof using. unfold last_cell. rewrite last_cons. by destruct (last l). Qed.

Lemma last_cell_app c l1 l2 : last_cell c (l1 ++ l2) = last_cell (last_cell c l1) l2.
Proof using. unfold last_cell. rewrite last_app. by destruct (last l2). Qed.

Lemma last_cell_in c l : last_cell c l ∈ cells c l.
Proof using.
  unfold last_cell, cells. destruct (last l) as [x|] eqn:E; [|by constructor].
  constructor. apply list_elem_of_fmap_2. by apply last_Some_elem_of.
Qed.

Lemma elem_cells c l (j : cell) : j ∈ cells c l <-> j = c \/ exists x, j = inr x /\ x ∈ l.
Proof using. unfold cells. rewrite elem_of_cons, list_elem_of_fmap. naive_solver. Qed.

Lemma last_cell_inr c y l : exists z, last_cell c (y :: l) = inr z /\ z ∈ y :: l.
Proof using.
  rewrite last_cell_cons. unfold last_cell. destruct (last l) as [z|] eqn:E.
  - exists z. split; [done|]. constructor. by apply last_Some_elem_of.
  - exists y. split; [done|by constructor].
Qed.

Lemma NoDup_cells_inr y l : NoDup (y :: l) -> NoDup (cells (inr y) l).
Proof using. intros Hl. by apply (NoDup_fmap_2 (inr : K -> cell) (y :: l)). Qed.

Lemma NoDup_cells h l : NoDup (cells (inl h) l) <-> NoDup l.
Proof using.
  unfold cells. rewrite NoDup_cons. split.
  - intros [_ Hl]. by eapply NoDup_fmap_1.
  - intros Hl. split; [|apply NoDup_fmap_2; [by intros ?? [= ->]|done]].
    intros (x & ? & _)%list_elem_of_fmap. done.
Qed.
End chain.

(** ** Tail queues spell lists *)
Section tq_repr.
Notation store := (gmap cell tq_fields).
Implicit Types (s : store) (c j : cell) (l : list K) (h : H) (x e : K).

Definition nx s c : option K := from_option tq_next None (s !! c).
Definition pv s c : cell := from_option tq_prev c (s !! c).

(** The links from [c] forwards along [l], and back. *)
Fixpoint dpre s c l : Prop :=
  match l with
  | [] => True
  | x :: l' => nx s c = Some x /\ pv s (inr x) = c /\ dpre s (inr x) l'
  end.

Definition tq_repr s h l : Prop :=
  dpre s (inl h) l /\ nx s (last_cell (inl h) l) = None /\ pv s (inl h) = last_cell (inl h) l /\
  NoDup l /\ forall j, j ∈ cells (inl h) l -> is_Some (s !! j).

(** What a store to one field does. *)
Definition stored s s' : Prop := forall j, is_Some (s' !! j) <-> is_Some (s !! j).

Lemma wp_next_at s c (Q : option K -> store -> Prop) :
  is_Some (s !! c) -> Q (nx s c) s -> wp (next_at c) Q s.
Proof using. intros [f E]. unfold wp, next_at, bind, tq_get, nx. rewrite E. done. Qed.

Lemma wp_prev_at s c (Q : cell -> store -> Prop) :
  is_Some (s !! c) -> Q (pv s c) s -> wp (prev_at c) Q s.
Proof using. intros [f E]. unfold wp, prev_at, bind, tq_get, pv. rewrite E. done. Qed.

Lemma wp_set_next s c (v : option K) (Q : unit -> store -> Prop) :
  is_Some (s !! c) ->
  (forall s', stored s s' -> (forall j, nx s' j = if decide (j = c) then v else nx s j) ->
     (forall j, pv s' j = pv s j) -> Q tt s') ->
  wp (set_next c v) Q s.
Proof using.
  intros [f E] HQ. unfold wp, set_next, tq_set. rewrite E. apply HQ.
  - intros j. rewrite lookup_insert_is_Some. destruct (decide (c = j)); naive_solver.
  - intros j. unfold nx. rewrite lookup_insert. by repeat case_decide; simplify_eq.
  - intros j. unfold pv. rewrite lookup_insert. case_decide; [subst; by rewrite E|done].
Qed.

Lemma wp_set_prev s c (v : cell) (Q : unit -> store -> Prop) :
  is_Some (s !! c) ->
  (forall s', stored s s' -> (forall j, nx s' j = nx s j) ->
     (forall j, pv s' j = if decide (j = c) then v else pv s j) -> Q tt s') ->
  wp (set_prev c v) Q s.
Proof using.
  intros [f E] HQ. unfold wp, set_prev, tq_set. rewrite E. apply HQ.
  - intros j. rewrite lookup_insert_is_Some. destruct (decide (c = j)); naive_solver.
  - intros j. unfold nx. rewrite lookup_insert. case_decide; [subst; by rewrite E|done].
  - intros j. unfold pv. rewrite lookup_insert. by repeat case_decide; simplify_eq.
Qed.

Lemma stored_some s s' c : stored s s' -> is_Some (s !! c) -> is_Some (s' !! c).
Proof using. intros Hs. apply Hs. Qed.

Lemma stored_refl s : stored s s.
Proof using. done. Qed.

Lemma stored_trans s s1 s2 : stored s s1 -> stored s1 s2 -> stored s s2.
Proof using. intros H1 H2 j. by rewrite (H2 j), (H1 j). Qed.

Lemma dpre_app s c l1 l2 : dpre s c (l1 ++ l2) <-> dpre s c l1 /\ dpre s (last_cell c l1) l2.
Proof using.
  revert c. induction l1 as [|x l1 IH]; intros c; simpl; [naive_solver|].
  rewrite IH, last_cell_cons. tauto.
Qed.

Lemma dpre_frame s s' c l :
  NoDup (cells c l) ->
  (forall j, j ∈ cells c l -> j <> last_cell c l -> nx s' j = nx s j) ->
  (forall x, x ∈ l -> pv s' (inr x) = pv s (inr x)) ->
  dpre s c l -> dpre s' c l.
Proof using.
  revert c. induction l as [|x l IH]; intros c Hnd Hn Hp; simpl; [done|].
  intros (Hx & Hpx & Hl). unfold cells in *. simpl in *. apply NoDup_cons in Hnd as [Hc Hnd].
  rewrite last_cell_cons in Hn. split_and!.
  - rewrite Hn; [done|by constructor|]. intros ->. apply Hc, last_cell_in.
  - rewrite Hp; [done|by constructor].
  - apply IH; [done| | |done].
    + intros j Hj Hne. apply Hn; [by constructor|done].
    + intros y Hy. apply Hp. by constructor.
Qed.

(** The rest of a list, from its element [y] on, when no link in it moved. *)
Lemma dpre_rest s s' y l :
  NoDup (y :: l) ->
  (forall x, x ∈ y :: l -> nx s' (inr x) = nx s (inr x)) ->
  (forall x, x ∈ l -> pv s' (inr x) = pv s (inr x)) ->
  dpre s (inr y) l -> dpre s' (inr y) l.
Proof using.
  intros Hnd Hn Hp. apply dpre_frame; [by apply NoDup_cells_inr| |done].
  intros j Hj _. apply elem_cells in Hj as [->|(x & -> & Hx)]; apply Hn; by constructor.
Qed.

Lemma tq_repr_frame s s' h l :
  (forall j, j ∈ cells (inl h) l -> nx s' j = nx s j /\ pv s' j = pv s j) -> stored s s' ->
  tq_repr s h l -> tq_repr s' h l.
Proof using.
  intros Hf Hs (Hd & Hn & Hp & Hnd & He).
  assert (Hh : inl h ∈ cells (inl h) l) by constructor.
  split_and!.
  - eapply dpre_frame; [by apply NoDup_cells| | |done].
    + intros j Hj _. by apply Hf.
    + intros x Hx. apply Hf, elem_cells. eauto.
  - rewrite (proj1 (Hf _ (last_cell_in _ _))). done.
  - rewrite (proj2 (Hf _ Hh)). done.
  - done.
  - intros j Hj. apply Hs, He, Hj.
Qed.

(** The links at the place where [l] is split. *)
Lemma tq_repr_split s h l1 l2 :
  tq_repr s h (l1 ++ l2) ->
  nx s (last_cell (inl h) l1) = head l2 /\
  match l2 with
  | [] => pv s (inl h) = last_cell (inl h) l1
  | y :: _ => pv s (inr y) = last_cell (inl h) l1
  end.
Proof using.
  intros ((Hd1 & Hd2)%dpre_app & Hn & Hp & _). rewrite last_cell_app in Hn, Hp.
  destruct l2 as [|y l2]; simpl in *; naive_solver.
Qed.

Lemma tq_repr_cell s h l x : tq_repr s h l -> x ∈ l -> is_Some (s !! (inr x)).
Proof using. intros (_ & _ & _ & _ & He) Hx. apply He, elem_cells. eauto. Qed.

Lemma tq_repr_head s h l : tq_repr s h l -> is_Some (s !! (inl h)).
Proof using. intros (_ & _ & _ & _ & He). apply He. by constructor. Qed.

Lemma tq_repr_last s h l : tq_repr s h l -> is_Some (s !! last_cell (inl h) l).
Proof using. intros (_ & _ & _ & _ & He). apply He, last_cell_in. Qed.

(** The cell whose back pointer points at the end of [l1]: the first element
    of [l2], and the head when there is none. *)
Definition back_cell h l2 : cell := match l2 with [] => inl h | y :: _ => inr y end.

Lemma tq_repr_back s h l1 l2 : tq_repr s h (l1 ++ l2) -> pv s (back_cell h l2) = last_cell (inl h) l1.
Proof using. intros [_ Hp]%tq_repr_split. by destruct l2. Qed.

Lemma back_cell_in h l1 l2 : back_cell h l2 ∈ cells (inl h) (l1 ++ l2).
Proof using.
  destruct l2 as [|y l2]; [by constructor|]. apply elem_cells. right. exists y.
  split; [done|]. apply elem_of_app. right. by constructor.
Qed.

(** What every insertion of [e] between [l1] and [l2] stores, and every
    removal of [x] between them. *)
Definition inserted s s' h l1 e l2 : Prop :=
  stored s s' /\
  (forall j, nx s' j = if decide (j = last_cell (inl h) l1) then Some e
                      else if decide (j = inr e) then head l2 else nx s j) /\
  (forall j, pv s' j = if decide (j = inr e) then last_cell (inl h) l1
                      else if decide (j = back_cell h l2) then inr e else pv s j).

Definition removed s s' h l1 l2 : Prop :=
  stored s s' /\
  (forall j, nx s' j = if decide (j = last_cell (inl h) l1) then head l2 else nx s j) /\
  (forall j, pv s' j = if decide (j = back_cell h l2) then last_cell (inl h) l1 else pv s j).

Lemma last_cell_not_in s h l1 l2 : tq_repr s h (l1 ++ l2) -> forall y, y ∈ l2 -> last_cell (inl h) l1 <> inr y.
Proof using.
  intros (_ & _ & _ & (_ & Hd & _)%NoDup_app & _) y Hy. unfold last_cell.
  destruct (last l1) as [z|] eqn:E; [|done]. apply last_Some_elem_of in E.
  intros [= ->]. by eapply Hd.
Qed.

Lemma back_cell_not_in s h l1 l2 : tq_repr s h (l1 ++ l2) -> forall x, x ∈ l1 -> back_cell h l2 <> inr x.
Proof using.
  intros (_ & _ & _ & (_ & Hd & _)%NoDup_app & _) x Hx. destruct l2 as [|y l2]; [done|].
  simpl. intros [= ->]. apply (Hd x Hx). by constructor.
Qed.

Lemma inserted_repr s s' h l1 e l2 :
  inserted s s' h l1 e l2 -> tq_repr s h (l1 ++ l2) -> e ∉ l1 ++ l2 -> is_Some (s !! (inr e)) ->
  tq_repr s' h (l1 ++ e :: l2).
Proof using.
  intros (Hs & Hn & Hp) Hr He Hes.
  pose proof (last_cell_not_in _ _ _ _ Hr) as Hlast. pose proof (back_cell_not_in _ _ _ _ Hr) as Hback.
  pose proof (tq_repr_split _ _ _ _ Hr) as [Hnx _].
  destruct Hr as (Hd & Hlnx & Hpv & Hnd & Hall).
  apply not_elem_of_app in He as [He1 He2]. apply dpre_app in Hd as [Hd1 Hd2].
  apply NoDup_app in Hnd as Hnd'. destruct Hnd' as (Hnd1 & Hdisj & Hnd2).
  assert (Hle : last_cell (inl h) l1 <> inr e).
  { unfold last_cell. destruct (last l1) as [z|] eqn:E; [|done]. apply last_Some_elem_of in E. congruence. }
  split_and!.
  - apply dpre_app. split; [|simpl; split_and!].
    + eapply dpre_frame; [by apply NoDup_cells| | |done].
      * intros j Hj Hne. rewrite Hn, !decide_False; [done| |done].
        apply elem_cells in Hj. destruct Hj as [->|(y & -> & Hy)]; congruence.
      * intros x Hx. rewrite Hp, !decide_False; [done| |congruence].
        intros E. by apply (Hback x).
    + rewrite Hn, decide_True; done.
    + rewrite Hp, decide_True; done.
    + destruct l2 as [|y l2]; [done|]. simpl in Hd2 |- *. destruct Hd2 as (Hy1 & Hy2 & Hy3). split_and!.
      * rewrite Hn, decide_False, decide_True; done.
      * rewrite Hp, decide_False, decide_True; [done|done|]. intros [= ->]. apply He2. by constructor.
      * eapply dpre_rest; [done| | |done].
        -- intros z Hz. rewrite Hn, !decide_False; [done|congruence|]. intros E. by eapply Hlast.
        -- intros z Hz. apply NoDup_cons in Hnd2 as [Hy _].
           rewrite Hp, !decide_False; [done|simpl; congruence|]. intros [= ->]. apply He2. by constructor.
  - rewrite last_cell_app, last_cell_cons. destruct l2 as [|y l2].
    + change (last_cell (inr e) []) with (inr e : cell). rewrite Hn, decide_False, decide_True; done.
    + destruct (last_cell_inr (inr e) y l2) as (z & Ez & Hz).
      rewrite last_cell_app, last_cell_cons in Hlnx. rewrite last_cell_cons in Ez |- *.
      rewrite Ez in Hlnx |- *. rewrite Hn, !decide_False; [done|congruence|]. intros E. by eapply Hlast.
  - rewrite last_cell_app, last_cell_cons. destruct l2 as [|y l2].
    + rewrite Hp, decide_False, decide_True; done.
    + rewrite Hp, !decide_False by done. rewrite Hpv. rewrite last_cell_app, !last_cell_cons. done.
  - apply NoDup_app. split_and!; [done| |by constructor].
    intros x Hx [->|Hx']%elem_of_cons; [done|]. by eapply Hdisj.
  - intros j Hj. apply Hs. apply elem_cells in Hj as [->|(x & -> & Hx)]; [apply Hall; by constructor|].
    apply elem_of_app in Hx as [Hx|[->|Hx]%elem_of_cons]; [|done|];
      apply Hall, elem_cells; right; exists x; (split; [done|]); apply elem_of_app; auto.
Qed.

Lemma removed_repr s s' h l1 x l2 :
  removed s s' h l1 l2 -> tq_repr s h (l1 ++ x :: l2) -> tq_repr s' h (l1 ++ l2).
Proof using.
  intros (Hs & Hn & Hp) Hr.
  pose proof (last_cell_not_in _ _ _ _ Hr) as Hlast.
  assert (Hr' : tq_repr s h ((l1 ++ [x]) ++ l2)) by (by rewrite <- app_assoc).
  pose proof (back_cell_not_in _ _ _ _ Hr') as Hback.
  destruct Hr as (Hd & Hlnx & Hpv & Hnd & Hall).
  apply dpre_app in Hd as [Hd1 Hd2]. destruct Hd2 as (Hx1 & Hx2 & Hd2).
  apply NoDup_app in Hnd as (Hnd1 & Hdisj & [Hx Hnd2]%NoDup_cons).
  assert (Hyl : forall y, y ∈ l2 -> last_cell (inl h) l1 <> inr y).
  { intros y Hy. apply Hlast. by constructor. }
  split_and!.
  - apply dpre_app. split.
    + eapply dpre_frame; [by apply NoDup_cells| | |done].
      * intros j Hj Hne. by rewrite Hn, decide_False.
      * intros y Hy. rewrite Hp, decide_False; [done|]. intros E. apply (Hback y); [|done].
        apply elem_of_app. by left.
    + destruct l2 as [|y l2]; [done|]. simpl in Hd2 |- *. destruct Hd2 as (Hy1 & Hy2 & Hy3). split_and!.
      * by rewrite Hn, decide_True.
      * by rewrite Hp, decide_True.
      * eapply dpre_rest; [done| | |done].
        -- intros z Hz. rewrite Hn, decide_False; [done|]. intros E. by eapply Hyl.
        -- intros z Hz. apply NoDup_cons in Hnd2 as [Hy _].
           rewrite Hp, decide_False; [done|simpl; congruence].
  - rewrite Hn. case_decide as E.
    + destruct l2 as [|y l2]; [done|]. exfalso. rewrite last_cell_app in E.
      destruct (last_cell_inr (last_cell (inl h) l1) y l2) as (z & Ez & Hz). rewrite Ez in E.
      by eapply Hyl.
    + rewrite last_cell_app, last_cell_cons in Hlnx. rewrite last_cell_app in E |- *.
      destruct l2 as [|y l2]; [done|]. by rewrite last_cell_cons in Hlnx |- *.
  - rewrite last_cell_app. destruct l2 as [|y l2].
    + by rewrite Hp, decide_True.
    + rewrite Hp, decide_False by done. rewrite Hpv, last_cell_app, !last_cell_cons. done.
  - apply NoDup_app. split_and!; [done| |done]. intros y Hy Hy'. apply (Hdisj y Hy). by constructor.
  - intros j Hj. apply Hs, Hall. apply elem_cells in Hj. apply elem_cells.
    destruct Hj as [->|(y & -> & Hy)]; [by left|right]. exists y. split; [done|].
    apply elem_of_app. apply elem_of_app in Hy as [Hy|Hy]; [by left|right; by constructor].
Qed.

(** One store or read of a field; that cells stay cells is settled by
    [stored]. *)
Ltac cell_ok := repeat match goal with H : stored _ ?t |- is_Some (?t !! _) => apply H; clear H end;
  first [done | assumption | eauto using tq_repr_cell, tq_repr_head, tq_repr_last].
Ltac stores := repeat (eapply stored_trans; [eassumption|]); apply stored_refl.

Lemma pointed_set_prev s h l2 c (Q : unit -> store -> Prop) :
  is_Some (s !! back_cell h l2) ->
  (forall s', stored s s' -> (forall j, nx s' j = nx s j) ->
     (forall j, pv s' j = if decide (j = back_cell h l2) then c else pv s j) -> Q tt s') ->
  wp (match head l2 with Some n => set_prev (inr n) c | None => set_prev (inl h) c end) Q s.
Proof using. destruct l2; simpl; apply wp_set_prev. Qed.

Lemma back_cell_is s h l1 l2 : tq_repr s h (l1 ++ l2) -> is_Some (s !! back_cell h l2).
Proof using. intros (_ & _ & _ & _ & He). apply He. apply back_cell_in. Qed.

Lemma last_cell_is s h l1 l2 : tq_repr s h (l1 ++ l2) -> is_Some (s !! last_cell (inl h) l1).
Proof using.
  intros (_ & _ & _ & _ & He). apply He, elem_cells. pose proof (last_cell_in (inl h) l1) as Hl.
  apply elem_cells in Hl as [->|(x & -> & Hx)]; [by left|]. right. exists x. split; [done|].
  apply elem_of_app. by left.
Qed.

(** The two macros that insert behind a cell, [p], with the same text. *)
Lemma insert_behind h e s l1 l2 (p : cell) :
  p = last_cell (inl h) l1 ->
  tq_repr s h (l1 ++ l2) -> e ∉ l1 ++ l2 -> is_Some (s !! (inr e)) ->
  wp (let! next := next_at p in
      set_next (inr e) next ;;;
      (match next with
       | Some n => set_prev (inr n) (inr e)
       | None => set_prev (inl h) (inr e)
       end) ;;;
      set_next p (Some e) ;;;
      set_prev (inr e) p) (fun _ s' => inserted s s' h l1 e l2) s.
Proof using.
  intros -> Hr He Hes. pose proof (last_cell_is _ _ _ _ Hr) as Hp. pose proof (back_cell_is _ _ _ _ Hr) as Hb.
  apply wp_bind, wp_next_at; [done|]. rewrite (proj1 (tq_repr_split _ _ _ _ Hr)).
  apply wp_bind, wp_set_next; [done|]. intros s1 D1 N1 P1.
  apply wp_bind, pointed_set_prev; [cell_ok|]. intros s2 D2 N2 P2.
  apply wp_bind, wp_set_next; [cell_ok|]. intros s3 D3 N3 P3.
  apply wp_set_prev; [cell_ok|]. intros s4 D4 N4 P4.
  split_and!; [stores|..]; intros j.
  - rewrite N4, N3, N2, N1. done.
  - rewrite P4, P3, P2, P1. done.
Qed.

Lemma TAILQ_INSERT_HEAD_stores s h l e :
  tq_repr s h l -> e ∉ l -> is_Some (s !! (inr e)) ->
  wp (TAILQ_INSERT_HEAD h e) (fun _ s' => inserted s s' h [] e l) s.
Proof using. intros Hr He Hes. by apply (insert_behind h e s [] l). Qed.

Lemma TAILQ_INSERT_AFTER_stores s h l1 x l2 e :
  tq_repr s h (l1 ++ x :: l2) -> e ∉ l1 ++ x :: l2 -> is_Some (s !! (inr e)) ->
  wp (TAILQ_INSERT_AFTER h x e) (fun _ s' => inserted s s' h (l1 ++ [x]) e l2) s.
Proof using.
  intros Hr He Hes. apply (insert_behind h e s (l1 ++ [x]) l2); rewrite <-? app_assoc; [|done..].
  by rewrite last_cell_app.
Qed.

Lemma TAILQ_INSERT_TAIL_stores s h l e :
  tq_repr s h l -> e ∉ l -> is_Some (s !! (inr e)) ->
  wp (TAILQ_INSERT_TAIL h e) (fun _ s' => inserted s s' h l e []) s.
Proof using.
  intros Hr He Hes. pose proof (tq_repr_last _ _ _ Hr) as Hp. pose proof (tq_repr_head _ _ _ Hr) as Hh.
  assert (Hpv : pv s (inl h) = last_cell (inl h) l) by apply Hr.
  apply wp_bind, wp_set_next; [done|]. intros s1 D1 N1 P1.
  apply wp_bind, wp_prev_at; [cell_ok|]. rewrite P1, Hpv.
  apply wp_bind, wp_set_prev; [cell_ok|]. intros s2 D2 N2 P2.
  apply wp_bind, wp_prev_at; [cell_ok|]. rewrite P2, decide_False, P1, Hpv by done.
  apply wp_bind, wp_set_next; [cell_ok|]. intros s3 D3 N3 P3.
  apply wp_set_prev; [cell_ok|]. intros s4 D4 N4 P4.
  split_and!; [stores|..]; intros j.
  - rewrite N4, N3, N2, N1. done.
  - rewrite P4, P3, P2, P1. simpl. repeat case_decide; congruence.
Qed.

Lemma TAILQ_INSERT_BEFORE_stores s h l1 x l2 e :
  tq_repr s h (l1 ++ x :: l2) -> e ∉ l1 ++ x :: l2 -> is_Some (s !! (inr e)) ->
  wp (TAILQ_INSERT_BEFORE x e) (fun _ s' => inserted s s' h l1 e (x :: l2)) s.
Proof using.
  intros Hr He Hes. pose proof (last_cell_is _ _ _ _ Hr) as Hp.
  assert (Hx : is_Some (s !! (inr x))) by (eapply tq_repr_cell; [done|]; set_solver).
  assert (Hpv : pv s (inr x) = last_cell (inl h) l1) by apply (tq_repr_back s h l1 (x :: l2) Hr).
  assert (Hxe : x <> e) by set_solver.
  apply wp_bind, wp_prev_at; [done|]. rewrite Hpv.
  apply wp_bind, wp_set_prev; [done|]. intros s1 D1 N1 P1.
  apply wp_bind, wp_set_next; [cell_ok|]. intros s2 D2 N2 P2.
  apply wp_bind, wp_prev_at; [cell_ok|]. rewrite P2, P1, decide_False, Hpv by congruence.
  apply wp_bind, wp_set_next; [cell_ok|]. intros s3 D3 N3 P3.
  apply wp_set_prev; [cell_ok|]. intros s4 D4 N4 P4.
  split_and!; [stores|..]; intros j.
  - rewrite N4, N3, N2, N1. done.
  - rewrite P4, P3, P2, P1. simpl. repeat case_decide; congruence.
Qed.

Lemma TAILQ_REMOVE_stores s h l1 x l2 :
  tq_repr s h (l1 ++ x :: l2) ->
  wp (TAILQ_REMOVE h x) (fun _ s' => removed s s' h l1 l2) s.
Proof using.
  intros Hr. assert (Hr' : tq_repr s h ((l1 ++ [x]) ++ l2)) by (by rewrite <- app_assoc).
  pose proof (last_cell_is _ _ _ _ Hr) as Hp. pose proof (back_cell_is _ _ _ _ Hr') as Hb.
  assert (Hx : is_Some (s !! (inr x))) by (eapply tq_repr_cell; [done|]; set_solver).
  assert (Hpv : pv s (inr x) = last_cell (inl h) l1) by apply (tq_repr_back s h l1 (x :: l2) Hr).
  assert (Hn : nx s (inr x) = head l2).
  { rewrite <- (proj1 (tq_repr_split _ _ _ _ Hr')), last_cell_app. done. }
  assert (Hxb : inr x <> back_cell h l2).
  { intros E. eapply (back_cell_not_in _ _ _ _ Hr'); [|by symmetry]. set_solver. }
  apply wp_bind, wp_next_at; [done|]. rewrite Hn.
  apply wp_bind, wp_prev_at; [done|]. rewrite Hpv.
  apply wp_bind, pointed_set_prev; [done|]. intros s1 D1 N1 P1.
  apply wp_bind, wp_prev_at; [cell_ok|]. rewrite P1, decide_False, Hpv by done.
  apply wp_bind, wp_next_at; [cell_ok|]. rewrite N1, Hn.
  apply wp_set_next; [cell_ok|]. intros s2 D2 N2 P2.
  split_and!; [stores|..]; intros j.
  - rewrite N2, N1. done.
  - rewrite P2, P1. done.
Qed.

(** *** Two queues *)
Definition outside s s' (cs : list cell) : Prop :=
  stored s s' /\ forall j, j ∉ cs -> nx s' j = nx s j /\ pv s' j = pv s j.

Lemma tq_repr_nil s h : is_Some (s !! (inl h)) -> nx s (inl h) = None -> pv s (inl h) = inl h -> tq_repr s h [].
Proof using.
  intros Hs Hn Hp. split_and!; [done|done|done|constructor|]. intros j Hj.
  apply elem_cells in Hj as [->|(x & _ & Hx%elem_of_nil)]; done.
Qed.

Lemma TAILQ_INIT_correct s h :
  is_Some (s !! (inl h)) ->
  wp (TAILQ_INIT h) (fun _ s' => tq_repr s' h [] /\ outside s s' [inl h]) s.
Proof using.
  intros Hs. apply wp_bind, wp_set_next; [done|]. intros s1 D1 N1 P1.
  apply wp_set_prev; [cell_ok|]. intros s2 D2 N2 P2. split.
  - apply tq_repr_nil; [cell_ok|rewrite N2, N1; by rewrite decide_True|rewrite P2; by rewrite decide_True].
  - split; [stores|]. intros j Hj%not_elem_of_cons. rewrite N2, N1, P2, P1, !decide_False; tauto.
Qed.

Lemma tq_repr_first s h l : tq_repr s h l -> nx s (inl h) = head l.
Proof using. intros Hr. apply (tq_repr_split s h [] l Hr). Qed.

Lemma wp_TAILQ_EMPTY s h l (Q : bool -> store -> Prop) :
  tq_repr s h l -> Q (bool_decide (l = [])) s -> wp (TAILQ_EMPTY h) Q s.
Proof using.
  intros Hr HQ. apply wp_bind, wp_next_at; [by eapply tq_repr_head|]. apply wp_ret.
  rewrite (tq_repr_first _ _ _ Hr). by destruct l.
Qed.

Lemma tq_repr_concat s s' h1 h2 l1 y l2 :
  tq_repr s h1 l1 -> tq_repr s h2 (y :: l2) -> (forall x, x ∈ l1 -> x ∉ y :: l2) -> h1 <> h2 -> stored s s' ->
  (forall j, nx s' j = if decide (j = inl h2) then None
                      else if decide (j = last_cell (inl h1) l1) then Some y else nx s j) ->
  (forall j, pv s' j = if decide (j = inl h2) then inl h2
                      else if decide (j = inl h1) then last_cell (inl h2) (y :: l2)
                      else if decide (j = inr y) then last_cell (inl h1) l1 else pv s j) ->
  tq_repr s' h1 (l1 ++ y :: l2).
Proof using.
  intros (Hd1 & Hn1 & Hp1 & Hnd1 & He1) (Hd2 & Hn2 & Hp2 & Hnd2 & He2) Hdisj Hne Hs HN HP.
  assert (Hl1 : last_cell (inl h1) l1 <> inl h2).
  { unfold last_cell. destruct (last l1); congruence. }
  assert (Hz : forall z, z ∈ y :: l2 -> last_cell (inl h1) l1 <> inr z).
  { intros z Hz. unfold last_cell. destruct (last l1) as [w|] eqn:E; [|done].
    apply last_Some_elem_of in E. intros [= ->]. by eapply Hdisj. }
  destruct (last_cell_inr (inl h2) y l2) as (z & Ez & Hzin).
  assert (El : last_cell (inl h1) (l1 ++ y :: l2) = inr z).
  { by rewrite last_cell_app, last_cell_cons, <- Ez, last_cell_cons. }
  split_and!.
  - apply dpre_app. split.
    + eapply dpre_frame; [by apply NoDup_cells| | |done].
      * intros j Hj Hjl. rewrite HN, !decide_False; [done|done|].
        apply elem_cells in Hj as [->|(x & -> & _)]; congruence.
      * intros x Hx. rewrite HP, !decide_False; try done. intros [= ->].
        apply (Hdisj y); [done|by constructor].
    + simpl in Hd2 |- *. destruct Hd2 as (_ & _ & Hd2). split_and!.
      * by rewrite HN, decide_False, decide_True.
      * by rewrite HP, decide_False, decide_False, decide_True.
      * eapply dpre_rest; [done| | |done].
        -- intros x Hx. rewrite HN, !decide_False; [done| |done]. intros E. by eapply Hz.
        -- intros x Hx. apply NoDup_cons in Hnd2 as [Hy _]. rewrite HP, !decide_False; [done|congruence|done|done].
  - rewrite El, HN, !decide_False; [by rewrite <- Ez| |done]. intros E. by eapply Hz.
  - rewrite HP, decide_False, decide_True by congruence. by rewrite El.
  - apply NoDup_app. done.
  - intros j Hj. apply Hs. apply elem_cells in Hj as [->|(x & -> & Hx)]; [apply He1; by constructor|].
    apply elem_of_app in Hx as [Hx|Hx]; [apply He1|apply He2]; apply elem_cells; eauto.
Qed.

Lemma TAILQ_CONCAT_correct s h1 h2 l1 l2 :
  tq_repr s h1 l1 -> tq_repr s h2 l2 -> (forall x, x ∈ l1 -> x ∉ l2) -> h1 <> h2 ->
  wp (TAILQ_CONCAT h1 h2) (fun _ s' =>
    tq_repr s' h1 (l1 ++ l2) /\ tq_repr s' h2 [] /\
    outside s s' (cells (inl h1) l1 ++ cells (inl h2) l2)) s.
Proof using.
  intros Hr1 Hr2 Hdisj Hne. pose proof (tq_repr_head _ _ _ Hr1) as Hh1. pose proof (tq_repr_head _ _ _ Hr2) as Hh2.
  pose proof (tq_repr_last _ _ _ Hr1) as Hl1.
  assert (Hp1 : pv s (inl h1) = last_cell (inl h1) l1) by apply Hr1.
  assert (Hp2 : pv s (inl h2) = last_cell (inl h2) l2) by apply Hr2.
  assert (Hne1 : last_cell (inl h1) l1 <> inl h2) by (unfold last_cell; destruct (last l1); congruence).
  apply wp_bind, (wp_TAILQ_EMPTY s h2 l2); [done|]. destruct l2 as [|y l2].
  { apply wp_ret. rewrite app_nil_r. split_and!; [done|done|split; [done|done]]. }
  assert (Hy : is_Some (s !! (inr y))) by (eapply tq_repr_cell; [done|by constructor]).
  assert (Hn2 : nx s (inl h2) = Some y) by apply (tq_repr_first _ _ _ Hr2).
  assert (Hn2' : inl h2 <> last_cell (inl h1) l1) by done.
  apply wp_bind, wp_prev_at; [done|]. rewrite Hp1. apply wp_bind, wp_next_at; [done|]. rewrite Hn2.
  apply wp_bind, wp_set_next; [done|]. intros s1 D1 N1 P1.
  apply wp_bind, wp_next_at; [cell_ok|]. rewrite N1, decide_False, Hn2 by done. apply wp_bind, wp_ret.
  apply wp_bind, wp_prev_at; [cell_ok|]. rewrite P1, Hp1.
  apply wp_bind, wp_set_prev; [cell_ok|]. intros s2 D2 N2 P2.
  apply wp_bind, wp_prev_at; [cell_ok|]. rewrite P2, decide_False, P1, Hp2 by done.
  apply wp_bind, wp_set_prev; [cell_ok|]. intros s3 D3 N3 P3.
  apply wp_bind, wp_set_next; [cell_ok|]. intros s4 D4 N4 P4.
  apply wp_set_prev; [cell_ok|]. intros s5 D5 N5 P5.
  assert (HN : forall j, nx s5 j = if decide (j = inl h2) then None
      else if decide (j = last_cell (inl h1) l1) then Some y else nx s j).
  { intros j. by rewrite N5, N4, N3, N2, N1. }
  assert (HP : forall j, pv s5 j = if decide (j = inl h2) then inl h2
      else if decide (j = inl h1) then last_cell (inl h2) (y :: l2)
      else if decide (j = inr y) then last_cell (inl h1) l1 else pv s j).
  { intros j. by rewrite P5, P4, P3, P2, P1. }
  split_and!.
  - eapply tq_repr_concat; [exact Hr1|exact Hr2|done|done|stores|done|done].
  - apply tq_repr_nil; [cell_ok|by rewrite HN, decide_True|by rewrite HP, decide_True].
  - split; [stores|]. intros j [Hj1 Hj2]%not_elem_of_app. rewrite HN, HP.
    assert (j <> last_cell (inl h1) l1) by (intros ->; apply Hj1, last_cell_in).
    assert (j <> inl h1) by (intros ->; apply Hj1; by constructor).
    assert (j <> inl h2) by (intros ->; apply Hj2; by constructor).
    assert (j <> inr y) by (intros ->; apply Hj2; do 2 constructor).
    by rewrite !decide_False.
Qed.

Lemma tail_not_back h x l : NoDup l -> x ∈ tail l -> back_cell h l <> inr x.
Proof using.
  destruct l as [|y l]; simpl; [by intros _ ?%elem_of_nil|]. intros [Hy _]%NoDup_cons Hx. congruence.
Qed.

(** The list [l] under another head. *)
Lemma tq_rehead s s' h h' l :
  tq_repr s h l -> stored s s' -> is_Some (s !! (inl h')) ->
  nx s' (inl h') = head l -> pv s' (back_cell h' l) = inl h' ->
  pv s' (inl h') = last_cell (inl h') l ->
  (forall x, x ∈ l -> nx s' (inr x) = nx s (inr x)) ->
  (forall x, x ∈ tail l -> pv s' (inr x) = pv s (inr x)) ->
  tq_repr s' h' l.
Proof using.
  intros (Hd & Hn & Hp & Hnd & He) Hs Hh' Hn' Hb Hl HN HP. destruct l as [|y l].
  { apply tq_repr_nil; [by apply Hs|done|done]. }
  simpl in Hd, Hn', Hb, HP. destruct Hd as (_ & _ & Hd). split_and!.
  - simpl. split_and!; [done|done|]. by eapply dpre_rest.
  - destruct (last_cell_inr (inl h') y l) as (z & Ez & Hz). rewrite Ez.
    rewrite last_cell_cons in Hn, Ez. by rewrite HN, <- Ez.
  - done.
  - done.
  - intros j [->|(x & -> & Hx)]%elem_cells; apply Hs; [done|]. apply He, elem_cells. eauto.
Qed.

Lemma wp_tailq_adopt s h l (Q : unit -> store -> Prop) :
  is_Some (s !! (inl h)) -> is_Some (s !! back_cell h l) -> nx s (inl h) = head l ->
  (forall s', stored s s' -> (forall j, nx s' j = nx s j) ->
     (forall j, pv s' j = if decide (j = back_cell h l) then inl h else pv s j) -> Q tt s') ->
  wp (tailq_adopt h) Q s.
Proof using.
  intros Hh Hb Hn HQ. apply wp_bind, wp_next_at; [done|]. rewrite Hn.
  destruct l; by apply wp_set_prev.
Qed.

(** The stores of [TAILQ_SWAP], all together. *)
Definition swapped s s' h1 h2 l1 l2 : Prop :=
  stored s s' /\
  (forall j, nx s' j = if decide (j = inl h2) then head l1
                      else if decide (j = inl h1) then head l2 else nx s j) /\
  (forall j, pv s' j = if decide (j = back_cell h2 l1) then inl h2
                      else if decide (j = back_cell h1 l2) then inl h1
                      else if decide (j = inl h2) then last_cell (inl h1) l1
                      else if decide (j = inl h1) then last_cell (inl h2) l2 else pv s j).

Lemma TAILQ_SWAP_stores s h1 h2 l1 l2 :
  tq_repr s h1 l1 -> tq_repr s h2 l2 -> h1 <> h2 ->
  wp (TAILQ_SWAP h1 h2) (fun _ s' => swapped s s' h1 h2 l1 l2) s.
Proof using.
  intros Hr1 Hr2 Hne. pose proof (tq_repr_head _ _ _ Hr1) as Hh1. pose proof (tq_repr_head _ _ _ Hr2) as Hh2.
  assert (Hp1 : pv s (inl h1) = last_cell (inl h1) l1) by apply Hr1.
  assert (Hp2 : pv s (inl h2) = last_cell (inl h2) l2) by apply Hr2.
  pose proof (tq_repr_first _ _ _ Hr1) as Hn1. pose proof (tq_repr_first _ _ _ Hr2) as Hn2.
  assert (Hb1 : is_Some (s !! back_cell h2 l1)).
  { destruct l1 as [|x l1]; [done|]. eapply tq_repr_cell; [exact Hr1|by constructor]. }
  assert (Hb2 : is_Some (s !! back_cell h1 l2)).
  { destruct l2 as [|x l2]; [done|]. eapply tq_repr_cell; [exact Hr2|by constructor]. }
  apply wp_bind, wp_next_at; [done|]. rewrite Hn1. apply wp_bind, wp_prev_at; [done|]. rewrite Hp1.
  apply wp_bind, wp_next_at; [done|]. rewrite Hn2.
  apply wp_bind, wp_set_next; [done|]. intros s1 D1 N1 P1.
  apply wp_bind, wp_prev_at; [cell_ok|]. rewrite P1, Hp2.
  apply wp_bind, wp_set_prev; [cell_ok|]. intros s2 D2 N2 P2.
  apply wp_bind, wp_set_next; [cell_ok|]. intros s3 D3 N3 P3.
  apply wp_bind, wp_set_prev; [cell_ok|]. intros s4 D4 N4 P4.
  assert (HN4 : forall j, nx s4 j = if decide (j = inl h2) then head l1
      else if decide (j = inl h1) then head l2 else nx s j).
  { intros j. by rewrite N4, N3, N2, N1. }
  apply wp_bind, (wp_tailq_adopt _ _ l2); [cell_ok|cell_ok| |].
  { rewrite HN4, decide_False, decide_True; congruence. }
  intros s5 D5 N5 P5. apply (wp_tailq_adopt _ _ l1); [cell_ok|cell_ok| |].
  { rewrite N5, HN4, decide_True; congruence. }
  intros s6 D6 N6 P6.
  split_and!; [stores| |]; intros j.
  - by rewrite N6, N5.
  - by rewrite P6, P5, P4, P3, P2, P1.
Qed.

Lemma TAILQ_SWAP_correct s h1 h2 l1 l2 :
  tq_repr s h1 l1 -> tq_repr s h2 l2 -> (forall x, x ∈ l1 -> x ∉ l2) -> h1 <> h2 ->
  wp (TAILQ_SWAP h1 h2) (fun _ s' =>
    tq_repr s' h1 l2 /\ tq_repr s' h2 l1 /\
    outside s s' (cells (inl h1) l1 ++ cells (inl h2) l2)) s.
Proof using.
  intros Hr1 Hr2 Hdisj Hne. eapply wp_mono; [by apply TAILQ_SWAP_stores|].
  intros [] s6 (Hs & HN & HP).
  pose proof (tq_repr_head _ _ _ Hr1) as Hh1. pose proof (tq_repr_head _ _ _ Hr2) as Hh2.
  assert (Hb12 : back_cell h2 l1 <> back_cell h1 l2).
  { destruct l1 as [|x l1], l2 as [|y l2]; simpl; try congruence. intros [= ->].
    apply (Hdisj y); by constructor. }
  split_and!.
  - eapply tq_rehead; [exact Hr2|done|done| | | | |].
    + rewrite HN, decide_False, decide_True; congruence.
    + by rewrite HP, decide_False, decide_True.
    + rewrite HP. destruct l1 as [|x l1], l2 as [|y l2]; simpl; repeat case_decide; try congruence;
        rewrite ?last_cell_cons; done.
    + intros x Hxl. by rewrite HN, !decide_False.
    + intros x Hxl. assert (Hxl' : x ∈ l2) by (destruct l2; [done|by constructor]).
      rewrite HP, !decide_False; try done.
      * intros E. by apply (tail_not_back h1 x l2); [apply Hr2|..].
      * destruct l1 as [|z l1]; [done|]. intros [= ->]. apply (Hdisj z); [by constructor|done].
  - eapply tq_rehead; [exact Hr1|done|done| | | | |].
    + by rewrite HN, decide_True.
    + by rewrite HP, decide_True.
    + rewrite HP. destruct l1 as [|x l1], l2 as [|y l2]; simpl; repeat case_decide; try congruence;
        rewrite ?last_cell_cons; done.
    + intros x Hxl. by rewrite HN, !decide_False.
    + intros x Hxl. assert (Hxl' : x ∈ l1) by (destruct l1; [done|by constructor]).
      rewrite HP, !decide_False; try done.
      * destruct l2 as [|z l2]; [done|]. intros [= ->]. apply (Hdisj z); [done|by constructor].
      * intros E. by apply (tail_not_back h2 x l1); [apply Hr1|..].
  - split; [done|]. intros j [Hj1 Hj2]%not_elem_of_app. rewrite HN, HP.
    assert (j <> inl h1) by (intros ->; apply Hj1; by constructor).
    assert (j <> inl h2) by (intros ->; apply Hj2; by constructor).
    assert (j <> back_cell h2 l1) by (intros ->; destruct l1; [done|]; apply Hj1; do 2 constructor).
    assert (j <> back_cell h1 l2) by (intros ->; destruct l2; [done|]; apply Hj2; do 2 constructor).
    by rewrite !decide_False.
Qed.

(** *** Any number of queues *)
Implicit Types (a : gmap H (list K)).

Definition apart a : Prop :=
  forall h1 h2 l1 l2 x, a !! h1 = Some l1 -> a !! h2 = Some l2 -> x ∈ l1 -> x ∈ l2 -> h1 = h2.

Definition tqs_repr s a : Prop := (forall h l, a !! h = Some l -> tq_repr s h l) /\ apart a.

(** [e] is on no queue. *)
Definition unlinked a e : Prop := forall h l, a !! h = Some l -> e ∉ l.

Inductive tqop :=
  | OpInit (h : H) | OpInsertHead (h : H) (e : K) | OpInsertTail (h : H) (e : K)
  | OpInsertAfter (h : H) (x e : K) | OpInsertBefore (x e : K)
  | OpRemove (h : H) (x : K) | OpConcat (h1 h2 : H) | OpSwap (h1 h2 : H).

Definition run_tqop (o : tqop) : M store unit :=
  match o with
  | OpInit h => TAILQ_INIT h
  | OpInsertHead h e => TAILQ_INSERT_HEAD h e
  | OpInsertTail h e => TAILQ_INSERT_TAIL h e
  | OpInsertAfter h x e => TAILQ_INSERT_AFTER h x e
  | OpInsertBefore x e => TAILQ_INSERT_BEFORE x e
  | OpRemove h x => TAILQ_REMOVE h x
  | OpConcat h1 h2 => TAILQ_CONCAT h1 h2
  | OpSwap h1 h2 => TAILQ_SWAP h1 h2
  end.

(** The operations on lists; [A] are the heads and entries in memory. *)
Inductive tq_step (A : cell -> Prop) : gmap H (list K) -> tqop -> gmap H (list K) -> Prop :=
  | step_init a h : A (inl h) -> tq_step A a (OpInit h) (<[h := []]> a)
  | step_insert_head a h l e : a !! h = Some l -> A (inr e) -> unlinked a e ->
      tq_step A a (OpInsertHead h e) (<[h := e :: l]> a)
  | step_insert_tail a h l e : a !! h = Some l -> A (inr e) -> unlinked a e ->
      tq_step A a (OpInsertTail h e) (<[h := l ++ [e]]> a)
  | step_insert_after a h l1 x l2 e : a !! h = Some (l1 ++ x :: l2) -> A (inr e) -> unlinked a e ->
      tq_step A a (OpInsertAfter h x e) (<[h := l1 ++ x :: e :: l2]> a)
  | step_insert_before a h l1 x l2 e : a !! h = Some (l1 ++ x :: l2) -> A (inr e) -> unlinked a e ->
      tq_step A a (OpInsertBefore x e) (<[h := l1 ++ e :: x :: l2]> a)
  | step_remove a h l1 x l2 : a !! h = Some (l1 ++ x :: l2) ->
      tq_step A a (OpRemove h x) (<[h := l1 ++ l2]> a)
  | step_concat a h1 h2 l1 l2 : a !! h1 = Some l1 -> a !! h2 = Some l2 -> h1 <> h2 ->
      tq_step A a (OpConcat h1 h2) (<[h1 := l1 ++ l2]> (<[h2 := []]> a))
  | step_swap a h1 h2 l1 l2 : a !! h1 = Some l1 -> a !! h2 = Some l2 -> h1 <> h2 ->
      tq_step A a (OpSwap h1 h2) (<[h1 := l2]> (<[h2 := l1]> a)).

Inductive tq_steps (A : cell -> Prop) : gmap H (list K) -> list tqop -> gmap H (list K) -> Prop :=
  | steps_nil a : tq_steps A a [] a
  | steps_cons a o a1 os a2 : tq_step A a o a1 -> tq_steps A a1 os a2 -> tq_steps A a (o :: os) a2.

Lemma apart_insert a h l :
  apart a -> (forall h' l' x, h' <> h -> a !! h' = Some l' -> x ∈ l -> x ∉ l') -> apart (<[h := l]> a).
Proof using.
  intros Ha Hl h1 h2 l1 l2 x. rewrite !lookup_insert.
  destruct (decide (h = h1)) as [<-|], (decide (h = h2)) as [<-|]; [done| | |eauto].
  - intros [= <-] E2 Hx1 Hx2. exfalso. by eapply Hl.
  - intros E1 [= <-] Hx1 Hx2. exfalso. by eapply (Hl h1).
Qed.

(** One queue changes, at its cells and perhaps at an unlinked element. *)
Lemma tqs_repr_insert s s' a h l l' es :
  tqs_repr s a -> a !! h = Some l -> tq_repr s' h l' ->
  outside s s' ((inr <$> es) ++ cells (inl h) l) -> Forall (unlinked a) es ->
  (forall x, x ∈ l' -> x ∈ es \/ x ∈ l) ->
  tqs_repr s' (<[h := l']> a).
Proof using.
  intros [Hr Ha] Eh Hr' [Hs Hout] Hes Hl'. rewrite Forall_forall in Hes. split.
  - intros h1 l1. rewrite lookup_insert. case_decide as Eh1; [by intros [= <-]; subst|].
    intros E1. eapply tq_repr_frame; [|done|by apply Hr]. intros j Hj. apply Hout.
    rewrite not_elem_of_app. apply elem_cells in Hj as [->|(x & -> & Hx)]; split.
    + by intros (? & ? & _)%list_elem_of_fmap.
    + intros [[= ->]|(? & ? & _)]%elem_cells; done.
    + intros (y & [= ->] & Hy)%list_elem_of_fmap. by eapply Hes.
    + intros [|(y & [= ->] & Hy)]%elem_cells; [done|]. by eapply Eh1, Ha.
  - apply apart_insert; [done|]. intros h1 l1 x Hne E1 Hx Hx1. destruct (Hl' x Hx) as [He|Hxl].
    + by eapply Hes.
    + by eapply Hne, Ha.
Qed.

(** Two queues change, at their cells, and exchange elements. *)
Lemma tqs_repr_insert2 s s' a h1 h2 l1 l2 l1' l2' :
  tqs_repr s a -> a !! h1 = Some l1 -> a !! h2 = Some l2 -> h1 <> h2 ->
  tq_repr s' h1 l1' -> tq_repr s' h2 l2' -> outside s s' (cells (inl h1) l1 ++ cells (inl h2) l2) ->
  (forall x, x ∈ l1' -> x ∈ l1 ++ l2) -> (forall x, x ∈ l2' -> x ∈ l1 ++ l2) -> (forall x, x ∈ l1' -> x ∉ l2') ->
  tqs_repr s' (<[h1 := l1']> (<[h2 := l2']> a)).
Proof using.
  intros [Hr Ha] E1 E2 Hne Hr1 Hr2 [Hs Hout] Hl1 Hl2 Hdisj.
  assert (Hother : forall h l x, h <> h1 -> h <> h2 -> a !! h = Some l -> x ∈ l1 ++ l2 -> x ∉ l).
  { intros h l x Hh1 Hh2 Eh [Hx|Hx]%elem_of_app Hxl; [by eapply Hh1, Ha|by eapply Hh2, Ha]. }
  split.
  - intros h l. rewrite !lookup_insert. case_decide as Eh1; [by intros [= <-]; subst|].
    case_decide as Eh2; [by intros [= <-]; subst|]. intros Eh.
    eapply tq_repr_frame; [|done|by apply Hr]. intros j Hj. apply Hout. rewrite not_elem_of_app.
    apply elem_cells in Hj as [->|(x & -> & Hx)]; split.
    + intros [[= ->]|(? & ? & _)]%elem_cells; done.
    + intros [[= ->]|(? & ? & _)]%elem_cells; done.
    + intros [|(y & [= ->] & Hy)]%elem_cells; [done|]. eapply Hother; [..|exact Hx]; try done. apply elem_of_app. by left.
    + intros [|(y & [= ->] & Hy)]%elem_cells; [done|]. eapply Hother; [..|exact Hx]; try done. apply elem_of_app. by right.
  - intros ha hb la lb x. rewrite !lookup_insert. intros Ea Eb Hxa Hxb.
    repeat case_decide; simplify_eq; try done; first [by eapply Ha|exfalso];
      first [by eapply Hdisj
            |eapply (Hother ha); [congruence|congruence|eassumption|eauto|eassumption]
            |eapply (Hother hb); [congruence|congruence|eassumption|eauto|eassumption]].
Qed.

Lemma inserted_outside s s' h l1 e l2 :
  inserted s s' h l1 e l2 -> outside s s' ((inr <$> [e]) ++ cells (inl h) (l1 ++ l2)).
Proof using.
  intros (Hs & Hn & Hp). split; [done|]. intros j [Hj1 Hj2]%not_elem_of_app.
  assert (j <> inr e) by (intros ->; apply Hj1; by constructor).
  assert (j <> back_cell h l2) by (intros ->; apply Hj2, back_cell_in).
  assert (j <> last_cell (inl h) l1).
  { intros ->. apply Hj2. pose proof (last_cell_in (inl h) l1) as Hl. apply elem_cells in Hl. apply elem_cells.
    destruct Hl as [->|(x & -> & Hx)]; [by left|right]. exists x. split; [done|]. apply elem_of_app. by left. }
  by rewrite Hn, Hp, !decide_False.
Qed.

Lemma removed_outside s s' h l1 x l2 :
  removed s s' h l1 l2 -> outside s s' ((inr <$> []) ++ cells (inl h) (l1 ++ x :: l2)).
Proof using.
  intros (Hs & Hn & Hp). split; [done|]. intros j Hj. simpl in Hj.
  assert (j <> back_cell h l2).
  { intros ->. apply Hj. pose proof (back_cell_in h (l1 ++ [x]) l2) as Hb. by rewrite <- app_assoc in Hb. }
  assert (j <> last_cell (inl h) l1).
  { intros ->. apply Hj. pose proof (last_cell_in (inl h) l1) as Hl. apply elem_cells in Hl. apply elem_cells.
    destruct Hl as [->|(y & -> & Hy)]; [by left|right]. exists y. split; [done|]. apply elem_of_app. by left. }
  by rewrite Hn, Hp, !decide_False.
Qed.

(** The cells that a sequence may store to: those on a queue, and those that
    its operations initialise or insert. *)
Definition on_queues (a : gmap H (list K)) (j : cell) : Prop := exists h l, a !! h = Some l /\ j ∈ cells (inl h) l.
Definition op_cells (o : tqop) : list cell :=
  match o with
  | OpInit h => [inl h]
  | OpInsertHead _ e | OpInsertTail _ e | OpInsertAfter _ _ e | OpInsertBefore _ e => [inr e]
  | _ => []
  end.
Definition may_store (a : gmap H (list K)) (os : list tqop) (j : cell) : Prop :=
  on_queues a j \/ exists o, o ∈ os /\ j ∈ op_cells o.
Definition kept s s' a os : Prop := forall j, ~ may_store a os j -> nx s' j = nx s j /\ pv s' j = pv s j.

Lemma outside_kept s s' cs a os : outside s s' cs -> (forall j, j ∈ cs -> may_store a os j) -> kept s s' a os.
Proof using. intros [_ Ho] Hc j Hj. apply Ho. intros Hin. by apply Hj, Hc. Qed.

Lemma may_store_cells a os h l j : a !! h = Some l -> j ∈ cells (inl h) l -> may_store a os j.
Proof using. intros E Hj. left. by exists h, l. Qed.

Lemma may_store_op a o j : j ∈ op_cells o -> may_store a [o] j.
Proof using. intros Hj. right. exists o. split; [by left|done]. Qed.

Lemma step_on_queues A a o a' j : tq_step A a o a' -> on_queues a' j -> may_store a [o] j.
Proof using EqDecision1.
  intros Hs (h' & l' & E & Hj).
  assert (Hk : forall h l, a !! h = Some l -> (j = inl h \/ exists x, j = inr x /\ x ∈ l) -> may_store a [o] j).
  { intros h l Eh Hc. eapply may_store_cells; [exact Eh|]. by apply elem_cells. }
  apply elem_cells in Hj.
  destruct Hs; repeat (apply lookup_insert_Some in E as [[<- <-]|[_ E]]); try (by eapply Hk);
    destruct Hj as [->|(y & -> & Hy)]; try by apply elem_of_nil in Hy.
  all: repeat (apply elem_of_cons in Hy as [->|Hy] || apply elem_of_app in Hy as [Hy|Hy]);
    first [by apply may_store_op; left
          |match goal with Eh : _ !! _ = Some _ |- _ => apply (Hk _ _ Eh); left; reflexivity end
          |match goal with Eh : _ !! _ = Some _ |- _ => apply (Hk _ _ Eh); right; eexists; split; [reflexivity|set_solver] end].
Qed.

Lemma cells_kept_trans A s s1 s2 a o a1 os :
  tq_step A a o a1 -> kept s s1 a [o] -> kept s1 s2 a1 os -> kept s s2 a (o :: os).
Proof using.
  intros Hs H1 H2 j Hj. destruct (H2 j) as [-> ->].
  - intros [Hq|(o' & Ho & Hc)]; apply Hj.
    + destruct (step_on_queues _ _ _ _ _ Hs Hq) as [?|(o' & ->%list_elem_of_singleton & Hc)]; [by left|].
      right. exists o. split; [by left|done].
    + right. exists o'. split; [by right|done].
  - apply H1. intros [Hq|(o' & ->%list_elem_of_singleton & Hc)]; apply Hj; [by left|].
    right. exists o. split; [by left|done].
Qed.

Lemma kept_cell s s' a os j : stored s s' -> kept s s' a os -> ~ may_store a os j -> is_Some (s !! j) -> s' !! j = s !! j.
Proof using.
  intros Hs Hk Hj Hc. destruct (Hk j Hj) as [Hn Hp]. pose proof (proj2 (Hs j)) as Hc'.
  unfold nx, pv in Hn, Hp. destruct Hc as [[n p] E]. rewrite E in Hn, Hp |- *. 
  destruct (Hc' ltac:(by eexists)) as [[n' p'] E']. rewrite E' in Hn, Hp |- *. simpl in Hn, Hp. by subst.
Qed.

(** An insertion that stores what it should. *)
Lemma tqs_inserted (m : M store unit) s a h l1 l2 e o :
  tqs_repr s a -> a !! h = Some (l1 ++ l2) -> is_Some (s !! (inr e)) -> unlinked a e -> op_cells o = [inr e] ->
  wp m (fun _ s' => inserted s s' h l1 e l2) s ->
  wp m (fun _ s' => tqs_repr s' (<[h := l1 ++ e :: l2]> a) /\ stored s s' /\ kept s s' a [o]) s.
Proof using.
  intros Ha Eh Hes Hu Ho Hm. eapply wp_mono; [exact Hm|]. intros [] s' Hi. split_and!; [|apply Hi|].
  2: { eapply outside_kept; [by apply inserted_outside|]. intros j [Hj|Hj]%elem_of_app; [|by eapply may_store_cells].
    apply may_store_op. by rewrite Ho. }
  eapply (tqs_repr_insert s s' a h (l1 ++ l2) _ [e]).
  - done.
  - done.
  - eapply inserted_repr; [done|by apply Ha|by eapply Hu|done].
  - by apply inserted_outside.
  - by constructor.
  - intros x. rewrite !elem_of_app, !elem_of_cons. set_solver.
Qed.

Lemma run_tqop_correct s a o a' :
  tqs_repr s a -> tq_step (fun j => is_Some (s !! j)) a o a' ->
  wp (run_tqop o) (fun _ s' => tqs_repr s' a' /\ stored s s' /\ kept s s' a [o]) s.
Proof using.
  intros Ha Hstep. destruct Hstep as [a h Hh|a h l e Eh He Hu|a h l e Eh He Hu|a h l1 x l2 e Eh He Hu
    |a h l1 x l2 e Eh He Hu|a h l1 x l2 Eh|a h1 h2 l1 l2 E1 E2 Hne|a h1 h2 l1 l2 E1 E2 Hne]; simpl.
  - eapply wp_mono; [by apply TAILQ_INIT_correct|]. intros [] s' [Hr [Hs Hout]]. split_and!; [|done|].
    2: { by eapply outside_kept; [split; [exact Hs|exact Hout]|]; intros j Hj; apply may_store_op. }
    destruct Ha as [Hr0 Ha]. split.
    + intros h1 l1. rewrite lookup_insert. case_decide as E; [by intros [= <-]; subst|]. intros E1.
      eapply tq_repr_frame; [|done|by apply Hr0]. intros j Hj. apply Hout. intros ->%list_elem_of_singleton.
      apply elem_cells in Hj as [[= ->]|(? & ? & _)]; done.
    + apply apart_insert; [done|]. by intros h1 l1 x _ _ Hx%elem_of_nil.
  - apply (tqs_inserted _ s a h [] l e (OpInsertHead h e)); [done..|]. apply TAILQ_INSERT_HEAD_stores; [by apply Ha|by eapply Hu|done].
  - apply (tqs_inserted _ s a h l [] e (OpInsertTail h e)); [done| |done|done|done|]; [by rewrite app_nil_r|].
    apply TAILQ_INSERT_TAIL_stores; [by apply Ha|by eapply Hu|done].
  - change (x :: e :: l2) with ([x] ++ e :: l2). rewrite app_assoc.
    apply (tqs_inserted _ s a h (l1 ++ [x]) l2 e (OpInsertAfter h x e)); [done|by rewrite <- app_assoc|done|done|done|].
    apply TAILQ_INSERT_AFTER_stores; [by apply Ha|by eapply Hu|done].
  - apply (tqs_inserted _ s a h l1 (x :: l2) e (OpInsertBefore x e)); [done..|].
    apply TAILQ_INSERT_BEFORE_stores; [by apply Ha|by eapply Hu|done].
  - eapply wp_mono; [by apply TAILQ_REMOVE_stores, Ha|]. intros [] s' Hrm. split_and!; [|apply Hrm|].
    2: { eapply outside_kept; [exact (removed_outside _ _ _ _ x _ Hrm)|]. intros j Hj. by eapply may_store_cells. }
    eapply (tqs_repr_insert s s' a h (l1 ++ x :: l2) _ []).
    + done.
    + done.
    + eapply removed_repr; [done|by apply Ha].
    + by apply removed_outside.
    + constructor.
    + set_solver.
  - eapply wp_mono; [eapply TAILQ_CONCAT_correct; [by apply Ha|by apply Ha| |done]|].
    + intros x Hx Hx'. by eapply Hne, Ha.
    + intros [] s' (Hr1 & Hr2 & Hout). split_and!; [|apply Hout|].
      2: { eapply outside_kept; [exact Hout|]. intros j [Hj|Hj]%elem_of_app; [exact (may_store_cells _ _ _ _ _ E1 Hj)|exact (may_store_cells _ _ _ _ _ E2 Hj)]. }
      by eapply tqs_repr_insert2; try done; [set_solver..|intros x _ ?%elem_of_nil].
  - eapply wp_mono; [eapply TAILQ_SWAP_correct; [by apply Ha|by apply Ha| |done]|].
    + intros x Hx Hx'. by eapply Hne, Ha.
    + intros [] s' (Hr1 & Hr2 & Hout). split_and!; [|apply Hout|].
      2: { eapply outside_kept; [exact Hout|]. intros j [Hj|Hj]%elem_of_app; [exact (may_store_cells _ _ _ _ _ E1 Hj)|exact (may_store_cells _ _ _ _ _ E2 Hj)]. }
      eapply tqs_repr_insert2; try done; [set_solver..|]. intros x Hx Hx'. by eapply Hne, Ha.
Qed.

(** *** Reading a queue *)
Lemma next_at_ok s c : is_Some (s !! c) -> next_at c s = Ok (nx s c) s.
Proof using. intros [f E]. unfold next_at, bind, tq_get, nx. by rewrite E. Qed.

Lemma prev_at_ok s c : is_Some (s !! c) -> prev_at c s = Ok (pv s c) s.
Proof using. intros [f E]. unfold prev_at, bind, tq_get, pv. by rewrite E. Qed.

Lemma TAILQ_FIRST_ok s h l : tq_repr s h l -> TAILQ_FIRST h s = Ok (head l) s.
Proof using.
  intros Hr. unfold TAILQ_FIRST. rewrite next_at_ok by (by eapply tq_repr_head).
  by rewrite (tq_repr_first _ _ _ Hr).
Qed.

Lemma TAILQ_EMPTY_ok s h l : tq_repr s h l -> TAILQ_EMPTY h s = Ok (bool_decide (l = [])) s.
Proof using.
  intros Hr. unfold TAILQ_EMPTY. rewrite (bind_run _ _ _ _ _ (TAILQ_FIRST_ok _ _ _ Hr)). by destruct l.
Qed.

Lemma TAILQ_NEXT_ok s h l1 x l2 : tq_repr s h (l1 ++ x :: l2) -> TAILQ_NEXT x s = Ok (head l2) s.
Proof using.
  intros Hr. unfold TAILQ_NEXT. rewrite next_at_ok; [|eapply tq_repr_cell; [done|set_solver]].
  rewrite cons_middle, app_assoc in Hr. destruct (tq_repr_split _ _ _ _ Hr) as [<- _].
  by rewrite last_cell_app.
Qed.

(** Through the back pointer of a cell at the end of [l1], the last element. *)
Lemma through_last_ok s h l1 l2 c :
  tq_repr s h (l1 ++ l2) -> is_Some (s !! c) -> pv s c = last_cell (inl h) l1 ->
  through_last c s = Ok (last l1) s.
Proof using.
  intros Hr Hc Hp. unfold through_last. rewrite (bind_run _ _ _ _ _ (prev_at_ok _ _ Hc)), Hp.
  pose proof (last_cell_is _ _ _ _ Hr) as Hl. rewrite (bind_run _ _ _ _ _ (prev_at_ok _ _ Hl)).
  destruct l1 as [|z l0 _] using rev_ind.
  - assert (Hpv : pv s (inl h) = last_cell (inl h) l2) by apply Hr.
    change (last_cell (inl h) []) with (inl h : cell). rewrite Hpv.
    rewrite next_at_ok by (by eapply tq_repr_last). assert (nx s (last_cell (inl h) l2) = None) as -> by apply Hr.
    done.
  - rewrite last_cell_app. change (last_cell _ [z]) with (inr z : cell). rewrite <- app_assoc in Hr.
    pose proof (last_cell_is _ _ _ _ Hr) as Hl0. destruct (tq_repr_split _ _ _ _ Hr) as [Hn Hb].
    simpl in Hn, Hb. rewrite Hb, next_at_ok, Hn, last_snoc by done. done.
Qed.

Lemma TAILQ_LAST_ok s h l : tq_repr s h l -> TAILQ_LAST h s = Ok (last l) s.
Proof using.
  intros Hr. eapply (through_last_ok s h l []); [by rewrite app_nil_r|by eapply tq_repr_head|apply Hr].
Qed.

Lemma TAILQ_PREV_ok s h l1 x l2 : tq_repr s h (l1 ++ x :: l2) -> TAILQ_PREV x s = Ok (last l1) s.
Proof using.
  intros Hr. eapply through_last_ok; [done|eapply tq_repr_cell; [done|set_solver]|].
  apply (tq_repr_back _ _ _ _ Hr).
Qed.

(** The body of a loop leaves the queue as it is, or stops the loop. *)
Definition keeps h l (body : K -> M store unit) : Prop :=
  forall x s, x ∈ l -> tq_repr s h l ->
    match body x s with Ok _ s' => tq_repr s' h l | Fail _ _ => True end.

Lemma tailq_loop_next h l1 l2 body s fuel :
  keeps h (l1 ++ l2) body -> tq_repr s h (l1 ++ l2) -> (length l2 <= fuel)%nat ->
  tailq_loop fuel TAILQ_NEXT (head l2) body s = forM l2 body s.
Proof using.
  intros Hk. revert l1 s fuel Hk. induction l2 as [|x l2 IH]; intros l1 s fuel Hk Hr Hf; [by destruct fuel|].
  simpl in Hf. destruct fuel as [|fuel]; [lia|]. simpl. unfold bind at 1 3.
  assert (Hx : x ∈ l1 ++ x :: l2) by set_solver. pose proof (Hk x s Hx Hr) as Hb.
  destruct (body x s) as [[] s'|]; [|done]. rewrite (bind_run _ _ _ _ _ (TAILQ_NEXT_ok _ _ _ _ _ Hb)).
  rewrite cons_middle, app_assoc in Hk, Hb. apply (IH (l1 ++ [x])); [done|done|lia].
Qed.

Lemma tailq_loop_prev h l1 l2 body s fuel :
  keeps h (l1 ++ l2) body -> tq_repr s h (l1 ++ l2) -> (length l1 <= fuel)%nat ->
  tailq_loop fuel TAILQ_PREV (last l1) body s = forM (rev l1) body s.
Proof using.
  intros Hk. revert l2 s fuel Hk. induction l1 as [|x l1 IH] using rev_ind; intros l2 s fuel Hk Hr Hf;
    [by destruct fuel|].
  rewrite length_app in Hf. simpl in Hf. destruct fuel as [|fuel]; [lia|].
  rewrite last_snoc, rev_app_distr. simpl. unfold bind at 1 3.
  assert (Hx : x ∈ (l1 ++ [x]) ++ l2) by set_solver. pose proof (Hk x s Hx Hr) as Hb.
  destruct (body x s) as [[] s'|]; [|done]. rewrite <- app_assoc in Hb, Hk.
  rewrite (bind_run _ _ _ _ _ (TAILQ_PREV_ok _ _ _ _ _ Hb)).
  apply (IH ([x] ++ l2)); [done|done|lia].
Qed.

(** A mutable loop may remove the element it is at. *)
Lemma tailq_loop_mutable_remove h l s fuel :
  tq_repr s h l -> (length l <= fuel)%nat ->
  wp (tailq_loop_mutable fuel TAILQ_NEXT (head l) (TAILQ_REMOVE h)) (fun _ s' => tq_repr s' h []) s.
Proof using.
  revert s fuel. induction l as [|x l IH]; intros s fuel Hr Hf; [by destruct fuel|].
  simpl in Hf. destruct fuel as [|fuel]; [lia|]. simpl. apply wp_bind.
  eapply wp_ok; [by apply (TAILQ_NEXT_ok s h [] x l)|]. apply wp_bind.
  eapply wp_mono; [by apply (TAILQ_REMOVE_stores s h [] x l)|]. intros [] s' Hrm.
  apply IH; [|lia]. by apply (removed_repr s s' h [] x l).
Qed.

Lemma QMD_checks_ok s h l :
  tq_repr s h l ->
  QMD_TAILQ_CHECK_HEAD h s = Ok tt s /\ QMD_TAILQ_CHECK_TAIL h s = Ok tt s /\
  forall x, x ∈ l -> QMD_TAILQ_CHECK_NEXT x s = Ok tt s /\ QMD_TAILQ_CHECK_PREV x s = Ok tt s.
Proof using.
  intros Hr. pose proof (tq_repr_head _ _ _ Hr) as Hh.
  assert (Hpv : pv s (inl h) = last_cell (inl h) l) by apply Hr.
  assert (Hnl : nx s (last_cell (inl h) l) = None) by apply Hr.
  split_and!.
  - unfold QMD_TAILQ_CHECK_HEAD. rewrite (bind_run _ _ _ _ _ (TAILQ_FIRST_ok _ _ _ Hr)).
    destruct l as [|x l]; [done|]. simpl.
    assert (Hx : is_Some (s !! (inr x))) by (eapply tq_repr_cell; [done|by constructor]).
    rewrite (bind_run _ _ _ _ _ (prev_at_ok _ _ Hx)).
    by rewrite (tq_repr_back s h [] (x :: l) Hr : pv s (inr x) = inl h), bool_decide_true.
  - unfold QMD_TAILQ_CHECK_TAIL. rewrite (bind_run _ _ _ _ _ (prev_at_ok _ _ Hh)), Hpv.
    rewrite (bind_run _ _ _ _ _ (next_at_ok _ _ (tq_repr_last _ _ _ Hr))), Hnl. done.
  - intros x (l1 & l2 & ->)%list_elem_of_split. assert (Hx : is_Some (s !! (inr x))).
    { eapply tq_repr_cell; [done|set_solver]. }
    split.
    + unfold QMD_TAILQ_CHECK_NEXT. rewrite (bind_run _ _ _ _ _ (TAILQ_NEXT_ok _ _ _ _ _ Hr)).
      destruct l2 as [|y l2]; [done|]. simpl. assert (Hy : is_Some (s !! (inr y))).
      { eapply tq_repr_cell; [done|set_solver]. }
      rewrite (bind_run _ _ _ _ _ (prev_at_ok _ _ Hy)). rewrite cons_middle, app_assoc in Hr.
      pose proof (tq_repr_back s h _ (y :: l2) Hr) as Hb. rewrite last_cell_app in Hb.
      simpl in Hb. by rewrite Hb, bool_decide_true.
    + unfold QMD_TAILQ_CHECK_PREV. rewrite (bind_run _ _ _ _ _ (prev_at_ok _ _ Hx)).
      destruct (tq_repr_split _ _ _ _ Hr) as [Hn Hb]. simpl in Hn, Hb. rewrite Hb.
      rewrite (bind_run _ _ _ _ _ (next_at_ok _ _ (last_cell_is _ _ _ _ Hr))), Hn.
      by rewrite bool_decide_true.
Qed.
End tq_repr.

(** ** Singly-linked lists spell lists *)
Section sl_repr.
Notation store := (gmap cell (option K)).
Implicit Types (s : store) (c j : cell) (l : list K) (h : H) (x e : K).

Fixpoint sl_pre s c l : Prop :=
  match l with
  | [] => True
  | x :: l' => s !! c = Some (Some x) /\ sl_pre s (inr x) l'
  end.

Definition sl_repr s h l : Prop :=
  sl_pre s (inl h) l /\ s !! last_cell (inl h) l = Some None /\ NoDup l.

Lemma sl_pre_app s c l1 l2 : sl_pre s c (l1 ++ l2) <-> sl_pre s c l1 /\ sl_pre s (last_cell c l1) l2.
Proof using.
  revert c. induction l1 as [|x l1 IH]; intros c; simpl; [naive_solver|].
  rewrite IH, last_cell_cons. tauto.
Qed.

Lemma sl_pre_frame s s' c l :
  NoDup (cells c l) -> (forall j, j ∈ cells c l -> j <> last_cell c l -> s' !! j = s !! j) ->
  sl_pre s c l -> sl_pre s' c l.
Proof using.
  revert c. induction l as [|x l IH]; intros c Hnd Hn; simpl; [done|].
  intros [Hx Hl]. unfold cells in *. simpl in *. apply NoDup_cons in Hnd as [Hc Hnd].
  rewrite last_cell_cons in Hn. split.
  - rewrite Hn; [done|by constructor|]. intros ->. apply Hc, last_cell_in.
  - apply IH; [done| |done]. intros j Hj Hne. apply Hn; [by constructor|done].
Qed.

(** The pointer at the place where the list is split. *)
Lemma sl_at s h l1 l2 : sl_repr s h (l1 ++ l2) -> s !! last_cell (inl h) l1 = Some (head l2).
Proof using.
  intros ((_ & Hd)%sl_pre_app & Hn & _). rewrite last_cell_app in Hn.
  destruct l2; simpl in *; [done|naive_solver].
Qed.

Lemma sl_not_in s h l1 l2 : sl_repr s h (l1 ++ l2) -> forall y, y ∈ l2 -> last_cell (inl h) l1 <> inr y.
Proof using.
  intros (_ & _ & (_ & Hd & _)%NoDup_app) y Hy. unfold last_cell.
  destruct (last l1) as [z|] eqn:E; [|done]. apply last_Some_elem_of in E.
  intros [= ->]. by eapply Hd.
Qed.

Lemma sl_inserted s h l1 e l2 :
  sl_repr s h (l1 ++ l2) -> e ∉ l1 ++ l2 ->
  sl_repr (<[last_cell (inl h) l1 := Some e]> (<[inr e := head l2]> s)) h (l1 ++ e :: l2).
Proof using.
  intros Hr He. pose proof (sl_not_in _ _ _ _ Hr) as Hlast.
  destruct Hr as ((Hd1 & Hd2)%sl_pre_app & Hn & (Hnd1 & Hdisj & Hnd2)%NoDup_app).
  apply not_elem_of_app in He as [He1 He2].
  assert (Hle : last_cell (inl h) l1 <> inr e).
  { unfold last_cell. destruct (last l1) as [z|] eqn:E; [|done]. apply last_Some_elem_of in E. congruence. }
  split_and!.
  - apply sl_pre_app. split; [|simpl; split].
    + eapply sl_pre_frame; [by apply NoDup_cells| |done]. intros j Hj Hne.
      rewrite !lookup_insert_ne; [done| |done]. apply elem_cells in Hj as [->|(y & -> & Hy)]; congruence.
    + by rewrite lookup_insert_eq.
    + destruct l2 as [|y l2]; [done|]. simpl in Hd2 |- *. destruct Hd2 as [_ Hd2]. split.
      * by rewrite lookup_insert_ne, lookup_insert_eq.
      * eapply sl_pre_frame; [by apply NoDup_cells_inr| |done]. intros j Hj _.
        assert (Hz : exists z, j = inr z /\ z ∈ y :: l2).
        { apply elem_cells in Hj as [->|(z & -> & Hz)]; eexists; (split; [done|by constructor]). }
        destruct Hz as (z & -> & Hz). rewrite !lookup_insert_ne; [done|congruence|by apply Hlast].
  - rewrite last_cell_app, last_cell_cons. destruct l2 as [|y l2].
    + change (last_cell (inr e) []) with (inr e : cell). by rewrite lookup_insert_ne, lookup_insert_eq.
    + destruct (last_cell_inr (inr e) y l2) as (z & Ez & Hz).
      rewrite last_cell_app, last_cell_cons in Hn. rewrite last_cell_cons in Ez |- *.
      rewrite Ez in Hn |- *. rewrite !lookup_insert_ne; [done|congruence|by apply Hlast].
  - apply NoDup_app. split_and!; [done| |by constructor].
    intros x Hx [->|Hx']%elem_of_cons; [done|]. by eapply Hdisj.
Qed.

Lemma sl_removed s h l1 x l2 :
  sl_repr s h (l1 ++ x :: l2) -> sl_repr (<[last_cell (inl h) l1 := head l2]> s) h (l1 ++ l2).
Proof using.
  intros Hr. pose proof (sl_not_in _ _ _ _ Hr) as Hlast.
  destruct Hr as ((Hd1 & Hx & Hd2)%sl_pre_app & Hn & (Hnd1 & Hdisj & [Hxl Hnd2]%NoDup_cons)%NoDup_app).
  split_and!.
  - apply sl_pre_app. split.
    + eapply sl_pre_frame; [by apply NoDup_cells| |done]. intros j Hj Hne. by rewrite lookup_insert_ne.
    + destruct l2 as [|y l2]; [done|]. simpl in Hd2 |- *. destruct Hd2 as [_ Hd2]. split; [by rewrite lookup_insert_eq|].
      eapply sl_pre_frame; [by apply NoDup_cells_inr| |done]. intros j Hj _. rewrite lookup_insert_ne; [done|].
      apply elem_cells in Hj as [->|(z & -> & Hz)]; apply Hlast; by repeat constructor.
  - rewrite last_cell_app, last_cell_cons in Hn. rewrite last_cell_app. destruct l2 as [|y l2].
    + change (last_cell ?c []) with c. by rewrite lookup_insert_eq.
    + destruct (last_cell_inr (inr x) y l2) as (z & Ez & Hz). rewrite last_cell_cons in Ez, Hn |- *.
      rewrite Ez in Hn |- *. rewrite lookup_insert_ne; [done|]. apply Hlast. by constructor.
  - apply NoDup_app. split_and!; [done| |done]. intros y Hy Hy'. apply (Hdisj y Hy). by constructor.
Qed.

Lemma sl_get_ok s c v : s !! c = Some v -> sl_get c s = Ok v s.
Proof using. unfold sl_get. by intros ->. Qed.

Lemma sl_set_ok s c v : is_Some (s !! c) -> sl_set c v s = Ok tt (<[c := v]> s).
Proof using. unfold sl_set. by intros [w ->]. Qed.

(** *** The operations, at every place of the list *)
Lemma SLIST_INSERT_HEAD_ok s h l e :
  sl_repr s h l -> e ∉ l -> is_Some (s !! inr e) ->
  wp (SLIST_INSERT_HEAD h e) (fun _ s' => sl_repr s' h (e :: l)) s.
Proof using.
  intros Hr He Hes. pose proof (sl_at s h [] l Hr) as Hh. unfold SLIST_INSERT_HEAD.
  apply wp_bind. eapply wp_ok; [by apply sl_get_ok|]. apply wp_bind. eapply wp_ok; [by apply sl_set_ok|].
  eapply wp_ok; [apply sl_set_ok; rewrite lookup_insert_ne by done; by eexists|].
  by apply (sl_inserted s h [] e l).
Qed.

Lemma SLIST_INSERT_AFTER_ok s h l1 x l2 e :
  sl_repr s h (l1 ++ x :: l2) -> e ∉ l1 ++ x :: l2 -> is_Some (s !! inr e) ->
  wp (SLIST_INSERT_AFTER x e) (fun _ s' => sl_repr s' h (l1 ++ x :: e :: l2)) s.
Proof using.
  intros Hr He Hes. rewrite cons_middle, app_assoc in Hr, He. pose proof (sl_at s h _ l2 Hr) as Hx.
  rewrite last_cell_app in Hx. assert (Hne : e <> x) by set_solver. unfold SLIST_INSERT_AFTER.
  apply wp_bind. eapply wp_ok; [by apply sl_get_ok|]. apply wp_bind. eapply wp_ok; [by apply sl_set_ok|].
  eapply wp_ok; [apply sl_set_ok; rewrite lookup_insert_ne by congruence; by eexists|].
  pose proof (sl_inserted s h _ e l2 Hr He) as Hi. rewrite last_cell_app, <- app_assoc in Hi. exact Hi.
Qed.

Lemma SLIST_REMOVE_HEAD_ok s h x l :
  sl_repr s h (x :: l) -> wp (SLIST_REMOVE_HEAD h) (fun _ s' => sl_repr s' h l) s.
Proof using.
  intros Hr. pose proof (sl_at s h [] _ Hr) as Hh. pose proof (sl_at s h [x] l Hr) as Hx.
  unfold SLIST_REMOVE_HEAD. apply wp_bind. eapply wp_ok; [by apply sl_get_ok|].
  apply wp_bind, wp_ret, wp_bind. eapply wp_ok; [by apply sl_get_ok|].
  eapply wp_ok; [apply sl_set_ok; by eexists|]. by apply (sl_removed s h [] x l).
Qed.

Lemma SLIST_REMOVE_AFTER_ok s h l1 y x l2 :
  sl_repr s h (l1 ++ y :: x :: l2) -> wp (SLIST_REMOVE_AFTER y) (fun _ s' => sl_repr s' h (l1 ++ y :: l2)) s.
Proof using.
  intros Hr. pose proof Hr as Hr1. rewrite cons_middle, app_assoc in Hr1. pose proof Hr1 as Hr2.
  rewrite cons_middle, app_assoc in Hr2.
  pose proof (sl_at s h _ _ Hr1) as Hy. pose proof (sl_at s h _ l2 Hr2) as Hx.
  rewrite !last_cell_app in Hy, Hx.
  unfold SLIST_REMOVE_AFTER. apply wp_bind. eapply wp_ok; [by apply sl_get_ok|].
  apply wp_bind, wp_ret, wp_bind. eapply wp_ok; [by apply sl_get_ok|].
  eapply wp_ok; [apply sl_set_ok; by eexists|].
  pose proof (sl_removed s h _ x l2 Hr1) as Hrm. rewrite last_cell_app, <- app_assoc in Hrm. exact Hrm.
Qed.

(** The search stops at the element before the one it is looking for, and at
    NULL when there is none. *)
Lemma slist_before_ok s h l1 y l2 x l3 fuel :
  sl_repr s h (l1 ++ y :: l2 ++ x :: l3) -> (length l2 < fuel)%nat ->
  exists l0 z, y :: l2 = l0 ++ [z] /\ slist_before fuel y x s = Ok z s.
Proof using.
  revert l1 y fuel. induction l2 as [|w l2 IH]; intros l1 y fuel Hr Hf; (destruct fuel as [|fuel]; [simpl in Hf; lia|]);
    pose proof Hr as Hr1; rewrite cons_middle, app_assoc in Hr1; pose proof (sl_at s h _ _ Hr1) as Hy;
    rewrite last_cell_app in Hy; simpl; unfold SLIST_NEXT;
    rewrite (bind_run _ _ _ _ _ (sl_get_ok _ _ _ Hy)); simpl.
  - rewrite decide_True by done. by exists [], y.
  - assert (w <> x).
    { destruct Hr as (_ & _ & (_ & _ & (_ & Hnd)%NoDup_cons)%NoDup_app). intros ->. simpl in Hnd.
      apply NoDup_cons in Hnd as [Hx _]. set_solver. }
    rewrite decide_False by congruence. unfold bind, from_opt, ret.
    destruct (IH (l1 ++ [y]) w fuel) as (l0 & z & -> & E); [done|simpl in Hf; lia|].
    exists (y :: l0), z. done.
Qed.

Lemma slist_before_absent s h l1 y l2 x fuel :
  sl_repr s h (l1 ++ y :: l2) -> x ∉ y :: l2 -> (length l2 < fuel)%nat ->
  slist_before fuel y x s = Fail NullDeref s.
Proof using.
  revert l1 y fuel. induction l2 as [|w l2 IH]; intros l1 y fuel Hr Hx Hf; (destruct fuel as [|fuel]; [simpl in Hf; lia|]);
    pose proof Hr as Hr1; rewrite cons_middle, app_assoc in Hr1; pose proof (sl_at s h _ _ Hr1) as Hy;
    rewrite last_cell_app in Hy; simpl; unfold SLIST_NEXT;
    rewrite (bind_run _ _ _ _ _ (sl_get_ok _ _ _ Hy)); simpl.
  - done.
  - rewrite decide_False by set_solver. unfold bind, from_opt, ret.
    apply (IH (l1 ++ [y])); [done|set_solver|simpl in Hf; lia].
Qed.
End sl_repr.
End cells.
Arguments TQ {H K}.
Arguments tq_next {H K}.
Arguments tq_prev {H K}.

(** ** Properties *)

(** C27 Memory may hold any number of tail queues.  Every sequence of
    [TAILQ_INIT], [TAILQ_INSERT_HEAD], [_TAIL], [_AFTER], [_BEFORE],
    [TAILQ_REMOVE], [TAILQ_CONCAT] and [TAILQ_SWAP] that the lists they stand
    for allow runs without a fault, and the links then spell these lists
    again: each queue of its head, no element on two of them.  A cell that is
    on no queue, and that no operation of the sequence initialises or inserts,
    is as it was.  The first and the last element, found through the pointers,
    are those of the list, and the consistency checks of a kernel build hold
    everywhere. *)
Theorem TAILQ_refines {H K} `{CH : Countable H} `{CK : Countable K} (s : gmap (H + K) (tq_fields (H := H) (K := K))) a os a' :
  tqs_repr s a -> tq_steps (fun j => is_Some (s !! j)) a os a' ->
  wp (forM os run_tqop) (fun _ s' => tqs_repr s' a' /\
    (forall j, is_Some (s !! j) -> ~ may_store a os j -> s' !! j = s !! j) /\
    forall h l, a' !! h = Some l ->
      TAILQ_FIRST h s' = Ok (head l) s' /\ TAILQ_LAST h s' = Ok (last l) s' /\
      TAILQ_EMPTY h s' = Ok (bool_decide (l = [])) s' /\
      QMD_TAILQ_CHECK_HEAD h s' = Ok tt s' /\ QMD_TAILQ_CHECK_TAIL h s' = Ok tt s' /\
      forall x, x ∈ l -> QMD_TAILQ_CHECK_NEXT x s' = Ok tt s' /\ QMD_TAILQ_CHECK_PREV x s' = Ok tt s') s.
Proof.
  intros Ha Hs.
  assert (Hg : wp (forM os run_tqop) (fun _ s' => tqs_repr s' a' /\ stored s s' /\ kept s s' a os) s).
  { remember (fun j => is_Some (s !! j)) as A eqn:EA.
    assert (HA : forall j, A j -> is_Some (s !! j)) by (by subst). clear EA.
    revert s Ha HA. induction Hs as [a|a o a1 os a2 Ho Hos IH]; intros s Ha HA; simpl; [by apply wp_ret|].
    apply wp_bind. eapply wp_mono.
    - eapply (run_tqop_correct s a o a1); [done|].
      destruct Ho; econstructor; eauto.
    - intros [] s1 (Ha' & Hs1 & Hk1). eapply wp_mono; [apply IH; [done|]|].
      + intros j Hj. by apply Hs1, HA.
      + intros [] s2 (Ha2 & Hs2 & Hk2). split_and!; [done|intros j; by rewrite (Hs2 j), (Hs1 j)|by eapply cells_kept_trans]. }
  eapply wp_mono; [exact Hg|]. intros [] s' (Ha' & Hst & Hk). split_and!; [done|intros j Hj Hm; by eapply kept_cell|]. intros h l Eh.
  assert (Hr : tq_repr s' h l) by (by apply Ha'). destruct (QMD_checks_ok _ _ _ Hr) as (C1 & C2 & C3).
  split_and!; [by apply TAILQ_FIRST_ok|by apply TAILQ_LAST_ok|by apply TAILQ_EMPTY_ok|done|done|done].
Qed.

(** Two heads, 1 and 2, and the entries 10 to 13, not initialised. *)
Definition tq_blank : tq_fields (H := Z) (K := Z) := TQ None (inl 0).
Definition tq_memory : gmap (Z + Z) (tq_fields (H := Z) (K := Z)) :=
  list_to_map ((fun c => (c, tq_blank)) <$> [inl 1; inl 2; inr 10; inr 11; inr 12; inr 13]).
Definition tq_session : list (tqop (H := Z) (K := Z)) :=
  [OpInit 1; OpInit 2; OpInsertTail 1 11; OpInsertBefore 11 10; OpInsertHead 2 12; OpSwap 1 2;
   OpConcat 1 2; OpRemove 1 10].

Lemma TAILQ_refines_witness :
  wp (forM tq_session run_tqop) (fun _ s' =>
    tqs_repr s' (<[1 := [12; 11]]> (<[2 := []]> ∅)) /\ TAILQ_LAST 1 s' = Ok (Some 11) s' /\ s' !! inr 13 = tq_memory !! inr 13) tq_memory.
Proof.
  assert (Hu : forall (a : gmap Z (list Z)) e, bool_decide (map_Forall (fun _ l => e ∉ l) a) = true -> unlinked a e).
  { intros a e Hm h l. apply bool_decide_eq_true in Hm. apply Hm. }
  assert (Hs : exists a', tq_steps (fun j => is_Some (tq_memory !! j)) ∅ tq_session a' /\
    a' = <[1 := [12; 11]]> (<[2 := []]> ∅)).
  { eexists. split.
    - eapply steps_cons; [by apply step_init; eexists|].
      eapply steps_cons; [by apply step_init; eexists|].
      eapply steps_cons; [eapply step_insert_tail; [reflexivity|by eexists|by apply Hu]|].
      eapply steps_cons; [eapply (step_insert_before _ _ 1 [] 11 []); [reflexivity|by eexists|by apply Hu]|].
      eapply steps_cons; [eapply step_insert_head; [reflexivity|by eexists|by apply Hu]|].
      eapply steps_cons; [eapply step_swap; [reflexivity|reflexivity|done]|].
      eapply steps_cons; [eapply step_concat; [reflexivity|reflexivity|done]|].
      eapply steps_cons; [eapply (step_remove _ _ 1 [12] 10 [11]); reflexivity|].
      constructor.
    - vm_compute. reflexivity. }
  destruct Hs as (a' & Hs & Ea). rewrite Ea in Hs.
  eapply wp_mono; [eapply (TAILQ_refines tq_memory ∅ tq_session); [|exact Hs]|].
  - split; [intros h l|intros h1 h2 l1 l2 x E]; by rewrite lookup_empty in *.
  - intros [] s' (Hr & Hk & Ho). split; [exact Hr|]. split; [apply (Ho 1 [12; 11]); reflexivity|].
    apply Hk; [eexists; reflexivity|]. intros [(h & l & E & _)|(o & Hin & Hc)]; [by rewrite lookup_empty in E|].
    repeat (apply elem_of_cons in Hin as [->|Hin]; [by repeat (apply elem_of_cons in Hc as [[=]|Hc]); apply elem_of_nil in Hc|]).
    by apply elem_of_nil in Hin.
Defined.

(** [TAILQ_FOREACH] runs its body on the elements from first to last,
    [TAILQ_FOREACH_REVERSE] from last to first, when the body keeps the
    queue; [TAILQ_FOREACH_MUTABLE] lets the body remove the element it is at,
    and a loop that does so empties the queue. *)
Theorem TAILQ_FOREACH_correct {H K} `{CH : Countable H} `{CK : Countable K} (s : gmap (H + K) (tq_fields (H := H) (K := K))) h l body fuel :
  tq_repr s h l -> (length l <= fuel)%nat ->
  (keeps h l body ->
     TAILQ_FOREACH fuel h body s = forM l body s /\ TAILQ_FOREACH_REVERSE fuel h body s = forM (rev l) body s) /\
  wp (TAILQ_FOREACH_MUTABLE fuel h (TAILQ_REMOVE h)) (fun _ s' => tq_repr s' h []) s.
Proof.
  intros Hr Hf. split; [intros Hk; split|].
  - unfold TAILQ_FOREACH. rewrite (bind_run _ _ _ _ _ (TAILQ_FIRST_ok _ _ _ Hr)).
    by apply (tailq_loop_next h [] l).
  - unfold TAILQ_FOREACH_REVERSE. rewrite (bind_run _ _ _ _ _ (TAILQ_LAST_ok _ _ _ Hr)).
    apply (tailq_loop_prev h l []); rewrite ?app_nil_r; done.
  - unfold TAILQ_FOREACH_MUTABLE. apply wp_bind. eapply wp_ok; [by apply TAILQ_FIRST_ok|].
    by apply tailq_loop_mutable_remove.
Qed.

(** [SLIST_REMOVE] takes an element of the list out of it, wherever it is;
    for an element that is not on the list the search follows NULL. *)
Theorem SLIST_REMOVE_correct {H K} `{CH : Countable H} `{CK : Countable K} (s : gmap (H + K) (option K)) h l x fuel :
  sl_repr s h l -> (length l <= fuel)%nat ->
  (forall l1 l2, l = l1 ++ x :: l2 -> wp (SLIST_REMOVE fuel h x) (fun _ s' => sl_repr s' h (l1 ++ l2)) s) /\
  (x ∉ l -> SLIST_REMOVE fuel h x s = Fail NullDeref s).
Proof.
  intros Hr Hf. pose proof (sl_at s h [] l Hr) as Hh. unfold SLIST_REMOVE, SLIST_FIRST. split.
  - intros l1 l2 ->. apply wp_bind. eapply wp_ok; [by apply sl_get_ok|]. destruct l1 as [|y l1]; cbn [head app] in *.
    + rewrite decide_True by done. by apply (SLIST_REMOVE_HEAD_ok s h x).
    + destruct Hr as (? & ? & Hnd). pose proof Hnd as [Hy _]%NoDup_cons.
      rewrite decide_False by (intros [= ->]; apply Hy; set_solver). apply wp_bind, wp_ret, wp_bind.
      destruct (slist_before_ok s h [] y l1 x l2 fuel) as (l0 & z & E & Ez); [done|simpl in Hf; rewrite length_app in Hf; lia|].
      eapply wp_ok; [exact Ez|]. change (y :: l1 ++ x :: l2) with ((y :: l1) ++ x :: l2) in *.
      change (y :: l1 ++ l2) with ((y :: l1) ++ l2). rewrite E in *. rewrite <- !app_assoc in *.
      by apply (SLIST_REMOVE_AFTER_ok s h l0 z x l2).
  - intros Hx. rewrite (bind_run _ _ _ _ _ (sl_get_ok _ _ _ Hh)). destruct l as [|y l]; cbn [head].
    + by rewrite decide_False.
    + rewrite decide_False by set_solver. unfold bind at 1, from_opt, ret. unfold bind.
      by rewrite (slist_before_absent s h [] y l x fuel) by (done || simpl in Hf; lia).
Qed.
