(* ===== verification/Process.v ===== *)
(** * The process: address space, container file and statistics

    What the library asks of the operating system and of [malloc], as state:
    - [p_maps]: the address ranges already in use, the lines of
      [/proc/self/maps] without the container's own mapping;
    - [p_vm]: the container mapping, page address to file offset;
    - [p_prot]: the protection of each mapped page;
    - [p_file]: the length of the container file, [p_space] the largest
      length the device can hold;
    - [p_brk]: the next address [malloc] returns;
    - [p_stats]: the counters of [src/stats.h].

    The calls follow their documentation: [mmap] without [MAP_FIXED] honours
    the hint when the range is free and otherwise answers another address or
    fails, which is [None] here since every caller asserts that the hint was
    honoured. *)
From Stdlib Require Import ZArith Lia.
From stdpp Require Import base numbers gmap option list.
From S2P Require Import Prelude Macros.
Open Scope Z_scope.

(** ** Statistics: [src/stats.h] *)
Inductive counter :=
  | cont_grow | cow_data_pg | cow_meta_pg | faults | alloc_cont_pg | free_cont_pg
  | pallocations | cpu_cache_flushes | memprotects | se_init | sb_init | so_init | si_init | sd_init.

Definition counter_index (c : counter) : nat :=
  match c with
  | cont_grow => 0 | cow_data_pg => 1 | cow_meta_pg => 2 | faults => 3 | alloc_cont_pg => 4
  | free_cont_pg => 5 | pallocations => 6 | cpu_cache_flushes => 7 | memprotects => 8
  | se_init => 9 | sb_init => 10 | so_init => 11 | si_init => 12 | sd_init => 13
  end.

Record global_stats := Stats {
  per_transaction : list Z;
  general : list Z;
  transactions : Z;
}.

Definition GLOBAL_STATS : global_stats := Stats (replicate 14 0) (replicate 14 0) 0.

Definition incr (x : Z) : Z := u64 (x + 1).

Definition __INC_BOTH (c : counter) (g : global_stats) : global_stats :=
  Stats (alter incr (counter_index c) (per_transaction g))
        (alter incr (counter_index c) (general g)) (transactions g).

Definition STATS_INC_FAULTS (g : global_stats) : global_stats :=
  let first := match per_transaction g !! counter_index faults with
               | Some n => n =? 0 | None => false end in
  __INC_BOTH faults
    (if first then Stats (per_transaction g) (general g) (incr (transactions g)) else g).

(** The nine counters that are reset; the [*_init] counters are not. *)
Definition STATS_RESET_TRANSACTION_COUNTERS (g : global_stats) : global_stats :=
  Stats (replicate 9 0 ++ drop 9 (per_transaction g)) (general g) (transactions g).

(** ** The process *)
Record proc := Proc {
  p_maps : list (Z * Z);
  p_vm : gmap Z Z;
  p_prot : gmap Z Z;
  p_file : Z;
  p_space : Z;
  p_brk : Z;
  p_stats : global_stats;
}.

Definition set_maps (l : list (Z * Z)) (p : proc) : proc :=
  Proc l (p_vm p) (p_prot p) (p_file p) (p_space p) (p_brk p) (p_stats p).
Definition set_vm (vm : gmap Z Z) (p : proc) : proc :=
  Proc (p_maps p) vm (p_prot p) (p_file p) (p_space p) (p_brk p) (p_stats p).
Definition set_prot (pr : gmap Z Z) (p : proc) : proc :=
  Proc (p_maps p) (p_vm p) pr (p_file p) (p_space p) (p_brk p) (p_stats p).
Definition set_file (n : Z) (p : proc) : proc :=
  Proc (p_maps p) (p_vm p) (p_prot p) n (p_space p) (p_brk p) (p_stats p).
Definition set_brk (n : Z) (p : proc) : proc :=
  Proc (p_maps p) (p_vm p) (p_prot p) (p_file p) (p_space p) n (p_stats p).
Definition set_stats (g : global_stats) (p : proc) : proc :=
  Proc (p_maps p) (p_vm p) (p_prot p) (p_file p) (p_space p) (p_brk p) g.

Definition PA_PROT_READ := 1.
Definition PA_PROT_WRITE := 2.
Definition PA_PROT_RNW := Z.lor PA_PROT_READ PA_PROT_WRITE.

(** The environment variables the library reads, as the integers [atoi] or
    [atoll] make of them. *)
Record env := Env {
  PMLIB_USE_NLMAPPER : option Z;
  PMLIB_INIT_SIZE : option Z;
  PMLIB_FIX_PTRS : option Z;
  PMLIB_CLOSURE : option Z;
}.

Definition stat (f : global_stats -> global_stats) : M proc unit :=
  modify (fun p => set_stats (f (p_stats p)) p).

(** [malloc]: an address never returned before. *)
Definition malloc : M proc Z := fun p => Ok (p_brk p) (set_brk (p_brk p + 1) p).

(** *** Page ranges *)
Definition page_count (len : Z) : Z := (len + PAGE_MASK) / PAGE_SIZE.

(** Give the [n] pages from [addr] on the value [v page], or none. *)
Fixpoint set_pages (n : nat) (addr : Z) (v : Z -> option Z) (m : gmap Z Z) : gmap Z Z :=
  match n with
  | O => m
  | S n' => set_pages n' (addr + PAGE_SIZE) v (partial_alter (fun _ => v addr) addr m)
  end.

(** The pages of [addr, addr + n pages) mapped to the file from [off] on. *)
Definition map_pages (n : nat) (addr off : Z) (vm : gmap Z Z) : gmap Z Z :=
  set_pages n addr (fun a => Some (off + (a - addr))) vm.
Definition fill_pages (n : nat) (addr v : Z) (m : gmap Z Z) : gmap Z Z :=
  set_pages n addr (fun _ => Some v) m.
Definition delete_pages (n : nat) (addr : Z) (m : gmap Z Z) : gmap Z Z :=
  set_pages n addr (fun _ => None) m.

Fixpoint all_mapped (n : nat) (addr : Z) (vm : gmap Z Z) : bool :=
  match n with
  | O => true
  | S n' => bool_decide (is_Some (vm !! addr)) && all_mapped n' (addr + PAGE_SIZE) vm
  end.

Fixpoint none_mapped (n : nat) (addr : Z) (vm : gmap Z Z) : bool :=
  match n with
  | O => true
  | S n' => bool_decide (vm !! addr = None) && none_mapped n' (addr + PAGE_SIZE) vm
  end.

(** [addr, addr + len) meets no range in use. *)
Definition disjoint_range (addr len : Z) (r : Z * Z) : bool := (addr + len <=? r.1) || (r.2 <=? addr).
Definition range_free (maps : list (Z * Z)) (addr len : Z) : bool :=
  forallb (disjoint_range addr len) maps.

(** *** System calls *)
Definition mmap (hint len prot off : Z) : M proc (option Z) := fun p =>
  let n := Z.to_nat (page_count len) in
  if (0 <? len) && (hint mod PAGE_SIZE =? 0) && (hint + len <=? 2 ^ 64) &&
     range_free (p_maps p) hint len && none_mapped n hint (p_vm p) then
    Ok (Some hint) (set_vm (map_pages n hint off (p_vm p))
                      (set_prot (fill_pages n hint prot (p_prot p)) p))
  else Ok None p.

(** What is left of the range [r] when [addr, stop) is unmapped. *)
Definition cut_range (addr stop : Z) (r : Z * Z) : list (Z * Z) :=
  List.filter (fun q => q.1 <? q.2) [(r.1, Z.min r.2 addr); (Z.max r.1 stop, r.2)].

(** [munmap] takes every mapping in the range away, whoever made it. *)
Definition munmap (addr len : Z) : M proc Z := fun p =>
  let n := Z.to_nat (page_count len) in
  if (0 <? len) && (addr mod PAGE_SIZE =? 0) then
    Ok 0 (set_maps (flat_map (cut_range addr (addr + PAGE_SIZE * page_count len)) (p_maps p))
            (set_vm (delete_pages n addr (p_vm p)) (set_prot (delete_pages n addr (p_prot p)) p)))
  else Ok (-1) p.

Definition mprotect (addr size flags : Z) : M proc Z := fun p =>
  let n := Z.to_nat (page_count size) in
  if (addr mod PAGE_SIZE =? 0) && all_mapped n addr (p_vm p) then
    Ok 0 (set_prot (fill_pages n addr flags (p_prot p)) p)
  else Ok (-1) p.

Inductive fallocate_rc := FA_OK | EINVAL | ENOSPC.

(** [posix_fallocate(fd, offset, len)]: the file reaches at least [offset +
    len]; [off_t] is signed. *)
Definition posix_fallocate (offset len : Z) : M proc fallocate_rc := fun p =>
  if (len <=? 0) || (2 ^ 63 <=? len) || (2 ^ 63 <=? offset) then Ok EINVAL p
  else if p_space p <? offset + len then Ok ENOSPC p
  else Ok FA_OK (set_file (Z.max (p_file p) (offset + len)) p).

(** [remap_file_pages] on one page of the mapping. *)
Definition remap_file_pages (addr pgoff : Z) : M proc Z := fun p =>
  if (addr mod PAGE_SIZE =? 0) && bool_decide (is_Some (p_vm p !! addr)) then
    Ok 0 (set_vm (<[addr := pgoff * PAGE_SIZE]> (p_vm p)) p)
  else Ok (-1) p.

(** [page_allocator_mprotect_generic] of [src/page_alloc.c] *)
Definition page_allocator_mprotect_generic (maddr size flags : Z) : M proc unit :=
  stat (__INC_BOTH memprotects) ;;;
  let! rc := mprotect maddr size flags in
  if rc =? 0 then ret tt else fail HandleError.

(** ** Lemmas *)
Lemma set_pages_out n addr v m a :
  (forall i, 0 <= i < Z.of_nat n -> a <> addr + PAGE_SIZE * i) -> set_pages n addr v m !! a = m !! a.
Proof.
  revert addr m. induction n as [|n IH]; intros addr m H; [done|]. simpl. rewrite IH.
  - apply lookup_partial_alter_ne. intros ->. apply (H 0); lia.
  - intros i Hi ->. apply (H (i + 1)); lia.
Qed.

Lemma set_pages_in n addr v m i :
  0 <= i < Z.of_nat n -> set_pages n addr v m !! (addr + PAGE_SIZE * i) = v (addr + PAGE_SIZE * i).
Proof.
  revert addr m i. induction n as [|n IH]; intros addr m i Hi; [lia|]. simpl.
  destruct (decide (i = 0)) as [->|].
  - rewrite set_pages_out by (intros; unfold PAGE_SIZE; lia).
    rewrite Z.mul_0_r, Z.add_0_r. by rewrite lookup_partial_alter_eq.
  - replace (addr + PAGE_SIZE * i) with (addr + PAGE_SIZE + PAGE_SIZE * (i - 1)) by lia. apply IH. lia.
Qed.

Lemma all_mapped_spec n addr vm :
  all_mapped n addr vm = true <-> forall i, 0 <= i < Z.of_nat n -> is_Some (vm !! (addr + PAGE_SIZE * i)).
Proof.
  revert addr. induction n as [|n IH]; intros addr; simpl; [split; [lia|done]|].
  rewrite andb_true_iff, bool_decide_eq_true, IH. split.
  - intros [H0 H] i Hi. destruct (decide (i = 0)) as [->|]; [by rewrite Z.mul_0_r, Z.add_0_r|].
    specialize (H (i - 1) ltac:(lia)). by replace (addr + PAGE_SIZE * i) with (addr + PAGE_SIZE + PAGE_SIZE * (i - 1)) by lia.
  - intros H. split; [specialize (H 0 ltac:(lia)); by rewrite Z.mul_0_r, Z.add_0_r in H|].
    intros i Hi. specialize (H (i + 1) ltac:(lia)).
    by replace (addr + PAGE_SIZE + PAGE_SIZE * i) with (addr + PAGE_SIZE * (i + 1)) by lia.
Qed.

Lemma none_mapped_spec n addr vm :
  none_mapped n addr vm = true <-> forall i, 0 <= i < Z.of_nat n -> vm !! (addr + PAGE_SIZE * i) = None.
Proof.
  revert addr. induction n as [|n IH]; intros addr; simpl; [split; [lia|done]|].
  rewrite andb_true_iff, bool_decide_eq_true, IH. split.
  - intros [H0 H] i Hi. destruct (decide (i = 0)) as [->|]; [by rewrite Z.mul_0_r, Z.add_0_r|].
    specialize (H (i - 1) ltac:(lia)). by replace (addr + PAGE_SIZE * i) with (addr + PAGE_SIZE + PAGE_SIZE * (i - 1)) by lia.
  - intros H. split; [specialize (H 0 ltac:(lia)); by rewrite Z.mul_0_r, Z.add_0_r in H|].
    intros i Hi. specialize (H (i + 1) ltac:(lia)).
    by replace (addr + PAGE_SIZE + PAGE_SIZE * i) with (addr + PAGE_SIZE * (i + 1)) by lia.
Qed.

Lemma page_count_mul n : page_count (PAGE_SIZE * n) = n.
Proof.
  unfold page_count, PAGE_MASK. replace (PAGE_SIZE * n + (PAGE_SIZE - 1)) with (n * PAGE_SIZE + (PAGE_SIZE - 1)) by lia.
  rewrite Z.div_add_l by (unfold PAGE_SIZE; lia). rewrite Z.div_small; unfold PAGE_SIZE; lia.
Qed.

Lemma page_count_one : page_count PAGE_SIZE = 1.
Proof. reflexivity. Qed.

(** Protecting one mapped page. *)
Lemma wp_mprotect_page addr flags (Q : unit -> proc -> Prop) p :
  addr mod PAGE_SIZE = 0 -> is_Some (p_vm p !! addr) ->
  Q tt (set_prot (<[addr := flags]> (p_prot p)) (set_stats (__INC_BOTH memprotects (p_stats p)) p)) ->
  wp (page_allocator_mprotect_generic addr PAGE_SIZE flags) Q p.
Proof.
  intros Ha Hm HQ. unfold page_allocator_mprotect_generic, stat. msteps.
  unfold wp, mprotect, bind. rewrite page_count_one. simpl.
  rewrite Ha. simpl. rewrite (bool_decide_true _ Hm). simpl. exact HQ.
Qed.

(** Unmapping a range that meets no other mapping leaves the others alone. *)
Lemma cut_range_disjoint addr len r :
  r.1 < r.2 -> 0 < len -> disjoint_range addr len r = true -> cut_range addr (addr + len) r = [r].
Proof.
  destruct r as [lo hi]. unfold disjoint_range, cut_range. simpl. intros Hr Hl H. bsimpl.
  destruct H as [H|H].
  - rewrite (Z.min_r hi addr), (Z.max_l lo) by lia.
    destruct (Z.ltb_spec lo addr); [lia|]. destruct (Z.ltb_spec lo hi); [done|lia].
  - rewrite (Z.min_l hi addr), (Z.max_r lo) by lia.
    destruct (Z.ltb_spec lo hi); [|lia]. by destruct (Z.ltb_spec (addr + len) hi); [lia|].
Qed.

Lemma cut_ranges_free maps addr len :
  Forall (fun r => r.1 < r.2) maps -> 0 < len -> range_free maps addr len = true ->
  flat_map (cut_range addr (addr + len)) maps = maps.
Proof.
  intros Hr Hl Hf. induction Hr as [|r maps Hr _ IH]; [done|]. unfold range_free in Hf. simpl in *. bsimpl.
  destruct Hf as [H1 H2]. rewrite (cut_range_disjoint _ _ _ Hr Hl H1), IH; done.
Qed.

Lemma mmap_run p hint m prot off :
  0 < m -> hint mod PAGE_SIZE = 0 -> hint + PAGE_SIZE * m <= 2 ^ 64 ->
  range_free (p_maps p) hint (PAGE_SIZE * m) = true ->
  (forall i, 0 <= i < m -> p_vm p !! (hint + PAGE_SIZE * i) = None) ->
  mmap hint (PAGE_SIZE * m) prot off p =
    Ok (Some hint) (set_vm (map_pages (Z.to_nat m) hint off (p_vm p))
                      (set_prot (fill_pages (Z.to_nat m) hint prot (p_prot p)) p)).
Proof.
  intros Hm Ha Hb Hf Hn. unfold mmap. rewrite page_count_mul, Hf, Ha.
  rewrite (proj2 (Z.ltb_lt 0 _)) by (unfold PAGE_SIZE; lia).
  rewrite (proj2 (Z.leb_le _ _) Hb). simpl.
  rewrite (proj2 (none_mapped_spec _ _ _)); [done|]. intros i Hi. apply Hn. lia.
Qed.

Lemma munmap_run p addr m :
  0 < m -> addr mod PAGE_SIZE = 0 -> Forall (fun r => r.1 < r.2) (p_maps p) ->
  range_free (p_maps p) addr (PAGE_SIZE * m) = true ->
  munmap addr (PAGE_SIZE * m) p =
    Ok 0 (set_vm (delete_pages (Z.to_nat m) addr (p_vm p))
            (set_prot (delete_pages (Z.to_nat m) addr (p_prot p)) p)).
Proof.
  intros Hm Ha Hr Hf. unfold munmap. rewrite page_count_mul, Ha.
  rewrite (proj2 (Z.ltb_lt 0 _)) by (unfold PAGE_SIZE; lia). simpl.
  rewrite cut_ranges_free; [by destruct p|done|unfold PAGE_SIZE; lia|done].
Qed.
