(* ===== verification/Stats.v ===== *)
(** * Reports of the statistics: [src/stats.c]

    The two reports, as the text [sprintf] writes, and whether they fit the
    buffer of 512 bytes. *)
From Stdlib Require Import ZArith Lia String Ascii.
From stdpp Require Import base numbers option list.
From S2P Require Import Prelude Macros Process.
Open Scope Z_scope.

(** [%lu]: decimal digits, at most 20 for 64 bits. *)
Fixpoint lu_digits (fuel : nat) (n : Z) : list Z :=
  match fuel with
  | O => []
  | S fuel' => if n <? 10 then [n] else lu_digits fuel' (n / 10) ++ [n mod 10]
  end.

Definition char (d : Z) : ascii := ascii_of_nat (Z.to_nat (48 + d)).
Definition lu (n : Z) : list ascii := map char (lu_digits 20 n).

Definition text (s : string) : list ascii := list_ascii_of_string s.
Definition newline : list ascii := [ascii_of_nat 10].

(** A line of a template: the name and [%lu]. *)
Definition row (name : string) (n : Z) : list ascii := text "   " ++ text name ++ text ": " ++ lu n ++ newline.

(** The fourteen lines the templates share. *)
Definition counter_rows (l : list Z) : list ascii :=
  let v c := default 0 (l !! counter_index c) in
  concat (map (fun p => row p.1 (v p.2))
    [("cont_grow", cont_grow); ("cow_data_pg", cow_data_pg); ("cow_meta_pg", cow_meta_pg); ("faults", faults);
     ("alloc_cont_pg", alloc_cont_pg); ("free_cont_pg", free_cont_pg); ("pallocations", pallocations);
     ("cpu_cache_flushes", cpu_cache_flushes); ("memprotects", memprotects); ("se_init", se_init);
     ("sb_init", sb_init); ("so_init", so_init); ("si_init", si_init); ("sd_init", sd_init)]%string).

Definition stats_pt_report (g : global_stats) : list ascii :=
  text "Transaction " ++ lu (transactions g) ++ text " {" ++ newline ++ counter_rows (per_transaction g) ++ text "}".

Definition stats_general_report (g : global_stats) : list ascii :=
  text "General {" ++ newline ++ row "transactions" (transactions g) ++ counter_rows (general g) ++ text "}".

(** [static char msg[512]], of which the last byte ends the text. *)
Definition report_buffer := 512.
Definition fits (s : list ascii) : Prop := zlen s + 1 <= report_buffer.

(** ** Digits *)
Definition digits_value (ds : list Z) : Z := fold_left (fun a d => 10 * a + d) ds 0.

Lemma digits_value_snoc ds d : digits_value (ds ++ [d]) = 10 * digits_value ds + d.
Proof. unfold digits_value. by rewrite fold_left_app. Qed.

Lemma lu_digits_value fuel n : 0 <= n < 10 ^ Z.of_nat fuel -> digits_value (lu_digits fuel n) = n.
Proof.
  revert n. induction fuel as [|fuel IH]; intros n Hn; [change (10 ^ Z.of_nat 0) with 1 in Hn; unfold digits_value; simpl; lia|]. simpl.
  destruct (Z.ltb_spec n 10); [unfold digits_value; simpl; lia|]. rewrite digits_value_snoc, IH.
  - symmetry. apply Z.div_mod. lia.
  - rewrite Nat2Z.inj_succ, Z.pow_succ_r in Hn by lia. split; [apply Z.div_pos; lia|apply Z.div_lt_upper_bound; lia].
Qed.

Lemma lu_digits_length fuel n k : 0 <= n < 10 ^ k -> 1 <= k -> zlen (lu_digits fuel n) <= k.
Proof.
  revert n k. induction fuel as [|fuel IH]; intros n k Hn Hk; [unfold zlen; simpl; lia|]. simpl.
  destruct (Z.ltb_spec n 10); [unfold zlen; simpl; lia|].
  assert (Hk1 : 1 < k). { destruct (Z.eq_dec k 1) as [->|]; [change (10 ^ 1) with 10 in Hn; lia|lia]. }
  assert (IH' : zlen (lu_digits fuel (n / 10)) <= k - 1).
  { apply IH; [|lia]. split; [apply Z.div_pos; lia|]. apply Z.div_lt_upper_bound; [lia|].
    rewrite <- Z.pow_succ_r by lia. replace (Z.succ (k - 1)) with k by lia. lia. }
  unfold zlen in *. rewrite length_app. simpl. lia.
Qed.

Lemma lu_length n k : 0 <= n < 10 ^ k -> 1 <= k -> zlen (lu n) <= k.
Proof. intros Hn Hk. unfold lu, zlen. rewrite length_map. by apply lu_digits_length. Qed.

(** Counters of at most [k] digits. *)
Definition small (k : Z) (l : list Z) : Prop := forall n, n ∈ l -> 0 <= n < 10 ^ k.

Lemma row_length name n k : 0 <= n < 10 ^ k -> 1 <= k -> zlen (row name n) <= zlen (text name) + 6 + k.
Proof.
  intros Hn Hk. pose proof (lu_length n k Hn Hk). unfold row. rewrite !zlen_app. change (zlen (text "   ")) with 3. change (zlen (text ": ")) with 2.
  change (zlen newline) with 1. lia.
Qed.

Lemma counter_rows_length l k : small k l -> 1 <= k -> zlen (counter_rows l) <= 221 + 14 * k.
Proof.
  intros Hl Hk. assert (Hv : forall c, 0 <= default 0 (l !! counter_index c) < 10 ^ k).
  { intros c. destruct (l !! counter_index c) as [n|] eqn:E; simpl; [apply Hl; by apply list_elem_of_lookup; eexists|].
    split; [lia|]. apply Z.pow_pos_nonneg; lia. }
  unfold counter_rows. cbn [map concat fst snd]. rewrite !zlen_app.
  pose proof (fun name c => row_length name _ k (Hv c) Hk) as Hr.
  pose proof (Hr "cont_grow"%string cont_grow) as H0. pose proof (Hr "cow_data_pg"%string cow_data_pg) as H1.
  pose proof (Hr "cow_meta_pg"%string cow_meta_pg) as H2. pose proof (Hr "faults"%string faults) as H3.
  pose proof (Hr "alloc_cont_pg"%string alloc_cont_pg) as H4. pose proof (Hr "free_cont_pg"%string free_cont_pg) as H5.
  pose proof (Hr "pallocations"%string pallocations) as H6. pose proof (Hr "cpu_cache_flushes"%string cpu_cache_flushes) as H7.
  pose proof (Hr "memprotects"%string memprotects) as H8. pose proof (Hr "se_init"%string se_init) as H9.
  pose proof (Hr "sb_init"%string sb_init) as H10. pose proof (Hr "so_init"%string so_init) as H11.
  pose proof (Hr "si_init"%string si_init) as H12. pose proof (Hr "sd_init"%string sd_init) as H13.
  repeat match goal with H : context [zlen (text ?s)] |- _ => let v := eval vm_compute in (zlen (text s)) in change (zlen (text s)) with v in H end.
  change (zlen (@nil ascii)) with 0. lia.
Qed.

(** ** Properties *)

(** C37 The size of the reports.  The report of a transaction fits its buffer
    when every counter has at most 18 decimal digits, the general one when
    every counter has at most 17; with the largest counters neither fits, and
    [sprintf] writes past the end of the buffer. *)
Theorem reports_fit (g : global_stats) :
  (0 <= transactions g < 10 ^ 18 -> small 18 (per_transaction g) -> fits (stats_pt_report g)) /\
  (0 <= transactions g < 10 ^ 17 -> small 17 (general g) -> fits (stats_general_report g)) /\
  let m := replicate 14 (2 ^ 64 - 1) in
  ~ fits (stats_pt_report (Stats m m (2 ^ 64 - 1))) /\ ~ fits (stats_general_report (Stats m m (2 ^ 64 - 1))).
Proof.
  split_and!.
  - intros Ht Hp. pose proof (lu_length _ 18 Ht ltac:(lia)). pose proof (counter_rows_length _ 18 Hp ltac:(lia)).
    unfold fits, stats_pt_report, report_buffer. rewrite !zlen_app. change (zlen (text "Transaction ")) with 12. change (zlen (text " {")) with 2.
    change (zlen newline) with 1. change (zlen (text "}")) with 1. lia.
  - intros Ht Hp. pose proof (row_length "transactions" _ 17 Ht ltac:(lia)) as Hr. pose proof (counter_rows_length _ 17 Hp ltac:(lia)).
    change (zlen (text "transactions")) with 12 in Hr.
    unfold fits, stats_general_report, report_buffer. rewrite !zlen_app. change (zlen (text "General {")) with 9.
    change (zlen newline) with 1. change (zlen (text "}")) with 1. lia.
  - intros m. split; unfold fits; apply Z.nle_gt; vm_compute; reflexivity.
Qed.

Lemma reports_fit_witness : fits (stats_pt_report GLOBAL_STATS) /\ fits (stats_general_report GLOBAL_STATS).
Proof.
  destruct (reports_fit GLOBAL_STATS) as (H1 & H2 & _).
  split; [apply H1|apply H2]; try (simpl; lia); intros n Hn; apply elem_of_replicate in Hn as [-> _]; lia.
Defined.
