(* ===== verification/Out.v ===== *)
(** * Logging and assertions: [src/out.c], [src/out.h]

    The state [ost] holds the static variables of [out.c], [errno], and what
    has been written, in order.  Text is [list ascii]; a format string with
    its arguments is turned into text by [vformat], for the conversions the
    two files use.  The line is put together in a buffer of [MAXPRINT] bytes,
    which is modelled byte by byte. *)
From Stdlib Require Import ZArith Lia String Ascii.
From stdpp Require Import base numbers option list.
From S2P Require Import Prelude Macros Stats.
Open Scope Z_scope.

Notation txt := (list ascii).
Definition NUL : ascii := ascii_of_nat 0.
Definition c_string (s : txt) : bool := forallb (fun c => negb (bool_decide (c = NUL))) s.

Lemma c_string_ok s : c_string s = true -> NUL ∉ s.
Proof.
  unfold c_string. rewrite forallb_forall. intros Hs Hin%list_elem_of_In. specialize (Hs _ Hin).
  by rewrite bool_decide_true in Hs.
Qed.

(** ** [printf] *)
Inductive carg := AStr (s : txt) | AInt (n : Z) | APtr (n : Z) | AULL (n : Z).

Definition dec (n : Z) : txt := if n <? 0 then text "-" ++ lu (- n) else lu n.

Definition hex_digit (d : Z) : ascii := ascii_of_nat (Z.to_nat (if d <? 10 then 48 + d else 87 + d)).
Fixpoint hex_digits (fuel : nat) (n : Z) : txt :=
  match fuel with
  | O => []
  | S fuel' => if n <? 16 then [hex_digit n] else hex_digits fuel' (n / 16) ++ [hex_digit (n mod 16)]
  end.
Definition hex (n : Z) : txt := hex_digits 16 n.
Definition ptr_text (n : Z) : txt := if n =? 0 then text "(nil)" else text "0x" ++ hex n.

(** [%s], [%d], [%p] and [%llx]; an argument of another type, or none, is
    undefined behaviour. *)
Fixpoint vformat (fmt : txt) (args : list carg) : option txt :=
  match fmt with
  | [] => Some []
  | "%"%char :: "s"%char :: f =>
      match args with AStr s :: r => app s <$> vformat f r | _ => None end
  | "%"%char :: "d"%char :: f =>
      match args with AInt n :: r => app (dec n) <$> vformat f r | _ => None end
  | "%"%char :: "p"%char :: f =>
      match args with APtr n :: r => app (ptr_text n) <$> vformat f r | _ => None end
  | "%"%char :: "l"%char :: "l"%char :: "x"%char :: f =>
      match args with AULL n :: r => app (hex n) <$> vformat f r | _ => None end
  | "%"%char :: _ => None
  | c :: f => cons c <$> vformat f args
  end.

(** [vsnprintf(str, size, ...)] for the text [s]: the bytes stored at [str],
    at most [size], the last one NUL, and the length [s] would need. *)
Definition snprintf_bytes (size : Z) (s : txt) : txt :=
  if size =? 0 then [] else take (Z.to_nat (size - 1)) s ++ [NUL].

(** [atoi]: spaces, a sign, digits. *)
Definition is_space (c : ascii) : bool :=
  let n := nat_of_ascii c in bool_decide (n = 32%nat) || (bool_decide (9 <= n)%nat && bool_decide (n <= 13)%nat).
Definition digit_of (c : ascii) : option Z :=
  let n := Z.of_nat (nat_of_ascii c) in if (48 <=? n) && (n <=? 57) then Some (n - 48) else None.
Fixpoint atoi_digits (s : txt) (acc : Z) : Z :=
  match s with
  | [] => acc
  | c :: s' => match digit_of c with Some d => atoi_digits s' (10 * acc + d) | None => acc end
  end.
Fixpoint atoi (s : txt) : Z :=
  match s with
  | [] => 0
  | c :: s' =>
      if is_space c then atoi s'
      else if bool_decide (c = "-"%char) then - atoi_digits s' 0
      else if bool_decide (c = "+"%char) then atoi_digits s' 0
      else atoi_digits s 0
  end.

(** ** The state *)
Inductive stream := StdOut | StdErr | LogFile (name : txt).

#[export] Instance stream_eq_dec : EqDecision stream.
Proof. solve_decision. Defined.

(** What the outside sees: text on a stream, a call of a [print_func] the
    program has set, files that are opened and closed. *)
Inductive event :=
  | Puts (f : stream) (s : txt)
  | PrintCall (print_func : Z) (s : txt)
  | FOpen (name : txt)
  | FClose (name : txt).

(** A [Vsnprintf_func]: of the size, the format and the arguments, the bytes
    it stores and what it returns. *)
Definition vsnprintf_fn : Type := Z -> txt -> list carg -> option (txt * Z).
Definition vsnprintf : vsnprintf_fn := fun size fmt args =>
  s ← vformat fmt args; Some (snprintf_bytes size s, zlen s).

Record ost := Ost {
  Log_prefix : option txt;
  Log_level : Z;
  Out_fp : option stream;
  o_once : bool;
  Print : Z;                          (** 0 is [out_print_func] *)
  Vsnprintf : option (Z * vsnprintf_fn); (** [None] is [vsnprintf] *)
  o_errno : Z;
  o_events : list event;
}.

Definition out_boot : ost := Ost None 0 None false 0 None 0 [].

Definition PATH_MAX := 4096.
Definition MAXPRINT := 8192.
Definition nvml_src_version : txt := text "SRCVERSION:".

(** The process and its environment: [readlink] gives the target of
    [/proc/<pid>/exe], or fails; [fopen] of a name succeeds, or sets [errno]. *)
Record oenv := OEnv {
  getenv : txt -> option txt;
  getpid : Z;
  readlink_exe : option txt;
  fopen_error : txt -> option Z;
  strerror : Z -> txt;
}.

Section out.
Context (env : oenv).
Notation M := (M ost).

Definition upd_out (f : ost -> ost) : M unit := modify f.
Definition set_prefix p s := Ost (Some p) (Log_level s) (Out_fp s) (o_once s) (Print s) (Vsnprintf s) (o_errno s) (o_events s).
Definition set_level n s := Ost (Log_prefix s) n (Out_fp s) (o_once s) (Print s) (Vsnprintf s) (o_errno s) (o_events s).
Definition set_fp fp s := Ost (Log_prefix s) (Log_level s) (Some fp) (o_once s) (Print s) (Vsnprintf s) (o_errno s) (o_events s).
Definition set_once s := Ost (Log_prefix s) (Log_level s) (Out_fp s) true (Print s) (Vsnprintf s) (o_errno s) (o_events s).
Definition set_print p s := Ost (Log_prefix s) (Log_level s) (Out_fp s) (o_once s) p (Vsnprintf s) (o_errno s) (o_events s).
Definition set_vsnprintf v s := Ost (Log_prefix s) (Log_level s) (Out_fp s) (o_once s) (Print s) v (o_errno s) (o_events s).
Definition set_errno n s := Ost (Log_prefix s) (Log_level s) (Out_fp s) (o_once s) (Print s) (Vsnprintf s) n (o_events s).
Definition add_event e s :=
  Ost (Log_prefix s) (Log_level s) (Out_fp s) (o_once s) (Print s) (Vsnprintf s) (o_errno s) (o_events s ++ [e]).
Definition emit (e : event) : M unit := modify (add_event e).

(** [getexecname]: [readlink] stores at most [PATH_MAX] bytes, and the NUL
    goes behind them. *)
Definition getexecname : M txt :=
  match readlink_exe env with
  | None => ret (text "unknown")
  | Some path =>
      let namepath := take (Z.to_nat PATH_MAX) path in
      if zlen namepath <? PATH_MAX then ret namepath else fail OutOfBounds
  end.

(** [out_print_func]; [fputs] to NULL faults. *)
Definition out_print_func (s : txt) : M unit :=
  let! fp := gets Out_fp in
  let! f := from_opt NullDeref fp in
  emit (Puts f s).

(** [Print(s)] *)
Definition call_print (s : txt) : M unit :=
  let! p := gets Print in
  if p =? 0 then out_print_func s else emit (PrintCall p s).

(** *** The buffer: bytes not written yet are [None]. *)
Definition buffer : Type := list (option ascii).
Definition new_buffer : buffer := replicate (Z.to_nat MAXPRINT) None.

(** Store [bs] at [&buf[at_]]. *)
Definition buf_store (buf : buffer) (at_ : Z) (bs : txt) : option buffer :=
  if bool_decide (bs = []) then Some buf
  else if (0 <=? at_) && (at_ + zlen bs <=? zlen buf) then
    Some (take (Z.to_nat at_) buf ++ (Some <$> bs) ++ drop (Z.to_nat (at_ + zlen bs)) buf)
  else None.

(** The string that starts at [buf]. *)
Fixpoint buf_text (buf : buffer) : option txt :=
  match buf with
  | [] => None
  | None :: _ => None
  | Some c :: buf' => if bool_decide (c = NUL) then Some [] else cons c <$> buf_text buf'
  end.

(** [Vsnprintf(&buf[cc], MAXPRINT - cc, fmt, ap)]: the size is converted to
    [size_t].  The new buffer, and the value to add to [cc]. *)
Definition print_at (buf : buffer) (cc : Z) (fmt : txt) (args : list carg) : M (buffer * Z) :=
  let! v := gets Vsnprintf in
  let f := match v with Some (_, f) => f | None => vsnprintf end in
  let! r := from_opt Uninit (f (u64 (MAXPRINT - cc)) fmt args) in
  let! buf := from_opt OutOfBounds (buf_store buf cc r.1) in
  ret (buf, r.2).

(** [file] is NULL, or the place of a [LOG]. *)
Definition out_common (file : option (txt * Z * txt)) (level : Z) (suffix : txt)
    (fmt : option txt) (ap : list carg) : M unit :=
  let! oerrno := gets o_errno in
  let! (buf, cc) :=
    (match file with
     | None => ret (new_buffer, 0)
     | Some (file, line, func) =>
         let! p := gets Log_prefix in
         let! prefix := from_opt NullDeref p in
         print_at new_buffer 0 (text "<%s>: <%d> [%s:%d %s] ")
           [AStr prefix; AInt level; AStr file; AInt line; AStr func]
     end) in
  let! (buf, cc, sep, errstr) :=
    (match fmt with
     | None => ret (buf, cc, [], [])
     | Some fmt =>
         let err := match fmt with c :: _ => bool_decide (c = "!"%char) | [] => false end in
         let fmt := if err then tail fmt else fmt in
         let! r := print_at buf cc fmt ap in
         ret (r.1, cc + r.2, if err then text ": " else [], if err then strerror env oerrno else [])
     end) in
  let! r := print_at buf cc (text "%s%s%s") [AStr sep; AStr errstr; AStr suffix] in
  let! line := from_opt Uninit (buf_text r.1) in
  call_print line ;;;
  upd_out (set_errno oerrno).

Definition out (fmt : option txt) (ap : list carg) : M unit := out_common None 0 newline fmt ap.

Definition out_nonl (level : Z) (fmt : option txt) (ap : list carg) : M unit :=
  let! l := gets Log_level in
  if l <? level then ret tt else out_common None level [] fmt ap.

Definition out_log (place : txt * Z * txt) (level : Z) (fmt : option txt) (ap : list carg) : M unit :=
  let! l := gets Log_level in
  if l <? level then ret tt else out_common (Some place) level newline fmt ap.

Definition out_fatal (place : txt * Z * txt) (fmt : option txt) (ap : list carg) : M unit :=
  out_common (Some place) 1 newline fmt ap ;;;
  fail Exits.

(** *** The macros; [place] is [__FILE__], [__LINE__], [__func__] *)
Definition LOG place level fmt ap : M unit := out_log place level fmt ap.
Definition LOG_NONL level fmt ap : M unit := out_nonl level fmt ap.
Definition FATAL place fmt ap : M unit := out_fatal place fmt ap.
Definition ASSERT place (cnd : bool) (cnd_text : txt) : M unit :=
  if cnd then ret tt else out_fatal place (Some (text "assertion failure: %s")) [AStr cnd_text].
Definition ASSERTinfo place (cnd : bool) (cnd_text info_text info : txt) : M unit :=
  if cnd then ret tt
  else out_fatal place (Some (text "assertion failure: %s (%s = %s)")) [AStr cnd_text; AStr info_text; AStr info].
Definition ASSERTeq place (lhs rhs : Z) (lhs_text rhs_text : txt) : M unit :=
  if lhs =? rhs then ret tt
  else out_fatal place (Some (text "assertion failure: %s (0x%llx) == %s (0x%llx)"))
         [AStr lhs_text; AULL (u64 lhs); AStr rhs_text; AULL (u64 rhs)].
Definition ASSERTne place (lhs rhs : Z) (lhs_text rhs_text : txt) : M unit :=
  if negb (lhs =? rhs) then ret tt
  else out_fatal place (Some (text "assertion failure: %s (0x%llx) != %s (0x%llx)"))
         [AStr lhs_text; AULL (u64 lhs); AStr rhs_text; AULL (u64 rhs)].

(** *** Setting up *)

(** The name of the log file: after a final [-] the process id follows. *)
Definition log_file_name (log_file : txt) : txt :=
  if (0 <? zlen log_file) && bool_decide (last log_file = Some "-"%char)
  then log_file ++ dec (getpid env) else log_file.

Definition out_file : txt := text "out.c".

Definition out_init (log_prefix log_level_var log_file_var : txt) (major_version minor_version : Z) : M unit :=
  let! once := gets o_once in
  if once then ret tt
  else
    upd_out set_once ;;;
    upd_out (set_prefix log_prefix) ;;;
    emit (Puts StdOut (text "[PMLib] WARNING: Logging is enabled!" ++ newline)) ;;;
    (match getenv env log_level_var with
     | None => ret tt
     | Some v => upd_out (set_level (Z.max 0 (atoi v)))
     end) ;;;
    (match getenv env log_file_var with
     | None => ret tt
     | Some v =>
         let log_file := log_file_name v in
         match fopen_error env log_file with
         | None => emit (FOpen log_file) ;;; upd_out (set_fp (LogFile log_file))
         | Some e =>
           upd_out (set_errno e) ;;;
           emit (Puts StdErr (text "Error (" ++ log_prefix ++ text "): " ++ log_file_var ++ text "=" ++
                   log_file ++ text ": " ++ strerror env e ++ newline)) ;;;
           fail Exits
         end
     end) ;;;
    let! fp := gets Out_fp in
    when (bool_decide (fp = None)) (upd_out (set_fp StdErr)) ;;;
    let! name := getexecname in
    LOG (out_file, 138, text "out_init") 1 (Some (text "pid %d: program: %s")) [AInt (getpid env); AStr name] ;;;
    LOG (out_file, 139, text "out_init") 1 (Some (text "%s version %d.%d"))
      [AStr log_prefix; AInt major_version; AInt minor_version] ;;;
    LOG (out_file, 140, text "out_init") 1 (Some (text "src version %s")) [AStr nvml_src_version].

Definition out_fini : M unit :=
  let! fp := gets Out_fp in
  match fp with
  | Some (LogFile f) => emit (FClose f) ;;; upd_out (set_fp StdErr)
  | Some StdOut => emit (FClose (text "stdout")) ;;; upd_out (set_fp StdErr)
  | _ => ret tt
  end.

Definition out_set_print_func (print_func : Z) : M unit :=
  LOG (out_file, 184, text "out_set_print_func") 3 (Some (text "print %p")) [APtr print_func] ;;;
  upd_out (set_print print_func).

(** The function is known by its address. *)
Definition out_set_vsnprintf_func (addr : Z) (f : vsnprintf_fn) : M unit :=
  LOG (out_file, 196, text "out_set_vsnprintf_func") 3 (Some (text "vsnprintf %p")) [APtr addr] ;;;
  upd_out (set_vsnprintf (if addr =? 0 then None else Some (addr, f))).
End out.

(** ** The line buffer *)

(** [buf] holds the text [s], cut off at the end of the buffer. *)
Definition cut (s : txt) : txt := take (Z.to_nat (MAXPRINT - 1)) s.
Definition shows (buf : buffer) (s : txt) : Prop :=
  zlen buf = MAXPRINT /\ exists rest, buf = (Some <$> cut s ++ [NUL]) ++ rest.
Definition holds (buf : buffer) (s : txt) : Prop := shows buf s \/ (s = [] /\ buf = new_buffer).

Lemma zlen_take {A} (l : list A) n : 0 <= n -> zlen (take (Z.to_nat n) l) = Z.min n (zlen l).
Proof. intros Hn. unfold zlen. rewrite length_take. lia. Qed.
Lemma zlen_fmap {A B} (f : A -> B) (l : list A) : zlen (f <$> l) = zlen l.
Proof. unfold zlen. by rewrite length_fmap. Qed.

Lemma holds_zlen buf s : holds buf s -> zlen buf = MAXPRINT.
Proof. intros [[H _]|[_ ->]]; [done|]. unfold new_buffer, zlen. by rewrite length_replicate. Qed.

Lemma holds_take buf s : holds buf s -> zlen s < MAXPRINT -> take (Z.to_nat (zlen s)) buf = Some <$> s.
Proof.
  intros [[Hl [rest ->]]|[-> ->]] Hs; [|done]. unfold cut. rewrite (take_ge s) by (unfold zlen, MAXPRINT in *; lia).
  rewrite fmap_app, <- app_assoc, take_app_length'; [done|]. unfold zlen. rewrite length_fmap. lia.
Qed.

Lemma cut_app s t : zlen s < MAXPRINT -> cut (s ++ t) = s ++ take (Z.to_nat (MAXPRINT - zlen s - 1)) t.
Proof.
  intros Hs. unfold cut. rewrite take_app, take_ge by (unfold zlen in *; lia). do 2 f_equal. unfold zlen in *. lia.
Qed.

Lemma buf_text_app s rest : NUL ∉ s -> buf_text ((Some <$> s ++ [NUL]) ++ rest) = Some s.
Proof.
  induction s as [|c s IH]; intros Hn; [done|]. apply not_elem_of_cons in Hn as [Hc Hn].
  change ((Some <$> (c :: s) ++ [NUL]) ++ rest) with (Some c :: (Some <$> s ++ [NUL]) ++ rest).
  cbn [buf_text]. rewrite bool_decide_false by congruence. by rewrite IH.
Qed.

Lemma shows_text buf s : shows buf s -> NUL ∉ s -> buf_text buf = Some (cut s).
Proof.
  intros [_ [rest ->]] Hn. apply buf_text_app. intros Hin. apply Hn. unfold cut in Hin.
  rewrite <- (take_drop (Z.to_nat (MAXPRINT - 1)) s). apply elem_of_app. by left.
Qed.

(** Printing behind [s], when it has not run over the buffer, and when it has. *)
Lemma print_at_ok buf s fmt args t st :
  Vsnprintf st = None -> vformat fmt args = Some t -> holds buf s -> zlen s <= MAXPRINT ->
  exists buf', print_at buf (zlen s) fmt args st = Ok (buf', zlen t) st /\ shows buf' (s ++ t).
Proof.
  intros Hv Hf Hh Hs. pose proof (holds_zlen _ _ Hh) as Hl. pose proof (zlen_nonneg s) as Hs0. pose proof (zlen_nonneg t) as Ht0.
  unfold print_at, bind, gets. rewrite Hv. unfold vsnprintf. rewrite Hf. simpl.
  assert (Hu : u64 (MAXPRINT - zlen s) = MAXPRINT - zlen s).
  { unfold u64, MAXPRINT in *. apply Z.mod_small. lia. }
  rewrite Hu. unfold snprintf_bytes. destruct (Z.eqb_spec (MAXPRINT - zlen s) 0) as [E|E].
  - simpl. eexists. split; [done|]. destruct Hh as [[_ [rest ->]]|[-> ->]]; [|by unfold MAXPRINT, zlen in E; simpl in E].
    split; [done|]. exists rest. do 2 f_equal. unfold cut. f_equal. rewrite take_app_le; [done|]. unfold zlen, MAXPRINT in *. lia.
  - assert (Hlt : zlen s < MAXPRINT) by lia. unfold buf_store.
    rewrite bool_decide_false by (by destruct (take _ t)).
    set (bs := take (Z.to_nat (MAXPRINT - zlen s - 1)) t ++ [NUL]).
    assert (Hb : zlen bs <= MAXPRINT - zlen s).
    { unfold bs. rewrite zlen_app, zlen_take by lia. change (zlen [NUL]) with 1. lia. }
    rewrite (proj2 (andb_true_iff _ _)) by (rewrite !Z.leb_le, Hl; lia). simpl. eexists. split; [done|].
    rewrite (holds_take _ _ Hh Hlt), app_assoc, <- fmap_app. split.
    + rewrite zlen_app, zlen_fmap, zlen_app. unfold zlen at 3. rewrite length_drop. unfold zlen in *. lia.
    + exists (drop (Z.to_nat (zlen s + zlen bs)) buf). unfold bs. by rewrite cut_app, !app_assoc.
Qed.

Lemma print_at_over buf (s fmt : txt) args t st :
  Vsnprintf st = None -> vformat fmt args = Some t -> zlen buf = MAXPRINT -> MAXPRINT < zlen s -> zlen s < 2 ^ 31 ->
  print_at buf (zlen s) fmt args st = Fail OutOfBounds st.
Proof.
  intros Hv Hf Hl Hs Hs'. unfold print_at, bind, gets. rewrite Hv. unfold vsnprintf. rewrite Hf. simpl.
  unfold snprintf_bytes. destruct (Z.eqb_spec (u64 (MAXPRINT - zlen s)) 0) as [E|E].
  { unfold u64 in E. apply Z.mod_divide in E as [k Hk]; [|done]. unfold MAXPRINT in *. lia. }
  unfold buf_store. rewrite bool_decide_false by (by destruct (take _ t)).
  match goal with |- context [if ?b then _ else _] => destruct b eqn:Eb end; [|done].
  apply andb_true_iff in Eb as [_ Eb%Z.leb_le]. pose proof (zlen_nonneg (take (Z.to_nat (u64 (MAXPRINT - zlen s) - 1)) t ++ [NUL])). lia.
Qed.

(** ** The lines *)

(** What [out_common] puts before and behind the formatted text. *)
Definition line_prefix (place : option (txt * Z * txt)) (pre : txt) (level : Z) : txt :=
  match place with
  | None => []
  | Some (file, line, func) =>
      text "<" ++ pre ++ text ">: <" ++ dec level ++ text "> [" ++ file ++ text ":" ++ dec line ++ text " " ++
      func ++ text "] "
  end.
Definition reports_errno (fmt : txt) : bool :=
  match fmt with c :: _ => bool_decide (c = "!"%char) | [] => false end.
Definition line_suffix (env : oenv) (fmt : txt) (err : Z) (suffix : txt) : txt :=
  if reports_errno fmt then text ": " ++ strerror env err ++ suffix else suffix.

Lemma vformat_prefix pre level file line func :
  vformat (text "<%s>: <%d> [%s:%d %s] ") [AStr pre; AInt level; AStr file; AInt line; AStr func] =
  Some (line_prefix (Some (file, line, func)) pre level).
Proof. cbn. by rewrite <- ?app_assoc. Qed.

Lemma vformat_suffix a b c : vformat (text "%s%s%s") [AStr a; AStr b; AStr c] = Some (a ++ b ++ c).
Proof. cbn. by rewrite app_nil_r. Qed.

Lemma call_print_errno line s : 
  match call_print line s with Ok _ s' => o_errno s' = o_errno s | Fail _ _ => True end.
Proof.
  unfold call_print, out_print_func, bind, gets. destruct (Print s =? 0); [|done].
  by destruct (Out_fp s).
Qed.

(** The last print of [out_common], and what follows it. *)
Lemma finish_line env buf head fmt err suffix s :
  Vsnprintf s = None -> holds buf head -> zlen head <= MAXPRINT ->
  NUL ∉ head ++ line_suffix env fmt err suffix ->
  (let! r := print_at buf (zlen head) (text "%s%s%s")
     [AStr (if reports_errno fmt then text ": " else []); AStr (if reports_errno fmt then strerror env err else []); AStr suffix] in
   let! line := from_opt Uninit (buf_text r.1) in
   call_print line ;;; upd_out (set_errno (o_errno s))) s =
  call_print (cut (head ++ line_suffix env fmt err suffix)) s.
Proof.
  intros Hv Hh Hl Hn.
  edestruct (print_at_ok buf head) as (buf' & E & Hs); [exact Hv|apply vformat_suffix|exact Hh|exact Hl|].
  rewrite (bind_run _ _ _ _ _ E). cbn [fst].
  assert (El : (if reports_errno fmt then text ": " else []) ++
    (if reports_errno fmt then strerror env err else []) ++ suffix = line_suffix env fmt err suffix).
  { unfold line_suffix. by destruct (reports_errno fmt). }
  rewrite El in Hs. rewrite (shows_text _ _ Hs Hn). unfold bind at 1, from_opt, ret. unfold bind.
  pose proof (call_print_errno (cut (head ++ line_suffix env fmt err suffix)) s) as Herr.
  destruct (call_print _ s) as [[] s'|]; [|done]. unfold upd_out, modify. rewrite <- Herr. by destruct s'.
Qed.

(** ** Properties *)

(** C39 A line of the log: prefix, formatted text, the message of [errno] when
    the format starts with [!], and the end.  As long as prefix and text fill
    at most the buffer the line is printed, cut to 8191 characters, and
    [errno] is kept.  When they are longer the terminating bytes are stored
    behind the buffer: the length [vsnprintf] returns is what it would have
    written, and [MAXPRINT - cc] becomes a huge size. *)
Theorem out_common_correct env place level suffix fmt ap s pre t :
  Vsnprintf s = None -> Log_prefix s = Some pre ->
  vformat (if reports_errno fmt then tail fmt else fmt) ap = Some t ->
  NUL ∉ line_prefix place pre level ++ t ++ line_suffix env fmt (o_errno s) suffix ->
  (zlen (line_prefix place pre level ++ t) <= MAXPRINT ->
     out_common env place level suffix (Some fmt) ap s =
     call_print (cut (line_prefix place pre level ++ t ++ line_suffix env fmt (o_errno s) suffix)) s) /\
  (MAXPRINT < zlen (line_prefix place pre level ++ t) < 2 ^ 31 ->
     out_common env place level suffix (Some fmt) ap s = Fail OutOfBounds s).
Proof.
  intros Hv Hp Hf Hn. set (head := line_prefix place pre level) in *.
  assert (Hfirst : exists buf,
    (match place with
     | None => ret (new_buffer, 0)
     | Some (file, line, func) =>
         let! p := gets Log_prefix in
         let! prefix := from_opt NullDeref p in
         print_at new_buffer 0 (text "<%s>: <%d> [%s:%d %s] ")
           [AStr prefix; AInt level; AStr file; AInt line; AStr func]
     end) s = Ok (buf, zlen head) s /\ holds buf head).
  { assert (Hbuf : holds new_buffer []) by (by right).
    destruct place as [[[file line] func]|]; [|by exists new_buffer].
    unfold bind at 1, gets. rewrite Hp. unfold bind, from_opt, ret.
    edestruct (print_at_ok new_buffer []) as (buf & E & Hs); [exact Hv|apply vformat_prefix|exact Hbuf|done|].
    exists buf. split; [exact E|by left]. }
  destruct Hfirst as (buf & E1 & Hh). unfold out_common. rewrite (bind_run _ _ _ _ _ (eq_refl : gets o_errno s = Ok (o_errno s) s)).
  rewrite (bind_run _ _ _ _ _ E1). fold (reports_errno fmt). rewrite zlen_app. pose proof (zlen_nonneg t) as Ht.
  destruct (Z.leb_spec (zlen head) MAXPRINT) as [Hl|Hl].
  - destruct (print_at_ok buf head _ ap t s Hv Hf Hh Hl) as (buf2 & E2 & Hs2).
    match goal with |- context [bind (bind (print_at _ _ _ _) ?k) _] => assert (E3 : bind (print_at buf (zlen head) (if reports_errno fmt then tail fmt else fmt) ap) k s =
      Ok (buf2, zlen (head ++ t), if reports_errno fmt then text ": " else [],
          if reports_errno fmt then strerror env (o_errno s) else []) s) end.
    { rewrite (bind_run _ _ _ _ _ E2), zlen_app. done. }
    rewrite (bind_run _ _ _ _ _ E3). rewrite app_assoc in Hn. split; intros Hlen.
    + rewrite app_assoc. apply finish_line; [done|by left|by rewrite zlen_app|done].
    + apply bind_fail. eapply print_at_over; [done|apply vformat_suffix|apply Hs2|rewrite zlen_app; lia|rewrite zlen_app; lia].
  - split; intros Hlen; [lia|]. apply bind_fail, bind_fail.
    eapply print_at_over; [done|exact Hf|by eapply holds_zlen|lia|lia].
Qed.

(** A process with two variables set, and a log line whose text is as long as
    the buffer and one more. *)
Definition demo_env : oenv := OEnv
  (fun v => if bool_decide (v = text "PMLIB_LOG_LEVEL") then Some (text " 2x")
            else if bool_decide (v = text "PMLIB_LOG_FILE") then Some (text "/tmp/log-") else None)
  42 (Some (text "/bin/app")) (fun _ => None) (fun _ => text "No such file").
Definition demo_out : ost := Ost (Some (text "[PMLIB]")) 0 (Some StdErr) true 0 None 0 [].

Lemma out_common_correct_witness :
  out_common demo_env None 0 newline (Some (text "%s")) [AStr (replicate 8193 "a"%char)] demo_out = Fail OutOfBounds demo_out /\
  out_common demo_env None 0 newline (Some (text "!%s")) [AStr (text "open")] demo_out =
    Ok tt (Ost (Some (text "[PMLIB]")) 0 (Some StdErr) true 0 None 0 [Puts StdErr (text "open: No such file" ++ newline)]).
Proof.
  split.
  - eapply (out_common_correct demo_env None 0 newline (text "%s") _ demo_out (text "[PMLIB]") (replicate 8193 "a"%char)); [done|done|done| |done].
    apply c_string_ok. vm_compute. reflexivity.
  - destruct (out_common_correct demo_env None 0 newline (text "!%s") [AStr (text "open")] demo_out (text "[PMLIB]") (text "open")) as [E _];
      [reflexivity|reflexivity|reflexivity|apply c_string_ok; reflexivity|].
    rewrite E by done. reflexivity.
Defined.

(** A line above the level of the log changes nothing. *)
Lemma out_log_quiet env place level fmt ap s :
  Log_level s < level -> out_log env place level fmt ap s = Ok tt s.
Proof. intros Hl. unfold out_log, bind, gets. by rewrite (proj2 (Z.ltb_lt _ _) Hl). Qed.

Lemma out_nonl_quiet env level fmt ap s :
  Log_level s < level -> out_nonl env level fmt ap s = Ok tt s.
Proof. intros Hl. unfold out_nonl, bind, gets. by rewrite (proj2 (Z.ltb_lt _ _) Hl). Qed.

(** The level and the stream [out_init] sets. *)
Definition init_level (env : oenv) (var : txt) (level : Z) : Z :=
  match getenv env var with Some v => Z.max 0 (atoi v) | None => level end.
Definition init_stream (env : oenv) (var : txt) (fp : option stream) : stream :=
  match getenv env var with
  | Some v => LogFile (log_file_name env v)
  | None => default StdErr fp
  end.

(** [getexecname] succeeds for paths shorter than [PATH_MAX]. *)
Lemma getexecname_ok env s :
  ((exists path, readlink_exe env = Some path /\ PATH_MAX <= zlen path) -> getexecname env s = Fail OutOfBounds s) /\
  ((forall path, readlink_exe env = Some path -> zlen path < PATH_MAX) -> exists name, getexecname env s = Ok name s).
Proof.
  assert (Ht : forall path : txt, zlen (take (Z.to_nat PATH_MAX) path) = Z.min PATH_MAX (zlen path)).
  { intros path. by apply zlen_take. }
  unfold getexecname. split.
  - intros (path & -> & Hp). rewrite Ht. destruct (Z.ltb_spec (Z.min PATH_MAX (zlen path)) PATH_MAX); [lia|done].
  - intros Hp. destruct (readlink_exe env) as [path|]; [|by eexists]. specialize (Hp path eq_refl). rewrite Ht.
    destruct (Z.ltb_spec (Z.min PATH_MAX (zlen path)) PATH_MAX); [by eexists|lia].
Qed.

(** [out_init] takes effect once.  The first call sets the prefix, the level
    ([atoi] of the variable, at least 0) and the stream: the file the variable
    names, with the process id behind a final [-], and standard error without
    a variable.  It ends the process when the file cannot be opened, and
    stores behind [namepath] when the path of the program has [PATH_MAX]
    characters.  At level 0 it writes nothing but the warning. *)
Theorem out_init_correct env prefix lv fv maj min s :
  (o_once s = true -> out_init env prefix lv fv maj min s = Ok tt s) /\
  (o_once s = false ->
     (forall v e, getenv env fv = Some v -> fopen_error env (log_file_name env v) = Some e ->
        exists s', out_init env prefix lv fv maj min s = Fail Exits s') /\
     ((forall v, getenv env fv = Some v -> fopen_error env (log_file_name env v) = None) ->
        ((exists path, readlink_exe env = Some path /\ PATH_MAX <= zlen path) ->
           exists s', out_init env prefix lv fv maj min s = Fail OutOfBounds s') /\
        ((forall path, readlink_exe env = Some path -> zlen path < PATH_MAX) ->
           init_level env lv (Log_level s) < 1 ->
           out_init env prefix lv fv maj min s =
           Ok tt (Ost (Some prefix) (init_level env lv (Log_level s)) (Some (init_stream env fv (Out_fp s))) true
                    (Print s) (Vsnprintf s) (o_errno s)
                    (o_events s ++ [Puts StdOut (text "[PMLib] WARNING: Logging is enabled!" ++ newline)] ++
                     match getenv env fv with Some v => [FOpen (log_file_name env v)] | None => [] end))))).
Proof.
  split; [intros Ho; unfold out_init, bind, gets; by rewrite Ho|]. intros Ho.
  unfold out_init. rewrite (bind_run _ _ _ _ _ (eq_refl : gets o_once s = Ok (o_once s) s)), Ho.
  unfold upd_out, emit. rewrite !(bind_run _ _ _ _ _ (eq_refl : modify _ _ = Ok tt _)).
  set (s1 := add_event _ _).
  assert (Elv : (match getenv env lv with None => ret tt | Some v => modify (set_level (Z.max 0 (atoi v))) end) s1 =
    Ok tt (set_level (init_level env lv (Log_level s)) s1)).
  { unfold init_level. by destruct (getenv env lv). }
  rewrite (bind_run _ _ _ _ _ Elv). set (s2 := set_level _ s1). split.
  { intros v e -> Hf. rewrite Hf. by eexists. }
  intros Hopen.
  set (s3 := Ost (Some prefix) (init_level env lv (Log_level s)) (Some (init_stream env fv (Out_fp s))) true
    (Print s) (Vsnprintf s) (o_errno s) (o_events s ++ [Puts StdOut (text "[PMLib] WARNING: Logging is enabled!" ++ newline)] ++
       match getenv env fv with Some v => [FOpen (log_file_name env v)] | None => [] end)).
  assert (Hrun : forall Q k,
    (k s3 : outcome ost unit) = Q ->
    (bind (match getenv env fv with
           | None => ret tt
           | Some v =>
               match fopen_error env (log_file_name env v) with
               | None => bind (modify (add_event (FOpen (log_file_name env v)))) (fun _ => modify (set_fp (LogFile (log_file_name env v))))
               | Some e => bind (modify (set_errno e)) (fun _ => bind (modify (add_event (Puts StdErr (text "Error (" ++ prefix ++ text "): " ++
                   fv ++ text "=" ++ log_file_name env v ++ text ": " ++ strerror env e ++ newline)))) (fun _ => fail Exits))
               end
           end) (fun _ => bind (gets Out_fp) (fun fp => bind (when (bool_decide (fp = None)) (modify (set_fp StdErr))) (fun _ => k)))) s2 = Q).
  { intros Q k Hk. subst Q. unfold bind at 1, init_stream, s3, init_stream. destruct (getenv env fv) as [v|] eqn:Ev.
    - rewrite (Hopen v eq_refl). unfold s2, s1. cbn -[text newline app]. unfold set_fp, add_event, set_level, set_prefix, set_once.
      cbn [o_events Print Vsnprintf o_errno Log_level Log_prefix Out_fp o_once]. by rewrite <- app_assoc.
    - unfold s2, s1. destruct (Out_fp s) eqn:Ef; cbn -[text newline app]; rewrite ?Ef;
        unfold set_fp, add_event, set_level, set_prefix, set_once; cbn -[text newline app]; by rewrite ?Ef, ?app_nil_r. }
  split.
  - intros Hp. eexists. apply Hrun, bind_fail. by apply getexecname_ok.
  - intros Hp Hl. apply Hrun. destruct (proj2 (getexecname_ok env s3) Hp) as [name En].
    rewrite (bind_run _ _ _ _ _ En). unfold LOG.
    by rewrite !(bind_run _ _ _ _ _ (out_log_quiet env _ 1 _ _ s3 Hl)), out_log_quiet.
Qed.

Definition quiet_env : oenv := OEnv (fun _ => None) 42 None (fun _ => None) (fun _ => []).

Lemma out_init_correct_witness :
  out_init quiet_env (text "[PMLIB]") (text "PMLIB_LOG_LEVEL") (text "PMLIB_LOG_FILE") 0 1 out_boot =
    Ok tt (Ost (Some (text "[PMLIB]")) 0 (Some StdErr) true 0 None 0
             [Puts StdOut (text "[PMLib] WARNING: Logging is enabled!" ++ newline)]) /\
  (let long := OEnv (fun _ => None) 42 (Some (replicate 4096 "a"%char)) (fun _ => None) (fun _ => []) in
   exists s', out_init long (text "[PMLIB]") (text "L") (text "F") 0 1 out_boot = Fail OutOfBounds s').
Proof.
  split.
  - destruct (out_init_correct quiet_env (text "[PMLIB]") (text "PMLIB_LOG_LEVEL") (text "PMLIB_LOG_FILE") 0 1 out_boot) as [_ H].
    destruct (H eq_refl) as [_ H1]. destruct H1 as [_ H2]; [by intros|]. rewrite H2; [reflexivity|by intros|reflexivity].
  - intros long. destruct (out_init_correct long (text "[PMLIB]") (text "L") (text "F") 0 1 out_boot) as [_ H].
    destruct (H eq_refl) as [_ H1]. destruct H1 as [H2 _]; [by intros|]. apply H2. eexists. split; [reflexivity|].
    vm_compute. discriminate.
Defined.

(** A session with a log file at level 2: the name gets the process id, [atoi]
    stops at the first character that is no digit, and lines above level 2 do
    not appear. *)
Definition out_session : M ost unit :=
  out_init demo_env (text "[PMLIB]") (text "PMLIB_LOG_LEVEL") (text "PMLIB_LOG_FILE") 0 1 ;;;
  LOG demo_env (text "cont.c", 57, text "container_init") 3 None [] ;;;
  LOG demo_env (text "slab.c", 7, text "f") 2 (Some (text "at %p")) [APtr 255] ;;;
  ASSERTeq demo_env (text "slab.c", 8, text "f") 2 2 (text "a") (text "b") ;;;
  out_fini.

Lemma out_session_events :
  match out_session out_boot with Ok _ s => Some (o_events s) | Fail _ _ => None end =
  let log s := Puts (LogFile (text "/tmp/log-42")) (text s ++ newline) in
  Some [Puts StdOut (text "[PMLib] WARNING: Logging is enabled!" ++ newline); FOpen (text "/tmp/log-42");
        log "<[PMLIB]>: <1> [out.c:138 out_init] pid 42: program: /bin/app"%string;
        log "<[PMLIB]>: <1> [out.c:139 out_init] [PMLIB] version 0.1"%string;
        log "<[PMLIB]>: <1> [out.c:140 out_init] src version SRCVERSION:"%string;
        log "<[PMLIB]>: <2> [slab.c:7 f] at 0xff"%string; FClose (text "/tmp/log-42")].
Proof. vm_compute. reflexivity. Qed.
