(* ===== verification/Cache.v ===== *)
(** * Cache lines and durability: [src/atomics.h], [src/atomics.c]

    Persistent memory behind a cache: the program reads and writes [c_mem];
    [c_dur] is what a power failure leaves.  A line of 64 bytes gets from one
    to the other when [clflush] is executed on an address in it (or when the
    cache evicts it, which nobody may rely on).

    The macros [flush] and [simflush] hand [asm] the operand ["m" (addr)], where
    [addr] is a pointer variable: the instruction works on the place of the
    variable, its argument [loc] here, and not on what it points to. *)
From Stdlib Require Import ZArith Lia.
From stdpp Require Import base numbers list.
From S2P Require Import Prelude Macros Hash Process.
Open Scope Z_scope.

Record cpu := Cpu { c_mem : Z -> Z; c_dur : Z -> Z; c_stats : global_stats }.
Notation M := (M cpu).

Definition line_of (a : Z) : Z := ROUND_DWNCL a.

Definition c_load (a : Z) (n : nat) (s : cpu) : list Z := map (fun i => c_mem s (a + Z.of_nat i)) (seq 0 n).
Definition c_store (a v : Z) : M unit :=
  modify (fun s => Cpu (fun x => if x =? a then v else c_mem s x) (c_dur s) (c_stats s)).
Fixpoint c_store_bytes (a : Z) (l : list Z) : M unit :=
  match l with
  | [] => ret tt
  | v :: l' => c_store a v ;;; c_store_bytes (a + 1) l'
  end.

(** The line of [a] is written back. *)
Definition clflush (a : Z) : M unit :=
  modify (fun s => Cpu (c_mem s) (fun x => if line_of x =? line_of a then c_mem s x else c_dur s x) (c_stats s)).

(** A store of [n] bytes past the cache. *)
Definition movnti (a : Z) (l : list Z) : M unit :=
  c_store_bytes a l ;;;
  modify (fun s => Cpu (c_mem s) (fun x => if (a <=? x) && (x <? a + zlen l) then c_mem s x else c_dur s x) (c_stats s)).

Definition sfence : M unit := ret tt.

Definition power_loss (s : cpu) : cpu := Cpu (c_dur s) (c_dur s) (c_stats s).

Definition c_STATS_INC_FLUSH : M unit :=
  modify (fun s => Cpu (c_mem s) (c_dur s) (__INC_BOTH cpu_cache_flushes (c_stats s))).

(** ** The macros; [loc] is the address of the variable [addr] *)
Definition flush (loc : Z) (fence : bool) : M unit :=
  c_STATS_INC_FLUSH ;;;
  clflush loc ;;;
  when fence sfence.

Definition simflush (loc : Z) : M unit :=
  c_STATS_INC_FLUSH ;;;
  let! tmp := gets (c_load loc 8) in
  movnti loc tmp.

Definition simflush_fence (loc : Z) : M unit := simflush loc ;;; sfence.

(** A pointer variable is assigned. *)
Definition set_local (loc v : Z) : M unit := c_store_bytes loc (le_bytes 8 v).

(** [bitarray] is a field of [n] bytes at [a]. *)
Definition c_update (n : nat) (a : Z) (f : Z -> Z) : M unit :=
  let! l := gets (c_load a n) in
  c_store_bytes a (le_bytes n (f (le_value l))).

Definition atomic_set_flag (loc : Z) (n : nat) (bitarray flag : Z) : M unit :=
  c_update n bitarray (fun x => set_flag x flag) ;;;
  set_local loc bitarray ;;;
  flush loc true.

Definition atomic_clear_flag (loc : Z) (n : nat) (bitarray flag : Z) : M unit :=
  c_update n bitarray (fun x => clear_flag x flag) ;;;
  set_local loc bitarray ;;;
  flush loc true.

Definition atomic_set (loc ptr val : Z) : M unit :=
  set_local loc ptr ;;;
  c_store_bytes ptr (le_bytes 8 val) ;;;
  flush loc true.

(** The loop of [flush_memsegment] with the instruction to execute for [itr],
    the variable at [loc]. *)
Fixpoint flush_loop (fuel : nat) (fl : Z -> M unit) (loc itr high : Z) : M unit :=
  match fuel with
  | O => fail Diverges
  | S fuel' =>
      set_local loc itr ;;;
      if itr <? high then fl itr ;;; flush_loop fuel' fl loc (itr + CACHE_LINE_SIZE) high
      else ret tt
  end.

Definition flush_segment_with (fl : Z -> M unit) (loc src n : Z) : M unit :=
  let low := itop (ROUND_DWNCL (ptoi src)) in
  let high := itop (ROUND_UPCL (ptoi src + n)) in
  flush_loop (Z.to_nat (n / CACHE_LINE_SIZE + 3)) fl loc low high.

Definition c_flush_memsegment (loc src n : Z) (fence : bool) : M unit :=
  flush_segment_with (fun _ => flush loc fence) loc src n.

(** [memcpy] between areas that do not overlap. *)
Definition c_memcpy (dest src n : Z) : M unit :=
  let! l := gets (c_load src (Z.to_nat n)) in
  c_store_bytes dest l.

Definition c_pmemcpy (loc dest src n : Z) : M Z :=
  c_memcpy dest src n ;;;
  c_flush_memsegment loc dest n false ;;;
  ret dest.

(** ** What the instructions do *)
Lemma line_of_eq a : line_of a = a - a mod 64.
Proof. unfold line_of, ROUND_DWNCL. by mask 6. Qed.

(** The bytes of an aligned variable are in one line. *)
Lemma line_of_var loc i : loc mod 8 = 0 -> 0 <= i < 8 -> line_of (loc + i) = line_of loc.
Proof.
  intros Hl Hi. rewrite !line_of_eq. pose proof (Z.div_mod loc 8). pose proof (Z.div_mod loc 64).
  pose proof (Z.mod_pos_bound loc 64).
  assert (E : (loc + i) mod 64 = loc mod 64 + i); [|lia].
  symmetry. apply (Z.mod_unique _ _ (loc / 64)); [|lia].
  left. assert (exists k, loc mod 64 = 8 * k) as [k Hk]; [exists (loc / 8 - 8 * (loc / 64)); lia|]. lia.
Qed.

(** [m] stores nothing outside [mem_ok] and writes nothing back outside
    [dur_ok]. *)
Definition confined {A} (mem_ok dur_ok : Z -> Prop) (m : M A) : Prop :=
  forall s, wp m (fun _ s' => (forall x, ~ mem_ok x -> c_mem s' x = c_mem s x) /\
                              (forall x, ~ dur_ok x -> c_dur s' x = c_dur s x)) s.

Lemma confined_ret {A} P D (a : A) : confined P D (ret a).
Proof. intros s. by apply wp_ret. Qed.

Lemma confined_bind {A B} P D (m : M A) (k : A -> M B) :
  confined P D m -> (forall a, confined P D (k a)) -> confined P D (bind m k).
Proof.
  intros Hm Hk s. apply wp_bind. eapply wp_mono; [apply Hm|]. intros a s1 [M1 D1].
  eapply wp_mono; [apply Hk|]. intros b s2 [M2 D2]. split; intros x Hx; [by rewrite M2, M1|by rewrite D2, D1].
Qed.

Lemma confined_gets {A} P D (f : cpu -> A) : confined P D (gets f).
Proof. intros s. by apply wp_gets. Qed.

Lemma confined_stat P D : confined P D c_STATS_INC_FLUSH.
Proof. intros s. by apply wp_modify. Qed.

Lemma confined_clflush P (D : Z -> Prop) a : (forall x, line_of x = line_of a -> D x) -> confined P D (clflush a).
Proof.
  intros HD s. apply wp_modify. split; [done|]. intros x Hx. simpl.
  destruct (Z.eqb_spec (line_of x) (line_of a)); [by destruct Hx; apply HD|done].
Qed.

Lemma confined_store_bytes (P : Z -> Prop) D a l :
  (forall x, a <= x < a + zlen l -> P x) -> confined P D (c_store_bytes a l).
Proof.
  revert a. induction l as [|v l IH]; intros a HP; [apply confined_ret|]. simpl. apply confined_bind.
  - intros s. apply wp_modify. split; [|done]. intros x Hx. simpl. destruct (Z.eqb_spec x a) as [->|]; [|done].
    destruct Hx. apply HP. unfold zlen. simpl. lia.
  - intros _. apply IH. intros x Hx. apply HP. unfold zlen in *. simpl. lia.
Qed.

Lemma zlen_le_bytes n v : zlen (le_bytes n v) = Z.of_nat n.
Proof. unfold zlen. by rewrite length_le_bytes. Qed.

(** A flush writes back the line of its variable only. *)
Lemma confined_flush P loc fence : confined P (fun x => line_of x = line_of loc) (flush loc fence).
Proof.
  apply confined_bind; [apply confined_stat|intros _]. apply confined_bind; [by apply confined_clflush|].
  intros _. destruct fence; apply confined_ret.
Qed.

Lemma confined_set_local (P : Z -> Prop) D loc v : (forall x, loc <= x < loc + 8 -> P x) -> confined P D (set_local loc v).
Proof. intros HP. apply confined_store_bytes. intros x. rewrite zlen_le_bytes. apply HP. Qed.

Lemma confined_flush_loop (P D : Z -> Prop) fuel fl loc itr high :
  (forall x, loc <= x < loc + 8 -> P x) -> (forall a, confined P D (fl a)) ->
  high - itr <= (Z.of_nat fuel - 1) * CACHE_LINE_SIZE -> (0 < fuel)%nat ->
  confined P D (flush_loop fuel fl loc itr high).
Proof.
  intros HP Hfl. revert itr. induction fuel as [|fuel IH]; intros itr Hh Hf; [lia|]. cbn [flush_loop].
  apply confined_bind; [by apply confined_set_local|intros _].
  destruct (Z.ltb_spec itr high); [|apply confined_ret]. apply confined_bind; [apply Hfl|intros _].
  unfold CACHE_LINE_SIZE in *. apply IH; lia.
Qed.

(** The bounds of the segment walk. *)
Lemma segment_bounds src n : 0 <= src -> 0 < n -> src + n + CACHE_LINE_SIZE_MASK < 2 ^ 64 ->
  let low := itop (ROUND_DWNCL (ptoi src)) in
  let high := itop (ROUND_UPCL (ptoi src + n)) in
  low = line_of src /\ src + n <= high <= src + n + CACHE_LINE_SIZE /\ high - low <= (Z.of_nat (Z.to_nat (n / CACHE_LINE_SIZE + 3)) - 1) * CACHE_LINE_SIZE.
Proof.
  intros Hs Hn Hmax. assert (Hhigh : ROUND_UPCL (src + n) = src + n + (64 - 1) - (src + n + (64 - 1)) mod 64).
  { unfold ROUND_UPCL, u64. rewrite wrap_id; [by mask 6|].
    unfold in_u, CACHE_LINE_SIZE_MASK, CACHE_LINE_SIZE in *. lia. }
  unfold ptoi, itop, CACHE_LINE_SIZE_MASK, CACHE_LINE_SIZE in *.
  assert (Eu : forall z, 0 <= z < 2 ^ 64 -> u64 z = z) by (intros; by apply wrap_id).
  pose proof (Z.mod_pos_bound src 64). pose proof (Z.div_mod src 64). pose proof (Z.mod_pos_bound (src + n + (64 - 1)) 64).
  pose proof (line_of_eq src) as El. unfold line_of in *. rewrite (Eu src), Hhigh, El, !Eu by lia.
  pose proof (Z.div_mod n 64). pose proof (Z.mod_pos_bound n 64). pose proof (Z.div_pos n 64). pose proof (Z.div_mod (src + n + (64 - 1)) 64). cbv zeta. lia.
Qed.

Lemma confined_pmemcpy loc dest src n :
  0 <= dest -> 0 < n -> dest + n + CACHE_LINE_SIZE_MASK < 2 ^ 64 ->
  confined (fun x => dest <= x < dest + n \/ loc <= x < loc + 8) (fun x => line_of x = line_of loc) (c_pmemcpy loc dest src n).
Proof.
  intros Hd Hn Hmax. destruct (segment_bounds dest n Hd Hn Hmax) as (_ & _ & Hlen).
  apply confined_bind; [|intros _; apply confined_bind; [|intros _; apply confined_ret]].
  - intros s. unfold c_memcpy. apply wp_bind, wp_gets. apply confined_store_bytes. intros x. unfold zlen, c_load.
    rewrite length_map, length_seq. lia.
  - apply confined_flush_loop; [lia|intros _; apply confined_flush|exact Hlen|]. pose proof (Z.div_pos n CACHE_LINE_SIZE).
    unfold CACHE_LINE_SIZE in *. lia.
Qed.

Lemma confined_update (P : Z -> Prop) D n a f : (forall x, a <= x < a + Z.of_nat n -> P x) -> confined P D (c_update n a f).
Proof.
  intros HP. apply confined_bind; [apply confined_gets|intros l]. apply confined_store_bytes. intros x.
  rewrite zlen_le_bytes. apply HP.
Qed.

(** The macros and functions that are meant to make a change durable. *)
Inductive persist_op :=
  | PSetFlag (loc : Z) (n : nat) (bitarray flag : Z)
  | PClearFlag (loc : Z) (n : nat) (bitarray flag : Z)
  | PSet (loc ptr val : Z)
  | PFlushSegment (loc src n : Z) (fence : bool)
  | PMemcpy (loc dest src n : Z).

Definition run_persist_op (o : persist_op) : M unit :=
  match o with
  | PSetFlag loc n bitarray flag => atomic_set_flag loc n bitarray flag
  | PClearFlag loc n bitarray flag => atomic_clear_flag loc n bitarray flag
  | PSet loc ptr val => atomic_set loc ptr val
  | PFlushSegment loc src n fence => c_flush_memsegment loc src n fence
  | PMemcpy loc dest src n => let! _ := c_pmemcpy loc dest src n in ret tt
  end.

Definition op_loc (o : persist_op) : Z :=
  match o with
  | PSetFlag loc _ _ _ | PClearFlag loc _ _ _ | PSet loc _ _ | PFlushSegment loc _ _ _ | PMemcpy loc _ _ _ => loc
  end.

Definition op_ok (o : persist_op) : Prop :=
  match o with
  | PFlushSegment _ a n _ | PMemcpy _ a _ n => 0 <= a /\ 0 < n /\ a + n + CACHE_LINE_SIZE_MASK < 2 ^ 64
  | _ => True
  end.

Lemma confined_op o : op_ok o -> confined (fun _ => True) (fun x => line_of x = line_of (op_loc o)) (run_persist_op o).
Proof.
  assert (Hw : forall {A} (P P' D : Z -> Prop) (m : M A), (forall x, P x -> P' x) -> confined P D m -> confined P' D m).
  { intros A P P' D m HP Hm s. eapply wp_mono; [apply Hm|]. intros a s' [M1 D1]. split; [|done].
    intros x Hx. apply M1. intros Hp. by apply Hx, HP. }
  intros Ho. destruct o; cbn [run_persist_op op_loc op_ok] in *.
  - apply confined_bind; [by apply confined_update|intros _].
    apply confined_bind; [by apply confined_set_local|intros _; apply confined_flush].
  - apply confined_bind; [by apply confined_update|intros _].
    apply confined_bind; [by apply confined_set_local|intros _; apply confined_flush].
  - apply confined_bind; [by apply confined_set_local|intros _].
    apply confined_bind; [by apply confined_store_bytes|intros _; apply confined_flush].
  - destruct Ho as (H1 & H2 & H3). destruct (segment_bounds src n H1 H2 H3) as (_ & _ & Hlen).
    apply confined_flush_loop; [done|intros _; apply confined_flush|exact Hlen|].
    pose proof (Z.div_pos n CACHE_LINE_SIZE). unfold CACHE_LINE_SIZE in *. lia.
  - destruct Ho as (H1 & H2 & H3). apply confined_bind; [|intros _; apply confined_ret].
    eapply Hw; [|by apply confined_pmemcpy]. done.
Qed.

(** The flush the code means: on the line [itr] points to. *)
Definition pointee_flush (fence : bool) (itr : Z) : M unit :=
  c_STATS_INC_FLUSH ;;; clflush itr ;;; when fence sfence.

(** Lines from [low] on that have been flushed. *)
Lemma pointee_flush_loop fuel fence loc low itr high s :
  low mod 64 = 0 -> itr mod 64 = 0 -> low <= itr ->
  high - itr <= (Z.of_nat fuel - 1) * CACHE_LINE_SIZE -> (0 < fuel)%nat ->
  (forall x, low <= x < high + CACHE_LINE_SIZE -> line_of x <> line_of loc /\ ~ loc <= x < loc + 8) ->
  (forall x, low <= x < itr -> c_dur s x = c_mem s x) ->
  wp (flush_loop fuel (pointee_flush fence) loc itr high) (fun _ s' =>
    (forall x, low <= x < high -> c_dur s' x = c_mem s' x) /\
    (forall x, ~ loc <= x < loc + 8 -> c_mem s' x = c_mem s x)) s.
Proof.
  intros Hlow. revert itr s. induction fuel as [|fuel IH]; intros itr s Hitr Hle Hh Hf Hloc Hdur; [lia|]. cbn [flush_loop].
  unfold CACHE_LINE_SIZE in *. apply wp_bind.
  assert (Hset : confined (fun x => loc <= x < loc + 8) (fun _ => False) (set_local loc itr)) by by apply confined_set_local.
  eapply wp_mono; [apply Hset|]. intros [] s1 [M1 D1].
  assert (Hd1 : forall x, low <= x < itr -> x < high + 64 -> c_dur s1 x = c_mem s1 x).
  { intros x Hx Hxh. rewrite D1, M1 by (try (apply Hloc); lia || tauto). by apply Hdur. }
  destruct (Z.ltb_spec itr high) as [Hlt|Hge].
  - apply wp_bind. unfold pointee_flush. apply wp_bind, wp_modify. apply wp_bind, wp_modify.
    assert (Hfence : forall s2 Q, Q tt s2 -> wp (when fence sfence) Q s2) by (by intros s2 Q; destruct fence).
    apply Hfence. eapply wp_mono; [apply IH|].
    + rewrite <- Z.add_mod_idemp_r, Z.mod_same, Z.add_0_r by done. done.
    + lia.
    + lia.
    + lia.
    + done.
    + intros x Hx. simpl. destruct (Z.eqb_spec (line_of x) (line_of itr)) as [|E]; [done|]. apply Hd1; [|lia].
      rewrite !line_of_eq, Hitr in E. pose proof (Z.div_mod x 64). pose proof (Z.mod_pos_bound x 64).
      pose proof (Z.div_mod itr 64). destruct (Z.lt_ge_cases x itr); [lia|]. exfalso. apply E.
      assert (x / 64 = itr / 64) by nia. lia.
    + intros [] s' [H1 H2]. split; [done|]. intros x Hx. rewrite H2 by done. simpl. by rewrite M1.
  - apply wp_ret. split; [|intros x Hx; by rewrite M1]. intros x Hx. apply Hd1; lia.
Qed.

(** ** Properties *)

(** C20 None of the operations that are meant to make a change durable does so:
    after any sequence of them the bytes a power failure leaves are those from
    before, except in the lines of the pointer variables the macros declare.
    The same loop with [clflush] on the lines the variable points to would
    make the segment durable. *)
Theorem flush_misses_data ops s :
  Forall op_ok ops ->
  wp (forM ops run_persist_op) (fun _ s' =>
    forall x, Forall (fun o => line_of x <> line_of (op_loc o)) ops -> c_mem (power_loss s') x = c_dur s x) s /\
  (forall loc src n fence, op_ok (PFlushSegment loc src n fence) ->
     (forall x, line_of src <= x < src + n + 2 * CACHE_LINE_SIZE -> line_of x <> line_of loc /\ ~ loc <= x < loc + 8) ->
     wp (flush_segment_with (pointee_flush fence) loc src n) (fun _ s' =>
       forall x, src <= x < src + n -> c_mem (power_loss s') x = c_mem s x) s).
Proof.
  intros Hops. split.
  - revert s. induction Hops as [|o ops Ho Hops IH]; intros s; [by apply wp_ret|]. simpl. apply wp_bind.
    eapply wp_mono; [apply (confined_op o Ho)|]. intros [] s1 [_ D1]. eapply wp_mono; [apply IH|].
    intros [] s2 H2 x Hx. apply Forall_cons in Hx as [Hx1 Hx2]. transitivity (c_dur s1 x); [by apply H2|by apply D1].
  - intros loc src n fence (H1 & H2 & H3) Hloc. destruct (segment_bounds src n H1 H2 H3) as (Elow & Hhi & Hlen).
    unfold flush_segment_with. cbv zeta in *.
    pose proof (line_of_eq src) as Els. pose proof (Z.mod_pos_bound src 64). pose proof (Z.div_mod src 64).
    rewrite Elow. eapply wp_mono; [eapply pointee_flush_loop with (low := line_of src)|].
    + rewrite Els. apply Z.mod_divide; [done|]. exists (src / 64). lia.
    + rewrite Els. apply Z.mod_divide; [done|]. exists (src / 64). lia.
    + lia.
    + rewrite Elow in Hlen. exact Hlen.
    + pose proof (Z.div_pos n CACHE_LINE_SIZE). unfold CACHE_LINE_SIZE in *. lia.
    + intros x Hx. apply Hloc. unfold CACHE_LINE_SIZE in *. lia.
    + lia.
    + intros [] s' [Hd Hm] x Hx. simpl. rewrite Hd by lia. apply Hm, Hloc. unfold CACHE_LINE_SIZE in *. lia.
Qed.

(** A copy of 64 bytes and a store of a word: the program sees both, a power
    failure brings the zeros back. *)
Definition demo_cpu : cpu := Cpu (fun x => if 4096 <=? x then 5 else 0) (fun x => if 4096 <=? x then 5 else 0) GLOBAL_STATS.
Definition demo_persist : list persist_op := [PMemcpy 8192 0 4096 64; PSet 8192 64 7].

Lemma flush_misses_data_witness :
  exists s', forM demo_persist run_persist_op demo_cpu = Ok tt s' /\
    map (c_mem s') [0; 63; 64] = [5; 5; 7] /\ c_mem (power_loss s') 0 = 0 /\ c_mem (power_loss s') 64 = 0.
Proof.
  destruct (flush_misses_data demo_persist demo_cpu) as [H _].
  - repeat constructor; vm_compute; discriminate.
  - destruct (proj1 (wp_run _ _ _) H) as ([] & s' & E & Hd). exists s'. split; [exact E|]. split_and!.
    + clear H Hd. assert (Em : match forM demo_persist run_persist_op demo_cpu with
        | Ok _ s => map (c_mem s) [0; 63; 64] | Fail _ _ => [] end = [5; 5; 7]) by (vm_compute; reflexivity).
      rewrite E in Em. exact Em.
    + rewrite (Hd 0); [reflexivity|]. repeat constructor; vm_compute; discriminate.
    + rewrite (Hd 64); [reflexivity|]. repeat constructor; vm_compute; discriminate.
Defined.
