(* ===== verification/RBTree.v ===== *)
(** * Red-black trees: the [RB_*] macros of [src/utils/tree.h]

    A tree is a value: the shape, colours and elements reachable from
    [rbh_root] through [rbe_left] and [rbe_right].  A node pointer together
    with its [rbe_parent] chain is a position: a subtree and the path of
    frames from it up to the root ([zip] forgets the position).  Each
    generated function is translated case by case, the left and right
    variants included; following a NULL pointer is [None].

    [rb_tree] is the red-black invariant; [inorder] the abstract view. *)
From Stdlib Require Import ZArith Lia Sorted.
From stdpp Require Import base numbers sets option list.
From S2P Require Import Prelude.
Open Scope Z_scope.

Inductive color := RB_BLACK | RB_RED.

#[export] Instance color_eq_dec : EqDecision color.
Proof. solve_decision. Defined.

Inductive rbt (A : Type) :=
  | Leaf
  | Node (c : color) (l : rbt A) (x : A) (r : rbt A).
Arguments Leaf {A}.
Arguments Node {A} c l x r.

(** [FL c x r]: the position is the left child of a node with colour [c],
    element [x] and right child [r]; [FR c l x] symmetrically. *)
Inductive frame (A : Type) :=
  | FL (c : color) (x : A) (r : rbt A)
  | FR (c : color) (l : rbt A) (x : A).
Arguments FL {A}.
Arguments FR {A}.

Section rb.
Context {A : Type}.
Implicit Types (t l r : rbt A) (p : list (frame A)) (x y : A).

(** ** Positions *)
Definition plug (f : frame A) t : rbt A :=
  match f with FL c x r => Node c t x r | FR c l x => Node c l x t end.

Fixpoint zip t p : rbt A :=
  match p with [] => t | f :: p' => zip (plug f t) p' end.

Definition frame_color (f : frame A) : color :=
  match f with FL c _ _ => c | FR c _ _ => c end.

(** ** Colours: [RB_COLOR] reads and writes *)
Definition is_red t : bool :=
  match t with Node RB_RED _ _ _ => true | _ => false end.

(** [elm == NULL || RB_COLOR(elm) == RB_BLACK] *)
Definition black_or_null t : bool := negb (is_red t).

(** [if (elm) RB_COLOR(elm) = RB_BLACK] *)
Definition blacken t : rbt A :=
  match t with Leaf => Leaf | Node _ l x r => Node RB_BLACK l x r end.

(** ** Insertion

    [RB_INSERT_COLOR]: [t] is the subtree whose root is [elm]. *)
Fixpoint insert_fix t p : option (rbt A) :=
  match p with
  | [] => Some t
  | f :: p' =>
      match frame_color f with
      | RB_BLACK => Some (zip t p)
      | RB_RED =>
          match p' with
          | [] => None
          | FL gc gx uncle :: rest =>
              if is_red uncle then
                insert_fix (Node RB_RED (blacken (plug f t)) gx (blacken uncle)) rest
              else
                match f, t with
                | FR pc pl px, Node ec el ex er =>
                    Some (zip (Node RB_BLACK (Node pc pl px el) ex (Node RB_RED er gx uncle)) rest)
                | FL pc px pr, _ =>
                    Some (zip (Node RB_BLACK t px (Node RB_RED pr gx uncle)) rest)
                | FR _ _ _, Leaf => None
                end
          | FR gc uncle gx :: rest =>
              if is_red uncle then
                insert_fix (Node RB_RED (blacken uncle) gx (blacken (plug f t))) rest
              else
                match f, t with
                | FL pc px pr, Node ec el ex er =>
                    Some (zip (Node RB_BLACK (Node RB_RED uncle gx el) ex (Node pc er px pr)) rest)
                | FR pc pl px, _ =>
                    Some (zip (Node RB_BLACK (Node RB_RED uncle gx pl) px t) rest)
                | FL _ _ _, Leaf => None
                end
          end
      end
  end.

Definition RB_INSERT_COLOR t p : option (rbt A) := blacken <$> insert_fix t p.

Context (cmp : A -> A -> Z).

(** The descent of [RB_INSERT]: the existing element equal to [elm], or the
    empty position where it belongs. *)
Fixpoint insert_position (elm : A) t p : A + list (frame A) :=
  match t with
  | Leaf => inr p
  | Node c l x r =>
      let comp := cmp elm x in
      if comp <? 0 then insert_position elm l (FL c x r :: p)
      else if 0 <? comp then insert_position elm r (FR c l x :: p)
      else inl x
  end.

(** The element already there (nothing is inserted) or NULL, and the tree. *)
Definition RB_INSERT t (elm : A) : option (option A * rbt A) :=
  match insert_position elm t [] with
  | inl x => Some (Some x, t)
  | inr p => t' ← RB_INSERT_COLOR (Node RB_RED Leaf elm Leaf) p; Some (None, t')
  end.

(** ** Lookup *)
Fixpoint RB_FIND t (elm : A) : option A :=
  match t with
  | Leaf => None
  | Node _ l x r =>
      let comp := cmp elm x in
      if comp <? 0 then RB_FIND l elm
      else if 0 <? comp then RB_FIND r elm
      else Some x
  end.

Fixpoint nfind t (elm : A) (res : option A) : option A :=
  match t with
  | Leaf => res
  | Node _ l x r =>
      let comp := cmp elm x in
      if comp <? 0 then nfind l elm (Some x)
      else if 0 <? comp then nfind r elm res
      else Some x
  end.

Definition RB_NFIND t (elm : A) : option A := nfind t elm None.

(** The position of the node holding [elm], as a pointer to it would give. *)
Fixpoint rb_locate (elm : A) t p : option (rbt A * list (frame A)) :=
  match t with
  | Leaf => None
  | Node c l x r =>
      let comp := cmp elm x in
      if comp <? 0 then rb_locate elm l (FL c x r :: p)
      else if 0 <? comp then rb_locate elm r (FR c l x :: p)
      else Some (t, p)
  end.

(** ** Traversal *)
Fixpoint leftmost t p : rbt A * list (frame A) :=
  match t with
  | Node c (Node _ _ _ _ as l) x r => leftmost l (FL c x r :: p)
  | _ => (t, p)
  end.

Fixpoint rightmost t p : rbt A * list (frame A) :=
  match t with
  | Node c l x (Node _ _ _ _ as r) => rightmost r (FR c l x :: p)
  | _ => (t, p)
  end.

(** Climb while the position is a right (left) child, then one step more. *)
Fixpoint climb_right t p : option (rbt A * list (frame A)) :=
  match p with
  | [] => None
  | FL c x r :: p' => Some (Node c t x r, p')
  | FR c l x :: p' => climb_right (Node c l x t) p'
  end.

Fixpoint climb_left t p : option (rbt A * list (frame A)) :=
  match p with
  | [] => None
  | FR c l x :: p' => Some (Node c l x t, p')
  | FL c x r :: p' => climb_left (Node c t x r) p'
  end.

Definition RB_NEXT t p : option (rbt A * list (frame A)) :=
  match t with
  | Node c l x (Node _ _ _ _ as r) => Some (leftmost r (FR c l x :: p))
  | _ => climb_right t p
  end.

Definition RB_PREV t p : option (rbt A * list (frame A)) :=
  match t with
  | Node c (Node _ _ _ _ as l) x r => Some (rightmost l (FL c x r :: p))
  | _ => climb_left t p
  end.

Definition elem_at t : option A := match t with Leaf => None | Node _ _ x _ => Some x end.

Definition RB_MINMAX t (val : Z) : option A :=
  if val <? 0 then elem_at (leftmost t []).1 else elem_at (rightmost t []).1.

(** [RB_FOREACH]: the elements visited from the minimum by [RB_NEXT]. *)
Fixpoint foreach_from (fuel : nat) (pos : option (rbt A * list (frame A))) : option (list A) :=
  match fuel, pos with
  | _, None => Some []
  | O, Some _ => None
  | S fuel', Some (t, p) =>
      match t with
      | Leaf => Some []
      | Node _ _ x _ => xs ← foreach_from fuel' (RB_NEXT t p); Some (x :: xs)
      end
  end.

Definition RB_FOREACH (fuel : nat) t : option (list A) := foreach_from fuel (Some (leftmost t [])).

(** ** Removal

    [RB_REMOVE_COLOR]: [t] is the subtree [elm] (NULL when [Leaf]) and [p]
    starts at [parent].  [tmp] is the sibling. *)
Definition remove_left_case (pc : color) t px (sib : rbt A) :
    option (rbt A + rbt A) :=
  (* [inl u]: the subtree at [parent] is [u] and the loop goes on from it;
     [inr u]: the subtree is [u] and the loop stops at the root. *)
  match sib with
  | Leaf => None
  | Node tc tl tx tr =>
      if black_or_null tl && black_or_null tr then
        Some (inl (Node pc t px (Node RB_RED tl tx tr)))
      else if black_or_null tr then
        match tl with
        | Leaf => None
        | Node _ tll tlx tlr =>
            Some (inr (Node pc (Node RB_BLACK t px tll) tlx (blacken (Node RB_RED tlr tx tr))))
        end
      else Some (inr (Node pc (Node RB_BLACK t px tl) tx (blacken tr)))
  end.

Definition remove_right_case (pc : color) (sib : rbt A) px t : option (rbt A + rbt A) :=
  match sib with
  | Leaf => None
  | Node tc tl tx tr =>
      if black_or_null tl && black_or_null tr then
        Some (inl (Node pc (Node RB_RED tl tx tr) px t))
      else if black_or_null tl then
        match tr with
        | Leaf => None
        | Node _ trl trx trr =>
            Some (inr (Node pc (blacken (Node RB_RED tl tx trl)) trx (Node RB_BLACK trr px t)))
        end
      else Some (inr (Node pc (blacken tl) tx (Node RB_BLACK tr px t)))
  end.

Fixpoint remove_fix (fuel : nat) t p : option (rbt A) :=
  match fuel with
  | O => None
  | S fuel' =>
      if is_red t then Some (zip (blacken t) p)
      else
        match p with
        | [] => Some (blacken t)
        | FL pc px sib :: rest =>
            let '(pc, sib, rest) :=
              match sib with
              | Node RB_RED sl sx sr => (RB_RED, sl, FL RB_BLACK sx sr :: rest)
              | _ => (pc, sib, rest)
              end in
            u ← remove_left_case pc t px sib;
            match u with
            | inl u => remove_fix fuel' u rest
            | inr u => Some (blacken (zip u rest))
            end
        | FR pc sib px :: rest =>
            let '(pc, sib, rest) :=
              match sib with
              | Node RB_RED sl sx sr => (RB_RED, sr, FR RB_BLACK sl sx :: rest)
              | _ => (pc, sib, rest)
              end in
            u ← remove_right_case pc sib px t;
            match u with
            | inl u => remove_fix fuel' u rest
            | inr u => Some (blacken (zip u rest))
            end
        end
  end.

Definition RB_REMOVE_COLOR t p : option (rbt A) := remove_fix (2 * length p + 2) t p.

(** The element leaving the tree position and the position of its child:
    [child] replaces a node of colour [color]. *)
Definition remove_splice (color : color) (child : rbt A) p : option (rbt A) :=
  match color with
  | RB_BLACK => RB_REMOVE_COLOR child p
  | RB_RED => Some (zip child p)
  end.

(** [RB_REMOVE] at a position.  With two children the leftmost node of the
    right subtree takes the place, the colour and the children of the
    removed one. *)
Definition remove_at t p : option (rbt A) :=
  match t with
  | Leaf => None
  | Node c Leaf x r => remove_splice c r p
  | Node c l x Leaf => remove_splice c l p
  | Node c l x r =>
      match leftmost r [] with
      | (Node ec _ ex er, ep) => remove_splice ec er (ep ++ FR c l ex :: p)
      | (Leaf, _) => None
      end
  end.

(** [RB_REMOVE(name, head, elm)]; [None]: [elm] is not a node of the tree. *)
Definition RB_REMOVE t (elm : A) : option (A * rbt A) :=
  pos ← rb_locate elm t [];
  t' ← remove_at pos.1 pos.2;
  x ← elem_at pos.1;
  Some (x, t').

(** ** The abstract view *)
Fixpoint inorder t : list A :=
  match t with
  | Leaf => []
  | Node _ l x r => inorder l ++ x :: inorder r
  end.

(** The elements before and after a position. *)
Fixpoint before p : list A :=
  match p with
  | [] => []
  | FL _ _ _ :: p' => before p'
  | FR _ l x :: p' => before p' ++ inorder l ++ [x]
  end.

Fixpoint after p : list A :=
  match p with
  | [] => []
  | FL _ x r :: p' => x :: inorder r ++ after p'
  | FR _ _ _ :: p' => after p'
  end.

(** ** The red-black invariant

    [rbok t c n]: the root of [t] has colour [c] (black for NULL), no red
    node has a red child and every path has [n] black nodes. *)
Inductive rbok : rbt A -> color -> nat -> Prop :=
  | rbok_leaf : rbok Leaf RB_BLACK 0
  | rbok_red l x r n :
      rbok l RB_BLACK n -> rbok r RB_BLACK n -> rbok (Node RB_RED l x r) RB_RED n
  | rbok_black l x r cl cr n :
      rbok l cl n -> rbok r cr n -> rbok (Node RB_BLACK l x r) RB_BLACK (S n).

Definition rb_tree t : Prop := exists n, rbok t RB_BLACK n.

(** [pathok p pc n]: the path [p] completes a subtree of black height [n];
    [pc] is the colour of the parent, [None] at the root. *)
Inductive pathok : list (frame A) -> option color -> nat -> Prop :=
  | pathok_nil n : pathok [] None n
  | pathok_black_l x r cr n p pc :
      rbok r cr n -> pathok p pc (S n) -> pathok (FL RB_BLACK x r :: p) (Some RB_BLACK) n
  | pathok_black_r l x cl n p pc :
      rbok l cl n -> pathok p pc (S n) -> pathok (FR RB_BLACK l x :: p) (Some RB_BLACK) n
  | pathok_red_l x r n p :
      rbok r RB_BLACK n -> pathok p (Some RB_BLACK) n -> pathok (FL RB_RED x r :: p) (Some RB_RED) n
  | pathok_red_r l x n p :
      rbok l RB_BLACK n -> pathok p (Some RB_BLACK) n -> pathok (FR RB_RED l x :: p) (Some RB_RED) n.

(** ** Searching keys

    [cuts key xs lo eq hi]: in [xs] the elements above, equal to and below
    the key follow each other.  It is what a binary search needs of the
    comparison and the list, whatever the comparison is. *)
Definition cuts (key : A) (xs lo eq hi : list A) : Prop :=
  xs = lo ++ eq ++ hi /\ Forall (fun y => 0 < cmp key y) lo /\
  Forall (fun y => cmp key y = 0) eq /\ Forall (fun y => cmp key y < 0) hi /\
  (length eq <= 1)%nat.
End rb.

Section rb_proofs.
Context {A : Type}.
Implicit Types (t l r u : rbt A) (p q : list (frame A)) (x y : A).

(** ** Positions and in-order lists *)
Lemma inorder_plug (f : frame A) t : inorder (plug f t) = before [f] ++ inorder t ++ after [f].
Proof. destruct f; simpl; [by rewrite app_nil_r|]. by rewrite <- app_assoc, app_nil_r. Qed.

Lemma inorder_zip t p : inorder (zip t p) = before p ++ inorder t ++ after p.
Proof.
  revert t. induction p as [|f p IH]; intros t; simpl; [by rewrite app_nil_r|].
  rewrite IH. destruct f; simpl; by rewrite <- ?app_assoc.
Qed.

Lemma inorder_blacken t : inorder (blacken t) = inorder t.
Proof. by destruct t. Qed.

Lemma zip_app t p q : zip t (p ++ q) = zip (zip t p) q.
Proof. revert t. induction p as [|f p IH]; intros t; simpl; [done|apply IH]. Qed.

Lemma before_app p q : before (p ++ q) = before q ++ before p.
Proof.
  induction p as [|[c x r|c l x] p IH]; simpl; [by rewrite app_nil_r|done|].
  by rewrite IH, <- app_assoc.
Qed.

Lemma after_app p q : after (p ++ q) = after p ++ after q.
Proof. induction p as [|[c x r|c l x] p IH]; simpl; rewrite ?IH, <- ?app_assoc; done. Qed.

Lemma leftmost_zip t p : zip (leftmost t p).1 (leftmost t p).2 = zip t p.
Proof.
  revert p. induction t as [|c l IHl x r _]; intros p; simpl; [done|].
  destruct l as [|cl ll xl rl]; [done|]. apply (IHl (FL c x r :: p)).
Qed.

Lemma leftmost_spec c l x r p :
  exists c' x' r' q, leftmost (Node c l x r) p = (Node c' Leaf x' r', q ++ p) /\
    zip (Node c' Leaf x' r') q = Node c l x r /\ before q = [].
Proof.
  revert c x r p. induction l as [|cl ll IHll xl rl _]; intros c x r p.
  - exists c, x, r, []. done.
  - change (leftmost (Node c (Node cl ll xl rl) x r) p)
      with (leftmost (Node cl ll xl rl) (FL c x r :: p)).
    destruct (IHll cl xl rl (FL c x r :: p)) as (c' & x' & r' & q & -> & Hz & Hb).
    exists c', x', r', (q ++ [FL c x r]). rewrite <- app_assoc. split_and!; [done| |].
    + by rewrite zip_app, Hz.
    + by rewrite before_app, Hb.
Qed.

(** ** Insertion keeps the elements and restores the invariant *)
Lemma list_ind2 (P : list (frame A) -> Prop) :
  P [] -> (forall f, P [f]) -> (forall f g p, P p -> P (f :: g :: p)) -> forall p, P p.
Proof.
  intros H0 H1 H2. fix IH 1. intros [|f [|g p]]; [done|done|]. apply H2, IH.
Qed.

Ltac norm_inorder :=
  rewrite ?inorder_zip; simpl; rewrite ?inorder_zip, ?inorder_blacken, ?inorder_plug; simpl;
  rewrite <- ?app_assoc; simpl; rewrite ?app_nil_r; simpl; rewrite <- ?app_assoc.

Lemma insert_fix_inorder p : forall t t',
  insert_fix t p = Some t' -> inorder t' = before p ++ inorder t ++ after p.
Proof.
  induction p as [|f|f g p IH] using list_ind2; intros t t'.
  - intros [= <-]. simpl. by rewrite app_nil_r.
  - destruct f as [[] x r|[] l x]; simpl; intros [= <-]; simpl; rewrite ?app_nil_r, <- ?app_assoc; done.
  - cbn [insert_fix]. destruct (frame_color f).
    { intros [= <-]. exact (inorder_zip t (f :: g :: p)). }
    destruct g as [gc gx uncle|gc uncle gx], (is_red uncle).
    1, 3: intros H%IH; rewrite H; destruct f; norm_inorder; done.
    all: destruct f as [pc px pr|pc pl px], t as [|ec el ex er]; intros [= <-]; norm_inorder; done.
Qed.

Lemma rbok_blacken t c n : rbok t c n -> exists m, rbok (blacken t) RB_BLACK m.
Proof. intros H. inversion H; subst; simpl; eauto using rbok. Qed.

Lemma rbok_is_red t c n : rbok t c n -> is_red t = bool_decide (c = RB_RED).
Proof. intros H. inversion H; by subst. Qed.

(** Completing a well-formed subtree along a well-formed path; the root of
    a path is black. *)
Lemma rbok_zip t c n p pc :
  rbok t c n -> pathok p pc n -> (c = RB_RED -> pc <> Some RB_RED) ->
  exists m, rbok (zip t p) (match p with [] => c | _ => RB_BLACK end) m.
Proof.
  intros Ht Hp. revert t c Ht. induction Hp; intros t c Ht Hc; simpl.
  - eauto.
  - edestruct IHHp as (m & H'); [eapply rbok_black; [exact Ht|exact H]|done|].
    exists m. by destruct p.
  - edestruct IHHp as (m & H'); [eapply rbok_black; [exact H|exact Ht]|done|].
    exists m. by destruct p.
  - destruct c; [|by destruct Hc].
    edestruct IHHp as (m & H'); [eapply rbok_red; [exact Ht|exact H]|done|].
    exists m. destruct p; [inversion Hp|done].
  - destruct c; [|by destruct Hc].
    edestruct IHHp as (m & H'); [eapply rbok_red; [exact H|exact Ht]|done|].
    exists m. destruct p; [inversion Hp|done].
Qed.

Lemma rbok_zip_black t n p pc :
  rbok t RB_BLACK n -> pathok p pc n -> exists m, rbok (zip t p) RB_BLACK m.
Proof. intros Ht Hp. destruct (rbok_zip _ _ _ _ _ Ht Hp) as [m Hm]; [done|]. exists m. by destruct p. Qed.

Ltac inv H := inversion H; subst; clear H.

Lemma insert_fix_ok p : forall t n pc,
  rbok t RB_RED n -> pathok p pc n -> exists t' c m, insert_fix t p = Some t' /\ rbok t' c m.
Proof.
  induction p as [|f|f g p IH] using list_ind2; intros t n pc Ht Hp.
  - simpl. eauto.
  - inv Hp; [| |match goal with H : pathok [] _ _ |- _ => inversion H end..];
      simpl; eauto 10 using rbok.
  - cbn [insert_fix]. inv Hp; cbn [frame_color].
    1, 2: match goal with |- context [Some (zip ?u (?f :: ?q))] =>
            edestruct (rbok_zip_black (plug f u) (S n) q) as (m & Hm);
            [simpl; eauto using rbok|eassumption|eauto] end.
    all: match goal with H : pathok (_ :: _) _ _ |- _ => inv H end;
      match goal with H : rbok ?u ?c _ |- context [is_red ?u] => rewrite (rbok_is_red u c _ H); inv H end;
      simpl; match goal with
      | |- exists t' c m, insert_fix _ _ = _ /\ _ => eapply IH; [|eassumption]; eauto using rbok
      | |- _ => idtac
      end;
      inv Ht; match goal with |- context [zip ?u ?q] =>
        edestruct (rbok_zip_black u) as (m & Hm); [|eassumption|eauto] end; eauto using rbok.
Qed.
End rb_proofs.

Section rb_remove.
Context {A : Type}.
Implicit Types (t l r u sib : rbt A) (p q : list (frame A)) (x y : A).

Ltac inv H := inversion H; subst; clear H.

(** What one turn of [RB_REMOVE_COLOR] leaves at [parent], where [n] is the
    black height of the deficient child. *)
Definition turn_ok (pc : color) (n : nat) (o : option (rbt A + rbt A)) : Prop :=
  match o with
  | Some (inl u) => rbok (blacken u) RB_BLACK (S n) /\ is_red u = bool_decide (pc = RB_RED) /\
                    (pc = RB_BLACK -> blacken u = u)
  | Some (inr u) => rbok u pc (match pc with RB_RED => S n | RB_BLACK => S (S n) end)
  | None => False
  end.

Lemma remove_left_ok pc t px sib n :
  rbok t RB_BLACK n -> rbok sib RB_BLACK (S n) -> turn_ok pc n (remove_left_case pc t px sib).
Proof.
  intros Ht Hs. inv Hs. simpl. unfold black_or_null.
  repeat match goal with H : rbok ?u ?c _ |- context [is_red ?u] => rewrite (rbok_is_red u c _ H) end.
  destruct cl, cr; simpl; destruct pc; simpl; repeat match goal with
    | H : rbok _ RB_RED _ |- _ => inv H end; simpl; split_and?; eauto 10 using rbok; try (intros; discriminate).
Qed.

Lemma remove_right_ok pc t px sib n :
  rbok t RB_BLACK n -> rbok sib RB_BLACK (S n) -> turn_ok pc n (remove_right_case pc sib px t).
Proof.
  intros Ht Hs. inv Hs. simpl. unfold black_or_null.
  repeat match goal with H : rbok ?u ?c _ |- context [is_red ?u] => rewrite (rbok_is_red u c _ H) end.
  destruct cl, cr; simpl; destruct pc; simpl; repeat match goal with
    | H : rbok _ RB_RED _ |- _ => inv H end; simpl; split_and?; eauto 10 using rbok; try (intros; discriminate).
Qed.

Lemma remove_left_inorder pc t px sib o :
  remove_left_case pc t px sib = Some o ->
  match o with inl u | inr u => inorder u end = inorder t ++ px :: inorder sib.
Proof.
  destruct sib as [|tc tl tx tr]; simpl; [done|].
  destruct (black_or_null tl && black_or_null tr), (black_or_null tr), tl; intros [= <-]; simpl;
    rewrite ?inorder_blacken; simpl; rewrite <- ?app_assoc; simpl; by rewrite <- ?app_assoc.
Qed.

Lemma remove_right_inorder pc t px sib o :
  remove_right_case pc sib px t = Some o ->
  match o with inl u | inr u => inorder u end = inorder sib ++ px :: inorder t.
Proof.
  destruct sib as [|tc tl tx tr]; simpl; [done|].
  destruct (black_or_null tl && black_or_null tr), (black_or_null tl), tr; intros [= <-]; simpl;
    rewrite ?inorder_blacken; simpl; rewrite <- ?app_assoc; simpl; by rewrite <- ?app_assoc.
Qed.

Lemma remove_fix_inorder fuel : forall t p t',
  remove_fix fuel t p = Some t' -> inorder t' = before p ++ inorder t ++ after p.
Proof.
  induction fuel as [|fuel IH]; intros t p t'; [done|]. cbn [remove_fix].
  destruct (is_red t).
  { intros [= <-]. by rewrite inorder_zip, inorder_blacken. }
  destruct p as [|[pc px sib|pc sib px] rest].
  { intros [= <-]. simpl. by rewrite inorder_blacken, app_nil_r. }
  - set (s := match sib with Node RB_RED sl sx sr => (RB_RED, sl, FL RB_BLACK sx sr :: rest)
              | _ => (pc, sib, rest) end).
    assert (Hs : before s.2 = before rest /\ inorder s.1.2 ++ after s.2 = inorder sib ++ after rest).
    { subst s. destruct sib as [|[] ? ? ?]; simpl; rewrite <- ?app_assoc; done. }
    destruct s as [[pc' sib'] rest']. simpl in Hs. destruct Hs as [Hb Ha].
    intros (o & Ho & H)%bind_Some. apply remove_left_inorder in Ho. destruct o as [u|u].
    + rewrite (IH _ _ _ H), Ho, Hb. simpl. rewrite <- app_assoc. simpl. by rewrite Ha.
    + injection H as <-. rewrite inorder_blacken, inorder_zip, Ho, Hb. simpl.
      rewrite <- app_assoc. simpl. by rewrite Ha.
  - set (s := match sib with Node RB_RED sl sx sr => (RB_RED, sr, FR RB_BLACK sl sx :: rest)
              | _ => (pc, sib, rest) end).
    assert (Hs : after s.2 = after rest /\ before s.2 ++ inorder s.1.2 = before rest ++ inorder sib).
    { subst s. destruct sib as [|[] ? ? ?]; simpl; rewrite <- ?app_assoc; done. }
    destruct s as [[pc' sib'] rest']. simpl in Hs. destruct Hs as [Ha Hb].
    intros (o & Ho & H)%bind_Some. apply remove_right_inorder in Ho. destruct o as [u|u].
    + rewrite (IH _ _ _ H), Ho, Ha. simpl. rewrite <- !app_assoc. simpl.
      rewrite (app_assoc (before rest')), Hb. by rewrite <- !app_assoc.
    + injection H as <-. rewrite inorder_blacken, inorder_zip, Ho, Ha. simpl.
      rewrite <- !app_assoc. simpl. rewrite (app_assoc (before rest')), Hb. by rewrite <- !app_assoc.
Qed.

(** After the red-sibling rotation both variants are in the same situation:
    a parent colour, a black sibling of height [S n] and a path. *)
Lemma turn_continue fuel u rest pc n pc' o :
  (0 < fuel)%nat ->
  turn_ok pc n (Some o) -> o = inl u \/ o = inr u ->
  pathok rest pc' (match pc with RB_RED => S n | RB_BLACK => S (S n) end) ->
  (pc = RB_RED -> pc' = Some RB_BLACK) ->
  (pc = RB_BLACK -> forall u, rbok u RB_BLACK (S n) ->
     exists t' m, remove_fix fuel u rest = Some t' /\ rbok t' RB_BLACK m) ->
  exists t' m, match o with inl u => remove_fix fuel u rest | inr u => Some (blacken (zip u rest)) end = Some t'
    /\ rbok t' RB_BLACK m.
Proof.
  intros Hf Ht [->| ->] Hp Hpc Hrec; simpl in Ht.
  - destruct Ht as (Hu & Hr & Hb). destruct fuel as [|fuel]; [lia|]. destruct pc.
    + rewrite Hb in Hu by done. by apply Hrec.
    + cbn [remove_fix]. rewrite Hr. simpl.
      destruct (rbok_zip_black _ _ _ _ Hu Hp) as [m Hm]. eauto.
  - destruct (rbok_zip _ _ _ _ _ Ht Hp) as [m Hm].
    { intros ->. rewrite Hpc by done. done. }
    destruct (rbok_blacken _ _ _ Hm) as [m' Hm']. eauto.
Qed.

Lemma remove_fix_ok fuel : forall t n p pc,
  rbok t RB_BLACK n -> pathok p pc (S n) -> (length p + 2 <= fuel)%nat ->
  exists t' m, remove_fix fuel t p = Some t' /\ rbok t' RB_BLACK m.
Proof.
  induction fuel as [|fuel IH]; intros t n p pc Ht Hp Hf; [lia|]. cbn [remove_fix].
  rewrite (rbok_is_red _ _ _ Ht). cbn [bool_decide decide_rel].
  destruct p as [|[qc qx sib|qc sib qx] rest]; simpl in Hf.
  - destruct (rbok_blacken _ _ _ Ht) as [m Hm]. simpl. eauto.
  - assert (Hgo : forall qc sib rest pc', rbok sib RB_BLACK (S n) ->
      pathok rest pc' (match qc with RB_RED => S n | RB_BLACK => S (S n) end) ->
      (qc = RB_RED -> pc' = Some RB_BLACK) -> (qc = RB_BLACK -> length rest + 2 <= fuel)%nat ->
      exists t' m, (u ← remove_left_case qc t qx sib;
        match u with inl u => remove_fix fuel u rest | inr u => Some (blacken (zip u rest)) end) = Some t'
        /\ rbok t' RB_BLACK m).
    { intros c s q pc' Hs Hq Hc Hlen. pose proof (remove_left_ok c t qx s n Ht Hs) as Hturn.
      destruct (remove_left_case c t qx s) as [o|] eqn:Eo; [|done]. simpl.
      eapply (turn_continue _ (match o with inl u | inr u => u end)); try done; [lia|by destruct o; auto|].
      intros -> u Hu. eapply IH; [exact Hu|exact Hq|auto]. }
    inv Hp.
    + match goal with H : rbok sib _ _ |- _ => inv H end; cbn beta iota zeta; eapply Hgo; eauto using rbok, pathok; (lia || done).
    + match goal with H : rbok sib _ _ |- _ => inv H end; cbn beta iota zeta; eapply Hgo; eauto using rbok, pathok; (lia || done).
  - assert (Hgo : forall qc sib rest pc', rbok sib RB_BLACK (S n) ->
      pathok rest pc' (match qc with RB_RED => S n | RB_BLACK => S (S n) end) ->
      (qc = RB_RED -> pc' = Some RB_BLACK) -> (qc = RB_BLACK -> length rest + 2 <= fuel)%nat ->
      exists t' m, (u ← remove_right_case qc sib qx t;
        match u with inl u => remove_fix fuel u rest | inr u => Some (blacken (zip u rest)) end) = Some t'
        /\ rbok t' RB_BLACK m).
    { intros c s q pc' Hs Hq Hc Hlen. pose proof (remove_right_ok c t qx s n Ht Hs) as Hturn.
      destruct (remove_right_case c s qx t) as [o|] eqn:Eo; [|done]. simpl.
      eapply (turn_continue _ (match o with inl u | inr u => u end)); try done; [lia|by destruct o; auto|].
      intros -> u Hu. eapply IH; [exact Hu|exact Hq|auto]. }
    inv Hp.
    + match goal with H : rbok sib _ _ |- _ => inv H end; cbn beta iota zeta; eapply Hgo; eauto using rbok, pathok; (lia || done).
    + match goal with H : rbok sib _ _ |- _ => inv H end; cbn beta iota zeta; eapply Hgo; eauto using rbok, pathok; (lia || done).
Qed.
End rb_remove.

(** ** Searching, inserting and removing by key *)
Section rb_keys.
Context {A : Type} (cmp : A -> A -> Z).
Implicit Types (t l r u : rbt A) (p q : list (frame A)) (x y : A).
Notation cuts := (cuts cmp).

Lemma cuts_split key xs x ys lo eq hi :
  cuts key (xs ++ x :: ys) lo eq hi ->
  (cmp key x < 0 /\ exists hi', cuts key xs lo eq hi' /\ hi = hi' ++ x :: ys) \/
  (0 < cmp key x /\ exists lo', cuts key ys lo' eq hi /\ lo = xs ++ x :: lo') \/
  (cmp key x = 0 /\ eq = [x] /\ lo = xs /\ hi = ys).
Proof.
  intros (E & Hlo & Heq & Hhi & Hlen). symmetry in E.
  apply app_eq_inv in E as [(k & -> & E)|(k & -> & E)].
  - destruct k as [|z k]; simpl in E.
    + rewrite app_nil_r in *. destruct eq as [|y [|? ?]]; simpl in *; [|injection E as -> ->|lia].
      * subst hi. left. inversion_clear Hhi. split; [done|]. exists []. unfold RBTree.cuts.
        rewrite app_nil_r. split_and!; auto.
      * right; right. inversion_clear Heq. done.
    + injection E as -> ->. right; left. apply Forall_app in Hlo as [_ Hlo]. inversion_clear Hlo.
      split; [done|]. exists k. unfold RBTree.cuts. split_and!; auto.
  - destruct eq as [|y [|? ?]]; simpl in *; [|destruct k as [|z k]; injection E as -> ->|lia].
    + subst hi. apply Forall_app in Hhi as [Hk Hx]. inversion_clear Hx. left. split; [done|].
      exists k. unfold RBTree.cuts. split_and!; auto.
    + right; right. inversion_clear Heq. by rewrite app_nil_r.
    + apply Forall_app in Hhi as [Hk Hx]. inversion_clear Hx. left. split; [done|].
      exists k. unfold RBTree.cuts. split_and!; auto.
Qed.

(** One step of a descent: where the key lies relative to the root. *)
Ltac descend H :=
  apply cuts_split in H as [(Hc & hi' & H & ->)|[(Hc & lo' & H & ->)|(Hc & ? & -> & ->)]];
  [rewrite (proj2 (Z.ltb_lt _ _) Hc)
  |rewrite (proj2 (Z.ltb_ge _ 0)) by lia; rewrite (proj2 (Z.ltb_lt _ _) Hc)
  |rewrite ?Hc; simplify_eq/=].

Lemma RB_FIND_cuts key t lo eq hi :
  cuts key (inorder t) lo eq hi -> RB_FIND cmp t key = head eq.
Proof.
  revert lo hi. induction t as [|c l IHl x r IHr]; intros lo hi H; simpl in *.
  - destruct H as (E & _). symmetry in E. apply app_eq_nil in E as [_ [-> _]%app_eq_nil]. done.
  - descend H; eauto.
Qed.

(** The least element that is not below the key. *)
Lemma RB_NFIND_cuts key t lo eq hi :
  cuts key (inorder t) lo eq hi -> RB_NFIND cmp t key = head (eq ++ hi).
Proof.
  unfold RB_NFIND. assert (Hg : forall res lo hi, cuts key (inorder t) lo eq hi ->
    nfind cmp t key res = match head (eq ++ hi) with Some y => Some y | None => res end).
  { clear. induction t as [|c l IHl x r IHr]; intros res lo hi H; simpl in *.
    - destruct H as (E & _). symmetry in E. apply app_eq_nil in E as [_ [-> ->]%app_eq_nil]. done.
    - descend H; [rewrite (IHl _ _ _ H)|by rewrite (IHr _ _ _ H)|done].
      by destruct eq, hi'. }
  intros H. rewrite (Hg _ _ _ H). by destruct (head (eq ++ hi)).
Qed.

(** ** Well-formed positions *)
Definition pos_ok t p : Prop :=
  exists c n pc, rbok t c n /\ pathok p pc n /\ (c = RB_RED -> pc = Some RB_BLACK).

Lemma pos_ok_root t : rb_tree t -> pos_ok t [].
Proof. intros [n H]. exists RB_BLACK, n, None. split_and!; [done|constructor|done]. Qed.

Lemma pos_ok_left c l x y r p : pos_ok (Node c l x r) p -> pos_ok l (FL c y r :: p).
Proof.
  intros (c' & n & pc & Ht & Hp & Hc). inversion Ht; subst.
  - rewrite (Hc eq_refl) in Hp. eexists RB_BLACK, _, _. split_and!; [eassumption|by constructor|done].
  - eexists _, _, _. split_and!; [eassumption|by econstructor|done].
Qed.

Lemma pos_ok_right c l x y r p : pos_ok (Node c l x r) p -> pos_ok r (FR c l y :: p).
Proof.
  intros (c' & n & pc & Ht & Hp & Hc). inversion Ht; subst.
  - rewrite (Hc eq_refl) in Hp. eexists RB_BLACK, _, _. split_and!; [eassumption|by constructor|done].
  - eexists _, _, _. split_and!; [eassumption|by econstructor|done].
Qed.

(** ** Insertion *)
Lemma insert_position_found elm t p lo y hi :
  cuts elm (inorder t) lo [y] hi -> insert_position cmp elm t p = inl y.
Proof.
  revert lo hi p. induction t as [|c l IHl x r IHr]; intros lo hi p H; simpl in *.
  - destruct H as (E & _). by destruct lo.
  - descend H; eauto.
Qed.

Lemma insert_position_free elm t p lo hi :
  cuts elm (inorder t) lo [] hi -> pos_ok t p ->
  exists q, insert_position cmp elm t p = inr q /\ pos_ok Leaf q /\ before q = before p ++ lo /\ after q = hi ++ after p.
Proof.
  revert lo hi p. induction t as [|c l IHl x r IHr]; intros lo hi p H Hp; simpl in *.
  - destruct H as (E & _). symmetry in E. apply app_eq_nil in E as [-> E]. simpl in E. subst hi.
    exists p. rewrite app_nil_r. done.
  - descend H.
    + edestruct IHl as (q & ? & ? & Hb & Ha); [exact H|eapply pos_ok_left, Hp|].
      exists q. simpl in *. rewrite <- app_assoc. done.
    + edestruct IHr as (q & ? & ? & Hb & Ha); [exact H|eapply pos_ok_right, Hp|].
      exists q. simpl in *. rewrite Hb, <- !app_assoc. done.
Qed.

Lemma RB_INSERT_new t elm lo hi :
  rb_tree t -> cuts elm (inorder t) lo [] hi ->
  exists t', RB_INSERT cmp t elm = Some (None, t') /\ rb_tree t' /\ inorder t' = lo ++ elm :: hi.
Proof.
  intros Ht H. unfold RB_INSERT.
  destruct (insert_position_free elm t [] lo hi H (pos_ok_root _ Ht)) as (q & -> & Hq & Hb & Ha).
  destruct Hq as (c & n & pc & Hl & Hp & _). inversion Hl; subst.
  destruct (insert_fix_ok q (Node RB_RED Leaf elm Leaf) 0 pc) as (t' & c' & m & Hf & Hm);
    [eauto using rbok|done|].
  exists (blacken t'). unfold RB_INSERT_COLOR. rewrite Hf. split_and!; [done|eapply rbok_blacken, Hm|].
  rewrite inorder_blacken, (insert_fix_inorder _ _ _ Hf), Hb, Ha. simpl. by rewrite app_nil_r.
Qed.

Lemma RB_INSERT_dup t elm lo y hi :
  cuts elm (inorder t) lo [y] hi -> RB_INSERT cmp t elm = Some (Some y, t).
Proof. intros H. unfold RB_INSERT. by rewrite (insert_position_found _ _ _ _ _ _ H). Qed.

(** ** Removal *)
Lemma rb_locate_found elm t p lo y hi :
  cuts elm (inorder t) lo [y] hi -> pos_ok t p ->
  exists c l r q, rb_locate cmp elm t p = Some (Node c l y r, q) /\ pos_ok (Node c l y r) q /\ before q ++ inorder l = before p ++ lo /\ inorder r ++ after q = hi ++ after p.
Proof.
  revert lo hi p. induction t as [|c l IHl x r IHr]; intros lo hi p H Hp; simpl in *.
  - destruct H as (E & _). by destruct lo.
  - descend H.
    + edestruct IHl as (c' & l' & r' & q & E & ? & Hb & Ha); [exact H|eapply pos_ok_left, Hp|].
      exists c', l', r', q. simpl in *. rewrite <- app_assoc. done.
    + edestruct IHr as (c' & l' & r' & q & E & ? & Hb & Ha); [exact H|eapply pos_ok_right, Hp|].
      exists c', l', r', q. simpl in *. rewrite Hb, <- !app_assoc. done.
    + simplify_eq/=. eauto 10.
Qed.

Lemma remove_splice_ok c x r p :
  pos_ok (Node c Leaf x r) p \/ pos_ok (Node c r x Leaf) p ->
  exists t' m, remove_splice c r p = Some t' /\ rbok t' RB_BLACK m /\ inorder t' = before p ++ inorder r ++ after p.
Proof.
  intros H. assert (exists cr n pc, rbok r cr n /\ pathok p pc (if c is RB_BLACK then S n else n) /\ (c = RB_RED -> cr = RB_BLACK)) as (cr & n & pc & Hr & Hp & Hc).
  { destruct H as [(c' & n & pc & H & Hp & Hc)|(c' & n & pc & H & Hp & Hc)];
      inversion H; subst;
      repeat match goal with H : rbok Leaf _ _ |- _ => inversion H; clear H; subst end;
      eexists _, _, _; split_and!; eauto; done. }
  unfold remove_splice. destruct c.
  - unfold RB_REMOVE_COLOR. destruct cr.
    + destruct (remove_fix_ok (2 * length p + 2) r n p pc) as (t' & m & E & Hm); [done|done|lia|].
      exists t', m. split_and!; [done..|]. exact (remove_fix_inorder _ _ _ _ E).
    + replace (2 * length p + 2)%nat with (S (2 * length p + 1)) by lia. cbn [remove_fix].
      rewrite (rbok_is_red _ _ _ Hr). simpl. inversion Hr; subst.
      edestruct (rbok_zip_black (Node RB_BLACK l x0 r0)) as [m Hm]; [eauto using rbok|exact Hp|].
      exists (zip (Node RB_BLACK l x0 r0) p), m. split_and!; [done..|by rewrite inorder_zip].
  - rewrite (Hc eq_refl) in Hr. destruct (rbok_zip_black _ _ _ _ Hr Hp) as [m Hm].
    exists (zip r p), m. split_and!; [done..|apply inorder_zip].
Qed.

Lemma leftmost_app t p : leftmost t p = ((leftmost t []).1, (leftmost t []).2 ++ p).
Proof.
  enough (Hg : forall q, leftmost t (q ++ p) = ((leftmost t q).1, (leftmost t q).2 ++ p)) by apply (Hg []).
  induction t as [|c l IHl x r _]; intros q; simpl; [done|]. destruct l; [done|]. apply (IHl (_ :: q)).
Qed.

Lemma leftmost_pos_ok t p : pos_ok t p -> pos_ok (leftmost t p).1 (leftmost t p).2.
Proof.
  revert p. induction t as [|c l IHl x r _]; intros p H; simpl; [done|].
  destruct l; [done|]. eapply IHl, pos_ok_left, H.
Qed.

Lemma remove_at_ok c l x r p :
  pos_ok (Node c l x r) p ->
  exists t' m, remove_at (Node c l x r) p = Some t' /\ rbok t' RB_BLACK m /\ inorder t' = before p ++ inorder l ++ inorder r ++ after p.
Proof.
  intros H. destruct l as [|cl ll xl rl].
  { simpl. apply (remove_splice_ok c x). auto. }
  destruct r as [|cr lr xr rr].
  { apply (remove_splice_ok c x (Node cl ll xl rl) p). auto. }
  destruct (leftmost_spec cr lr xr rr []) as (ec & ex & er & q & E & Hz & Hb).
  rewrite app_nil_r in E. unfold remove_at. rewrite E.
  pose proof (leftmost_pos_ok _ _ (pos_ok_right _ _ _ ex _ _ H)) as Hq.
  rewrite leftmost_app, E in Hq. simpl in Hq.
  destruct (remove_splice_ok ec ex er (q ++ FR c (Node cl ll xl rl) ex :: p)) as (t' & m & Es & Hm & Hi);
    [by left|].
  exists t', m. split_and!; [done..|]. rewrite Hi, before_app, after_app, Hb.
  apply (f_equal inorder) in Hz. rewrite inorder_zip, Hb in Hz.
  change (before (FR c (Node cl ll xl rl) ex :: p)) with (before p ++ inorder (Node cl ll xl rl) ++ [ex]).
  rewrite <- Hz. simpl. by rewrite <- ?app_assoc.
Qed.

Lemma RB_REMOVE_ok t elm lo y hi :
  rb_tree t -> cuts elm (inorder t) lo [y] hi ->
  exists t', RB_REMOVE cmp t elm = Some (y, t') /\ rb_tree t' /\ inorder t' = lo ++ hi.
Proof.
  intros Ht H. unfold RB_REMOVE.
  destruct (rb_locate_found elm t [] lo y hi H (pos_ok_root _ Ht)) as (c & l & r & q & -> & Hq & Hb & Ha).
  destruct (remove_at_ok c l y r q Hq) as (t' & m & E & Hm & Hi).
  exists t'. simpl. simpl in E. rewrite E. split_and!; [done|by exists m|].
  rewrite Hi, Ha, app_assoc, Hb. simpl. by rewrite app_nil_r.
Qed.
End rb_keys.

(** ** Traversal visits the in-order list *)
Section rb_traverse.
Context {A : Type}.
Implicit Types (t l r : rbt A) (p q : list (frame A)) (x : A).

(** The elements from a position on: the node's own and those after it. *)
Definition from_pos (pos : option (rbt A * list (frame A))) : list A :=
  match pos with
  | Some (Node _ _ x r, p) => x :: inorder r ++ after p
  | _ => []
  end.

Lemma climb_right_from t p : from_pos (climb_right t p) = after p.
Proof. revert t. induction p as [|[c x r|c l x] p IH]; intros t; simpl; auto. Qed.

Lemma leftmost_from t p : t <> Leaf -> from_pos (Some (leftmost t p)) = inorder t ++ after p.
Proof.
  destruct t as [|c l x r]; [done|]. intros _.
  destruct (leftmost_spec c l x r p) as (c' & x' & r' & q & -> & Hz & Hb).
  apply (f_equal inorder) in Hz. rewrite inorder_zip, Hb in Hz. rewrite <- Hz. simpl.
  by rewrite after_app, <- !app_assoc.
Qed.

Lemma RB_NEXT_from c l x r p :
  from_pos (RB_NEXT (Node c l x r) p) = inorder r ++ after p.
Proof.
  unfold RB_NEXT. destruct r as [|rc rl rx rr]; [apply climb_right_from|]. by rewrite leftmost_from.
Qed.

Lemma foreach_from_ok fuel pos :
  (length (from_pos pos) < fuel)%nat -> foreach_from fuel pos = Some (from_pos pos).
Proof.
  revert pos. induction fuel as [|fuel IH]; intros pos Hf; [lia|].
  destruct pos as [[[|c l x r] p]|]; [done| |done].
  cbn [foreach_from]. pose proof (RB_NEXT_from c l x r p) as Hn. simpl in Hf.
  rewrite IH, Hn by (rewrite Hn; lia). done.
Qed.

Lemma RB_FOREACH_inorder t fuel :
  (length (inorder t) < fuel)%nat -> RB_FOREACH fuel t = Some (inorder t).
Proof.
  intros Hf. unfold RB_FOREACH. destruct t as [|c l x r]; [by destruct fuel; [simpl in Hf; lia|]|].
  pose proof (leftmost_from (Node c l x r) [] ltac:(done)) as H. simpl after in H. rewrite app_nil_r in H.
  rewrite foreach_from_ok; rewrite H; done.
Qed.

Lemma RB_MINMAX_min t : RB_MINMAX t (-1) = head (inorder t).
Proof.
  unfold RB_MINMAX. simpl. destruct t as [|c l x r]; [done|].
  destruct (leftmost_spec c l x r []) as (c' & x' & r' & q & -> & Hz & Hb).
  apply (f_equal inorder) in Hz. rewrite inorder_zip, Hb in Hz. by rewrite <- Hz.
Qed.

Lemma RB_MINMAX_max t : RB_MINMAX t 1 = last (inorder t).
Proof.
  unfold RB_MINMAX. simpl. enough (Hg : forall p, elem_at (rightmost t p).1 = last (inorder t)) by apply Hg.
  induction t as [|c l _ x r IHr]; intros p; [done|]. simpl.
  destruct r as [|rc rl rx rr]; [simpl; by rewrite last_snoc|].
  change (elem_at (rightmost (Node rc rl rx rr) (FR c l x :: p)).1 = last (inorder l ++ x :: inorder (Node rc rl rx rr))).
  rewrite IHr, last_app_cons, last_cons. simpl.
  destruct (last (inorder rl ++ rx :: inorder rr)) eqn:E; [done|].
  apply last_None in E. by destruct (inorder rl).
Qed.
End rb_traverse.

(** ** Trees ordered by an integer key *)

(** [(a < b ? -1 : a > b)] *)
Definition cmp_ptr (a b : Z) : Z := if a <? b then -1 else if b <? a then 1 else 0.

Section keyed.
Context {A : Type} (f : A -> Z).
Implicit Types (x y key : A) (xs lo eq hi : list A).

Definition key_sorted xs : Prop := StronglySorted (fun a b => f a < f b) xs.

Lemma cmp_ptr_spec k a :
  cmp_ptr k a = -1 /\ k < a \/ cmp_ptr k a = 1 /\ a < k \/ cmp_ptr k a = 0 /\ k = a.
Proof. unfold cmp_ptr. destruct (Z.ltb_spec k a); [lia|]. destruct (Z.ltb_spec a k); lia. Qed.

(** A list sorted by key is cut by every key, whatever element stands for it. *)
Lemma sorted_cuts (cmp : A -> A -> Z) key k xs :
  (forall x, cmp key x = cmp_ptr k (f x)) -> key_sorted xs ->
  exists lo eq hi, cuts cmp key xs lo eq hi /\ (forall x, x ∈ eq <-> x ∈ xs /\ f x = k).
Proof.
  intros Hcmp Hs. induction Hs as [|x xs Hs IH Hx].
  { exists [], [], []. split; [split_and!; repeat constructor|]. set_solver. }
  rewrite List.Forall_forall in Hx. pose proof (cmp_ptr_spec k (f x)) as Hc.
  assert (Hin : forall y, y ∈ xs -> f x < f y) by (intros y Hy; apply Hx; by apply list_elem_of_In).
  destruct (Z.lt_trichotomy k (f x)) as [Hlt|[->|Hgt]].
  - exists [], [], (x :: xs). split.
    + split_and!; [done|constructor|constructor| |simpl; lia]. constructor; [rewrite Hcmp; lia|].
      apply Forall_forall. intros y Hy. rewrite Hcmp. specialize (Hin y Hy).
      pose proof (cmp_ptr_spec k (f y)). lia.
    + intros y. rewrite elem_of_nil, elem_of_cons. split; [done|].
      intros [[->|Hy] E]; [lia|]. specialize (Hin y Hy). lia.
  - exists [], [x], xs. split.
    + split_and!; [done|constructor|constructor; [rewrite Hcmp; lia|constructor]| |simpl; lia].
      apply Forall_forall. intros y Hy. rewrite Hcmp. specialize (Hin y Hy).
      pose proof (cmp_ptr_spec (f x) (f y)). lia.
    + intros y. rewrite list_elem_of_singleton, elem_of_cons. split; [intros ->; auto|].
      intros [[->|Hy] E]; [done|]. specialize (Hin y Hy). lia.
  - destruct IH as (lo & eq & hi & (-> & Hlo & Heq & Hhi & Hlen) & Hel).
    exists (x :: lo), eq, hi. split.
    + split_and!; try done. constructor; [rewrite Hcmp; lia|done].
    + intros y. rewrite Hel, elem_of_cons. split; [tauto|]. intros [[->|Hy] E]; [lia|done].
Qed.

Lemma key_sorted_inj xs x y : key_sorted xs -> x ∈ xs -> y ∈ xs -> f x = f y -> x = y.
Proof.
  intros Hs. induction Hs as [|z xs Hs IH Hz]; [by intros ?%elem_of_nil|].
  rewrite List.Forall_forall in Hz. rewrite !elem_of_cons.
  intros [->|Hx] [->|Hy] E; auto.
  - apply list_elem_of_In, Hz in Hy. lia.
  - apply list_elem_of_In, Hz in Hx. lia.
Qed.

(** Finding by key. *)
Lemma RB_FIND_key t key k x :
  key_sorted (inorder t) -> x ∈ inorder t -> f x = k ->
  RB_FIND (fun _ y => cmp_ptr k (f y)) t key = Some x.
Proof.
  intros Hs Hx Hk. destruct (sorted_cuts (fun _ y => cmp_ptr k (f y)) key k _ (fun _ => eq_refl) Hs)
    as (lo & eq & hi & Hc & Hel).
  rewrite (RB_FIND_cuts _ _ _ _ _ _ Hc). destruct (proj2 (Hel x) (conj Hx Hk)); [done|].
  pose proof Hc as (_ & _ & _ & _ & Hlen). simpl in Hlen. exfalso.
  destruct l; [set_solver|simpl in Hlen; lia].
Qed.

Lemma RB_FIND_none t key k :
  key_sorted (inorder t) -> (forall x, x ∈ inorder t -> f x <> k) ->
  RB_FIND (fun _ y => cmp_ptr k (f y)) t key = None.
Proof.
  intros Hs Hn. destruct (sorted_cuts (fun _ y => cmp_ptr k (f y)) key k _ (fun _ => eq_refl) Hs)
    as (lo & eq & hi & Hc & Hel).
  rewrite (RB_FIND_cuts _ _ _ _ _ _ Hc). destruct eq as [|x eq]; [done|].
  destruct (proj1 (Hel x)) as [Hx E]; [set_solver|]. by destruct (Hn x).
Qed.

Lemma key_sorted_insert lo elm hi :
  key_sorted (lo ++ hi) -> (forall x, x ∈ lo -> f x < f elm) -> (forall x, x ∈ hi -> f elm < f x) ->
  key_sorted (lo ++ elm :: hi).
Proof.
  intros Hs Hlo Hhi. induction lo as [|y lo IH]; simpl in *.
  - constructor; [done|]. apply List.Forall_forall. intros x Hx. apply Hhi. by apply list_elem_of_In.
  - inversion Hs as [|? ? Hs' Hy]; subst. rewrite List.Forall_forall in Hy. constructor.
    + apply IH; [done|]. intros x Hx. apply Hlo. set_solver.
    + apply List.Forall_forall. intros x Hx. apply list_elem_of_In in Hx.
      assert (Hye : f y < f elm) by (apply Hlo; set_solver).
      apply elem_of_app in Hx as [Hx|[->|Hx]%elem_of_cons]; [| done|];
        apply Hy, list_elem_of_In; set_solver.
Qed.

(** Inserting and removing in trees sorted by key. *)
Lemma RB_INSERT_key (cmp : A -> A -> Z) t elm :
  (forall x, cmp elm x = cmp_ptr (f elm) (f x)) ->
  rb_tree t -> key_sorted (inorder t) -> (forall x, x ∈ inorder t -> f x <> f elm) ->
  exists t', RB_INSERT cmp t elm = Some (None, t') /\ rb_tree t' /\ key_sorted (inorder t') /\
    forall x, x ∈ inorder t' <-> x = elm \/ x ∈ inorder t.
Proof.
  intros Hcmp Ht Hs Hn. destruct (sorted_cuts cmp elm (f elm) _ Hcmp Hs) as (lo & eq & hi & Hc & Hel).
  destruct eq as [|x eq]; [|destruct (proj1 (Hel x)) as [Hx E]; [set_solver|]; by destruct (Hn x)].
  destruct (RB_INSERT_new cmp t elm lo hi Ht Hc) as (t' & E & Ht' & Hi). exists t'.
  destruct Hc as (Exs & Hlo & _ & Hhi & _). simpl in Exs. split_and!; [done..| |].
  - rewrite Hi. apply key_sorted_insert; [by rewrite <- Exs| |].
    + intros x Hx. rewrite Forall_forall in Hlo. specialize (Hlo x Hx). rewrite Hcmp in Hlo.
      pose proof (cmp_ptr_spec (f elm) (f x)). lia.
    + intros x Hx. rewrite Forall_forall in Hhi. specialize (Hhi x Hx). rewrite Hcmp in Hhi.
      pose proof (cmp_ptr_spec (f elm) (f x)). lia.
  - intros x. rewrite Hi, Exs. set_solver.
Qed.

Lemma key_sorted_remove lo y hi : key_sorted (lo ++ y :: hi) -> key_sorted (lo ++ hi).
Proof.
  induction lo as [|x lo IH]; simpl; [by inversion 1|]. inversion 1 as [|? ? Hs Hx]; subst.
  constructor; [by apply IH|]. rewrite List.Forall_forall in *. intros z Hz. apply Hx.
  apply list_elem_of_In. apply list_elem_of_In in Hz. set_solver.
Qed.

Lemma RB_REMOVE_key (cmp : A -> A -> Z) t elm :
  (forall x, cmp elm x = cmp_ptr (f elm) (f x)) ->
  rb_tree t -> key_sorted (inorder t) -> elm ∈ inorder t ->
  exists t', RB_REMOVE cmp t elm = Some (elm, t') /\ rb_tree t' /\ key_sorted (inorder t') /\
    forall x, x ∈ inorder t' <-> x ∈ inorder t /\ x <> elm.
Proof.
  intros Hcmp Ht Hs Hin. destruct (sorted_cuts cmp elm (f elm) _ Hcmp Hs) as (lo & eq & hi & Hc & Hel).
  pose proof (proj2 (Hel elm) (conj Hin eq_refl)) as Hel'. pose proof Hc as (Exs & Hlo & _ & Hhi & Hlen).
  destruct eq as [|y [|? ?]]; [set_solver| |simpl in Hlen; lia].
  assert (y = elm) as -> by set_solver.
  destruct (RB_REMOVE_ok cmp t elm lo elm hi Ht Hc) as (t' & E & Ht' & Hi). exists t'. split_and!; [done..| |].
  - rewrite Hi. apply (key_sorted_remove _ elm). by rewrite Exs in Hs.
  - intros x. rewrite Hi, Exs. split.
    + intros Hx. split; [set_solver|]. intros ->. apply elem_of_app in Hx as [Hx|Hx].
      * rewrite Forall_forall in Hlo. specialize (Hlo _ Hx). rewrite Hcmp in Hlo.
        pose proof (cmp_ptr_spec (f elm) (f elm)). lia.
      * rewrite Forall_forall in Hhi. specialize (Hhi _ Hx). rewrite Hcmp in Hhi.
        pose proof (cmp_ptr_spec (f elm) (f elm)). lia.
    + set_solver.
Qed.
End keyed.

Lemma key_sorted_ext {A} (f g : A -> Z) xs : (forall x, x ∈ xs -> f x = g x) -> key_sorted f xs -> key_sorted g xs.
Proof.
  unfold key_sorted. intros Hfg Hf. induction Hf as [|x xs Hf IH Hx]; constructor.
  - apply IH. intros y Hy. apply Hfg. by right.
  - rewrite List.Forall_forall in *. intros y Hy. rewrite <- !Hfg; [by apply Hx|right; by apply list_elem_of_In|by left].
Qed.


(** ** Properties *)

(** C22 Inserting an element the tree does not hold returns NULL and puts it
    between the smaller and the larger elements; the tree stays a red-black
    tree. *)
Theorem RB_INSERT_correct {A} (cmp : A -> A -> Z) t elm lo hi :
  rb_tree t -> cuts cmp elm (inorder t) lo [] hi ->
  exists t', RB_INSERT cmp t elm = Some (None, t') /\ rb_tree t' /\ inorder t' = lo ++ elm :: hi.
Proof. apply RB_INSERT_new. Qed.

Lemma RB_INSERT_correct_witness :
  exists t', RB_INSERT Z.sub (Node RB_BLACK Leaf 3 Leaf) 5 = Some (None, t') /\ rb_tree t' /\
    inorder t' = [3; 5].
Proof.
  apply (RB_INSERT_correct Z.sub (Node RB_BLACK Leaf 3 Leaf) 5 [3] []).
  - exists 1%nat. repeat econstructor.
  - unfold cuts. split_and!; repeat constructor.
Defined.

(** C21 Removing an element of the tree returns it and takes it, and nothing
    else, out of the tree, which stays a red-black tree. *)
Theorem RB_REMOVE_correct {A} (cmp : A -> A -> Z) t elm lo y hi :
  rb_tree t -> cuts cmp elm (inorder t) lo [y] hi ->
  exists t', RB_REMOVE cmp t elm = Some (y, t') /\ rb_tree t' /\ inorder t' = lo ++ hi.
Proof. apply RB_REMOVE_ok. Qed.

Lemma RB_REMOVE_correct_witness :
  exists t', RB_REMOVE Z.sub (Node RB_BLACK (Node RB_BLACK Leaf 2 Leaf) 3 (Node RB_BLACK Leaf 8 Leaf)) 3
      = Some (3, t') /\ rb_tree t' /\ inorder t' = [2; 8].
Proof.
  apply (RB_REMOVE_correct Z.sub _ 3 [2] 3 [8]).
  - exists 2%nat. repeat econstructor.
  - unfold cuts. split_and!; repeat constructor.
Defined.

(** [RB_FIND] returns the element equal to the key, if any; [RB_NFIND]
    the first element that is not below it. *)
Theorem RB_FIND_correct {A} (cmp : A -> A -> Z) t key lo eq hi :
  cuts cmp key (inorder t) lo eq hi ->
  RB_FIND cmp t key = head eq /\ RB_NFIND cmp t key = head (eq ++ hi).
Proof. intros H. split; [exact (RB_FIND_cuts _ _ _ _ _ _ H)|exact (RB_NFIND_cuts _ _ _ _ _ _ H)]. Qed.

Lemma RB_FIND_correct_witness :
  RB_FIND Z.sub (Node RB_BLACK Leaf 3 (Node RB_RED Leaf 9 Leaf)) 5 = None /\
  RB_NFIND Z.sub (Node RB_BLACK Leaf 3 (Node RB_RED Leaf 9 Leaf)) 5 = Some 9.
Proof.
  apply (RB_FIND_correct Z.sub (Node RB_BLACK Leaf 3 (Node RB_RED Leaf 9 Leaf)) 5 [3] [] [9]).
  unfold cuts. split_and!; repeat constructor.
Defined.

(** [RB_FOREACH] visits every element once, in order, and terminates;
    [RB_MIN] and [RB_MAX] are the ends of that list. *)
Theorem RB_FOREACH_correct {A} (t : rbt A) fuel :
  (length (inorder t) < fuel)%nat ->
  RB_FOREACH fuel t = Some (inorder t) /\
  RB_MINMAX t (-1) = head (inorder t) /\ RB_MINMAX t 1 = last (inorder t).
Proof. intros H. auto using RB_FOREACH_inorder, RB_MINMAX_min, RB_MINMAX_max. Qed.

Lemma RB_FOREACH_correct_witness :
  RB_FOREACH 3 (Node RB_BLACK Leaf 3 (Node RB_RED Leaf 9 Leaf)) = Some [3; 9] /\
  RB_MINMAX (Node RB_BLACK Leaf 3 (Node RB_RED Leaf 9 Leaf)) (-1) = Some 3 /\
  RB_MINMAX (Node RB_BLACK Leaf 3 (Node RB_RED Leaf 9 Leaf)) 1 = Some 9.
Proof. apply (RB_FOREACH_correct (Node RB_BLACK Leaf 3 (Node RB_RED Leaf 9 Leaf)) 3). simpl. lia. Defined.
