(* ===== verification/FixedMapper.v ===== *)
(** * The fixed mapper: [src/fixmapper.c]

    The default page allocator: the container file is mapped as a whole at
    one address, page [pgno] of the file at [start_addr + pgno * PAGE_SIZE].
    [struct fixed_page] objects live in [fs_pages], their [free] links in
    [fs_links]; pointers to them are the addresses [malloc] gave.  [index] is
    the array of all pages, an entry [None] while it is uninitialised.

    [fm_wf] is the invariant; [fm_free] the free list as page numbers. *)
From Stdlib Require Import ZArith Lia Sorted.
From stdpp Require Import base numbers gmap option list.
From S2P Require Import Prelude Macros Queue Process.
Open Scope Z_scope.

Definition GIGABYTE := Z.shiftl 1 30.
Definition GIGABYTE_MASK := GIGABYTE - 1.
Definition TERABYTE := Z.shiftl 1 40.
Definition UINTPTR_MAX := 2 ^ 64 - 1.
Definition ROUND2GB (x : Z) : Z := Z.land (u64 (x + GIGABYTE_MASK)) (Z.lnot GIGABYTE_MASK).
Definition bytes2pgs (bytes : Z) : Z := bytes / PAGE_SIZE.
Definition DEFAULT_MAPPING_PROT := PA_PROT_READ.

(** ** [map_hint]: the loop over the lines of [/proc/self/maps] *)
Fixpoint map_hint_loop (lines : list (Z * Z)) (len raddr : Z) : Z :=
  match lines with
  | [] => raddr
  | (lo, hi) :: rest =>
      if (raddr <? lo) && (len <=? lo - raddr) then raddr
      else
        let raddr := if raddr <? hi then ROUND2GB hi else raddr in
        if raddr =? 0 then raddr else map_hint_loop rest len raddr
  end.

Definition map_hint (lines : list (Z * Z)) (len : Z) : Z :=
  let raddr := map_hint_loop lines len TERABYTE in
  if negb (raddr =? 0) && (UINTPTR_MAX - raddr <? len) then 0 else raddr.

(** ** State *)
Record fixed_page := FixedPage { fp_pgno : Z; fp_prot_flags : Z }.

Record fixed_mapper := FixedMapperRec {
  fm_file_size : Z;
  fm_start_addr : Z;
  fm_fl_size : Z;
  fm_fl_head : option Z;
  fm_fl_last : option Z;
  fm_index : option (list (option Z));
}.

Record fmst := Fmst {
  fs_proc : proc;
  fs_pages : gmap Z fixed_page;
  fs_links : gmap Z (option Z * sref Z);
  fs_fm : fixed_mapper;
}.

Definition on_proc {A} (m : M proc A) : M fmst A :=
  zoom fs_proc (fun p s => Fmst p (fs_pages s) (fs_links s) (fs_fm s)) m.
Definition on_links {A} (m : M (gmap Z (option Z * sref Z)) A) : M fmst A :=
  zoom fs_links (fun l s => Fmst (fs_proc s) (fs_pages s) l (fs_fm s)) m.
Definition set_fm (f : fixed_mapper -> fixed_mapper) : M fmst unit :=
  modify (fun s => Fmst (fs_proc s) (fs_pages s) (fs_links s) (f (fs_fm s))).
Definition fm {A} (f : fixed_mapper -> A) : M fmst A := gets (fun s => f (fs_fm s)).

Definition set_free_list (size : Z) (head last : option Z) : M fmst unit :=
  set_fm (fun f => FixedMapperRec (fm_file_size f) (fm_start_addr f) size head last (fm_index f)).
Definition set_file_size (n : Z) : M fmst unit :=
  set_fm (fun f => FixedMapperRec n (fm_start_addr f) (fm_fl_size f) (fm_fl_head f) (fm_fl_last f) (fm_index f)).
Definition set_start_addr (a : Z) : M fmst unit :=
  set_fm (fun f => FixedMapperRec (fm_file_size f) a (fm_fl_size f) (fm_fl_head f) (fm_fl_last f) (fm_index f)).
Definition set_index (ix : option (list (option Z))) : M fmst unit :=
  set_fm (fun f => FixedMapperRec (fm_file_size f) (fm_start_addr f) (fm_fl_size f) (fm_fl_head f) (fm_fl_last f) ix).

Definition get_page (ptr : Z) : M fmst fixed_page :=
  let! o := gets (fun s => fs_pages s !! ptr) in from_opt Unmapped o.
Definition put_page (ptr : Z) (p : fixed_page) : M fmst unit :=
  modify (fun s => Fmst (fs_proc s) (<[ptr := p]> (fs_pages s)) (fs_links s) (fs_fm s)).

(** [index[i]], as a pointer that is about to be followed. *)
Definition index_get (i : Z) : M fmst Z :=
  let! ix := fm fm_index in
  let! l := from_opt NullDeref ix in
  let! o := from_opt OutOfBounds (zget l i) in
  from_opt Uninit o.

Definition index_set (i ptr : Z) : M fmst unit :=
  let! ix := fm fm_index in
  let! l := from_opt NullDeref ix in
  let! l := from_opt OutOfBounds (zset l i (Some ptr)) in
  set_index (Some l).

(** [realloc]: the entries that fit are kept, new ones are uninitialised. *)
Definition index_realloc (n : Z) : M fmst unit :=
  let! ix := fm fm_index in
  let old := take (Z.to_nat n) (default [] ix) in
  set_index (Some (old ++ replicate (Z.to_nat n - length old) None)).

(** ** Operations *)

(** The [free] links of the new object are not initialised; the store gives
    them an arbitrary value. *)
Definition fixed_page_alloc (pgno : Z) : M fmst Z :=
  let! ptr := on_proc malloc in
  put_page ptr (FixedPage pgno DEFAULT_MAPPING_PROT) ;;;
  on_links (modify (<[ptr := (None, SHead)]>)) ;;;
  ret ptr.

(** [p = fm->index[i] = fixed_page_alloc(i)] *)
Definition index_new_page (i : Z) : M fmst Z :=
  let! p := fixed_page_alloc i in index_set i p ;;; ret p.

Definition update_mapping_prot : M fmst unit :=
  let! pgs := fm (fun f => bytes2pgs (fm_file_size f)) in
  for_ (Z.to_nat pgs) 0 (fun i =>
    let! ptr := index_get i in
    let! p := get_page ptr in
    let! start := fm fm_start_addr in
    on_proc (page_allocator_mprotect_generic (u64 (start + PAGE_SIZE * fp_pgno p)) PAGE_SIZE (fp_prot_flags p))).

Definition handle_fallocate (rc : fallocate_rc) : M fmst unit :=
  match rc with FA_OK => ret tt | _ => fail HandleError end.

(** The first new page goes to the head of the empty free list, each
    further one behind [last]. *)
Definition grow_first (i : Z) : M fmst unit :=
  let! p := index_new_page i in
  let! head := fm fm_fl_head in
  let! head := on_links (LIST_INSERT_HEAD head p) in
  let! size := fm fm_fl_size in
  set_free_list (u64 (size + 1)) head (Some p).

Definition grow_next (i : Z) : M fmst unit :=
  let! p := index_new_page i in
  let! last := fm fm_fl_last in
  let! last := from_opt NullDeref last in
  on_links (LIST_INSERT_AFTER last p) ;;;
  let! size := fm fm_fl_size in
  let! head := fm fm_fl_head in
  set_free_list (u64 (size + 1)) head (Some p).

Definition fixed_mapper_grow_file (new_size : Z) : M fmst unit :=
  let! size := fm fm_fl_size in
  assert_ (size =? 0) ;;;
  on_proc (stat (__INC_BOTH cont_grow)) ;;;
  let! file_size := fm fm_file_size in
  let! rc := on_proc (posix_fallocate file_size new_size) in
  handle_fallocate rc ;;;
  let current_size_pgs := bytes2pgs file_size in
  let new_size_pgs := bytes2pgs new_size in
  index_realloc new_size_pgs ;;;
  grow_first current_size_pgs ;;;
  let current_size_pgs := u64 (current_size_pgs + 1) in
  for_ (Z.to_nat (new_size_pgs - current_size_pgs)) current_size_pgs grow_next ;;;
  set_file_size new_size.

(** The last three statements on the address: map the file at [hint], insist
    on getting that address, and record it. *)
Definition map_at (hint file_size : Z) : M fmst unit :=
  let! addr := on_proc (mmap hint file_size DEFAULT_MAPPING_PROT 0) in
  assert_ (bool_decide (addr = Some hint)) ;;;
  set_start_addr hint.

Definition map_file (update_mappings : bool) : M fmst unit :=
  let! start := fm fm_start_addr in
  let! file_size := fm fm_file_size in
  let! hint := (if start =? 0 then
                  let! lines := on_proc (gets p_maps) in ret (map_hint lines file_size)
                else
                  let! _ := on_proc (munmap start file_size) in ret start) in
  assert_ (negb (hint =? 0)) ;;;
  map_at hint file_size ;;;
  when update_mappings update_mapping_prot.

(** The [calloc]ed mapper: a fresh process has no page objects. *)
Definition fixed_mapper_init (e : env) : M fmst unit :=
  let! len := on_proc (gets p_file) in
  set_fm (fun _ => FixedMapperRec len 0 0 LIST_INIT None None) ;;;
  when (len =? 0)
    (let file_size := match PMLIB_INIT_SIZE e with
                      | None => FM_FILE_SIZE
                      | Some v => MAX (ROUNDPG (u64 v)) PAGE_SIZE
                      end in
     fixed_mapper_grow_file file_size) ;;;
  map_file false.

Definition fixed_mapper_close : M fmst Z :=
  let! file_size := fm fm_file_size in
  for_ (Z.to_nat (bytes2pgs file_size)) 0 (fun i =>
    let! ptr := index_get i in
    modify (fun s => Fmst (fs_proc s) (delete ptr (fs_pages s)) (delete ptr (fs_links s)) (fs_fm s))) ;;;
  let! start := fm fm_start_addr in
  let! rc := on_proc (munmap start file_size) in
  assert_ (rc =? 0) ;;;
  ret 0.

(** The head of the free list leaves it. *)
Definition take_free_page : M fmst Z :=
  let! head := fm fm_fl_head in
  let! ptr := from_opt NullDeref (LIST_FIRST head) in
  let! head := on_links (LIST_REMOVE head ptr) in
  let! size := fm fm_fl_size in
  let! last := fm fm_fl_last in
  let size := u64 (size - 1) in
  set_free_list size head (if size =? 0 then None else last) ;;;
  ret ptr.

(** The address and, through [laddr], the offset in the file. *)
Definition fixed_mapper_alloc_page (flags : Z) : M fmst (Z * Z) :=
  let! size := fm fm_fl_size in
  when (size =? 0)
    (let! file_size := fm fm_file_size in
     fixed_mapper_grow_file (u64 (file_size * 2)) ;;;
     map_file true) ;;;
  let! ptr := take_free_page in
  let! p := get_page ptr in
  let! start := fm fm_start_addr in
  let addr := u64 (start + fp_pgno p * PAGE_SIZE) in
  let laddr := u64 (fp_pgno p * PAGE_SIZE) in
  when (negb (Z.land flags PA_PROT_WRITE =? 0))
    (on_proc (page_allocator_mprotect_generic addr PAGE_SIZE flags)) ;;;
  put_page ptr (FixedPage (fp_pgno p) flags) ;;;
  ret (addr, laddr).

Definition fixed_mapper_alloc_pages (n flags : Z) : M fmst (Z * Z) := fail HandleError.

(** Put a page object at the end of the free list. *)
Definition append_free (ptr : Z) : M fmst unit :=
  let! last := fm fm_fl_last in
  let! head := fm fm_fl_head in
  let! head := (match last with
                | Some q => on_links (LIST_INSERT_AFTER q ptr) ;;; ret head
                | None => on_links (LIST_INSERT_HEAD head ptr)
                end) in
  let! size := fm fm_fl_size in
  set_free_list (u64 (size + 1)) head (Some ptr).

Definition fixed_mapper_freepages (maddr : Z) : M fmst unit :=
  let maddr_paligned := itop (ROUND_DWNPG (ptoi maddr)) in
  assert_ (maddr =? maddr_paligned) ;;;
  let! start := fm fm_start_addr in
  let pgno := Z.quot (maddr - start) PAGE_SIZE in
  let! p := index_get pgno in
  append_free p.

Definition fixed_mapper_getaddress (laddr : Z) : M fmst Z :=
  let! start := fm fm_start_addr in ret (u64 (start + laddr)).

Definition fixed_mapper_noswap (xaddr ypgoff yaddr xpgoff : Z) : M fmst unit := fail HandleError.

(** ** [map_hint] *)
Definition sorted_ranges (lines : list (Z * Z)) : Prop :=
  StronglySorted (fun a b => a.2 <= b.1) lines /\ Forall (fun r => 0 <= r.1 < r.2 /\ r.2 < 2 ^ 64) lines.

(** An address [map_hint] may answer. *)
Definition hint_ok (lines : list (Z * Z)) (len a : Z) : Prop :=
  TERABYTE <= a /\ a mod GIGABYTE = 0 /\ a + len <= UINTPTR_MAX /\ range_free lines a len = true.

Lemma ROUND2GB_spec x :
  0 <= x < 2 ^ 64 ->
  if x <=? 2 ^ 64 - GIGABYTE
  then (GIGABYTE | ROUND2GB x) /\ x <= ROUND2GB x /\ forall y, (GIGABYTE | y) -> x <= y -> ROUND2GB x <= y
  else ROUND2GB x = 0.
Proof.
  intros Hx. assert (HG : GIGABYTE = 2 ^ 30) by reflexivity.
  unfold ROUND2GB, u64, wrap. rewrite (mask_down _ _ 30) by (done || reflexivity).
  unfold GIGABYTE_MASK. rewrite HG. destruct (Z.leb_spec x (2 ^ 64 - 2 ^ 30)).
  - rewrite (Z.mod_small (x + (2 ^ 30 - 1))) by lia.
    destruct (round_up_least x (2 ^ 30)) as (H1 & H2 & H3); [lia|]. split_and!; [done|lia|done].
  - replace (x + (2 ^ 30 - 1)) with (x + (2 ^ 30 - 1) - 2 ^ 64 + 1 * 2 ^ 64) by lia.
    rewrite Z.mod_add by lia. rewrite (Z.mod_small (x + (2 ^ 30 - 1) - 2 ^ 64)) by lia.
    rewrite Z.mod_small by lia. lia.
Qed.

Lemma disjoint_range_spec a len r :
  disjoint_range a len r = true <-> a + len <= r.1 \/ r.2 <= a.
Proof. unfold disjoint_range. by bsimpl. Qed.

Lemma map_hint_loop_least lines len raddr :
  0 < len -> sorted_ranges lines -> 0 < raddr < 2 ^ 64 -> raddr mod GIGABYTE = 0 ->
  let r := map_hint_loop lines len raddr in
  (r <> 0 -> raddr <= r < 2 ^ 64 /\ r mod GIGABYTE = 0 /\ range_free lines r len = true) /\
  forall a, raddr <= a < 2 ^ 64 -> a mod GIGABYTE = 0 -> range_free lines a len = true -> r <> 0 /\ r <= a.
Proof.
  intros Hlen Hs. revert raddr. destruct Hs as [Hss Hok].
  induction Hss as [|[lo hi] lines Hss IH Hhd]; intros raddr Hr Hal; simpl.
  { split; [intros _; split_and!; (done || lia)|intros; lia]. }
  inversion Hok as [|? ? Hlh Hok' E]; subst. clear Hok. simpl in Hlh.
  assert (HG : GIGABYTE = 2 ^ 30) by reflexivity.
  destruct ((raddr <? lo) && (len <=? lo - raddr)) eqn:Eb; bsimpl.
  - split; [|intros; lia]. intros _. split_and!; [lia|lia|done| |].
    + apply disjoint_range_spec. simpl. lia.
    + apply forallb_forall. intros q Hq. apply disjoint_range_spec.
      rewrite List.Forall_forall in Hhd. specialize (Hhd q Hq). simpl in Hhd. lia.
  - assert (Hfree : forall a, raddr <= a -> disjoint_range a len (lo, hi) = true -> hi <= a).
    { intros a Ha [H|H]%disjoint_range_spec; simpl in H; [lia|done]. }
    destruct (Z.ltb_spec raddr hi).
    + pose proof (ROUND2GB_spec hi ltac:(lia)) as HR.
      destruct (Z.leb_spec hi (2 ^ 64 - GIGABYTE)).
      * destruct HR as (Hd & Hge & Hleast). destruct (Z.eqb_spec (ROUND2GB hi) 0); [lia|].
        assert (ROUND2GB hi <= 2 ^ 64 - GIGABYTE) by (apply Hleast; [exists (2 ^ 34 - 1); lia|done]).
        destruct (IH Hok' (ROUND2GB hi)) as [IH1 IH2]; [lia|by apply Z.mod_divide|]. split.
        -- intros Hne. destruct (IH1 Hne) as (? & ? & ?). split_and!; try done; try lia.
           apply disjoint_range_spec. simpl. lia.
        -- intros a Ha Ham [Hf1 Hf2]%andb_true_iff. apply IH2; [|done|done].
           split; [|lia]. apply Hleast; [by apply Z.mod_divide|]. apply Hfree; [lia|done].
      * rewrite HR. simpl. split; [done|]. intros a Ha Ham [Hf1 Hf2]%andb_true_iff.
        specialize (Hfree a ltac:(lia) Hf1). apply Z.mod_divide in Ham as [k ->]; lia.
    + destruct (Z.eqb_spec raddr 0); [lia|]. destruct (IH Hok' raddr Hr Hal) as [IH1 IH2]. split.
      * intros Hne. destruct (IH1 Hne) as (? & ? & ?). split_and!; try done; try lia.
        apply disjoint_range_spec. simpl. lia.
      * intros a Ha Ham [Hf1 Hf2]%andb_true_iff. by apply IH2.
Qed.

Lemma map_hint_least lines len :
  sorted_ranges lines -> 0 < len ->
  let r := map_hint lines len in
  (r <> 0 -> hint_ok lines len r) /\
  forall a, hint_ok lines len a -> r <> 0 /\ r <= a.
Proof.
  intros Hs Hlen. assert (HT : TERABYTE = 2 ^ 40) by reflexivity.
  destruct (map_hint_loop_least lines len TERABYTE Hlen Hs) as [H1 H2]; [lia|reflexivity|].
  unfold map_hint, hint_ok, UINTPTR_MAX in *. cbv zeta.
  set (r := map_hint_loop lines len TERABYTE) in *.
  destruct (Z.eqb_spec r 0) as [E|E]; simpl.
  - split; [done|]. intros a (Ha & Hm & Hb & Hf). destruct (H2 a); [lia|done..].
  - destruct (H1 E) as (? & ? & ?). destruct (Z.ltb_spec (2 ^ 64 - 1 - r) len).
    + split; [done|]. intros a (Ha & Hm & Hb & Hf). destruct (H2 a); [lia|done|done|]. lia.
    + split; [intros _; split_and!; (done || lia)|]. intros a (Ha & Hm & Hb & Hf). apply H2; [lia|done..].
Qed.

(** ** Invariant

    [ps] lists the page objects by page number; [F] is the free list as page
    numbers; [k] entries of the index are still uninitialised. *)
Definition free_repr (s : fmst) (ps F : list Z) : Prop :=
  exists l, Forall2 (fun f ptr => zget ps f = Some ptr) F l /\
    dlist_repr (fs_links s) (fm_fl_head (fs_fm s)) l /\
    fm_fl_last (fs_fm s) = last l /\ fm_fl_size (fs_fm s) = zlen F.

Record fm_objs (s : fmst) (ps F : list Z) (k : nat) : Prop := {
  ob_index : fm_index (fs_fm s) = Some ((Some <$> ps) ++ replicate k None);
  ob_pages : forall i ptr, zget ps i = Some ptr -> exists pr, fs_pages s !! ptr = Some (FixedPage i pr);
  ob_links : forall ptr, ptr ∈ ps -> is_Some (fs_links s !! ptr);
  ob_fresh : forall ptr, is_Some (fs_pages s !! ptr) -> ptr < p_brk (fs_proc s);
  ob_free : free_repr s ps F;
}.

(** The whole file, [n] pages, is mapped at [start] and nowhere else. *)
Record fm_mapped (s : fmst) (start n : Z) : Prop := {
  mp_size : fm_file_size (fs_fm s) = PAGE_SIZE * n;
  mp_pos : 0 < n;
  mp_start : fm_start_addr (fs_fm s) = start;
  mp_range : 0 < start /\ start + PAGE_SIZE * n <= 2 ^ 64;
  mp_aligned : start mod PAGE_SIZE = 0;
  mp_vm : forall i, 0 <= i < n -> p_vm (fs_proc s) !! (start + PAGE_SIZE * i) = Some (PAGE_SIZE * i);
  mp_only : forall a, is_Some (p_vm (fs_proc s) !! a) -> exists i, 0 <= i < n /\ a = start + PAGE_SIZE * i;
}.

Record fm_wf (s : fmst) (start n : Z) (ps F : list Z) : Prop := {
  fw_objs : fm_objs s ps F 0;
  fw_mapped : fm_mapped s start n;
  fw_len : zlen ps = n;
}.

(** Only page objects, links, the free list and the heap break changed. *)
Definition quiet (s s' : fmst) : Prop :=
  (exists b, fs_proc s' = set_brk b (fs_proc s)) /\
  fm_file_size (fs_fm s') = fm_file_size (fs_fm s) /\ fm_start_addr (fs_fm s') = fm_start_addr (fs_fm s).

Lemma quiet_refl s : quiet s s.
Proof. split; [exists (p_brk (fs_proc s)); by destruct (fs_proc s)|done]. Qed.

Lemma quiet_trans s1 s2 s3 : quiet s1 s2 -> quiet s2 s3 -> quiet s1 s3.
Proof.
  intros ([b1 H1] & H2 & H3) ([b2 H4] & H5 & H6). split; [|split; congruence].
  exists b2. rewrite H4, H1. by destruct (fs_proc s1).
Qed.

Lemma quiet_mapped s s' start n : quiet s s' -> fm_mapped s start n -> fm_mapped s' start n.
Proof.
  intros ([b E] & Hf & Hs) [? ? ? ? ? ? ?].
  split; rewrite ?Hf, ?Hs, ?E; simpl; assumption.
Qed.

Lemma zget_fmap_Some (ps : list Z) i : zget (Some <$> ps) i = Some <$> zget ps i.
Proof. unfold zget. destruct (0 <=? i); [|done]. apply list_lookup_fmap. Qed.

Lemma zset_next {A} (l : list A) x y (r : list A) :
  zset (l ++ x :: r) (zlen l) y = Some (l ++ y :: r).
Proof.
  unfold zset, zlen. rewrite length_app. simpl.
  rewrite (proj2 (Z.leb_le _ _)), (proj2 (Z.ltb_lt _ _)) by lia. simpl. f_equal.
  rewrite Nat2Z.id. rewrite insert_app_r_alt by lia. by rewrite Nat.sub_diag.
Qed.

Lemma zget_snoc_lt {A} (l : list A) x i y : zget l i = Some y -> zget (l ++ [x]) i = Some y.
Proof. intros H. rewrite zget_app_l; [done|]. apply zget_lt in H. lia. Qed.

Lemma zget_snoc_inv {A} (l : list A) x i y :
  zget (l ++ [x]) i = Some y -> zget l i = Some y \/ i = zlen l /\ y = x.
Proof.
  intros H. destruct (Z.lt_ge_cases i (zlen l)).
  - left. by rewrite zget_app_l in H.
  - rewrite zget_app_r in H by done. pose proof (zget_lt _ _ _ H) as Hl. assert (Hx : zlen [x] = 1) by reflexivity. rewrite Hx in Hl.
    right. assert (E : i - zlen l = 0) by lia. rewrite E in H. injection H as ->. split; [lia|done].
Qed.

Lemma dlseg_is_Some (L : gmap Z (option Z * sref Z)) prev p l x :
  dlseg L prev p l -> x ∈ l -> is_Some (L !! x).
Proof.
  revert prev p. induction l as [|y l IH]; intros prev p; simpl; [by intros _ ?%elem_of_nil|].
  intros (_ & q & Hy & Hl) [->|Hx]%elem_of_cons; [|eauto]. by eexists.
Qed.

Lemma Forall2_zget_snoc (ps F l : list Z) ptr :
  Forall2 (fun f p => zget ps f = Some p) F l -> Forall2 (fun f p => zget (ps ++ [ptr]) f = Some p) F l.
Proof. intros H. eapply Forall2_impl; [exact H|]. intros f p. apply zget_snoc_lt. Qed.

Lemma free_elem ps (F l : list Z) p :
  Forall2 (fun f p => zget ps f = Some p) F l -> p ∈ l -> p ∈ ps.
Proof.
  intros H (i & Hi)%list_elem_of_lookup. destruct (Forall2_lookup_r _ _ _ _ _ H Hi) as (f & _ & Hf).
  unfold zget in Hf. destruct (0 <=? f); [|done]. by eapply list_elem_of_lookup_2.
Qed.

(** A fresh page object for the next page number, not yet on the free list. *)
Definition with_new_page (s : fmst) (i : Z) (ix : list (option Z)) : fmst :=
  let ptr := p_brk (fs_proc s) in
  let f := fs_fm s in
  Fmst (set_brk (ptr + 1) (fs_proc s)) (<[ptr := FixedPage i DEFAULT_MAPPING_PROT]> (fs_pages s))
    (<[ptr := (None, SHead)]> (fs_links s))
    (FixedMapperRec (fm_file_size f) (fm_start_addr f) (fm_fl_size f) (fm_fl_head f) (fm_fl_last f) (Some ix)).

Lemma new_page_run s ps F k (Q : Z -> fmst -> Prop) :
  fm_objs s ps F (S k) ->
  let ptr := p_brk (fs_proc s) in
  Q ptr (with_new_page s (zlen ps) ((Some <$> (ps ++ [ptr])) ++ replicate k None)) ->
  wp (index_new_page (zlen ps)) Q s.
Proof.
  intros [Hix _ _ _ _] ptr HQ. unfold index_new_page.
  apply wp_bind. eapply wp_ok; [reflexivity|]. apply wp_bind. unfold index_set.
  apply wp_bind, wp_gets, wp_bind. cbn [fs_fm]. eapply wp_from_opt; [exact Hix|].
  apply wp_bind. eapply wp_from_opt.
  - replace (zlen ps) with (zlen (Some <$> ps : list (option Z))) by (unfold zlen; by rewrite length_fmap).
    apply zset_next.
  - unfold with_new_page in HQ. rewrite fmap_app, <- app_assoc in HQ. exact HQ.
Qed.

Lemma elem_zget {A} (l : list A) x : x ∈ l -> exists i, zget l i = Some x.
Proof.
  intros (i & Hi)%list_elem_of_lookup. exists (Z.of_nat i). unfold zget.
  rewrite (proj2 (Z.leb_le _ _)) by lia. by rewrite Nat2Z.id.
Qed.

Lemma ps_old s ps F k p : fm_objs s ps F k -> p ∈ ps -> p < p_brk (fs_proc s).
Proof.
  intros H Hp. apply (ob_fresh _ _ _ _ H). destruct (elem_zget _ _ Hp) as [i Hi].
  destruct (ob_pages _ _ _ _ H _ _ Hi) as [pr ->]. by eexists.
Qed.

Lemma dlist_frame (L L' : gmap Z (option Z * sref Z)) h l :
  dlist_repr L h l -> (forall j, j ∈ l -> L' !! j = L !! j) -> dlist_repr L' h l.
Proof. intros [Hl Hn] Hf. split; [|done]. by eapply dlseg_frame. Qed.

Lemma with_new_page_objs s ps F k :
  fm_objs s ps F (S k) ->
  let ptr := p_brk (fs_proc s) in
  let s' := with_new_page s (zlen ps) ((Some <$> (ps ++ [ptr])) ++ replicate k None) in
  fm_objs s' (ps ++ [ptr]) F k /\ quiet s s' /\ (forall p, p ∈ ps -> p <> ptr).
Proof.
  intros H ptr s'. assert (Hne : forall p, p ∈ ps -> p <> ptr) by (intros p Hp ->; apply (ps_old _ _ _ _ _ H) in Hp; lia).
  split_and!; [|split; [by eexists|done]|done]. pose proof H as [Hix Hpg Hlk Hfr Hf].
  split; simpl.
  - done.
  - intros i p [Hp|[-> ->]]%zget_snoc_inv.
    + destruct (Hpg _ _ Hp) as [pr E]. exists pr. rewrite lookup_insert_ne; [done|].
      intros Ep. apply (Hne p); [|done]. unfold zget in Hp. destruct (0 <=? i); [|done]. by eapply list_elem_of_lookup_2.
    + rewrite lookup_insert_eq. by eexists.
  - intros p [Hp| ->%list_elem_of_singleton]%elem_of_app; [|rewrite lookup_insert_eq; by eexists].
    rewrite lookup_insert_ne; [by apply Hlk|]. intros Ep. by apply (Hne p).
  - intros p. destruct (decide (p = ptr)) as [->|]; [lia|].
    rewrite lookup_insert_ne by done. intros Hp. apply Hfr in Hp. lia.
  - destruct Hf as (l & Hl & Hd & Hlast & Hsz). exists l. simpl. split_and!; try done.
    + by apply Forall2_zget_snoc.
    + eapply dlist_frame; [exact Hd|]. intros j Hj. apply lookup_insert_ne. intros E.
      apply (Hne j); [|done]. by eapply free_elem.
Qed.

(** Writing the free list. *)
Definition with_free (s : fmst) (L : gmap Z (option Z * sref Z)) (size : Z) (head last : option Z) : fmst :=
  let f := fs_fm s in
  Fmst (fs_proc s) (fs_pages s) L
    (FixedMapperRec (fm_file_size f) (fm_start_addr f) size head last (fm_index f)).

Lemma with_free_objs s ps F F' k L size head l :
  fm_objs s ps F k ->
  Forall2 (fun f ptr => zget ps f = Some ptr) F' l -> dlist_repr L head l -> size = zlen F' ->
  (forall p, p ∈ ps -> p ∉ l -> is_Some (L !! p)) ->
  fm_objs (with_free s L size head (last l)) ps F' k /\ quiet s (with_free s L size head (last l)).
Proof.
  intros [Hix Hpg Hlk Hfr Hf] HF Hd Hsz HL.
  split; [|split; [exists (p_brk (fs_proc s)); simpl; by destruct (fs_proc s)|done]]. split; simpl; try done.
  - intros p Hp. destruct (decide (p ∈ l)); [|by apply HL]. destruct Hd as [Hd _].
    by eapply dlseg_is_Some.
  - exists l. split_and!; done.
Qed.

Lemma Forall2_snoc {A B} (R : A -> B -> Prop) l k x y :
  Forall2 R l k -> R x y -> Forall2 R (l ++ [x]) (k ++ [y]).
Proof. intros H1 H2. apply Forall2_app; [done|by constructor]. Qed.

Lemma append_free_run s ps F k i ptr (Q : unit -> fmst -> Prop) :
  fm_objs s ps F k -> zget ps i = Some ptr -> i ∉ F -> zlen F + 1 < 2 ^ 64 ->
  (forall s', fm_objs s' ps (F ++ [i]) k -> quiet s s' -> fs_pages s' = fs_pages s -> Q tt s') ->
  wp (append_free ptr) Q s.
Proof.
  intros Ho Hptr Hi Hsz HQ. pose proof Ho as [Hix Hpg Hlk Hfr (l & Hl & Hd & Hlast & Hs)].
  assert (Hin : ptr ∈ ps).
  { unfold zget in Hptr. destruct (0 <=? i); [|done]. by eapply list_elem_of_lookup_2. }
  assert (Hnl : ptr ∉ l).
  { intros (j & Hj)%list_elem_of_lookup. destruct (Forall2_lookup_r _ _ _ _ _ Hl Hj) as (f & Hf & Hz).
    destruct (Hpg _ _ Hz) as [pr1 E1]. destruct (Hpg _ _ Hptr) as [pr2 E2]. rewrite E1 in E2.
    injection E2 as -> _. apply Hi. eapply list_elem_of_lookup_2. exact Hf. }
  destruct (Hlk _ Hin) as [v Hv].
  assert (Hfin : forall L h, dlist_repr L h (l ++ [ptr]) ->
    (forall j, j <> ptr -> j ∉ l -> L !! j = fs_links s !! j) ->
    Q tt (with_free s L (u64 (fm_fl_size (fs_fm s) + 1)) h (Some ptr))).
  { intros L h Hd' HL. replace (Some ptr) with (last (l ++ [ptr])) by apply last_snoc.
    destruct (with_free_objs s ps F (F ++ [i]) k L (u64 (fm_fl_size (fs_fm s) + 1)) h (l ++ [ptr])) as [H1 H2]; try done.
    - by apply Forall2_snoc.
    - rewrite Hs. unfold u64. rewrite wrap_id; unfold zlen in *; [rewrite length_app; simpl; lia|].
      unfold in_u. lia.
    - intros p Hp [Hp1 Hp2]%not_elem_of_app. rewrite HL; [by apply Hlk| |done].
      intros ->. apply Hp2. by constructor.
    - by apply HQ. }
  unfold append_free, fm. msteps. rewrite Hlast. destruct l as [|x l _] using rev_ind.
  - simpl. apply wp_zoom. eapply wp_mono; [eapply LIST_INSERT_HEAD_repr; [exact Hd|apply not_elem_of_nil|exact Hv]|].
    intros h' L' [Hd' HL']. unfold set_free_list, set_fm. msteps. apply (Hfin L' h'); [done|].
    intros j Hj1 Hj2. by apply HL'.
  - rewrite last_snoc. msteps. apply wp_zoom.
    eapply wp_mono; [eapply LIST_INSERT_AFTER_last_repr; [exact Hd|done|exact Hv]|].
    intros [] L' [Hd' HL']. unfold set_free_list, set_fm. msteps.
    apply (Hfin L' (fm_fl_head (fs_fm s))); [done|]. intros j Hj1 Hj2. by apply HL'.
Qed.

Definition with_index (s : fmst) (ix : list (option Z)) : fmst :=
  let f := fs_fm s in
  Fmst (fs_proc s) (fs_pages s) (fs_links s)
    (FixedMapperRec (fm_file_size f) (fm_start_addr f) (fm_fl_size f) (fm_fl_head f) (fm_fl_last f) (Some ix)).

Lemma with_index_objs s ps F k ix k' :
  fm_objs (with_index s ix) ps F k -> fm_objs (with_index s ((Some <$> ps) ++ replicate k' None)) ps F k'.
Proof. intros [? ? ? ? ?]. by split. Qed.

Lemma index_realloc_run s ps m (Q : unit -> fmst -> Prop) :
  default [] (fm_index (fs_fm s)) = Some <$> ps -> zlen ps <= m ->
  Q tt (with_index s ((Some <$> ps) ++ replicate (Z.to_nat m - length ps) None)) ->
  wp (index_realloc m) Q s.
Proof.
  intros Hd Hm HQ. unfold index_realloc, fm, set_index, set_fm. msteps. rewrite Hd.
  rewrite take_ge by (rewrite length_fmap; unfold zlen in Hm; lia). rewrite length_fmap. exact HQ.
Qed.

(** The state after the loop turns up to page [i]. *)
Definition grow_inv (s : fmst) (ps : list Z) (m i : Z) (s' : fmst) : Prop :=
  exists ps', zlen (ps ++ ps') = i /\ fm_objs s' (ps ++ ps') (seqZ (zlen ps) (i - zlen ps)) (Z.to_nat (m - i)) /\
    quiet s s' /\ (forall p, p ∈ ps -> fs_pages s' !! p = fs_pages s !! p).

Lemma grow_step s ps m i s1 (Q : unit -> fmst -> Prop) :
  grow_inv s ps m i s1 -> zlen ps <= i < m -> m < 2 ^ 63 ->
  (forall s2, grow_inv s ps m (i + 1) s2 -> Q tt s2) ->
  wp (let! p := index_new_page i in append_free p) Q s1.
Proof.
  intros (ps' & Hl & Ho & Hq & Hpg) Hi Hm HQ. pose proof (zlen_nonneg ps) as Hps0.
  replace (Z.to_nat (m - i)) with (S (Z.to_nat (m - (i + 1)))) in Ho by lia.
  destruct (with_new_page_objs _ _ _ _ Ho) as (Ho' & Hq' & Hne).
  set (ptr := p_brk (fs_proc s1)) in *. rewrite <- Hl. apply wp_bind.
  eapply new_page_run; [exact Ho|]. fold ptr.
  eapply (append_free_run _ _ _ _ (zlen (ps ++ ps'))); [exact Ho'| | | |].
  - rewrite zget_app_r by lia. rewrite Z.sub_diag. done.
  - rewrite elem_of_seqZ. lia.
  - unfold zlen at 1. rewrite length_seqZ. lia.
  - intros s2 Ho2 Hq2 Hpg2. apply HQ. exists (ps' ++ [ptr]). rewrite app_assoc. split_and!.
    + unfold zlen in *. rewrite length_app. simpl. lia.
    + replace (i + 1 - zlen ps) with (i - zlen ps + 1) by lia. rewrite seqZ_app by lia.
      replace (zlen ps + (i - zlen ps)) with i by lia. rewrite Hl in Ho2. exact Ho2.
    + eapply quiet_trans; [exact Hq|]. eapply quiet_trans; [exact Hq'|exact Hq2].
    + intros p Hp. rewrite Hpg2. unfold with_new_page. simpl.
      rewrite lookup_insert_ne; [by apply Hpg|]. intros E. apply (Hne p); [set_solver|done].
Qed.

(** Both ways the source extends the list are [append_free]. *)
Lemma append_free_first ptr s :
  fm_fl_last (fs_fm s) = None ->
  append_free ptr s = (let! head := fm fm_fl_head in
    let! head := on_links (LIST_INSERT_HEAD head ptr) in
    let! size := fm fm_fl_size in
    set_free_list (u64 (size + 1)) head (Some ptr)) s.
Proof.
  intros H. unfold append_free, fm, bind, gets, ret. rewrite H.
  unfold on_links, zoom. by destruct (LIST_INSERT_HEAD _ _ _).
Qed.

Lemma append_free_after ptr q s :
  fm_fl_last (fs_fm s) = Some q ->
  append_free ptr s = (let! last := fm fm_fl_last in
    let! last := from_opt NullDeref last in
    on_links (LIST_INSERT_AFTER last ptr) ;;;
    let! size := fm fm_fl_size in
    let! head := fm fm_fl_head in
    set_free_list (u64 (size + 1)) head (Some ptr)) s.
Proof.
  intros H. unfold append_free, fm, bind, gets, from_opt, ret. rewrite H.
  unfold on_links, zoom. by destruct (LIST_INSERT_AFTER _ _ _).
Qed.

Lemma grow_inv_start s ps m s1 :
  fm_objs s1 ps [] (Z.to_nat m - length ps) -> quiet s s1 -> fs_pages s1 = fs_pages s ->
  grow_inv s ps m (zlen ps) s1.
Proof.
  intros Ho Hq Hp. exists []. rewrite app_nil_r, Z.sub_diag. split_and!; [done| |done|by rewrite Hp].
  replace (Z.to_nat (m - zlen ps)) with (Z.to_nat m - length ps)%nat by (unfold zlen; lia). done.
Qed.

Lemma grow_step_first s ps m s1 (Q : unit -> fmst -> Prop) :
  grow_inv s ps m (zlen ps) s1 -> zlen ps < m -> m < 2 ^ 63 ->
  (forall s2, grow_inv s ps m (zlen ps + 1) s2 -> Q tt s2) ->
  wp (grow_first (zlen ps)) Q s1.
Proof.
  intros Hg Hm Hm' HQ. pose proof Hg as (ps' & Hl & Ho & _).
  assert (Hnil : fm_fl_last (fs_fm s1) = None).
  { destruct (ob_free _ _ _ _ Ho) as (l & Hl' & _ & -> & _). rewrite Z.sub_diag in *. by inversion Hl'. }
  pose proof (grow_step s ps m (zlen ps) s1 Q Hg ltac:(lia) Hm' HQ) as Hw. revert Hw.
  assert (Hix : exists p s2, index_new_page (zlen ps) s1 = Ok p s2 /\ fm_fl_last (fs_fm s2) = None).
  { replace (Z.to_nat (m - zlen ps)) with (S (Z.to_nat (m - (zlen ps + 1)))) in Ho by lia.
    assert (Hw : wp (index_new_page (zlen (ps ++ ps'))) (fun _ s2 => fm_fl_last (fs_fm s2) = None) s1).
    { eapply new_page_run; [exact Ho|]. done. }
    apply wp_run in Hw as (p & s2 & E & H). rewrite Hl in E. eauto. }
  destruct Hix as (p & s2 & E & Hlast). unfold grow_first, wp.
  rewrite !(bind_run _ _ _ _ _ E). by rewrite append_free_first.
Qed.

Lemma grow_step_next s ps m i s1 (Q : unit -> fmst -> Prop) :
  grow_inv s ps m i s1 -> zlen ps < i < m -> m < 2 ^ 63 ->
  (forall s2, grow_inv s ps m (i + 1) s2 -> Q tt s2) ->
  wp (grow_next i) Q s1.
Proof.
  intros Hg Hi Hm' HQ. pose proof Hg as (ps' & Hl & Ho & _).
  assert (Hlast : is_Some (fm_fl_last (fs_fm s1))).
  { destruct (ob_free _ _ _ _ Ho) as (l & Hl' & _ & -> & _). apply Forall2_length in Hl'.
    rewrite length_seqZ in Hl'. destruct l as [|x l _] using rev_ind; [simpl in Hl'; lia|].
    rewrite last_snoc. by eexists. }
  destruct Hlast as [q Hq].
  pose proof (grow_step s ps m i s1 Q Hg ltac:(lia) Hm' HQ) as Hw. revert Hw.
  assert (Hix : exists p s2, index_new_page i s1 = Ok p s2 /\ fm_fl_last (fs_fm s2) = Some q).
  { replace (Z.to_nat (m - i)) with (S (Z.to_nat (m - (i + 1)))) in Ho by lia.
    assert (Hw : wp (index_new_page (zlen (ps ++ ps'))) (fun _ s2 => fm_fl_last (fs_fm s2) = Some q) s1).
    { eapply new_page_run; [exact Ho|]. done. }
    apply wp_run in Hw as (p & s2 & E & H). rewrite Hl in E. eauto. }
  destruct Hix as (p & s2 & E & Hlast). unfold grow_next, wp.
  rewrite !(bind_run _ _ _ _ _ E). by rewrite (append_free_after _ q).
Qed.

(** What a successful growth to [m] pages does, the mapping apart. *)
Definition grown (s : fmst) (ps : list Z) (m : Z) (s' : fmst) : Prop :=
  exists ps', zlen (ps ++ ps') = m /\ fm_objs s' (ps ++ ps') (seqZ (zlen ps) (m - zlen ps)) 0 /\
    fm_file_size (fs_fm s') = PAGE_SIZE * m /\ fm_start_addr (fs_fm s') = fm_start_addr (fs_fm s) /\
    p_vm (fs_proc s') = p_vm (fs_proc s) /\ p_prot (fs_proc s') = p_prot (fs_proc s) /\
    p_maps (fs_proc s') = p_maps (fs_proc s) /\
    p_file (fs_proc s') = Z.max (p_file (fs_proc s)) (PAGE_SIZE * zlen ps + PAGE_SIZE * m) /\
    (forall p, p ∈ ps -> fs_pages s' !! p = fs_pages s !! p).

Lemma bytes2pgs_mul n : bytes2pgs (PAGE_SIZE * n) = n.
Proof. unfold bytes2pgs. rewrite Z.mul_comm. apply Z.div_mul. unfold PAGE_SIZE. lia. Qed.

Lemma grow_file_spec s ps m :
  fm_objs (with_index s (Some <$> ps)) ps [] 0 -> default [] (fm_index (fs_fm s)) = Some <$> ps ->
  fm_file_size (fs_fm s) = PAGE_SIZE * zlen ps -> zlen ps < m -> PAGE_SIZE * m < 2 ^ 63 ->
  PAGE_SIZE * zlen ps + PAGE_SIZE * m <= p_space (fs_proc s) ->
  wp (fixed_mapper_grow_file (PAGE_SIZE * m)) (fun _ s' => grown s ps m s') s.
Proof.
  intros Ho Hix Hfs Hm Hb Hsp. pose proof (zlen_nonneg ps) as Hps.
  assert (Hsz : fm_fl_size (fs_fm s) = 0).
  { destruct (ob_free _ _ _ _ Ho) as (l & Hl & _ & _ & E). exact E. }
  unfold fixed_mapper_grow_file, fm. mstep. mstep. rewrite Hsz. mstep. mstep; [done|]. mstep.
  unfold stat. apply wp_zoom, wp_modify. mstep. mstep. mstep. apply wp_zoom.
  assert (Hfa : posix_fallocate (fm_file_size (fs_fm s)) (PAGE_SIZE * m)
      (set_stats (__INC_BOTH cont_grow (p_stats (fs_proc s))) (fs_proc s)) =
    Ok FA_OK (set_file (Z.max (p_file (fs_proc s)) (PAGE_SIZE * zlen ps + PAGE_SIZE * m))
      (set_stats (__INC_BOTH cont_grow (p_stats (fs_proc s))) (fs_proc s)))).
  { unfold posix_fallocate. rewrite Hfs. simpl. unfold PAGE_SIZE in *.
    destruct (Z.leb_spec (4096 * m) 0); [lia|]. destruct (Z.leb_spec (2 ^ 63) (4096 * m)); [lia|].
    destruct (Z.leb_spec (2 ^ 63) (4096 * zlen ps)); [lia|]. simpl.
    destruct (Z.ltb_spec (p_space (fs_proc s)) (4096 * zlen ps + 4096 * m)); [lia|done]. }
  eapply wp_ok; [exact Hfa|]. mstep. unfold handle_fallocate. mstep. cbn [fs_fm].
  rewrite Hfs, !bytes2pgs_mul.
  set (s1 := Fmst _ _ _ _). mstep.
  eapply (index_realloc_run _ ps); [exact Hix|lia|].
  set (s2 := with_index s1 ((Some <$> ps) ++ replicate (Z.to_nat m - length ps) None)).
  assert (Hs1 : grow_inv s2 ps m (zlen ps) s2).
  { apply grow_inv_start; [|apply quiet_refl|done].
    apply (with_index_objs _ _ _ 0 (Some <$> ps)). destruct Ho as [? ? ? ? ?]. by split. }
  assert (Hu : u64 (zlen ps + 1) = zlen ps + 1) by (apply wrap_id; unfold in_u, PAGE_SIZE in *; lia).
  assert (Hm63 : m < 2 ^ 63) by (unfold PAGE_SIZE in *; lia).
  rewrite Hu.
  mstep. eapply grow_step_first; [exact Hs1|done|done|]. intros s3 Hg3. mstep.
  eapply (wp_for (grow_inv s2 ps m)); [exact Hg3| |].
  - intros i s4 Hi Hg4. eapply grow_step_next; [exact Hg4|lia|done|]. done.
  - intros s4 Hg4. unfold set_file_size, set_fm. mstep.
    replace (zlen ps + 1 + Z.of_nat (Z.to_nat (m - (zlen ps + 1)))) with m in Hg4 by lia.
    destruct Hg4 as (ps' & Hl & Ho4 & Hq & Hpg). exists ps'.
    rewrite Z.sub_diag in Ho4. destruct Hq as ([b Eb] & Hq1 & Hq2). cbn [fs_proc fs_fm].
    split_and!; [done|destruct Ho4 as [? ? ? ? ?]; by split|done|by rewrite Hq2| | | | |done].
    all: by rewrite Eb.
Qed.

(** ** Mapping *)
Definition only_prot (s s' : fmst) : Prop :=
  exists pr g, s' = Fmst (set_prot pr (set_stats g (fs_proc s))) (fs_pages s) (fs_links s) (fs_fm s).

(** The protection of every page is the one its object records. *)
Definition prot_recorded (s : fmst) (start : Z) (ps : list Z) (i : Z) : Prop :=
  forall j ptr pr, 0 <= j < i -> zget ps j = Some ptr -> fs_pages s !! ptr = Some (FixedPage j pr) ->
    p_prot (fs_proc s) !! (start + PAGE_SIZE * j) = Some pr.

Lemma only_prot_refl s : only_prot s s.
Proof. exists (p_prot (fs_proc s)), (p_stats (fs_proc s)). by destruct s as [[] ? ? ?]. Qed.

Lemma index_get_run s ps k i ptr :
  fm_index (fs_fm s) = Some ((Some <$> ps) ++ replicate k None) -> zget ps i = Some ptr ->
  index_get i s = Ok ptr s.
Proof.
  intros Hix Hp. unfold index_get, fm, bind, gets, from_opt, ret. rewrite Hix.
  rewrite zget_app_l, zget_fmap_Some, Hp; [done|].
  apply zget_lt in Hp. unfold zlen in *. rewrite length_fmap. lia.
Qed.

Lemma page_addr_small start n i :
  0 < start -> start + PAGE_SIZE * n <= 2 ^ 64 -> 0 <= i < n -> u64 (start + PAGE_SIZE * i) = start + PAGE_SIZE * i.
Proof. intros H1 H2 H3. apply wrap_id. unfold in_u, PAGE_SIZE in *. nia. Qed.

Lemma page_addr_aligned start i : start mod PAGE_SIZE = 0 -> (start + PAGE_SIZE * i) mod PAGE_SIZE = 0.
Proof. intros H. rewrite Z.mul_comm, Z.mod_add by (unfold PAGE_SIZE; lia). done. Qed.

Lemma update_mapping_prot_spec s start ps F k :
  fm_objs s ps F k -> fm_mapped s start (zlen ps) ->
  wp update_mapping_prot (fun _ s' => only_prot s s' /\ prot_recorded s' start ps (zlen ps)) s.
Proof.
  intros Ho Hm. unfold update_mapping_prot, fm. mstep. mstep. rewrite (mp_size _ _ _ Hm), bytes2pgs_mul.
  apply (wp_for (fun i s' => only_prot s s' /\ prot_recorded s' start ps i)).
  - split; [apply only_prot_refl|]. intros j. lia.
  - intros i s' Hi [(pr & g & ->) Hrec]. simpl in Hi. rewrite Z2Nat.id in Hi by apply zlen_nonneg.
    destruct (zget_total ps i Hi) as [ptr Hptr]. destruct (ob_pages _ _ _ _ Ho _ _ Hptr) as [fl Hpg].
    mstep. eapply wp_ok; [eapply index_get_run; [apply (ob_index _ _ _ _ Ho)|exact Hptr]|].
    unfold get_page. mstep. mstep. mstep. cbn [fs_pages]. eapply wp_from_opt; [exact Hpg|].
    mstep. mstep. cbn [fs_fm fp_pgno fp_prot_flags].
    rewrite (mp_start _ _ _ Hm). destruct (mp_range _ _ _ Hm) as [Hr1 Hr2].
    rewrite (page_addr_small start (zlen ps)) by done. apply wp_zoom, wp_mprotect_page.
    + apply page_addr_aligned, Hm.
    + simpl. rewrite (mp_vm _ _ _ Hm) by done. by eexists.
    + split; [by eexists _, _|]. intros j ptr' pr' Hj Hp' Hpg'. simpl in *.
      destruct (decide (j = i)) as [->|Hne].
      * rewrite Hptr in Hp'. injection Hp' as <-. rewrite Hpg in Hpg'. injection Hpg' as <-.
        by rewrite lookup_insert_eq.
      * rewrite lookup_insert_ne by (unfold PAGE_SIZE; lia). by eapply Hrec; [lia|..].
  - intros s' [H1 H2]. split; [done|]. simpl in H2. by rewrite Z2Nat.id in H2 by apply zlen_nonneg.
Qed.

(** The state after the file has been mapped at [start] as a whole. *)
Definition remapped (s : fmst) (start m : Z) : fmst :=
  let f := fs_fm s in
  let p := fs_proc s in
  Fmst (set_vm (map_pages (Z.to_nat m) start 0 (p_vm p))
         (set_prot (fill_pages (Z.to_nat m) start DEFAULT_MAPPING_PROT (p_prot p)) p))
    (fs_pages s) (fs_links s)
    (FixedMapperRec (fm_file_size f) start (fm_fl_size f) (fm_fl_head f) (fm_fl_last f) (fm_index f)).

Lemma remapped_mapped s start m :
  fm_file_size (fs_fm s) = PAGE_SIZE * m -> 0 < m -> 0 < start -> start mod PAGE_SIZE = 0 ->
  start + PAGE_SIZE * m <= 2 ^ 64 ->
  (forall a, is_Some (p_vm (fs_proc s) !! a) -> exists i, 0 <= i < m /\ a = start + PAGE_SIZE * i) ->
  fm_mapped (remapped s start m) start m.
Proof.
  intros Hfs Hm H0 Ha Hb Hvm. split; simpl; try done.
  - intros i Hi. unfold map_pages. rewrite set_pages_in by lia. f_equal. lia.
  - intros a Hs. destruct (decide (a ∈ (fun i => start + PAGE_SIZE * i) <$> seqZ 0 m)) as [Hin|Hout].
    + apply list_elem_of_fmap in Hin as (i & -> & Hi). apply elem_of_seqZ in Hi. exists i. lia.
    + apply Hvm. unfold map_pages in Hs. rewrite set_pages_out in Hs; [done|].
      intros i Hi ->. apply Hout. apply (list_elem_of_fmap_2 (fun i => start + PAGE_SIZE * i)), elem_of_seqZ. lia.
Qed.

Lemma map_at_run s hint m (Q : unit -> fmst -> Prop) :
  0 < m -> hint mod PAGE_SIZE = 0 -> hint + PAGE_SIZE * m <= 2 ^ 64 ->
  range_free (p_maps (fs_proc s)) hint (PAGE_SIZE * m) = true ->
  (forall i, 0 <= i < m -> p_vm (fs_proc s) !! (hint + PAGE_SIZE * i) = None) ->
  Q tt (remapped s hint m) ->
  wp (map_at hint (PAGE_SIZE * m)) Q s.
Proof.
  intros Hm Ha Hb Hf Hn HQ. unfold map_at. mstep. apply wp_zoom. eapply wp_ok; [by apply mmap_run|].
  mstep. mstep; [by apply bool_decide_true|]. exact HQ.
Qed.

(** Remapping after growth: the file stays at its address and every page gets
    its recorded protection back. *)
Lemma map_file_again s start m ps F k :
  fm_objs s ps F k -> zlen ps = m -> fm_file_size (fs_fm s) = PAGE_SIZE * m -> 0 < m ->
  fm_start_addr (fs_fm s) = start -> 0 < start -> start mod PAGE_SIZE = 0 -> start + PAGE_SIZE * m <= 2 ^ 64 ->
  (forall a, is_Some (p_vm (fs_proc s) !! a) -> exists i, 0 <= i < m /\ a = start + PAGE_SIZE * i) ->
  Forall (fun r => r.1 < r.2) (p_maps (fs_proc s)) ->
  range_free (p_maps (fs_proc s)) start (PAGE_SIZE * m) = true ->
  wp (map_file true) (fun _ s' => fm_objs s' ps F k /\ fm_mapped s' start m /\ prot_recorded s' start ps m /\
    fs_pages s' = fs_pages s /\ p_maps (fs_proc s') = p_maps (fs_proc s) /\ p_file (fs_proc s') = p_file (fs_proc s)) s.
Proof.
  intros Ho Hl Hfs Hm Hst H0 Ha Hb Hvm Hmaps Hfree. unfold map_file, fm. msteps. rewrite Hst, Hfs.
  destruct (Z.eqb_spec start 0); [lia|]. mstep. apply wp_zoom. eapply wp_ok; [by apply munmap_run|].
  mstep. mstep. mstep; [by destruct (Z.eqb_spec start 0); [lia|]|]. mstep.
  apply map_at_run; try done.
  { intros i Hi. simpl. unfold delete_pages. by rewrite set_pages_in by lia. }
  set (s1 := Fmst _ _ _ _).
  assert (Hm1 : fm_mapped (remapped s1 start m) start m).
  { apply remapped_mapped; try done. intros a Hs. simpl in Hs. unfold delete_pages in Hs.
    destruct (decide (a ∈ (fun i => start + PAGE_SIZE * i) <$> seqZ 0 m)) as [Hin|Hout].
    - apply list_elem_of_fmap in Hin as (i & -> & Hi). apply elem_of_seqZ in Hi. exists i. lia.
    - rewrite set_pages_out in Hs; [by apply Hvm|]. intros i Hi ->. apply Hout.
      apply (list_elem_of_fmap_2 (fun i => start + PAGE_SIZE * i)), elem_of_seqZ. lia. }
  assert (Ho1 : fm_objs (remapped s1 start m) ps F k) by (destruct Ho as [? ? ? ? ?]; by split).
  simpl. subst m. eapply wp_mono; [by eapply update_mapping_prot_spec|].
  intros [] s' [(pr & g & ->) Hrec]. split_and!; try done.
  - destruct Ho as [? ? ? ? ?]; by split.
  - destruct Hm1 as [? ? ? ? ? ? ?]. by split.
Qed.

(** ** Allocation and release *)
Lemma take_free_page_run s ps f F k (Q : Z -> fmst -> Prop) :
  fm_objs s ps (f :: F) k -> zlen F < 2 ^ 63 ->
  (forall ptr s', zget ps f = Some ptr -> fm_objs s' ps F k -> quiet s s' -> fs_pages s' = fs_pages s ->
     fs_proc s' = fs_proc s -> Q ptr s') ->
  wp take_free_page Q s.
Proof.
  intros Ho Hb HQ. pose proof Ho as [Hix Hpg Hlk Hfr (l & Hl & Hd & Hlast & Hs)].
  inversion Hl as [|? ptr ? l' Hptr Hl' E1 E2]; subst. pose proof Hd as [[Hh _] _]. simpl in Hh.
  unfold take_free_page, fm. mstep. mstep. mstep. rewrite Hh. eapply wp_from_opt; [reflexivity|].
  mstep. apply wp_zoom. eapply wp_mono; [rewrite Hh in Hd; by apply LIST_REMOVE_head_repr|].
  intros h' L' [Hd' HL']. unfold set_free_list, set_fm. msteps. cbn [fs_fm]. rewrite Hs, Hlast.
  assert (Hu : u64 (zlen (f :: F) - 1) = zlen F).
  { unfold u64, zlen in *. simpl. rewrite wrap_id; unfold in_u; lia. }
  rewrite Hu. replace (if zlen F =? 0 then None else last (ptr :: l')) with (last l').
  2: { pose proof (Forall2_length _ _ _ Hl'). destruct (Z.eqb_spec (zlen F) 0) as [E|E].
       - destruct l'; [done|]. unfold zlen in E. simpl in *. lia.
       - destruct l'; [|done]. unfold zlen in E. simpl in *. lia. }
  destruct (with_free_objs s ps (f :: F) F k L' (zlen F) h' l' Ho Hl' Hd' eq_refl) as [H1 H2].
  { intros p Hp Hp'. pose proof (HL' p Hp') as E. simpl in E. rewrite E. by apply Hlk. }
  by apply HQ.
Qed.

(** Changing the protection a page object records. *)
Lemma put_page_objs s ps F k i ptr pr :
  fm_objs s ps F k -> zget ps i = Some ptr ->
  fm_objs (Fmst (fs_proc s) (<[ptr := FixedPage i pr]> (fs_pages s)) (fs_links s) (fs_fm s)) ps F k.
Proof.
  intros Ho Hp. destruct (ob_pages _ _ _ _ Ho _ _ Hp) as [pr0 E0]. pose proof Ho as [Hix Hpg Hlk Hfr Hf].
  split; simpl; try done.
  - intros j q Hj. destruct (Hpg _ _ Hj) as [pr' E]. destruct (decide (q = ptr)) as [->|].
    + rewrite E0 in E. injection E as <- <-. rewrite lookup_insert_eq. by eexists.
    + rewrite lookup_insert_ne by done. by eexists.
  - intros q. destruct (decide (q = ptr)) as [->|]; [intros _; apply Hfr; by eexists|].
    rewrite lookup_insert_ne by done. apply Hfr.
Qed.

Definition alloc_prot (flags addr : Z) (pr : gmap Z Z) : gmap Z Z :=
  if Z.land flags PA_PROT_WRITE =? 0 then pr else <[addr := flags]> pr.

Definition same_os (s s' : fmst) : Prop :=
  p_vm (fs_proc s') = p_vm (fs_proc s) /\ p_maps (fs_proc s') = p_maps (fs_proc s) /\
  p_file (fs_proc s') = p_file (fs_proc s) /\ p_space (fs_proc s') = p_space (fs_proc s).

Definition alloc_post (s : fmst) (start n : Z) (ps F : list Z) (f flags : Z) (r : Z * Z) (s' : fmst) : Prop :=
  r = (start + PAGE_SIZE * f, PAGE_SIZE * f) /\ fm_wf s' start n ps F /\ same_os s s' /\
  p_prot (fs_proc s') = alloc_prot flags (start + PAGE_SIZE * f) (p_prot (fs_proc s)) /\
  (forall i ptr, zget ps i = Some ptr ->
     fs_pages s' !! ptr = if decide (i = f) then Some (FixedPage f flags) else fs_pages s !! ptr).

Lemma zget_pages_inj s ps F k i j p q :
  fm_objs s ps F k -> zget ps i = Some p -> zget ps j = Some q -> i <> j -> p <> q.
Proof.
  intros Ho Hi Hj Hne ->. destruct (ob_pages _ _ _ _ Ho _ _ Hi) as [a Ea].
  destruct (ob_pages _ _ _ _ Ho _ _ Hj) as [b Eb]. congruence.
Qed.

Lemma alloc_page_run s start n ps f F flags :
  fm_wf s start n ps (f :: F) -> n < 2 ^ 51 -> zlen F < 2 ^ 63 ->
  wp (fixed_mapper_alloc_page flags) (alloc_post s start n ps F f flags) s.
Proof.
  intros [Ho Hm Hlen] Hn Hb. unfold fixed_mapper_alloc_page, fm. mstep. mstep.
  assert (Hsz : fm_fl_size (fs_fm s) = zlen (f :: F)) by (destruct (ob_free _ _ _ _ Ho) as (? & _ & _ & _ & E); done).
  rewrite Hsz. destruct (Z.eqb_spec (zlen (f :: F)) 0); [unfold zlen in *; simpl in *; lia|].
  mstep. cbn [when]. mstep. mstep. eapply take_free_page_run; [exact Ho|done|].
  intros ptr s1 Hptr Ho1 Hq1 Hpg1 Hp1. destruct (ob_pages _ _ _ _ Ho _ _ Hptr) as [pr Epr].
  pose proof (zget_lt _ _ _ Hptr) as Hf. rewrite Hlen in Hf. pose proof (quiet_mapped _ _ _ _ Hq1 Hm) as Hm1.
  unfold get_page, put_page. mstep. mstep. mstep. rewrite Hpg1. eapply wp_from_opt; [exact Epr|].
  mstep. mstep. rewrite (mp_start _ _ _ Hm1). cbn [fp_pgno]. destruct (mp_range _ _ _ Hm) as [Hr1 Hr2].
  rewrite (Z.mul_comm f). rewrite (page_addr_small start n) by done.
  replace (u64 (PAGE_SIZE * f)) with (PAGE_SIZE * f) by (symmetry; apply wrap_id; unfold in_u, PAGE_SIZE in *; lia).
  assert (Hfin : forall s2, fs_proc s2 = fs_proc s1 \/ (exists g, fs_proc s2 = set_prot (<[start + PAGE_SIZE * f := flags]> (p_prot (fs_proc s1))) (set_stats g (fs_proc s1))) ->
    fs_pages s2 = fs_pages s1 -> fs_links s2 = fs_links s1 -> fs_fm s2 = fs_fm s1 ->
    p_prot (fs_proc s2) = alloc_prot flags (start + PAGE_SIZE * f) (p_prot (fs_proc s1)) ->
    alloc_post s start n ps F f flags (start + PAGE_SIZE * f, PAGE_SIZE * f)
      (Fmst (fs_proc s2) (<[ptr := FixedPage f flags]> (fs_pages s2)) (fs_links s2) (fs_fm s2))).
  { intros s2 Hproc Epg Elk Efm Epr2. rewrite Epg, Elk, Efm. split_and!; [done| | | |].
    - split; [|destruct Hm1 as [? ? ? ? ? ? ?]; split; simpl; try done; by destruct Hproc as [->|(g & ->)]|done].
      pose proof (put_page_objs _ _ _ _ _ _ flags Ho1 Hptr) as [? ? ? ? ?]. split; try done.
      simpl in *. by destruct Hproc as [->|(g & ->)].
    - unfold same_os. simpl. rewrite <- Hp1. by destruct Hproc as [->|(g & ->)].
    - simpl. by rewrite Epr2, Hp1.
    - intros i q Hi. simpl. rewrite Hpg1. case_decide as Hd.
      + subst i. rewrite Hptr in Hi. injection Hi as <-. apply lookup_insert_eq.
      + apply lookup_insert_ne. by eapply zget_pages_inj. }
  unfold alloc_prot in Hfin. destruct (Z.land flags PA_PROT_WRITE =? 0) eqn:Ew; simpl.
  - mstep. mstep. mstep. mstep. mstep. apply Hfin; auto.
  - mstep. apply wp_zoom, wp_mprotect_page; [apply page_addr_aligned, Hm|rewrite (mp_vm _ _ _ Hm1) by done; by eexists|].
    mstep. mstep. mstep. apply (Hfin (Fmst _ (fs_pages s1) (fs_links s1) (fs_fm s1))); simpl; eauto.
Qed.

(** With an empty free list the page comes from the grown file. *)
Lemma alloc_page_after_growth s flags (Q : Z * Z -> fmst -> Prop) :
  fm_fl_size (fs_fm s) = 0 ->
  wp (fixed_mapper_grow_file (u64 (fm_file_size (fs_fm s) * 2)) ;;; map_file true)
    (fun _ s2 => fm_fl_size (fs_fm s2) <> 0 /\ wp (fixed_mapper_alloc_page flags) Q s2) s ->
  wp (fixed_mapper_alloc_page flags) Q s.
Proof.
  intros Hz Hg. unfold fixed_mapper_alloc_page at 1, fm. mstep. mstep. rewrite Hz. simpl.
  mstep. mstep. mstep. eapply wp_mono; [exact Hg|]. intros [] s2 [Hne H].
  unfold fixed_mapper_alloc_page, wp, bind at 1, fm, gets at 1 in H.
  destruct (Z.eqb_spec (fm_fl_size (fs_fm s2)) 0); [done|]. exact H.
Qed.

Lemma wf_free_nonempty s start n ps f F : fm_wf s start n ps (f :: F) -> fm_fl_size (fs_fm s) <> 0.
Proof.
  intros [Ho _ _]. destruct (ob_free _ _ _ _ Ho) as (? & _ & _ & _ & ->). unfold zlen. simpl. lia.
Qed.

Definition can_grow (s : fmst) (start n : Z) : Prop :=
  n < 2 ^ 49 /\ 3 * (PAGE_SIZE * n) <= p_space (fs_proc s) /\ start + PAGE_SIZE * (2 * n) <= 2 ^ 64 /\
  Forall (fun r => r.1 < r.2) (p_maps (fs_proc s)) /\
  range_free (p_maps (fs_proc s)) start (PAGE_SIZE * (2 * n)) = true.

(** The file doubles and is remapped at the same address. *)
Lemma grow_and_remap s start n ps :
  fm_wf s start n ps [] -> can_grow s start n ->
  wp (fixed_mapper_grow_file (PAGE_SIZE * (2 * n)) ;;; map_file true) (fun _ s2 =>
    exists ps', fm_wf s2 start (2 * n) (ps ++ ps') (seqZ n n) /\ prot_recorded s2 start (ps ++ ps') (2 * n) /\
      (forall p, p ∈ ps -> fs_pages s2 !! p = fs_pages s !! p) /\
      p_file (fs_proc s2) = Z.max (p_file (fs_proc s)) (3 * (PAGE_SIZE * n))) s.
Proof.
  intros [Ho Hm Hlen] (Hn & Hsp & Hr & Hne & Hfree). subst n.
  assert (Hixo : fm_index (fs_fm s) = Some (Some <$> ps)).
  { rewrite (ob_index _ _ _ _ Ho). simpl. by rewrite app_nil_r. }
  mstep. eapply wp_mono; [apply (grow_file_spec s ps)|].
  - destruct Ho as [H1 ? ? ? ?]. split; simpl; try done. by rewrite app_nil_r.
  - by rewrite Hixo.
  - apply Hm.
  - pose proof (mp_pos _ _ _ Hm). lia.
  - unfold PAGE_SIZE in *. lia.
  - lia.
  - intros [] s1 (ps' & Hl & Ho1 & Hfs & Hst & Hvm & Hpr & Hmaps & Hfile & Hpg).
    replace (2 * zlen ps - zlen ps) with (zlen ps) in Ho1 by lia.
    eapply wp_mono; [eapply (map_file_again s1 start (2 * zlen ps)); [exact Ho1|exact Hl|exact Hfs|..]|].
    + pose proof (mp_pos _ _ _ Hm). lia.
    + rewrite Hst. apply Hm.
    + apply Hm.
    + apply Hm.
    + done.
    + intros a Ha. rewrite Hvm in Ha. destruct (mp_only _ _ _ Hm a Ha) as (i & Hi & ->). exists i. lia.
    + by rewrite Hmaps.
    + by rewrite Hmaps.
    + intros [] s2 (Ho2 & Hm2 & Hrec & Epg & _ & Ef). exists ps'. split_and!; [by split|done| |].
      * intros p Hp. rewrite Epg. by apply Hpg.
      * rewrite Ef, Hfile. f_equal. lia.
Qed.

Lemma alloc_page_grow_run s start n ps flags :
  fm_wf s start n ps [] -> can_grow s start n ->
  wp (fixed_mapper_alloc_page flags) (fun r s' => exists ps',
    r = (start + PAGE_SIZE * n, PAGE_SIZE * n) /\
    fm_wf s' start (2 * n) (ps ++ ps') (seqZ (n + 1) (n - 1)) /\
    (forall i ptr pr, zget ps i = Some ptr -> fs_pages s !! ptr = Some (FixedPage i pr) ->
       p_prot (fs_proc s') !! (start + PAGE_SIZE * i) = Some pr) /\
    p_file (fs_proc s') = Z.max (p_file (fs_proc s)) (3 * (PAGE_SIZE * n))) s.
Proof.
  intros Hwf Hg. pose proof Hwf as [Ho Hm Hlen]. pose proof (mp_pos _ _ _ Hm) as Hn. pose proof Hg as (Hn49 & _).
  apply alloc_page_after_growth.
  { destruct (ob_free _ _ _ _ Ho) as (? & _ & _ & _ & E). exact E. }
  rewrite (mp_size _ _ _ Hm). replace (u64 (PAGE_SIZE * n * 2)) with (PAGE_SIZE * (2 * n)).
  2: { symmetry. unfold u64. rewrite wrap_id; unfold in_u, PAGE_SIZE in *; lia. }
  eapply wp_mono; [by eapply grow_and_remap|]. intros [] s2 (ps' & Hwf2 & Hrec & Hpg & Hfile).
  assert (Hseq : seqZ n n = n :: seqZ (n + 1) (n - 1)).
  { rewrite seqZ_cons by done. by rewrite Z.add_1_r, Z.sub_1_r. }
  rewrite Hseq in Hwf2. split; [by eapply wf_free_nonempty|].
  eapply wp_mono; [eapply alloc_page_run; [exact Hwf2|lia|]|].
  { unfold zlen. rewrite length_seqZ. lia. }
  intros r s3 (-> & Hwf3 & (_ & _ & Ef & _) & Epr & _). exists ps'. split_and!; [done|done| |by rewrite Ef].
  intros i ptr pr Hi Hpr. pose proof (zget_lt _ _ _ Hi) as Hi'. rewrite Epr. unfold alloc_prot.
  assert (Hne : start + PAGE_SIZE * n <> start + PAGE_SIZE * i) by (unfold PAGE_SIZE; lia).
  assert (Hgoal : p_prot (fs_proc s2) !! (start + PAGE_SIZE * i) = Some pr).
  { apply (Hrec i ptr); [lia|rewrite zget_app_l; [done|lia]|]. rewrite Hpg; [done|].
    unfold zget in Hi. destruct (0 <=? i); [|done]. by eapply list_elem_of_lookup_2. }
  destruct (_ =? 0); [done|]. by rewrite lookup_insert_ne.
Qed.

Lemma freepages_run s start n ps F i :
  fm_wf s start n ps F -> 0 <= i < n -> i ∉ F -> n < 2 ^ 51 -> zlen F + 1 < 2 ^ 64 ->
  wp (fixed_mapper_freepages (start + PAGE_SIZE * i)) (fun _ s' =>
    fm_wf s' start n ps (F ++ [i]) /\ p_vm (fs_proc s') = p_vm (fs_proc s) /\
    p_prot (fs_proc s') = p_prot (fs_proc s) /\ fs_pages s' = fs_pages s) s.
Proof.
  intros [Ho Hm Hlen] Hi HF Hn Hsz. destruct (mp_range _ _ _ Hm) as [Hr1 Hr2].
  destruct (zget_total ps i) as [ptr Hptr]; [lia|]. unfold fixed_mapper_freepages, fm. mstep. mstep.
  { apply Z.eqb_eq. unfold ptoi, itop. rewrite (page_addr_small start n) by done.
    rewrite ROUND_DWNPG_aligned by (apply page_addr_aligned, Hm). by rewrite (page_addr_small start n). }
  mstep. mstep. rewrite (mp_start _ _ _ Hm). mstep.
  replace (start + PAGE_SIZE * i - start) with (i * PAGE_SIZE) by lia.
  rewrite Z.quot_mul by (unfold PAGE_SIZE; lia).
  eapply wp_ok; [eapply index_get_run; [apply (ob_index _ _ _ _ Ho)|exact Hptr]|].
  eapply append_free_run; [exact Ho|exact Hptr|done|done|].
  intros s' Ho' Hq Epg. pose proof (quiet_mapped _ _ _ _ Hq Hm) as Hm'.
  destruct Hq as ([b E] & _). rewrite E. split_and!; [by split|done..].
Qed.

(** ** Initialisation *)
Definition fresh_process (s : fmst) : Prop :=
  p_file (fs_proc s) = 0 /\ p_vm (fs_proc s) = ∅ /\ fs_pages s = ∅.

Definition init_pages (e : env) : Z :=
  match PMLIB_INIT_SIZE e with
  | None => 2
  | Some v => bytes2pgs (MAX (ROUNDPG (u64 v)) PAGE_SIZE)
  end.

Lemma map_file_run s m (Q : unit -> fmst -> Prop) :
  fm_file_size (fs_fm s) = PAGE_SIZE * m -> 0 < m ->
  fm_start_addr (fs_fm s) = 0 -> p_vm (fs_proc s) = ∅ -> sorted_ranges (p_maps (fs_proc s)) ->
  let start := map_hint (p_maps (fs_proc s)) (PAGE_SIZE * m) in
  start <> 0 -> (fm_mapped (remapped s start m) start m -> Q tt (remapped s start m)) ->
  wp (map_file false) Q s.
Proof.
  intros Hfs Hm Hst Hvm Hsort start Hne HQ.
  destruct (map_hint_least (p_maps (fs_proc s)) (PAGE_SIZE * m) Hsort) as [Hok _].
  { unfold PAGE_SIZE. lia. }
  destruct (Hok Hne) as (Hge & Hal & Hb & Hfree). fold start in Hge, Hal, Hb, Hfree.
  assert (HT : TERABYTE = 2 ^ 40) by reflexivity. assert (HG : GIGABYTE = PAGE_SIZE * 2 ^ 18) by reflexivity.
  assert (Hal' : start mod PAGE_SIZE = 0).
  { apply Z.mod_divide in Hal as [k Hk]; [|by rewrite HG]. apply Z.mod_divide; [by unfold PAGE_SIZE|].
    exists (k * 2 ^ 18). lia. }
  unfold map_file, fm. mstep. mstep. mstep. mstep. rewrite Hst. simpl. mstep. mstep.
  apply wp_zoom, wp_gets. mstep. mstep. rewrite Hfs. fold start. mstep.
  { by destruct (Z.eqb_spec start 0). }
  assert (Hs : Fmst (fs_proc s) (fs_pages s) (fs_links s) (fs_fm s) = s) by (by destruct s). rewrite Hs.
  unfold UINTPTR_MAX in Hb. mstep. apply map_at_run; try done; [lia| |].
  { intros i _. by rewrite Hvm, lookup_empty. }
  cbn [when]. mstep. apply HQ. apply remapped_mapped; try done; [lia|lia|]. intros a [? Ha]. by rewrite Hvm, lookup_empty in Ha.
Qed.

Lemma map_file_first s ps F m :
  fm_objs s ps F 0 -> zlen ps = m -> fm_file_size (fs_fm s) = PAGE_SIZE * m -> 0 < m ->
  fm_start_addr (fs_fm s) = 0 -> p_vm (fs_proc s) = ∅ -> sorted_ranges (p_maps (fs_proc s)) ->
  let start := map_hint (p_maps (fs_proc s)) (PAGE_SIZE * m) in
  start <> 0 ->
  wp (map_file false) (fun _ s' => fm_wf s' start m ps F) s.
Proof.
  intros Ho Hl Hfs Hm Hst Hvm Hsort start Hne. apply (map_file_run s m); [done..|]. intros Hmap.
  split; [destruct Ho as [? ? ? ? ?]; by split|done|done].
Qed.

Lemma init_size_pages e :
  (match PMLIB_INIT_SIZE e with None => True | Some v => 0 <= v < 2 ^ 60 end) ->
  match PMLIB_INIT_SIZE e with None => FM_FILE_SIZE | Some v => MAX (ROUNDPG (u64 v)) PAGE_SIZE end
    = PAGE_SIZE * init_pages e /\ 0 < init_pages e < 2 ^ 49.
Proof.
  unfold init_pages. destruct (PMLIB_INIT_SIZE e) as [v|]; [|intros _; done]. intros Hv.
  assert (Hv' : u64 v = v) by (apply wrap_id; unfold in_u; lia). rewrite Hv'.
  assert (HR : ROUNDPG v = PAGE_SIZE * ((v + PAGE_MASK) / PAGE_SIZE)).
  { rewrite ROUNDPG_eq by (unfold PAGE_MASK, PAGE_SIZE; lia). rewrite up_mod by done. done. }
  pose proof (Z.div_mod (v + PAGE_MASK) PAGE_SIZE ltac:(done)) as Hd.
  pose proof (Z.mod_pos_bound (v + PAGE_MASK) PAGE_SIZE ltac:(done)) as Hmb.
  set (q := (v + PAGE_MASK) / PAGE_SIZE) in *. unfold MAX. rewrite HR.
  unfold PAGE_MASK in *. destruct (PAGE_SIZE * q >? PAGE_SIZE) eqn:E.
  - rewrite bytes2pgs_mul. split; [done|]. unfold PAGE_SIZE in *. apply Z.gtb_lt in E. lia.
  - split; [reflexivity|]. done.
Qed.

Lemma init_run s e :
  fresh_process s -> (match PMLIB_INIT_SIZE e with None => True | Some v => 0 <= v < 2 ^ 60 end) ->
  PAGE_SIZE * init_pages e <= p_space (fs_proc s) -> sorted_ranges (p_maps (fs_proc s)) ->
  let n := init_pages e in
  let start := map_hint (p_maps (fs_proc s)) (PAGE_SIZE * n) in
  start <> 0 ->
  wp (fixed_mapper_init e) (fun _ s' => exists ps, fm_wf s' start n ps (seqZ 0 n)) s.
Proof.
  intros (Hf & Hvm & Hpg) He Hsp Hsort n start Hne. destruct (init_size_pages e He) as [Hsz Hn].
  unfold fixed_mapper_init. mstep. apply wp_zoom, wp_gets. mstep. unfold set_fm. mstep. mstep. rewrite Hf.
  cbn [Z.eqb when]. rewrite Hsz. fold n in Hn, Hsp |- *. set (s1 := Fmst _ _ _ _).
  eapply wp_mono; [apply (grow_file_spec s1 [])|].
  - split; simpl; try done.
    + intros i p Hp. unfold zget in Hp. by destruct (0 <=? i).
    + by intros p Hp%elem_of_nil.
    + intros p [? Hp]. by rewrite Hpg, lookup_empty in Hp.
    + exists []. split_and!; try done. split; [done|constructor].
  - done.
  - done.
  - simpl. change (zlen []) with 0. lia.
  - unfold PAGE_SIZE. lia.
  - simpl. change (zlen []) with 0. lia.
  - intros [] s2 (ps & Hl & Ho & Hfs & Hst & Hv & _ & Hmaps & _ & _). change (zlen []) with 0 in *.
    rewrite app_nil_l in *. rewrite Z.sub_0_r in Ho.
    eapply wp_mono; [eapply (map_file_first s2 ps (seqZ 0 n) n); try done; [lia|by rewrite Hv|by rewrite Hmaps|by rewrite Hmaps]|].
    intros [] s3 Hwf. simpl in Hwf. rewrite Hmaps in Hwf. by exists ps.
Qed.

(** ** Reopening an existing container file *)

(** On a file that is not empty, initialisation leaves the free list empty
    and the index NULL. *)
Lemma init_existing s e :
  0 < p_file (fs_proc s) ->
  match fixed_mapper_init e s with
  | Ok _ s' => fm_index (fs_fm s') = None /\ fm_fl_size (fs_fm s') = 0 /\ fm_fl_head (fs_fm s') = None
  | Fail f _ => f = AssertFailed
  end.
Proof.
  intros Hf. unfold fixed_mapper_init, bind, on_proc, zoom, gets, set_fm, modify. simpl.
  rewrite (proj2 (Z.eqb_neq _ _)) by lia. simpl. unfold ret, map_file, fm, bind, gets. simpl.
  unfold on_proc, zoom, gets, ret. simpl. destruct (map_hint _ _ =? 0); [done|]. simpl.
  unfold map_at, bind, on_proc, zoom, mmap. simpl.
  destruct ((0 <? _) && _ && _ && _ && _); simpl; [|done].
  rewrite bool_decide_true by done. done.
Qed.

(** The pages of the file are mapped in order at the hint, without write
    permission. *)
Lemma reopen_run s e m :
  p_file (fs_proc s) = PAGE_SIZE * m -> 0 < m -> p_vm (fs_proc s) = ∅ -> sorted_ranges (p_maps (fs_proc s)) ->
  let start := map_hint (p_maps (fs_proc s)) (PAGE_SIZE * m) in
  start <> 0 ->
  wp (fixed_mapper_init e) (fun _ s' => fm_mapped s' start m /\
    forall i, 0 <= i < m -> p_prot (fs_proc s') !! (start + PAGE_SIZE * i) = Some DEFAULT_MAPPING_PROT) s.
Proof.
  intros Hf Hm Hvm Hsort start Hne. unfold fixed_mapper_init. mstep. apply wp_zoom, wp_gets. mstep. unfold set_fm. mstep. mstep.
  rewrite Hf. destruct (Z.eqb_spec (PAGE_SIZE * m) 0); [unfold PAGE_SIZE in *; lia|]. cbn [when]. mstep.
  apply (map_file_run _ m); [done..|]. intros Hmap. split; [exact Hmap|]. intros i Hi. simpl. unfold fill_pages. by rewrite set_pages_in by lia.
Qed.

Lemma free_existing s maddr :
  fm_index (fs_fm s) = None ->
  exists f s', fixed_mapper_freepages maddr s = Fail f s' /\ (f = AssertFailed \/ f = NullDeref).
Proof.
  intros H. unfold fixed_mapper_freepages, bind, assert_. destruct (maddr =? _); simpl; [|eauto].
  unfold index_get, fm, bind, gets, ret. simpl. rewrite H. simpl. eauto.
Qed.

(** ** Properties *)

(** [map_hint] answers the least 1 GB-aligned address from 1 TB on at
    which [len] bytes fit between the mappings of the process, and NULL
    exactly when there is none. *)
Theorem map_hint_correct lines len :
  sorted_ranges lines -> 0 < len ->
  let r := map_hint lines len in
  (r <> 0 -> hint_ok lines len r) /\ forall a, hint_ok lines len a -> r <> 0 /\ r <= a.
Proof. apply map_hint_least. Qed.

Lemma sorted_ranges_nil : sorted_ranges [].
Proof. split; constructor. Qed.

Lemma map_hint_correct_witness :
  hint_ok [] 8192 (map_hint [] 8192) /\ map_hint [] 8192 = TERABYTE.
Proof.
  destruct (map_hint_correct [] 8192 sorted_ranges_nil) as [H _]; [reflexivity|].
  split; [|reflexivity]. apply H. vm_compute. discriminate.
Defined.

(** C31 On a new container file, initialisation maps all the pages of the file
    at the hinted address and puts them on the free list in order. *)
Theorem fixed_mapper_init_correct s e :
  fresh_process s -> (match PMLIB_INIT_SIZE e with None => True | Some v => 0 <= v < 2 ^ 60 end) ->
  PAGE_SIZE * init_pages e <= p_space (fs_proc s) -> sorted_ranges (p_maps (fs_proc s)) ->
  let n := init_pages e in
  let start := map_hint (p_maps (fs_proc s)) (PAGE_SIZE * n) in
  start <> 0 ->
  wp (fixed_mapper_init e) (fun _ s' => exists ps, fm_wf s' start n ps (seqZ 0 n)) s.
Proof. apply init_run. Qed.

(** A process that has mapped nothing yet, with room for [space] bytes. *)
Definition blank (space : Z) : fmst :=
  Fmst (Proc [] ∅ ∅ 0 space 1 GLOBAL_STATS) ∅ ∅ (FixedMapperRec 0 0 0 None None None).

Definition no_env : env := Env None None None None.

Lemma fixed_mapper_init_correct_witness :
  wp (fixed_mapper_init no_env) (fun _ s' => exists ps, fm_wf s' TERABYTE 2 ps [0; 1]) (blank (2 ^ 40)).
Proof.
  apply (fixed_mapper_init_correct (blank (2 ^ 40)) no_env).
  - split_and!; reflexivity.
  - exact I.
  - vm_compute. discriminate.
  - apply sorted_ranges_nil.
  - vm_compute. discriminate.
Defined.

(** The state initialisation reaches: two free pages at 1 TB. *)
Lemma blank_init : exists s ps, fm_wf s TERABYTE 2 ps [0; 1] /\ p_maps (fs_proc s) = [] /\ p_space (fs_proc s) = 2 ^ 40.
Proof.
  assert (H : wp (fixed_mapper_init no_env) (fun _ s' => exists ps, fm_wf s' TERABYTE 2 ps [0; 1]) (blank (2 ^ 40))).
  { apply (init_run (blank (2 ^ 40)) no_env); [done|exact I|vm_compute; discriminate|apply sorted_ranges_nil|vm_compute; discriminate]. }
  destruct (wp_check _ _ (fun _ s => match p_maps (fs_proc s) with [] => p_space (fs_proc s) =? 2 ^ 40 | _ => false end) _ H)
    as (_ & s & (ps & Hwf) & Hc).
  { vm_compute. reflexivity. }
  exists s, ps. split; [exact Hwf|]. destruct (p_maps (fs_proc s)); [|discriminate Hc].
  split; [reflexivity|]. by apply Z.eqb_eq in Hc.
Qed.

(** Allocating with a free page takes the head of the free list: the
    address is that page's place in the mapping, [laddr] its offset in the
    file, its protection is set when it must be writable, and no other page,
    mapping or protection changes. *)
Theorem fixed_mapper_alloc_page_correct s start n ps f F flags :
  fm_wf s start n ps (f :: F) -> n < 2 ^ 51 -> zlen F < 2 ^ 63 ->
  wp (fixed_mapper_alloc_page flags) (alloc_post s start n ps F f flags) s.
Proof. apply alloc_page_run. Qed.

Lemma fixed_mapper_alloc_page_correct_witness :
  exists s ps, wp (fixed_mapper_alloc_page PA_PROT_WRITE) (alloc_post s TERABYTE 2 ps [1] 0 PA_PROT_WRITE) s.
Proof.
  destruct blank_init as (s & ps & Hwf & _). exists s, ps.
  apply (fixed_mapper_alloc_page_correct s TERABYTE 2 ps 0 [1] PA_PROT_WRITE Hwf); reflexivity.
Defined.

(** C19 Allocating without a free page doubles the file: it is remapped at the
    same address, so every page keeps its place, every old page gets the
    protection it was allocated with back, the new pages but the first are
    the free list, and the file is extended by the new size (so to three
    times the old one). *)
Theorem fixed_mapper_alloc_page_grows s start n ps flags :
  fm_wf s start n ps [] -> can_grow s start n ->
  wp (fixed_mapper_alloc_page flags) (fun r s' => exists ps',
    r = (start + PAGE_SIZE * n, PAGE_SIZE * n) /\
    fm_wf s' start (2 * n) (ps ++ ps') (seqZ (n + 1) (n - 1)) /\
    (forall i ptr pr, zget ps i = Some ptr -> fs_pages s !! ptr = Some (FixedPage i pr) ->
       p_prot (fs_proc s') !! (start + PAGE_SIZE * i) = Some pr) /\
    p_file (fs_proc s') = Z.max (p_file (fs_proc s)) (3 * (PAGE_SIZE * n))) s.
Proof. apply alloc_page_grow_run. Qed.

Lemma fixed_mapper_alloc_page_grows_witness :
  exists s ps, wp (fixed_mapper_alloc_page PA_PROT_READ) (fun r s' => exists ps',
    r = (TERABYTE + PAGE_SIZE * 2, PAGE_SIZE * 2) /\
    fm_wf s' TERABYTE 4 (ps ++ ps') [3] /\
    (forall i ptr pr, zget ps i = Some ptr -> fs_pages s !! ptr = Some (FixedPage i pr) ->
       p_prot (fs_proc s') !! (TERABYTE + PAGE_SIZE * i) = Some pr) /\
    p_file (fs_proc s') = Z.max (p_file (fs_proc s)) (3 * (PAGE_SIZE * 2))) s.
Proof.
  destruct blank_init as (s & ps & Hwf & Hmaps & Hspace).
  assert (H1 : wp (fixed_mapper_alloc_page PA_PROT_READ) (alloc_post s TERABYTE 2 ps [1] 0 PA_PROT_READ) s)
    by (apply alloc_page_run; [exact Hwf|reflexivity|reflexivity]).
  apply wp_run in H1 as (r1 & s1 & _ & _ & Hwf1 & (_ & Hm1 & _ & Hs1) & _).
  assert (H2 : wp (fixed_mapper_alloc_page PA_PROT_READ) (alloc_post s1 TERABYTE 2 ps [] 1 PA_PROT_READ) s1)
    by (apply alloc_page_run; [exact Hwf1|reflexivity|reflexivity]).
  apply wp_run in H2 as (r2 & s2 & _ & _ & Hwf2 & (_ & Hm2 & _ & Hs2) & _).
  exists s2, ps. apply (fixed_mapper_alloc_page_grows s2 TERABYTE 2 ps PA_PROT_READ Hwf2).
  split_and!; [reflexivity|rewrite Hs2, Hs1, Hspace; vm_compute; discriminate|vm_compute; discriminate| |];
    rewrite Hm2, Hm1, Hmaps; [constructor|reflexivity].
Defined.

(** Freeing a page that is not free puts it at the end of the free list
    and changes no mapping, protection or page; the bookkeeping stays
    consistent. *)
Theorem fixed_mapper_freepages_correct s start n ps F i :
  fm_wf s start n ps F -> 0 <= i < n -> i ∉ F -> n < 2 ^ 51 -> zlen F + 1 < 2 ^ 64 ->
  wp (fixed_mapper_freepages (start + PAGE_SIZE * i)) (fun _ s' =>
    fm_wf s' start n ps (F ++ [i]) /\ p_vm (fs_proc s') = p_vm (fs_proc s) /\
    p_prot (fs_proc s') = p_prot (fs_proc s) /\ fs_pages s' = fs_pages s) s.
Proof. apply freepages_run. Qed.

Lemma fixed_mapper_freepages_correct_witness :
  exists s ps, wp (fixed_mapper_freepages TERABYTE) (fun _ s' =>
    fm_wf s' TERABYTE 2 ps [1; 0] /\ p_vm (fs_proc s') = p_vm (fs_proc s) /\
    p_prot (fs_proc s') = p_prot (fs_proc s) /\ fs_pages s' = fs_pages s) s.
Proof.
  destruct blank_init as (s & ps & Hwf & _).
  assert (H1 : wp (fixed_mapper_alloc_page PA_PROT_READ) (alloc_post s TERABYTE 2 ps [1] 0 PA_PROT_READ) s)
    by (apply alloc_page_run; [exact Hwf|reflexivity|reflexivity]).
  apply wp_run in H1 as (r1 & s1 & _ & _ & Hwf1 & _). exists s1, ps.
  apply (fixed_mapper_freepages_correct s1 TERABYTE 2 ps [1] 0 Hwf1); [done|set_solver|reflexivity|reflexivity].
Defined.

(** A container file that is reopened cannot be used: initialisation
    builds no page object, so every release of a page stops on the NULL
    index (or on a misaligned address). *)
Theorem fixed_mapper_reopened_unusable s e maddr :
  0 < p_file (fs_proc s) ->
  exists f s', (fixed_mapper_init e ;;; fixed_mapper_freepages maddr) s = Fail f s' /\
    (f = AssertFailed \/ f = NullDeref).
Proof.
  intros Hf. pose proof (init_existing s e Hf) as H. unfold bind.
  destruct (fixed_mapper_init e s) as [[] s'|f s']; [|subst f; eauto].
  destruct H as [H _]. by apply free_existing.
Qed.

Lemma fixed_mapper_reopened_unusable_witness :
  exists f s', (fixed_mapper_init no_env ;;; fixed_mapper_freepages TERABYTE)
    (Fmst (Proc [] ∅ ∅ 8192 (2 ^ 40) 1 GLOBAL_STATS) ∅ ∅ (FixedMapperRec 0 0 0 None None None)) = Fail f s' /\
    (f = AssertFailed \/ f = NullDeref).
Proof.
  apply (fixed_mapper_reopened_unusable (Fmst (Proc [] ∅ ∅ 8192 (2 ^ 40) 1 GLOBAL_STATS) ∅ ∅
    (FixedMapperRec 0 0 0 None None None)) no_env TERABYTE).
  reflexivity.
Defined.

(** The run of C20: the page after the two of a new container belongs to
    another mapping of the process. *)
Definition neighbour : fmst :=
  Fmst (Proc [(TERABYTE + 8192, TERABYTE + 12288)] ∅ ∅ 0 (2 ^ 40) 1 GLOBAL_STATS) ∅ ∅
    (FixedMapperRec 0 0 0 None None None).

Definition run_maps {A} (m : M fmst A) (s : fmst) : option (list (Z * Z)) :=
  match m s with Ok _ s' => Some (p_maps (fs_proc s')) | Fail _ _ => None end.

(** Growing the file unmaps what lies behind it: [map_file] unmaps the new
    size, so a mapping of the process next to the container is gone after
    the third allocation, which reports success. *)
Theorem fixed_mapper_growth_unmaps_neighbour :
  run_maps (fixed_mapper_init no_env ;;;
    let! a := fixed_mapper_alloc_page PA_PROT_WRITE in
    let! b := fixed_mapper_alloc_page PA_PROT_WRITE in ret tt) neighbour
      = Some [(TERABYTE + 8192, TERABYTE + 12288)] /\
  run_maps (fixed_mapper_init no_env ;;;
    let! a := fixed_mapper_alloc_page PA_PROT_WRITE in
    let! b := fixed_mapper_alloc_page PA_PROT_WRITE in
    let! c := fixed_mapper_alloc_page PA_PROT_WRITE in ret tt) neighbour = Some [].
Proof. split; vm_compute; reflexivity. Qed.
