(* ===== verification/NlMapper.v ===== *)
(** * The nonlinear mapper: [src/nlmapper.c]

    The second page allocator: the file is mapped in pieces as it grows, and
    two pages can exchange their places in the address space with
    [remap_file_pages].  [struct nlm_page] objects live in [ns_pages]; of the
    union [index] the list links are kept in [ns_links] and the tree links in
    the tree [nl_root] itself, whose elements are pointers to page objects,
    ordered by the [addr] field of the object. *)
From Stdlib Require Import ZArith Lia.
From stdpp Require Import base numbers gmap option list.
From S2P Require Import Prelude Macros Queue Process RBTree FixedMapper.
Open Scope Z_scope.

Record nlm_page := NlmPage {
  np_pgoff : Z;
  np_addr : Z;
  np_is_free : bool;
  np_is_use : bool;
  np_is_nonlinear : bool;
}.

Record nlm := Nlm {
  nl_file_size : Z;
  nl_prev_file_size : Z;
  nl_start_addr : Z;
  nl_is_nonlinear : bool;
  nl_is_fully_mapped : bool;
  nl_pgcnt : Z;
  nl_fl_size : Z;
  nl_fl_head : option Z;
  nl_fl_last : option Z;
  nl_root : rbt Z;
}.

Record nlst := Nlst {
  ns_proc : proc;
  ns_pages : gmap Z nlm_page;
  ns_links : gmap Z (option Z * sref Z);
  ns_nlm : nlm;
}.

Definition nl_on_proc {A} (m : M proc A) : M nlst A :=
  zoom ns_proc (fun p s => Nlst p (ns_pages s) (ns_links s) (ns_nlm s)) m.
Definition nl_on_links {A} (m : M (gmap Z (option Z * sref Z)) A) : M nlst A :=
  zoom ns_links (fun l s => Nlst (ns_proc s) (ns_pages s) l (ns_nlm s)) m.
Definition set_nlm (f : nlm -> nlm) : M nlst unit :=
  modify (fun s => Nlst (ns_proc s) (ns_pages s) (ns_links s) (f (ns_nlm s))).
Definition nl {A} (f : nlm -> A) : M nlst A := gets (fun s => f (ns_nlm s)).

Definition nl_get_page (ptr : Z) : M nlst nlm_page :=
  let! o := gets (fun s => ns_pages s !! ptr) in from_opt Unmapped o.
Definition nl_put_page (ptr : Z) (p : nlm_page) : M nlst unit :=
  modify (fun s => Nlst (ns_proc s) (<[ptr := p]> (ns_pages s)) (ns_links s) (ns_nlm s)).

Definition nl_set_sizes (file_size prev : Z) (mapped : bool) : M nlst unit :=
  set_nlm (fun n => Nlm file_size prev (nl_start_addr n) (nl_is_nonlinear n) mapped (nl_pgcnt n)
                      (nl_fl_size n) (nl_fl_head n) (nl_fl_last n) (nl_root n)).
Definition nl_set_start (a : Z) : M nlst unit :=
  set_nlm (fun n => Nlm (nl_file_size n) (nl_prev_file_size n) a (nl_is_nonlinear n) (nl_is_fully_mapped n)
                      (nl_pgcnt n) (nl_fl_size n) (nl_fl_head n) (nl_fl_last n) (nl_root n)).
Definition nl_set_nonlinear : M nlst unit :=
  set_nlm (fun n => Nlm (nl_file_size n) (nl_prev_file_size n) (nl_start_addr n) true (nl_is_fully_mapped n)
                      (nl_pgcnt n) (nl_fl_size n) (nl_fl_head n) (nl_fl_last n) (nl_root n)).
Definition nl_set_pgcnt (c : Z) : M nlst unit :=
  set_nlm (fun n => Nlm (nl_file_size n) (nl_prev_file_size n) (nl_start_addr n) (nl_is_nonlinear n)
                      (nl_is_fully_mapped n) c (nl_fl_size n) (nl_fl_head n) (nl_fl_last n) (nl_root n)).
Definition nl_set_free_list (size : Z) (head last : option Z) : M nlst unit :=
  set_nlm (fun n => Nlm (nl_file_size n) (nl_prev_file_size n) (nl_start_addr n) (nl_is_nonlinear n)
                      (nl_is_fully_mapped n) (nl_pgcnt n) size head last (nl_root n)).
Definition nl_set_root (t : rbt Z) : M nlst unit :=
  set_nlm (fun n => Nlm (nl_file_size n) (nl_prev_file_size n) (nl_start_addr n) (nl_is_nonlinear n)
                      (nl_is_fully_mapped n) (nl_pgcnt n) (nl_fl_size n) (nl_fl_head n) (nl_fl_last n) t).

(** ** The tree of pages in use *)
Definition page_addr (s : nlst) (ptr : Z) : Z :=
  match ns_pages s !! ptr with Some p => np_addr p | None => 0 end.

Definition nlm_page_comare_addr (s : nlst) (a b : Z) : Z := cmp_ptr (page_addr s a) (page_addr s b).

(** [RB_FIND] with a key on the stack whose [addr] is given. *)
Definition nl_find (addr : Z) : M nlst (option Z) :=
  gets (fun s => RB_FIND (fun _ ptr => cmp_ptr addr (page_addr s ptr)) (nl_root (ns_nlm s)) 0).

Definition nl_tree_insert (ptr : Z) : M nlst unit :=
  let! r := gets (fun s => RB_INSERT (nlm_page_comare_addr s) (nl_root (ns_nlm s)) ptr) in
  let! p := from_opt NullDeref r in nl_set_root p.2.

Definition nl_tree_remove (ptr : Z) : M nlst unit :=
  let! r := gets (fun s => RB_REMOVE (nlm_page_comare_addr s) (nl_root (ns_nlm s)) ptr) in
  let! p := from_opt NullDeref r in nl_set_root p.2.

(** ** Pages *)
Definition MARK_PAGE_AS_FREE (p : nlm_page) : nlm_page :=
  NlmPage (np_pgoff p) (np_addr p) true false (np_is_nonlinear p).

Definition MARK_PAGE_AS_INUSE (p : nlm_page) : option nlm_page :=
  if np_is_free p then Some (NlmPage (np_pgoff p) (np_addr p) false true (np_is_nonlinear p)) else None.

Definition __nlm_free_page (ptr : Z) (update_in_used : bool) : M nlst unit :=
  let! p := nl_get_page ptr in
  when update_in_used (assert_ (np_is_use p) ;;; nl_tree_remove ptr) ;;;
  let! size := nl nl_fl_size in
  let! head := nl nl_fl_head in
  let! last := nl nl_fl_last in
  let! head := (if size =? 0 then
                  let! h := nl_on_links (LIST_INSERT_HEAD head ptr) in
                  assert_ (bool_decide (last = None)) ;;; ret h
                else
                  let! q := from_opt NullDeref last in
                  nl_on_links (LIST_INSERT_AFTER q ptr) ;;; ret head) in
  nl_set_free_list (u64 (size + 1)) head (Some ptr) ;;;
  nl_put_page ptr (MARK_PAGE_AS_FREE p).

Definition __nlm_use_page (ptr : Z) : M nlst unit :=
  let! p := nl_get_page ptr in
  assert_ (np_is_free p) ;;;
  let! head := nl nl_fl_head in
  let! head := nl_on_links (LIST_REMOVE head ptr) in
  let! size := nl nl_fl_size in
  let! last := nl nl_fl_last in
  let size := u64 (size - 1) in
  nl_set_free_list size head (if size =? 0 then None else last) ;;;
  nl_tree_insert ptr ;;;
  let! p := from_opt AssertFailed (MARK_PAGE_AS_INUSE p) in
  nl_put_page ptr p.

Definition is_nonlinear (start : Z) (pg : nlm_page) : bool := negb (u64 (np_addr pg - start) =? np_pgoff pg).

Definition nlm_page_alloc (addr pgoff : Z) : M nlst Z :=
  let! ptr := nl_on_proc malloc in
  nl_put_page ptr (NlmPage pgoff addr false false false) ;;;
  nl_on_links (modify (<[ptr := (None, SHead)]>)) ;;;
  let! c := nl nl_pgcnt in
  nl_set_pgcnt (u64 (c + 1)) ;;;
  ret ptr.

Definition add_pages_to_free_list : M nlst unit :=
  let! file_size := nl nl_file_size in
  let! prev := nl nl_prev_file_size in
  let! start := nl nl_start_addr in
  let pgs := u64 (file_size - prev) / PAGE_SIZE in
  for_ (Z.to_nat pgs) 0 (fun i =>
    let iaddr := u64 (start + prev + i * PAGE_SIZE) in
    let ioffset := u64 (prev + i * PAGE_SIZE) in
    let! ptr := nlm_page_alloc iaddr ioffset in
    __nlm_free_page ptr false).

(** ** Mapping and growing the file *)
Definition UPDATE_FREE_LIST := true.
Definition DONT_UPDATE_FREE_LIST := false.

Definition remap_entire_file (update_free_list : bool) : M nlst unit :=
  let! mapped := nl nl_is_fully_mapped in
  assert_ (negb mapped) ;;;
  let! start := nl nl_start_addr in
  let! file_size := nl nl_file_size in
  let! prev := nl nl_prev_file_size in
  let! hint := (if start =? 0 then
                  let! lines := nl_on_proc (gets p_maps) in ret (map_hint lines file_size)
                else
                  let! _ := nl_on_proc (munmap start file_size) in ret start) in
  assert_ (negb (hint =? 0)) ;;;
  let! addr := nl_on_proc (mmap hint file_size PA_PROT_READ 0) in
  assert_ (bool_decide (addr = Some hint)) ;;;
  when (start =? 0) (nl_set_start hint) ;;;
  when update_free_list add_pages_to_free_list ;;;
  nl_set_sizes file_size prev true.

Definition map_appending (update_free_list : bool) : M nlst unit :=
  let! mapped := nl nl_is_fully_mapped in
  assert_ (negb mapped) ;;;
  let! start := nl nl_start_addr in
  let! file_size := nl nl_file_size in
  let! prev := nl nl_prev_file_size in
  let! hint := (if start =? 0 then
                  let! lines := nl_on_proc (gets p_maps) in ret (map_hint lines file_size)
                else ret (u64 (start + prev))) in
  let! addr := nl_on_proc (mmap hint (u64 (file_size - prev)) PA_PROT_READ prev) in
  assert_ (bool_decide (addr = Some hint)) ;;;
  when (start =? 0) (nl_set_start hint) ;;;
  when update_free_list add_pages_to_free_list ;;;
  nl_set_sizes file_size prev true.

Definition Func_map_file : bool -> M nlst unit := map_appending.

Definition DOUBLE_FILE_SIZE (p : nlm) : Z := u64 (nl_file_size p * 2).

Definition nlm_grow_file (new_size : Z) : M nlst unit :=
  let! size := nl nl_fl_size in
  assert_ (size =? 0) ;;;
  nl_on_proc (stat (__INC_BOTH cont_grow)) ;;;
  let! file_size := nl nl_file_size in
  let! rc := nl_on_proc (posix_fallocate file_size new_size) in
  match rc with FA_OK => ret tt | _ => fail HandleError end ;;;
  nl_set_sizes new_size file_size false.

Definition nlm_alloc_pages (n flags : Z) : M nlst (Z * Z) := fail HandleError.

Definition nlm_alloc_page (flags : Z) : M nlst (Z * Z) :=
  let! size := nl nl_fl_size in
  when (size =? 0)
    (let! n := nl DOUBLE_FILE_SIZE in nlm_grow_file n ;;; Func_map_file UPDATE_FREE_LIST) ;;;
  let! head := nl nl_fl_head in
  let! ptr := from_opt NullDeref (LIST_FIRST head) in
  __nlm_use_page ptr ;;;
  let! p := nl_get_page ptr in
  when (negb (Z.land flags PA_PROT_WRITE =? 0))
    (nl_on_proc (page_allocator_mprotect_generic (np_addr p) PAGE_SIZE flags)) ;;;
  ret (np_addr p, np_pgoff p).

(** Both messages of the last branch stop the process. *)
Definition nlm_free_pages (addr : Z) : M nlst unit :=
  let addr_paligned := itop (ROUND_DWNPG (ptoi addr)) in
  let! o := nl_find addr_paligned in
  match o with
  | Some ptr => __nlm_free_page ptr true
  | None => fail HandleError
  end.

Definition nlm_get_address (laddr : Z) : M nlst Z :=
  let! start := nl nl_start_addr in ret (u64 (start + laddr)).

(** [free(p)] *)
Definition nl_free_object (ptr : Z) : M nlst unit :=
  modify (fun s => Nlst (ns_proc s) (delete ptr (ns_pages s)) (delete ptr (ns_links s)) (ns_nlm s)).

(** [while (!RB_EMPTY(&h->root))]: one page leaves the tree per turn. *)
Fixpoint close_inuse (fuel : nat) : M nlst unit :=
  match fuel with
  | O => fail Diverges
  | S fuel' =>
      let! root := nl nl_root in
      match root with
      | Leaf => ret tt
      | Node _ _ ptr _ =>
          let! p := nl_get_page ptr in
          assert_ (np_is_use p) ;;;
          nl_tree_remove ptr ;;;
          nl_free_object ptr ;;;
          let! c := nl nl_pgcnt in
          nl_set_pgcnt (u64 (c - 1)) ;;;
          close_inuse fuel'
      end
  end.

Fixpoint close_free (fuel : nat) : M nlst unit :=
  match fuel with
  | O => fail Diverges
  | S fuel' =>
      let! size := nl nl_fl_size in
      if size =? 0 then ret tt
      else
        let! head := nl nl_fl_head in
        let! ptr := from_opt NullDeref (LIST_FIRST head) in
        let! p := nl_get_page ptr in
        assert_ (np_is_free p) ;;;
        let! head := nl_on_links (LIST_REMOVE head ptr) in
        nl_free_object ptr ;;;
        let! last := nl nl_fl_last in
        nl_set_free_list (u64 (size - 1)) head last ;;;
        let! c := nl nl_pgcnt in
        nl_set_pgcnt (u64 (c - 1)) ;;;
        close_free fuel'
  end.

Definition nlm_close : M nlst Z :=
  let! pgcnt := nl nl_pgcnt in
  let! file_size := nl nl_file_size in
  assert_ (pgcnt =? file_size / PAGE_SIZE) ;;;
  close_inuse (S (Z.to_nat pgcnt)) ;;;
  close_free (S (Z.to_nat pgcnt)) ;;;
  let! pgcnt := nl nl_pgcnt in
  assert_ (pgcnt =? 0) ;;;
  ret 0.

Definition nlm_init (e : env) : M nlst unit :=
  let! len := nl_on_proc (gets p_file) in
  set_nlm (fun _ => Nlm len 0 0 false false 0 0 LIST_INIT None Leaf) ;;;
  when (len =? 0)
    (nlm_grow_file (match PMLIB_INIT_SIZE e with
                    | None => FM_FILE_SIZE
                    | Some v => MAX (ROUNDPG (u64 v)) PAGE_SIZE
                    end)) ;;;
  Func_map_file UPDATE_FREE_LIST.

(** ** Exchanging two pages *)
Definition update_swapped_pages (xaddr yaddr : Z) : M nlst unit :=
  let! xo := nl_find xaddr in
  match xo with
  | None => ret tt
  | Some x =>
      let! yo := nl_find yaddr in
      match yo with
      | None => ret tt
      | Some y =>
          let! start := nl nl_start_addr in
          let! xpg := nl_get_page x in
          let! ypg := nl_get_page y in
          (* SWAP(size_t, xpg->pgoff, ypg->pgoff) *)
          nl_put_page x (NlmPage (np_pgoff ypg) (np_addr xpg) (np_is_free xpg) (np_is_use xpg) (np_is_nonlinear xpg)) ;;;
          let! ypg := nl_get_page y in
          nl_put_page y (NlmPage (np_pgoff xpg) (np_addr ypg) (np_is_free ypg) (np_is_use ypg) (np_is_nonlinear ypg)) ;;;
          let! xpg := nl_get_page x in
          nl_put_page x (NlmPage (np_pgoff xpg) (np_addr xpg) (np_is_free xpg) (np_is_use xpg) (is_nonlinear start xpg)) ;;;
          let! ypg := nl_get_page y in
          nl_put_page y (NlmPage (np_pgoff ypg) (np_addr ypg) (np_is_free ypg) (np_is_use ypg) (is_nonlinear start ypg))
      end
  end.

Definition nlm_swap_pages (xaddr ypgoff yaddr xpgoff : Z) : M nlst unit :=
  let! rc := nl_on_proc (remap_file_pages xaddr (ypgoff / PAGE_SIZE)) in
  when (negb (rc =? 0)) (fail HandleError) ;;;
  let! rc := nl_on_proc (remap_file_pages yaddr (xpgoff / PAGE_SIZE)) in
  when (negb (rc =? 0)) (fail HandleError) ;;;
  let! start := nl nl_start_addr in
  when (negb (u64 (xaddr - start) =? xpgoff)) nl_set_nonlinear ;;;
  update_swapped_pages xaddr yaddr.

(** ** Invariant

    [fl]: the free list, as pointers to page objects; the pages in use are the
    elements of the tree.  Every page object says where its page is mapped. *)
Definition inuse (s : nlst) : list Z := inorder (nl_root (ns_nlm s)).

Record page_ok (s : nlst) (free : bool) (ptr : Z) (p : nlm_page) : Prop := {
  po_page : ns_pages s !! ptr = Some p;
  po_free : np_is_free p = free;
  po_use : np_is_use p = negb free;
  po_vm : p_vm (ns_proc s) !! np_addr p = Some (np_pgoff p);
  po_addr : in_u 64 (np_addr p) /\ np_addr p mod PAGE_SIZE = 0;
  po_off : np_pgoff p mod PAGE_SIZE = 0;
  po_link : is_Some (ns_links s !! ptr);
}.

Record nl_wf (s : nlst) (fl : list Z) : Prop := {
  nw_free : forall ptr, ptr ∈ fl -> exists p, page_ok s true ptr p;
  nw_use : forall ptr, ptr ∈ inuse s -> exists p, page_ok s false ptr p;
  nw_list : dlist_repr (ns_links s) (nl_fl_head (ns_nlm s)) fl;
  nw_last : nl_fl_last (ns_nlm s) = last fl;
  nw_size : nl_fl_size (ns_nlm s) = zlen fl;
  nw_tree : rb_tree (nl_root (ns_nlm s));
  nw_sorted : key_sorted (page_addr s) (inuse s);
  nw_inj : forall x y, x ∈ fl -> y ∈ inuse s -> page_addr s x <> page_addr s y;
  nw_inj_free : forall x y, x ∈ fl -> y ∈ fl -> page_addr s x = page_addr s y -> x = y;
}.

Lemma page_addr_ok s b ptr p : page_ok s b ptr p -> page_addr s ptr = np_addr p.
Proof. intros [H _ _ _ _]. unfold page_addr. by rewrite H. Qed.

(** A change of the page objects that keeps the addresses keeps the tree. *)
Lemma page_addr_put s ptr p p' :
  ns_pages s !! ptr = Some p -> np_addr p' = np_addr p ->
  forall x, page_addr (Nlst (ns_proc s) (<[ptr := p']> (ns_pages s)) (ns_links s) (ns_nlm s)) x = page_addr s x.
Proof.
  intros Hp Ha x. unfold page_addr. simpl. destruct (decide (x = ptr)) as [->|Hne].
  - by rewrite lookup_insert_eq, Hp.
  - by rewrite lookup_insert_ne.
Qed.

(** Finding an in-use page by its address. *)
Lemma nl_find_inuse s fl ptr p :
  nl_wf s fl -> ptr ∈ inuse s -> page_ok s false ptr p -> nl_find (np_addr p) s = Ok (Some ptr) s.
Proof.
  intros Hw Hin Hp. unfold nl_find, gets. f_equal.
  eapply RB_FIND_key; [apply (nw_sorted _ _ Hw)|exact Hin|by apply (page_addr_ok _ _ _ _ Hp)].
Qed.

(** ** Exchanging pages *)
Definition swapped (p : nlm_page) (off : Z) (start : Z) : nlm_page :=
  let p := NlmPage off (np_addr p) (np_is_free p) (np_is_use p) (np_is_nonlinear p) in
  NlmPage off (np_addr p) (np_is_free p) (np_is_use p) (is_nonlinear start p).

Lemma update_swapped_run s x y px py :
  key_sorted (page_addr s) (inuse s) -> x ∈ inuse s -> y ∈ inuse s -> x <> y ->
  ns_pages s !! x = Some px -> ns_pages s !! y = Some py ->
  update_swapped_pages (page_addr s x) (page_addr s y) s =
    Ok tt (Nlst (ns_proc s)
      (<[y := swapped py (np_pgoff px) (nl_start_addr (ns_nlm s))]>
        (<[x := swapped px (np_pgoff py) (nl_start_addr (ns_nlm s))]> (ns_pages s)))
      (ns_links s) (ns_nlm s)).
Proof.
  intros Hw Hx Hy Hne Ex Ey.
  assert (Hfx : nl_find (page_addr s x) s = Ok (Some x) s).
  { unfold nl_find, gets. f_equal. eapply RB_FIND_key; [exact Hw|done|done]. }
  assert (Hfy : nl_find (page_addr s y) s = Ok (Some y) s).
  { unfold nl_find, gets. f_equal. eapply RB_FIND_key; [exact Hw|done|done]. }
  unfold update_swapped_pages. rewrite (bind_run _ _ _ _ _ Hfx). cbn beta iota.
  rewrite (bind_run _ _ _ _ _ Hfy). cbn beta iota.
  unfold bind, nl, nl_get_page, nl_put_page, gets, modify, from_opt, bind, ret. cbn [ns_pages ns_nlm ns_proc ns_links].
  rewrite Ex, Ey. cbn [ns_pages ns_nlm ns_proc ns_links]. rewrite lookup_insert_ne, Ey by done.
  cbn [ns_pages ns_nlm ns_proc ns_links].
  rewrite (lookup_insert_ne _ y x), lookup_insert_eq by done. cbn [ns_pages ns_nlm ns_proc ns_links].
  rewrite (lookup_insert_ne _ x y), lookup_insert_eq by done. cbn [ns_pages ns_nlm ns_proc ns_links].
  f_equal. f_equal. unfold swapped. simpl.
  rewrite (insert_insert_ne _ x y), insert_insert_eq by done.
  rewrite insert_insert_eq. reflexivity.
Qed.

Definition after_swap (s : nlst) (x y : Z) (px py : nlm_page) (nonlinear : bool) : nlst :=
  let n := ns_nlm s in
  let start := nl_start_addr n in
  Nlst (set_vm (<[np_addr py := np_pgoff px]> (<[np_addr px := np_pgoff py]> (p_vm (ns_proc s)))) (ns_proc s))
    (<[y := swapped py (np_pgoff px) start]> (<[x := swapped px (np_pgoff py) start]> (ns_pages s)))
    (ns_links s)
    (Nlm (nl_file_size n) (nl_prev_file_size n) start nonlinear (nl_is_fully_mapped n) (nl_pgcnt n)
       (nl_fl_size n) (nl_fl_head n) (nl_fl_last n) (nl_root n)).

Lemma swap_vm_frame s fl x y px py (b : bool) z pz k :
  nl_wf s fl -> x ∈ inuse s -> y ∈ inuse s -> x <> y -> page_ok s false x px -> page_ok s false y py ->
  (if b then z ∈ fl else z ∈ inuse s /\ z <> x /\ z <> y) -> page_ok s b z pz ->
  page_ok (after_swap s x y px py k) b z pz.
Proof.
  intros Hw Hx Hy Hne Hpx Hpy Hz Hpz.
  assert (Haz : page_addr s z <> page_addr s x /\ page_addr s z <> page_addr s y /\ z <> x /\ z <> y).
  { destruct b.
    - pose proof (nw_inj _ _ Hw z x Hz Hx). pose proof (nw_inj _ _ Hw z y Hz Hy). split_and!; congruence.
    - destruct Hz as (Hz & Hzx & Hzy). split_and!; try done; intros E; eapply key_sorted_inj in E;
        try apply (nw_sorted _ _ Hw); done. }
  destruct Haz as (H1 & H2 & H3 & H4).
  rewrite (page_addr_ok _ _ _ _ Hpz), (page_addr_ok _ _ _ _ Hpx) in H1.
  rewrite (page_addr_ok _ _ _ _ Hpz), (page_addr_ok _ _ _ _ Hpy) in H2.
  destruct Hpz as [? ? ? Hvm ? ?]. split; simpl; try done.
  - by rewrite !lookup_insert_ne.
  - by rewrite !lookup_insert_ne.
Qed.

Lemma swap_ok s x y px py k :
  page_ok s false x px -> page_ok s false y py -> page_addr s x <> page_addr s y -> x <> y ->
  page_ok (after_swap s x y px py k) false x (swapped px (np_pgoff py) (nl_start_addr (ns_nlm s))) /\
  page_ok (after_swap s x y px py k) false y (swapped py (np_pgoff px) (nl_start_addr (ns_nlm s))).
Proof.
  intros Hpx Hpy Ha Hne. rewrite (page_addr_ok _ _ _ _ Hpx), (page_addr_ok _ _ _ _ Hpy) in Ha.
  destruct Hpx as [Ex Hfx Hux Hvx Hax Hox], Hpy as [Ey Hfy Huy Hvy Hay Hoy].
  split; split; simpl; try done.
  - by rewrite lookup_insert_ne, lookup_insert_eq.
  - by rewrite lookup_insert_ne, lookup_insert_eq.
  - by rewrite lookup_insert_eq.
  - by rewrite lookup_insert_eq.
Qed.

Lemma after_swap_addr s x y px py k z :
  page_ok s false x px -> page_ok s false y py -> page_addr (after_swap s x y px py k) z = page_addr s z.
Proof.
  intros Hpx Hpy. unfold page_addr. simpl. destruct Hpx as [Ex _ _ _ _], Hpy as [Ey _ _ _ _].
  destruct (decide (z = y)) as [->|]; [by rewrite lookup_insert_eq, Ey|].
  rewrite lookup_insert_ne by done.
  destruct (decide (z = x)) as [->|]; [by rewrite lookup_insert_eq, Ex|]. by rewrite lookup_insert_ne.
Qed.

Lemma swap_run s fl x y px py :
  nl_wf s fl -> x ∈ inuse s -> y ∈ inuse s -> x <> y -> page_ok s false x px -> page_ok s false y py ->
  exists k, nlm_swap_pages (np_addr px) (np_pgoff py) (np_addr py) (np_pgoff px) s
      = Ok tt (after_swap s x y px py k) /\ nl_wf (after_swap s x y px py k) fl.
Proof.
  intros Hw Hx Hy Hne Hpx Hpy. pose proof Hpx as [Ex _ _ Hvx Hax Hox]. pose proof Hpy as [Ey _ _ Hvy Hay Hoy].
  assert (Ha : np_addr px <> np_addr py).
  { rewrite <- (page_addr_ok _ _ _ _ Hpx), <- (page_addr_ok _ _ _ _ Hpy). intros E.
    apply Hne. eapply key_sorted_inj; [apply (nw_sorted _ _ Hw)|done..]. }
  assert (Hdiv : forall o, o mod PAGE_SIZE = 0 -> o / PAGE_SIZE * PAGE_SIZE = o).
  { intros o Ho. pose proof (Z.div_mod o PAGE_SIZE ltac:(done)). lia. }
  assert (Hwf : forall k, nl_wf (after_swap s x y px py k) fl).
  { intros k. pose proof Hw as [H1 H2 H3 H4 H5 H6 H7 H8 H9].
    pose proof (fun z => after_swap_addr s x y px py k z Hpx Hpy) as Had.
    split; try done.
    - intros z Hz. destruct (H1 z Hz) as [p Hp]. exists p. by eapply swap_vm_frame.
    - intros z Hz. destruct (swap_ok s x y px py k Hpx Hpy) as [Hsx Hsy]; [|done|].
      { by rewrite (page_addr_ok _ _ _ _ Hpx), (page_addr_ok _ _ _ _ Hpy). }
      destruct (decide (z = x)) as [->|]; [by eexists|]. destruct (decide (z = y)) as [->|]; [by eexists|].
      destruct (H2 z Hz) as [p Hp]. exists p. by eapply swap_vm_frame.
    - eapply key_sorted_ext; [intros z _; symmetry; apply Had|done].
    - intros a b Ha' Hb. rewrite !Had. by apply H8.
    - intros a b Ha' Hb. rewrite !Had. by apply H9. }
  set (nl_flag := orb (nl_is_nonlinear (ns_nlm s)) (negb (u64 (np_addr px - nl_start_addr (ns_nlm s)) =? np_pgoff px))).
  exists nl_flag. split; [|apply Hwf].
  set (p1 := set_vm (<[np_addr px := np_pgoff py]> (p_vm (ns_proc s))) (ns_proc s)).
  assert (E1 : remap_file_pages (np_addr px) (np_pgoff py / PAGE_SIZE) (ns_proc s) = Ok 0 p1).
  { unfold remap_file_pages. rewrite (proj2 Hax), Hvx, bool_decide_true by (by eexists). simpl. by rewrite Hdiv. }
  set (p2 := set_vm (<[np_addr py := np_pgoff px]> (p_vm p1)) p1).
  assert (E2 : remap_file_pages (np_addr py) (np_pgoff px / PAGE_SIZE) p1 = Ok 0 p2).
  { unfold remap_file_pages. simpl. rewrite lookup_insert_ne by done.
    rewrite (proj2 Hay), Hvy, bool_decide_true by (by eexists). simpl. by rewrite Hdiv. }
  unfold nlm_swap_pages, bind, nl_on_proc, zoom. rewrite E1. simpl. unfold ret. rewrite E2. simpl.
  unfold ret, nl, gets.
  assert (Hupd : forall n', nl_root n' = nl_root (ns_nlm s) -> nl_start_addr n' = nl_start_addr (ns_nlm s) ->
    update_swapped_pages (np_addr px) (np_addr py) (Nlst p2 (ns_pages s) (ns_links s) n') =
    Ok tt (Nlst p2 (<[y := swapped py (np_pgoff px) (nl_start_addr (ns_nlm s))]>
        (<[x := swapped px (np_pgoff py) (nl_start_addr (ns_nlm s))]> (ns_pages s))) (ns_links s) n')).
  { intros n' Hr Hst. set (s' := Nlst p2 (ns_pages s) (ns_links s) n').
    pose proof (page_addr_ok _ _ _ _ Hpx) as Epx. pose proof (page_addr_ok _ _ _ _ Hpy) as Epy.
    change (page_addr s x) with (page_addr s' x) in Epx. change (page_addr s y) with (page_addr s' y) in Epy.
    rewrite <- Epx, <- Epy, <- Hst. unfold inuse in Hx, Hy. rewrite <- Hr in Hx, Hy.
    apply (update_swapped_run s'); try done.
    unfold inuse. simpl. rewrite Hr. apply (nw_sorted _ _ Hw). }
  unfold nl_flag. destruct (u64 _ =? _); simpl.
  - rewrite orb_false_r. unfold after_swap, ret. rewrite Hupd by done. by destruct (ns_nlm s).
  - rewrite orb_true_r. unfold nl_set_nonlinear, set_nlm, modify. rewrite Hupd by done. reflexivity.
Qed.

(** ** Allocation *)
Definition mark_inuse (p : nlm_page) : nlm_page :=
  NlmPage (np_pgoff p) (np_addr p) false true (np_is_nonlinear p).

(** The state after page [f] has moved from the free list to the tree. *)
Definition after_use (s : nlst) (f : Z) (p : nlm_page) (L : gmap Z (option Z * sref Z))
    (head last : option Z) (size : Z) (t : rbt Z) (pr : proc) : nlst :=
  let n := ns_nlm s in
  Nlst pr (<[f := mark_inuse p]> (ns_pages s)) L
    (Nlm (nl_file_size n) (nl_prev_file_size n) (nl_start_addr n) (nl_is_nonlinear n)
       (nl_is_fully_mapped n) (nl_pgcnt n) size head last t).

Lemma free_not_inuse s fl x : nl_wf s fl -> x ∈ fl -> x ∉ inuse s.
Proof. intros Hw Hx Hu. by destruct (nw_inj _ _ Hw x x Hx Hu). Qed.

Lemma after_use_wf s f fl p L head t pr :
  nl_wf s (f :: fl) -> page_ok s true f p -> dlist_repr L head fl ->
  (forall j, j ∉ fl -> L !! j = ns_links s !! j) ->
  rb_tree t -> key_sorted (page_addr s) (inorder t) ->
  (forall x, x ∈ inorder t <-> x = f \/ x ∈ inuse s) ->
  p_vm pr = p_vm (ns_proc s) ->
  nl_wf (after_use s f p L head (last fl) (zlen fl) t pr) fl.
Proof.
  intros Hw Hp Hd HL Ht Hs Hin Hvm.
  assert (Had : forall x, page_addr (after_use s f p L head (last fl) (zlen fl) t pr) x = page_addr s x).
  { intros x. unfold page_addr. simpl. destruct (decide (x = f)) as [->|]; [|by rewrite lookup_insert_ne].
    destruct Hp as [E _ _ _ _]. by rewrite lookup_insert_eq, E. }
  assert (Hnd : f ∉ fl) by (destruct (nw_list _ _ Hw) as [_ Hnd]; by inversion Hnd).
  pose proof Hw as [H1 H2 H3 H4 H5 H6 H7 H8 H9].
  assert (Hlk : forall x, is_Some (ns_links s !! x) -> is_Some (L !! x)).
  { intros x Hx. destruct (decide (x ∈ fl)) as [Hi|Hi]; [|by rewrite HL].
    destruct Hd as [Hd _]. by eapply dlseg_is_Some. }
  assert (Hold : forall b x q, x <> f -> page_ok s b x q ->
    page_ok (after_use s f p L head (last fl) (zlen fl) t pr) b x q).
  { intros b x q Hne [? ? ? Hv ? ? Hl]. split; simpl; try done; [by rewrite lookup_insert_ne|by rewrite Hvm|by apply Hlk]. }
  split; try done.
  - intros x Hx. destruct (H1 x) as [q Hq]; [set_solver|]. exists q. apply Hold; [by intros ->|done].
  - intros x Hx. unfold inuse in Hx. simpl in Hx. apply Hin in Hx as [->|Hx].
    + exists (mark_inuse p). destruct Hp as [? ? ? Hv ? ? Hl]. split; simpl; try done.
      * by rewrite lookup_insert_eq.
      * by rewrite Hvm.
      * by apply Hlk.
    + destruct (H2 x Hx) as [q Hq]. exists q. apply Hold; [|done].
      intros ->. by apply (free_not_inuse s (f :: fl) f Hw); [set_solver|].
  - unfold inuse. simpl. eapply key_sorted_ext; [intros z _; symmetry; apply Had|done].
  - intros x y Hx Hy. rewrite !Had. unfold inuse in Hy. simpl in Hy. apply Hin in Hy as [->|Hy].
    + intros E. apply Hnd. rewrite <- (H9 x f); [done|set_solver|set_solver|done].
    + apply H8; [set_solver|done].
  - intros x y Hx Hy. rewrite !Had. apply H9; set_solver.
Qed.

Lemma use_page_run s f fl p (Q : unit -> nlst -> Prop) :
  nl_wf s (f :: fl) -> page_ok s true f p -> zlen fl < 2 ^ 63 ->
  (forall s', nl_wf s' fl -> ns_pages s' = <[f := mark_inuse p]> (ns_pages s) -> ns_proc s' = ns_proc s ->
     (forall x, x ∈ inuse s' <-> x = f \/ x ∈ inuse s) -> Q tt s') ->
  wp (__nlm_use_page f) Q s.
Proof.
  intros Hw Hp Hb HQ. pose proof Hp as [E Ef Eu _ _ _ _]. unfold __nlm_use_page, nl_get_page, nl. msteps; [done|]. apply wp_zoom.
  eapply wp_mono; [apply LIST_REMOVE_head_repr, (nw_list _ _ Hw)|].
  intros head L [Hd HL]. msteps. unfold nl_set_free_list, set_nlm. msteps. cbn [ns_nlm].
  rewrite (nw_size _ _ Hw), (nw_last _ _ Hw).
  assert (Hu : u64 (zlen (f :: fl) - 1) = zlen fl).
  { unfold u64, zlen in *. simpl. rewrite wrap_id; unfold in_u; lia. }
  rewrite Hu. replace (if zlen fl =? 0 then None else last (f :: fl)) with (last fl).
  2: { destruct fl as [|g fl']; [done|]. destruct (Z.eqb_spec (zlen (g :: fl')) 0); [unfold zlen in *; simpl in *; lia|done]. }
  unfold nl_tree_insert, nl_set_root, set_nlm. msteps. cbn [ns_pages ns_nlm nl_root].
  destruct (RB_INSERT_key (page_addr s) (nlm_page_comare_addr s) (nl_root (ns_nlm s)) f)
    as (t & Et & Ht & Hs & Hin); [done|apply (nw_tree _ _ Hw)|apply (nw_sorted _ _ Hw)| |].
  { intros x Hx Hax. by apply (nw_inj _ _ Hw f x); [set_solver|..]. }
  change (nlm_page_comare_addr _) with (nlm_page_comare_addr s).
  eapply wp_from_opt; [exact Et|]. msteps. cbn [fst snd].
  unfold MARK_PAGE_AS_INUSE. rewrite Ef. cbn [from_opt]. msteps. unfold nl_put_page. msteps.
  apply HQ; try done. by apply (after_use_wf s f fl p L head t (ns_proc s)).
Qed.

(** What an allocation of page [f] changes. *)
Definition nl_alloc_post (s : nlst) (f : Z) (fl : list Z) (p : nlm_page) (flags : Z) (r : Z * Z) (s' : nlst) : Prop :=
  r = (np_addr p, np_pgoff p) /\ nl_wf s' fl /\ (forall x, x ∈ inuse s' <-> x = f \/ x ∈ inuse s) /\
  ns_pages s' = <[f := mark_inuse p]> (ns_pages s) /\
  p_vm (ns_proc s') = p_vm (ns_proc s) /\
  p_prot (ns_proc s') = alloc_prot flags (np_addr p) (p_prot (ns_proc s)).

Lemma nl_alloc_run s f fl p flags :
  nl_wf s (f :: fl) -> page_ok s true f p -> zlen fl < 2 ^ 63 ->
  wp (nlm_alloc_page flags) (nl_alloc_post s f fl p flags) s.
Proof.
  intros Hw Hp Hb. unfold nlm_alloc_page, nl. msteps. rewrite (nw_size _ _ Hw).
  destruct (Z.eqb_spec (zlen (f :: fl)) 0); [unfold zlen in *; simpl in *; lia|]. cbn [when]. msteps.
  destruct (nw_list _ _ Hw) as [[Hh _] _]. rewrite Hh. eapply wp_from_opt; [reflexivity|]. msteps.
  eapply use_page_run; [exact Hw|exact Hp|done|]. intros s1 Hw1 Epg Epr Hin.
  unfold nl_get_page. msteps. rewrite Epg, lookup_insert_eq. cbn [from_opt]. msteps.
  unfold nl_alloc_post, alloc_prot. cbn [np_addr np_pgoff mark_inuse].
  destruct (Z.land flags PA_PROT_WRITE =? 0); cbn [negb when]; msteps.
  - rewrite Epr. done.
  - apply wp_zoom. apply wp_mprotect_page; [apply Hp|rewrite Epr, (po_vm _ _ _ _ Hp); by eexists|].
    msteps. split_and!; [done| |done|done|by simpl; rewrite Epr|by simpl; rewrite Epr].
    destruct Hw1 as [H1 H2 H3 H4 H5 H6 H7 H8 H9]. split; try done.
    + intros x Hx. destruct (H1 x Hx) as [q []]. by exists q.
    + intros x Hx. destruct (H2 x Hx) as [q []]. by exists q.
Qed.

(** ** Freeing *)
(** A page goes to the end of the free list; the tree [t] has lost it, or did
    not have it. *)
Lemma list_page_wf s fl ptr p L head t size :
  nl_wf s fl -> ns_pages s !! ptr = Some p -> p_vm (ns_proc s) !! np_addr p = Some (np_pgoff p) ->
  in_u 64 (np_addr p) /\ np_addr p mod PAGE_SIZE = 0 -> np_pgoff p mod PAGE_SIZE = 0 ->
  is_Some (ns_links s !! ptr) -> ptr ∉ fl ->
  dlist_repr L head (fl ++ [ptr]) -> (forall j, j <> ptr -> j ∉ fl -> L !! j = ns_links s !! j) ->
  rb_tree t -> key_sorted (page_addr s) (inorder t) ->
  (forall x, x ∈ inorder t -> x ∈ inuse s /\ x <> ptr /\ page_addr s x <> np_addr p) ->
  (forall x, x ∈ fl -> page_addr s x <> np_addr p) -> size = zlen (fl ++ [ptr]) ->
  let n := ns_nlm s in
  nl_wf (Nlst (ns_proc s) (<[ptr := MARK_PAGE_AS_FREE p]> (ns_pages s)) L
    (Nlm (nl_file_size n) (nl_prev_file_size n) (nl_start_addr n) (nl_is_nonlinear n)
       (nl_is_fully_mapped n) (nl_pgcnt n) size head (Some ptr) t)) (fl ++ [ptr]).
Proof.
  intros Hw E Hv Ha Ho Hl Hnin Hd HL Ht Hs Hin Hfl Hsz n. set (s' := Nlst _ _ _ _).
  assert (Had : forall x, page_addr s' x = page_addr s x).
  { intros x. unfold page_addr, s'. simpl. destruct (decide (x = ptr)) as [->|]; [|by rewrite lookup_insert_ne].
    by rewrite lookup_insert_eq, E. }
  assert (Eptr : page_addr s ptr = np_addr p) by (unfold page_addr; by rewrite E).
  pose proof Hw as [H1 H2 H3 H4 H5 H6 H7 H8 H9].
  assert (Hlk : forall x, is_Some (ns_links s !! x) -> is_Some (L !! x)).
  { intros x Hx. destruct (decide (x ∈ fl ++ [ptr])) as [Hi|Hi]; [destruct Hd as [Hd _]; by eapply dlseg_is_Some|].
    rewrite HL; [done|set_solver|set_solver]. }
  assert (Hold : forall b x q, x <> ptr -> page_ok s b x q -> page_ok s' b x q).
  { intros b x q Hne [? ? ? ? ? ? ?]. split; simpl; try done; [by rewrite lookup_insert_ne|by apply Hlk]. }
  assert (Hiu : inuse s' = inorder t) by done.
  split; rewrite ?Hiu; try done.
  - intros x [Hx|Hx]%elem_of_app.
    + destruct (H1 x Hx) as [q Hq]. exists q. apply Hold; [|done]. by intros ->.
    + apply list_elem_of_singleton in Hx as ->. exists (MARK_PAGE_AS_FREE p).
      split; simpl; try done; [by rewrite lookup_insert_eq|by apply Hlk].
  - intros x Hx. destruct (Hin x Hx) as (Hx' & Hne & _). destruct (H2 x Hx') as [q Hq]. exists q. by apply Hold.
  - simpl. by rewrite last_snoc.
  - eapply key_sorted_ext; [intros z _; symmetry; apply Had|done].
  - intros x y Hx Hy. destruct (Hin y Hy) as (Hy' & Hne & Hay). rewrite !Had. apply elem_of_app in Hx as [Hx|Hx]; [by apply H8|].
    apply list_elem_of_singleton in Hx as ->. rewrite Eptr. congruence.
  - intros x y [Hx|Hx]%elem_of_app [Hy|Hy]%elem_of_app; rewrite !Had; [by apply H9|..].
    + apply list_elem_of_singleton in Hy as ->. rewrite Eptr. intros Exy. by destruct (Hfl x Hx).
    + apply list_elem_of_singleton in Hx as ->. rewrite Eptr. intros Exy. by destruct (Hfl y Hy).
    + apply list_elem_of_singleton in Hx as ->. by apply list_elem_of_singleton in Hy as ->.
Qed.

(** The list gets one element at its end, whether it was empty or not. *)
Lemma append_page_run s fl ptr p n (Q : unit -> nlst -> Prop) (m : option Z -> M nlst unit) :
  nl_fl_head n = nl_fl_head (ns_nlm s) -> nl_fl_last n = nl_fl_last (ns_nlm s) -> nl_fl_size n = nl_fl_size (ns_nlm s) ->
  nl_wf s fl -> ptr ∉ fl -> is_Some (ns_links s !! ptr) -> p = Nlst (ns_proc s) (ns_pages s) (ns_links s) n ->
  (forall head L, dlist_repr L head (fl ++ [ptr]) -> (forall j, j <> ptr -> j ∉ fl -> L !! j = ns_links s !! j) ->
     wp (m head) Q (Nlst (ns_proc s) (ns_pages s) L n)) ->
  wp (let! head := (if nl_fl_size n =? 0 then
                  let! h := nl_on_links (LIST_INSERT_HEAD (nl_fl_head n) ptr) in
                  assert_ (bool_decide (nl_fl_last n = None)) ;;; ret h
                else
                  let! q := from_opt NullDeref (nl_fl_last n) in
                  nl_on_links (LIST_INSERT_AFTER q ptr) ;;; ret (nl_fl_head n)) in m head) Q p.
Proof.
  intros Eh El Es Hw Hnin [v Hv] -> HQ. rewrite Eh, El, Es, (nw_size _ _ Hw), (nw_last _ _ Hw). pose proof (nw_list _ _ Hw) as Hd.
  apply wp_bind. destruct (Z.eqb_spec (zlen fl) 0) as [Ez|Ez].
  - destruct fl as [|? ?]; [|by unfold zlen in Ez; simpl in Ez]. apply wp_bind, wp_zoom.
    eapply wp_mono; [by eapply (LIST_INSERT_HEAD_repr _ _ [])|]. intros h L [HdL HL]. msteps; [done|].
    apply HQ; [done|]. intros j Hj _. apply HL; [done|by apply not_elem_of_nil].
  - destruct fl as [|x fl' _] using rev_ind; [by destruct Ez|]. rewrite last_snoc. msteps. cbn [from_opt]. msteps.
    apply wp_zoom. eapply wp_mono; [by eapply (LIST_INSERT_AFTER_last_repr _ _ fl' x)|]. intros [] L [HdL HL]. msteps.
    apply HQ; [done|]. intros j Hj Hjl. by apply HL.
Qed.

Lemma nl_free_run s fl ptr p :
  nl_wf s fl -> ptr ∈ inuse s -> page_ok s false ptr p -> zlen fl + 1 < 2 ^ 63 ->
  wp (nlm_free_pages (np_addr p)) (fun _ s' => nl_wf s' (fl ++ [ptr]) /\ ns_proc s' = ns_proc s /\
    (forall x, x ∈ inuse s' <-> x ∈ inuse s /\ x <> ptr) /\
    ns_pages s' = <[ptr := MARK_PAGE_AS_FREE p]> (ns_pages s)) s.
Proof.
  intros Hw Hu Hp Hb. unfold nlm_free_pages. cbv zeta. destruct (po_addr _ _ _ _ Hp) as [Har Hal].
  assert (Ea : itop (ROUND_DWNPG (ptoi (np_addr p))) = np_addr p).
  { unfold itop, ptoi, u64. rewrite (wrap_id _ (np_addr p)) by done. rewrite ROUND_DWNPG_eq, Hal, Z.sub_0_r. by apply wrap_id. }
  rewrite Ea. apply wp_bind. eapply wp_ok; [by eapply nl_find_inuse|]. unfold __nlm_free_page.
  unfold nl_get_page at 1. msteps. rewrite (po_page _ _ _ _ Hp). cbn [from_opt]. msteps. cbn [when]. msteps; [by rewrite (po_use _ _ _ _ Hp)|].
  unfold nl_tree_remove, nl_set_root, set_nlm. msteps.
  destruct (RB_REMOVE_key (page_addr s) (nlm_page_comare_addr s) (nl_root (ns_nlm s)) ptr)
    as (t & Et & Ht & Hs & Hin); [done|apply (nw_tree _ _ Hw)|apply (nw_sorted _ _ Hw)|exact Hu|].
  eapply wp_from_opt; [exact Et|]. msteps. cbn [fst snd]. unfold nl. apply wp_gets. do 2 (apply wp_bind, wp_gets). cbn [ns_nlm].
  eapply (append_page_run s fl ptr _ _ _ (fun head => _)); [reflexivity..|exact Hw| |apply Hp|reflexivity|].
  { intros Hi. by apply (free_not_inuse s fl ptr Hw). }
  intros head L HdL HL. unfold nl_set_free_list, nl_put_page, set_nlm. msteps. cbn [ns_pages ns_proc ns_links ns_nlm].
  rewrite (nw_size _ _ Hw). split_and!; [|done|exact Hin|done].
  assert (Hnin : ptr ∉ fl) by (intros Hi; by apply (free_not_inuse s fl ptr Hw)).
  assert (Eptr : page_addr s ptr = np_addr p) by (by apply (page_addr_ok _ _ _ _ Hp)).
  apply (list_page_wf s fl ptr p L head t); try done; try apply Hp.
  { intros x [Hx Hne]%Hin. split_and!; [done|done|]. rewrite <- Eptr. intros E. apply Hne.
    by apply (key_sorted_inj _ _ _ _ (nw_sorted _ _ Hw)). }
  { intros x Hx. rewrite <- Eptr. by apply (nw_inj _ _ Hw). }
  assert (E : zlen (fl ++ [ptr]) = zlen fl + 1) by (unfold zlen; rewrite length_app; simpl; lia). rewrite E.
  apply wrap_id. unfold in_u, zlen in *. lia.
Qed.

(** ** Initialisation *)

(** The first [i] pages of the mapping at [start] are on the free list, with
    the page objects [b0], [b0 + 1], ... *)
Record listed (vm : gmap Z Z) (start b0 n i : Z) (s : nlst) : Prop := {
  li_wf : nl_wf s (seqZ b0 i);
  li_root : nl_root (ns_nlm s) = Leaf;
  li_vm : p_vm (ns_proc s) = vm;
  li_brk : p_brk (ns_proc s) = b0 + i;
  li_start : nl_start_addr (ns_nlm s) = start;
  li_size : nl_file_size (ns_nlm s) = PAGE_SIZE * n;
  li_prev : nl_prev_file_size (ns_nlm s) = 0;
  li_page : forall j, 0 <= j < i ->
    ns_pages s !! (b0 + j) = Some (NlmPage (PAGE_SIZE * j) (start + PAGE_SIZE * j) true false false);
}.

Lemma seqZ_snoc b i : 0 <= i -> seqZ b (i + 1) = seqZ b i ++ [b + i].
Proof. intros Hi. rewrite seqZ_app by lia. f_equal. Qed.

(** A new page object does not touch the lists. *)
Lemma nl_wf_new s fl ptr p v pr n :
  nl_wf s fl -> inuse s = [] -> ptr ∉ fl -> p_vm pr = p_vm (ns_proc s) -> nl_root n = nl_root (ns_nlm s) ->
  nl_fl_head n = nl_fl_head (ns_nlm s) -> nl_fl_last n = nl_fl_last (ns_nlm s) -> nl_fl_size n = nl_fl_size (ns_nlm s) ->
  nl_wf (Nlst pr (<[ptr := p]> (ns_pages s)) (<[ptr := v]> (ns_links s)) n) fl.
Proof.
  intros Hw Hu Hnin Ev Er Eh El Es. set (s' := Nlst _ _ _ _). pose proof Hw as [H1 H2 H3 H4 H5 H6 H7 H8 H9].
  assert (Hu' : inuse s' = []) by (unfold inuse, s'; simpl; by rewrite Er).
  assert (Had : forall x, x ∈ fl -> page_addr s' x = page_addr s x).
  { intros x Hx. unfold page_addr, s'. simpl. rewrite lookup_insert_ne; [done|]. by intros <-. }
  split; rewrite ?Hu'; try (by intros ? ?%elem_of_nil); simpl; rewrite ?Eh, ?El, ?Es, ?Er; try done.
  - intros x Hx. destruct (H1 x Hx) as [q [? ? ? ? ? ? ?]]. exists q. assert (ptr <> x) by (by intros <-).
    split; simpl; rewrite ?Ev, ?lookup_insert_ne by done; done.
  - destruct H3 as [Hd Hnd]. split; [|done]. eapply dlseg_frame; [exact Hd|]. intros j Hj. simpl.
    rewrite lookup_insert_ne; [done|]. by intros <-.
  - constructor.
  - by intros x y _ ?%elem_of_nil.
  - intros x y Hx Hy. rewrite !Had by done. by apply H9.
Qed.

Lemma listed_step vm start b0 n i s :
  listed vm start b0 n i s -> 0 <= i < n -> n < 2 ^ 49 -> 0 < start -> start mod PAGE_SIZE = 0 ->
  start + PAGE_SIZE * n + PAGE_SIZE <= 2 ^ 64 -> vm !! (start + PAGE_SIZE * i) = Some (PAGE_SIZE * i) ->
  wp (let iaddr := u64 (start + 0 + i * PAGE_SIZE) in
      let ioffset := u64 (0 + i * PAGE_SIZE) in
      let! ptr := nlm_page_alloc iaddr ioffset in __nlm_free_page ptr false)
    (fun _ s' => listed vm start b0 n (i + 1) s') s.
Proof.
  intros [Hw Hr Hvm Hb Hst Hsz Hpv Hpg] Hi Hn H0 Hal Htop Em. cbv zeta.
  assert (Ea : u64 (start + 0 + i * PAGE_SIZE) = start + PAGE_SIZE * i)
    by (unfold u64; rewrite wrap_id; unfold in_u, PAGE_SIZE in *; lia).
  assert (Eo : u64 (0 + i * PAGE_SIZE) = PAGE_SIZE * i) by (unfold u64; rewrite wrap_id; unfold in_u, PAGE_SIZE in *; lia).
  rewrite Ea, Eo. unfold nlm_page_alloc, nl_put_page, nl_on_links, nl, nl_set_pgcnt, set_nlm.
  do 2 mstep. apply wp_zoom. apply wp_ok with (p_brk (ns_proc s)) (set_brk (p_brk (ns_proc s) + 1) (ns_proc s)); [done|].
  rewrite Hb. msteps. apply wp_zoom. msteps. cbn [ns_pages ns_proc ns_links ns_nlm].
  set (ptr := b0 + i). set (p := NlmPage _ _ _ _ _). set (s1 := Nlst _ _ _ _).
  assert (Hnin : ptr ∉ seqZ b0 i) by (rewrite elem_of_seqZ; unfold ptr; lia).
  assert (Hw1 : nl_wf s1 (seqZ b0 i)) by (apply nl_wf_new; try done; unfold inuse; by rewrite Hr).
  assert (Hr1 : nl_root (ns_nlm s1) = Leaf) by done.
  unfold __nlm_free_page, nl_get_page. do 3 mstep. cbn [ns_pages s1]. rewrite lookup_insert_eq. cbn [from_opt]. msteps.
  cbn [when]. msteps. unfold nl. do 2 mstep. mstep. mstep. mstep. cbn beta.
  eapply (append_page_run s1 (seqZ b0 i) ptr s1 (ns_nlm s1) _ (fun head => _)); try done.
  { eexists. cbn [s1 ns_links]. apply lookup_insert_eq. }
  intros head L HdL HL. unfold nl_set_free_list, set_nlm. msteps. cbn [ns_pages ns_proc ns_links ns_nlm].
  assert (Hlen : zlen (seqZ b0 i ++ [ptr]) = i + 1).
  { unfold zlen. rewrite length_app, length_seqZ. simpl. lia. }
  assert (Esz : nl_fl_size (ns_nlm s1) = i) by (rewrite (nw_size _ _ Hw1); unfold zlen; rewrite length_seqZ; lia).
  assert (Hpl : forall x, x ∈ seqZ b0 i -> page_addr s1 x = start + PAGE_SIZE * (x - b0)).
  { intros x Hx. pose proof Hx as Hx'. apply elem_of_seqZ in Hx'. unfold page_addr. cbn [s1 ns_pages].
    rewrite lookup_insert_ne by (by intros <-). replace x with (b0 + (x - b0)) at 1 by lia. by rewrite Hpg by lia. }
  split; simpl; try done; [|unfold ptr; lia|].
  - rewrite seqZ_snoc by lia. change (b0 + i) with ptr.
    apply (list_page_wf s1 (seqZ b0 i) ptr p L head (nl_root (ns_nlm s))); rewrite ?Hr; try done; cbn [s1 ns_pages ns_proc ns_links].
    + apply lookup_insert_eq.
    + cbn [p np_addr np_pgoff set_brk p_vm]. by rewrite Hvm.
    + cbn [p np_addr]. split; [unfold in_u, PAGE_SIZE in *; lia|]. unfold PAGE_SIZE in *. rewrite Z.add_mod, (Z.mul_comm 4096 i), Z.mod_mul, Hal by lia. done.
    + cbn [p np_pgoff]. rewrite Z.mul_comm. by apply Z.mod_mul.
    + rewrite lookup_insert_eq. by eexists.
    + exists 0%nat. constructor.
    + constructor.
    + by intros x ?%elem_of_nil.
    + intros x Hx. rewrite Hpl by done. cbn [p np_addr]. apply elem_of_seqZ in Hx. unfold PAGE_SIZE. lia.
    + rewrite Hlen. change (nl_fl_size (ns_nlm s)) with (nl_fl_size (ns_nlm s1)). rewrite Esz. unfold u64. apply wrap_id. unfold in_u. lia.
  - intros j Hj. destruct (decide (j = i)) as [->|Hne]; [by rewrite lookup_insert_eq|].
    rewrite !lookup_insert_ne by (unfold ptr; lia). apply Hpg. lia.
Qed.

Lemma add_pages_run s vm start b0 n :
  listed vm start b0 n 0 s -> 0 <= n < 2 ^ 49 -> 0 < start -> start mod PAGE_SIZE = 0 ->
  start + PAGE_SIZE * n + PAGE_SIZE <= 2 ^ 64 ->
  (forall i, 0 <= i < n -> vm !! (start + PAGE_SIZE * i) = Some (PAGE_SIZE * i)) ->
  wp add_pages_to_free_list (fun _ s' => listed vm start b0 n n s') s.
Proof.
  intros Hl Hn H0 Hal Htop Hvm. unfold add_pages_to_free_list, nl. msteps.
  rewrite (li_size _ _ _ _ _ _ Hl), (li_prev _ _ _ _ _ _ Hl), (li_start _ _ _ _ _ _ Hl), Z.sub_0_r.
  assert (Ep : u64 (PAGE_SIZE * n) / PAGE_SIZE = n).
  { unfold u64. rewrite wrap_id by (unfold in_u, PAGE_SIZE in *; lia). by rewrite Z.mul_comm, Z.div_mul. }
  rewrite Ep. apply (wp_for (fun i s' => listed vm start b0 n i s')); rewrite ?Z.add_0_l, ?Z2Nat.id by lia; [done| |done].
  intros i s' Hi Hl'. apply listed_step; try done; [lia|]. by apply Hvm.
Qed.

Definition nl_fresh (s : nlst) : Prop := p_file (ns_proc s) = 0 /\ p_vm (ns_proc s) = ∅.

Lemma nl_init_run s e :
  nl_fresh s -> (match PMLIB_INIT_SIZE e with None => True | Some v => 0 <= v < 2 ^ 60 end) ->
  PAGE_SIZE * init_pages e <= p_space (ns_proc s) -> sorted_ranges (p_maps (ns_proc s)) ->
  let n := init_pages e in
  let start := map_hint (p_maps (ns_proc s)) (PAGE_SIZE * n) in
  start <> 0 -> start + PAGE_SIZE * n + PAGE_SIZE <= 2 ^ 64 ->
  wp (nlm_init e) (fun _ s' => exists vm, listed vm start (p_brk (ns_proc s)) n n s' /\
    nl_is_fully_mapped (ns_nlm s') = true) s.
Proof.
  intros [Hf Hvm] He Hsp Hsort n start Hne Htop. destruct (init_size_pages e He) as [Hsz Hn]. fold n in Hsz, Hn, Hsp.
  destruct (map_hint_least (p_maps (ns_proc s)) (PAGE_SIZE * n) Hsort) as [Hok _]; [unfold PAGE_SIZE; lia|].
  destruct (Hok Hne) as (Hge & Hal & _ & Hfree). fold start in Hge, Hal, Hfree.
  assert (HT : TERABYTE = 2 ^ 40) by reflexivity. assert (HG : GIGABYTE = PAGE_SIZE * 2 ^ 18) by reflexivity.
  assert (Hal' : start mod PAGE_SIZE = 0).
  { apply Z.mod_divide in Hal as [k Hk]; [|by rewrite HG]. apply Z.mod_divide; [by unfold PAGE_SIZE|].
    exists (k * 2 ^ 18). lia. }
  unfold nlm_init. mstep. apply wp_zoom, wp_gets. unfold set_nlm. do 2 mstep. rewrite Hf. cbn [Z.eqb when].
  rewrite Hsz. unfold nlm_grow_file, nl, stat. msteps; [done|]. apply wp_zoom. msteps. apply wp_zoom.
  cbn [ns_proc ns_nlm nl_file_size set_stats].
  eapply wp_ok.
  { unfold posix_fallocate. cbn [p_space set_stats].
    rewrite (proj2 (Z.leb_gt (PAGE_SIZE * n) 0)), (proj2 (Z.leb_gt (2 ^ 63) (PAGE_SIZE * n))) by (unfold PAGE_SIZE; lia).
    cbn [orb]. change (2 ^ 63 <=? 0) with false. cbv iota. rewrite (proj2 (Z.ltb_ge _ _)) by lia. reflexivity. }
  msteps. unfold nl_set_sizes, set_nlm. msteps. cbn [ns_proc ns_pages ns_links ns_nlm nl_start_addr nl_is_nonlinear nl_pgcnt nl_fl_size nl_fl_head nl_fl_last nl_root].
  unfold Func_map_file, map_appending, nl, nl_set_start, nl_set_sizes, set_nlm. msteps; [done|]. cbn [ns_nlm nl_start_addr nl_file_size nl_prev_file_size Z.eqb].
  msteps. apply wp_zoom, wp_gets. cbn [ns_proc]. change (p_maps _) with (p_maps (ns_proc s)). fold start. msteps.
  apply wp_zoom. assert (Eu : u64 (PAGE_SIZE * n - 0) = PAGE_SIZE * n).
  { rewrite Z.sub_0_r. unfold u64. apply wrap_id. unfold in_u, PAGE_SIZE. lia. }
  rewrite Eu. eapply wp_ok.
  { apply mmap_run; [lia|done|unfold PAGE_SIZE in *; lia|done|]. intros i Hi. cbn [ns_proc p_vm set_stats set_file].
    by rewrite Hvm, lookup_empty. }
  cbn [ns_proc ns_pages ns_links ns_nlm]. msteps; [by rewrite bool_decide_true|]. cbn [when]. msteps.
  cbn [ns_proc ns_pages ns_links ns_nlm nl_file_size nl_prev_file_size nl_is_nonlinear nl_is_fully_mapped nl_pgcnt nl_fl_size nl_fl_head nl_fl_last nl_root].
  set (vm := map_pages _ _ _ _). eapply wp_mono; [apply (add_pages_run _ vm start (p_brk (ns_proc s)) n)|].
  - split; try done; [|cbn [ns_proc set_vm set_prot set_file set_stats p_brk]; lia|intros j Hj; lia].
    rewrite seqZ_nil by lia. split; try done; try (by intros ? ?%elem_of_nil); try (by intros ? ? ?%elem_of_nil).
    + split; [done|constructor].
    + exists 0%nat. constructor.
    + constructor.
  - lia.
  - lia.
  - done.
  - done.
  - intros i Hi. unfold vm, map_pages. rewrite set_pages_in by lia. f_equal. lia.
  - intros [] s' [Hw Hr Hv Hb Hst Hs Hpv Hpg]. exists vm. split; [|done]. split; try done.
    destruct Hw as [H1 H2 H3 H4 H5 H6 H7 H8 H9]. split; try done.
    + intros x Hx. destruct (H1 x Hx) as [q []]. by exists q.
    + intros x Hx. destruct (H2 x Hx) as [q []]. by exists q.
Qed.

(** ** Properties *)

(** Two pages of a file, the first free and the second in use. *)
Definition two_pages : nlst :=
  Nlst (Proc [] (<[65536 := 0]> {[69632 := 4096]}) (<[65536 := 1]> {[69632 := 1]}) 8192 (2 ^ 40) 3 GLOBAL_STATS)
    (<[1 := NlmPage 0 65536 true false false]> {[2 := NlmPage 4096 69632 false true false]})
    (<[1 := (None, SHead)]> {[2 := (None, SHead)]})
    (Nlm 8192 0 65536 false true 2 1 (Some 1) (Some 1) (Node RB_BLACK Leaf 2 Leaf)).

Lemma two_pages_wf : nl_wf two_pages [1].
Proof.
  split; try done.
  - intros ptr ->%list_elem_of_singleton. exists (NlmPage 0 65536 true false false).
    split; try done; by eexists.
  - intros ptr ->%list_elem_of_singleton. exists (NlmPage 4096 69632 false true false).
    split; try done; by eexists.
  - split; [|repeat constructor; set_solver]. simpl. split; [done|]. by exists None.
  - exists 1%nat. repeat econstructor.
  - repeat constructor.
  - by intros x y ->%list_elem_of_singleton ->%list_elem_of_singleton.
  - by intros x y ->%list_elem_of_singleton ->%list_elem_of_singleton.
Qed.

(** Allocating with a free page moves the head of the free list into the
    tree and answers the address of that page together with the offset the
    page has in the file, which is where that address is mapped; no mapping
    changes. *)
Theorem nlm_alloc_page_correct s f fl p flags :
  nl_wf s (f :: fl) -> page_ok s true f p -> zlen fl < 2 ^ 63 ->
  wp (nlm_alloc_page flags) (nl_alloc_post s f fl p flags) s.
Proof. apply nl_alloc_run. Qed.

Lemma nlm_alloc_page_correct_witness :
  wp (nlm_alloc_page PA_PROT_WRITE)
    (nl_alloc_post two_pages 1 [] (NlmPage 0 65536 true false false) PA_PROT_WRITE) two_pages.
Proof.
  apply (nlm_alloc_page_correct two_pages 1 [] (NlmPage 0 65536 true false false) PA_PROT_WRITE).
  - apply two_pages_wf.
  - split; try done; by eexists.
  - reflexivity.
Defined.

Definition both_used : nlst :=
  Nlst (ns_proc two_pages)
    (<[1 := NlmPage 0 65536 false true false]> {[2 := NlmPage 4096 69632 false true false]})
    (ns_links two_pages)
    (Nlm 8192 0 65536 false true 2 0 None None (Node RB_BLACK Leaf 1 (Node RB_RED Leaf 2 Leaf))).

Lemma both_used_page ptr off addr :
  ns_pages both_used !! ptr = Some (NlmPage off addr false true false) ->
  p_vm (ns_proc both_used) !! addr = Some off -> is_Some (ns_links both_used !! ptr) ->
  in_u 64 addr /\ addr mod PAGE_SIZE = 0 -> off mod PAGE_SIZE = 0 ->
  page_ok both_used false ptr (NlmPage off addr false true false).
Proof. intros. split; done. Qed.

Lemma both_used_wf : nl_wf both_used [].
Proof.
  assert (H1 : page_ok both_used false 1 (NlmPage 0 65536 false true false))
    by (apply both_used_page; try done; by eexists).
  assert (H2 : page_ok both_used false 2 (NlmPage 4096 69632 false true false))
    by (apply both_used_page; try done; by eexists).
  split; try done.
  - by intros ptr ?%elem_of_nil.
  - intros ptr [->| ->%list_elem_of_singleton]%elem_of_cons; eexists; eassumption.
  - split; [done|constructor].
  - exists 1%nat. repeat econstructor.
  - repeat constructor.
  - by intros x y ?%elem_of_nil.
  - by intros x y ?%elem_of_nil.
Qed.

(** C32 Swapping two pages in use exchanges what their addresses are mapped
    to and the offsets their objects record, and nothing else (the flag of
    the mapper apart): every page object still says where its page is. *)
Theorem nlm_swap_pages_correct s fl x y px py :
  nl_wf s fl -> x ∈ inuse s -> y ∈ inuse s -> x <> y -> page_ok s false x px -> page_ok s false y py ->
  exists k, nlm_swap_pages (np_addr px) (np_pgoff py) (np_addr py) (np_pgoff px) s
      = Ok tt (after_swap s x y px py k) /\ nl_wf (after_swap s x y px py k) fl.
Proof. apply swap_run. Qed.

Lemma nlm_swap_pages_correct_witness :
  exists k, nlm_swap_pages 65536 4096 69632 0 both_used
      = Ok tt (after_swap both_used 1 2 (NlmPage 0 65536 false true false) (NlmPage 4096 69632 false true false) k) /\
    nl_wf (after_swap both_used 1 2 (NlmPage 0 65536 false true false) (NlmPage 4096 69632 false true false) k) [].
Proof.
  apply (nlm_swap_pages_correct both_used [] 1 2 (NlmPage 0 65536 false true false) (NlmPage 4096 69632 false true false)).
  - apply both_used_wf.
  - vm_compute. by left.
  - vm_compute. by right; left.
  - done.
  - apply both_used_page; try done; by eexists.
  - apply both_used_page; try done; by eexists.
Defined.

(** The run of C23: a second process opens the file of two pages and
    allocates. *)
Definition reopen : nlst :=
  Nlst (Proc [] ∅ ∅ 8192 (2 ^ 40) 1 GLOBAL_STATS) ∅ ∅ (Nlm 0 0 0 false false 0 0 None None Leaf).

(** A reopened file has all its pages on the free list: the first
    allocation after a restart hands out file offset 0, which holds the
    container. *)
Theorem nlm_reopened_reuses_page_zero :
  match (nlm_init no_env ;;; nlm_alloc_page PA_PROT_WRITE) reopen with
  | Ok r s => r.2 = CONTAINER_LIMA_ADDRESS /\ nl_fl_size (ns_nlm s) = 1
  | Fail _ _ => False
  end.
Proof. vm_compute. split; reflexivity. Qed.
