(* ===== verification/PageAlloc.v ===== *)
(** * The page-allocator interface: [src/page_alloc.c], [src/page_alloc.h]

    [page_allocator_ops] is the table of functions a page allocator gives;
    the two tables are those of the fixed and of the nonlinear mapper.
    [PageAllocator] is the class of allocator states: its table, and the
    process the state contains.  [PageAllocatorLaws] is what the slab layer
    relies on, stated with the set of the pages handed out ([pa_inv]); the
    instance for the fixed mapper follows from the theorems of
    [FixedMapper.v]; the one for the nonlinear mapper is in [NlLaws.v]. *)
From Stdlib Require Import ZArith Lia.
From stdpp Require Import base numbers gmap option list.
From S2P Require Import Prelude Macros Queue Process FixedMapper NlMapper.
Open Scope Z_scope.

Record page_allocator_ops (PS : Type) := PaOps {
  pa_init : env -> M PS unit;
  pa_shutdown : M PS Z;
  pa_alloc_page : Z -> M PS (Z * Z);
  pa_alloc_pages : Z -> Z -> M PS (Z * Z);
  pa_free_pages : Z -> M PS unit;
  pa_map_page : Z -> M PS Z;
  pa_swap_page_mapping : Z -> Z -> Z -> Z -> M PS unit;
  pa_protect_page : Z -> Z -> Z -> M PS unit;
}.
Arguments PaOps {PS}.
Arguments pa_init {PS}.
Arguments pa_shutdown {PS}.
Arguments pa_alloc_page {PS}.
Arguments pa_alloc_pages {PS}.
Arguments pa_free_pages {PS}.
Arguments pa_map_page {PS}.
Arguments pa_swap_page_mapping {PS}.
Arguments pa_protect_page {PS}.

Definition fixed_mapper_ops : page_allocator_ops fmst :=
  PaOps fixed_mapper_init fixed_mapper_close fixed_mapper_alloc_page fixed_mapper_alloc_pages
    fixed_mapper_freepages fixed_mapper_getaddress fixed_mapper_noswap
    (fun maddr size flags => on_proc (page_allocator_mprotect_generic maddr size flags)).

Definition nonlinear_mapper_ops : page_allocator_ops nlst :=
  PaOps nlm_init nlm_close nlm_alloc_page nlm_alloc_pages
    nlm_free_pages nlm_get_address nlm_swap_pages
    (fun maddr size flags => nl_on_proc (page_allocator_mprotect_generic maddr size flags)).

Class PageAllocator (PS : Type) := {
  pa_ops : page_allocator_ops PS;
  pa_proc : PS -> proc;
  pa_on_proc : forall A, M proc A -> M PS A;
}.
Arguments pa_on_proc {PS _ A}.

#[export] Instance fixed_mapper_allocator : PageAllocator fmst := {
  pa_ops := fixed_mapper_ops; pa_proc := fs_proc; pa_on_proc := @on_proc;
}.

#[export] Instance nonlinear_mapper_allocator : PageAllocator nlst := {
  pa_ops := nonlinear_mapper_ops; pa_proc := ns_proc; pa_on_proc := @nl_on_proc;
}.

(** [set_page_allocator_ops]: which of the two tables the environment selects,
    true for the nonlinear mapper. *)
Definition set_page_allocator_ops (e : env) : bool :=
  match PMLIB_USE_NLMAPPER e with Some v => v =? 1 | None => false end.

(** ** The functions of [page_alloc.c] *)
Section page_alloc.
Context {PS : Type} `{PA : PageAllocator PS}.

Definition page_allocator_init (e : env) : M PS unit := pa_init pa_ops e.

Definition page_allocator_getpage (flags : Z) : M PS (Z * Z) :=
  pa_on_proc (stat (__INC_BOTH alloc_cont_pg)) ;;; pa_alloc_page pa_ops flags.

Definition page_allocator_getpages (npages flags : Z) : M PS (Z * Z) := pa_alloc_pages pa_ops npages flags.

Definition page_allocator_freepages (maddr : Z) : M PS unit :=
  pa_on_proc (stat (__INC_BOTH free_cont_pg)) ;;; pa_free_pages pa_ops maddr.

Definition page_allocator_shutdown : M PS Z := pa_shutdown pa_ops.

Definition page_allocator_mappage (laddr : Z) : M PS Z := pa_map_page pa_ops laddr.

Definition page_allocator_swap_mappings (xaddr ypgoff yaddr xpgoff : Z) : M PS unit :=
  pa_swap_page_mapping pa_ops xaddr ypgoff yaddr xpgoff.

Definition page_allocator_mprotect (maddr size flags : Z) : M PS unit := pa_protect_page pa_ops maddr size flags.
End page_alloc.

(** ** What a client may rely on

    [pa_inv s U k]: the pages of [U] are handed out, and [k] more can be
    without growing the file. *)
Definition vm_of {PS} `{PageAllocator PS} (s : PS) : gmap Z Z := p_vm (pa_proc s).
Definition prot_of {PS} `{PageAllocator PS} (s : PS) : gmap Z Z := p_prot (pa_proc s).

(** The pages of [U] keep their mapping and their protection. *)
Definition keeps_pages {PS} `{PageAllocator PS} (U : gset Z) (s s' : PS) : Prop :=
  forall b, b ∈ U -> vm_of s' !! b = vm_of s !! b /\ prot_of s' !! b = prot_of s !! b.

Class PageAllocatorLaws (PS : Type) `{PageAllocator PS} := {
  pa_inv : PS -> gset Z -> nat -> Prop;
  pa_inv_page : forall s U k b, pa_inv s U k -> b ∈ U ->
    is_Some (vm_of s !! b) /\ b mod PAGE_SIZE = 0 /\ 0 < b /\ b + PAGE_SIZE + PAGE_SIZE <= 2 ^ 64;
  pa_inv_inj : forall s U k b c, pa_inv s U k -> b ∈ U -> c ∈ U -> vm_of s !! b = vm_of s !! c -> b = c;
  pa_getpage_ok : forall s U k flags, pa_inv s U (S k) ->
    wp (page_allocator_getpage flags) (fun r s' =>
      pa_inv s' ({[r.1]} ∪ U) k /\ r.1 ∉ U /\ vm_of s' !! r.1 = Some r.2 /\ keeps_pages U s s' /\
      (Z.land flags PA_PROT_WRITE <> 0 -> prot_of s' !! r.1 = Some flags)) s;
  pa_freepages_ok : forall s U k b, pa_inv s U k -> b ∈ U ->
    wp (page_allocator_freepages b) (fun _ s' => pa_inv s' (U ∖ {[b]}) (S k) /\ keeps_pages U s s') s;
  pa_mprotect_ok : forall s U k b flags, pa_inv s U k -> b ∈ U ->
    wp (page_allocator_mprotect b PAGE_SIZE flags) (fun _ s' => pa_inv s' U k /\
      vm_of s' = vm_of s /\ prot_of s' = <[b := flags]> (prot_of s)) s;
  pa_stat_ok : forall s U k f, pa_inv s U k ->
    wp (pa_on_proc (stat f)) (fun _ s' => pa_inv s' U k /\ vm_of s' = vm_of s /\ prot_of s' = prot_of s) s;
}.

(** [malloc] in the process of an allocator: a block never returned before,
    and nothing of the allocator moves; a page of the file is where it was. *)
Class AllocatorMalloc (PS : Type) `{PageAllocatorLaws PS} := {
  pa_malloc_ok : forall s, exists s', pa_on_proc malloc s = Ok (p_brk (pa_proc s)) s' /\
    pa_proc s' = set_brk (p_brk (pa_proc s) + 1) (pa_proc s) /\ (forall U k, pa_inv s U k -> pa_inv s' U k) /\
    (forall l x, page_allocator_mappage l s = Ok x s -> page_allocator_mappage l s' = Ok x s');
}.

(** ** The laws of the fixed mapper *)
Definition fm_inv (s : fmst) (U : gset Z) (k : nat) : Prop :=
  exists start n ps F, fm_wf s start n ps F /\ n < 2 ^ 51 /\
    start + PAGE_SIZE * n + PAGE_SIZE <= 2 ^ 64 /\ NoDup F /\ (k <= length F)%nat /\
    (forall f, f ∈ F -> 0 <= f < n) /\
    forall b, b ∈ U -> exists i, 0 <= i < n /\ i ∉ F /\ b = start + PAGE_SIZE * i.

Lemma range_length (F : list Z) n : NoDup F -> (forall f, f ∈ F -> 0 <= f < n) -> zlen F <= Z.max 0 n.
Proof.
  intros Hnd Hr. assert (Hs : F ⊆+ seqZ 0 n).
  { apply NoDup_submseteq; [done|]. intros f Hf. apply elem_of_seqZ. specialize (Hr f Hf). lia. }
  apply submseteq_length in Hs. rewrite length_seqZ in Hs. unfold zlen. lia.
Qed.

Lemma fm_wf_stat s start n ps F g :
  fm_wf s start n ps F ->
  fm_wf (Fmst (set_stats g (fs_proc s)) (fs_pages s) (fs_links s) (fs_fm s)) start n ps F.
Proof. intros [[? ? ? ? ?] [? ? ? ? ? ? ?] ?]. split; [by split|by split|done]. Qed.

Lemma fm_wf_prot s start n ps F pr :
  fm_wf s start n ps F ->
  fm_wf (Fmst (set_prot pr (fs_proc s)) (fs_pages s) (fs_links s) (fs_fm s)) start n ps F.
Proof. intros [[? ? ? ? ?] [? ? ? ? ? ? ?] ?]. split; [by split|by split|done]. Qed.

Lemma fm_inv_stat s U k f : fm_inv s U k ->
  fm_inv (Fmst (set_stats (f (p_stats (fs_proc s))) (fs_proc s)) (fs_pages s) (fs_links s) (fs_fm s)) U k.
Proof.
  intros (start & n & ps & F & Hwf & H). exists start, n, ps, F. split; [by apply fm_wf_stat|done].
Qed.

Lemma fm_inv_elem s start n ps F i :
  fm_wf s start n ps F -> 0 <= i < n -> start + PAGE_SIZE * n + PAGE_SIZE <= 2 ^ 64 ->
  p_vm (fs_proc s) !! (start + PAGE_SIZE * i) = Some (PAGE_SIZE * i) /\
  (start + PAGE_SIZE * i) mod PAGE_SIZE = 0 /\ 0 < start + PAGE_SIZE * i /\
  start + PAGE_SIZE * i + PAGE_SIZE + PAGE_SIZE <= 2 ^ 64.
Proof.
  intros [_ Hm _] Hi Htop. destruct (mp_range _ _ _ Hm). split_and!.
  - by apply (mp_vm _ _ _ Hm).
  - apply page_addr_aligned, Hm.
  - unfold PAGE_SIZE in *. lia.
  - unfold PAGE_SIZE in *. nia.
Qed.

Lemma fm_getpage s U k flags : fm_inv s U (S k) ->
  wp (page_allocator_getpage flags) (fun r s' =>
    fm_inv s' ({[r.1]} ∪ U) k /\ r.1 ∉ U /\ vm_of s' !! r.1 = Some r.2 /\ keeps_pages U s s' /\
    (Z.land flags PA_PROT_WRITE <> 0 -> prot_of s' !! r.1 = Some flags)) s.
Proof.
  intros (start & n & ps & F & Hwf & Hn & Htop & Hnd & Hk & HF & HU). unfold page_allocator_getpage.
  mstep. simpl pa_on_proc. unfold stat. apply wp_zoom, wp_modify.
  destruct F as [|f F]; [simpl in Hk; lia|]. apply NoDup_cons in Hnd as [Hf Hnd].
  pose proof (fm_wf_stat _ _ _ _ _ (__INC_BOTH alloc_cont_pg (p_stats (fs_proc s))) Hwf) as Hwf1.
  set (s1 := Fmst _ _ _ _) in *.
  assert (HFr : forall g, g ∈ F -> 0 <= g < n) by (intros g Hg; apply HF; set_solver).
  pose proof (range_length F n Hnd HFr) as HFlen.
  assert (Hfn : 0 <= f < n) by (apply HF; set_solver).
  eapply wp_mono; [apply (alloc_page_run s1 start n ps f F flags Hwf1 Hn); lia|].
  intros r s' (-> & Hwf' & (Hvm & _) & Hpr & _). simpl fst. simpl snd.
  assert (Hnew : start + PAGE_SIZE * f ∉ U).
  { intros Hb. destruct (HU _ Hb) as (i & Hi & HiF & E).
    assert (i = f) as -> by (unfold PAGE_SIZE in E; lia). set_solver. }
  split_and!.
  - exists start, n, ps, F. simpl in Hk. split_and!; [done|done|done|done|lia|done|].
    intros b [->%elem_of_singleton|Hb]%elem_of_union; [by exists f|].
    destruct (HU _ Hb) as (i & Hi & HiF & E). exists i. set_solver.
  - done.
  - unfold vm_of. simpl. rewrite Hvm. by apply (fm_inv_elem _ _ _ _ _ _ Hwf1).
  - intros b Hb. unfold vm_of, prot_of. simpl. rewrite Hvm, Hpr. split; [done|].
    unfold alloc_prot. destruct (_ =? 0); [done|]. rewrite lookup_insert_ne; [done|]. by intros <-.
  - intros Hw. unfold prot_of. simpl. rewrite Hpr. unfold alloc_prot.
    destruct (Z.eqb_spec (Z.land flags PA_PROT_WRITE) 0); [done|]. by rewrite lookup_insert_eq.
Qed.

Lemma fm_freepages s U k b : fm_inv s U k -> b ∈ U ->
  wp (page_allocator_freepages b) (fun _ s' => fm_inv s' (U ∖ {[b]}) (S k) /\ keeps_pages U s s') s.
Proof.
  intros (start & n & ps & F & Hwf & Hn & Htop & Hnd & Hk & HF & HU) Hb. unfold page_allocator_freepages.
  mstep. simpl pa_on_proc. unfold stat. apply wp_zoom, wp_modify.
  pose proof (fm_wf_stat _ _ _ _ _ (__INC_BOTH free_cont_pg (p_stats (fs_proc s))) Hwf) as Hwf1.
  set (s1 := Fmst _ _ _ _) in *. destruct (HU _ Hb) as (i & Hi & HiF & ->).
  pose proof (range_length F n Hnd HF) as HFlen.
  eapply wp_mono; [apply (freepages_run s1 start n ps F i Hwf1 Hi HiF Hn); lia|].
  intros [] s' (Hwf' & Hvm & Hpr & _). split.
  - exists start, n, ps, (F ++ [i]). split_and!; [done|done|done| | | |].
    + apply NoDup_app. split_and!; [done|set_solver|apply NoDup_singleton].
    + rewrite length_app. simpl. lia.
    + intros f [Hf| ->%list_elem_of_singleton]%elem_of_app; [by apply HF|done].
    + intros c [Hc Hne]%elem_of_difference. destruct (HU _ Hc) as (j & Hj & HjF & ->). exists j.
      split_and!; [lia|lia| |done]. apply not_elem_of_app. split; [done|]. intros ->%list_elem_of_singleton. set_solver.
  - intros c Hc. unfold vm_of, prot_of. simpl. by rewrite Hvm, Hpr.
Qed.

#[export, refine] Instance fixed_mapper_laws : PageAllocatorLaws fmst := { pa_inv := fm_inv }.
Proof.
  - intros s U k b (start & n & ps & F & Hwf & _ & Htop & _ & _ & _ & HU) Hb. destruct (HU _ Hb) as (i & Hi & _ & ->).
    destruct (fm_inv_elem _ _ _ _ _ _ Hwf Hi Htop) as (E & ? & ? & ?). split_and!; [by eexists|done|done|done].
  - intros s U k b c (start & n & ps & F & Hwf & _ & Htop & _ & _ & _ & HU) Hb Hc E.
    destruct (HU _ Hb) as (i & Hi & _ & ->), (HU _ Hc) as (j & Hj & _ & ->). unfold vm_of in E. simpl in E.
    destruct (fm_inv_elem _ _ _ _ _ _ Hwf Hi Htop) as (E1 & _), (fm_inv_elem _ _ _ _ _ _ Hwf Hj Htop) as (E2 & _).
    rewrite E1, E2 in E. injection E. unfold PAGE_SIZE. lia.
  - exact fm_getpage.
  - exact fm_freepages.
  - intros s U k b flags (start & n & ps & F & Hwf & H) Hb. pose proof H as (_ & Htop & _ & _ & _ & HU).
    destruct (HU _ Hb) as (i & Hi & _ & ->). destruct (fm_inv_elem _ _ _ _ _ _ Hwf Hi Htop) as (E & Ha & _ & _).
    unfold page_allocator_mprotect. simpl. apply wp_zoom, wp_mprotect_page; [done|by eexists|].
    split_and!; [|done|done]. exists start, n, ps, F. split; [|done].
    by apply (fm_wf_prot (Fmst (set_stats _ (fs_proc s)) (fs_pages s) (fs_links s) (fs_fm s))), fm_wf_stat.
  - intros s U k f H. simpl. unfold stat. apply wp_zoom, wp_modify. split_and!; [|done|done].
    by apply fm_inv_stat.
Defined.

Lemma fm_wf_brk s start n ps F :
  fm_wf s start n ps F ->
  fm_wf (Fmst (set_brk (p_brk (fs_proc s) + 1) (fs_proc s)) (fs_pages s) (fs_links s) (fs_fm s)) start n ps F.
Proof.
  intros [[? ? ? Hfr ?] [? ? ? ? ? ? ?] ?]. split; [split; try done|by split|done].
  intros ptr Hp. pose proof (Hfr ptr Hp). simpl. lia.
Qed.

#[export] Instance fixed_mapper_malloc : AllocatorMalloc fmst.
Proof.
  split. intros s. eexists. split_and!; [done|done| |].
  - intros U k (start & n & ps & F & Hwf & H). exists start, n, ps, F. split; [by apply fm_wf_brk|done].
  - intros l x [= E]. by rewrite <- E.
Qed.
