(* ===== verification/NlLaws.v ===== *)
(** * The nonlinear mapper as a page allocator

    The second instance of [PageAllocatorLaws]: what the slab layer relies on
    holds for [src/nlmapper.c] as it does for [src/fixmapper.c], so the
    theorems about copy on write and checkpoint hold for both.  [nl_inv] is
    the set view: the pages of [U] are in the tree of used pages, at least [k]
    are on the free list, and no two pages have the same place in the file. *)
From Stdlib Require Import ZArith Lia.
From stdpp Require Import base numbers gmap option list.
From S2P Require Import Prelude Macros Queue Process RBTree FixedMapper NlMapper PageAlloc.
Open Scope Z_scope.

(** A page object of the mapper, free or in use. *)
Definition known (s : nlst) (fl : list Z) (ptr : Z) : Prop := ptr ∈ fl \/ ptr ∈ inuse s.

Record nl_places (s : nlst) (fl : list Z) : Prop := {
  np_bounds : forall x, known s fl x -> 0 < page_addr s x /\ page_addr s x + PAGE_SIZE + PAGE_SIZE <= 2 ^ 64;
  np_distinct : forall x y px py, known s fl x -> known s fl y -> ns_pages s !! x = Some px -> ns_pages s !! y = Some py ->
    np_pgoff px = np_pgoff py -> x = y;
}.

Definition nl_inv (s : nlst) (U : gset Z) (k : nat) : Prop := exists fl,
  nl_wf s fl /\ nl_places s fl /\ (k <= length fl)%nat /\
  forall b, b ∈ U -> exists ptr, ptr ∈ inuse s /\ page_addr s ptr = b.

Lemma known_page s fl x : nl_wf s fl -> known s fl x -> exists b p, page_ok s b x p.
Proof.
  intros Hw [Hx|Hx]; [destruct (nw_free _ _ Hw x Hx) as [p Hp]|destruct (nw_use _ _ Hw x Hx) as [p Hp]]; by do 2 eexists.
Qed.

(** The free list is no longer than the address space. *)
Lemma free_length s fl : nl_wf s fl -> zlen fl <= 2 ^ 52.
Proof.
  intros Hw. pose proof (nw_list _ _ Hw) as [_ Hnd].
  pose (g := fun x => page_addr s x / PAGE_SIZE).
  assert (Hal : forall x, x ∈ fl -> 0 <= page_addr s x < 2 ^ 64 /\ page_addr s x mod PAGE_SIZE = 0).
  { intros x Hx. destruct (nw_free _ _ Hw x Hx) as [p Hp]. rewrite (page_addr_ok _ _ _ _ Hp). apply Hp. }
  assert (Hl : zlen (g <$> fl) <= Z.max 0 (2 ^ 52)).
  { apply range_length.
    - apply NoDup_fmap_2_strong; [|done]. intros x y Hx Hy E. apply (nw_inj_free _ _ Hw); [done|done|].
      destruct (Hal x Hx) as [_ Ax], (Hal y Hy) as [_ Ay]. unfold g in E.
      rewrite (Z.div_mod (page_addr s x) PAGE_SIZE), (Z.div_mod (page_addr s y) PAGE_SIZE), Ax, Ay, E by done. done.
    - intros f (x & -> & Hx)%list_elem_of_fmap. destruct (Hal x Hx) as [[? ?] _]. unfold g. split.
      + apply Z.div_pos; [lia|done].
      + apply Z.div_lt_upper_bound; [done|]. unfold PAGE_SIZE. lia. }
  unfold zlen in *. rewrite length_fmap in Hl. lia.
Qed.

(** Changes of the process that keep the mapping. *)
Definition with_proc (s : nlst) (p : proc) : nlst := Nlst p (ns_pages s) (ns_links s) (ns_nlm s).

Lemma nl_wf_proc s p fl : nl_wf s fl -> p_vm p = p_vm (ns_proc s) -> nl_wf (with_proc s p) fl.
Proof.
  intros [H1 H2 H3 H4 H5 H6 H7 H8 H9] Ev. split; try done.
  - intros x Hx. destruct (H1 x Hx) as [q []]. exists q. split; simpl; rewrite ?Ev; done.
  - intros x Hx. destruct (H2 x Hx) as [q []]. exists q. split; simpl; rewrite ?Ev; done.
Qed.

Lemma nl_inv_proc s p U k : nl_inv s U k -> p_vm p = p_vm (ns_proc s) -> nl_inv (with_proc s p) U k.
Proof. intros (fl & Hw & [Hb Hd] & Hk & HU) Ev. exists fl. split_and!; [by apply nl_wf_proc|by split|done|done]. Qed.

(** The same page objects, partitioned in another way. *)
Lemma nl_places_same s s' fl fl' :
  nl_places s fl -> (forall x, known s' fl' x -> known s fl x) ->
  (forall x p', ns_pages s' !! x = Some p' -> exists p, ns_pages s !! x = Some p /\ np_pgoff p = np_pgoff p' /\ np_addr p = np_addr p') ->
  (forall x, known s' fl' x -> is_Some (ns_pages s' !! x)) ->
  nl_places s' fl'.
Proof.
  intros [Hb Hd] Hk Hp Hs. split.
  - intros x Hx. destruct (Hs x Hx) as [p' E']. destruct (Hp x p' E') as (p & E & _ & Ea).
    specialize (Hb x (Hk x Hx)). unfold page_addr in *. rewrite E in Hb. rewrite E'. by rewrite <- Ea.
  - intros x y px' py' Hx Hy Ex Ey E. destruct (Hp x px' Ex) as (px & Ex' & Eo & _), (Hp y py' Ey) as (py & Ey' & Eo' & _).
    apply (Hd x y px py); [by apply Hk|by apply Hk|done|done|congruence].
Qed.

Lemma known_some s fl x : nl_wf s fl -> known s fl x -> is_Some (ns_pages s !! x).
Proof. intros Hw Hx. destruct (known_page s fl x Hw Hx) as (b & p & Hp). eexists. apply Hp. Qed.

Lemma put_places s x p p' : ns_pages s !! x = Some p -> np_pgoff p' = np_pgoff p -> np_addr p' = np_addr p ->
  forall y q, <[x := p']> (ns_pages s) !! y = Some q ->
    exists r, ns_pages s !! y = Some r /\ np_pgoff r = np_pgoff q /\ np_addr r = np_addr q.
Proof.
  intros E Eo Ea y q [[<- <-]|[_ Ey]]%lookup_insert_Some; [by exists p|by exists q].
Qed.

(** ** The laws *)
Lemma nl_getpage s U k flags : nl_inv s U (S k) ->
  wp (page_allocator_getpage flags) (fun r s' =>
    nl_inv s' ({[r.1]} ∪ U) k /\ r.1 ∉ U /\ vm_of s' !! r.1 = Some r.2 /\ keeps_pages U s s' /\
    (Z.land flags PA_PROT_WRITE <> 0 -> prot_of s' !! r.1 = Some flags)) s.
Proof.
  intros Hi. unfold page_allocator_getpage. mstep. simpl pa_on_proc. unfold stat. apply wp_zoom, wp_modify.
  set (p1 := set_stats _ _). apply (nl_inv_proc s p1) in Hi; [|done].
  destruct Hi as (fl & Hw & Hpl & Hk & HU). destruct fl as [|f fl]; [simpl in Hk; lia|].
  destruct (nw_free _ _ Hw f) as [p Hp]; [by left|]. pose proof (free_length _ _ Hw) as Hlen.
  change (Nlst p1 (ns_pages s) (ns_links s) (ns_nlm s)) with (with_proc s p1).
  eapply wp_mono; [apply (nl_alloc_run _ f fl p flags Hw Hp); unfold zlen in *; simpl in *; lia|].
  intros r s' (-> & Hw' & Hin & Epg & Evm & Epr). cbn [fst snd].
  assert (Hnew : np_addr p ∉ U).
  { intros Hb. destruct (HU _ Hb) as (x & Hx & Ex). destruct (nw_inj _ _ Hw f x); [by left|done|].
    by rewrite (page_addr_ok _ _ _ _ Hp), Ex. }
  assert (Hput : forall y q, ns_pages s' !! y = Some q -> exists r, ns_pages (with_proc s p1) !! y = Some r /\
      np_pgoff r = np_pgoff q /\ np_addr r = np_addr q).
  { rewrite Epg. by eapply put_places; [apply Hp|..]. }
  assert (Had : forall x, known s' fl x -> page_addr s' x = page_addr (with_proc s p1) x).
  { intros x Hx. destruct (known_some _ _ _ Hw' Hx) as [q Eq]. destruct (Hput x q Eq) as (q0 & E0 & _ & Ea).
    unfold page_addr. by rewrite Eq, E0, Ea. }
  split_and!.
  - exists fl. split_and!; [done| |simpl in Hk; lia|].
    + eapply nl_places_same; [exact Hpl| |exact Hput|by intros x; apply known_some].
      intros x [Hx|Hx]; [left; by right|]. apply Hin in Hx as [->|Hx]; [left; by left|by right].
    + intros b [->%elem_of_singleton|Hb]%elem_of_union.
      * exists f. assert (Hf : f ∈ inuse s') by (apply Hin; by left). split; [done|].
        rewrite Had by (by right). by apply (page_addr_ok _ _ _ _ Hp).
      * destruct (HU _ Hb) as (x & Hx & Ex). exists x. assert (Hx' : x ∈ inuse s') by (apply Hin; by right).
        split; [done|]. rewrite Had by (by right). done.
  - done.
  - unfold vm_of. simpl. rewrite Evm. apply (po_vm _ _ _ _ Hp).
  - intros b Hb. unfold vm_of, prot_of. simpl. rewrite Evm, Epr. split; [done|].
    unfold alloc_prot. destruct (_ =? 0); [done|]. rewrite lookup_insert_ne; [done|]. by intros <-.
  - intros Hf. unfold prot_of. simpl. rewrite Epr. unfold alloc_prot.
    destruct (Z.eqb_spec (Z.land flags PA_PROT_WRITE) 0); [done|]. by rewrite lookup_insert_eq.
Qed.

Lemma nl_freepages s U k b : nl_inv s U k -> b ∈ U ->
  wp (page_allocator_freepages b) (fun _ s' => nl_inv s' (U ∖ {[b]}) (S k) /\ keeps_pages U s s') s.
Proof.
  intros Hi Hb. unfold page_allocator_freepages. mstep. simpl pa_on_proc. unfold stat. apply wp_zoom, wp_modify.
  set (p1 := set_stats _ _). apply (nl_inv_proc s p1) in Hi; [|done].
  destruct Hi as (fl & Hw & Hpl & Hk & HU). destruct (HU _ Hb) as (ptr & Hin & Ead).
  destruct (nw_use _ _ Hw ptr Hin) as [p Hp]. pose proof (free_length _ _ Hw) as Hlen.
  change (Nlst p1 (ns_pages s) (ns_links s) (ns_nlm s)) with (with_proc s p1).
  rewrite (page_addr_ok _ _ _ _ Hp) in Ead. subst b.
  eapply wp_mono; [apply (nl_free_run _ fl ptr p Hw Hin Hp); lia|]. intros [] s' (Hw' & Epr & Hin' & Epg).
  assert (Hput : forall y q, ns_pages s' !! y = Some q -> exists r, ns_pages (with_proc s p1) !! y = Some r /\
      np_pgoff r = np_pgoff q /\ np_addr r = np_addr q).
  { rewrite Epg. by eapply put_places; [apply Hp|..]. }
  split.
  - exists (fl ++ [ptr]). split_and!; [done| |rewrite length_app; simpl; lia|].
    + eapply nl_places_same; [exact Hpl| |exact Hput|by intros x; apply known_some].
      intros x [[Hx|Hx]%elem_of_app|Hx]; [by left| |right; by apply Hin'].
      apply list_elem_of_singleton in Hx as ->. by right.
    + intros c [Hc Hne]%elem_of_difference. destruct (HU _ Hc) as (x & Hx & Ex). exists x.
      assert (Hxp : x <> ptr).
      { intros ->. apply Hne, elem_of_singleton. by rewrite <- Ex, (page_addr_ok _ _ _ _ Hp). }
      split; [by apply Hin'|]. unfold page_addr in *. rewrite Epg. by rewrite lookup_insert_ne.
  - intros c Hc. unfold vm_of, prot_of. simpl. by rewrite Epr.
Qed.

#[export, refine] Instance nonlinear_mapper_laws : PageAllocatorLaws nlst := { pa_inv := nl_inv }.
Proof.
  - intros s U k b (fl & Hw & [Hbd _] & _ & HU) Hb. destruct (HU _ Hb) as (x & Hx & <-).
    destruct (nw_use _ _ Hw x Hx) as [p Hp]. specialize (Hbd x (or_intror Hx)). rewrite (page_addr_ok _ _ _ _ Hp) in *.
    split_and!; [eexists; apply (po_vm _ _ _ _ Hp)|apply Hp|apply Hbd|apply Hbd].
  - intros s U k b c (fl & Hw & [_ Hd] & _ & HU) Hb Hc E. destruct (HU _ Hb) as (x & Hx & <-), (HU _ Hc) as (y & Hy & <-).
    destruct (nw_use _ _ Hw x Hx) as [p Hp], (nw_use _ _ Hw y Hy) as [q Hq].
    rewrite (page_addr_ok _ _ _ _ Hp), (page_addr_ok _ _ _ _ Hq) in *. unfold vm_of in E. simpl in E.
    rewrite (po_vm _ _ _ _ Hp), (po_vm _ _ _ _ Hq) in E. injection E as E.
    assert (x = y) as -> by (apply (Hd x y p q); [by right|by right|apply Hp|apply Hq|done]).
    pose proof (po_page _ _ _ _ Hp). pose proof (po_page _ _ _ _ Hq). congruence.
  - exact nl_getpage.
  - exact nl_freepages.
  - intros s U k b flags Hi Hb. pose proof Hi as (fl & Hw & _ & _ & HU). destruct (HU _ Hb) as (x & Hx & <-).
    destruct (nw_use _ _ Hw x Hx) as [p Hp]. rewrite (page_addr_ok _ _ _ _ Hp).
    unfold page_allocator_mprotect. simpl. apply wp_zoom, wp_mprotect_page; [apply Hp|eexists; apply (po_vm _ _ _ _ Hp)|].
    split_and!; [|done|done]. by apply (nl_inv_proc s).
  - intros s U k f H. simpl. unfold stat. apply wp_zoom, wp_modify. split_and!; [|done|done]. by apply (nl_inv_proc s).
Defined.

(** ** Swapping *)
Lemma nl_swap s U k b c lb lc : nl_inv s U k -> b ∈ U -> c ∈ U -> b <> c ->
  vm_of s !! b = Some lb -> vm_of s !! c = Some lc ->
  wp (page_allocator_swap_mappings b lc c lb) (fun _ s' => nl_inv s' U k /\
    vm_of s' = <[c := lb]> (<[b := lc]> (vm_of s)) /\ prot_of s' = prot_of s) s.
Proof.
  intros (fl & Hw & [Hbd Hdi] & Hk & HU) Hb Hc Hne Eb Ec.
  destruct (HU _ Hb) as (x & Hx & <-), (HU _ Hc) as (y & Hy & <-).
  destruct (nw_use _ _ Hw x Hx) as [px Hpx], (nw_use _ _ Hw y Hy) as [py Hpy].
  rewrite (page_addr_ok _ _ _ _ Hpx), (page_addr_ok _ _ _ _ Hpy) in *.
  assert (Hxy : x <> y) by (intros ->; pose proof (po_page _ _ _ _ Hpx); pose proof (po_page _ _ _ _ Hpy); congruence).
  unfold vm_of in Eb, Ec. simpl in Eb, Ec. rewrite (po_vm _ _ _ _ Hpx) in Eb. rewrite (po_vm _ _ _ _ Hpy) in Ec.
  injection Eb as <-. injection Ec as <-. unfold page_allocator_swap_mappings. simpl pa_ops. cbn [pa_swap_page_mapping nonlinear_mapper_ops].
  destruct (swap_run s fl x y px py Hw Hx Hy Hxy Hpx Hpy) as (f & Es & Hw'). eapply wp_ok; [exact Es|].
  split_and!; [|done|done]. exists fl. split_and!; [done| |done|].
  - assert (Had : forall z, page_addr (after_swap s x y px py f) z = page_addr s z) by (intros z; by apply after_swap_addr).
    split; [intros z Hz; rewrite Had; by apply Hbd|].
    pose proof (po_page _ _ _ _ Hpx) as Epx. pose proof (po_page _ _ _ _ Hpy) as Epy.
    assert (Hoff : forall z q, ns_pages (after_swap s x y px py f) !! z = Some q -> exists r, ns_pages s !! (if decide (z = x) then y else if decide (z = y) then x else z) = Some r /\ np_pgoff r = np_pgoff q).
    { intros z q Eq. simpl in Eq. destruct (decide (z = y)) as [->|Hzy].
      - rewrite lookup_insert_eq in Eq. injection Eq as <-. rewrite decide_False by done. by exists px.
      - rewrite lookup_insert_ne in Eq by done. destruct (decide (z = x)) as [->|Hzx].
        + rewrite lookup_insert_eq in Eq. injection Eq as <-. by exists py.
        + rewrite lookup_insert_ne in Eq by done. by exists q. }
    intros z1 z2 q1 q2 H1 H2 E1 E2 E. destruct (Hoff z1 q1 E1) as (r1 & F1 & G1), (Hoff z2 q2 E2) as (r2 & F2 & G2).
    assert (Hkn : forall z, known s fl z -> known s fl (if decide (z = x) then y else if decide (z = y) then x else z)).
    { intros z Hz. destruct (decide (z = x)); [by right|]. by destruct (decide (z = y)); [right|]. }
    pose proof (Hdi _ _ _ _ (Hkn z1 H1) (Hkn z2 H2) F1 F2 ltac:(congruence)) as Ez.
    repeat case_decide; congruence.
  - intros a Ha. destruct (HU _ Ha) as (z & Hz & <-). exists z. split; [done|]. by apply after_swap_addr.
Qed.

#[export] Instance nonlinear_mapper_malloc : AllocatorMalloc nlst.
Proof.
  split. intros s. eexists. split_and!; [done|done| |].
  - intros U k H. by apply (nl_inv_proc s).
  - intros l x [= E]. by rewrite <- E.
Qed.

(** ** The start: a new file *)
Lemma nl_init_inv s e :
  nl_fresh s -> (match PMLIB_INIT_SIZE e with None => True | Some v => 0 <= v < 2 ^ 60 end) ->
  PAGE_SIZE * init_pages e <= p_space (ns_proc s) -> sorted_ranges (p_maps (ns_proc s)) ->
  let start := map_hint (p_maps (ns_proc s)) (PAGE_SIZE * init_pages e) in
  start <> 0 -> start + PAGE_SIZE * init_pages e + PAGE_SIZE <= 2 ^ 64 -> 0 < start ->
  wp (page_allocator_init e) (fun _ s' => nl_inv s' ∅ (Z.to_nat (init_pages e))) s.
Proof.
  intros Hf He Hsp Hso start Hne Htop Hpos. destruct (init_size_pages e He) as [_ Hn].
  eapply wp_mono; [by apply nl_init_run|]. intros [] s' (vm & [Hw Hr Hv Hb Hst Hs Hpv Hpg] & _). fold start in Hpg.
  exists (seqZ (p_brk (ns_proc s)) (init_pages e)).
  assert (Hin : forall x, known s' (seqZ (p_brk (ns_proc s)) (init_pages e)) x -> exists j, 0 <= j < init_pages e /\ x = p_brk (ns_proc s) + j).
  { intros x [Hx|Hx]; [|unfold inuse in Hx; rewrite Hr in Hx; by apply elem_of_nil in Hx].
    apply elem_of_seqZ in Hx. exists (x - p_brk (ns_proc s)). lia. }
  split_and!; [done| |rewrite length_seqZ; lia|by intros b ?%elem_of_empty].
  split.
  - intros x Hx. destruct (Hin x Hx) as (j & Hj & ->). unfold page_addr. rewrite (Hpg j Hj). cbn [np_addr].
    unfold PAGE_SIZE in *. lia.
  - intros x y px py Hx Hy Ex Ey E. destruct (Hin x Hx) as (i & Hi & ->), (Hin y Hy) as (j & Hj & ->).
    rewrite (Hpg i Hi) in Ex. rewrite (Hpg j Hj) in Ey. injection Ex as <-. injection Ey as <-.
    cbn [np_pgoff] in E. unfold PAGE_SIZE in E. lia.
Qed.

(** ** Properties *)

(** C33 The nonlinear mapper implements the page allocator interface: on a new
    file it starts with no page handed out and all of them free; each call,
    from any state it can be in, does what the set view says.  A new page is
    none of those handed out and its address shows the place that is
    returned, freed pages can be handed out again, protection and swapping
    change what they name, and the pages in use keep their mapping and their
    protection. *)
Theorem nonlinear_mapper_refines_interface :
  (forall s e, nl_fresh s -> (match PMLIB_INIT_SIZE e with None => True | Some v => 0 <= v < 2 ^ 60 end) ->
     PAGE_SIZE * init_pages e <= p_space (ns_proc s) -> sorted_ranges (p_maps (ns_proc s)) ->
     let start := map_hint (p_maps (ns_proc s)) (PAGE_SIZE * init_pages e) in
     start <> 0 -> start + PAGE_SIZE * init_pages e + PAGE_SIZE <= 2 ^ 64 -> 0 < start ->
     wp (page_allocator_init e) (fun _ s' => nl_inv s' ∅ (Z.to_nat (init_pages e))) s) /\
  (forall s U k flags, nl_inv s U (S k) ->
     wp (page_allocator_getpage flags) (fun r s' => nl_inv s' ({[r.1]} ∪ U) k /\ r.1 ∉ U /\ vm_of s' !! r.1 = Some r.2 /\
       keeps_pages U s s' /\ (Z.land flags PA_PROT_WRITE <> 0 -> prot_of s' !! r.1 = Some flags)) s) /\
  (forall s U k b, nl_inv s U k -> b ∈ U ->
     wp (page_allocator_freepages b) (fun _ s' => nl_inv s' (U ∖ {[b]}) (S k) /\ keeps_pages U s s') s) /\
  (forall s U k b flags, nl_inv s U k -> b ∈ U ->
     wp (page_allocator_mprotect b PAGE_SIZE flags) (fun _ s' => nl_inv s' U k /\
       vm_of s' = vm_of s /\ prot_of s' = <[b := flags]> (prot_of s)) s) /\
  (forall s U k b c lb lc, nl_inv s U k -> b ∈ U -> c ∈ U -> b <> c -> vm_of s !! b = Some lb -> vm_of s !! c = Some lc ->
     wp (page_allocator_swap_mappings b lc c lb) (fun _ s' => nl_inv s' U k /\
       vm_of s' = <[c := lb]> (<[b := lc]> (vm_of s)) /\ prot_of s' = prot_of s) s).
Proof. split_and!; [exact nl_init_inv|exact nl_getpage|exact nl_freepages|exact pa_mprotect_ok|exact nl_swap]. Qed.

Definition nl_blank (space : Z) : nlst :=
  Nlst (Proc [] ∅ ∅ 0 space 1 GLOBAL_STATS) ∅ ∅ (Nlm 0 0 0 false false 0 0 None None Leaf).

Lemma nonlinear_mapper_refines_interface_witness : exists s, nl_inv s ∅ 2 /\
  wp (page_allocator_getpage PA_PROT_WRITE) (fun r s' => nl_inv s' {[r.1]} 1 /\ vm_of s' !! r.1 = Some r.2) s.
Proof.
  destruct nonlinear_mapper_refines_interface as (Hi & Hg & _).
  assert (H : wp (page_allocator_init no_env) (fun _ s' => nl_inv s' ∅ 2) (nl_blank (2 ^ 40))).
  { apply (Hi (nl_blank (2 ^ 40)) no_env); [done|exact I|vm_compute; discriminate|apply sorted_ranges_nil|
      vm_compute; discriminate|vm_compute; discriminate|reflexivity]. }
  destruct (proj1 (wp_run _ _ _) H) as ([] & s & _ & Hs). exists s. split; [exact Hs|].
  eapply wp_mono; [apply (Hg s ∅ 1%nat PA_PROT_WRITE Hs)|]. intros r s' (H1 & _ & H3 & _).
  rewrite union_empty_r_L in H1. split; [exact H1|exact H3].
Defined.
