(* ===== verification/Brk.v ===== *)
(** * The break never moves back

    [malloc] hands out addresses in order ([Process.malloc]).  The two page
    allocators only call it, so an address handed out before stays below the
    next one.  The slab relies on it for its size classes, which it allocates
    with [malloc]: a new one is not at the address of another. *)
From Stdlib Require Import ZArith Lia.
From stdpp Require Import base numbers gmap option list.
From S2P Require Import Prelude Macros Queue Process RBTree FixedMapper NlMapper PageAlloc NlLaws.
Open Scope Z_scope.

(** The states of a process ordered by their break. *)
Definition brk_le {S} (p_of : S -> proc) (s s' : S) : Prop := p_brk (p_of s) <= p_brk (p_of s').

#[export] Instance brk_le_preorder {S} (p_of : S -> proc) : PreOrder (brk_le p_of).
Proof. split; [intros s; unfold brk_le; lia|intros s1 s2 s3; unfold brk_le; lia]. Qed.

(** What the operations of an allocator do to it. *)
Class AllocatorBrk (PS : Type) `{PageAllocator PS} := {
  pa_getpage_brk : forall flags, grows (brk_le pa_proc) (page_allocator_getpage (PS := PS) flags);
  pa_mprotect_brk : forall a n flags, grows (brk_le pa_proc) (page_allocator_mprotect (PS := PS) a n flags);
  pa_stat_brk : forall f, grows (brk_le pa_proc) (pa_on_proc (PS := PS) (stat f));
}.

(** ** System calls *)
Notation proc_grows := (grows (brk_le (fun p : proc => p))).

Lemma mmap_brk h len prot off : proc_grows (mmap h len prot off).
Proof. intros p a p'. unfold mmap. destruct (_ && _); intros [= _ <-]; unfold brk_le; simpl; lia. Qed.
Lemma munmap_brk a len : proc_grows (munmap a len).
Proof. intros p r p'. unfold munmap. destruct (_ && _); intros [= _ <-]; unfold brk_le; simpl; lia. Qed.
Lemma fallocate_brk off len : proc_grows (posix_fallocate off len).
Proof. intros p r p'. unfold posix_fallocate. repeat destruct (_ || _); try destruct (_ <? _); intros [= _ <-]; unfold brk_le; simpl; lia. Qed.
Lemma malloc_brk : proc_grows malloc.
Proof. intros p r p' [= _ <-]. unfold brk_le. simpl. lia. Qed.
Lemma stat_brk f : proc_grows (stat f).
Proof. apply grows_modify. intros p. unfold brk_le. simpl. lia. Qed.
Lemma mprotect_brk a n flags : proc_grows (page_allocator_mprotect_generic a n flags).
Proof.
  unfold page_allocator_mprotect_generic. apply grows_bind; [apply _|apply stat_brk|intros _]. apply grows_bind; [apply _| |intros rc].
  - intros p r p'. unfold mprotect. destruct (_ && _); intros [= _ <-]; unfold brk_le; simpl; lia.
  - destruct (rc =? 0); [apply grows_ret, _|apply grows_fail].
Qed.

(** ** The fixed mapper *)
Notation fm_grows := (grows (brk_le fs_proc)).

Lemma on_proc_brk {A} (m : M proc A) : proc_grows m -> fm_grows (on_proc m).
Proof.
  intros Hm s r s'. unfold on_proc, zoom. destruct (m (fs_proc s)) as [a p|] eqn:E; [|done]. intros [= _ <-]. exact (Hm _ _ _ E).
Qed.
Lemma on_links_brk {A} (m : M _ A) : fm_grows (on_links m).
Proof. intros s r s'. unfold on_links, zoom. destruct (m (fs_links s)) as [a p|]; [|done]. intros [= _ <-]. unfold brk_le. simpl. lia. Qed.

(** Follows the program, unfolding what it calls. *)
Ltac called m := match m with ?f _ => called f | _ => m end.
Ltac brk_grow calls := repeat first
  [ progress grow | calls tt | apply grows_modify; intros ?; exact (Z.le_refl _)
  | match goal with |- grows _ ?m => let f := called m in progress unfold f end ].
Ltac fm_calls _ := first [ apply on_links_brk
  | apply on_proc_brk; first [apply mmap_brk | apply munmap_brk | apply fallocate_brk | apply malloc_brk | apply stat_brk | apply mprotect_brk | progress grow] ].

#[export] Instance fixed_mapper_brk : AllocatorBrk fmst.
Proof.
  split.
  - intros flags. unfold page_allocator_getpage. simpl pa_on_proc. simpl pa_alloc_page. brk_grow fm_calls.
  - intros a n flags. apply on_proc_brk, mprotect_brk.
  - intros f. apply on_proc_brk, stat_brk.
Qed.

(** ** The nonlinear mapper *)
Notation nl_grows := (grows (brk_le ns_proc)).

Lemma nl_on_proc_brk {A} (m : M proc A) : proc_grows m -> nl_grows (nl_on_proc m).
Proof.
  intros Hm s r s'. unfold nl_on_proc, zoom. destruct (m (ns_proc s)) as [a p|] eqn:E; [|done]. intros [= _ <-]. exact (Hm _ _ _ E).
Qed.
Lemma nl_on_links_brk {A} (m : M _ A) : nl_grows (nl_on_links m).
Proof. intros s r s'. unfold nl_on_links, zoom. destruct (m (ns_links s)) as [a p|]; [|done]. intros [= _ <-]. unfold brk_le. simpl. lia. Qed.

Ltac nl_calls _ := first [ apply nl_on_links_brk
  | apply nl_on_proc_brk; first [apply mmap_brk | apply munmap_brk | apply fallocate_brk | apply malloc_brk | apply stat_brk | apply mprotect_brk | progress grow] ].

#[export] Instance nonlinear_mapper_brk : AllocatorBrk nlst.
Proof.
  split.
  - intros flags. unfold page_allocator_getpage. simpl pa_on_proc. simpl pa_alloc_page. brk_grow nl_calls.
  - intros a n flags. apply nl_on_proc_brk, mprotect_brk.
  - intros f. apply nl_on_proc_brk, stat_brk.
Qed.
