(* ===== verification/Splay.v ===== *)
(** * Splay trees: the [SPLAY_*] macros of [src/utils/tree.h]

    A tree is a value, as in [RBTree.v].  The top-down splay keeps two side
    trees; here they are the lists [ls] and [rs] of what was hung on them,
    the last one first, and [SPLAY_ASSEMBLE] puts the pieces together.  The
    comparison of the searched element with a node is [c]. *)
From Stdlib Require Import ZArith Lia Sorted.
From stdpp Require Import base numbers sets option list.
From S2P Require Import Prelude.
Open Scope Z_scope.

Inductive stree (A : Type) :=
  | SLeaf
  | SNode (l : stree A) (x : A) (r : stree A).
Arguments SLeaf {A}.
Arguments SNode {A} l x r.

Section splay.
Context {A : Type}.
Implicit Types (t l r : stree A) (x y : A) (c : A -> Z).

Definition SPLAY_EMPTY t : bool := match t with SLeaf => true | _ => false end.
Definition SPLAY_ROOT t : option A := match t with SLeaf => None | SNode _ x _ => Some x end.

(** The side trees with [t] at their free link. *)
Fixpoint attach_left (ls : list (stree A * A)) t : stree A :=
  match ls with [] => t | (l, x) :: ls' => attach_left ls' (SNode l x t) end.
Fixpoint attach_right (rs : list (A * stree A)) t : stree A :=
  match rs with [] => t | (x, r) :: rs' => attach_right rs' (SNode t x r) end.

Definition SPLAY_ASSEMBLE (l : stree A) (x : A) (r : stree A) ls rs : stree A :=
  SNode (attach_left ls l) x (attach_right rs r).

(** The loop of [SPLAY]; [ll], [lx], [lr] are the parts of the left child. *)
Fixpoint splay_loop c t ls rs : stree A :=
  match t with
  | SLeaf => SLeaf
  | SNode l x r =>
      if c x <? 0 then
        match l with
        | SLeaf => SPLAY_ASSEMBLE l x r ls rs
        | SNode ll lx lr =>
            if c lx <? 0 then
              match ll with
              | SLeaf => SPLAY_ASSEMBLE ll lx (SNode lr x r) ls rs
              | _ => splay_loop c ll ls ((lx, SNode lr x r) :: rs)
              end
            else splay_loop c l ls ((x, r) :: rs)
        end
      else if 0 <? c x then
        match r with
        | SLeaf => SPLAY_ASSEMBLE l x r ls rs
        | SNode rl rx rr =>
            if 0 <? c rx then
              match rr with
              | SLeaf => SPLAY_ASSEMBLE (SNode l x rl) rx rr ls rs
              | _ => splay_loop c rr ((SNode l x rl, rx) :: ls) rs
              end
            else splay_loop c r ((l, x) :: ls) rs
        end
      else SPLAY_ASSEMBLE l x r ls rs
  end.

Definition SPLAY c t : stree A := splay_loop c t [] [].

(** [SPLAY_MINMAX] is the same loop with a fixed comparison. *)
Definition SPLAY_MINMAX (comp : Z) t : stree A := SPLAY (fun _ => comp) t.

Definition SPLAY_FIND c t : option A * stree A :=
  if SPLAY_EMPTY t then (None, t)
  else
    let t' := SPLAY c t in
    match t' with
    | SNode _ x _ => if c x =? 0 then (Some x, t') else (None, t')
    | SLeaf => (None, t')
    end.

(** [c] compares [elm]; the result is the element already there, or none. *)
Definition SPLAY_INSERT c (elm : A) t : option A * stree A :=
  match SPLAY c t with
  | SLeaf => (None, SNode SLeaf elm SLeaf)
  | SNode l x r as t' =>
      if c x <? 0 then (None, SNode l elm (SNode SLeaf x r))
      else if 0 <? c x then (None, SNode (SNode l x SLeaf) elm r)
      else (Some x, t')
  end.

(** True when an element was removed. *)
Definition SPLAY_REMOVE c t : bool * stree A :=
  match SPLAY c t with
  | SLeaf => (false, SLeaf)
  | SNode l x r as t' =>
      if c x =? 0 then
        match l with
        | SLeaf => (true, r)
        | _ => match SPLAY c l with
               | SNode l' x' _ => (true, SNode l' x' r)
               | SLeaf => (true, SLeaf)
               end
        end
      else (false, t')
  end.

Definition SPLAY_NEGINF := -1.
Definition SPLAY_INF := 1.
Definition SPLAY_MIN t : option A * stree A := let t' := SPLAY_MINMAX SPLAY_NEGINF t in (SPLAY_ROOT t', t').
Definition SPLAY_MAX t : option A * stree A := let t' := SPLAY_MINMAX SPLAY_INF t in (SPLAY_ROOT t', t').

Fixpoint stree_leftmost t : option A :=
  match t with
  | SLeaf => None
  | SNode SLeaf x _ => Some x
  | SNode l _ _ => stree_leftmost l
  end.

(** [SPLAY_NEXT] of an element of the tree, which the splay brings to the
    root. *)
Definition SPLAY_NEXT c t : option A * stree A :=
  let t' := SPLAY c t in
  (match t' with SLeaf => None | SNode _ _ r => stree_leftmost r end, t').

(** [SPLAY_FOREACH]: the elements in the order of the loop, and the tree it
    leaves behind. *)
Fixpoint splay_foreach (fuel : nat) (cmp : A -> A -> Z) (x : option A) t : option (list A * stree A) :=
  match fuel with
  | O => None
  | S fuel' =>
      match x with
      | None => Some ([], t)
      | Some y =>
          let '(n, t') := SPLAY_NEXT (cmp y) t in
          r ← splay_foreach fuel' cmp n t'; Some (y :: r.1, r.2)
      end
  end.

Fixpoint sinorder t : list A :=
  match t with SLeaf => [] | SNode l x r => sinorder l ++ x :: sinorder r end.

Definition SPLAY_FOREACH (cmp : A -> A -> Z) t : option (list A * stree A) :=
  let '(x, t') := SPLAY_MIN t in splay_foreach (S (length (sinorder t))) cmp x t'.

(** ** What the order gives

    [sep c xs]: going through [xs], the comparison is first positive, then
    zero at most once, then negative. *)
Definition sep c (xs : list A) : Prop := StronglySorted (fun a b => c a <= 0 -> c b < 0) xs.

Fixpoint lseq (ls : list (stree A * A)) : list A :=
  match ls with [] => [] | (l, x) :: ls' => lseq ls' ++ sinorder l ++ [x] end.
Fixpoint rseq (rs : list (A * stree A)) : list A :=
  match rs with [] => [] | (x, r) :: rs' => x :: sinorder r ++ rseq rs' end.

Lemma attach_left_inorder ls t : sinorder (attach_left ls t) = lseq ls ++ sinorder t.
Proof.
  revert t. induction ls as [|[l x] ls IH]; intros t; simpl; [done|].
  rewrite IH. simpl. by rewrite <- !app_assoc.
Qed.

Lemma attach_right_inorder rs t : sinorder (attach_right rs t) = sinorder t ++ rseq rs.
Proof.
  revert t. induction rs as [|[x r] rs IH]; intros t; simpl; [by rewrite app_nil_r|].
  rewrite IH. simpl. by rewrite <- app_assoc.
Qed.

Lemma assemble_inorder l x r ls rs :
  sinorder (SPLAY_ASSEMBLE l x r ls rs) = lseq ls ++ sinorder (SNode l x r) ++ rseq rs.
Proof. simpl. rewrite attach_left_inorder, attach_right_inorder. by rewrite <- !app_assoc. Qed.

Ltac splay_size := simpl; rewrite ?length_app; simpl; rewrite ?length_app; simpl; rewrite ?length_app; simpl; lia.

(** The shape of a run of the loop: an induction principle over its cases. *)
Lemma splay_loop_ind (P : stree A -> list (stree A * A) -> list (A * stree A) -> stree A -> Prop) c :
  (forall ls rs, P SLeaf ls rs SLeaf) ->
  (forall l x r ls rs, c x = 0 -> P (SNode l x r) ls rs (SPLAY_ASSEMBLE l x r ls rs)) ->
  (forall x r ls rs, c x < 0 -> P (SNode SLeaf x r) ls rs (SPLAY_ASSEMBLE SLeaf x r ls rs)) ->
  (forall lx lr x r ls rs, c x < 0 -> c lx < 0 ->
     P (SNode (SNode SLeaf lx lr) x r) ls rs (SPLAY_ASSEMBLE SLeaf lx (SNode lr x r) ls rs)) ->
  (forall ll lx lr x r ls rs t', c x < 0 -> c lx < 0 -> ll <> SLeaf -> P ll ls ((lx, SNode lr x r) :: rs) t' ->
     P (SNode (SNode ll lx lr) x r) ls rs t') ->
  (forall l x r ls rs t', c x < 0 -> l <> SLeaf -> P l ls ((x, r) :: rs) t' -> P (SNode l x r) ls rs t') ->
  (forall l x ls rs, 0 < c x -> P (SNode l x SLeaf) ls rs (SPLAY_ASSEMBLE l x SLeaf ls rs)) ->
  (forall l x rl rx ls rs, 0 < c x -> 0 < c rx ->
     P (SNode l x (SNode rl rx SLeaf)) ls rs (SPLAY_ASSEMBLE (SNode l x rl) rx SLeaf ls rs)) ->
  (forall l x rl rx rr ls rs t', 0 < c x -> 0 < c rx -> rr <> SLeaf -> P rr ((SNode l x rl, rx) :: ls) rs t' ->
     P (SNode l x (SNode rl rx rr)) ls rs t') ->
  (forall l x r ls rs t', 0 < c x -> r <> SLeaf -> P r ((l, x) :: ls) rs t' -> P (SNode l x r) ls rs t') ->
  forall t ls rs, P t ls rs (splay_loop c t ls rs).
Proof.
  intros H1 H2 H3 H4 H5 H6 H7 H8 H9 H10 t.
  induction t as [t IH] using (induction_ltof1 _ (fun t => length (sinorder t))). unfold ltof in IH.
  intros ls rs. destruct t as [|l x r]; [apply H1|]. simpl.
  destruct (Z.ltb_spec (c x) 0) as [Hx|Hx].
  - destruct l as [|ll lx lr]; [by apply H3|].
    destruct (Z.ltb_spec (c lx) 0) as [Hl|Hl].
    + destruct ll as [|lll llx llr]; [by apply H4|]. apply H5; [done..|]. apply IH; splay_size.
    + apply H6; [done..|]. apply IH; splay_size.
  - destruct (Z.ltb_spec 0 (c x)) as [Hx'|Hx'].
    + destruct r as [|rl rx rr]; [by apply H7|].
      destruct (Z.ltb_spec 0 (c rx)) as [Hr|Hr].
      * destruct rr as [|rrl rrx rrr]; [by apply H8|]. apply H9; [done..|]. apply IH; splay_size.
      * apply H10; [done..|]. apply IH; splay_size.
    + apply H2. lia.
Qed.

Lemma splay_loop_inorder c t ls rs :
  t <> SLeaf -> sinorder (splay_loop c t ls rs) = lseq ls ++ sinorder t ++ rseq rs.
Proof.
  apply (splay_loop_ind (fun t ls rs t' => t <> SLeaf -> sinorder t' = lseq ls ++ sinorder t ++ rseq rs));
    intros; try congruence; try rewrite assemble_inorder; simpl; rewrite ?app_nil_r, <- ?app_assoc; try done.
  all: try match goal with H : _ -> sinorder _ = _ |- _ => rewrite H by done end; simpl; by rewrite <- ?app_assoc.
Qed.

Lemma SPLAY_inorder c t : sinorder (SPLAY c t) = sinorder t.
Proof.
  destruct t as [|l x r]; [done|]. unfold SPLAY. rewrite splay_loop_inorder by done.
  simpl. by rewrite app_nil_r.
Qed.

Lemma splay_loop_node c t ls rs : t <> SLeaf -> splay_loop c t ls rs <> SLeaf.
Proof. apply (splay_loop_ind (fun t ls rs t' => t <> SLeaf -> t' <> SLeaf)); auto; congruence. Qed.

Lemma SPLAY_leaf c t : SPLAY c t = SLeaf -> t = SLeaf.
Proof. intros E. destruct t; [done|]. exfalso. by eapply (splay_loop_node c (SNode t1 x t2) [] []). Qed.

(** *** The root after a splay *)
Definition root_ok c t : Prop :=
  match t with
  | SLeaf => True
  | SNode l x r =>
      c x = 0 \/ (c x < 0 /\ Forall (fun y => 0 < c y) (sinorder l)) \/
      (0 < c x /\ Forall (fun y => c y < 0) (sinorder r))
  end.

Lemma sep_app c xs ys :
  sep c (xs ++ ys) <-> sep c xs /\ sep c ys /\ (forall a b, a ∈ xs -> b ∈ ys -> c a <= 0 -> c b < 0).
Proof.
  unfold sep. induction xs as [|x xs IH]; simpl.
  { split; [|tauto]. intros H. split_and!; [constructor|done|]. intros a b Ha. by apply elem_of_nil in Ha. }
  split.
  - intros H. inversion H as [|? ? Hs Hx]; subst. rewrite List.Forall_forall in Hx.
    apply IH in Hs as (H1 & H2 & H3). split_and!; [|done|].
    + constructor; [done|]. apply List.Forall_forall. intros y Hy. apply Hx, List.in_app_iff. auto.
    + intros a b [->|Ha]%elem_of_cons Hb; [|by apply H3].
      apply Hx, List.in_app_iff. right. by apply list_elem_of_In.
  - intros (H1 & H2 & H3). inversion H1 as [|? ? Hs Hx]; subst. rewrite List.Forall_forall in Hx. constructor.
    + apply IH. split_and!; [done|done|]. intros a b Ha. apply H3. by right.
    + apply List.Forall_forall. intros y [Hy|Hy]%List.in_app_iff; [by apply Hx|].
      apply H3; [by left|by apply list_elem_of_In].
Qed.

Lemma sep_node c l x r :
  sep c (sinorder (SNode l x r)) <->
  sep c (sinorder l) /\ sep c (sinorder r) /\
  (forall a, a ∈ sinorder l -> c a <= 0 -> c x < 0) /\
  (forall b, b ∈ sinorder r -> c x <= 0 -> c b < 0) /\
  (forall a b, a ∈ sinorder l -> b ∈ sinorder r -> c a <= 0 -> c b < 0).
Proof.
  simpl. rewrite (sep_app c (sinorder l) (x :: sinorder r)), (sep_app c [x] (sinorder r)). split.
  - intros (H1 & (_ & H2 & H3) & H4). split_and!; [done|done| | |].
    + intros a Ha. apply H4; [done|by left].
    + intros b Hb. apply H3; [by apply list_elem_of_singleton|done].
    + intros a b Ha Hb. apply H4; [done|by right].
  - intros (H1 & H2 & H3 & H4 & H5). split_and!; [done|repeat constructor|done| |].
    + intros a b ->%list_elem_of_singleton. apply H4.
    + intros a b Ha [->|Hb]%elem_of_cons; [by apply H3|by apply H5].
Qed.

Lemma neg_right c l x r :
  sep c (sinorder (SNode l x r)) -> c x < 0 -> Forall (fun y => c y < 0) (x :: sinorder r).
Proof.
  intros (_ & _ & _ & H & _)%sep_node Hx. constructor; [done|]. apply Forall_forall. intros y Hy. apply H; [done|lia].
Qed.

Lemma pos_left c l x r :
  sep c (sinorder (SNode l x r)) -> 0 < c x -> Forall (fun y => 0 < c y) (sinorder l ++ [x]).
Proof.
  intros (_ & _ & H & _)%sep_node Hx. apply Forall_app. split; [|by constructor].
  apply Forall_forall. intros y Hy. destruct (Z.lt_ge_cases 0 (c y)) as [|Hn]; [done|]. specialize (H y Hy). lia.
Qed.

Lemma splay_loop_root c t ls rs :
  sep c (sinorder t) -> Forall (fun y => 0 < c y) (lseq ls) -> Forall (fun y => c y < 0) (rseq rs) ->
  root_ok c (splay_loop c t ls rs).
Proof.
  apply (splay_loop_ind (fun t ls rs t' => sep c (sinorder t) -> Forall (fun y => 0 < c y) (lseq ls) ->
    Forall (fun y => c y < 0) (rseq rs) -> root_ok c t')); intros; try done; simpl;
    rewrite ?attach_left_inorder, ?attach_right_inorder; simpl; rewrite ?app_nil_r; auto.
  all: match goal with IH : _ -> _ -> _ -> root_ok ?c ?t |- root_ok ?c ?t => apply IH end; try done.
  - by apply sep_node in H3 as (? & _); apply sep_node in H3 as (? & _).
  - assert (Hs := proj1 (sep_node _ _ _ _) H3). destruct Hs as (Hs & _).
    pose proof (neg_right _ _ _ _ H3 H) as Hr. pose proof (neg_right _ _ _ _ Hs H0) as Hl.
    simpl. inversion Hl; subst. constructor; [done|]. rewrite <- app_assoc. apply Forall_app. split; [done|].
    inversion Hr; subst. constructor; [done|]. by apply Forall_app.
  - by apply sep_node in H2 as (? & _).
  - pose proof (neg_right _ _ _ _ H2 H) as Hr. inversion Hr; subst. simpl. constructor; [done|]. by apply Forall_app.
  - by apply sep_node in H3 as (_ & H3 & _); apply sep_node in H3 as (_ & ? & _).
  - assert (Hs := proj1 (sep_node _ _ _ _) H3). destruct Hs as (_ & Hs & _).
    pose proof (pos_left _ _ _ _ H3 H) as Hr. pose proof (pos_left _ _ _ _ Hs H0) as Hl.
    clear H2. simpl. rewrite !Forall_app, !Forall_cons in *. tauto.
  - by apply sep_node in H2 as (_ & ? & _).
  - pose proof (pos_left _ _ _ _ H2 H) as Hr. simpl. apply Forall_app. by split.
Qed.

Lemma SPLAY_root c t : sep c (sinorder t) -> root_ok c (SPLAY c t).
Proof. intros H. apply splay_loop_root; [done|constructor|constructor]. Qed.

(** ** The operations *)
Lemma root_none c t : root_ok c t -> sep c (sinorder t) ->
  match t with SLeaf => True | SNode _ x _ => c x <> 0 end -> Forall (fun y => c y <> 0) (sinorder t).
Proof.
  destruct t as [|l x r]; [constructor|]. intros [Hx|[[Hx Hl]|[Hx Hr]]] Hs Hne; [done| |].
  - pose proof (neg_right _ _ _ _ Hs Hx) as Hr. simpl. apply Forall_app. split.
    + eapply Forall_impl; [done|]. simpl. lia.
    + eapply Forall_impl; [done|]. simpl. lia.
  - pose proof (pos_left _ _ _ _ Hs Hx) as [Hl _]%Forall_app. simpl. apply Forall_app. split; [|constructor; [lia|]].
    + eapply Forall_impl; [done|]. simpl. lia.
    + eapply Forall_impl; [done|]. simpl. lia.
Qed.

Lemma SPLAY_FIND_ok c t :
  sep c (sinorder t) ->
  sinorder (SPLAY_FIND c t).2 = sinorder t /\
  match (SPLAY_FIND c t).1 with
  | Some x => x ∈ sinorder t /\ c x = 0
  | None => Forall (fun y => c y <> 0) (sinorder t)
  end.
Proof.
  intros Hs. unfold SPLAY_FIND. destruct (SPLAY_EMPTY t) eqn:He.
  { destruct t; [|done]. split; [done|constructor]. }
  pose proof (SPLAY_root c t Hs) as Hr. pose proof (SPLAY_inorder c t) as Hi. rewrite <- Hi in Hs.
  destruct (SPLAY c t) as [|l x r] eqn:E.
  { split; [done|]. simpl in *. rewrite <- Hi. constructor. }
  destruct (Z.eqb_spec (c x) 0) as [Hx|Hx]; simpl; (split; [done|]).
  - split; [|done]. rewrite <- Hi. simpl. set_solver.
  - simpl in Hi. rewrite <- Hi. by apply (root_none c (SNode l x r)).
Qed.

(** A missing element goes between those below and those above it. *)
Lemma SPLAY_INSERT_new c elm t :
  sep c (sinorder t) -> Forall (fun y => c y <> 0) (sinorder t) ->
  (SPLAY_INSERT c elm t).1 = None /\
  exists lo hi, sinorder t = lo ++ hi /\ Forall (fun y => 0 < c y) lo /\ Forall (fun y => c y < 0) hi /\
    sinorder (SPLAY_INSERT c elm t).2 = lo ++ elm :: hi.
Proof.
  intros Hs Hn. unfold SPLAY_INSERT. pose proof (SPLAY_root c t Hs) as Hr.
  pose proof (SPLAY_inorder c t) as Hi. rewrite <- Hi in Hs, Hn |- *.
  destruct (SPLAY c t) as [|l x r] eqn:E.
  { split; [done|]. exists [], []. by repeat constructor. }
  assert (Hx : c x <> 0). { rewrite Forall_forall in Hn. apply Hn. simpl. set_solver. }
  destruct Hr as [?|[[Hx' Hl]|[Hx' Hr]]]; [done| |].
  - destruct (Z.ltb_spec (c x) 0); [|lia]. split; [done|]. exists (sinorder l), (x :: sinorder r).
    split_and!; [done|done|by apply neg_right with l|done].
  - destruct (Z.ltb_spec (c x) 0); [lia|]. destruct (Z.ltb_spec 0 (c x)); [|lia]. split; [done|].
    exists (sinorder l ++ [x]), (sinorder r). split_and!; [by rewrite <- app_assoc|by apply pos_left with r|done|done].
Qed.

Lemma SPLAY_INSERT_old c elm t x :
  sep c (sinorder t) -> x ∈ sinorder t -> c x = 0 ->
  exists y, (SPLAY_INSERT c elm t).1 = Some y /\ c y = 0 /\ y ∈ sinorder t /\
    sinorder (SPLAY_INSERT c elm t).2 = sinorder t.
Proof.
  intros Hs Hx Hc. unfold SPLAY_INSERT. pose proof (SPLAY_root c t Hs) as Hr.
  pose proof (SPLAY_inorder c t) as Hi. rewrite <- Hi in Hs, Hx |- *.
  destruct (SPLAY c t) as [|l y r] eqn:E; [by apply elem_of_nil in Hx|].
  destruct (Z.eq_dec (c y) 0) as [Hy|Hy].
  - rewrite Hy. simpl. exists y. split_and!; [done|done|set_solver|done].
  - pose proof (root_none c _ Hr Hs Hy) as Hn. rewrite Forall_forall in Hn. by destruct (Hn x Hx).
Qed.

Lemma root_split c l y r lo x hi :
  sep c (sinorder (SNode l y r)) -> sinorder (SNode l y r) = lo ++ x :: hi -> c x = 0 -> c y = 0 ->
  sinorder l = lo /\ y = x /\ sinorder r = hi.
Proof.
  intros Hs Hi Hc Hy. pose proof (proj1 (sep_node _ _ _ _) Hs) as (_ & _ & Hlx & Hxr & _).
  assert (Hlpos : forall a, a ∈ sinorder l -> 0 < c a) by (intros a Ha; specialize (Hlx a Ha); lia).
  assert (Hrneg : forall a, a ∈ sinorder r -> c a < 0) by (intros a Ha; apply Hxr; [done|lia]).
  simpl in Hi. apply app_eq_inv in Hi as [(k & El & E2)|(k & El & E2)].
  - destruct k as [|z k]; simpl in E2.
    + injection E2 as <- <-. by rewrite app_nil_r in El.
    + injection E2 as -> ->. assert (0 < c z) by (apply Hlpos; rewrite El; apply elem_of_app; right; by left). lia.
  - destruct k as [|z k]; simpl in E2.
    + injection E2 as <- <-. by rewrite app_nil_r in El.
    + injection E2 as -> E3.
      assert (c x < 0) by (apply Hrneg; rewrite E3; apply elem_of_app; right; by left). lia.
Qed.

Lemma SPLAY_root_zero c t lo x hi :
  sep c (sinorder t) -> sinorder t = lo ++ x :: hi -> c x = 0 ->
  exists l r, SPLAY c t = SNode l x r /\ sinorder l = lo /\ sinorder r = hi /\ sep c (sinorder (SNode l x r)).
Proof.
  intros Hs Ht Hc. pose proof (SPLAY_root c t Hs) as Hr.
  pose proof (SPLAY_inorder c t) as Hi. rewrite <- Hi in Hs. rewrite Ht in Hi.
  destruct (SPLAY c t) as [|l y r] eqn:E; [by destruct lo|].
  assert (Hy : c y = 0).
  { destruct (Z.eq_dec (c y) 0) as [|Hy]; [done|].
    pose proof (root_none c _ Hr Hs Hy) as Hn. rewrite Forall_forall, Hi in Hn.
    destruct (Hn x); [apply elem_of_app; right; by left|done]. }
  destruct (root_split c l y r lo x hi) as (? & -> & ?); eauto 10.
Qed.

Lemma SPLAY_REMOVE_ok c t lo x hi :
  sinorder t = lo ++ x :: hi -> sep c (sinorder t) -> c x = 0 ->
  (SPLAY_REMOVE c t).1 = true /\ sinorder (SPLAY_REMOVE c t).2 = lo ++ hi.
Proof.
  intros Ht Hs Hc. unfold SPLAY_REMOVE.
  destruct (SPLAY_root_zero c t lo x hi Hs Ht Hc) as (l & r & -> & <- & <- & Hs'). rewrite Hc. simpl.
  pose proof (proj1 (sep_node _ _ _ _) Hs') as (Hl & _ & Hlx & _).
  destruct l as [|ll lx lr]; [done|].
  pose proof (SPLAY_root c _ Hl) as Hr'. pose proof (SPLAY_inorder c (SNode ll lx lr)) as Hi'.
  destruct (SPLAY c (SNode ll lx lr)) as [|l' x' r'] eqn:E'; [by apply SPLAY_leaf in E'|].
  split; [done|]. rewrite <- Hi'. simpl.
  assert (Hx' : 0 < c x').
  { specialize (Hlx x'). rewrite <- Hi' in Hlx. simpl in Hlx.
    destruct (Z.lt_ge_cases 0 (c x')); [done|].
    assert (c x < 0) by (apply Hlx; [apply elem_of_app; right; by left|done]). lia. }
  destruct Hr' as [?|[[? _]|[_ Hneg]]]; [lia|lia|].
  destruct (sinorder r') as [|z zs] eqn:Er'; [by rewrite <- app_assoc|].
  exfalso. inversion Hneg; subst. specialize (Hlx z). rewrite <- Hi' in Hlx. simpl in Hlx. rewrite Er' in Hlx.
  assert (c x < 0); [|lia]. apply Hlx; [|lia]. apply elem_of_app. right. right. by left.
Qed.

Lemma SPLAY_REMOVE_absent c t :
  Forall (fun y => c y <> 0) (sinorder t) ->
  (SPLAY_REMOVE c t).1 = false /\ sinorder (SPLAY_REMOVE c t).2 = sinorder t.
Proof.
  intros Hn. unfold SPLAY_REMOVE. pose proof (SPLAY_inorder c t) as Hi. rewrite <- Hi in Hn |- *.
  destruct (SPLAY c t) as [|l x r]; [done|]. rewrite Forall_forall in Hn.
  destruct (Z.eqb_spec (c x) 0) as [Hx|]; [|done]. destruct (Hn x); [|done]. simpl. set_solver.
Qed.

(** ** Iteration *)
Lemma stree_leftmost_head t : stree_leftmost t = head (sinorder t).
Proof.
  induction t as [|l IH x r _]; [done|]. destruct l as [|ll lx lr]; [done|].
  change (stree_leftmost (SNode (SNode ll lx lr) x r)) with (stree_leftmost (SNode ll lx lr)). rewrite IH.
  simpl. by destruct (sinorder ll).
Qed.

Lemma minmax_sep comp xs : comp < 0 -> sep (fun _ => comp) xs.
Proof. intros Hc. unfold sep. induction xs; constructor; [done|]. apply List.Forall_forall. auto. Qed.

Lemma SPLAY_MIN_ok t :
  (SPLAY_MIN t).1 = head (sinorder t) /\ sinorder (SPLAY_MIN t).2 = sinorder t.
Proof.
  unfold SPLAY_MIN, SPLAY_MINMAX, SPLAY_NEGINF.
  pose proof (SPLAY_inorder (fun _ => -1) t) as Hi. simpl. split; [|done].
  pose proof (SPLAY_root (fun _ => -1) t) as Hr. lapply Hr; [clear Hr|by apply minmax_sep]. rewrite <- Hi.
  destruct (SPLAY _ t) as [|l x r]; [done|]. simpl. intros [?|[[_ Hl]|[? _]]]; [lia| |lia].
  destruct (sinorder l) as [|z zs]; [done|]. inversion Hl; lia.
Qed.

Context (cmp : A -> A -> Z).

(** [cmp] orders the list strictly. *)
Definition ordered (xs : list A) : Prop :=
  StronglySorted (fun a b => cmp a b < 0 /\ 0 < cmp b a) xs /\ forall a, a ∈ xs -> cmp a a = 0.

Lemma ordered_app xs ys :
  ordered (xs ++ ys) -> ordered ys /\ forall a b, a ∈ xs -> b ∈ ys -> cmp a b < 0 /\ 0 < cmp b a.
Proof.
  intros [Hs Hr]. split.
  - split; [|intros a Ha; apply Hr, elem_of_app; by right]. induction xs; [done|]. inversion Hs; subst.
    apply IHxs; [done|]. intros b Hb. apply Hr. by right.
  - induction xs as [|x xs IH]; [by intros a b ?%elem_of_nil|]. inversion Hs as [|? ? Hs' Hx]; subst.
    rewrite List.Forall_forall in Hx. intros a b [->|Ha]%elem_of_cons Hb.
    + apply Hx, list_elem_of_In, elem_of_app. by right.
    + apply IH; try done. intros c Hc. apply Hr. by right.
Qed.

Lemma ordered_sep xs x : ordered xs -> x ∈ xs -> sep (cmp x) xs.
Proof.
  intros Ho Hx. unfold sep.
  assert (Hg : forall pre suf, xs = pre ++ suf -> StronglySorted (fun a b => cmp x a <= 0 -> cmp x b < 0) suf).
  { intros pre suf. revert pre. induction suf as [|a suf IH]; intros pre E; constructor.
    - apply (IH (pre ++ [a])). by rewrite <- app_assoc.
    - apply List.Forall_forall. intros b Hb%list_elem_of_In Hle. subst xs.
      destruct (ordered_app _ _ Ho) as [Ho' Hpre].
      destruct (ordered_app [a] suf Ho') as [_ Hsuf].
      assert (Ha : a ∈ [a]) by (by left).
      apply elem_of_app in Hx as [Hx|[->|Hx]%elem_of_cons].
      + apply Hpre; [done|by right].
      + by apply Hsuf.
      + destruct (Hsuf a x Ha Hx). lia. }
  by apply (Hg [] xs).
Qed.

Lemma splay_foreach_ok fuel lo x hi t :
  ordered (lo ++ x :: hi) -> sinorder t = lo ++ x :: hi -> (length (x :: hi) < fuel)%nat ->
  exists t', splay_foreach fuel cmp (Some x) t = Some (x :: hi, t') /\ sinorder t' = sinorder t.
Proof.
  revert lo x t fuel. induction hi as [|y hi IH]; intros lo x t fuel Ho Ht Hf; (destruct fuel as [|fuel]; [simpl in Hf; lia|]).
  all: assert (Hx : x ∈ sinorder t) by (rewrite Ht; apply elem_of_app; right; by left).
  all: assert (Hc : cmp x x = 0) by (apply Ho; by rewrite <- Ht).
  all: assert (Hs : sep (cmp x) (sinorder t)) by (apply ordered_sep; [by rewrite Ht|done]).
  all: destruct (SPLAY_root_zero _ _ _ _ _ Hs Ht Hc) as (l & r & E & Hl & Hr & _).
  all: assert (Hi : sinorder (SNode l x r) = sinorder t) by (rewrite <- E; apply SPLAY_inorder).
  all: simpl; unfold SPLAY_NEXT; rewrite E, stree_leftmost_head, Hr; simpl.
  - destruct fuel; [simpl in Hf; lia|]. simpl. by exists (SNode l x r).
  - destruct (IH (lo ++ [x]) y (SNode l x r) fuel) as (t' & -> & Hi').
    + by rewrite <- app_assoc.
    + by rewrite Hi, Ht, <- app_assoc.
    + simpl in *. lia.
    + exists t'. by rewrite Hi', Hi.
Qed.

Lemma SPLAY_FOREACH_ok t :
  ordered (sinorder t) -> exists t', SPLAY_FOREACH cmp t = Some (sinorder t, t') /\ sinorder t' = sinorder t.
Proof.
  intros Ho. unfold SPLAY_FOREACH. destruct (SPLAY_MIN_ok t) as [Hx Hi].
  destruct (SPLAY_MIN t) as [o t']. simpl in Hx, Hi. subst o. destruct (sinorder t) as [|x xs] eqn:E.
  { by exists t'. }
  destruct (splay_foreach_ok (S (length (x :: xs))) [] x xs t') as (t'' & Hf & Hi''); [done|done|simpl; lia|].
  exists t''. by rewrite Hi'', Hi.
Qed.
End splay.

(** ** Properties *)

(** C36 Looking up, inserting and removing in a splay tree whose order is
    consistent with the comparison.  A lookup finds an equal element exactly
    when there is one and keeps the in-order list.  An insertion puts a new
    element between the smaller and the larger ones, and changes nothing when
    an equal one is there; a removal after it gives the old list again.
    [SPLAY_REMOVE] takes the equal element out of any tree, wherever it is,
    and keeps the list, answering that nothing was removed, when there is
    none. *)
Theorem SPLAY_operations_correct {A} (c : A -> Z) (elm : A) (t : stree A) :
  sep c (sinorder t) -> c elm = 0 ->
  let found := SPLAY_FIND c t in
  let ins := SPLAY_INSERT c elm t in
  let rem := SPLAY_REMOVE c t in
  sinorder found.2 = sinorder t /\
  (forall x, found.1 = Some x -> x ∈ sinorder t /\ c x = 0) /\
  (found.1 = None ->
     ins.1 = None /\
     exists lo hi, sinorder t = lo ++ hi /\ sinorder ins.2 = lo ++ elm :: hi /\
       Forall (fun y => 0 < c y) lo /\ Forall (fun y => c y < 0) hi /\
       (SPLAY_REMOVE c ins.2).1 = true /\ sinorder (SPLAY_REMOVE c ins.2).2 = sinorder t) /\
  (forall x, found.1 = Some x -> exists y, ins.1 = Some y /\ c y = 0 /\ sinorder ins.2 = sinorder t) /\
  (forall lo x hi, sinorder t = lo ++ x :: hi -> c x = 0 -> rem.1 = true /\ sinorder rem.2 = lo ++ hi) /\
  (found.1 = None -> rem.1 = false /\ sinorder rem.2 = sinorder t).
Proof.
  intros Hs He found ins rem. destruct (SPLAY_FIND_ok c t Hs) as [Hi Hf]. fold found in Hi, Hf.
  split_and!; [done| | | |intros lo x hi Et Hx; by eapply SPLAY_REMOVE_ok|].
  - intros x E. by rewrite E in Hf.
  - intros E. rewrite E in Hf. destruct (SPLAY_INSERT_new c elm t Hs Hf) as (E1 & lo & hi & Et & Hlo & Hhi & Ei).
    fold ins in E1, Ei. split; [done|]. exists lo, hi.
    destruct (SPLAY_REMOVE_ok c ins.2 lo elm hi Ei) as [Hr Hri]; [|done|by rewrite Et].
    rewrite Ei. rewrite Et in Hs. rewrite Forall_forall in Hlo, Hhi.
    apply sep_app in Hs as (H1 & H2 & H3). apply (sep_app c lo (elm :: hi)).
    split_and!; [done| |intros a b Ha Hb Hle; specialize (Hlo a Ha); lia].
    apply (sep_app c [elm] hi). split_and!; [repeat constructor|done|].
    intros a b _ Hb _. by apply Hhi.
  - intros x E. rewrite E in Hf. destruct Hf as [Hx Hc].
    destruct (SPLAY_INSERT_old c elm t x Hs Hx Hc) as (y & ? & ? & ? & ?). eauto.
  - intros E. rewrite E in Hf. by apply SPLAY_REMOVE_absent.
Qed.

(** Inserting 4, which is not there, and removing 5. *)
Lemma SPLAY_operations_correct_witness :
  sinorder (SPLAY_REMOVE (fun y => 5 - y) (SNode (SNode SLeaf 1 SLeaf) 3 (SNode SLeaf 5 (SNode SLeaf 7 SLeaf)))).2 = [1; 3; 7] /\
  exists lo hi, [1; 3; 5; 7] = lo ++ hi /\
    sinorder (SPLAY_INSERT (fun y => 4 - y) 4 (SNode (SNode SLeaf 1 SLeaf) 3 (SNode SLeaf 5 (SNode SLeaf 7 SLeaf)))).2 = lo ++ 4 :: hi.
Proof.
  split.
  { destruct (SPLAY_operations_correct (fun y => 5 - y) 5 (SNode (SNode SLeaf 1 SLeaf) 3 (SNode SLeaf 5 (SNode SLeaf 7 SLeaf))))
      as (_ & _ & _ & _ & H & _); [repeat constructor; lia|reflexivity|].
    exact (proj2 (H [1; 3] 5 [7] eq_refl eq_refl)). }
  destruct (SPLAY_operations_correct (fun y => 4 - y) 4 (SNode (SNode SLeaf 1 SLeaf) 3 (SNode SLeaf 5 (SNode SLeaf 7 SLeaf))))
    as (_ & _ & H & _).
  - repeat constructor; lia.
  - reflexivity.
  - destruct (H eq_refl) as (_ & lo & hi & E & E2 & _). exists lo, hi. split; [exact E|exact E2].
Defined.

(** Iterating over a splay tree, which restructures the tree at every
    step, terminates and visits the elements in order. *)
Theorem SPLAY_FOREACH_correct {A} (cmp : A -> A -> Z) (t : stree A) :
  ordered cmp (sinorder t) ->
  exists t', SPLAY_FOREACH cmp t = Some (sinorder t, t') /\ sinorder t' = sinorder t.
Proof. apply SPLAY_FOREACH_ok. Qed.

Lemma SPLAY_FOREACH_correct_witness :
  exists t', SPLAY_FOREACH Z.sub (SNode (SNode SLeaf 1 SLeaf) 3 (SNode SLeaf 5 SLeaf)) = Some ([1; 3; 5], t') /\
    sinorder t' = [1; 3; 5].
Proof.
  apply (SPLAY_FOREACH_correct Z.sub (SNode (SNode SLeaf 1 SLeaf) 3 (SNode SLeaf 5 SLeaf))).
  split; [repeat constructor; lia|]. intros a _. lia.
Defined.
