(* ===== verification/SlabLayout.v ===== *)
(** * The data of the slab: [src/slabInt.h], [struct container] of
    [src/cont.h], and the pages of [src/fixptr.h]

    A slab is a tree of pages: a directory, outer nodes, inner nodes and
    buckets of 28 [struct slab_entry]; each entry describes one data page and
    at most one page of pointer metadata.  Everything is kept twice, as
    [current] and as [snapshot].

    A pointer in memory ([maddr]) is a [Z], 0 for NULL; a position in the
    container file ([laddr]) is a [Z] too.  A page holds one structure
    ([page]); a data page is its 4096 bytes.  A page of the file that was
    never written holds zeros and reads as the all-zero value of any
    structure; a page read as another structure than the one last written is
    an error of the model.  The trees [sd_maddr_root] and [sd_size_root] hold
    pointers; their links ([se_splay], [es_splay]) are the shape of the tree
    value. *)
From Stdlib Require Import ZArith Lia.
From stdpp Require Import base numbers gmap option list.
From S2P Require Import Prelude Macros Bitstring Vector Queue RBTree.
Open Scope Z_scope.

(** ** Sizes *)
Definition SLAB_PTR_SEID_NULL := 0xffffffff.
Definition SLAB_PTR_OFFSET_NULL := 0xffff.

(** [sizeof(struct slab_entry)]: two ints, two data references of 24 bytes,
    two pointer references of 24, a list link and the four words of a tree
    link. *)
Definition sizeof_slab_entry := 4 + 4 + 24 + 24 + 24 + 24 + 8 + 32.
Definition sizeof_slab_ptr_item := 12.
Definition SLAB_PTR_SIZE := PAGE_SIZE / (2 * 2 + 4).
Definition SLAB_LARGE_ALLOC := 512.
Definition SLAB_BM_SIZE := PAGE_SIZE / 8.
Definition SLAB_BUCKET_ENTRIES := (PAGE_SIZE - 4) / sizeof_slab_entry.
Definition SLAB_INNER_MEM := 2 * (8 + 8).
Definition SLAB_INNER_ENTRIES := (PAGE_SIZE - 4) / SLAB_INNER_MEM.
Definition SLAB_OUTER_MEM := 2 * (8 + 8).
Definition SLAB_OUTER_ENTRIES := (PAGE_SIZE - 4) / SLAB_OUTER_MEM.
Definition SLAB_DIR_MEMSIZE := 4 + 3 * 8 + 3 * 8 + 2 * 8 + 24 + 8.
Definition SLAB_DIR_ENTRIES := (PAGE_SIZE - SLAB_DIR_MEMSIZE) / (2 * (8 + 8)).

(** ** Entries *)
Record data_ref := DRef { d_maddr : Z; d_laddr : Z; d_bitmap : Z }.
Record ptr_ref := PRef { r_idx : Z; r_maddr : Z; r_laddr : Z }.

Record slab_entry := SlabEntry {
  se_id : Z;
  se_size : Z;
  se_data_current : data_ref;
  se_data_snapshot : data_ref;
  se_ptr_current : ptr_ref;
  se_ptr_snapshot : ptr_ref;
  se_list : option Z;
}.

Definition zero_entry : slab_entry :=
  SlabEntry 0 0 (DRef 0 0 0) (DRef 0 0 0) (PRef 0 0 0) (PRef 0 0 0) None.

Definition set_se_data_current (r : data_ref) (e : slab_entry) : slab_entry :=
  SlabEntry (se_id e) (se_size e) r (se_data_snapshot e) (se_ptr_current e) (se_ptr_snapshot e) (se_list e).
Definition set_se_data_snapshot (r : data_ref) (e : slab_entry) : slab_entry :=
  SlabEntry (se_id e) (se_size e) (se_data_current e) r (se_ptr_current e) (se_ptr_snapshot e) (se_list e).
Definition set_se_ptr_current (r : ptr_ref) (e : slab_entry) : slab_entry :=
  SlabEntry (se_id e) (se_size e) (se_data_current e) (se_data_snapshot e) r (se_ptr_snapshot e) (se_list e).
Definition set_se_ptr_snapshot (r : ptr_ref) (e : slab_entry) : slab_entry :=
  SlabEntry (se_id e) (se_size e) (se_data_current e) (se_data_snapshot e) (se_ptr_current e) r (se_list e).
Definition set_se_list (n : option Z) (e : slab_entry) : slab_entry :=
  SlabEntry (se_id e) (se_size e) (se_data_current e) (se_data_snapshot e) (se_ptr_current e) (se_ptr_snapshot e) n.
Definition set_d_maddr (a : Z) (r : data_ref) : data_ref := DRef a (d_laddr r) (d_bitmap r).
Definition set_d_laddr (l : Z) (r : data_ref) : data_ref := DRef (d_maddr r) l (d_bitmap r).
Definition set_r_idx (i : Z) (r : ptr_ref) : ptr_ref := PRef i (r_maddr r) (r_laddr r).
Definition set_r_maddr (a : Z) (r : ptr_ref) : ptr_ref := PRef (r_idx r) a (r_laddr r).
Definition set_r_laddr (l : Z) (r : ptr_ref) : ptr_ref := PRef (r_idx r) (r_maddr r) l.

(** The two places of a bitmap: the byte of the [current] or [snapshot]
    reference, or the first bytes of the data page. *)
Inductive bitmap_ref := InEntry | InPage (maddr : Z).

Definition SLAB_ENTRY_CBITMAP (se : slab_entry) : bitmap_ref :=
  if SLAB_LARGE_ALLOC <=? se_size se then InEntry else InPage (d_maddr (se_data_current se)).
Definition SLAB_ENTRY_SBITMAP (se : slab_entry) : bitmap_ref :=
  if SLAB_LARGE_ALLOC <=? se_size se then InEntry else InPage (d_maddr (se_data_snapshot se)).

(** The quotients; a zero divisor is tested where they are used. *)
Definition capacity_of (size : Z) : Z :=
  if size <? SLAB_LARGE_ALLOC then (PAGE_SIZE - bitstr_size size) / size else PAGE_SIZE / size.
Definition dataoffset_of (size : Z) : Z :=
  if SLAB_LARGE_ALLOC <=? size then 0 else bitstr_size (PAGE_SIZE / size).

Definition SLAB_ENTRY_CAPACITY (se : slab_entry) : option Z :=
  if se_size se =? 0 then None else Some (capacity_of (se_size se)).
Definition SLAB_ENTRY_DATAOFFSET (se : slab_entry) : option Z :=
  if se_size se =? 0 then None else Some (dataoffset_of (se_size se)).

Definition SLAB_ENTRY_IS_INIT (pse : slab_entry) : bool :=
  negb (se_size pse =? 0) || negb (d_maddr (se_data_current pse) =? 0).

(** ** Searching by address *)
Definition SE_SEARCH_NORMAL := 1.
Definition SE_SEARCH_MADDR := 2.
Definition SLAB_ENTRY_SEARCH_KEY (key type : Z) : slab_entry :=
  SlabEntry 0 0 (DRef key 0 0) (DRef type 0 0) (PRef 0 0 0) (PRef 0 0 0) None.
Definition SLAB_ENTRY_SEARCH_TYPE (se : slab_entry) : Z := d_maddr (se_data_snapshot se).

(** ** Size classes, in volatile memory *)
Record slab_entry_size := EntrySize { es_size : Z; es_list : stailq Z }.

(** ** Buckets and the nodes of the tree *)
Record slab_bucket := SlabBucket { sb_has_snapshot : Z; sb_id : Z; sb_entries : list slab_entry }.

Record node_ref := NRef { n_maddr : Z; n_laddr : Z }.

(** [struct slab_inner] and [struct slab_outer], and the arrays of the
    directory: an index and two arrays of references. *)
Record slab_node := SlabNode { n_index : Z; n_current : list node_ref; n_snapshot : list node_ref }.
Definition zero_node (entries : Z) : slab_node :=
  SlabNode 0 (replicate (Z.to_nat entries) (NRef 0 0)) (replicate (Z.to_nat entries) (NRef 0 0)).

Record slab_dir := SlabDir {
  sd_maddr_root : rbt Z;
  sd_size_root : rbt Z;
  sd_free_list : stailq Z;
  sd_cont_root : Z;
  sd_node : slab_node;
  sd_vector : vector Z;
}.

Definition SLAB_INNER_FULL (p : slab_node) : bool := n_index p =? SLAB_INNER_ENTRIES.
Definition SLAB_OUTER_FULL (p : slab_node) : bool := n_index p =? SLAB_OUTER_ENTRIES.
Definition SLAB_DIR_FULL (p : slab_dir) : bool := n_index (sd_node p) =? SLAB_DIR_ENTRIES.

Definition zero_bucket : slab_bucket := SlabBucket 0 0 (replicate (Z.to_nat SLAB_BUCKET_ENTRIES) zero_entry).
(** An all-zero queue head has a NULL tail pointer; the queue is always
    initialised before it is used. *)
Definition zero_dir : slab_dir := SlabDir Leaf Leaf STAILQ_INIT 0 (zero_node SLAB_DIR_ENTRIES) (Vec 0 0 None).

Definition set_sd_maddr_root (t : rbt Z) (d : slab_dir) : slab_dir :=
  SlabDir t (sd_size_root d) (sd_free_list d) (sd_cont_root d) (sd_node d) (sd_vector d).
Definition set_sd_size_root (t : rbt Z) (d : slab_dir) : slab_dir :=
  SlabDir (sd_maddr_root d) t (sd_free_list d) (sd_cont_root d) (sd_node d) (sd_vector d).
Definition set_sd_free_list (q : stailq Z) (d : slab_dir) : slab_dir :=
  SlabDir (sd_maddr_root d) (sd_size_root d) q (sd_cont_root d) (sd_node d) (sd_vector d).
Definition set_sd_cont_root (r : Z) (d : slab_dir) : slab_dir :=
  SlabDir (sd_maddr_root d) (sd_size_root d) (sd_free_list d) r (sd_node d) (sd_vector d).
Definition set_sd_node (n : slab_node) (d : slab_dir) : slab_dir :=
  SlabDir (sd_maddr_root d) (sd_size_root d) (sd_free_list d) (sd_cont_root d) n (sd_vector d).
Definition set_sd_vector (v : vector Z) (d : slab_dir) : slab_dir :=
  SlabDir (sd_maddr_root d) (sd_size_root d) (sd_free_list d) (sd_cont_root d) (sd_node d) v.

(** ** Pointer metadata: [struct slab_ptr], its array of [ptrs] *)
Record slab_ptr_item := PtrItem { ploc_offset : Z; pval_seid : Z; pval_offset : Z }.
Definition zero_ptr_item : slab_ptr_item := PtrItem 0 0 0.

(** The items that fit in the one page allocated for them, fewer than
    [SLAB_PTR_SIZE]: with its padding an item takes 12 bytes. *)
Definition ptrs_in_page := PAGE_SIZE / sizeof_slab_ptr_item.

(** ** The container: [struct container] *)
Definition CPOINT_IN_PROGRESS_BIT := 0.
Definition CFLAG_CPOINT_IN_PROGRESS := Z.shiftl 1 CPOINT_IN_PROGRESS_BIT.

Record container := Container {
  cont_id : Z;
  current_slab : node_ref;
  snapshot_slab : node_ref;
  cont_flags : Z;
}.
Definition zero_container : container := Container 0 (NRef 0 0) (NRef 0 0) 0.

(** ** The list of persistent pointers: [src/fixptr.h]

    An item takes 16 bytes with its padding.  An inode lists data nodes, each
    with a current version and a snapshot. *)
Record pptr := Pptr { pp_loc_offset : Z; pp_loc_seid : Z; pp_val_offset : Z; pp_val_seid : Z }.
Definition zero_pptr : pptr := Pptr 0 0 0 0.
Definition sizeof_pptr := 16.

Definition PPTR_DNODE_ENTRIES := (PAGE_SIZE - 4) / sizeof_pptr.
Definition PPTR_INODE_ENTRIES := (PAGE_SIZE - 4 - 8 - 8) / (2 * (8 + 8)).

Record pptr_dnode := DNode { pdn_index : Z; pdn_entries : list pptr }.
Definition zero_dnode : pptr_dnode := DNode 0 (replicate (Z.to_nat PPTR_DNODE_ENTRIES) zero_pptr).

Record pin_entry := PinEntry { pe_current : node_ref; pe_snapshot : node_ref }.
Definition zero_pin_entry : pin_entry := PinEntry (NRef 0 0) (NRef 0 0).

Record pptr_inode := INode { pin_current_idx : Z; pin_next : node_ref; pin_entries : list pin_entry }.
Definition zero_inode : pptr_inode := INode 0 (NRef 0 0) (replicate (Z.to_nat PPTR_INODE_ENTRIES) zero_pin_entry).

Record pptr_head := PHead { ph_first : node_ref; ph_last : Z }.

Definition PPTR_DNODE_IS_FULL (p : pptr_dnode) : bool := pdn_index p =? PPTR_DNODE_ENTRIES.

(** ** Pages *)
Inductive page :=
  | PgZero
  | PgCont (c : container)
  | PgDir (d : slab_dir)
  | PgOuter (n : slab_node)
  | PgInner (n : slab_node)
  | PgBucket (b : slab_bucket)
  | PgPtrs (items : list slab_ptr_item)
  | PgData (bytes : list Z)
  | PgINode (n : pptr_inode)
  | PgDNode (n : pptr_dnode).

(** A page type: how a page is read as [T], and a [T] as a page. *)
Class PageType (T : Type) := {
  as_page : page -> option T;
  to_page : T -> page;
}.

#[export] Instance container_page : PageType container := {
  as_page p := match p with PgZero => Some zero_container | PgCont c => Some c | _ => None end;
  to_page := PgCont;
}.
#[export] Instance dir_page : PageType slab_dir := {
  as_page p := match p with PgZero => Some zero_dir | PgDir d => Some d | _ => None end;
  to_page := PgDir;
}.
#[export] Instance bucket_page : PageType slab_bucket := {
  as_page p := match p with PgZero => Some zero_bucket | PgBucket b => Some b | _ => None end;
  to_page := PgBucket;
}.
#[export] Instance ptrs_page : PageType (list slab_ptr_item) := {
  as_page p := match p with PgZero => Some (replicate (Z.to_nat ptrs_in_page) zero_ptr_item) | PgPtrs l => Some l | _ => None end;
  to_page := PgPtrs;
}.

Record outer_node := Outer { the_outer : slab_node }.
Record inner_node := Inner { the_inner : slab_node }.
#[export] Instance outer_page : PageType outer_node := {
  as_page p := match p with PgZero => Some (Outer (zero_node SLAB_OUTER_ENTRIES)) | PgOuter n => Some (Outer n) | _ => None end;
  to_page n := PgOuter (the_outer n);
}.
#[export] Instance inner_page : PageType inner_node := {
  as_page p := match p with PgZero => Some (Inner (zero_node SLAB_INNER_ENTRIES)) | PgInner n => Some (Inner n) | _ => None end;
  to_page n := PgInner (the_inner n);
}.

Record data_page := Data { the_bytes : list Z }.
#[export] Instance data_page_type : PageType data_page := {
  as_page p := match p with
               | PgZero => Some (Data (replicate (Z.to_nat PAGE_SIZE) 0)) | PgData l => Some (Data l) | _ => None end;
  to_page d := PgData (the_bytes d);
}.

#[export] Instance inode_page : PageType pptr_inode := {
  as_page p := match p with PgZero => Some zero_inode | PgINode n => Some n | _ => None end;
  to_page := PgINode;
}.
#[export] Instance dnode_page : PageType pptr_dnode := {
  as_page p := match p with PgZero => Some zero_dnode | PgDNode n => Some n | _ => None end;
  to_page := PgDNode;
}.

Class PageTypeLaws (T : Type) `{PageType T} := { as_to_page : forall x : T, as_page (to_page x) = Some x }.
#[export] Instance container_page_laws : PageTypeLaws container.
Proof. done. Qed.
#[export] Instance dir_page_laws : PageTypeLaws slab_dir.
Proof. done. Qed.
#[export] Instance bucket_page_laws : PageTypeLaws slab_bucket.
Proof. done. Qed.
#[export] Instance ptrs_page_laws : PageTypeLaws (list slab_ptr_item).
Proof. done. Qed.
#[export] Instance outer_page_laws : PageTypeLaws outer_node.
Proof. split. by intros []. Qed.
#[export] Instance inner_page_laws : PageTypeLaws inner_node.
Proof. split. by intros []. Qed.
#[export] Instance data_page_laws : PageTypeLaws data_page.
Proof. split. by intros []. Qed.
#[export] Instance inode_page_laws : PageTypeLaws pptr_inode.
Proof. done. Qed.
#[export] Instance dnode_page_laws : PageTypeLaws pptr_dnode.
Proof. done. Qed.

(** ** Where the objects of a data page lie

    All the sizes an allocation can have are multiples of 8 up to a page. *)
Definition all_sizes : list Z := map (fun n => 8 * Z.of_nat n) (seq 1 512).

(** The sizes whose last objects extend past the page. *)
Definition overflowing : list Z := [8; 16; 24; 56].

Definition layout_ok (size : Z) : bool :=
  let cap := capacity_of size in
  let off := dataoffset_of size in
  (1 <=? cap) && (cap <=? 8 * (if SLAB_LARGE_ALLOC <=? size then 1 else off)) && (off <=? PAGE_SIZE) &&
  (0 <=? off) && Bool.eqb (off + cap * size <=? PAGE_SIZE) (negb (bool_decide (size ∈ overflowing))).

Lemma layouts_ok : forallb layout_ok all_sizes = true.
Proof. vm_compute. reflexivity. Qed.

Lemma layout size :
  0 < size <= PAGE_SIZE -> size mod 8 = 0 ->
  1 <= capacity_of size /\
  capacity_of size <= 8 * (if SLAB_LARGE_ALLOC <=? size then 1 else dataoffset_of size) /\
  0 <= dataoffset_of size <= PAGE_SIZE /\
  (dataoffset_of size + capacity_of size * size <= PAGE_SIZE <-> size ∉ overflowing).
Proof.
  intros Hr Hm. assert (Hin : In size all_sizes).
  { unfold all_sizes. apply List.in_map_iff. exists (Z.to_nat (size / 8)).
    pose proof (Z.div_mod size 8). unfold PAGE_SIZE in Hr.
    assert (1 <= size / 8 <= 512) by lia. split; [lia|]. apply List.in_seq. lia. }
  pose proof layouts_ok as H. rewrite forallb_forall in H. specialize (H size Hin). unfold layout_ok in H.
  rewrite !andb_true_iff, !Z.leb_le in H. destruct H as ((((H1 & H2) & H3) & H4) & H5).
  apply eqb_prop in H5. split; [lia|]. split; [lia|]. split; [lia|]. split.
  - intros Hf. apply Z.leb_le in Hf. rewrite Hf in H5. symmetry in H5. by apply negb_true_iff, bool_decide_eq_false in H5.
  - intros Hf. rewrite bool_decide_false in H5 by done. by apply Z.leb_le.
Qed.

(** C24 A data page holds its bitmap and then [capacity] objects of the same
    size: there is room for at least one object, the bitmap has a bit for
    each, no two objects overlap and none overlaps the bitmap.  The objects
    lie inside the page except for the sizes 8, 16, 24 and 56, whose last
    objects extend past its end. *)
Theorem slab_objects_layout size :
  0 < size <= PAGE_SIZE -> size mod 8 = 0 ->
  let cap := capacity_of size in
  let obj i := dataoffset_of size + i * size in
  1 <= cap /\ cap <= 8 * (if SLAB_LARGE_ALLOC <=? size then 1 else dataoffset_of size) /\
  (forall i j, 0 <= i < j -> j < cap -> dataoffset_of size <= obj i /\ obj i + size <= obj j) /\
  ((forall i, 0 <= i < cap -> obj i + size <= PAGE_SIZE) <-> size ∉ overflowing).
Proof.
  intros Hr Hm cap obj. destruct (layout size Hr Hm) as (H1 & H2 & H3 & H4). fold cap in H1, H2, H4.
  split_and!; [done|done| |].
  - intros i j Hij Hj. unfold obj. split; nia.
  - split.
    + intros Hall. specialize (Hall (cap - 1)). unfold obj in Hall.
      assert (dataoffset_of size + (cap - 1) * size + size <= PAGE_SIZE) by (apply Hall; lia).
      apply H4. lia.
    + intros Hs i Hi. unfold obj. assert (dataoffset_of size + cap * size <= PAGE_SIZE) by (by apply H4). nia.
Qed.

Lemma slab_objects_layout_witness :
  (forall i, 0 <= i < capacity_of 64 -> dataoffset_of 64 + i * 64 + 64 <= PAGE_SIZE) /\
  ~ (forall i, 0 <= i < capacity_of 24 -> dataoffset_of 24 + i * 24 + 24 <= PAGE_SIZE).
Proof.
  split.
  - destruct (slab_objects_layout 64) as (_ & _ & _ & H); [split; [reflexivity|discriminate]|reflexivity|].
    apply H. apply (bool_decide_unpack (64 ∉ overflowing)). vm_compute. exact I.
  - intros Hn. destruct (slab_objects_layout 24) as (_ & _ & _ & H); [split; [reflexivity|discriminate]|reflexivity|].
    apply H in Hn. apply Hn. apply (bool_decide_unpack (24 ∈ overflowing)). vm_compute. exact I.
Defined.
