(* ===== verification/World.v ===== *)
(** * The memory the slab works on

    [world] is the state of a process that uses the library: the page
    allocator (any instance of [PageAllocator], with the process inside), the
    contents of the container file by file offset, the volatile memory, the
    array [CONTAINERS] (of one element) and the static variables of
    [src/slab.c].

    An access at a page address goes through the mapping of the page
    allocator to the file.  [read] and [write_raw] are typed accesses to a
    whole page; [write_raw] needs write permission, the fault on a protected
    page is [Sigsegv] here and is handled in [Snapshot.v]. *)
From Stdlib Require Import ZArith Lia.
From stdpp Require Import base numbers gmap option list.
From S2P Require Import Prelude Macros Bitstring Vector Queue Process RBTree PageAlloc SlabLayout.
Open Scope Z_scope.

Record world (PS : Type) := World {
  w_pa : PS;
  w_file : gmap Z page;
  w_vol : gmap Z Z;
  CONTAINERS : option Z;
  NEXT_SLAB_BUCKET_ID : Z;
  NEXT_SLAB_ENTRY_ID : Z;
  w_sizes : gmap Z slab_entry_size;
  fixptrs_enabled : bool;
  copynswap_enabled : bool;
}.
Arguments World {PS}.
Arguments w_pa {PS}.
Arguments w_file {PS}.
Arguments w_vol {PS}.
Arguments CONTAINERS {PS}.
Arguments NEXT_SLAB_BUCKET_ID {PS}.
Arguments NEXT_SLAB_ENTRY_ID {PS}.
Arguments w_sizes {PS}.
Arguments fixptrs_enabled {PS}.
Arguments copynswap_enabled {PS}.

Section world.
Context {PS : Type} `{PA : PageAllocator PS}.
Implicit Types (w : world PS).

Definition set_w_pa (s : PS) w : world PS :=
  World s (w_file w) (w_vol w) (CONTAINERS w) (NEXT_SLAB_BUCKET_ID w) (NEXT_SLAB_ENTRY_ID w)
    (w_sizes w) (fixptrs_enabled w) (copynswap_enabled w).
Definition set_w_file (f : gmap Z page) w : world PS :=
  World (w_pa w) f (w_vol w) (CONTAINERS w) (NEXT_SLAB_BUCKET_ID w) (NEXT_SLAB_ENTRY_ID w)
    (w_sizes w) (fixptrs_enabled w) (copynswap_enabled w).
Definition set_w_vol (v : gmap Z Z) w : world PS :=
  World (w_pa w) (w_file w) v (CONTAINERS w) (NEXT_SLAB_BUCKET_ID w) (NEXT_SLAB_ENTRY_ID w)
    (w_sizes w) (fixptrs_enabled w) (copynswap_enabled w).
Definition set_CONTAINERS (c : option Z) w : world PS :=
  World (w_pa w) (w_file w) (w_vol w) c (NEXT_SLAB_BUCKET_ID w) (NEXT_SLAB_ENTRY_ID w)
    (w_sizes w) (fixptrs_enabled w) (copynswap_enabled w).
Definition set_next_ids (b e : Z) w : world PS :=
  World (w_pa w) (w_file w) (w_vol w) (CONTAINERS w) b e
    (w_sizes w) (fixptrs_enabled w) (copynswap_enabled w).
Definition set_w_sizes (m : gmap Z slab_entry_size) w : world PS :=
  World (w_pa w) (w_file w) (w_vol w) (CONTAINERS w) (NEXT_SLAB_BUCKET_ID w) (NEXT_SLAB_ENTRY_ID w)
    m (fixptrs_enabled w) (copynswap_enabled w).
Definition set_modes (fp cns : bool) w : world PS :=
  World (w_pa w) (w_file w) (w_vol w) (CONTAINERS w) (NEXT_SLAB_BUCKET_ID w) (NEXT_SLAB_ENTRY_ID w)
    (w_sizes w) fp cns.

(** ** Calls into the page allocator and the process *)
Definition on_pa {A} (m : M PS A) : M (world PS) A := zoom w_pa set_w_pa m.
Definition w_stat (f : global_stats -> global_stats) : M (world PS) unit := on_pa (pa_on_proc (stat f)).
Definition w_malloc : M (world PS) Z := on_pa (pa_on_proc malloc).
Definition getpage (flags : Z) : M (world PS) (Z * Z) := on_pa (page_allocator_getpage flags).
Definition freepages (maddr : Z) : M (world PS) unit := on_pa (page_allocator_freepages maddr).
Definition mappage (laddr : Z) : M (world PS) Z := on_pa (page_allocator_mappage laddr).
Definition mprotect_page (maddr flags : Z) : M (world PS) unit :=
  on_pa (page_allocator_mprotect maddr PAGE_SIZE flags).
Definition swap_mappings (xaddr ypgoff yaddr xpgoff : Z) : M (world PS) unit :=
  on_pa (page_allocator_swap_mappings xaddr ypgoff yaddr xpgoff).

(** ** Pages by address *)

(** The content a mapped address shows. *)
Definition page_at w (a : Z) : option page := l ← vm_of (w_pa w) !! a; Some (default PgZero (w_file w !! l)).

Definition writable w (a : Z) : bool :=
  match prot_of (w_pa w) !! a with Some p => negb (Z.land p PA_PROT_WRITE =? 0) | None => false end.

Definition load (a : Z) : M (world PS) page := fun w =>
  match page_at w a with Some p => Ok p w | None => Fail Unmapped w end.

Definition store_raw (a : Z) (p : page) : M (world PS) unit := fun w =>
  match vm_of (w_pa w) !! a with
  | None => Fail Unmapped w
  | Some l => if writable w a then Ok tt (set_w_file (<[l := p]> (w_file w)) w) else Fail Sigsegv w
  end.

Definition read {T} `{PageType T} (a : Z) : M (world PS) T :=
  let! p := load a in from_opt WrongPage (as_page p).
Definition write_raw {T} `{PageType T} (a : Z) (x : T) : M (world PS) unit := store_raw a (to_page x).

(** ** Entries by address: [&sb->sb_entries[i]] *)
Definition se_offset := 8.
Definition se_addr (sb i : Z) : Z := sb + se_offset + sizeof_slab_entry * i.
Definition se_page (se : Z) : Z := ROUND_DWNPG (ptoi se).
Definition SLAB_ENTRY_INDEX (se : Z) : Z := (ptoi se - ROUND_DWNPG (ptoi se)) / sizeof_slab_entry.

Definition entry_of (b : slab_bucket) (se : Z) : option slab_entry :=
  zget (sb_entries b) (SLAB_ENTRY_INDEX se).
Definition with_entry (b : slab_bucket) (se : Z) (e : slab_entry) : option slab_bucket :=
  l ← zset (sb_entries b) (SLAB_ENTRY_INDEX se) e; Some (SlabBucket (sb_has_snapshot b) (sb_id b) l).

Definition get_se (se : Z) : M (world PS) slab_entry :=
  let! b := read (T := slab_bucket) (se_page se) in from_opt WrongPage (entry_of b se).

(** The entry a pointer shows, for the comparison functions of the trees. *)
Definition se_at w (se : Z) : slab_entry :=
  default zero_entry (p ← page_at w (se_page se); b ← as_page (T := slab_bucket) p; entry_of b se).

(** ** The structures the globals lead to *)
Definition get_container : M (world PS) Z := fun w =>
  match CONTAINERS w with Some c => Ok c w | None => Fail NullDeref w end.

(** [get_container(cid)->current_slab.maddr] *)
Definition current_dir : M (world PS) Z :=
  let! c := get_container in
  let! cont := read (T := container) c in
  ret (n_maddr (current_slab cont)).

(** ** Comparisons of the two trees *)
Definition slab_entry_compare_by_maddr (a b : slab_entry) : Z :=
  let am := d_maddr (se_data_current a) in
  let bm := d_maddr (se_data_current b) in
  if SLAB_ENTRY_SEARCH_TYPE a =? SE_SEARCH_MADDR then
    if am <? bm then -1 else if u64 (bm + PAGE_SIZE) <=? am then 1 else 0
  else if am <? bm then -1 else if bm <? am then 1 else 0.

Definition slab_entry_size_compare_by_size (a b : slab_entry_size) : Z :=
  if es_size a <? es_size b then -1 else if es_size b <? es_size a then 1 else 0.

(** [RB_FIND(used_slab_entry_tree, &sd->sd_maddr_root, &key)] *)
Definition find_by_key (d : slab_dir) (key : slab_entry) : M (world PS) (option Z) :=
  gets (fun w => RB_FIND (fun _ y => slab_entry_compare_by_maddr key (se_at w y)) (sd_maddr_root d) 0).

(** ** Cache flushes *)
Definition STATS_INC_FLUSH : M (world PS) unit := w_stat (__INC_BOTH cpu_cache_flushes).
Definition flush_segment (src n : Z) : M (world PS) unit :=
  let! lines := from_opt Diverges (flush_memsegment src n) in
  forM lines (fun _ => STATS_INC_FLUSH).
End world.

(** ** Memory under the laws of the page allocator

    [owns w U k]: the pages of [U] are allocated and [k] more can be handed
    out without growing the file.  [globals w]: everything but the allocator
    and the file. *)
Section laws.
Context {PS : Type} `{PL : PageAllocatorLaws PS}.
Implicit Types (w : world PS) (U : gset Z) (k : nat).

Definition owns w U k : Prop := pa_inv (w_pa w) U k.



Definition globals w := (w_vol w, CONTAINERS w, NEXT_SLAB_BUCKET_ID w, NEXT_SLAB_ENTRY_ID w,
  w_sizes w, fixptrs_enabled w, copynswap_enabled w).

(** The pages of [U] show the same content and have the same protection. *)
Definition same_pages U w w' : Prop :=
  forall b, b ∈ U -> page_at w' b = page_at w b /\ writable w' b = writable w b.

(** The same, with the page [a] now showing [p]. *)
Definition page_written U a p w w' : Prop :=
  forall b, b ∈ U -> page_at w' b = (if decide (b = a) then Some p else page_at w b) /\ writable w' b = writable w b.

Lemma same_pages_refl U w : same_pages U w w.
Proof. done. Qed.

Lemma same_pages_trans U w1 w2 w3 : same_pages U w1 w2 -> same_pages U w2 w3 -> same_pages U w1 w3.
Proof. intros Hp Hq b Hb. destruct (Hp b Hb), (Hq b Hb). split; congruence. Qed.

Lemma same_pages_subset U U' w w' : same_pages U w w' -> U' ⊆ U -> same_pages U' w w'.
Proof. intros Hp Hs b Hb. apply Hp. set_solver. Qed.

Lemma owned_page w U k b : owns w U k -> b ∈ U -> is_Some (page_at w b).
Proof.
  intros Ho Hb. destruct (pa_inv_page _ _ _ _ Ho Hb) as ((l & E) & _). unfold page_at. rewrite E. by eexists.
Qed.

Lemma owned_aligned w U k b : owns w U k -> b ∈ U -> b mod PAGE_SIZE = 0 /\ 0 < b /\ b + PAGE_SIZE + PAGE_SIZE <= 2 ^ 64.
Proof. intros Ho Hb. by destruct (pa_inv_page _ _ _ _ Ho Hb) as (_ & ?). Qed.

Lemma load_run w a p : page_at w a = Some p -> load a w = Ok p w.
Proof. unfold load. by intros ->. Qed.

Lemma read_run {T} `{PageType T} w a p (x : T) :
  page_at w a = Some p -> as_page p = Some x -> read a w = Ok x w.
Proof. intros E Ex. unfold read, bind. rewrite (load_run _ _ _ E). by rewrite Ex. Qed.

Lemma wp_read {T} `{PageType T} w a p (x : T) (Q : T -> world PS -> Prop) :
  page_at w a = Some p -> as_page p = Some x -> Q x w -> wp (read a) Q w.
Proof. intros E Ex HQ. by eapply wp_ok; [apply (read_run w a p x)|]. Qed.

Lemma wp_load w a p (Q : page -> world PS -> Prop) : page_at w a = Some p -> Q p w -> wp (load a) Q w.
Proof. intros E HQ. by eapply wp_ok; [apply load_run|]. Qed.

(** A store to an owned, writable page. *)
Lemma wp_store_raw w U k a p :
  owns w U k -> a ∈ U -> writable w a = true ->
  wp (store_raw a p) (fun _ w' => owns w' U k /\ page_written U a p w w' /\
    globals w' = globals w /\ w_pa w' = w_pa w) w.
Proof.
  intros Ho Ha Hw. destruct (pa_inv_page _ _ _ _ Ho Ha) as ((l & E) & _).
  eapply wp_ok; [unfold store_raw; rewrite E, Hw; reflexivity|]. split_and!; [done| |done|done].
  intros b Hb. split; [|done]. unfold page_at. simpl.
  destruct (pa_inv_page _ _ _ _ Ho Hb) as ((lb & Eb) & _). rewrite Eb. simpl.
  case_decide as Hd.
  - subst b. rewrite E in Eb. injection Eb as ->. by rewrite lookup_insert_eq.
  - rewrite lookup_insert_ne; [done|]. intros <-. apply Hd.
    apply (pa_inv_inj _ _ _ _ _ Ho Hb Ha). by rewrite Eb, E.
Qed.

Lemma keeps_same U w s' :
  keeps_pages U (w_pa w) s' -> same_pages U w (set_w_pa s' w).
Proof.
  intros Hk b Hb. destruct (Hk b Hb) as [E1 E2]. unfold page_at, writable. simpl. by rewrite E1, E2.
Qed.

Lemma wp_getpage w U k flags :
  owns w U (S k) ->
  wp (getpage flags) (fun r w' => owns w' ({[r.1]} ∪ U) k /\ r.1 ∉ U /\ same_pages U w w' /\
    globals w' = globals w /\ w_file w' = w_file w /\ vm_of (w_pa w') !! r.1 = Some r.2 /\
    (Z.land flags PA_PROT_WRITE <> 0 -> writable w' r.1 = true)) w.
Proof.
  intros Ho. unfold getpage, on_pa. apply wp_zoom. eapply wp_mono; [by apply (pa_getpage_ok _ _ _ flags Ho)|].
  intros r s' (Ho' & Hr & Hvm & Hk & Hp). split_and!; [done|done|by apply keeps_same|done|done|done|].
  intros Hf. unfold writable. simpl. rewrite (Hp Hf). destruct (Z.eqb_spec (Z.land flags PA_PROT_WRITE) 0); [lia|done].
Qed.

Lemma wp_freepages w U k b :
  owns w U k -> b ∈ U ->
  wp (freepages b) (fun _ w' => owns w' (U ∖ {[b]}) (S k) /\ same_pages U w w' /\
    globals w' = globals w /\ w_file w' = w_file w) w.
Proof.
  intros Ho Hb. unfold freepages, on_pa. apply wp_zoom. eapply wp_mono; [by apply (pa_freepages_ok _ _ _ _ Ho Hb)|].
  intros [] s' (Ho' & Hk). split_and!; [done|by apply keeps_same|done|done].
Qed.

Lemma wp_mprotect w U k b flags :
  owns w U k -> b ∈ U ->
  wp (mprotect_page b flags) (fun _ w' => owns w' U k /\ globals w' = globals w /\
    (forall c, page_at w' c = page_at w c) /\
    (forall c, c <> b -> writable w' c = writable w c) /\
    writable w' b = negb (Z.land flags PA_PROT_WRITE =? 0)) w.
Proof.
  intros Ho Hb. unfold mprotect_page, on_pa. apply wp_zoom.
  eapply wp_mono; [by apply (pa_mprotect_ok _ _ _ _ flags Ho Hb)|].
  intros [] s' (Ho' & Hv & Hp). split_and!; [done|done| | |].
  - intros c. unfold page_at. simpl. by rewrite Hv.
  - intros c Hc. unfold writable. simpl. rewrite Hp. by rewrite lookup_insert_ne.
  - unfold writable. simpl. rewrite Hp. by rewrite lookup_insert_eq.
Qed.

(** ** Views

    A view gives, for every allocated page, its content, whether it is
    writable and its place in the file.  [sees w V k]: the world shows [V],
    and [k] more pages can be handed out without growing the file.  The rules
    below step a program through successive views. *)
Record pinfo := PInfo { pi_page : page; pi_writable : bool; pi_laddr : Z }.

Definition shows w (a : Z) (i : pinfo) : Prop :=
  page_at w a = Some (pi_page i) /\ writable w a = pi_writable i /\ vm_of (w_pa w) !! a = Some (pi_laddr i).

Record sees w (V : gmap Z pinfo) k : Prop := {
  sees_owns : owns w (dom V) k;
  sees_shows : forall a i, V !! a = Some i -> shows w a i;
}.
Implicit Types (V : gmap Z pinfo).

Lemma elem_of_view V a i : V !! a = Some i -> a ∈ dom V.
Proof. intros E. apply elem_of_dom. by eexists. Qed.

Lemma sees_aligned w V k a i : sees w V k -> V !! a = Some i ->
  a mod PAGE_SIZE = 0 /\ 0 < a /\ a + PAGE_SIZE + PAGE_SIZE <= 2 ^ 64.
Proof. intros [Ho _] E. eapply owned_aligned; [done|by eapply elem_of_view]. Qed.

Lemma dom_update V a i j : V !! a = Some i -> dom (<[a := j]> V) = dom V.
Proof. intros E. apply leibniz_equiv. rewrite dom_insert. apply elem_of_view in E. set_solver. Qed.

Lemma sees_store w V k a i p (Q : unit -> world PS -> Prop) :
  sees w V k -> V !! a = Some i -> pi_writable i = true ->
  (forall w', sees w' (<[a := PInfo p true (pi_laddr i)]> V) k -> globals w' = globals w -> Q tt w') ->
  wp (store_raw a p) Q w.
Proof.
  intros [Ho Hs] E Hw HQ. pose proof (elem_of_view _ _ _ E) as Ha. destruct (Hs _ _ E) as (_ & Ew & _).
  eapply wp_mono; [apply (wp_store_raw _ _ _ _ p Ho Ha); by rewrite Ew|].
  intros [] w' (Ho' & Hp & Hg & Hpa). apply HQ; [|done]. split; [by rewrite (dom_update _ _ _ _ E)|].
  intros b j Hb. assert (Hbd : b ∈ dom V).
  { apply elem_of_view in Hb. by rewrite (dom_update _ _ _ _ E) in Hb. }
  destruct (Hp b Hbd) as [Eb Wb]. unfold shows. rewrite Eb, Wb, Hpa.
  apply lookup_insert_Some in Hb as [[<- <-]|[Hne Hb]].
  - rewrite decide_True by done. destruct (Hs _ _ E) as (_ & ? & ?). simpl. split_and!; [done|by rewrite Ew|done].
  - rewrite decide_False by done. by apply Hs.
Qed.

Lemma same_shows w w' U a i :
  same_pages U w w' -> a ∈ U -> vm_of (w_pa w') !! a = vm_of (w_pa w) !! a -> shows w a i -> shows w' a i.
Proof. intros Hp Ha Hv (H1 & H2 & H3). destruct (Hp a Ha) as [E1 E2]. unfold shows. by rewrite E1, E2, Hv. Qed.

Lemma sees_getpage w V k flags (Q : Z * Z -> world PS -> Prop) :
  sees w V (S k) ->
  (forall a l p b w', V !! a = None -> 0 < a -> (Z.land flags PA_PROT_WRITE <> 0 -> b = true) ->
     sees w' (<[a := PInfo p b l]> V) k -> globals w' = globals w -> Q (a, l) w') ->
  wp (getpage flags) Q w.
Proof.
  intros [Ho Hs] HQ. unfold getpage, on_pa. apply wp_zoom.
  eapply wp_mono; [by apply (pa_getpage_ok _ _ _ flags Ho)|].
  intros [a l] s' (Ho' & Ha & Hvm & Hk & Hw). simpl in *. set (w' := set_w_pa s' w).
  assert (Ho2 : owns w' ({[a]} ∪ dom V) k) by done.
  destruct (owned_aligned _ _ _ a Ho2) as (_ & Hpos & _); [set_solver|].
  destruct (owned_page _ _ _ a Ho2) as [p Hp]; [set_solver|].
  apply (HQ a l p (writable w' a)); [by apply not_elem_of_dom|done| | |done].
  { intros Hf. unfold writable, w'. simpl. rewrite (Hw Hf). by destruct (Z.eqb_spec (Z.land flags PA_PROT_WRITE) 0). }
  split; [by rewrite dom_insert_L|]. intros b j [[<- <-]|[Hne Hb]]%lookup_insert_Some; [done|].
  pose proof (elem_of_view _ _ _ Hb) as Hbd. eapply same_shows; [by apply keeps_same|done| |by apply Hs].
  by destruct (Hk b Hbd).
Qed.

Lemma wp_freepages_view w V k a i (Q : unit -> world PS -> Prop) :
  sees w V k -> V !! a = Some i ->
  (forall w', sees w' (delete a V) (S k) -> globals w' = globals w -> Q tt w') ->
  wp (freepages a) Q w.
Proof.
  intros [Ho Hs] E HQ. pose proof (elem_of_view _ _ _ E) as Ha. unfold freepages, on_pa. apply wp_zoom.
  eapply wp_mono; [by apply (pa_freepages_ok _ _ _ _ Ho Ha)|].
  intros [] s' (Ho' & Hk). apply HQ; [|done]. split; [by rewrite dom_delete_L|].
  intros b j [Hne Hb]%lookup_delete_Some. pose proof (elem_of_view _ _ _ Hb) as Hbd.
  eapply same_shows; [by apply keeps_same|done| |by apply Hs]. by destruct (Hk b Hbd).
Qed.

Lemma sees_mprotect w V k a i flags (Q : unit -> world PS -> Prop) :
  sees w V k -> V !! a = Some i ->
  (forall w', sees w' (<[a := PInfo (pi_page i) (negb (Z.land flags PA_PROT_WRITE =? 0)) (pi_laddr i)]> V) k ->
     globals w' = globals w -> Q tt w') ->
  wp (mprotect_page a flags) Q w.
Proof.
  intros [Ho Hs] E HQ. pose proof (elem_of_view _ _ _ E) as Ha. unfold mprotect_page, on_pa. apply wp_zoom.
  eapply wp_mono; [by apply (pa_mprotect_ok _ _ _ _ flags Ho Ha)|].
  intros [] s' (Ho' & Hv & Hp). apply HQ; [|done]. split; [by rewrite (dom_update _ _ _ _ E)|].
  intros b j [[<- <-]|[Hne Hb]]%lookup_insert_Some.
  - destruct (Hs _ _ E) as (Ep & _ & El). unfold shows, page_at, writable. simpl. rewrite Hv, Hp, lookup_insert_eq.
    by split_and!.
  - destruct (Hs _ _ Hb) as (Ep & Ew & El). unfold shows, page_at, writable. simpl.
    rewrite Hv, Hp, lookup_insert_ne by done. by split_and!.
Qed.

Lemma sees_stat f w V k (Q : unit -> world PS -> Prop) :
  sees w V k -> (forall w', sees w' V k -> globals w' = globals w -> Q tt w') -> wp (w_stat f) Q w.
Proof.
  intros [Ho Hs] HQ. unfold w_stat, on_pa. apply wp_zoom. eapply wp_mono; [by apply (pa_stat_ok _ _ _ f Ho)|].
  intros [] s' (Ho' & Hv & Hp). apply HQ; [|done]. split; [done|]. intros b j Hb.
  destruct (Hs _ _ Hb) as (Ep & Ew & El). unfold shows, page_at, writable. simpl. by rewrite Hv, Hp.
Qed.

Lemma globals_cont w w' : globals w' = globals w -> CONTAINERS w' = CONTAINERS w.
Proof. unfold globals. congruence. Qed.

Lemma globals_mode w w' : globals w' = globals w -> copynswap_enabled w' = copynswap_enabled w.
Proof. unfold globals. congruence. Qed.
Lemma globals_fix w w' : globals w' = globals w -> fixptrs_enabled w' = fixptrs_enabled w.
Proof. unfold globals. congruence. Qed.
End laws.

(** ** The rules for steps

    [sees] says what the pages in use show.  [sees0] adds that nothing else
    of the file was ever written, so that a new page is zero.  The rules to
    step through a program hold for both, by the laws of this class. *)
Class Stepping {PS} `{PageAllocatorLaws PS} (SV : world PS -> gmap Z pinfo -> nat -> Prop) := {
  st_sees : forall w V k, SV w V k -> sees w V k;
  wp_store_view : forall w V k a i p (Q : unit -> world PS -> Prop), SV w V k -> V !! a = Some i -> pi_writable i = true ->
    (forall w', SV w' (<[a := PInfo p true (pi_laddr i)]> V) k -> globals w' = globals w -> Q tt w') -> wp (store_raw a p) Q w;
  wp_getpage_view : forall w V k flags (Q : Z * Z -> world PS -> Prop), SV w V (S k) ->
    (forall a l p b w', V !! a = None -> 0 < a -> (Z.land flags PA_PROT_WRITE <> 0 -> b = true) ->
       SV w' (<[a := PInfo p b l]> V) k -> globals w' = globals w -> Q (a, l) w') -> wp (getpage flags) Q w;
  wp_mprotect_view : forall w V k a i flags (Q : unit -> world PS -> Prop), SV w V k -> V !! a = Some i ->
    (forall w', SV w' (<[a := PInfo (pi_page i) (negb (Z.land flags PA_PROT_WRITE =? 0)) (pi_laddr i)]> V) k ->
       globals w' = globals w -> Q tt w') -> wp (mprotect_page a flags) Q w;
  wp_stat_view : forall f w V k (Q : unit -> world PS -> Prop), SV w V k ->
    (forall w', SV w' V k -> globals w' = globals w -> Q tt w') -> wp (w_stat f) Q w;
}.

(** *** A file that is zero outside of the pages in use *)
Section unwritten.
Context {PS : Type} `{PL : PageAllocatorLaws PS}.
Implicit Types (w : world PS) (V : gmap Z pinfo) (k : nat).

Definition unwritten w V : Prop := forall l, is_Some (w_file w !! l) -> exists a i, V !! a = Some i /\ pi_laddr i = l.

Record sees0 w V (k : nat) : Prop := { s0_sees : sees w V k; s0_unwritten : unwritten w V }.

Lemma wp_also {A} (m : M (world PS) A) (Q R : A -> world PS -> Prop) w :
  wp m Q w -> (forall x w', m w = Ok x w' -> R x w') -> wp m (fun x w' => Q x w' /\ R x w') w.
Proof. unfold wp. destruct (m w) as [x w'|]; [|done]. intros HQ HR. split; [done|by apply HR]. Qed.

Lemma on_pa_file {A} (m : M PS A) w x w' : on_pa m w = Ok x w' -> w_file w' = w_file w.
Proof. unfold on_pa, zoom. destruct (m (w_pa w)); [|done]. by intros [= <- <-]. Qed.

Lemma unwritten_file w w' V V' : unwritten w V -> w_file w' = w_file w ->
  (forall a i, V !! a = Some i -> exists j, V' !! a = Some j /\ pi_laddr j = pi_laddr i) -> unwritten w' V'.
Proof.
  intros Hu Ef HV l Hl. rewrite Ef in Hl. destruct (Hu l Hl) as (a & i & E & <-). destruct (HV a i E) as (j & Ej & El). by exists a, j.
Qed.

Lemma sees_laddr_inj w V k a b i j : sees w V k -> V !! a = Some i -> V !! b = Some j -> pi_laddr i = pi_laddr j -> a = b.
Proof.
  intros [Ho Hs] Ea Eb E. apply (pa_inv_inj _ _ _ _ _ Ho); [by eapply elem_of_view..|].
  destruct (Hs _ _ Ea) as (_ & _ & E1), (Hs _ _ Eb) as (_ & _ & E2). by rewrite E1, E2, E.
Qed.

(** A step of the allocator on a world of this kind. *)
Lemma wp_on_pa0 {A} (m : M PS A) w V k (Q R : A -> world PS -> Prop) :
  sees0 w V k -> wp (on_pa m) R w -> (forall x w', R x w' -> w_file w' = w_file w -> Q x w') -> wp (on_pa m) Q w.
Proof.
  intros _ HR HQ. eapply wp_mono; [eapply wp_also; [exact HR|intros x w'; apply on_pa_file]|]. intros x w' [H1 H2]. by apply HQ.
Qed.

Lemma sees0_store w V k a i p (Q : unit -> world PS -> Prop) : sees0 w V k -> V !! a = Some i -> pi_writable i = true ->
  (forall w', sees0 w' (<[a := PInfo p true (pi_laddr i)]> V) k -> globals w' = globals w -> Q tt w') -> wp (store_raw a p) Q w.
Proof.
  intros [Hs Hu] E Hw HQ. destruct (sees_shows _ _ _ Hs _ _ E) as (_ & Ew & El).
  eapply wp_mono; [eapply wp_also with (R := fun _ w' => w_file w' = <[pi_laddr i := p]> (w_file w));
    [eapply (sees_store w V k a i p (fun _ w' => sees w' (<[a := PInfo p true (pi_laddr i)]> V) k /\ globals w' = globals w)); [done|done|done|by split]|]|].
  - intros [] w'. unfold store_raw. rewrite El, Ew, Hw. by intros [= <-].
  - intros [] w' [[Hs' Hg] Ef]. apply HQ; [|done]. split; [done|]. intros l Hl. rewrite Ef in Hl.
    destruct (decide (l = pi_laddr i)) as [->|Hne]; [exists a; eexists; split; [apply lookup_insert_eq|done]|].
    rewrite lookup_insert_ne in Hl by done. destruct (Hu l Hl) as (b & j & Eb & Ej).
    destruct (decide (b = a)) as [->|]; [congruence|]. exists b, j. by rewrite lookup_insert_ne.
Qed.

(** A new page is zero. *)
Lemma wp_getpage_zero w V k flags (Q : Z * Z -> world PS -> Prop) :
  sees0 w V (S k) ->
  (forall a l b w', V !! a = None -> 0 < a -> (Z.land flags PA_PROT_WRITE <> 0 -> b = true) ->
     (forall c j, V !! c = Some j -> pi_laddr j <> l) ->
     sees0 w' (<[a := PInfo PgZero b l]> V) k -> globals w' = globals w -> Q (a, l) w') ->
  wp (getpage flags) Q w.
Proof.
  intros [Hs Hu] HQ. eapply (wp_on_pa0 _ w V (S k) _ (fun r w' => exists p b, V !! r.1 = None /\ 0 < r.1 /\
     (Z.land flags PA_PROT_WRITE <> 0 -> b = true) /\ sees w' (<[r.1 := PInfo p b r.2]> V) k /\ globals w' = globals w)); [by split| |].
  - apply (sees_getpage w V k flags); [done|]. intros a l p b w' Hna Hpos Hb Hs' Hg. by exists p, b.
  - intros [a l] w' (p & b & Hna & Hpos & Hb & Hs' & Hg) Ef. cbn [fst snd] in *.
    assert (Hnew : forall c j, V !! c = Some j -> pi_laddr j <> l).
    { intros c j Ec El. assert (c = a) as ->; [|congruence].
      eapply (sees_laddr_inj _ _ _ c a j (PInfo p b l) Hs'); [rewrite lookup_insert_ne by congruence; done|apply lookup_insert_eq|done]. }
    destruct (sees_shows _ _ _ Hs' a (PInfo p b l)) as (Ep & _ & El); [apply lookup_insert_eq|]. cbn [pi_page pi_laddr] in *.
    unfold page_at in Ep. rewrite El in Ep. simpl in Ep. rewrite Ef in Ep.
    destruct (w_file w !! l) as [q|] eqn:Eq.
    { destruct (Hu l) as (c & j & Ec & Ej); [by eexists|]. by destruct (Hnew c j Ec). }
    simpl in Ep. injection Ep as <-. apply (HQ a l b); [done|done|done|done| |done]. split; [done|].
    eapply unwritten_file; [done|done|]. intros c j Ec. exists j. rewrite lookup_insert_ne by congruence. done.
Qed.

Lemma sees0_mprotect w V k a i flags (Q : unit -> world PS -> Prop) : sees0 w V k -> V !! a = Some i ->
  (forall w', sees0 w' (<[a := PInfo (pi_page i) (negb (Z.land flags PA_PROT_WRITE =? 0)) (pi_laddr i)]> V) k ->
     globals w' = globals w -> Q tt w') -> wp (mprotect_page a flags) Q w.
Proof.
  intros [Hs Hu] E HQ. eapply (wp_on_pa0 _ w V k); [by split| |].
  - eapply (sees_mprotect w V k a i flags (fun _ w' => sees w' (<[a := PInfo (pi_page i) (negb (Z.land flags PA_PROT_WRITE =? 0)) (pi_laddr i)]> V) k /\
      globals w' = globals w)); [done|done|by split].
  - intros [] w' [Hs' Hg] Ef. apply HQ; [|done]. split; [done|]. eapply unwritten_file; [done|done|]. intros c j Ec.
    destruct (decide (c = a)) as [->|]; [|exists j; by rewrite lookup_insert_ne]. assert (j = i) as -> by congruence.
    eexists. by rewrite lookup_insert_eq.
Qed.

Lemma sees0_stat f w V k (Q : unit -> world PS -> Prop) : sees0 w V k ->
  (forall w', sees0 w' V k -> globals w' = globals w -> Q tt w') -> wp (w_stat f) Q w.
Proof.
  intros [Hs Hu] HQ. eapply (wp_on_pa0 _ w V k); [by split| |].
  - eapply (sees_stat f w V k (fun _ w' => sees w' V k /\ globals w' = globals w)); [done|by split].
  - intros [] w' [Hs' Hg] Ef. apply HQ; [|done]. split; [done|]. eapply unwritten_file; [done|done|]. intros c j Ec. by exists j.
Qed.

#[export] Instance sees0_stepping : Stepping sees0 | 10.
Proof.
  split; [by intros ??? []|exact sees0_store| |exact sees0_mprotect|exact sees0_stat].
  intros w V k flags Q Hs HQ. eapply wp_getpage_zero; [exact Hs|]. intros a l b w' H1 H2 H3 _. by apply HQ.
Qed.

#[export] Instance sees_stepping : Stepping sees | 0.
Proof. split; [done|exact sees_store|exact sees_getpage|exact sees_mprotect|exact sees_stat]. Qed.
End unwritten.

Section stepping.
Context {PS : Type} `{PL : PageAllocatorLaws PS} {SV : world PS -> gmap Z pinfo -> nat -> Prop} {HSV : Stepping SV}.
Implicit Types (w : world PS) (V : gmap Z pinfo) (k : nat).

Lemma wp_read_view {T} `{PageType T} w V k a i (x : T) (Q : T -> world PS -> Prop) :
  SV w V k -> V !! a = Some i -> as_page (pi_page i) = Some x -> Q x w -> wp (read a) Q w.
Proof. intros [_ Hs]%st_sees E Ex HQ. destruct (Hs _ _ E) as (Ep & _). by eapply wp_read. Qed.

Lemma wp_load_view w V k a i (Q : page -> world PS -> Prop) :
  SV w V k -> V !! a = Some i -> Q (pi_page i) w -> wp (load a) Q w.
Proof. intros [_ Hs]%st_sees E HQ. destruct (Hs _ _ E) as (Ep & _). by eapply wp_load. Qed.

(** A step that only touches the statistics. *)
Definition quiet_step (m : M (world PS) unit) : Prop :=
  forall w V k (Q : unit -> world PS -> Prop), SV w V k ->
    (forall w', SV w' V k -> globals w' = globals w -> Q tt w') -> wp m Q w.

Lemma quiet_stat f : quiet_step (w_stat f).
Proof. intros w V k Q Hs HQ. by eapply wp_stat_view. Qed.

Lemma quiet_forM {A} (ls : list A) m : quiet_step m -> quiet_step (forM ls (fun _ => m)).
Proof.
  intros Hm. induction ls as [|x ls IH]; intros w V k Q Hs HQ; simpl.
  - apply wp_ret. by apply HQ.
  - apply wp_bind. apply (Hm w V k); [done|]. intros w' Hs' Hg. apply (IH w' V k); [done|].
    intros w'' Hs'' Hg'. apply HQ; [done|congruence].
Qed.

Lemma quiet_flush a k w V i (Q : unit -> world PS -> Prop) :
  SV w V k -> V !! a = Some i ->
  (forall w', SV w' V k -> globals w' = globals w -> Q tt w') -> wp (flush_segment a PAGE_SIZE) Q w.
Proof.
  intros Hs E HQ. destruct (sees_aligned _ _ _ _ _ (st_sees _ _ _ Hs) E) as (_ & ? & Hb).
  destruct (flush_memsegment_spec a PAGE_SIZE) as (ls & El & _);
    [lia|done|unfold PAGE_SIZE, CACHE_LINE_SIZE_MASK, CACHE_LINE_SIZE in *; lia|].
  unfold flush_segment. rewrite El. apply wp_bind, wp_ret. by apply (quiet_forM ls _ (quiet_stat _) w V k).
Qed.

End stepping.

(** [malloc] moves nothing. *)
Section malloc.
Context {PS : Type} `{AM : AllocatorMalloc PS}.
Implicit Types (w : world PS).

Definition brk w : Z := p_brk (pa_proc (w_pa w)).

Lemma wp_malloc_view w V k (Q : Z -> world PS -> Prop) :
  sees w V k ->
  (forall w', sees w' V k -> globals w' = globals w -> brk w' = brk w + 1 -> Q (brk w) w') -> wp w_malloc Q w.
Proof.
  intros [Ho Hs] HQ. unfold w_malloc, on_pa. apply wp_zoom.
  destruct (pa_malloc_ok (w_pa w)) as (s' & E & Ep & Hinv & _). eapply wp_ok; [exact E|].
  apply HQ; [|done|unfold brk; simpl; by rewrite Ep].
  split; [by apply Hinv|]. intros a i Ha. destruct (Hs a i Ha) as (H1 & H2 & H3).
  unfold shows, page_at, writable, vm_of, prot_of in *. simpl. by rewrite Ep.
Qed.
End malloc.

(** Look up a page of a view that is a chain of updates and removals. *)
Ltac vlook := repeat (rewrite lookup_insert_eq || (rewrite lookup_insert_ne by (let E := fresh in intros E; congruence)) ||
    (rewrite lookup_delete_ne by (let E := fresh in intros E; congruence)));
  try eassumption; try reflexivity.

(** ** Addresses of entries *)
Lemma page_of_byte m a : m mod PAGE_SIZE = 0 -> 0 < m -> m <= a < m + PAGE_SIZE -> 0 <= a < 2 ^ 64 -> itop (ROUND_DWNPG (ptoi a)) = m /\ ROUND_DWNPG (ptoi a) = m.
Proof.
  intros Hm H0 Ha Hr. unfold itop, ptoi, u64. rewrite (wrap_id _ a) by done. rewrite ROUND_DWNPG_eq.
  assert (E : a mod PAGE_SIZE = a - m).
  { unfold PAGE_SIZE in *. assert (Hdm : m = 4096 * (m / 4096) + m mod 4096) by (apply Z.div_mod; lia). symmetry. apply Z.mod_unique_pos with (m / 4096); lia. }
  rewrite E. replace (a - (a - m)) with m by lia. split; [|done]. apply wrap_id. unfold in_u. lia.
Qed.


Lemma se_addr_decode sb i :
  sb mod PAGE_SIZE = 0 -> 0 < sb -> sb + PAGE_SIZE <= 2 ^ 64 -> 0 <= i < SLAB_BUCKET_ENTRIES ->
  se_page (se_addr sb i) = sb /\ SLAB_ENTRY_INDEX (se_addr sb i) = i.
Proof.
  intros Hal Hpos Htop Hi. change SLAB_BUCKET_ENTRIES with 28 in Hi.
  assert (Hr : sb <= se_addr sb i < sb + PAGE_SIZE).
  { unfold se_addr, se_offset, sizeof_slab_entry, PAGE_SIZE. lia. }
  destruct (page_of_byte sb (se_addr sb i)) as [_ E]; try done; [lia|].
  unfold se_page, SLAB_ENTRY_INDEX. rewrite E. split; [done|].
  unfold ptoi, u64. rewrite wrap_id by (unfold in_u; lia).
  unfold se_addr, se_offset, sizeof_slab_entry in *. change (4 + 4 + 24 + 24 + 24 + 24 + 8 + 32) with 144 in *.
  symmetry. apply Z.div_unique_pos with 8; lia.
Qed.
