(* ===== verification/Demo.v ===== *)
(** * A concrete world, used where a theorem is applied

    A new container file of 64 pages under the fixed mapper, with six pages
    allocated: the container, a directory, an outer and an inner node, a
    bucket and a data page.  Their contents are given as functions of the six
    addresses and places in the file.  The data page is protected, as it is
    after a checkpoint. *)
From Stdlib Require Import ZArith Lia.
From stdpp Require Import base numbers gmap option list.
From S2P Require Import Prelude Macros Queue Process RBTree FixedMapper PageAlloc SlabLayout World.
Open Scope Z_scope.

Definition demo_env : env := Env None (Some (PAGE_SIZE * 64)) None None.

Lemma demo_init : wp (fixed_mapper_init demo_env) (fun _ s' => fm_inv s' ∅ 64) (blank (2 ^ 40)).
Proof.
  assert (Hi : wp (fixed_mapper_init demo_env) (fun _ s' => exists ps, fm_wf s' TERABYTE 64 ps (seqZ 0 64)) (blank (2 ^ 40))).
  { assert (E : init_pages demo_env = 64) by (vm_compute; reflexivity).
    assert (E2 : map_hint (p_maps (fs_proc (blank (2 ^ 40)))) (PAGE_SIZE * 64) = TERABYTE) by (vm_compute; reflexivity).
    pose proof (init_run (blank (2 ^ 40)) demo_env) as Hi. rewrite E in Hi. cbv zeta in Hi. rewrite E2 in Hi. apply Hi.
    - split_and!; reflexivity.
    - split; [vm_compute; discriminate|vm_compute; reflexivity].
    - vm_compute. discriminate.
    - apply sorted_ranges_nil.
    - vm_compute. discriminate. }
  eapply wp_mono; [exact Hi|]. intros _ s (ps & Hwf). exists TERABYTE, 64, ps, (seqZ 0 64).
  split_and!; [exact Hwf|reflexivity|vm_compute; discriminate|apply NoDup_seqZ|by vm_compute| |].
  - intros f Hf%elem_of_seqZ. lia.
  - intros b Hb. exact (match not_elem_of_empty b Hb with end).
Qed.

(** The places of the first pages, of which the container has place 0; one
    more page is taken. *)
Definition first_places : M fmst (list Z) :=
  let! c := page_allocator_getpage PA_PROT_WRITE in
  let! d := page_allocator_getpage PA_PROT_WRITE in
  let! o := page_allocator_getpage PA_PROT_WRITE in
  let! i := page_allocator_getpage PA_PROT_WRITE in
  let! b := page_allocator_getpage PA_PROT_WRITE in
  let! m := page_allocator_getpage PA_PROT_WRITE in
  ret [c.2; d.2; o.2; i.2; b.2].

(** They are different, and the file is mapped at 1 TB. *)
Definition mapped_at_hint (s : fmst) : bool :=
  (fm_start_addr (fs_fm s) =? TERABYTE) && (fm_file_size (fs_fm s) =? PAGE_SIZE * 64) && (p_file (fs_proc s) =? PAGE_SIZE * 64).
Definition places_ok (s : fmst) : bool :=
  match first_places s with
  | Ok (c :: l) s' => (c =? CONTAINER_LIMA_ADDRESS) && forallb (fun x => negb (x =? 0)) l && mapped_at_hint s'
  | _ => false
  end.

Lemma demo_allocator : exists s : fmst, fm_inv s ∅ 64 /\ places_ok s = true.
Proof.
  destruct (wp_check _ _ (fun _ s => places_ok s) _ demo_init) as (_ & s & Hs & E); [vm_compute; reflexivity|]. by exists s.
Qed.

Lemma bind_inv {S A B} (m : M S A) (k : A -> M S B) s x s' :
  bind m k s = Ok x s' -> exists y s1, m s = Ok y s1 /\ k y s1 = Ok x s'.
Proof. unfold bind. destruct (m s) as [y s1|]; [|done]. intros E. by exists y, s1. Qed.

Lemma getpage_inv flags (w w' : world fmst) r : getpage flags w = Ok r w' -> page_allocator_getpage flags (w_pa w) = Ok r (w_pa w').
Proof.
  unfold getpage, on_pa, zoom. destruct (page_allocator_getpage flags (w_pa w)) as [r1 s1|]; [|done]. by intros [= -> <-].
Qed.

(** The six pages: address and place in the file. *)
Record demo_pages := DemoPages {
  dp_c : Z * Z; dp_d : Z * Z; dp_o : Z * Z; dp_i : Z * Z; dp_b : Z * Z; dp_m : Z * Z;
}.

Section demo.
Context (mc md mo mi mb mm : demo_pages -> page).

Definition demo_setup : M (world fmst) demo_pages :=
  let! c := getpage PA_PROT_WRITE in
  let! d := getpage PA_PROT_WRITE in
  let! o := getpage PA_PROT_WRITE in
  let! i := getpage PA_PROT_WRITE in
  let! b := getpage PA_PROT_WRITE in
  let! m := getpage PA_PROT_WRITE in
  let p := DemoPages c d o i b m in
  store_raw c.1 (mc p) ;;; store_raw d.1 (md p) ;;; store_raw o.1 (mo p) ;;; store_raw i.1 (mi p) ;;; store_raw b.1 (mb p) ;;; store_raw m.1 (mm p) ;;; 
  mprotect_page m.1 PA_PROT_READ ;;;
  modify (set_CONTAINERS (Some c.1)) ;;;
  ret p.

Definition demo_view (p : demo_pages) : gmap Z pinfo :=
  <[(dp_m p).1 := PInfo (mm p) false (dp_m p).2]>
  (  <[(dp_b p).1 := PInfo (mb p) true (dp_b p).2]>
  (  <[(dp_i p).1 := PInfo (mi p) true (dp_i p).2]>
  (  <[(dp_o p).1 := PInfo (mo p) true (dp_o p).2]>
  (  <[(dp_d p).1 := PInfo (md p) true (dp_d p).2]>
  (  <[(dp_c p).1 := PInfo (mc p) true (dp_c p).2]> ∅))))).

Record demo_ok (w : world fmst) (p : demo_pages) : Prop := {
  do_sees : sees w (demo_view p) 58;
  do_cont : CONTAINERS w = Some (dp_c p).1;
  do_mode : copynswap_enabled w = false;
  do_fix : fixptrs_enabled w = true;
  do_nodup : NoDup [(dp_c p).1; (dp_d p).1; (dp_o p).1; (dp_i p).1; (dp_b p).1; (dp_m p).1];
  do_data : (dp_m p).1 mod PAGE_SIZE = 0 /\ 0 < (dp_m p).1 /\ (dp_m p).1 + PAGE_SIZE + PAGE_SIZE <= 2 ^ 64;
  do_bucket : (dp_b p).1 mod PAGE_SIZE = 0 /\ 0 < (dp_b p).1 /\ (dp_b p).1 + PAGE_SIZE + PAGE_SIZE <= 2 ^ 64;
  do_places : (dp_o p).2 <> 0 /\ (dp_i p).2 <> 0 /\ (dp_b p).2 <> 0;
  do_mapper : (dp_c p).2 = CONTAINER_LIMA_ADDRESS /\ mapped_at_hint (w_pa w) = true;
}.

(** The mapper, and the length of the file. *)
Definition mapper_of (w : world fmst) := (fs_fm (w_pa w), p_file (fs_proc (w_pa w))).

Lemma store_raw_mapper (w w' : world fmst) a x : store_raw a x w = Ok tt w' -> mapper_of w' = mapper_of w.
Proof. unfold store_raw. destruct (vm_of (w_pa w) !! a); [|done]. destruct (writable w a); [|done]. by intros [= <-]. Qed.

Lemma mprotect_file p p' a flags : page_allocator_mprotect_generic a PAGE_SIZE flags p = Ok tt p' -> p_file p' = p_file p.
Proof.
  unfold page_allocator_mprotect_generic, stat, modify, bind, mprotect. destruct (_ && _); simpl; [|done]. by intros [= <-].
Qed.

Lemma mprotect_mapper (w w' : world fmst) a flags : mprotect_page a flags w = Ok tt w' -> mapper_of w' = mapper_of w.
Proof.
  unfold mprotect_page, on_pa, zoom, page_allocator_mprotect. simpl. unfold on_proc, zoom.
  destruct (page_allocator_mprotect_generic a PAGE_SIZE flags (fs_proc (w_pa w))) as [[] x|] eqn:E; [|done].
  intros [= <-]. unfold mapper_of. simpl. by rewrite (mprotect_file _ _ _ _ E).
Qed.

Lemma demo_places w p w' : demo_setup w = Ok p w' -> places_ok (w_pa w) = true ->
  ((dp_o p).2 <> 0 /\ (dp_i p).2 <> 0 /\ (dp_b p).2 <> 0) /\ (dp_c p).2 = CONTAINER_LIMA_ADDRESS /\ mapped_at_hint (w_pa w') = true.
Proof.
  unfold demo_setup, places_ok, first_places. intros E.
  apply bind_inv in E as (c & w1 & E1 & E). apply bind_inv in E as (d & w2 & E2 & E). apply bind_inv in E as (o & w3 & E3 & E).
  apply bind_inv in E as (i & w4 & E4 & E). apply bind_inv in E as (b & w5 & E5 & E). apply bind_inv in E as (m & w6 & E6 & E).
  do 6 (apply bind_inv in E as ([] & ? & ?%store_raw_mapper & E)). apply bind_inv in E as ([] & w13 & E13%mprotect_mapper & E).
  injection E as <- <-. apply getpage_inv in E1, E2, E3, E4, E5, E6.
  unfold bind. rewrite E1, E2, E3, E4, E5, E6. cbn [ret forallb]. unfold mapped_at_hint. cbn [set_CONTAINERS w_pa dp_c dp_o dp_i dp_b].
  assert (Em : mapper_of w13 = mapper_of w6) by congruence. injection Em as -> ->.
  rewrite !andb_true_iff, !negb_true_iff, !Z.eqb_neq, !Z.eqb_eq. tauto.
Qed.

Lemma sees_globals (w w' : world fmst) V k :
  sees w V k -> w_pa w' = w_pa w -> w_file w' = w_file w -> sees w' V k.
Proof.
  intros [Ho Hs] E1 E2. split; [unfold owns; by rewrite E1|]. intros a j Ha.
  destruct (Hs a j Ha) as (P1 & P2 & P3). unfold shows, page_at, writable in *. by rewrite E1, E2.
Qed.

Lemma demo_world : exists w p, demo_ok w p.
Proof.
  destruct demo_allocator as (s & Hs0 & Hpl). pose (w := World s ∅ ∅ None 0 0 ∅ true false : world fmst).
  assert (Hs : sees w ∅ 64) by (split; [by unfold owns; rewrite dom_empty_L|done]).
  assert (H : wp demo_setup (fun p w' => ((dp_o p).2 <> 0 /\ (dp_i p).2 <> 0 /\ (dp_b p).2 <> 0) /\
    (dp_c p).2 = CONTAINER_LIMA_ADDRESS /\ mapped_at_hint (w_pa w') = true -> demo_ok w' p) w).
  { unfold demo_setup.
    apply wp_bind. eapply wp_getpage_view; [exact Hs|]. intros c lc p1 b1 w1 Hnc _ Hw1 Hs1 Hg1. rewrite Hw1 in Hs1 by done.
    apply wp_bind. eapply wp_getpage_view; [exact Hs1|]. intros d ld p2 b2 w2 Hnd _ Hw2 Hs2 Hg2. rewrite Hw2 in Hs2 by done.
    apply wp_bind. eapply wp_getpage_view; [exact Hs2|]. intros o lo p3 b3 w3 Hno _ Hw3 Hs3 Hg3. rewrite Hw3 in Hs3 by done.
    apply wp_bind. eapply wp_getpage_view; [exact Hs3|]. intros i li p4 b4 w4 Hni _ Hw4 Hs4 Hg4. rewrite Hw4 in Hs4 by done.
    apply wp_bind. eapply wp_getpage_view; [exact Hs4|]. intros b lb p5 b5 w5 Hnb _ Hw5 Hs5 Hg5. rewrite Hw5 in Hs5 by done.
    apply wp_bind. eapply wp_getpage_view; [exact Hs5|]. intros m lm p6 b6 w6 Hnm _ Hw6 Hs6 Hg6. rewrite Hw6 in Hs6 by done.
    repeat match goal with E : <[_:=_]> _ !! _ = None |- _ => apply lookup_insert_None in E as [? ?] end.
    assert (Halm : m mod PAGE_SIZE = 0 /\ 0 < m /\ m + PAGE_SIZE + PAGE_SIZE <= 2 ^ 64)
      by (eapply sees_aligned; [exact Hs6|by vlook]).
    assert (Halb : b mod PAGE_SIZE = 0 /\ 0 < b /\ b + PAGE_SIZE + PAGE_SIZE <= 2 ^ 64)
      by (eapply sees_aligned; [exact Hs6|by vlook]).
    cbn [fst snd]. set (p := DemoPages (c, lc) (d, ld) (o, lo) (i, li) (b, lb) (m, lm)).
    apply wp_bind. eapply wp_store_view; [exact Hs6|by vlook|done|]. intros w7 Hs7 Hg7.
    apply wp_bind. eapply wp_store_view; [exact Hs7|by vlook|done|]. intros w8 Hs8 Hg8.
    apply wp_bind. eapply wp_store_view; [exact Hs8|by vlook|done|]. intros w9 Hs9 Hg9.
    apply wp_bind. eapply wp_store_view; [exact Hs9|by vlook|done|]. intros w10 Hs10 Hg10.
    apply wp_bind. eapply wp_store_view; [exact Hs10|by vlook|done|]. intros w11 Hs11 Hg11.
    apply wp_bind. eapply wp_store_view; [exact Hs11|by vlook|done|]. intros w12 Hs12 Hg12.
    apply wp_bind. eapply wp_mprotect_view; [exact Hs12|by vlook|]. intros w13 Hs13 Hg13.
    apply wp_bind, wp_modify, wp_ret.
    assert (Hv : demo_view p = <[m := PInfo (mm p) false lm]> (<[m := PInfo (mm p) true lm]> (<[b := PInfo (mb p) true lb]> (<[i := PInfo (mi p) true li]> (<[o := PInfo (mo p) true lo]> (<[d := PInfo (md p) true ld]> (<[c := PInfo (mc p) true lc]> (<[m := PInfo p6 true lm]> (<[b := PInfo p5 true lb]> (<[i := PInfo p4 true li]> (<[o := PInfo p3 true lo]> (<[d := PInfo p2 true ld]> (<[c := PInfo p1 true lc]> ∅))))))))))))).
    { unfold demo_view. cbn [dp_c dp_d dp_o dp_i dp_b dp_m fst snd p]. apply map_eq. intros x.
      destruct (decide (x = m)) as [->|?]; [by vlook|].
      destruct (decide (x = b)) as [->|?]; [by vlook|].
      destruct (decide (x = i)) as [->|?]; [by vlook|].
      destruct (decide (x = o)) as [->|?]; [by vlook|].
      destruct (decide (x = d)) as [->|?]; [by vlook|].
      destruct (decide (x = c)) as [->|?]; [by vlook|].
      rewrite !lookup_insert_ne by done. done. }
    intros [Hplaces Hmapper]. split.
    - eapply (sees_globals w13); [|done|done]. rewrite Hv. exact Hs13.
    - done.
    - simpl. assert (E : globals w13 = globals w) by congruence. apply globals_mode in E. exact E.
    - simpl. assert (E : globals w13 = globals w) by congruence. apply globals_fix in E. exact E.
    - simpl. rewrite !NoDup_cons, !not_elem_of_cons. split_and!; try done; try (apply not_elem_of_nil); try constructor; congruence.
    - exact Halm.
    - exact Halb.
    - exact Hplaces.
    - exact Hmapper. }
  apply wp_run in H as (p & w' & E & H). exists w', p. apply H. by eapply demo_places.
Qed.
End demo.
