(* ===== verification/Snapshot.v ===== *)
(** * Copy on write: [src/snapshot.c]

    [handle_memory_update] is the SIGSEGV handler: a write to a protected
    data page copies the page into a new one, which becomes the snapshot, and
    makes the page writable.  [store] is a store instruction of the program:
    it faults on a page without write permission, runs the handler and is
    executed again.  Inside the handler a second fault kills the process,
    which is what [write_raw] does.

    Buckets, inner nodes, outer nodes and the directory are copied before
    they change, not on a fault. *)
From Stdlib Require Import ZArith Lia.
From stdpp Require Import base numbers gmap option list.
From S2P Require Import Prelude Macros Bitstring Vector Queue Process RBTree FixedMapper PageAlloc.
From S2P Require Import SlabLayout World Demo.
Open Scope Z_scope.

(** ** References in the arrays of a node *)
Definition node_set_current (n : slab_node) (i : Z) (r : node_ref) : option slab_node :=
  l ← zset (n_current n) i r; Some (SlabNode (n_index n) l (n_snapshot n)).
Definition node_set_snapshot (n : slab_node) (i : Z) (r : node_ref) : option slab_node :=
  l ← zset (n_snapshot n) i r; Some (SlabNode (n_index n) (n_current n) l).
Definition node_set_index (n : slab_node) (i : Z) : slab_node := SlabNode i (n_current n) (n_snapshot n).

(** [int x = a / b] and [int x = a % b] on [unsigned int] ids *)
Definition si_id_of (sb_id : Z) : Z := s32 (sb_id / SLAB_INNER_ENTRIES).
Definition so_id_of (sb_id : Z) : Z := s32 (si_id_of sb_id / SLAB_OUTER_ENTRIES).
Definition so_idx_of (sb_id : Z) : Z := s32 (si_id_of sb_id mod SLAB_OUTER_ENTRIES).
Definition sd_idx_of (sb_id : Z) : Z := s32 (so_id_of sb_id mod SLAB_DIR_ENTRIES).

Section snapshot.
Context {PS : Type} `{PA : PageAllocator PS}.
Notation M := (M (world PS)).

(** ** Copies of whole pages *)
Definition memcpy_pages (store : Z -> page -> M unit) (dest src n : Z) : M unit :=
  for_ (Z.to_nat (n / PAGE_SIZE)) 0 (fun i =>
    let! p := load (src + PAGE_SIZE * i) in store (dest + PAGE_SIZE * i) p).

Definition pmemcpy (store : Z -> page -> M unit) (dest src n : Z) : M unit :=
  memcpy_pages store dest src n ;;; flush_segment dest n.

(** ** Updates made inside the handler *)
Definition upd_se_raw (se : Z) (f : slab_entry -> slab_entry) : M unit :=
  let! b := read (T := slab_bucket) (se_page se) in
  let! e := from_opt WrongPage (entry_of b se) in
  let! b' := from_opt WrongPage (with_entry b se (f e)) in
  write_raw (se_page se) b'.

(** [VECTOR_APPEND(&sd->sd_vector, se)] *)
Definition append_vector (se : Z) : M unit :=
  let! sd := current_dir in
  let! d := read (T := slab_dir) sd in
  match VECTOR_APPEND 8 se (sd_vector d) with
  | Ok _ v => write_raw sd (set_sd_vector v d)
  | Fail f v => write_raw sd (set_sd_vector v d) ;;; fail f
  end.

(** The copy of the pointer page in [slab_entry_snapshot].  The arguments of
    [atomic_set(&ptr_laddr, se->se_ptr.current.laddr)] store into the local
    variable. *)
Definition snapshot_ptrs (se : Z) : M unit :=
  let! r := getpage PA_PROT_WRITE in
  when (r.1 =? 0) (fail HandleError) ;;;
  let! e := get_se se in
  pmemcpy store_raw r.1 (r_maddr (se_ptr_snapshot e)) (ROUNDPG (se_size e)) ;;;
  upd_se_raw se (fun e => set_se_ptr_current (set_r_idx (r_idx (se_ptr_snapshot e)) (se_ptr_current e)) e) ;;;
  STATS_INC_FLUSH ;;;
  upd_se_raw se (fun e => set_se_ptr_current (set_r_maddr r.1 (se_ptr_current e)) e) ;;;
  w_stat (__INC_BOTH cow_meta_pg).

Definition slab_entry_snapshot (se : Z) : M unit :=
  let! r := getpage PA_PROT_WRITE in
  when (r.1 =? 0) (fail HandleError) ;;;
  let! e := get_se se in
  pmemcpy store_raw r.1 (d_maddr (se_data_current e)) (ROUNDPG (se_size e)) ;;;
  w_stat (__INC_BOTH cow_data_pg) ;;;
  append_vector se ;;;
  let! e := get_se se in
  when (negb (r_maddr (se_ptr_snapshot e) =? 0)) (snapshot_ptrs se) ;;;
  upd_se_raw se (fun e => set_se_data_snapshot (set_d_maddr r.1 (se_data_snapshot e)) e) ;;;
  upd_se_raw se (fun e => set_se_data_snapshot (set_d_laddr r.2 (se_data_snapshot e)) e) ;;;
  STATS_INC_FLUSH.

Definition slab_entry_copynswap (se : Z) : M unit :=
  let! r := getpage PA_PROT_WRITE in
  when (r.1 =? 0) (fail HandleError) ;;;
  let! e := get_se se in
  memcpy_pages store_raw r.1 (d_maddr (se_data_snapshot e)) (ROUNDPG (se_size e)) ;;;
  upd_se_raw se (fun e => set_se_data_snapshot (set_d_maddr r.1 (se_data_snapshot e)) e) ;;;
  upd_se_raw se (fun e => set_se_data_current (set_d_laddr r.2 (se_data_current e)) e) ;;;
  STATS_INC_FLUSH ;;;
  let! e := get_se se in
  swap_mappings r.1 (d_laddr (se_data_snapshot e)) (d_maddr (se_data_snapshot e)) r.2 ;;;
  w_stat (__INC_BOTH cow_data_pg) ;;;
  append_vector se ;;;
  let! e := get_se se in
  when (negb (r_maddr (se_ptr_snapshot e) =? 0)) (fail AssertFailed).

Definition Func_slab_entry_snapshot (se : Z) : M unit :=
  let! cns := gets copynswap_enabled in
  if cns then slab_entry_copynswap se else slab_entry_snapshot se.

(** [handle_memory_update], for a fault at [si_addr]. *)
Definition handle_memory_update (si_addr : Z) : M unit :=
  let! sd := current_dir in
  w_stat STATS_INC_FAULTS ;;;
  let pgaddr := itop (ROUND_DWNPG (ptoi si_addr)) in
  let! d := read (T := slab_dir) sd in
  let! found := find_by_key d (SLAB_ENTRY_SEARCH_KEY pgaddr SE_SEARCH_NORMAL) in
  match found with
  | Some se =>
      Func_slab_entry_snapshot se ;;;
      let! e := get_se se in
      mprotect_page (d_maddr (se_data_current e)) PA_PROT_RNW
  | None => fail HandleError
  end.

(** ** Stores of the program *)
Definition store (a : Z) (p : page) : M unit :=
  let! ok := gets (fun w => writable w a) in
  when (negb ok) (handle_memory_update a) ;;;
  store_raw a p.

Definition write {T} `{PageType T} (a : Z) (x : T) : M unit := store a (to_page x).

Definition upd {T} `{PageType T} (a : Z) (f : T -> T) : M unit := let! x := read a in write a (f x).

Definition upd_se (se : Z) (f : slab_entry -> slab_entry) : M unit :=
  let! b := read (T := slab_bucket) (se_page se) in
  let! e := from_opt WrongPage (entry_of b se) in
  let! b' := from_opt WrongPage (with_entry b se (f e)) in
  write (se_page se) b'.

(** Updates of one reference; an index outside the array is an access
    outside it. *)
Definition upd_inner (si : Z) (f : slab_node -> option slab_node) : M unit :=
  let! n := read (T := inner_node) si in
  let! n' := from_opt OutOfBounds (f (the_inner n)) in write si (Inner n').
Definition upd_outer (so : Z) (f : slab_node -> option slab_node) : M unit :=
  let! n := read (T := outer_node) so in
  let! n' := from_opt OutOfBounds (f (the_outer n)) in write so (Outer n').
Definition upd_dir (sd : Z) (f : slab_node -> option slab_node) : M unit :=
  let! d := read (T := slab_dir) sd in
  let! n' := from_opt OutOfBounds (f (sd_node d)) in write sd (set_sd_node n' d).

Definition set_current_maddr (i a : Z) (n : slab_node) : option slab_node :=
  r ← zget (n_current n) i; node_set_current n i (NRef a (n_laddr r)).
Definition set_current_laddr (i l : Z) (n : slab_node) : option slab_node :=
  r ← zget (n_current n) i; node_set_current n i (NRef (n_maddr r) l).
Definition set_snapshot_maddr (i a : Z) (n : slab_node) : option slab_node :=
  r ← zget (n_snapshot n) i; node_set_snapshot n i (NRef a (n_laddr r)).
Definition set_snapshot_laddr (i l : Z) (n : slab_node) : option slab_node :=
  r ← zget (n_snapshot n) i; node_set_snapshot n i (NRef (n_maddr r) l).

(** ** Buckets *)

(** The inner node a bucket id leads to, through the directory and the outer
    node. *)
Definition inner_of_bucket (id : Z) : M Z :=
  let! sd := current_dir in
  let! d := read (T := slab_dir) sd in
  let! so := from_opt OutOfBounds (zget (n_current (sd_node d)) (sd_idx_of id)) in
  let! o := read (T := outer_node) (n_maddr so) in
  let! si := from_opt OutOfBounds (zget (n_current (the_outer o)) (so_idx_of id)) in
  ret (n_maddr si).

Definition slab_bucket_snapshot (sb : Z) : M Z :=
  let! b := read (T := slab_bucket) sb in
  let si_id := si_id_of (sb_id b) in
  let! si := inner_of_bucket (sb_id b) in
  let! n := read (T := inner_node) si in
  let! cur := from_opt OutOfBounds (zget (n_current (the_inner n)) si_id) in
  let! snap := from_opt OutOfBounds (zget (n_snapshot (the_inner n)) si_id) in
  if n_maddr cur =? n_maddr snap then
    let! r := getpage PA_PROT_WRITE in
    when (r.1 =? 0) (fail HandleError) ;;;
    pmemcpy store r.1 sb PAGE_SIZE ;;;
    upd_inner si (set_snapshot_laddr si_id r.2) ;;;
    STATS_INC_FLUSH ;;;
    upd_inner si (set_snapshot_maddr si_id r.1) ;;;
    w_stat (__INC_BOTH cow_meta_pg) ;;;
    ret 1
  else ret 0.

Definition slab_bucket_copynswap (sb : Z) : M Z :=
  let! b := read (T := slab_bucket) sb in
  let si_id := si_id_of (sb_id b) in
  let! si := inner_of_bucket (sb_id b) in
  let! n := read (T := inner_node) si in
  let! cur := from_opt OutOfBounds (zget (n_current (the_inner n)) si_id) in
  let! snap := from_opt OutOfBounds (zget (n_snapshot (the_inner n)) si_id) in
  if n_maddr cur =? n_maddr snap then
    let! r := getpage PA_PROT_WRITE in
    when (r.1 =? 0) (fail HandleError) ;;;
    memcpy_pages store r.1 sb PAGE_SIZE ;;;
    swap_mappings (n_maddr cur) r.2 r.1 (n_laddr cur) ;;;
    upd_inner si (set_current_laddr si_id r.2) ;;;
    STATS_INC_FLUSH ;;;
    upd_inner si (set_snapshot_maddr si_id r.1) ;;;
    w_stat (__INC_BOTH cow_meta_pg) ;;;
    ret 1
  else ret 0.

Definition Func_slab_bucket_snapshot (sb : Z) : M Z :=
  let! cns := gets copynswap_enabled in
  if cns then slab_bucket_copynswap sb else slab_bucket_snapshot sb.

(** ** Nodes: a copy; [set_laddr] is the store through the [laddr] argument *)
Definition node_snapshot (a : Z) (set_laddr : Z -> M unit) : M Z :=
  w_stat (__INC_BOTH cow_meta_pg) ;;;
  let! r := getpage PA_PROT_WRITE in
  when (r.1 =? 0) (fail HandleError) ;;;
  pmemcpy store r.1 a PAGE_SIZE ;;;
  set_laddr r.2 ;;;
  STATS_INC_FLUSH ;;;
  ret r.1.

Definition slab_inner_snapshot (si : Z) (set_laddr : Z -> M unit) : M Z := node_snapshot si set_laddr.
Definition slab_outer_snapshot (so : Z) (set_laddr : Z -> M unit) : M Z := node_snapshot so set_laddr.
Definition slab_dir_snapshot (sd : Z) (set_laddr : Z -> M unit) : M Z := node_snapshot sd set_laddr.

(** [slab_foreach_snapshot_entry]: [fun] may append to the vector, so its
    size is read again before each turn.  [fuel] bounds the turns. *)
Fixpoint foreach_snapshot (fuel : nat) (sd : Z) (f : Z -> M unit) (i : Z) : M unit :=
  match fuel with
  | O => fail Diverges
  | Datatypes.S fuel' =>
      let! d := read (T := slab_dir) sd in
      if i <? VECTOR_SIZE (sd_vector d) then
        match VECTOR_AT (sd_vector d) i with
        | inl flt => fail flt
        | inr se => f se ;;; foreach_snapshot fuel' sd f (i + 1)
        end
      else ret tt
  end.

Definition slab_foreach_snapshot_entry (fuel : nat) (f : Z -> M unit) : M unit :=
  let! sd := current_dir in foreach_snapshot fuel sd f 0.
End snapshot.

(** The list links of entries, for the queues. *)
#[export] Instance se_links {PS} `{PageAllocator PS} : SLinks (world PS) Z := {
  get_stqe_next se := let! e := get_se se in ret (se_list e);
  set_stqe_next se n := upd_se se (set_se_list n);
}.

(** ** Stepping through entries and pages *)
Definition put_entry (b : slab_bucket) (se : Z) (e : slab_entry) : slab_bucket :=
  SlabBucket (sb_has_snapshot b) (sb_id b) (<[Z.to_nat (SLAB_ENTRY_INDEX se) := e]> (sb_entries b)).

Lemma with_entry_put b se e0 e : entry_of b se = Some e0 -> with_entry b se e = Some (put_entry b se e).
Proof.
  unfold entry_of, with_entry, put_entry. intros Hi%zget_lt. unfold zset, zlen in *.
  destruct (Z.leb_spec 0 (SLAB_ENTRY_INDEX se)), (Z.ltb_spec (SLAB_ENTRY_INDEX se) (Z.of_nat (length (sb_entries b))));
    simpl; (done || lia).
Qed.

Lemma entry_put b se e0 e : entry_of b se = Some e0 -> entry_of (put_entry b se e) se = Some e.
Proof.
  unfold entry_of, put_entry. simpl. intros Hi%zget_lt. unfold zget, zlen in *.
  destruct (Z.leb_spec 0 (SLAB_ENTRY_INDEX se)); [|lia]. apply list_lookup_insert_eq. lia.
Qed.

Lemma entry_put_ne b se se' e :
  SLAB_ENTRY_INDEX se' <> SLAB_ENTRY_INDEX se -> 0 <= SLAB_ENTRY_INDEX se -> entry_of (put_entry b se e) se' = entry_of b se'.
Proof.
  unfold entry_of, put_entry, zget. simpl. intros Hne Hi. destruct (Z.leb_spec 0 (SLAB_ENTRY_INDEX se')); [|done].
  apply list_lookup_insert_ne. lia.
Qed.

Lemma put_put b se e1 e2 : put_entry (put_entry b se e1) se e2 = put_entry b se e2.
Proof. unfold put_entry. simpl. by rewrite list_insert_insert_eq. Qed.

Section rules.
Context {PS : Type} `{PL : PageAllocatorLaws PS} {SV : world PS -> gmap Z pinfo -> nat -> Prop} {HSV : Stepping SV}.
Implicit Types (w : world PS) (V : gmap Z pinfo) (k : nat).

(** The view of a bucket page, and of the container and its directory. *)
Definition bucket_in V (sb : Z) (b : slab_bucket) (lb : Z) : Prop := V !! sb = Some (PInfo (PgBucket b) true lb).

Record dir_in w V (sd : Z) (d : slab_dir) (ld : Z) : Prop := {
  di_dir : V !! sd = Some (PInfo (PgDir d) true ld);
  di_cont : exists c cont wc lc, CONTAINERS w = Some c /\ V !! c = Some (PInfo (PgCont cont) wc lc) /\
    n_maddr (current_slab cont) = sd;
}.

Lemma wp_current_dir w V k sd d ld (Q : Z -> world PS -> Prop) :
  SV w V k -> dir_in w V sd d ld -> Q sd w -> wp current_dir Q w.
Proof.
  intros Hs [_ (c & cont & wc & lc & Hc & Ec & Esd)] HQ. unfold current_dir.
  apply wp_bind. eapply wp_ok; [unfold get_container; by rewrite Hc|].
  apply wp_bind. eapply wp_read_view; [done|done|done|]. apply wp_ret. by rewrite Esd.
Qed.

Lemma wp_get_se w V k se b lb e (Q : slab_entry -> world PS -> Prop) :
  SV w V k -> bucket_in V (se_page se) b lb -> entry_of b se = Some e -> Q e w -> wp (get_se se) Q w.
Proof.
  intros Hs Hb He HQ. unfold get_se. apply wp_bind. eapply wp_read_view; [done|done|done|].
  by eapply wp_from_opt.
Qed.

Lemma wp_upd_se_raw w V k se b lb e f (Q : unit -> world PS -> Prop) :
  SV w V k -> bucket_in V (se_page se) b lb -> entry_of b se = Some e ->
  (forall w', SV w' (<[se_page se := PInfo (PgBucket (put_entry b se (f e))) true lb]> V) k ->
     globals w' = globals w -> Q tt w') ->
  wp (upd_se_raw se f) Q w.
Proof.
  intros Hs Hb He HQ. unfold upd_se_raw. apply wp_bind. eapply wp_read_view; [done|done|done|].
  apply wp_bind. eapply wp_from_opt; [done|]. apply wp_bind. eapply wp_from_opt; [by eapply with_entry_put|].
  unfold write_raw. eapply wp_store_view; [done|done|done|]. apply HQ.
Qed.

Lemma page_one : Z.to_nat (PAGE_SIZE / PAGE_SIZE) = 1%nat.
Proof. reflexivity. Qed.

(** A store instruction or the raw store of the handler: both write a page
    that is writable. *)
Definition storing (st : Z -> page -> M (world PS) unit) : Prop :=
  forall w V k a i p (Q : unit -> world PS -> Prop), SV w V k -> V !! a = Some i -> pi_writable i = true ->
    (forall w', SV w' (<[a := PInfo p true (pi_laddr i)]> V) k -> globals w' = globals w -> Q tt w') -> wp (st a p) Q w.

Lemma storing_raw : storing store_raw.
Proof. intros w V k a i p Q. apply wp_store_view. Qed.

Lemma storing_store : storing store.
Proof.
  intros w V k a i p Q Hs E Hw HQ. unfold store. apply wp_bind, wp_gets. destruct (sees_shows _ _ _ (st_sees _ _ _ Hs) _ _ E) as (_ & Ew & _).
  rewrite Ew, Hw. cbn [negb when]. apply wp_bind, wp_ret. by eapply wp_store_view.
Qed.

Lemma wp_pmemcpy st w V k dest src di si (Q : unit -> world PS -> Prop) :
  storing st -> SV w V k -> V !! dest = Some di -> pi_writable di = true -> V !! src = Some si ->
  (forall w', SV w' (<[dest := PInfo (pi_page si) true (pi_laddr di)]> V) k -> globals w' = globals w -> Q tt w') ->
  wp (pmemcpy st dest src PAGE_SIZE) Q w.
Proof.
  intros Hst Hs Ed Hw Es HQ. unfold pmemcpy, memcpy_pages. rewrite page_one. cbn [for_].
  apply wp_bind, wp_bind. rewrite !Z.mul_0_r, !Z.add_0_r. apply wp_bind.
  eapply wp_load_view; [done|done|]. eapply Hst; [done|done|done|]. intros w1 Hs1 Hg1.
  apply wp_ret. eapply quiet_flush; [done|by vlook|]. intros w2 Hs2 Hg2. apply HQ; [done|congruence].
Qed.

(** The vector of the directory [d], which held [ls], after [se] is appended. *)
Definition appended (d : slab_dir) (ls : list Z) (se : Z) (v : vector Z) : Prop :=
  vector_repr v (ls ++ [se]) /\
  v_capacity v <= Z.max (v_capacity (sd_vector d)) (Z.max 2 (2 * zlen ls)).

Lemma wp_append_vector w V k se sd d ld l (Q : unit -> world PS -> Prop) :
  SV w V k -> dir_in w V sd d ld -> vector_repr (sd_vector d) l -> can_double 8 (v_capacity (sd_vector d)) ->
  (forall w' v, SV w' (<[sd := PInfo (PgDir (set_sd_vector v d)) true ld]> V) k -> globals w' = globals w ->
     appended d l se v -> Q tt w') ->
  wp (append_vector se) Q w.
Proof.
  intros Hs Hd Hv Hc HQ. unfold append_vector. apply wp_bind. eapply wp_current_dir; [done|done|].
  apply wp_bind. destruct Hd as [Ed _]. eapply wp_read_view; [done|done|done|].
  assert (Hpos : 0 < 8) by lia.
  pose proof (VECTOR_APPEND_repr 8 Hpos (sd_vector d) l se Hv Hc) as Ha. apply wp_run in Ha as ([] & v & Ea & Hv' & Hcap).
  rewrite Ea. unfold write_raw. eapply wp_store_view; [done|done|done|]. intros w' Hs' Hg. apply (HQ w' v); [done|done|].
  split; [done|]. destruct Hv as (Hsz & _). destruct (Z.eqb_spec (v_size (sd_vector d)) (v_capacity (sd_vector d))); lia.
Qed.

(** ** The snapshot of an entry *)
Lemma ROUNDPG_small n : 0 < n <= PAGE_SIZE -> ROUNDPG n = PAGE_SIZE.
Proof.
  intros Hn. unfold ROUNDPG. mask 12. unfold u64. rewrite wrap_id by (unfold in_u, PAGE_MASK, PAGE_SIZE in *; lia).
  unfold PAGE_MASK, PAGE_SIZE in *. assert (E : n + (4096 - 1) = (n - 1) + 1 * 2 ^ 12) by lia. rewrite E.
  rewrite Z.mod_add by lia. rewrite Z.mod_small by lia. lia.
Qed.

(** An entry whose data page [m] is in the view, without pointer pages. *)
Record entry_in V (se : Z) (b : slab_bucket) (lb : Z) (e : slab_entry) (m : Z) (im : pinfo) : Prop := {
  ei_bucket : bucket_in V (se_page se) b lb;
  ei_entry : entry_of b se = Some e;
  ei_size : 0 < se_size e <= PAGE_SIZE;
  ei_maddr : d_maddr (se_data_current e) = m;
  ei_data : V !! m = Some im;
  ei_is_data : is_Some (as_page (T := data_page) (pi_page im));
}.

Definition snapshotted (e : slab_entry) (a l : Z) : slab_entry :=
  set_se_data_snapshot (DRef a l (d_bitmap (se_data_snapshot e))) e.

Lemma wp_slab_entry_snapshot w V k se b lb e m im sd d ld ls (Q : unit -> world PS -> Prop) :
  SV w V (S k) -> dir_in w V sd d ld -> entry_in V se b lb e m im -> r_maddr (se_ptr_snapshot e) = 0 ->
  vector_repr (sd_vector d) ls -> can_double 8 (v_capacity (sd_vector d)) ->
  (forall w' a l v, V !! a = None -> globals w' = globals w -> appended d ls se v ->
     SV w' (<[se_page se := PInfo (PgBucket (put_entry b se (snapshotted e a l))) true lb]>
             (<[sd := PInfo (PgDir (set_sd_vector v d)) true ld]>
             (<[a := PInfo (pi_page im) true l]> V))) k -> Q tt w') ->
  wp (slab_entry_snapshot se) Q w.
Proof.
  intros Hs Hd [Eb Ee Hsz Em Ei _] Hnp Hv Hc HQ. unfold slab_entry_snapshot. pose proof (di_dir _ _ _ _ _ Hd) as Ed.
  unfold bucket_in in Eb.
  apply wp_bind. eapply wp_getpage_view; [done|]. intros a l p wr w1 Hna Hpos Hwr Hs1 Hg1.
  rewrite Hwr in Hs1 by done. cbn [fst snd]. destruct (Z.eqb_spec a 0); [lia|]. cbn [when]. apply wp_bind, wp_ret.
  apply wp_bind. eapply wp_get_se; [done|by unfold bucket_in; vlook|done|]. rewrite Em, ROUNDPG_small by done.
  apply wp_bind. eapply wp_pmemcpy; [apply storing_raw|done|by vlook|done|by vlook|]. intros w2 Hs2 Hg2. rewrite insert_insert_eq in Hs2.
  apply wp_bind. eapply quiet_stat; [done|]. intros w3 Hs3 Hg3.
  assert (Hd3 : dir_in w3 (<[a := PInfo (pi_page im) true l]> V) sd d ld).
  { destruct Hd as [_ (c & cont & wc & lc & Hcn & Ec & Esd)]. split; [by vlook|]. exists c, cont, wc, lc.
    split_and!; [|by vlook|done]. rewrite (globals_cont _ _ Hg3), (globals_cont _ _ Hg2), (globals_cont _ _ Hg1). done. }
  apply wp_bind. eapply wp_append_vector; [done|done|done|done|]. intros w4 v Hs4 Hg4 Hv'.
  apply wp_bind. eapply wp_get_se; [done|by unfold bucket_in; vlook|done|]. rewrite Hnp. cbn [negb Z.eqb when].
  apply wp_bind, wp_ret.
  apply wp_bind. eapply wp_upd_se_raw; [done|by unfold bucket_in; vlook|done|]. intros w5 Hs5 Hg5.
  apply wp_bind. eapply wp_upd_se_raw; [done|by unfold bucket_in; vlook|by eapply entry_put|]. intros w6 Hs6 Hg6.
  rewrite insert_insert_eq, put_put in Hs6. eapply quiet_stat; [done|]. intros w7 Hs7 Hg7.
  apply (HQ w7 a l v); [done|congruence|done|]. exact Hs7.
Qed.

(** ** The fault handler *)
Definition entry_at V (se : Z) : option slab_entry :=
  i ← V !! se_page se; b ← as_page (T := slab_bucket) (pi_page i); entry_of b se.

Definition maddr_of V (se : Z) : Z := d_maddr (se_data_current (default zero_entry (entry_at V se))).

(** The tree of the directory is sorted by the addresses of the data pages,
    and its entries are in the view. *)
Record tree_in V (d : slab_dir) : Prop := {
  ti_sorted : key_sorted (maddr_of V) (inorder (sd_maddr_root d));
  ti_entries : forall se, se ∈ inorder (sd_maddr_root d) -> is_Some (entry_at V se);
}.

Lemma se_at_view w V k se : SV w V k -> is_Some (entry_at V se) -> se_at w se = default zero_entry (entry_at V se).
Proof.
  intros [_ Hs]%st_sees [e He]. unfold entry_at in *. destruct (V !! se_page se) as [i|] eqn:E; [|done].
  destruct (Hs _ _ E) as (Ep & _). unfold se_at. rewrite Ep. done.
Qed.

Lemma wp_find_normal w V k d se a (Q : option Z -> world PS -> Prop) :
  SV w V k -> tree_in V d -> se ∈ inorder (sd_maddr_root d) -> maddr_of V se = a ->
  Q (Some se) w -> wp (find_by_key d (SLAB_ENTRY_SEARCH_KEY a SE_SEARCH_NORMAL)) Q w.
Proof.
  intros Hs [Hsrt Hen] Hse Ha HQ. unfold find_by_key. apply wp_gets.
  pose (f := fun y => d_maddr (se_data_current (se_at w y))).
  assert (Hf : forall y, y ∈ inorder (sd_maddr_root d) -> maddr_of V y = f y).
  { intros y Hy. unfold f. by rewrite (se_at_view _ _ _ _ Hs (Hen y Hy)). }
  pose proof (RB_FIND_key f (sd_maddr_root d) 0 a se (key_sorted_ext _ _ _ Hf Hsrt) Hse) as E.
  rewrite <- (Hf se Hse) in E. specialize (E Ha). change (Q (RB_FIND (fun _ y => cmp_ptr a (f y)) (sd_maddr_root d) 0) w).
  by rewrite E.
Qed.

Lemma entry_in_at V se b lb e m im : entry_in V se b lb e m im -> entry_at V se = Some e /\ maddr_of V se = m.
Proof.
  intros [Eb Ee _ Em _ _]. unfold bucket_in in Eb. unfold maddr_of, entry_at. rewrite Eb. simpl. by rewrite Ee.
Qed.

(** What the handler relies on for a write to the data page of [se]. *)
Record fault_ctx_of w V (k : nat) (sd : Z) (d : slab_dir) (ld : Z) (ls : list Z)
    (se : Z) (b : slab_bucket) (lb : Z) (e : slab_entry) (m : Z) (im : pinfo) : Prop := {
  fc_sees : SV w V k;
  fc_dir : dir_in w V sd d ld;
  fc_tree : tree_in V d;
  fc_in : se ∈ inorder (sd_maddr_root d);
  fc_entry : entry_in V se b lb e m im;
  fc_noptr : r_maddr (se_ptr_snapshot e) = 0;
  fc_vec : vector_repr (sd_vector d) ls;
  fc_room : can_double 8 (v_capacity (sd_vector d));
  fc_mode : copynswap_enabled w = false;
}.

(** The view after the copy: [a] is the new page, at [l] in the file. *)
Definition cow_view V sd d ld (v : vector Z) se b lb e (im : pinfo) (a l : Z) : gmap Z pinfo :=
  <[se_page se := PInfo (PgBucket (put_entry b se (snapshotted e a l))) true lb]>
  (<[sd := PInfo (PgDir (set_sd_vector v d)) true ld]>
  (<[a := PInfo (pi_page im) true l]> V)).

Lemma data_page_ne V se b lb e m im sd d ld :
  entry_in V se b lb e m im -> V !! sd = Some (PInfo (PgDir d) true ld) -> m <> sd /\ m <> se_page se.
Proof.
  intros [Eb _ _ _ Em [x Hx]] Ed. unfold bucket_in in Eb.
  split; intros E; rewrite E in Em; [rewrite Ed in Em|rewrite Eb in Em]; by injection Em as <-.
Qed.

Lemma wp_handle_memory_update w V k sd d ld ls se b lb e m im addr (Q : unit -> world PS -> Prop) :
  fault_ctx_of w V (S k) sd d ld ls se b lb e m im -> m <= addr < m + PAGE_SIZE ->
  (forall w' a l v, V !! a = None -> globals w' = globals w -> appended d ls se v ->
     SV w' (<[m := PInfo (pi_page im) true (pi_laddr im)]> (cow_view V sd d ld v se b lb e im a l)) k -> Q tt w') ->
  wp (handle_memory_update addr) Q w.
Proof.
  intros [Hs Hd Ht Hin He Hnp Hv Hc Hm] Ha HQ. unfold handle_memory_update.
  destruct (sees_aligned _ _ _ _ _ (st_sees _ _ _ Hs) (ei_data _ _ _ _ _ _ _ He)) as (Hal & Hpos & Htop).
  destruct (data_page_ne _ _ _ _ _ _ _ _ _ _ He (di_dir _ _ _ _ _ Hd)) as [Hne1 Hne2].
  apply wp_bind. eapply wp_current_dir; [done|done|]. apply wp_bind. eapply quiet_stat; [done|]. intros w1 Hs1 Hg1.
  destruct (page_of_byte m addr) as [-> _]; [done|done|done|unfold PAGE_SIZE in *; lia|].
  apply wp_bind. eapply wp_read_view; [done|by apply Hd|done|].
  apply wp_bind. destruct (entry_in_at _ _ _ _ _ _ _ He) as [_ Hma]. eapply wp_find_normal; [done|done|done|done|].
  apply wp_bind. unfold Func_slab_entry_snapshot. apply wp_bind, wp_gets. rewrite (globals_mode _ _ Hg1), Hm.
  assert (Hd1 : dir_in w1 V sd d ld).
  { destruct Hd as [Ed (c & cont & wc & lc & Hcn & Ec & Esd)]. split; [done|]. exists c, cont, wc, lc.
    by rewrite (globals_cont _ _ Hg1). }
  eapply wp_slab_entry_snapshot; [done|done|done|done|done|done|]. intros w2 a l v Hna Hg2 Hv' Hs2.
  pose proof (ei_entry _ _ _ _ _ _ _ He) as Ee. pose proof (ei_maddr _ _ _ _ _ _ _ He) as Em.
  pose proof (ei_data _ _ _ _ _ _ _ He) as Edm.
  apply wp_bind. eapply wp_get_se; [done|by unfold bucket_in; vlook|by eapply entry_put|]. cbn [snapshotted set_se_data_snapshot se_data_current].
  rewrite Em. eapply wp_mprotect_view; [done|by vlook|]. intros w3 Hs3 Hg3. cbn [pi_page pi_laddr] in Hs3.
  apply (HQ w3 a l v); [done|congruence|done|]. exact Hs3.
Qed.

(** A store to a protected data page. *)
Lemma wp_store_cow w V k sd d ld ls se b lb e m im p (Q : unit -> world PS -> Prop) :
  fault_ctx_of w V (S k) sd d ld ls se b lb e m im -> pi_writable im = false ->
  (forall w' a l v, V !! a = None -> globals w' = globals w -> appended d ls se v ->
     SV w' (<[m := PInfo p true (pi_laddr im)]> (cow_view V sd d ld v se b lb e im a l)) k -> Q tt w') ->
  wp (store m p) Q w.
Proof.
  intros Hf Hw HQ. pose proof Hf as [Hs _ _ _ He _ _ _ _]. pose proof (ei_data _ _ _ _ _ _ _ He) as Em.
  unfold store. apply wp_bind, wp_gets. destruct (sees_shows _ _ _ (st_sees _ _ _ Hs) _ _ Em) as (_ & Ew & _).
  rewrite Ew, Hw. cbn [negb when]. apply wp_bind. eapply wp_handle_memory_update; [done|unfold PAGE_SIZE; lia|].
  intros w1 a l v Hna Hg1 Hv Hs1. eapply wp_store_view; [done|by vlook|done|]. intros w2 Hs2 Hg2.
  rewrite insert_insert_eq in Hs2. apply (HQ w2 a l v); [done|congruence|done|done].
Qed.

Lemma wp_upd_se w V k se b lb e f (Q : unit -> world PS -> Prop) :
  SV w V k -> bucket_in V (se_page se) b lb -> entry_of b se = Some e ->
  (forall w', SV w' (<[se_page se := PInfo (PgBucket (put_entry b se (f e))) true lb]> V) k ->
     globals w' = globals w -> Q tt w') ->
  wp (upd_se se f) Q w.
Proof.
  intros Hs Hb He HQ. unfold upd_se. apply wp_bind. eapply wp_read_view; [done|done|done|].
  apply wp_bind. eapply wp_from_opt; [done|]. apply wp_bind. eapply wp_from_opt; [by eapply with_entry_put|].
  unfold write. eapply storing_store; [done|done|done|]. apply HQ.
Qed.

Lemma wp_upd {T} `{PageType T} w V k a p l (x : T) f (Q : unit -> world PS -> Prop) :
  SV w V k -> V !! a = Some (PInfo p true l) -> as_page p = Some x ->
  (forall w', SV w' (<[a := PInfo (to_page (f x)) true l]> V) k -> globals w' = globals w -> Q tt w') ->
  wp (upd a f) Q w.
Proof.
  intros Hs E Ex HQ. unfold upd. apply wp_bind. eapply wp_read_view; [done|done|done|].
  unfold write. by eapply storing_store.
Qed.

(** ** Nodes *)
Lemma wp_upd_inner w V k si n li f n' (Q : unit -> world PS -> Prop) :
  SV w V k -> V !! si = Some (PInfo (PgInner n) true li) -> f n = Some n' ->
  (forall w', SV w' (<[si := PInfo (PgInner n') true li]> V) k -> globals w' = globals w -> Q tt w') ->
  wp (upd_inner si f) Q w.
Proof.
  intros Hs E Ef HQ. unfold upd_inner. apply wp_bind. eapply wp_read_view; [done|done|done|]. cbn [the_inner].
  apply wp_bind. eapply wp_from_opt; [done|]. unfold write. by eapply storing_store.
Qed.

Lemma set_snapshot_laddr_eq i l n r :
  zget (n_snapshot n) i = Some r ->
  set_snapshot_laddr i l n = Some (SlabNode (n_index n) (n_current n) (<[Z.to_nat i := NRef (n_maddr r) l]> (n_snapshot n))).
Proof.
  intros E. unfold set_snapshot_laddr. rewrite E. simpl. unfold node_set_snapshot.
  apply zget_lt in E. destruct (zset_total (n_snapshot n) i (NRef (n_maddr r) l) E) as [l' El]. rewrite El. simpl.
  by apply zset_Some in El as [_ ->].
Qed.

Lemma set_snapshot_maddr_eq i a n r :
  zget (n_snapshot n) i = Some r ->
  set_snapshot_maddr i a n = Some (SlabNode (n_index n) (n_current n) (<[Z.to_nat i := NRef a (n_laddr r)]> (n_snapshot n))).
Proof.
  intros E. unfold set_snapshot_maddr. rewrite E. simpl. unfold node_set_snapshot.
  apply zget_lt in E. destruct (zset_total (n_snapshot n) i (NRef a (n_laddr r)) E) as [l' El]. rewrite El. simpl.
  by apply zset_Some in El as [_ ->].
Qed.

(** Both references at once. *)
Definition with_snapshot (n : slab_node) (i : Z) (r : node_ref) : slab_node :=
  SlabNode (n_index n) (n_current n) (<[Z.to_nat i := r]> (n_snapshot n)).

Lemma zget_insert {A} (l : list A) i (x y : A) : zget l i = Some y -> zget (<[Z.to_nat i := x]> l) i = Some x.
Proof.
  intros Hi%zget_lt. unfold zget, zlen in *. destruct (Z.leb_spec 0 i); [|lia]. apply list_lookup_insert_eq. lia.
Qed.

Lemma zget_insert_case {A} (l : list A) i j (x y : A) : zget l i = Some y ->
  zget (<[Z.to_nat i := x]> l) j = if decide (j = i) then Some x else zget l j.
Proof.
  intros Hi. case_decide as Hj; [subst; by eapply zget_insert|]. apply zget_lt in Hi. unfold zget, zlen in *.
  destruct (Z.leb_spec 0 j); [|done]. apply list_lookup_insert_ne. lia.
Qed.

Lemma set_snapshot_both i a l n r :
  zget (n_snapshot n) i = Some r ->
  exists n1, set_snapshot_laddr i l n = Some n1 /\ set_snapshot_maddr i a n1 = Some (with_snapshot n i (NRef a l)).
Proof.
  intros E. eexists. split; [by apply set_snapshot_laddr_eq|].
  rewrite (set_snapshot_maddr_eq i a _ (NRef (n_maddr r) l)) by (simpl; by eapply zget_insert).
  unfold with_snapshot. simpl. by rewrite list_insert_insert_eq.
Qed.

(** The inner node on the path of a bucket id. *)
Record path_in w V (sd : Z) (d : slab_dir) (ld id si : Z) : Prop := {
  pi_dir : dir_in w V sd d ld;
  pi_path : exists so lso o wo lo lsi, zget (n_current (sd_node d)) (sd_idx_of id) = Some (NRef so lso) /\
    V !! so = Some (PInfo (PgOuter o) wo lo) /\ zget (n_current o) (so_idx_of id) = Some (NRef si lsi);
}.

Lemma wp_inner_of_bucket w V k sd d ld id si (Q : Z -> world PS -> Prop) :
  SV w V k -> path_in w V sd d ld id si -> Q si w -> wp (inner_of_bucket id) Q w.
Proof.
  intros Hs [Hd (so & lso & o & wo & lo & lsi & E1 & E2 & E3)] HQ. unfold inner_of_bucket.
  apply wp_bind. eapply wp_current_dir; [done|done|]. apply wp_bind. eapply wp_read_view; [done|by apply Hd|done|].
  apply wp_bind. eapply wp_from_opt; [done|]. apply wp_bind. eapply wp_read_view; [done|done|done|]. cbn [the_outer].
  apply wp_bind. eapply wp_from_opt; [done|]. by apply wp_ret.
Qed.

Lemma wp_slab_bucket_snapshot w V k sd d ld sb b lb si n li cur snap (Q : Z -> world PS -> Prop) :
  SV w V (S k) -> bucket_in V sb b lb -> path_in w V sd d ld (sb_id b) si ->
  V !! si = Some (PInfo (PgInner n) true li) ->
  zget (n_current n) (si_id_of (sb_id b)) = Some cur -> zget (n_snapshot n) (si_id_of (sb_id b)) = Some snap ->
  (n_maddr cur <> n_maddr snap -> Q 0 w) ->
  (forall w' a l, n_maddr cur = n_maddr snap -> V !! a = None -> globals w' = globals w ->
     SV w' (<[si := PInfo (PgInner (with_snapshot n (si_id_of (sb_id b)) (NRef a l))) true li]>
             (<[a := PInfo (PgBucket b) true l]> V)) k -> Q 1 w') ->
  wp (slab_bucket_snapshot sb) Q w.
Proof.
  intros Hs Hb Hp Ei Ec Es HQ0 HQ1. unfold slab_bucket_snapshot. unfold bucket_in in Hb.
  apply wp_bind. eapply wp_read_view; [done|done|done|]. apply wp_bind. eapply wp_inner_of_bucket; [done|done|].
  apply wp_bind. eapply wp_read_view; [done|done|done|]. cbn [the_inner].
  apply wp_bind. eapply wp_from_opt; [done|]. apply wp_bind. eapply wp_from_opt; [done|].
  destruct (Z.eqb_spec (n_maddr cur) (n_maddr snap)) as [E|E]; [|by apply wp_ret, HQ0].
  apply wp_bind. eapply wp_getpage_view; [done|]. intros a l p wr w1 Hna Hpos Hwr Hs1 Hg1.
  rewrite Hwr in Hs1 by done. cbn [fst snd]. destruct (Z.eqb_spec a 0); [lia|]. cbn [when]. apply wp_bind, wp_ret.
  apply wp_bind. eapply wp_pmemcpy; [apply storing_store|done|by vlook|done|by vlook|]. intros w2 Hs2 Hg2.
  rewrite insert_insert_eq in Hs2. destruct (set_snapshot_both _ a l n snap Es) as (n1 & En1 & En2).
  apply wp_bind. eapply wp_upd_inner; [done|by vlook|done|]. intros w3 Hs3 Hg3.
  apply wp_bind. eapply quiet_stat; [done|]. intros w4 Hs4 Hg4.
  apply wp_bind. eapply wp_upd_inner; [done|by vlook|done|]. intros w5 Hs5 Hg5. rewrite insert_insert_eq in Hs5.
  apply wp_bind. eapply quiet_stat; [done|]. intros w6 Hs6 Hg6. apply wp_ret.
  apply (HQ1 w6 a l); [done|done|congruence|]. exact Hs6.
Qed.
End rules.

Notation fault_ctx := (fault_ctx_of (SV := sees)).

(** ** Properties *)

(** C13 A store to a protected data page first copies the page: afterwards the
    page holds the new content and is writable, the snapshot reference of its
    entry leads to a new page, at the recorded place of the file, that holds
    the old content, the entry is in the vector of changed entries, and no
    other page of the program has changed. *)
Theorem store_copies_on_write {PS} `{PL : PageAllocatorLaws PS} (w : world PS) V k sd d ld ls se b lb e m im p :
  fault_ctx w V (S k) sd d ld ls se b lb e m im -> pi_writable im = false ->
  wp (store m p) (fun _ w' => exists a l v V',
    V !! a = None /\ sees w' V' k /\ globals w' = globals w /\
    page_at w' m = Some p /\ writable w' m = true /\
    page_at w' a = page_at w m /\ vm_of (w_pa w') !! a = Some l /\
    se_at w' se = snapshotted e a l /\
    page_at w' sd = Some (PgDir (set_sd_vector v d)) /\ vector_repr v (ls ++ [se]) /\
    forall x i, V !! x = Some i -> x <> m -> x <> sd -> x <> se_page se -> page_at w' x = page_at w x) w.
Proof.
  intros Hf Hw. pose proof Hf as [Hs Hd _ _ He _ _ _ _].
  destruct (data_page_ne _ _ _ _ _ _ _ _ _ _ He (di_dir _ _ _ _ _ Hd)) as [Hne1 Hne2].
  pose proof (ei_data _ _ _ _ _ _ _ He) as Em. pose proof (di_dir _ _ _ _ _ Hd) as Ed.
  pose proof (ei_bucket _ _ _ _ _ _ _ He) as Eb. unfold bucket_in in Eb.
  eapply wp_store_cow; [done|done|]. intros w' a l v Hna Hg [Hv _] Hs'. exists a, l, v. eexists.
  assert (Hsh : forall x i, <[m := PInfo p true (pi_laddr im)]> (cow_view V sd d ld v se b lb e im a l) !! x = Some i -> shows w' x i)
    by apply Hs'.
  unfold cow_view in Hsh.
  assert (Hm : shows w' m (PInfo p true (pi_laddr im))) by (apply Hsh; by vlook).
  assert (Ha : shows w' a (PInfo (pi_page im) true l)) by (apply Hsh; by vlook).
  assert (Hsd : shows w' sd (PInfo (PgDir (set_sd_vector v d)) true ld)) by (apply Hsh; by vlook).
  destruct (sees_shows _ _ _ Hs _ _ Em) as (Ep & _ & _).
  destruct Hm as (? & ? & _), Ha as (Ha1 & _ & ?), Hsd as (? & _ & _).
  split_and!; try done.
  - by rewrite Ha1, Ep.
  - assert (Hat : entry_at (<[m := PInfo p true (pi_laddr im)]> (cow_view V sd d ld v se b lb e im a l)) se = Some (snapshotted e a l)).
    { unfold entry_at, cow_view. replace ((<[m:=_]> _) !! se_page se) with
        (Some (PInfo (PgBucket (put_entry b se (snapshotted e a l))) true lb)) by (symmetry; by vlook).
      simpl. eapply entry_put, He. }
    rewrite (se_at_view _ _ _ _ Hs'); [|by eexists]. by rewrite Hat.
  - intros x i Hx Hxm Hxs Hxb. destruct (Hsh x i) as (E1 & _); [by vlook|]. rewrite E1.
    by destruct (sees_shows _ _ _ Hs _ _ Hx).
Qed.

(** *** A world in which it applies

    One bucket, whose first entry has a data page of 64-byte objects. *)
Definition demo_entry (p : demo_pages) : slab_entry :=
  let m := DRef (dp_m p).1 (dp_m p).2 0 in SlabEntry 0 64 m m (PRef 0 0 0) (PRef 0 0 0) None.
Definition demo_bucket (p : demo_pages) : slab_bucket := SlabBucket 0 0 (demo_entry p :: replicate 27 zero_entry).
Definition demo_node (entries : Z) (r : Z * Z) : slab_node :=
  let l := NRef r.1 r.2 :: replicate (Z.to_nat entries - 1) (NRef 0 0) in SlabNode 1 l l.
Definition demo_se (p : demo_pages) : Z := se_addr (dp_b p).1 0.
Definition demo_dir (p : demo_pages) : slab_dir :=
  SlabDir (Node RB_BLACK Leaf (demo_se p) Leaf) Leaf STAILQ_INIT 0 (demo_node SLAB_DIR_ENTRIES (dp_o p)) (Vec 0 0 None).
Definition demo_container (p : demo_pages) : container :=
  let r := NRef (dp_d p).1 (dp_d p).2 in Container 0 r r 0.
Definition demo_data : page := PgData (replicate 4096 0).

Definition demo_V : demo_pages -> gmap Z pinfo :=
  demo_view (fun p => PgCont (demo_container p)) (fun p => PgDir (demo_dir p))
    (fun p => PgOuter (demo_node SLAB_OUTER_ENTRIES (dp_i p))) (fun p => PgInner (demo_node SLAB_INNER_ENTRIES (dp_b p)))
    (fun p => PgBucket (demo_bucket p)) (fun _ => demo_data).

Definition demo (w : world fmst) (p : demo_pages) : Prop :=
  demo_ok (fun p => PgCont (demo_container p)) (fun p => PgDir (demo_dir p))
    (fun p => PgOuter (demo_node SLAB_OUTER_ENTRIES (dp_i p))) (fun p => PgInner (demo_node SLAB_INNER_ENTRIES (dp_b p)))
    (fun p => PgBucket (demo_bucket p)) (fun _ => demo_data) w p.

Lemma demo_exists : exists w p, demo w p.
Proof. apply demo_world. Qed.

Lemma demo_lookups w p : demo w p ->
  demo_V p !! (dp_c p).1 = Some (PInfo (PgCont (demo_container p)) true (dp_c p).2) /\
  demo_V p !! (dp_d p).1 = Some (PInfo (PgDir (demo_dir p)) true (dp_d p).2) /\
  demo_V p !! (dp_o p).1 = Some (PInfo (PgOuter (demo_node SLAB_OUTER_ENTRIES (dp_i p))) true (dp_o p).2) /\
  demo_V p !! (dp_i p).1 = Some (PInfo (PgInner (demo_node SLAB_INNER_ENTRIES (dp_b p))) true (dp_i p).2) /\
  demo_V p !! (dp_b p).1 = Some (PInfo (PgBucket (demo_bucket p)) true (dp_b p).2) /\
  demo_V p !! (dp_m p).1 = Some (PInfo demo_data false (dp_m p).2).
Proof.
  intros H. pose proof (do_nodup _ _ _ _ _ _ _ _ H) as Hnd. rewrite !NoDup_cons, !not_elem_of_cons in Hnd.
  destruct Hnd as ((?&?&?&?&?&_)&(?&?&?&?&_)&(?&?&?&_)&(?&?&_)&(?&_)&_).
  unfold demo_V, demo_view. split_and!; by vlook.
Qed.

Lemma demo_se_ok w p : demo w p -> se_page (demo_se p) = (dp_b p).1 /\ SLAB_ENTRY_INDEX (demo_se p) = 0 /\
  entry_of (demo_bucket p) (demo_se p) = Some (demo_entry p).
Proof.
  intros H. destruct (do_bucket _ _ _ _ _ _ _ _ H) as (H1 & H2 & H3).
  destruct (se_addr_decode (dp_b p).1 0) as [E1 E2]; [done|done|unfold PAGE_SIZE in *; lia|done|].
  split_and!; [done|done|]. unfold entry_of, demo_se. by rewrite E2.
Qed.

Lemma demo_dir_in w p : demo w p -> dir_in w (demo_V p) (dp_d p).1 (demo_dir p) (dp_d p).2.
Proof.
  intros H. destruct (demo_lookups w p H) as (Hc & Hd & _). split; [done|].
  exists (dp_c p).1, (demo_container p), true, (dp_c p).2. split_and!; [by eapply do_cont|done|done].
Qed.

Lemma demo_fault w p : demo w p ->
  fault_ctx w (demo_V p) 58 (dp_d p).1 (demo_dir p) (dp_d p).2 [] (demo_se p) (demo_bucket p) (dp_b p).2
    (demo_entry p) (dp_m p).1 (PInfo demo_data false (dp_m p).2).
Proof.
  intros H. destruct (demo_lookups w p H) as (Hc & Hd & _ & _ & Hb & Hm). destruct (demo_se_ok w p H) as (Epg & _ & Hen).
  assert (Hbk : bucket_in (demo_V p) (se_page (demo_se p)) (demo_bucket p) (dp_b p).2) by (by rewrite Epg).
  split.
  - by eapply do_sees.
  - by apply demo_dir_in.
  - split; [repeat constructor|]. intros x Hx. simpl in Hx. apply list_elem_of_singleton in Hx as ->.
    unfold entry_at. unfold bucket_in in Hbk. rewrite Hbk. simpl. rewrite Hen. by eexists.
  - simpl. by left.
  - split; [done|done|done|done|done|by eexists].
  - done.
  - by unfold vector_repr, zlen.
  - done.
  - by eapply do_mode.
Qed.

Lemma store_copies_on_write_witness : exists (w : world fmst) p,
  wp (store (dp_m p).1 (PgData (replicate 4096 1))) (fun _ w' => exists a,
    page_at w' (dp_m p).1 = Some (PgData (replicate 4096 1)) /\ page_at w' a = page_at w (dp_m p).1 /\ a <> (dp_m p).1) w /\
  page_at w (dp_m p).1 = Some demo_data.
Proof.
  destruct demo_exists as (w & p & H). exists w, p. pose proof (demo_fault w p H) as Hf.
  pose proof (store_copies_on_write w _ 57 _ _ _ _ _ _ _ _ _ _ (PgData (replicate 4096 1)) Hf eq_refl) as Ht.
  destruct (demo_lookups w p H) as (_ & _ & _ & _ & _ & Em). split.
  - eapply wp_mono; [exact Ht|]. intros [] w' (a & l & v & V' & Hna & _ & _ & E1 & _ & E2 & _). exists a.
    split; [exact E1|]. split; [exact E2|]. intros ->. rewrite Em in Hna. discriminate Hna.
  - destruct (sees_shows _ _ _ (fc_sees _ _ _ _ _ _ _ _ _ _ _ _ _ Hf) _ _ Em) as (E & _). exact E.
Defined.

(** When the slot is the one in which the bucket is found. *)
Lemma slot_agrees id : 0 <= id < SLAB_INNER_ENTRIES * SLAB_INNER_ENTRIES ->
  si_id_of id = id mod SLAB_INNER_ENTRIES <-> id mod (SLAB_INNER_ENTRIES + 1) = 0.
Proof.
  change SLAB_INNER_ENTRIES with 127. change (127 + 1) with 128. intros Hid. unfold si_id_of. change SLAB_INNER_ENTRIES with 127.
  pose proof (Z.div_mod id 127 ltac:(done)) as Hd. pose proof (Z.mod_pos_bound id 127 ltac:(done)) as Hm.
  assert (Hq : 0 <= id / 127 < 127) by lia. rewrite s32_id by lia. split.
  - intros E. symmetry. apply (Z.mod_unique id 128 (id / 127) 0); lia.
  - intros E. pose proof (Z.div_mod id 128 ltac:(done)) as Hd2. rewrite E in Hd2.
    assert (Hq2 : 0 <= id / 128 < 127) by lia. assert (id / 127 = id / 128); [|lia].
    symmetry. apply (Z.div_unique id 127 (id / 128) (id / 128)); lia.
Qed.

(** C25 [slab_bucket_snapshot] copies the bucket once per transaction: when
    the two references of the slot of its inner node are equal, a new page
    with the content of the bucket becomes the snapshot of that slot and the
    result is 1; otherwise nothing happens and the result is 0.  The slot is
    [sb_id / 127], while [get_slab_entry_by_id] looks for the bucket in slot
    [sb_id mod 127]: of the ids below [127 * 127] the two agree exactly for
    the multiples of 128; for the ids 1 to 126, the first inner node without
    its first bucket, the slot is always 0, and is another bucket's. *)
Theorem slab_bucket_snapshot_correct {PS} `{PL : PageAllocatorLaws PS} (w : world PS) V k sd d ld sb b lb si n li cur snap :
  sees w V (S k) -> bucket_in V sb b lb -> path_in w V sd d ld (sb_id b) si ->
  V !! si = Some (PInfo (PgInner n) true li) ->
  zget (n_current n) (si_id_of (sb_id b)) = Some cur -> zget (n_snapshot n) (si_id_of (sb_id b)) = Some snap ->
  wp (slab_bucket_snapshot sb) (fun r w' =>
    (n_maddr cur <> n_maddr snap /\ r = 0 /\ w' = w) \/
    (n_maddr cur = n_maddr snap /\ r = 1 /\ globals w' = globals w /\ exists a l, V !! a = None /\
       sees w' (<[si := PInfo (PgInner (with_snapshot n (si_id_of (sb_id b)) (NRef a l))) true li]>
               (<[a := PInfo (PgBucket b) true l]> V)) k)) w /\
  (0 < sb_id b < SLAB_INNER_ENTRIES -> si_id_of (sb_id b) = 0 /\ si_id_of (sb_id b) <> sb_id b mod SLAB_INNER_ENTRIES) /\
  (0 <= sb_id b < SLAB_INNER_ENTRIES * SLAB_INNER_ENTRIES ->
   si_id_of (sb_id b) = sb_id b mod SLAB_INNER_ENTRIES <-> sb_id b mod (SLAB_INNER_ENTRIES + 1) = 0).
Proof.
  intros Hs Hb Hp Ei Ec Es. split_and!.
  - eapply wp_slab_bucket_snapshot; try done; [by left|]. intros w' a l E Hna Hg Hs'. right. split_and!; try done.
    by exists a, l.
  - intros Hid. unfold si_id_of, SLAB_INNER_ENTRIES, SLAB_INNER_MEM, PAGE_SIZE in *.
    change ((4096 - 4) / (2 * (8 + 8))) with 127 in *. rewrite Z.div_small, Z.mod_small by lia. split; [done|].
    change (s32 0) with 0. lia.
  - intros Hid. by apply slot_agrees.
Qed.

Lemma slab_bucket_snapshot_correct_witness : exists (w : world fmst) p,
  wp (slab_bucket_snapshot (dp_b p).1) (fun r w' => r = 1 /\ exists a, a <> (dp_b p).1 /\
    page_at w' a = Some (PgBucket (demo_bucket p))) w.
Proof.
  destruct demo_exists as (w & p & H). exists w, p. destruct (demo_lookups w p H) as (Hc & Hd & Ho & Hi & Hb & Hm).
  destruct (slab_bucket_snapshot_correct w (demo_V p) 57 (dp_d p).1 (demo_dir p) (dp_d p).2 (dp_b p).1 (demo_bucket p)
    (dp_b p).2 (dp_i p).1 (demo_node SLAB_INNER_ENTRIES (dp_b p)) (dp_i p).2
    (NRef (dp_b p).1 (dp_b p).2) (NRef (dp_b p).1 (dp_b p).2)) as [Ht _].
  - eapply do_sees. exact H.
  - exact Hb.
  - split; [exact (demo_dir_in w p H)|]. exists (dp_o p).1, (dp_o p).2, (demo_node SLAB_OUTER_ENTRIES (dp_i p)), true, (dp_o p).2, (dp_i p).2.
    split; [reflexivity|]. split; [exact Ho|reflexivity].
  - exact Hi.
  - reflexivity.
  - reflexivity.
  - eapply wp_mono; [exact Ht|]. intros r w' [(E & _)|(_ & Er & _ & a & l & Hna & Hs')]; [by destruct E|].
    split; [exact Er|]. exists a. assert (Hne : a <> (dp_b p).1) by (intros ->; rewrite Hb in Hna; discriminate Hna).
    split; [exact Hne|]. destruct (sees_shows _ _ _ Hs' a (PInfo (PgBucket (demo_bucket p)) true l)) as (E & _); [|exact E].
    rewrite lookup_insert_ne by (intros E; rewrite E in Hi; congruence). apply lookup_insert_eq.
Defined.
