(* ===== verification/Handler.v ===== *)
(** * The signal handler: [src/sfhandler.c]

    The rest of the development lets every store to a protected page run
    [handle_memory_update] first ([Snapshot.store]).  Here is why it may: the
    disposition of [SIGSEGV] is part of the state, [register_sigsegv_handler]
    installs the handler, a faulting store is delivered to what is installed
    and then executed again, and with the handler installed that is
    [Snapshot.store]. *)
From Stdlib Require Import ZArith Lia.
From stdpp Require Import base numbers gmap option list.
From S2P Require Import Prelude Macros Queue Process RBTree FixedMapper PageAlloc SlabLayout World Demo Snapshot.
Open Scope Z_scope.

Definition SIGSEGV := 11.
Definition SA_SIGINFO := 4.

(** The function of [struct sigaction]: the default action, or the handler of
    the library. *)
Inductive action := SIG_DFL | Handle_memory_update.
Record sigaction := Sigaction { sa_flags : Z; sa_mask : gset Z; sa_sigaction : action }.

(** The world, the dispositions, and the signals that are blocked. *)
Record sigst (PS : Type) := Sigst {
  sg_world : world PS;
  sg_actions : gmap Z sigaction;
  sg_blocked : gset Z;
}.
Arguments Sigst {PS}.
Arguments sg_world {PS}.
Arguments sg_actions {PS}.
Arguments sg_blocked {PS}.

Section handler.
Context {PS : Type} `{PA : PageAllocator PS}.
Notation M := (M (sigst PS)).

Definition set_sg_world (w : world PS) (s : sigst PS) : sigst PS := Sigst w (sg_actions s) (sg_blocked s).
Definition set_blocked (b : gset Z) (s : sigst PS) : sigst PS := Sigst (sg_world s) (sg_actions s) b.
Definition on_sg {A} (m : Prelude.M (world PS) A) : M A := zoom sg_world set_sg_world m.

(** [sigaction(sig, &sa, NULL)]; [ok] is whether the call succeeds. *)
Definition do_sigaction (ok : bool) (sig : Z) (sa : sigaction) : M Z :=
  if ok then modify (fun s => Sigst (sg_world s) (<[sig := sa]> (sg_actions s)) (sg_blocked s)) ;;; ret 0
  else ret (-1).

Definition register_sigsegv_handler (ok : bool) : M Z :=
  let sa := Sigaction SA_SIGINFO ∅ Handle_memory_update in
  let! r := do_sigaction ok SIGSEGV sa in
  when (r =? -1) (fail HandleError) ;;;
  ret 0.

(** The fault of a store at [si_addr]: a blocked signal and the default
    action kill the process; the handler runs with the signal itself and the
    mask blocked. *)
Definition deliver_sigsegv (si_addr : Z) : M unit :=
  let! blocked := gets sg_blocked in
  let! sa := gets (fun s => sg_actions s !! SIGSEGV) in
  when (bool_decide (SIGSEGV ∈ blocked)) (fail Sigsegv) ;;;
  match sa with
  | Some (Sigaction _ mask Handle_memory_update) =>
      modify (set_blocked (blocked ∪ mask ∪ {[SIGSEGV]})) ;;;
      on_sg (handle_memory_update si_addr) ;;;
      modify (set_blocked blocked)
  | _ => fail Sigsegv
  end.

(** A store instruction, executed again after each fault. *)
Fixpoint exec_store (fuel : nat) (a : Z) (p : page) : M unit :=
  match fuel with
  | O => fail Diverges
  | S fuel' =>
      let! ok := gets (fun s => writable (sg_world s) a) in
      if ok then on_sg (store_raw a p) else deliver_sigsegv a ;;; exec_store fuel' a p
  end.

(** *** The registered handler *)
Definition installed (s : sigst PS) : Prop :=
  sg_actions s !! SIGSEGV = Some (Sigaction SA_SIGINFO ∅ Handle_memory_update) /\ SIGSEGV ∉ sg_blocked s.

Lemma register_installs s :
  SIGSEGV ∉ sg_blocked s ->
  exists s', register_sigsegv_handler true s = Ok 0 s' /\ installed s' /\ sg_world s' = sg_world s.
Proof. intros Hb. eexists. split; [done|]. split; [split; [apply lookup_insert_eq|done]|done]. Qed.

Lemma store_raw_writable w a p w' : store_raw a p w = Ok tt w' -> writable w a = true.
Proof. unfold store_raw. destruct (vm_of (w_pa w) !! a); [|done]. by destruct (writable w a). Qed.

(** A fault in the handler is a second one in the same thread: the signal is
    blocked. *)
Lemma nested_fault_kills s a : SIGSEGV ∈ sg_blocked s -> exists s', deliver_sigsegv a s = Fail Sigsegv s'.
Proof. intros Hb. exists s. unfold deliver_sigsegv, bind, gets, when. by rewrite bool_decide_true. Qed.

Lemma deliver_installed s a w1 :
  installed s -> handle_memory_update a (sg_world s) = Ok tt w1 -> deliver_sigsegv a s = Ok tt (set_sg_world w1 s).
Proof.
  intros [Ha Hb] Eh. unfold deliver_sigsegv, bind, gets. rewrite Ha, bool_decide_false by done. cbn [when ret].
  unfold modify, on_sg, zoom. cbn [sg_world set_blocked]. rewrite Eh. by destruct s.
Qed.

Lemma exec_store_ok fuel s a p w' :
  installed s -> store a p (sg_world s) = Ok tt w' -> exec_store (S (S fuel)) a p s = Ok tt (set_sg_world w' s).
Proof.
  intros Hi Es. cbn [exec_store]. unfold bind at 1, gets at 1. unfold store, bind at 1, gets at 1 in Es.
  destruct (writable (sg_world s) a) eqn:Ew; cbn [negb when] in Es.
  - unfold on_sg, zoom. unfold bind, ret in Es. by rewrite Es.
  - unfold bind in Es. destruct (handle_memory_update a (sg_world s)) as [[] w1|] eqn:Eh; [|done].
    rewrite (bind_run _ _ _ _ _ (deliver_installed s a w1 Hi Eh)). unfold bind, gets. cbn [sg_world set_sg_world].
    rewrite (store_raw_writable _ _ _ _ Es). unfold on_sg, zoom. cbn [sg_world set_sg_world]. rewrite Es. by destruct s.
Qed.

Lemma exec_store_default fuel s a p :
  sg_actions s !! SIGSEGV = None -> writable (sg_world s) a = false -> exec_store (S fuel) a p s = Fail Sigsegv s.
Proof.
  intros Ha Ew. cbn [exec_store]. unfold bind at 1, gets at 1. rewrite Ew. unfold deliver_sigsegv, bind, gets. rewrite Ha.
  by destruct (bool_decide (SIGSEGV ∈ sg_blocked s)).
Qed.
End handler.

(** Before the handler is registered a store to a protected page kills the
    process.  Once it is registered, a store does what [Snapshot.store] does:
    one fault at most, then the store; the dispositions and the blocked
    signals are as before.  A registration that fails ends the process. *)
Theorem register_sigsegv_handler_correct {PS} `{PageAllocator PS} (s : sigst PS) a p w' :
  sg_actions s !! SIGSEGV = None -> SIGSEGV ∉ sg_blocked s -> writable (sg_world s) a = false ->
  store a p (sg_world s) = Ok tt w' ->
  exec_store 1 a p s = Fail Sigsegv s /\
  register_sigsegv_handler false s = Fail HandleError s /\
  exists s', register_sigsegv_handler true s = Ok 0 s' /\ sg_world s' = sg_world s /\
    exec_store 2 a p s' = Ok tt (set_sg_world w' s').
Proof.
  intros Ha Hb Hw Es. split_and!; [by apply exec_store_default|done|].
  destruct (register_installs s Hb) as (s' & E & Hi & Ew). exists s'. split_and!; [done|done|].
  apply exec_store_ok; [done|]. by rewrite Ew.
Qed.

Lemma register_sigsegv_handler_correct_witness : exists (s : sigst fmst) a s',
  exec_store 1 a demo_data s = Fail Sigsegv s /\ register_sigsegv_handler true s = Ok 0 s' /\
  exists s'', exec_store 2 a demo_data s' = Ok tt s''.
Proof.
  destruct demo_exists as (w & p & H). pose proof (demo_fault w p H) as Hf.
  destruct (proj1 (wp_run _ _ _) (wp_store_cow w _ _ _ _ _ _ _ _ _ _ _ _ demo_data (fun _ _ => True) Hf eq_refl
    (fun _ _ _ _ _ _ _ _ => I))) as ([] & w' & Es & _).
  assert (Ew : writable w (dp_m p).1 = false).
  { destruct (sees_shows _ _ _ (fc_sees _ _ _ _ _ _ _ _ _ _ _ _ _ Hf) _ _ (ei_data _ _ _ _ _ _ _ (fc_entry _ _ _ _ _ _ _ _ _ _ _ _ _ Hf))) as (_ & E & _).
    exact E. }
  destruct (register_sigsegv_handler_correct (Sigst w ∅ ∅) (dp_m p).1 demo_data w') as (E1 & _ & s' & E2 & _ & E3); try done.
  exists (Sigst w ∅ ∅), (dp_m p).1, s'. split_and!; [exact E1|exact E2|]. eexists. exact E3.
Defined.
