(* ===== verification/FixPtr.v ===== *)
(** * The list of persistent pointers: [src/fixptr.c]

    A list of (location, target) pairs kept in pages: inodes that are linked
    to each other refer to data nodes, and every data node has a current
    version and, in a transaction, a snapshot.  No other file of the library
    uses it; the head is passed from call to call.

    This file has the operations, what the pages of a list look like
    ([chain_ok]), and the rules to step through the operations; the theorems
    are in [PtrList.v]. *)
From Stdlib Require Import ZArith Lia.
From stdpp Require Import base numbers gmap option list.
From S2P Require Import Prelude Macros Bitstring Vector Queue Process RBTree FixedMapper PageAlloc.
From S2P Require Import SlabLayout World Demo Snapshot.
Open Scope Z_scope.

(** ** Updates of one entry, and of one field *)
Definition set_pin_entry (i : Z) (f : pin_entry -> pin_entry) (n : pptr_inode) : option pptr_inode :=
  e ← zget (pin_entries n) i; l ← zset (pin_entries n) i (f e); Some (INode (pin_current_idx n) (pin_next n) l).
Definition set_pin_current_idx (i : Z) (n : pptr_inode) : pptr_inode := INode i (pin_next n) (pin_entries n).
Definition set_pin_next (r : node_ref) (n : pptr_inode) : pptr_inode := INode (pin_current_idx n) r (pin_entries n).

Section fixptr.
Context {PS : Type} `{PA : PageAllocator PS}.
Notation M := (M (world PS)).

Definition upd_inode (a : Z) (f : pptr_inode -> option pptr_inode) : M unit :=
  let! n := read (T := pptr_inode) a in
  let! n' := from_opt OutOfBounds (f n) in
  write a n'.

(** [PPTR_INODE_CIDXM(p, idx)] and the other three *)
Definition PPTR_INODE_ENTRY (a idx : Z) : M pin_entry :=
  let! n := read (T := pptr_inode) a in from_opt OutOfBounds (zget (pin_entries n) idx).
Definition PPTR_INODE_CIDXM (a idx : Z) : M Z := let! e := PPTR_INODE_ENTRY a idx in ret (n_maddr (pe_current e)).
Definition PPTR_INODE_CIDXL (a idx : Z) : M Z := let! e := PPTR_INODE_ENTRY a idx in ret (n_laddr (pe_current e)).
Definition PPTR_INODE_SIDXM (a idx : Z) : M Z := let! e := PPTR_INODE_ENTRY a idx in ret (n_maddr (pe_snapshot e)).
Definition PPTR_INODE_SIDXL (a idx : Z) : M Z := let! e := PPTR_INODE_ENTRY a idx in ret (n_laddr (pe_snapshot e)).

Definition set_CIDXM (a idx m : Z) : M unit :=
  upd_inode a (set_pin_entry idx (fun e => PinEntry (NRef m (n_laddr (pe_current e))) (pe_snapshot e))).
Definition set_CIDXL (a idx l : Z) : M unit :=
  upd_inode a (set_pin_entry idx (fun e => PinEntry (NRef (n_maddr (pe_current e)) l) (pe_snapshot e))).
Definition set_SIDXM (a idx m : Z) : M unit :=
  upd_inode a (set_pin_entry idx (fun e => PinEntry (pe_current e) (NRef m (n_laddr (pe_snapshot e))))).
Definition set_SIDXL (a idx l : Z) : M unit :=
  upd_inode a (set_pin_entry idx (fun e => PinEntry (pe_current e) (NRef (n_maddr (pe_snapshot e)) l))).

(** [PPTR_INODE_CMADDR(p)]: the entry at [pin_current_idx] *)
Definition pin_idx (a : Z) : M Z := let! n := read (T := pptr_inode) a in ret (pin_current_idx n).
Definition PPTR_INODE_CMADDR (a : Z) : M Z := let! i := pin_idx a in PPTR_INODE_CIDXM a i.
Definition PPTR_INODE_CLAST (a : Z) : M Z := PPTR_INODE_CIDXM a (PPTR_INODE_ENTRIES - 1).

(** ** The operations *)
Definition pptr_init : M pptr_head :=
  let! r := getpage PA_PROT_WRITE in
  when (r.1 =? 0) (fail HandleError) ;;;
  upd_inode r.1 (fun n => Some (set_pin_current_idx 0 n)) ;;;
  ret (PHead (NRef r.1 r.2) r.1).

Definition pptr_snapshot_dnode (inode idx : Z) : M Z :=
  let! current_laddr := PPTR_INODE_CIDXL inode idx in
  let! snapshot_laddr := PPTR_INODE_SIDXL inode idx in
  if (current_laddr =? snapshot_laddr) && negb (snapshot_laddr =? 0) then
    let! r := getpage PA_PROT_WRITE in
    set_SIDXL inode idx r.2 ;;;
    when (r.1 =? 0) (fail HandleError) ;;;
    let! c := PPTR_INODE_CIDXM inode idx in
    pmemcpy store r.1 c PAGE_SIZE ;;;
    set_SIDXM inode idx r.1 ;;;
    ret 1
  else ret 0.

Definition pptr_extend_list (head : pptr_head) : M (Z * pptr_head) :=
  let last_inode := ph_last head in
  let! r := getpage PA_PROT_WRITE in
  upd_inode last_inode (fun n => Some (set_pin_next (NRef (n_maddr (pin_next n)) r.2) n)) ;;;
  when (r.1 =? 0) (fail HandleError) ;;;
  upd_inode last_inode (fun n => Some (set_pin_next (NRef r.1 (n_laddr (pin_next n))) n)) ;;;
  ret (r.1, PHead (ph_first head) r.1).

Definition pptr_need_expanding (inode : Z) : M bool :=
  let! dnode := PPTR_INODE_CLAST inode in
  if dnode =? 0 then ret false
  else let! d := read (T := pptr_dnode) dnode in ret (PPTR_DNODE_IS_FULL d).

(** The data node, the inode and the head. *)
Definition pptr_get_dnode (head : pptr_head) : M (Z * Z * pptr_head) :=
  let! expand := pptr_need_expanding (ph_last head) in
  let! p := (if expand then pptr_extend_list head else ret (ph_last head, head)) in
  let '(last_inode, head) := p in
  let! dnode := PPTR_INODE_CMADDR last_inode in
  let! full := (if dnode =? 0 then ret false
                else let! d := read (T := pptr_dnode) dnode in ret (PPTR_DNODE_IS_FULL d)) in
  when full (upd_inode last_inode (fun n => Some (set_pin_current_idx (s32 (pin_current_idx n + 1)) n))) ;;;
  let! dnode := PPTR_INODE_CMADDR last_inode in
  let! dnode := (if dnode =? 0 then
                   let! r := getpage PA_PROT_WRITE in
                   let! i := pin_idx last_inode in
                   set_CIDXL last_inode i r.2 ;;;
                   set_CIDXM last_inode i r.1 ;;;
                   PPTR_INODE_CMADDR last_inode
                 else ret dnode) in
  ret (dnode, last_inode, head).

(** [dnode->pdn_entries[dnode->pdn_index]. ... = ...; dnode->pdn_index++] *)
Definition add_pptr (dnode : Z) (x : pptr) : M unit :=
  let! d := read (T := pptr_dnode) dnode in
  let! l := from_opt OutOfBounds (zset (pdn_entries d) (pdn_index d) x) in
  write dnode (DNode (pdn_index d) l) ;;;
  upd dnode (fun d => DNode (s32 (pdn_index d + 1)) (pdn_entries d)).

Definition pptr_append (head : pptr_head) (ploc_seid ploc_offset pval_seid pval_offset : Z) : M pptr_head :=
  let! p := pptr_get_dnode head in
  let '(dnode, inode, head) := p in
  let! i := pin_idx inode in
  let! _ := pptr_snapshot_dnode inode i in
  add_pptr dnode (Pptr (u16 ploc_offset) (u32 ploc_seid) (u16 pval_offset) (u32 pval_seid)) ;;;
  ret head.

(** The body of the inner loop of [pptr_cpoint]. *)
Definition pptr_cpoint_entry (inode idx : Z) : M unit :=
  let! current_dnode := PPTR_INODE_CIDXM inode idx in
  when (negb (current_dnode =? 0))
    (let! snapshot_dnode := PPTR_INODE_SIDXM inode idx in
     when (negb (snapshot_dnode =? 0) && negb (snapshot_dnode =? current_dnode)) (freepages snapshot_dnode) ;;;
     let! l := PPTR_INODE_CIDXL inode idx in
     set_SIDXL inode idx l ;;;
     let! m := PPTR_INODE_CIDXM inode idx in
     set_SIDXM inode idx m).

(** [for (inode = first; inode != NULL; inode = inode->pin_next.maddr)]:
    [fuel] bounds the number of inodes. *)
Fixpoint foreach_inode (fuel : nat) (inode : Z) (body : Z -> M unit) : M unit :=
  match fuel with
  | O => fail Diverges
  | Datatypes.S fuel' =>
      if inode =? 0 then ret tt
      else
        body inode ;;;
        let! n := read (T := pptr_inode) inode in
        foreach_inode fuel' (n_maddr (pin_next n)) body
  end.

Definition pptr_cpoint (fuel : nat) (head : pptr_head) : M unit :=
  foreach_inode fuel (n_maddr (ph_first head)) (fun inode =>
    for_ (Z.to_nat PPTR_INODE_ENTRIES) 0 (pptr_cpoint_entry inode)).

(** [while (inode->pin_next.laddr)]: the last inode *)
Fixpoint map_inodes (fuel : nat) (inode : Z) : M Z :=
  match fuel with
  | O => fail Diverges
  | Datatypes.S fuel' =>
      let! n := read (T := pptr_inode) inode in
      if n_laddr (pin_next n) =? 0 then ret inode
      else
        let! next := mappage (n_laddr (pin_next n)) in
        upd_inode inode (fun n => Some (set_pin_next (NRef next (n_laddr (pin_next n))) n)) ;;;
        map_inodes fuel' next
  end.

Definition pptr_map_entry (type : cpoint_type) (inode i : Z) : M unit :=
  let! l := PPTR_INODE_CIDXL inode i in
  when (negb (l =? 0))
    (let! m := mappage l in
     set_CIDXM inode i m ;;;
     let! m := PPTR_INODE_CIDXM inode i in
     set_SIDXM inode i m) ;;;
  let! s := PPTR_INODE_SIDXL inode i in
  when (bool_decide (type = CPOINT_INCOMPLETE) && negb (s =? 0))
    (let! m := mappage s in set_SIDXM inode i m).

Definition pptr_map (fuel : nat) (head : pptr_head) (type : cpoint_type) : M pptr_head :=
  let! inode := mappage (n_laddr (ph_first head)) in
  let first := NRef inode (n_laddr (ph_first head)) in
  let! last := map_inodes fuel inode in
  let head := PHead first last in
  foreach_inode fuel (n_maddr first) (fun inode =>
    for_ (Z.to_nat PPTR_INODE_ENTRIES) 0 (pptr_map_entry type inode)) ;;;
  when (bool_decide (type = CPOINT_INCOMPLETE)) (pptr_cpoint fuel head) ;;;
  ret head.
End fixptr.

(** ** Two versions of a list in pages *)
Definition dnode_items (d : pptr_dnode) : list pptr := take (Z.to_nat (pdn_index d)) (pdn_entries d).

Section rules.
Context {PS : Type} `{PL : PageAllocatorLaws PS}.
Implicit Types (w : world PS) (V : gmap Z pinfo) (e : pin_entry) (ch : list (Z * Z * pptr_inode)).

(** A page never written is an empty data node, or an inode without
    entries. *)
Definition holds {T} `{PageType T} V (a l : Z) (x : T) : Prop :=
  exists p, V !! a = Some (PInfo p true l) /\ as_page p = Some x.

Definition dnode_in V (a l : Z) (d : pptr_dnode) : Prop :=
  holds V a l d /\ 0 <= pdn_index d <= PPTR_DNODE_ENTRIES /\ zlen (pdn_entries d) = PPTR_DNODE_ENTRIES.

Definition items_at V (a : Z) : list pptr :=
  if a =? 0 then [] else
  match V !! a with
  | Some i => match as_page (T := pptr_dnode) (pi_page i) with Some d => dnode_items d | None => [] end
  | None => []
  end.
Definition now_of V e : list pptr := items_at V (n_maddr (pe_current e)).
Definition old_of V e : list pptr := items_at V (n_maddr (pe_snapshot e)).

(** An entry of an inode: unused, new in this transaction, committed, or
    committed and changed. *)
Inductive slot_ok V : pin_entry -> Prop :=
  | slot_null : slot_ok V zero_pin_entry
  | slot_new c lc d : c <> 0 -> lc <> 0 -> dnode_in V c lc d -> slot_ok V (PinEntry (NRef c lc) (NRef 0 0))
  | slot_clean c lc d : c <> 0 -> lc <> 0 -> dnode_in V c lc d -> slot_ok V (PinEntry (NRef c lc) (NRef c lc))
  | slot_dirty c lc d s ls ds : c <> 0 -> lc <> 0 -> dnode_in V c lc d -> s <> 0 -> ls <> 0 -> s <> c -> dnode_in V s ls ds ->
      slot_ok V (PinEntry (NRef c lc) (NRef s ls)).

Definition slot_pages e : list Z :=
  let c := n_maddr (pe_current e) in
  let s := n_maddr (pe_snapshot e) in
  (if c =? 0 then [] else [c]) ++ (if (s =? 0) || (s =? c) then [] else [s]).

(** The inodes, as address, place and content. *)
Definition inode_addr (x : Z * Z * pptr_inode) : Z := x.1.1.
Definition entries_of ch : list pin_entry := concat (map (fun x => pin_entries x.2) ch).

Record inode_ok V (x : Z * Z * pptr_inode) : Prop := {
  io_page : holds V x.1.1 x.1.2 x.2;
  io_len : zlen (pin_entries x.2) = PPTR_INODE_ENTRIES;
  io_slots : Forall (slot_ok V) (pin_entries x.2);
}.

Record chain_ok V ch : Prop := {
  co_inodes : Forall (inode_ok V) ch;
  co_pages : NoDup (map inode_addr ch ++ concat (map slot_pages (entries_of ch)));
}.

Definition list_now V (es : list pin_entry) : list pptr := concat (map (now_of V) es).
Definition list_old V (es : list pin_entry) : list pptr := concat (map (old_of V) es).

(** ** One entry changes *)
Lemma slot_pages_in V e x : slot_ok V e -> x ∈ slot_pages e -> is_Some (V !! x).
Proof.
  intros Hs. unfold slot_pages. inversion Hs as [|c lc d Hc Hl ((p & E & _) & _)|c lc d Hc Hl ((p & E & _) & _)|c lc d s ls ds Hc Hl ((p & E & _) & _) H0 Hls Hn ((p2 & E2 & _) & _)];
    cbn [pe_current pe_snapshot n_maddr zero_pin_entry]; cbn [Z.eqb orb app]; rewrite ?elem_of_nil; try done.
  - destruct (Z.eqb_spec c 0); [done|]. rewrite app_nil_r, list_elem_of_singleton. intros ->. by eexists.
  - destruct (Z.eqb_spec c 0); [done|]. rewrite Z.eqb_refl, orb_true_r, app_nil_r, list_elem_of_singleton. intros ->. by eexists.
  - destruct (Z.eqb_spec c 0), (Z.eqb_spec s 0), (Z.eqb_spec s c); try done. simpl.
    rewrite elem_of_cons, list_elem_of_singleton. intros [-> | ->]; by eexists.
Qed.

Lemma cur_in_slot V e : slot_ok V e -> n_maddr (pe_current e) <> 0 -> n_maddr (pe_current e) ∈ slot_pages e.
Proof. intros Hs Hc. unfold slot_pages. destruct (Z.eqb_spec (n_maddr (pe_current e)) 0); [done|]. by left. Qed.

Lemma snap_in_slot e : n_maddr (pe_current e) <> 0 -> n_maddr (pe_snapshot e) <> 0 -> n_maddr (pe_snapshot e) ∈ slot_pages e.
Proof.
  intros Hc Hs. unfold slot_pages. destruct (Z.eqb_spec (n_maddr (pe_current e)) 0), (Z.eqb_spec (n_maddr (pe_snapshot e)) 0); try done.
  destruct (Z.eqb_spec (n_maddr (pe_snapshot e)) (n_maddr (pe_current e))) as [->|]; [by left|]. right. by left.
Qed.

Lemma dnode_in_frame V V' a l d : dnode_in V a l d -> V' !! a = V !! a -> dnode_in V' a l d.
Proof. intros [(p & H1 & H2) H3] E. split; [|done]. exists p. by rewrite E. Qed.

Lemma slot_ok_frame V V' e : slot_ok V e -> (forall x, x ∈ slot_pages e -> V' !! x = V !! x) ->
  slot_ok V' e /\ now_of V' e = now_of V e /\ old_of V' e = old_of V e.
Proof.
  intros Hs Hf. assert (Hc : n_maddr (pe_current e) <> 0 -> V' !! n_maddr (pe_current e) = V !! n_maddr (pe_current e)).
  { intros Hc. apply Hf. by eapply cur_in_slot. }
  assert (Hsn : n_maddr (pe_current e) <> 0 -> n_maddr (pe_snapshot e) <> 0 -> V' !! n_maddr (pe_snapshot e) = V !! n_maddr (pe_snapshot e)).
  { intros H1 H2. apply Hf. by apply snap_in_slot. }
  split.
  - inversion Hs; subst; cbn [pe_current pe_snapshot n_maddr] in *.
    + constructor.
    + eapply slot_new; [done|done|]. eapply dnode_in_frame; eauto.
    + eapply slot_clean; [done|done|]. eapply dnode_in_frame; eauto.
    + eapply slot_dirty; [done|done| |done|done|done|]; eapply dnode_in_frame; eauto.
  - unfold now_of, old_of, items_at. destruct (Z.eqb_spec (n_maddr (pe_current e)) 0) as [Ec|Ec].
    + assert (Es : n_maddr (pe_snapshot e) = 0) by (inversion Hs; subst; simpl in *; done). by rewrite Es.
    + rewrite Hc by done. split; [done|]. destruct (Z.eqb_spec (n_maddr (pe_snapshot e)) 0); [done|]. by rewrite Hsn.
Qed.

Lemma list_frame V V' es : Forall (slot_ok V) es -> (forall e x, e ∈ es -> x ∈ slot_pages e -> V' !! x = V !! x) ->
  Forall (slot_ok V') es /\ list_now V' es = list_now V es /\ list_old V' es = list_old V es.
Proof.
  unfold list_now, list_old. induction 1 as [|e es He Hes IH]; intros Hf; [done|]. simpl.
  destruct (slot_ok_frame V V' e He) as (H1 & H2 & H3); [intros x Hx; apply (Hf e); [by left|done]|].
  destruct IH as (I1 & I2 & I3); [intros e' x He' Hx; apply (Hf e'); [by right|done]|].
  rewrite H2, H3, I2, I3. split; [by constructor|done].
Qed.

Lemma list_now_app V es es' : list_now V (es ++ es') = list_now V es ++ list_now V es'.
Proof. unfold list_now. by rewrite map_app, concat_app. Qed.
Lemma list_old_app V es es' : list_old V (es ++ es') = list_old V es ++ list_old V es'.
Proof. unfold list_old. by rewrite map_app, concat_app. Qed.
Lemma entries_app ch ch' : entries_of (ch ++ ch') = entries_of ch ++ entries_of ch'.
Proof. unfold entries_of. by rewrite map_app, concat_app. Qed.
Lemma entries_cons x ch : entries_of (x :: ch) = pin_entries x.2 ++ entries_of ch.
Proof. done. Qed.

Lemma nodup_replace {A} (l1 l2 l2' l3 : list A) :
  NoDup (l1 ++ l2 ++ l3) -> NoDup l2' -> (forall x, x ∈ l2' -> x ∈ l2 \/ (x ∉ l1 /\ x ∉ l3)) -> NoDup (l1 ++ l2' ++ l3).
Proof.
  rewrite !NoDup_app. intros (H1 & H12 & H2 & H23 & H3) H2' Hx. split_and!; try done.
  - intros x Hx1 [Hx2|Hx3]%elem_of_app; [|by apply (H12 x Hx1), elem_of_app; right].
    destruct (Hx x Hx2) as [Hq|[Hq _]]; [|done]. apply (H12 x Hx1), elem_of_app. by left.
  - intros x Hx2 Hx3. destruct (Hx x Hx2) as [Hq|[_ Hq]]; [by apply (H23 x)|done].
Qed.

Lemma chain_slots V ch : chain_ok V ch -> Forall (slot_ok V) (entries_of ch).
Proof.
  intros [Hi _]. induction Hi as [|x ch Hx _ IH]; [constructor|]. rewrite entries_cons. apply Forall_app. split; [apply Hx|done].
Qed.

(** The pages of the view that are not the inode's or the entry's stay. *)
Record entry_put V V' (a : Z) e e' : Prop := {
  ep_keep : forall x, is_Some (V !! x) -> x <> a -> x ∉ slot_pages e -> V' !! x = V !! x;
  ep_slot : slot_ok V' e';
  ep_nodup : NoDup (slot_pages e');
  ep_new : forall x, x ∈ slot_pages e' -> x ∈ slot_pages e \/ V !! x = None;
}.

Lemma in_concat_pages e es x : e ∈ es -> x ∈ slot_pages e -> x ∈ concat (map slot_pages es).
Proof.
  intros He Hx. apply list_elem_of_In, in_concat. exists (slot_pages e). split; [|by apply list_elem_of_In].
  apply in_map. by apply list_elem_of_In.
Qed.

Lemma pages_known V es x : Forall (slot_ok V) es -> x ∈ concat (map slot_pages es) -> is_Some (V !! x).
Proof.
  intros Hes Hin. apply list_elem_of_In, in_concat in Hin as (ps & Hps & Hin). apply in_map_iff in Hps as (e1 & <- & He1).
  rewrite Forall_forall in Hes. eapply slot_pages_in; [by apply Hes, list_elem_of_In|by apply list_elem_of_In].
Qed.

Lemma inode_entries ch y e : y ∈ ch -> e ∈ pin_entries y.2 -> e ∈ entries_of ch.
Proof.
  intros Hy He. apply list_elem_of_In, in_concat. exists (pin_entries y.2).
  split; [apply (in_map (fun x => pin_entries x.2)); by apply list_elem_of_In|by apply list_elem_of_In].
Qed.

Section put.
Context V V' (pre post : list (Z * Z * pptr_inode)) (a l : Z) (n n' : pptr_inode) (dn rest : list pin_entry) (e e' : pin_entry).
Context (Hch : chain_ok V (pre ++ (a, l, n) :: post)) (Hn : pin_entries n = dn ++ e :: rest).
Context (Hput : entry_put V V' a e e') (Ha : holds V' a l n').
Context (Hn' : pin_entries n' = dn ++ e' :: rest).

Definition left_entries := entries_of pre ++ dn.
Definition right_entries := rest ++ entries_of post.

Lemma put_entries : entries_of (pre ++ (a, l, n) :: post) = left_entries ++ e :: right_entries /\
  entries_of (pre ++ (a, l, n') :: post) = left_entries ++ e' :: right_entries.
Proof using Hn Hn'.
  unfold left_entries, right_entries. rewrite !entries_app, !entries_cons. cbn [snd]. rewrite Hn, Hn'.
  by rewrite <- !app_assoc.
Qed.

(** The addresses of the inodes, and the pages of the other entries. *)
Lemma put_nodup : NoDup (map inode_addr pre ++ [a] ++ map inode_addr post ++
  concat (map slot_pages left_entries) ++ slot_pages e ++ concat (map slot_pages right_entries)).
Proof using Hch Hn Hn'.
  pose proof put_entries as [E _]. pose proof (co_pages _ _ Hch) as Hnd. rewrite E in Hnd.
  rewrite !map_app, concat_app in Hnd. simpl in Hnd. rewrite <- !app_assoc in Hnd. exact Hnd.
Qed.

Lemma put_keeps e1 x : e1 ∈ left_entries \/ e1 ∈ right_entries -> x ∈ slot_pages e1 -> V' !! x = V !! x.
Proof using Hch Hn Hn' Hput.
  intros He1 Hx. pose proof put_entries as [E _]. pose proof (chain_slots _ _ Hch) as Hs. rewrite E in Hs.
  assert (Hin : x ∈ concat (map slot_pages left_entries) \/ x ∈ concat (map slot_pages right_entries)).
  { destruct He1 as [He1|He1]; [left|right]; by eapply in_concat_pages. }
  pose proof put_nodup as Hnd. apply Hput.
  - eapply pages_known; [exact Hs|]. rewrite map_app, concat_app. simpl. rewrite !elem_of_app. tauto.
  - apply NoDup_app in Hnd as (_ & _ & Hnd). apply NoDup_app in Hnd as (_ & Hnd & _). intros ->.
    apply (Hnd a); [by left|]. rewrite !elem_of_app. tauto.
  - intros Hxe. do 3 apply NoDup_app in Hnd as (_ & _ & Hnd). apply NoDup_app in Hnd as (_ & H12 & Hnd).
    apply NoDup_app in Hnd as (_ & H23 & _). destruct Hin as [Hin|Hin]; [|by apply (H23 x)].
    apply (H12 x Hin). rewrite elem_of_app. by left.
Qed.

Lemma put_frames : Forall (slot_ok V) left_entries -> Forall (slot_ok V) right_entries ->
  (Forall (slot_ok V') left_entries /\ list_now V' left_entries = list_now V left_entries /\ list_old V' left_entries = list_old V left_entries) /\
  (Forall (slot_ok V') right_entries /\ list_now V' right_entries = list_now V right_entries /\ list_old V' right_entries = list_old V right_entries).
Proof using Hch Hn Hn' Hput.
  intros HL HR. split; (apply list_frame; [done|]); intros e1 x He1; apply put_keeps; auto.
Qed.

(** The other inodes stay. *)
Lemma put_inode y : y ∈ pre ++ post -> inode_ok V y -> Forall (slot_ok V') (pin_entries y.2) -> inode_ok V' y.
Proof using Hch Hn Hn' Hput.
  intros Hy [(p & Hp & Ep) Hl _] Hsl. pose proof put_nodup as Hnd.
  assert (Hin : y.1.1 ∈ map inode_addr pre \/ y.1.1 ∈ map inode_addr post).
  { apply elem_of_app in Hy as [Hy|Hy]; [left|right]; apply list_elem_of_In, (in_map inode_addr); by apply list_elem_of_In. }
  split; [|done|done]. exists p. split; [|done]. rewrite <- Hp. apply Hput; [by eexists| |].
  - apply NoDup_app in Hnd as (_ & H1 & Hnd). apply NoDup_app in Hnd as (_ & H2 & _). intros Ey. rewrite Ey in Hin.
    destruct Hin as [Hin|Hin]; [apply (H1 _ Hin), elem_of_app; left; by left|apply (H2 a); [by left|by apply elem_of_app; left]].
  - intros Hx. apply NoDup_app in Hnd as (_ & H1 & Hnd). apply NoDup_app in Hnd as (_ & _ & Hnd).
    apply NoDup_app in Hnd as (_ & H2 & _).
    destruct Hin as [Hin|Hin]; [apply (H1 _ Hin)|apply (H2 _ Hin)]; rewrite !elem_of_app; tauto.
Qed.

Lemma rep_put : chain_ok V' (pre ++ (a, l, n') :: post) /\
  list_now V' (entries_of (pre ++ (a, l, n') :: post)) = list_now V left_entries ++ now_of V' e' ++ list_now V right_entries /\
  list_old V' (entries_of (pre ++ (a, l, n') :: post)) = list_old V left_entries ++ old_of V' e' ++ list_old V right_entries.
Proof using Hch Hn Hn' Hput Ha.
  pose proof put_entries as [E E']. pose proof (chain_slots _ _ Hch) as Hs. rewrite E in Hs.
  apply Forall_app in Hs as [HL HR']. apply Forall_cons in HR' as [He HR].
  destruct (put_frames HL HR) as [(HL' & NL & OL) (HR' & NR & OR)].
  split; [|rewrite E', list_now_app, list_old_app;
    change (list_old V' (e' :: right_entries)) with (old_of V' e' ++ list_old V' right_entries);
    change (list_now V' (e' :: right_entries)) with (now_of V' e' ++ list_now V' right_entries); by rewrite NL, OL, NR, OR].
  unfold left_entries, right_entries in HL', HR'. apply Forall_app in HL' as [HL1 HL2], HR' as [HR1 HR2].
  pose proof Hch as [Hi _]. apply Forall_app in Hi as [Hi1 Hi2]. apply Forall_cons in Hi2 as [Hia Hi2].
  rewrite Forall_forall in HL1. rewrite Forall_forall in HR2. rewrite Forall_forall in Hi1. rewrite Forall_forall in Hi2. split.
  - apply Forall_app. split; [|constructor].
    + apply Forall_forall. intros y Hy. apply put_inode; [apply elem_of_app; by left|by apply Hi1|].
      apply Forall_forall. intros e1 He1. apply HL1. by eapply inode_entries.
    + split; cbn [fst snd]; [done| |].
      * rewrite Hn'. destruct Hia as [_ Hl _]. cbn [snd] in Hl. rewrite Hn in Hl. unfold zlen in *. rewrite length_app in *. simpl in *. lia.
      * rewrite Hn'. apply Forall_app. split; [done|]. by constructor; [apply Hput|].
    + apply Forall_forall. intros y Hy. apply put_inode; [apply elem_of_app; by right|by apply Hi2|].
      apply Forall_forall. intros e1 He1. apply HR2. by eapply inode_entries.
  - assert (Ea : map inode_addr (pre ++ (a, l, n') :: post) = map inode_addr (pre ++ (a, l, n) :: post)) by by rewrite !map_app.
    pose proof (co_pages _ _ Hch) as Hnd. rewrite E in Hnd. rewrite E', Ea. clear Ea E E'.
    assert (Ec : forall e1, concat (map slot_pages (left_entries ++ e1 :: right_entries)) =
      concat (map slot_pages left_entries) ++ slot_pages e1 ++ concat (map slot_pages right_entries)).
    { intros e1. by rewrite map_app, concat_app. }
    rewrite Ec, app_assoc in *. eapply nodup_replace; [exact Hnd|apply Hput|].
    intros x Hx. destruct (ep_new _ _ _ _ _ Hput x Hx) as [Hq|Hq]; [by left|right].
    assert (Hno : forall es, Forall (slot_ok V) es -> x ∉ concat (map slot_pages es)).
    { intros es Hes Hin. destruct (pages_known V es x Hes Hin). congruence. }
    split; [|by apply Hno]. rewrite elem_of_app. intros [Hin|Hin]; [|by apply (Hno left_entries)].
    apply list_elem_of_In, in_map_iff in Hin as (y & <- & Hy%list_elem_of_In).
    pose proof (co_inodes _ _ Hch) as Hio. rewrite Forall_forall in Hio. destruct (Hio y Hy) as [(p & Hp & _) _ _].
    unfold inode_addr in Hq. congruence.
Qed.
End put.

(** ** Steps in a file that is zero outside of the pages in use

    New pages are not cleared, so the list relies on pages that were never
    written. *)
Lemma wp_getpage0 w V k (Q : Z * Z -> world PS -> Prop) :
  sees0 w V (S k) ->
  (forall a l w', V !! a = None -> 0 < a -> (forall b j, V !! b = Some j -> pi_laddr j <> l) ->
     sees0 w' (<[a := PInfo PgZero true l]> V) k -> globals w' = globals w -> Q (a, l) w') ->
  wp (getpage PA_PROT_WRITE) Q w.
Proof.
  intros Hs HQ. eapply wp_getpage_zero; [done|]. intros a l b w' H1 H2 Hb H3 H4. rewrite Hb in H4 by done. by apply HQ.
Qed.

Lemma wp_store0 w V k a i p (Q : unit -> world PS -> Prop) :
  sees0 w V k -> V !! a = Some i -> pi_writable i = true ->
  (forall w', sees0 w' (<[a := PInfo p true (pi_laddr i)]> V) k -> globals w' = globals w -> Q tt w') -> wp (store a p) Q w.
Proof. apply (storing_store (SV := sees0)). Qed.

Lemma wp_pmemcpy0 w V k dest src di si (Q : unit -> world PS -> Prop) :
  sees0 w V k -> V !! dest = Some di -> pi_writable di = true -> V !! src = Some si ->
  (forall w', sees0 w' (<[dest := PInfo (pi_page si) true (pi_laddr di)]> V) k -> globals w' = globals w -> Q tt w') ->
  wp (pmemcpy store dest src PAGE_SIZE) Q w.
Proof. apply (wp_pmemcpy (SV := sees0)), (storing_store (SV := sees0)). Qed.

(** ** The steps of the operations

    The rules hold for [sees] and for [sees0]. *)
Record seeing (SV : world PS -> gmap Z pinfo -> nat -> Prop) : Prop := {
  sv_sees : forall w V k, SV w V k -> sees w V k;
  sv_store : forall w V k a i p (Q : unit -> world PS -> Prop), SV w V k -> V !! a = Some i -> pi_writable i = true ->
    (forall w', SV w' (<[a := PInfo p true (pi_laddr i)]> V) k -> globals w' = globals w -> Q tt w') -> wp (store a p) Q w;
}.

Lemma seeing_sees : seeing sees.
Proof. split; [done|apply storing_store]. Qed.
Lemma seeing_sees0 : seeing sees0.
Proof. split; [by intros ??? []|apply wp_store0]. Qed.

Definition put_pin (n : pptr_inode) (i : Z) e : pptr_inode :=
  INode (pin_current_idx n) (pin_next n) (<[Z.to_nat i := e]> (pin_entries n)).

Lemma set_pin_entry_eq i f n e : zget (pin_entries n) i = Some e -> set_pin_entry i f n = Some (put_pin n i (f e)).
Proof.
  intros E. unfold set_pin_entry. rewrite E. simpl. apply zget_lt in E. destruct (zset_total (pin_entries n) i (f e) E) as [l El].
  rewrite El. simpl. by apply zset_Some in El as [_ ->].
Qed.

Lemma zget_middle {A} (l : list A) x l' : zget (l ++ x :: l') (zlen l) = Some x.
Proof. unfold zget, zlen. destruct (Z.leb_spec 0 (Z.of_nat (length l))); [|lia]. rewrite Nat2Z.id. by apply list_lookup_middle. Qed.

Lemma insert_middle {A} (l : list A) x y l' : <[Z.to_nat (zlen l) := y]> (l ++ x :: l') = l ++ y :: l'.
Proof. unfold zlen. rewrite Nat2Z.id. induction l as [|z l IH]; simpl; [done|by rewrite IH]. Qed.

Section steps.
Context (SV : world PS -> gmap Z pinfo -> nat -> Prop) (HSV : seeing SV).

Lemma wp_upd_inode w V k a p l n f n' (Q : unit -> world PS -> Prop) :
  SV w V k -> V !! a = Some (PInfo p true l) -> as_page (T := pptr_inode) p = Some n -> f n = Some n' ->
  (forall w', SV w' (<[a := PInfo (PgINode n') true l]> V) k -> globals w' = globals w -> Q tt w') ->
  wp (upd_inode a f) Q w.
Proof using HSV.
  intros Hs E Ep Ef HQ. unfold upd_inode. apply wp_bind. eapply wp_read_view; [by apply (sv_sees _ HSV)|done|done|].
  apply wp_bind. eapply wp_from_opt; [done|]. unfold write. by eapply (sv_store _ HSV).
Qed.

Lemma wp_entry w V k a p l n i e (Q : pin_entry -> world PS -> Prop) :
  SV w V k -> V !! a = Some (PInfo p true l) -> as_page (T := pptr_inode) p = Some n -> zget (pin_entries n) i = Some e ->
  Q e w -> wp (PPTR_INODE_ENTRY a i) Q w.
Proof using HSV.
  intros Hs E Ep Ee HQ. unfold PPTR_INODE_ENTRY. apply wp_bind. eapply wp_read_view; [by apply (sv_sees _ HSV)|done|done|].
  by eapply wp_from_opt.
Qed.

(** The four fields, read and written. *)
Lemma wp_cidxm w V k a p l n i e (Q : Z -> world PS -> Prop) :
  SV w V k -> V !! a = Some (PInfo p true l) -> as_page (T := pptr_inode) p = Some n -> zget (pin_entries n) i = Some e ->
  Q (n_maddr (pe_current e)) w -> wp (PPTR_INODE_CIDXM a i) Q w.
Proof using HSV. intros Hs E Ep Ee HQ. apply wp_bind. eapply wp_entry; [done..|]. by apply wp_ret. Qed.
Lemma wp_cidxl w V k a p l n i e (Q : Z -> world PS -> Prop) :
  SV w V k -> V !! a = Some (PInfo p true l) -> as_page (T := pptr_inode) p = Some n -> zget (pin_entries n) i = Some e ->
  Q (n_laddr (pe_current e)) w -> wp (PPTR_INODE_CIDXL a i) Q w.
Proof using HSV. intros Hs E Ep Ee HQ. apply wp_bind. eapply wp_entry; [done..|]. by apply wp_ret. Qed.
Lemma wp_sidxm w V k a p l n i e (Q : Z -> world PS -> Prop) :
  SV w V k -> V !! a = Some (PInfo p true l) -> as_page (T := pptr_inode) p = Some n -> zget (pin_entries n) i = Some e ->
  Q (n_maddr (pe_snapshot e)) w -> wp (PPTR_INODE_SIDXM a i) Q w.
Proof using HSV. intros Hs E Ep Ee HQ. apply wp_bind. eapply wp_entry; [done..|]. by apply wp_ret. Qed.
Lemma wp_sidxl w V k a p l n i e (Q : Z -> world PS -> Prop) :
  SV w V k -> V !! a = Some (PInfo p true l) -> as_page (T := pptr_inode) p = Some n -> zget (pin_entries n) i = Some e ->
  Q (n_laddr (pe_snapshot e)) w -> wp (PPTR_INODE_SIDXL a i) Q w.
Proof using HSV. intros Hs E Ep Ee HQ. apply wp_bind. eapply wp_entry; [done..|]. by apply wp_ret. Qed.

Lemma wp_set_entry w V k a p l n i e f (Q : unit -> world PS -> Prop) :
  SV w V k -> V !! a = Some (PInfo p true l) -> as_page (T := pptr_inode) p = Some n -> zget (pin_entries n) i = Some e ->
  (forall w', SV w' (<[a := PInfo (PgINode (put_pin n i (f e))) true l]> V) k -> globals w' = globals w -> Q tt w') ->
  wp (upd_inode a (set_pin_entry i f)) Q w.
Proof using HSV. intros Hs E Ep Ee HQ. eapply wp_upd_inode; [done|done|done|by apply set_pin_entry_eq|done]. Qed.

Lemma put_pin_get n i e e' : zget (pin_entries n) i = Some e -> zget (pin_entries (put_pin n i e')) i = Some e'.
Proof using. intros E. by eapply zget_insert. Qed.
Lemma put_pin_put n i e1 e2 : put_pin (put_pin n i e1) i e2 = put_pin n i e2.
Proof using. unfold put_pin. simpl. by rewrite list_insert_insert_eq. Qed.

(** ** Adding a pair to a data node *)
Definition push_pptr (d : pptr_dnode) (x : pptr) : pptr_dnode :=
  DNode (pdn_index d + 1) (<[Z.to_nat (pdn_index d) := x]> (pdn_entries d)).

Lemma push_items d x : 0 <= pdn_index d < zlen (pdn_entries d) -> dnode_items (push_pptr d x) = dnode_items d ++ [x].
Proof using.
  intros Hi. unfold dnode_items, push_pptr, zlen in *. cbn [pdn_index pdn_entries].
  replace (Z.to_nat (pdn_index d + 1)) with (S (Z.to_nat (pdn_index d))) by lia.
  rewrite (take_S_r _ _ x) by (apply list_lookup_insert_eq; lia). by rewrite take_insert_ge by lia.
Qed.

Lemma wp_add_pptr w V k c p l d x (Q : unit -> world PS -> Prop) :
  SV w V k -> V !! c = Some (PInfo p true l) -> as_page (T := pptr_dnode) p = Some d ->
  0 <= pdn_index d < PPTR_DNODE_ENTRIES -> zlen (pdn_entries d) = PPTR_DNODE_ENTRIES ->
  (forall w', SV w' (<[c := PInfo (PgDNode (push_pptr d x)) true l]> V) k -> globals w' = globals w -> Q tt w') ->
  wp (add_pptr c x) Q w.
Proof using HSV.
  intros Hs E Ep Hi Hl HQ. unfold add_pptr. apply wp_bind. eapply wp_read_view; [by apply (sv_sees _ HSV)|done|done|].
  destruct (zset_total (pdn_entries d) (pdn_index d) x) as [ls Els]; [lia|]. apply wp_bind. eapply wp_from_opt; [done|].
  apply zset_Some in Els as [_ ->]. apply wp_bind. unfold write. eapply (sv_store _ HSV); [done|done|done|]. intros w1 Hs1 Hg1.
  unfold upd. apply wp_bind. eapply wp_read_view; [by apply (sv_sees _ HSV)|apply lookup_insert_eq|done|]. unfold write.
  eapply (sv_store _ HSV); [done|apply lookup_insert_eq|done|]. intros w2 Hs2 Hg2. rewrite insert_insert_eq in Hs2.
  apply HQ; [|congruence]. cbn [pdn_index pdn_entries to_page dnode_page] in Hs2. unfold push_pptr.
  rewrite s32_id in Hs2; [done|]. change PPTR_DNODE_ENTRIES with 255 in Hi. lia.
Qed.
End steps.
End rules.
