(* ===== verification/PtrList.v ===== *)
(** * What the list of persistent pointers promises

    The list of [FixPtr] seen from outside: [ptr_list V head m now old] says
    that the pages [V] hold a list with [m] inodes, whose pairs are [now] in
    the running transaction and [old] at the last checkpoint.  The operations
    refine the abstract list with two versions: [pptr_init] makes it empty,
    [pptr_append] appends to [now] and keeps [old], [pptr_cpoint] makes [now]
    the committed list. *)
From Stdlib Require Import ZArith Lia.
From stdpp Require Import base numbers gmap option list.
From S2P Require Import Prelude Macros Bitstring Vector Queue Process RBTree FixedMapper PageAlloc.
From S2P Require Import SlabLayout World Demo Snapshot FixPtr.
Open Scope Z_scope.

(** The reference an inode, or the head, has to the rest of the list. *)
Definition ref_of (ch : list (Z * Z * pptr_inode)) : node_ref :=
  match ch with [] => NRef 0 0 | (a, l, _) :: _ => NRef a l end.

Fixpoint linked (ch : list (Z * Z * pptr_inode)) : Prop :=
  match ch with [] => True | x :: ch => pin_next x.2 = ref_of ch /\ linked ch end.

Lemma linked_replace pre a l n n' post :
  linked (pre ++ (a, l, n) :: post) -> pin_next n' = pin_next n -> linked (pre ++ (a, l, n') :: post).
Proof.
  intros Hl En. induction pre as [|[[b lb] m] pre IH]; simpl in *.
  - by rewrite En.
  - destruct Hl as [H1 H2]. split; [|by apply IH]. rewrite H1. by destruct pre as [|[[??]?] ?].
Qed.

Lemma linked_snoc pre a l n a' l' n' :
  linked (pre ++ [(a, l, n)]) -> pin_next n' = NRef 0 0 ->
  linked (pre ++ [(a, l, set_pin_next (NRef a' l') n); (a', l', n')]).
Proof.
  intros Hl En. induction pre as [|[[b lb] m] pre IH]; simpl in *; [done|].
  destruct Hl as [H1 H2]. split; [|by apply IH]. rewrite H1. by destruct pre as [|[[??]?] ?].
Qed.

Lemma ref_of_app pre a l n n' post : ref_of (pre ++ (a, l, n) :: post) = ref_of (pre ++ (a, l, n') :: post).
Proof. by destruct pre as [|[[??]?] ?]. Qed.

(** The last inode: the entries before the current one, the current one, and
    unused entries. *)
Definition last_inode (n : pptr_inode) (dn : list pin_entry) (e : pin_entry) (z : nat) : Prop :=
  pin_entries n = dn ++ e :: replicate z zero_pin_entry /\ pin_current_idx n = zlen dn.

Definition has_zero (V : gmap Z pinfo) : Prop := exists a i, V !! a = Some i /\ pi_laddr i = 0.

Record list_at (V : gmap Z pinfo) (head : pptr_head) (m : nat) (now old : list pptr)
    (pre : list (Z * Z * pptr_inode)) (a l : Z) (n : pptr_inode) (dn : list pin_entry) (e : pin_entry) (z : nat) : Prop := {
  la_zero : has_zero V;
  la_chain : chain_ok V (pre ++ [(a, l, n)]);
  la_linked : linked (pre ++ [(a, l, n)]);
  la_last : last_inode n dn e z;
  la_count : m = length (pre ++ [(a, l, n)]);
  la_first : ph_first head = ref_of (pre ++ [(a, l, n)]);
  la_plast : ph_last head = a;
  la_now : list_now V (entries_of (pre ++ [(a, l, n)])) = now;
  la_old : list_old V (entries_of (pre ++ [(a, l, n)])) = old;
}.

Definition ptr_list (V : gmap Z pinfo) (head : pptr_head) (m : nat) (now old : list pptr) : Prop :=
  exists pre a l n dn e z, list_at V head m now old pre a l n dn e z.

Lemma has_zero_insert V a p b l i : has_zero V -> V !! a = Some i -> pi_laddr i = l -> has_zero (<[a := PInfo p b l]> V).
Proof.
  intros (c & j & Hc & Hl) E <-. destruct (decide (c = a)) as [->|Hne].
  - exists a. eexists. split; [apply lookup_insert_eq|]. simpl. congruence.
  - exists c, j. by rewrite lookup_insert_ne.
Qed.

Lemma has_zero_new V a i : has_zero V -> V !! a = None -> has_zero (<[a := i]> V).
Proof. intros (c & j & Hc & Hl) E. exists c, j. by rewrite lookup_insert_ne by congruence. Qed.

Section list.
Context {PS : Type} `{PL : PageAllocatorLaws PS}.
Implicit Types (w : world PS) (V : gmap Z pinfo) (e : pin_entry) (ch : list (Z * Z * pptr_inode)).

(** Pages that may replace an entry without a write to its data node. *)
Lemma put_keep V a l p n e : V !! a = Some (PInfo p true l) -> slot_ok V e -> a ∉ slot_pages e -> NoDup (slot_pages e) ->
  entry_put V (<[a := PInfo (PgINode n) true l]> V) a e e /\ holds (<[a := PInfo (PgINode n) true l]> V) a l n /\
  now_of (<[a := PInfo (PgINode n) true l]> V) e = now_of V e /\ old_of (<[a := PInfo (PgINode n) true l]> V) e = old_of V e.
Proof.
  intros E He Ha Hnd.
  assert (Hf : forall x, x ∈ slot_pages e -> <[a := PInfo (PgINode n) true l]> V !! x = V !! x).
  { intros x Hx. apply lookup_insert_ne. by intros ->. }
  destruct (slot_ok_frame V _ e He Hf) as (H1 & H2 & H3). split; [|split; [|done]].
  - split; [|done|done|by left]. intros x _ Hx _. by apply lookup_insert_ne.
  - exists (PgINode n). split; [apply lookup_insert_eq|done].
Qed.

Lemma chain_at V pre a l n post dn e rest : chain_ok V (pre ++ (a, l, n) :: post) -> pin_entries n = dn ++ e :: rest ->
  holds V a l n /\ slot_ok V e /\ a ∉ slot_pages e /\ NoDup (slot_pages e) /\ zlen (dn ++ e :: rest) = PPTR_INODE_ENTRIES.
Proof.
  intros Hch Hn. pose proof (co_inodes _ _ Hch) as Hi. apply Forall_app in Hi as [_ Hi]. apply Forall_cons in Hi as [[Hp Hl Hs] _].
  cbn [fst snd] in *. rewrite Hn in Hs, Hl. apply Forall_app in Hs as [_ Hs]. apply Forall_cons in Hs as [Hs _].
  pose proof (put_nodup V pre post a l n n dn rest e e Hch Hn Hn) as Hnd.
  apply NoDup_app in Hnd as (_ & _ & Hnd). apply NoDup_app in Hnd as (_ & Ha & Hnd).
  apply NoDup_app in Hnd as (_ & _ & Hnd). apply NoDup_app in Hnd as (_ & _ & Hnd). apply NoDup_app in Hnd as (Hnd & _ & _).
  split_and!; try done. intros Hx. apply (Ha a); [by left|]. rewrite !elem_of_app. tauto.
Qed.

(** ** Adding a pair *)
Lemma items_eq V a l d : a <> 0 -> holds V a l d -> items_at V a = dnode_items d.
Proof. intros Ha (p & E & Ep). unfold items_at. destruct (Z.eqb_spec a 0); [done|]. rewrite E. cbn [pi_page]. by rewrite Ep. Qed.

Lemma items_frame V V' a : V' !! a = V !! a -> items_at V' a = items_at V a.
Proof. intros E. unfold items_at. by rewrite E. Qed.

Lemma dnode_in_insert V a l d b : 0 <= pdn_index d <= PPTR_DNODE_ENTRIES -> zlen (pdn_entries d) = PPTR_DNODE_ENTRIES -> b = true ->
  dnode_in (<[a := PInfo (PgDNode d) b l]> V) a l d.
Proof. intros H1 H2 ->. split; [|done]. exists (PgDNode d). by rewrite lookup_insert_eq. Qed.

Lemma push_ok d x : 0 <= pdn_index d < PPTR_DNODE_ENTRIES -> zlen (pdn_entries d) = PPTR_DNODE_ENTRIES ->
  0 <= pdn_index (push_pptr d x) <= PPTR_DNODE_ENTRIES /\ zlen (pdn_entries (push_pptr d x)) = PPTR_DNODE_ENTRIES /\
  dnode_items (push_pptr d x) = dnode_items d ++ [x].
Proof.
  intros Hi Hl. split_and!; [simpl; lia|simpl; lia| |apply push_items; lia]. unfold push_pptr, zlen in *. simpl. by rewrite length_insert.
Qed.

Record entry_append V V' (a l : Z) (n' : pptr_inode) e e' (x : pptr) : Prop := {
  ea_put : entry_put V V' a e e';
  ea_inode : holds V' a l n';
  ea_now : now_of V' e' = now_of V e ++ [x];
  ea_old : old_of V' e' = old_of V e;
}.

(** Without a snapshot to take: the data node is new in this transaction, or
    has been copied in it. *)
Lemma append_in_place V a l n c lc (sr : node_ref) d x :
  slot_ok V (PinEntry (NRef c lc) sr) -> c <> 0 -> c <> n_maddr sr -> holds V a l n -> a ∉ slot_pages (PinEntry (NRef c lc) sr) ->
  NoDup (slot_pages (PinEntry (NRef c lc) sr)) -> dnode_in V c lc d -> pdn_index d < PPTR_DNODE_ENTRIES ->
  entry_append V (<[c := PInfo (PgDNode (push_pptr d x)) true lc]> V) a l n (PinEntry (NRef c lc) sr) (PinEntry (NRef c lc) sr) x.
Proof.
  intros Hs Hc Hcs (pa & Ea & Epa) Hna Hnd [Hd [Hi Hl]] Hlt. destruct (push_ok d x) as (P1 & P2 & P3); [lia|done|].
  assert (Hin : c ∈ slot_pages (PinEntry (NRef c lc) sr)) by (by apply (cur_in_slot _ _ Hs)).
  assert (Hd' : dnode_in (<[c := PInfo (PgDNode (push_pptr d x)) true lc]> V) c lc (push_pptr d x)) by (by apply dnode_in_insert).
  split.
  - split; [|inversion Hs; subst|done|by left].
    + intros y _ _ Hy. apply lookup_insert_ne. by intros ->.
    + done.
    + by eapply slot_new.
    + done.
    + eapply slot_dirty; [done|done|exact Hd'|done|done|done|]. eapply dnode_in_frame; [done|]. simpl in Hcs. by apply lookup_insert_ne.
  - exists pa. rewrite lookup_insert_ne by (by intros ->). done.
  - unfold now_of. simpl. rewrite (items_eq _ _ _ _ Hc (proj1 Hd')), (items_eq _ _ _ _ Hc Hd). done.
  - apply items_frame. simpl. by apply lookup_insert_ne.
Qed.

(** A committed data node: its committed pairs are copied to a new page. *)
Lemma append_with_copy V V' a l n' c lc d s ls x pd :
  c <> 0 -> lc <> 0 -> s <> 0 -> ls <> 0 -> dnode_in V c lc d -> pdn_index d < PPTR_DNODE_ENTRIES ->
  V !! s = None -> a <> c -> a <> s -> V !! c = Some (PInfo pd true lc) ->
  V' !! s = Some (PInfo pd true ls) -> V' !! c = Some (PInfo (PgDNode (push_pptr d x)) true lc) ->
  V' !! a = Some (PInfo (PgINode n') true l) -> (forall y, y <> s -> y <> c -> y <> a -> V' !! y = V !! y) ->
  entry_append V V' a l n' (PinEntry (NRef c lc) (NRef c lc)) (PinEntry (NRef c lc) (NRef s ls)) x.
Proof.
  intros Hc Hlc Hs Hls Hd Hlt Hns Hac Has Ec Es' Ec' Ea' Hk. pose proof Hd as [Hd1 [Hi Hl]].
  destruct (push_ok d x) as (P1 & P2 & P3); [lia|done|].
  assert (Hsc : s <> c) by congruence.
  assert (Hpd : as_page (T := pptr_dnode) pd = Some d) by (destruct Hd1 as (p & E & Ep); congruence).
  assert (Hc' : dnode_in V' c lc (push_pptr d x)) by (split; [by exists (PgDNode (push_pptr d x))|done]).
  assert (Hs' : dnode_in V' s ls d) by (split; [by exists pd|done]).
  assert (Hpg : slot_pages (PinEntry (NRef c lc) (NRef c lc)) = [c]).
  { unfold slot_pages. simpl. destruct (Z.eqb_spec c 0); [done|]. by rewrite Z.eqb_refl. }
  assert (Hpg' : slot_pages (PinEntry (NRef c lc) (NRef s ls)) = [c; s]).
  { unfold slot_pages. simpl. by destruct (Z.eqb_spec c 0), (Z.eqb_spec s 0), (Z.eqb_spec s c). }
  split; [split| | |].
  - intros y Hy Hya Hyp. rewrite Hpg, list_elem_of_singleton in Hyp. apply Hk; [|done|done].
    intros ->. destruct Hy. congruence.
  - by eapply slot_dirty.
  - rewrite Hpg', !NoDup_cons, not_elem_of_cons. split_and!; [congruence|apply not_elem_of_nil|apply not_elem_of_nil|constructor].
  - rewrite Hpg, Hpg'. intros y [->|Hy]%elem_of_cons; [left; by left|]. apply list_elem_of_singleton in Hy as ->. by right.
  - by exists (PgINode n').
  - unfold now_of. simpl. rewrite (items_eq _ _ _ _ Hc (proj1 Hc')), (items_eq _ _ _ _ Hc Hd1). done.
  - unfold old_of. simpl. rewrite (items_eq _ _ _ _ Hs (proj1 Hs')), (items_eq _ _ _ _ Hc Hd1). done.
Qed.

Lemma wp_snapshot_append {A} (m : M (world PS) A) w V k pre a l n post dn e rest d x (Q : A -> world PS -> Prop) :
  sees0 w V (S k) -> chain_ok V (pre ++ (a, l, n) :: post) -> pin_entries n = dn ++ e :: rest -> n_maddr (pe_current e) <> 0 ->
  dnode_in V (n_maddr (pe_current e)) (n_laddr (pe_current e)) d -> pdn_index d < PPTR_DNODE_ENTRIES -> has_zero V ->
  (forall V' w' k' n' e', (k <= k')%nat -> sees0 w' V' k' -> entry_append V V' a l n' e e' x -> pin_entries n' = dn ++ e' :: rest ->
     pin_current_idx n' = pin_current_idx n -> pin_next n' = pin_next n -> has_zero V' -> wp m Q w') ->
  wp (let! _ := pptr_snapshot_dnode a (zlen dn) in add_pptr (n_maddr (pe_current e)) x ;;; m) Q w.
Proof.
  intros Hs Hch Hn Hc0 Hd Hlt Hz HQ. destruct (chain_at _ _ _ _ _ _ _ _ _ Hch Hn) as ((pa & Ea & Epa) & He & Hna & Hnd & _).
  pose proof Hd as ((pd & Ed & Epd) & Hi & Hl). assert (Hac : a <> n_maddr (pe_current e)).
  { intros ->. by apply Hna, (cur_in_slot V). }
  assert (Eg : zget (pin_entries n) (zlen dn) = Some e) by (rewrite Hn; apply zget_middle).
  assert (Hin : 0 <= pdn_index d < PPTR_DNODE_ENTRIES) by lia.
  apply wp_bind. unfold pptr_snapshot_dnode.
  apply wp_bind. eapply (wp_cidxl _ seeing_sees0); [exact Hs|exact Ea|exact Epa|exact Eg|].
  apply wp_bind. eapply (wp_sidxl _ seeing_sees0); [exact Hs|exact Ea|exact Epa|exact Eg|].
  destruct (Z.eqb_spec (n_laddr (pe_current e)) (n_laddr (pe_snapshot e))) as [El|El];
    [destruct (Z.eqb_spec (n_laddr (pe_snapshot e)) 0) as [El0|El0]|]; cbn [andb negb].
  all: swap 1 2.
  { (* a committed data node *)
    assert (Hcl : exists c lc, e = PinEntry (NRef c lc) (NRef c lc) /\ lc <> 0).
    { inversion He; subst; simpl in *; try done; [by eauto|]. exfalso.
      match goal with H1 : s <> c |- _ => apply H1 end.
      match goal with Hq : dnode_in V s ls ds |- _ => destruct Hq as ((p2 & E2 & _) & _) end.
      match goal with Hq : dnode_in V c lc d0 |- _ => destruct Hq as ((p3 & E3 & _) & _) end.
      subst. eapply (sees_laddr_inj _ _ _ _ _ _ _ (s0_sees _ _ _ Hs)); [exact E2|exact E3|done]. }
    destruct Hcl as (c & lc & -> & Hlc). cbn [pe_current pe_snapshot n_maddr n_laddr] in *.
    apply wp_bind. eapply wp_getpage0; [exact Hs|]. intros s ls w1 Hns Hs0 Hls Hs1 Hg1. cbn [fst snd].
    assert (Hls0 : ls <> 0). { destruct Hz as (b & j & Eb & Ej). intros ->. by apply (Hls b j Eb). }
    assert (Has : a <> s) by congruence. assert (Hcs : c <> s) by congruence.
    apply wp_bind. unfold set_SIDXL. eapply (wp_set_entry _ seeing_sees0); [exact Hs1|by vlook|exact Epa|exact Eg|]. intros w2 Hs2 Hg2.
    apply wp_bind. destruct (Z.eqb_spec s 0); [lia|]. apply wp_ret.
    apply wp_bind. eapply (wp_cidxm _ seeing_sees0); [exact Hs2|by vlook|reflexivity|by eapply put_pin_get|]. cbn [pe_current n_maddr].
    apply wp_bind. eapply wp_pmemcpy0; [exact Hs2|by vlook|done|by vlook|]. intros w3 Hs3 Hg3. cbn [pi_page pi_laddr] in Hs3.
    apply wp_bind. unfold set_SIDXM. eapply (wp_set_entry _ seeing_sees0); [exact Hs3|by vlook|reflexivity|by eapply put_pin_get|].
    intros w4 Hs4 Hg4. rewrite put_pin_put in Hs4. cbn [pe_current pe_snapshot n_maddr n_laddr] in Hs4. apply wp_ret. apply wp_bind.
    eapply (wp_add_pptr _ seeing_sees0); [exact Hs4|by vlook|exact Epd|done|done|]. intros w5 Hs5 Hg5.
    eapply HQ with (n' := put_pin n (zlen dn) (PinEntry (NRef c lc) (NRef s ls))) (e' := PinEntry (NRef c lc) (NRef s ls));
      [reflexivity|exact Hs5| |simpl; rewrite Hn; apply insert_middle|done|done|].
    - eapply append_with_copy with (pd := pd); [done|done|lia|done|exact Hd|done|done|done|done|done|by vlook|by vlook|by vlook|].
      intros y Hy1 Hy2 Hy3. by rewrite !lookup_insert_ne by done.
    - repeat (eapply has_zero_insert; [|by vlook|done]). by apply has_zero_new. }
  all: apply wp_ret; apply wp_bind; (eapply (wp_add_pptr _ seeing_sees0); [exact Hs|exact Ed|exact Epd|done|done|]); intros w1 Hs1 Hg1;
    (eapply HQ with (k' := S k) (n' := n) (e' := e); [lia|exact Hs1| |exact Hn|done|done|by eapply has_zero_insert]).
  all: destruct e as [[c lc] sr]; cbn [pe_current pe_snapshot n_maddr n_laddr] in *.
  all: apply append_in_place; try done; [|by exists pa]; inversion He; subst; simpl in *; congruence.
Qed.

(** ** The last inode *)
Lemma list_zero V z : list_now V (replicate z zero_pin_entry) = [] /\ list_old V (replicate z zero_pin_entry) = [].
Proof. unfold list_now, list_old. induction z as [|z [IH1 IH2]]; simpl; [done|by rewrite IH1, IH2]. Qed.

Lemma list_at_put V V' head m now old xs pre a l n n' dn e e' z dn2 e2 z2 :
  list_at V head m now old pre a l n dn e z -> entry_put V V' a e e' -> holds V' a l n' ->
  pin_entries n' = dn ++ e' :: replicate z zero_pin_entry -> last_inode n' dn2 e2 z2 -> pin_next n' = pin_next n ->
  now_of V' e' = now_of V e ++ xs -> old_of V' e' = old_of V e -> has_zero V' ->
  list_at V' head m (now ++ xs) old pre a l n' dn2 e2 z2.
Proof.
  intros [Hz Hch Hl [Hn Hi] Hm H1 H2 Hnow Hold] Hput Ha Hn' Hl2 Hnx Ho Hd Hz'.
  destruct (rep_put V V' pre [] a l n n' dn (replicate z zero_pin_entry) e e' Hch Hn Hput Ha Hn') as (Hc' & N' & O').
  destruct (put_entries pre [] a l n n dn (replicate z zero_pin_entry) e e Hn Hn) as [E _].
  destruct (list_zero V z) as [Z1 Z2].
  assert (ER : right_entries [] (replicate z zero_pin_entry) = replicate z zero_pin_entry) by (unfold right_entries; apply app_nil_r).
  rewrite ER in N', O', E. rewrite Z1, app_nil_r in N'. rewrite Z2, app_nil_r in O'.
  split; [done|done|by eapply linked_replace|done| |rewrite H1; apply ref_of_app|done| |].
  - rewrite Hm, !length_app. done.
  - rewrite N', Ho, app_assoc. f_equal. rewrite <- Hnow, E, list_now_app. f_equal.
    change (list_now V (e :: ?r)) with (now_of V e ++ list_now V r). by rewrite Z1, app_nil_r.
  - rewrite O', Hd. rewrite <- Hold, E, list_old_app. f_equal.
    change (list_old V (e :: ?r)) with (old_of V e ++ list_old V r). by rewrite Z2, app_nil_r.
Qed.

(** The entries stay, the rest of the inode changes. *)
Lemma put_same_entries V pre a l n n' post dn e rest : chain_ok V (pre ++ (a, l, n) :: post) ->
  pin_entries n = dn ++ e :: rest -> pin_entries n' = pin_entries n ->
  let V' := <[a := PInfo (PgINode n') true l]> V in
  entry_put V V' a e e /\ holds V' a l n' /\ now_of V' e = now_of V e /\ old_of V' e = old_of V e /\
  chain_ok V' (pre ++ (a, l, n') :: post) /\
  list_now V' (entries_of (pre ++ (a, l, n') :: post)) = list_now V (entries_of (pre ++ (a, l, n) :: post)) /\
  list_old V' (entries_of (pre ++ (a, l, n') :: post)) = list_old V (entries_of (pre ++ (a, l, n) :: post)).
Proof.
  intros Hch Hn En V'. destruct (chain_at _ _ _ _ _ _ _ _ _ Hch Hn) as ((pa & Ea & Epa) & He & Hna & Hnd & _).
  destruct (put_keep V a l pa n' e Ea He Hna Hnd) as (P1 & P2 & P3 & P4).
  destruct (rep_put V V' pre post a l n n' dn rest e e Hch Hn P1 P2) as (Hc & N & O); [by rewrite En|].
  destruct (put_entries pre post a l n n dn rest e e Hn Hn) as [E _]. split_and!; try done.
  - rewrite N, E, list_now_app. f_equal. change (list_now V (e :: ?r)) with (now_of V e ++ list_now V r). by f_equal.
  - rewrite O, E, list_old_app. f_equal. change (list_old V (e :: ?r)) with (old_of V e ++ list_old V r). by f_equal.
Qed.

Lemma list_at_next V head m now old pre a l n dn e z :
  list_at V head m now old pre a l n dn e (S z) ->
  list_at (<[a := PInfo (PgINode (set_pin_current_idx (zlen dn + 1) n)) true l]> V) head m now old
    pre a l (set_pin_current_idx (zlen dn + 1) n) (dn ++ [e]) zero_pin_entry z.
Proof.
  intros Hl. pose proof Hl as [Hz Hch Hlk [Hn Hi] Hm H1 H2 Hnow Hold].
  destruct (put_same_entries V pre a l n (set_pin_current_idx (zlen dn + 1) n) [] dn e (replicate (S z) zero_pin_entry) Hch Hn) as (P1 & P2 & P3 & P4 & _); [done|].
  destruct (chain_at _ _ _ _ _ _ _ _ _ Hch Hn) as ((pa & Ea & Epa) & _).
  rewrite <- (app_nil_r now). eapply list_at_put; [exact Hl|exact P1|exact P2|exact Hn| |done|by rewrite P3, app_nil_r|done|].
  - split; [rewrite <- app_assoc; exact Hn|]. unfold zlen. rewrite length_app. simpl. lia.
  - by eapply has_zero_insert.
Qed.

Lemma chain_snoc V ch a l : chain_ok V ch -> V !! a = None ->
  let V' := <[a := PInfo PgZero true l]> V in
  chain_ok V' (ch ++ [(a, l, zero_inode)]) /\
  list_now V' (entries_of (ch ++ [(a, l, zero_inode)])) = list_now V (entries_of ch) /\
  list_old V' (entries_of (ch ++ [(a, l, zero_inode)])) = list_old V (entries_of ch).
Proof.
  intros Hch Ha V'. pose proof (chain_slots _ _ Hch) as Hs.
  assert (Hk : forall y, is_Some (V !! y) -> V' !! y = V !! y).
  { intros y [i Hy]. apply lookup_insert_ne. intros ->. congruence. }
  destruct (list_frame V V' (entries_of ch) Hs) as (F1 & F2 & F3).
  { intros e x He Hx. apply Hk. rewrite Forall_forall in Hs. by eapply slot_pages_in; [apply Hs|]. }
  set (z := replicate 127 zero_pin_entry).
  assert (Ez : entries_of [(a, l, zero_inode)] = z) by apply app_nil_r. destruct (list_zero V' 127) as [Z1 Z2].
  rewrite !entries_app, list_now_app, list_old_app, Ez, F2, F3. unfold z. rewrite Z1, Z2, !app_nil_r. split_and!; [|done|done].
  assert (Hpz : concat (map slot_pages z) = []) by reflexivity.
  split.
  - apply Forall_app. split.
    + apply Forall_forall. intros y Hy. pose proof (co_inodes _ _ Hch) as Hi. rewrite Forall_forall in Hi.
      destruct (Hi y Hy) as [(p & Hp & Ep) Hl _]. split; [exists p; by rewrite Hk by by eexists|done|].
      apply Forall_forall. intros e He. rewrite Forall_forall in F1. apply F1. by eapply inode_entries.
    + constructor; [|constructor]. split; [exists PgZero; by split; [apply lookup_insert_eq|]|done|].
      apply Forall_forall. intros e He. change (e ∈ z) in He. apply elem_of_replicate in He as [-> _]. constructor.
  - rewrite entries_app, Ez, !map_app, concat_app, Hpz, app_nil_r. simpl. pose proof (co_pages _ _ Hch) as Hnd.
    apply NoDup_app in Hnd as (N1 & N2 & N3). rewrite <- app_assoc. apply NoDup_app. split_and!; [done| |].
    + intros x Hx [->|Hx2]%elem_of_cons; [|by apply (N2 x)]. apply list_elem_of_In, in_map_iff in Hx as (y & Ey & Hy%list_elem_of_In).
      pose proof (co_inodes _ _ Hch) as Hi. rewrite Forall_forall in Hi. destruct (Hi y Hy) as [(p & Hp & _) _ _].
      unfold inode_addr in Ey. simpl in Ey. congruence.
    + constructor; [|done]. intros Hx. destruct (pages_known V _ _ Hs Hx) as [i Hi]. unfold inode_addr in Hi. simpl in Hi. congruence.
Qed.

(** An entry a pair can be added to. *)
Definition open_entry V e : Prop := n_maddr (pe_current e) <> 0 /\
  exists d, dnode_in V (n_maddr (pe_current e)) (n_laddr (pe_current e)) d /\ pdn_index d < PPTR_DNODE_ENTRIES.

Lemma slot_cases V e : slot_ok V e -> e = zero_pin_entry \/ (n_maddr (pe_current e) <> 0 /\
  exists d, dnode_in V (n_maddr (pe_current e)) (n_laddr (pe_current e)) d).
Proof. intros He. inversion He; subst; [by left|right..]; (split; [done|by eexists]). Qed.

Lemma list_at_zget V head m now old pre a l n dn e z : list_at V head m now old pre a l n dn e z ->
  zget (pin_entries n) (zlen dn) = Some e /\ pin_current_idx n = zlen dn.
Proof. intros [_ _ _ [Hn Hi] _ _ _ _ _]. split; [rewrite Hn; apply zget_middle|done]. Qed.

Lemma list_at_inode V head m now old pre a l n dn e z : list_at V head m now old pre a l n dn e z ->
  holds V a l n /\ slot_ok V e /\ a ∉ slot_pages e /\ NoDup (slot_pages e) /\
  zlen (dn ++ e :: replicate z zero_pin_entry) = PPTR_INODE_ENTRIES.
Proof. intros [_ Hch _ [Hn _] _ _ _ _ _]. by apply (chain_at V pre a l n [] dn e). Qed.

Lemma new_entry V V' a l n' c lc : V !! c = None -> 0 < c -> lc <> 0 -> a <> c ->
  V' !! c = Some (PInfo PgZero true lc) -> V' !! a = Some (PInfo (PgINode n') true l) -> (forall y, y <> c -> y <> a -> V' !! y = V !! y) ->
  entry_put V V' a zero_pin_entry (PinEntry (NRef c lc) (NRef 0 0)) /\ holds V' a l n' /\
  now_of V' (PinEntry (NRef c lc) (NRef 0 0)) = [] /\ dnode_in V' c lc zero_dnode.
Proof.
  intros Hn Hc Hlc Hac Ec Ea Hk. assert (Hd : dnode_in V' c lc zero_dnode) by (split; [by exists PgZero|done]).
  assert (Hpg : slot_pages (PinEntry (NRef c lc) (NRef 0 0)) = [c]) by (unfold slot_pages; simpl; by destruct (Z.eqb_spec c 0); [lia|]).
  split; [split|split_and!].
  - intros y [i Hy] Hya _. apply Hk; [|done]. intros ->. congruence.
  - eapply slot_new; [lia|done|exact Hd].
  - rewrite Hpg. apply NoDup_singleton.
  - rewrite Hpg. intros y ->%list_elem_of_singleton. by right.
  - by exists (PgINode n').
  - unfold now_of. simpl. rewrite (items_eq _ _ lc zero_dnode); [done|lia|apply Hd].
  - done.
Qed.

Lemma wp_cmaddr w V k head m now old pre a l n dn e z (Q : Z -> world PS -> Prop) :
  sees0 w V k -> list_at V head m now old pre a l n dn e z -> Q (n_maddr (pe_current e)) w -> wp (PPTR_INODE_CMADDR a) Q w.
Proof.
  intros Hs Hl HQ. destruct (list_at_zget _ _ _ _ _ _ _ _ _ _ _ _ Hl) as [Eg Ei].
  destruct (list_at_inode _ _ _ _ _ _ _ _ _ _ _ _ Hl) as ((pa & Ea & Epa) & _).
  unfold PPTR_INODE_CMADDR, pin_idx. apply wp_bind, wp_bind. eapply wp_read_view; [apply Hs|exact Ea|exact Epa|]. apply wp_ret.
  rewrite Ei. eapply (wp_cidxm _ seeing_sees0); [exact Hs|exact Ea|exact Epa|exact Eg|done].
Qed.

(** The data node of the current entry, a new one if there is none. *)
Lemma wp_current_dnode w V k head m now old pre a l n dn e z (Q : Z * Z * pptr_head -> world PS -> Prop) :
  sees0 w V (S k) -> list_at V head m now old pre a l n dn e z -> e = zero_pin_entry \/ open_entry V e ->
  (forall V' w' k' n' e', (k <= k')%nat -> sees0 w' V' k' -> list_at V' head m now old pre a l n' dn e' z -> open_entry V' e' ->
     Q (n_maddr (pe_current e'), a, head) w') ->
  wp (let! dnode := PPTR_INODE_CMADDR a in
      let! dnode := (if dnode =? 0 then
                       let! r := getpage PA_PROT_WRITE in
                       let! i := pin_idx a in
                       set_CIDXL a i r.2 ;;;
                       set_CIDXM a i r.1 ;;;
                       PPTR_INODE_CMADDR a
                     else ret dnode) in
      ret (dnode, a, head)) Q w.
Proof.
  intros Hs Hl He HQ. apply wp_bind. eapply wp_cmaddr; [exact Hs|exact Hl|].
  destruct He as [->|He].
  - simpl. destruct (list_at_zget _ _ _ _ _ _ _ _ _ _ _ _ Hl) as [Eg Ei].
    destruct (list_at_inode _ _ _ _ _ _ _ _ _ _ _ _ Hl) as ((pa & Ea & Epa) & _).
    apply wp_bind, wp_bind. eapply wp_getpage0; [exact Hs|]. intros c lc w1 Hnc Hc0 Hlc Hs1 Hg1. cbn [fst snd].
    destruct (la_zero _ _ _ _ _ _ _ _ _ _ _ _ Hl) as (b & j & Eb & Ej).
    assert (Hlc0 : lc <> 0) by (intros ->; by apply (Hlc b j Eb)). assert (Hac : a <> c) by congruence.
    apply wp_bind. unfold pin_idx. apply wp_bind. eapply wp_read_view; [apply Hs1|by vlook|exact Epa|]. apply wp_ret. rewrite Ei.
    apply wp_bind. eapply (wp_set_entry _ seeing_sees0); [exact Hs1|by vlook|exact Epa|exact Eg|]. intros w2 Hs2 Hg2.
    apply wp_bind. eapply (wp_set_entry _ seeing_sees0); [exact Hs2|by vlook|reflexivity|by eapply put_pin_get|].
    intros w3 Hs3 Hg3. rewrite put_pin_put, insert_insert_eq in Hs3. cbn [pe_current pe_snapshot n_maddr n_laddr] in Hs3.
    destruct (new_entry V (<[a := PInfo (PgINode (put_pin n (zlen dn) (PinEntry (NRef c lc) (NRef 0 0)))) true l]> (<[c := PInfo PgZero true lc]> V))
      a l (put_pin n (zlen dn) (PinEntry (NRef c lc) (NRef 0 0))) c lc) as (P1 & P2 & P3 & P4);
      [done|done|done|done|by vlook|by vlook|intros y H1 H2; by rewrite !lookup_insert_ne by done|].
    pose proof Hl as [Hz Hch Hlk [Hn Hi] Hm H1 H2 Hnow Hold].
    assert (Hl' : list_at (<[a := PInfo (PgINode (put_pin n (zlen dn) (PinEntry (NRef c lc) (NRef 0 0)))) true l]> (<[c := PInfo PgZero true lc]> V))
      head m now old pre a l (put_pin n (zlen dn) (PinEntry (NRef c lc) (NRef 0 0))) dn (PinEntry (NRef c lc) (NRef 0 0)) z).
    { rewrite <- (app_nil_r now). eapply list_at_put; [exact Hl|exact P1|exact P2| | |done|by rewrite P3|done|].
      - simpl. rewrite Hn. apply insert_middle.
      - split; [simpl; rewrite Hn; apply insert_middle|done].
      - eapply has_zero_insert; [by apply has_zero_new|by vlook|done]. }
    eapply wp_cmaddr; [exact Hs3|exact Hl'|]. apply wp_ret.
    eapply HQ; [|exact Hs3|exact Hl'|]; [done|]. split; [simpl; lia|]. exists zero_dnode. split; [done|]. done.
  - destruct He as [Hc Hd]. destruct (Z.eqb_spec (n_maddr (pe_current e)) 0); [done|]. apply wp_bind, wp_ret, wp_ret.
    eapply (HQ V w (S k)); [lia|done|done|by split].
Qed.

Definition full_entry V e : Prop := n_maddr (pe_current e) <> 0 /\
  exists d, dnode_in V (n_maddr (pe_current e)) (n_laddr (pe_current e)) d /\ PPTR_DNODE_IS_FULL d = true.

Lemma entry_cases V e : slot_ok V e -> e = zero_pin_entry \/ open_entry V e \/ full_entry V e.
Proof.
  intros He. destruct (slot_cases V e He) as [->|[Hc [d Hd]]]; [by left|right]. destruct (PPTR_DNODE_IS_FULL d) eqn:E.
  - right. split; [done|]. by exists d.
  - left. split; [done|]. exists d. split; [done|]. unfold PPTR_DNODE_IS_FULL in E. apply Z.eqb_neq in E. destruct Hd as (_ & ? & _). lia.
Qed.

(** [dnode && PPTR_DNODE_IS_FULL(dnode)] *)
Definition entry_full V e (b : bool) : Prop := if b then full_entry V e else ~ full_entry V e.

Lemma full_open V e : full_entry V e -> ~ open_entry V e.
Proof.
  intros [_ (d & ((p & E & Ep) & _) & Hf)] [_ (d' & ((p' & E' & Ep') & _) & Ho)]. unfold PPTR_DNODE_IS_FULL in Hf. apply Z.eqb_eq in Hf.
  assert (d = d') as -> by congruence. lia.
Qed.

Lemma wp_is_full w V k e (Q : bool -> world PS -> Prop) : sees0 w V k -> slot_ok V e ->
  (forall b, entry_full V e b -> Q b w) ->
  wp (if n_maddr (pe_current e) =? 0 then ret false
      else let! d := read (T := pptr_dnode) (n_maddr (pe_current e)) in ret (PPTR_DNODE_IS_FULL d)) Q w.
Proof.
  intros Hs He HQ. destruct (slot_cases V e He) as [->|[Hc [d Hd]]].
  - apply wp_ret, HQ. by intros [? _].
  - destruct (Z.eqb_spec (n_maddr (pe_current e)) 0); [done|]. pose proof Hd as ((pd & Ed & Epd) & Hi & _).
    apply wp_bind. eapply wp_read_view; [apply Hs|exact Ed|exact Epd|]. apply wp_ret, HQ.
    destruct (PPTR_DNODE_IS_FULL d) eqn:Ef; [split; [done|by exists d]|]. intros Hfull. apply (full_open _ _ Hfull). split; [done|].
    exists d. split; [done|]. unfold PPTR_DNODE_IS_FULL in Ef. apply Z.eqb_neq in Ef. lia.
Qed.

Lemma full_zero V : ~ full_entry V zero_pin_entry.
Proof. by intros [? _]. Qed.

Lemma last_entry (dn : list pin_entry) e z : zlen (dn ++ e :: replicate z zero_pin_entry) = PPTR_INODE_ENTRIES ->
  zget (dn ++ e :: replicate z zero_pin_entry) (PPTR_INODE_ENTRIES - 1) = Some (if decide (z = O) then e else zero_pin_entry).
Proof.
  intros Hl. rewrite <- Hl. unfold zlen, zget. rewrite length_app. simpl. rewrite length_replicate.
  destruct (Z.leb_spec 0 (Z.of_nat (length dn + S z) - 1)) as [_|]; [|lia].
  replace (Z.to_nat (Z.of_nat (length dn + S z) - 1)) with (length dn + z)%nat by lia.
  rewrite lookup_app_r by lia. replace (length dn + z - length dn)%nat with z by lia.
  destruct (decide (z = O)) as [->|Hz]; [done|]. destruct z as [|z]; [done|]. apply (lookup_replicate_2 (S z) zero_pin_entry z). lia.
Qed.

Lemma wp_need_expanding w V k head m now old pre a l n dn e z (Q : bool -> world PS -> Prop) :
  sees0 w V k -> list_at V head m now old pre a l n dn e z ->
  (forall b, entry_full V (if decide (z = O) then e else zero_pin_entry) b -> Q b w) -> wp (pptr_need_expanding a) Q w.
Proof.
  intros Hs Hl HQ. destruct (list_at_inode _ _ _ _ _ _ _ _ _ _ _ _ Hl) as ((pa & Ea & Epa) & He & _ & _ & Hlen).
  pose proof (la_last _ _ _ _ _ _ _ _ _ _ _ _ Hl) as [Hn _].
  unfold pptr_need_expanding, PPTR_INODE_CLAST. apply wp_bind. eapply (wp_cidxm _ seeing_sees0); [exact Hs|exact Ea|exact Epa| |].
  - rewrite Hn. by apply last_entry.
  - eapply wp_is_full; [exact Hs| |exact HQ]. destruct (decide (z = O)); [done|constructor].
Qed.

(** ** The three steps of [pptr_get_dnode] *)
Lemma wp_extend_list w V k head m now old pre a l n dn e z (Q : Z * pptr_head -> world PS -> Prop) :
  sees0 w V (S k) -> list_at V head m now old pre a l n dn e z ->
  (forall V' w' head' pre' a' l' n', sees0 w' V' k ->
     list_at V' head' (S m) now old pre' a' l' n' [] zero_pin_entry 126 -> Q (a', head') w') ->
  wp (pptr_extend_list head) Q w.
Proof.
  intros Hs Hl HQ. pose proof Hl as [Hz Hch Hlk [Hn Hi] Hm H1 H2 Hnow Hold].
  destruct (chain_at _ _ _ _ _ _ _ _ _ Hch Hn) as ((pa & Ea & Epa) & _). unfold pptr_extend_list. rewrite H2.
  apply wp_bind. eapply wp_getpage0; [exact Hs|]. intros a' l' w1 Hna Ha0 Hnl Hs1 Hg1. cbn [fst snd].
  apply wp_bind. eapply (wp_upd_inode _ seeing_sees0); [exact Hs1|rewrite lookup_insert_ne by congruence; exact Ea|exact Epa|reflexivity|].
  intros w2 Hs2 Hg2. apply wp_bind. destruct (Z.eqb_spec a' 0); [lia|]. apply wp_ret.
  apply wp_bind. eapply (wp_upd_inode _ seeing_sees0); [exact Hs2|apply lookup_insert_eq|reflexivity|reflexivity|].
  intros w3 Hs3 Hg3. rewrite insert_insert_eq in Hs3. cbn [set_pin_next pin_next pin_current_idx pin_entries n_laddr] in Hs3.
  destruct (chain_snoc V _ a' l' Hch Hna) as (C1 & C2 & C3). rewrite <- app_assoc in C1, C2, C3. simpl in C1, C2, C3.
  destruct (put_same_entries _ pre a l n (set_pin_next (NRef a' l') n) [(a', l', zero_inode)] dn e (replicate z zero_pin_entry) C1 Hn) as (_ & _ & _ & _ & D1 & D2 & D3); [done|].
  apply wp_ret. eapply (HQ _ _ _ (pre ++ [(a, l, set_pin_next (NRef a' l') n)]) a' l' zero_inode); [exact Hs3|].
  split; rewrite <- ?app_assoc; simpl.
  - eapply has_zero_insert; [by apply has_zero_new|rewrite lookup_insert_ne by congruence; exact Ea|done].
  - exact D1.
  - by apply linked_snoc.
  - done.
  - rewrite Hm, !length_app. simpl. lia.
  - rewrite H1. rewrite (ref_of_app pre a l n (set_pin_next (NRef a' l') n) []). by destruct pre as [|[[??]?] ?].
  - done.
  - rewrite <- Hnow, <- C2. exact D2.
  - rewrite <- Hold, <- C3. exact D3.
Qed.

(** Moving on from a full data node. *)
Lemma wp_next_entry w V k head m now old pre a l n dn e z (Q : unit -> world PS -> Prop) :
  sees0 w V k -> list_at V head m now old pre a l n dn e (S z) ->
  (forall V' w' n' dn', sees0 w' V' k -> list_at V' head m now old pre a l n' dn' zero_pin_entry z -> Q tt w') ->
  wp (upd_inode a (fun n => Some (set_pin_current_idx (s32 (pin_current_idx n + 1)) n))) Q w.
Proof.
  intros Hs Hl HQ. destruct (list_at_inode _ _ _ _ _ _ _ _ _ _ _ _ Hl) as ((pa & Ea & Epa) & _ & _ & _ & Hlen).
  pose proof (la_last _ _ _ _ _ _ _ _ _ _ _ _ Hl) as [_ Hi].
  eapply (wp_upd_inode _ seeing_sees0); [exact Hs|exact Ea|exact Epa|reflexivity|]. intros w1 Hs1 Hg1.
  rewrite Hi, s32_id in Hs1.
  - eapply HQ; [exact Hs1|]. by apply list_at_next.
  - unfold zlen in *. rewrite length_app in Hlen. simpl in Hlen. change PPTR_INODE_ENTRIES with 127 in Hlen. lia.
Qed.

Lemma wp_get_dnode w V k head m now old (Q : Z * Z * pptr_head -> world PS -> Prop) :
  sees0 w V (S (S (S k))) -> ptr_list V head m now old ->
  (forall V' w' k' head' m' pre a l n dn e z, (S k <= k')%nat -> (m' <= S m)%nat -> sees0 w' V' k' ->
     list_at V' head' m' now old pre a l n dn e z -> open_entry V' e -> Q (n_maddr (pe_current e), a, head') w') ->
  wp (pptr_get_dnode head) Q w.
Proof.
  intros Hs (pre & a & l & n & dn & e & z & Hl) HQ. pose proof (la_plast _ _ _ _ _ _ _ _ _ _ _ _ Hl) as Hla.
  destruct (list_at_inode _ _ _ _ _ _ _ _ _ _ _ _ Hl) as (_ & He & _).
  unfold pptr_get_dnode. rewrite Hla. apply wp_bind. eapply wp_need_expanding; [exact Hs|exact Hl|]. intros [|] Hf.
  - apply wp_bind. eapply wp_extend_list; [exact Hs|exact Hl|]. intros V1 w1 head1 pre1 a1 l1 n1 Hs1 Hl1.
    apply wp_bind. eapply wp_cmaddr; [exact Hs1|exact Hl1|]. apply wp_bind. apply wp_ret. apply wp_bind, wp_ret.
    eapply wp_current_dnode; [exact Hs1|exact Hl1|by left|]. intros V2 w2 k2 n2 e2 Hk Hs2 Hl2 He2. by eapply HQ; [| |exact Hs2|exact Hl2|].
  - apply wp_bind, wp_ret. apply wp_bind. eapply wp_cmaddr; [exact Hs|exact Hl|].
    apply wp_bind. eapply wp_is_full; [exact Hs|exact He|]. intros [|] Hfull; simpl.
    + destruct z as [|z]; [exfalso; by apply Hf|]. apply wp_bind. eapply wp_next_entry; [exact Hs|exact Hl|].
      intros V1 w1 n1 dn1 Hs1 Hl1. eapply wp_current_dnode; [exact Hs1|exact Hl1|by left|].
      intros V2 w2 k2 n2 e2 Hk Hs2 Hl2 He2. eapply HQ; [| |exact Hs2|exact Hl2|done]; lia.
    + apply wp_bind, wp_ret. eapply wp_current_dnode; [exact Hs|exact Hl| |].
      * destruct (entry_cases V e He) as [->|[Ho|Hx]]; [by left|by right|by destruct Hfull].
      * intros V2 w2 k2 n2 e2 Hk Hs2 Hl2 He2. eapply HQ; [| |exact Hs2|exact Hl2|done]; lia.
Qed.

(** ** Checkpoint of the list *)
Definition cpoint_pin e : pin_entry := PinEntry (pe_current e) (pe_current e).

Lemma cpoint_put V V' a l n' e : a ∉ slot_pages e -> slot_ok V e -> NoDup (slot_pages e) ->
  V' !! a = Some (PInfo (PgINode n') true l) ->
  (forall y, y <> a -> y = n_maddr (pe_current e) \/ y ∉ slot_pages e -> V' !! y = V !! y) ->
  entry_put V V' a e (cpoint_pin e) /\ holds V' a l n' /\ now_of V' (cpoint_pin e) = now_of V e /\
  old_of V' (cpoint_pin e) = now_of V e.
Proof.
  intros Ha He Hnd Ea Hk.
  assert (Hc : n_maddr (pe_current e) <> 0 -> V' !! n_maddr (pe_current e) = V !! n_maddr (pe_current e)).
  { intros Hc. apply Hk; [|by left]. intros E. apply Ha. rewrite <- E. by apply (cur_in_slot V). }
  assert (Hi : items_at V' (n_maddr (pe_current e)) = items_at V (n_maddr (pe_current e))).
  { destruct (decide (n_maddr (pe_current e) = 0)) as [E|Hn]; [unfold items_at; by rewrite E|by apply items_frame, Hc]. }
  assert (Hpg : slot_pages (cpoint_pin e) = if n_maddr (pe_current e) =? 0 then [] else [n_maddr (pe_current e)]).
  { unfold slot_pages, cpoint_pin. simpl. rewrite Z.eqb_refl, orb_true_r. by rewrite app_nil_r. }
  split_and!; [|by exists (PgINode n')|exact Hi|exact Hi]. split.
  - intros y _ Hya Hys. apply Hk; [done|by right].
  - destruct (slot_cases V e He) as [->|[Hc0 [d Hd]]]; [constructor|]. unfold cpoint_pin. destruct e as [[c lc] sr]; simpl in *.
    eapply slot_clean; [done|inversion He; by subst|eapply dnode_in_frame; [exact Hd|by apply Hc]].
  - rewrite Hpg. destruct (n_maddr (pe_current e) =? 0); [constructor|apply NoDup_singleton].
  - rewrite Hpg. destruct (Z.eqb_spec (n_maddr (pe_current e)) 0); [by intros ? ?%elem_of_nil|].
    intros y ->%list_elem_of_singleton. left. by apply (cur_in_slot V).
Qed.

Lemma put_pin_same n i e : zget (pin_entries n) i = Some e -> put_pin n i e = n.
Proof.
  intros E. unfold zget in E. destruct (0 <=? i); [|done]. unfold put_pin. rewrite list_insert_id by done. by destruct n.
Qed.

(** The body of the inner loop. *)
Lemma wp_cpoint_entry w V k pre a l n post dn e rest (Q : unit -> world PS -> Prop) :
  sees w V k -> chain_ok V (pre ++ (a, l, n) :: post) -> pin_entries n = dn ++ e :: rest -> has_zero V ->
  (forall V' w' k', (k <= k')%nat -> sees w' V' k' -> has_zero V' ->
     entry_put V V' a e (cpoint_pin e) -> holds V' a l (put_pin n (zlen dn) (cpoint_pin e)) ->
     now_of V' (cpoint_pin e) = now_of V e -> Q tt w') ->
  wp (pptr_cpoint_entry a (zlen dn)) Q w.
Proof.
  intros Hs Hch Hn Hz HQ. destruct (chain_at _ _ _ _ _ _ _ _ _ Hch Hn) as ((pa & Ea & Epa) & He & Hna & Hnd & _).
  assert (Eg : zget (pin_entries n) (zlen dn) = Some e) by (rewrite Hn; apply zget_middle).
  assert (Hend : forall V1 w1 k1, (k <= k1)%nat -> sees w1 V1 k1 -> V1 !! a = V !! a -> has_zero V1 ->
    (forall y, y <> a -> y = n_maddr (pe_current e) \/ y ∉ slot_pages e -> V1 !! y = V !! y) ->
    wp (let! l := PPTR_INODE_CIDXL a (zlen dn) in
        set_SIDXL a (zlen dn) l ;;;
        let! m := PPTR_INODE_CIDXM a (zlen dn) in
        set_SIDXM a (zlen dn) m) Q w1).
  { intros V1 w1 k1 Hk1 Hs1 Ea1 Hz1 Hf. rewrite Ea in Ea1.
    apply wp_bind. eapply (wp_cidxl _ seeing_sees); [exact Hs1|exact Ea1|exact Epa|exact Eg|].
    apply wp_bind. eapply (wp_set_entry _ seeing_sees); [exact Hs1|exact Ea1|exact Epa|exact Eg|]. intros w2 Hs2 _.
    apply wp_bind. eapply (wp_cidxm _ seeing_sees); [exact Hs2|apply lookup_insert_eq|reflexivity|by eapply put_pin_get|].
    eapply (wp_set_entry _ seeing_sees); [exact Hs2|apply lookup_insert_eq|reflexivity|by eapply put_pin_get|]. intros w3 Hs3 _.
    rewrite put_pin_put, insert_insert_eq in Hs3. cbn [pe_current pe_snapshot n_maddr n_laddr] in Hs3.
    assert (Ec : PinEntry (pe_current e) (NRef (n_maddr (pe_current e)) (n_laddr (pe_current e))) = cpoint_pin e).
    { unfold cpoint_pin. by destruct (pe_current e). }
    rewrite Ec in Hs3.
    destruct (cpoint_put V (<[a := PInfo (PgINode (put_pin n (zlen dn) (cpoint_pin e))) true l]> V1) a l (put_pin n (zlen dn) (cpoint_pin e)) e Hna He Hnd) as (P1 & P2 & P3 & P4);
      [apply lookup_insert_eq| |eapply HQ; [exact Hk1|exact Hs3| |exact P1|exact P2|exact P3]; by eapply has_zero_insert].
    intros y Hya Hy. rewrite lookup_insert_ne by done. by apply Hf. }
  unfold pptr_cpoint_entry. apply wp_bind. eapply (wp_cidxm _ seeing_sees); [exact Hs|exact Ea|exact Epa|exact Eg|].
  inversion He as [Ez|c lc d Hc Hlc Hd Ee|c lc d Hc Hlc Hd Ee|c lc d s ls ds Hc Hlc Hd Hs0 Hls Hsc Hds Ee]; [rewrite <- Ez in *|rewrite <- Ee in *..];
    cbn [pe_current pe_snapshot n_maddr n_laddr zero_pin_entry] in *.
  - apply wp_ret. destruct (put_keep V a l pa n zero_pin_entry Ea He Hna Hnd) as (P1 & P2 & P3 & P4).
    eapply (HQ V w k); [lia|done|done| |exists pa; by rewrite put_pin_same|done].
    split; [done|constructor|constructor|]. by intros x ?%elem_of_nil.
  - destruct (Z.eqb_spec c 0); [done|]. cbn [negb when].
    apply wp_bind. eapply (wp_sidxm _ seeing_sees); [exact Hs|exact Ea|exact Epa|exact Eg|]. cbn [pe_snapshot n_maddr].
    apply wp_bind, wp_ret. apply (Hend V w k); auto.
  - destruct (Z.eqb_spec c 0); [done|]. cbn [negb when].
    apply wp_bind. eapply (wp_sidxm _ seeing_sees); [exact Hs|exact Ea|exact Epa|exact Eg|]. cbn [pe_snapshot n_maddr].
    apply wp_bind. rewrite Z.eqb_refl, andb_false_r. apply wp_ret. apply (Hend V w k); auto.
  - destruct (Z.eqb_spec c 0); [done|]. cbn [negb when].
    apply wp_bind. eapply (wp_sidxm _ seeing_sees); [exact Hs|exact Ea|exact Epa|exact Eg|]. cbn [pe_snapshot n_maddr].
    apply wp_bind. destruct (Z.eqb_spec s 0); [done|]. destruct (Z.eqb_spec s c); [done|]. cbn [negb andb when].
    destruct Hds as ((p2 & E2 & _) & _). eapply wp_freepages_view; [exact Hs|exact E2|]. intros w1 Hs1 Hg1.
    assert (Hin : s ∈ slot_pages (PinEntry (NRef c lc) (NRef s ls))) by by apply (snap_in_slot (PinEntry (NRef c lc) (NRef s ls))).
    apply (Hend (delete s V) w1 (S k)); [lia|done| | |].
    + apply lookup_delete_ne. by intros ->.
    + destruct Hz as (b & j & Eb & Ej). exists b, j. split; [|done]. rewrite lookup_delete_ne; [done|]. intros ->.
      rewrite E2 in Eb. injection Eb as <-. by apply Hls.
    + intros y _ Hy. apply lookup_delete_ne. intros <-. destruct Hy as [->|Hy]; [done|]. by apply Hy.
Qed.

Lemma put_now V V' pre post a l n n' dn rest e e' : chain_ok V (pre ++ (a, l, n) :: post) -> pin_entries n = dn ++ e :: rest ->
  entry_put V V' a e e' -> holds V' a l n' -> pin_entries n' = dn ++ e' :: rest -> now_of V' e' = now_of V e ->
  chain_ok V' (pre ++ (a, l, n') :: post) /\
  list_now V' (entries_of (pre ++ (a, l, n') :: post)) = list_now V (entries_of (pre ++ (a, l, n) :: post)).
Proof.
  intros Hch Hn Hput Ha Hn' Hnow. destruct (rep_put V V' pre post a l n n' dn rest e e' Hch Hn Hput Ha Hn') as (Hc & N & _).
  destruct (put_entries pre post a l n n dn rest e e Hn Hn) as [E _]. split; [done|]. rewrite N, E, list_now_app. f_equal.
  change (list_now V (e :: ?r)) with (now_of V e ++ list_now V r). by f_equal.
Qed.

(** An inode of which the first [i] entries are done. *)
Definition cpoint_upto (n : pptr_inode) (i : Z) : pptr_inode :=
  INode (pin_current_idx n) (pin_next n) (map cpoint_pin (take (Z.to_nat i) (pin_entries n)) ++ drop (Z.to_nat i) (pin_entries n)).
Definition cpoint_all (n : pptr_inode) : pptr_inode := INode (pin_current_idx n) (pin_next n) (map cpoint_pin (pin_entries n)).

Lemma cpoint_upto_step n i : 0 <= i < zlen (pin_entries n) -> exists e,
  pin_entries (cpoint_upto n i) = map cpoint_pin (take (Z.to_nat i) (pin_entries n)) ++ e :: drop (Z.to_nat (i + 1)) (pin_entries n) /\
  zlen (map cpoint_pin (take (Z.to_nat i) (pin_entries n))) = i /\
  put_pin (cpoint_upto n i) i (cpoint_pin e) = cpoint_upto n (i + 1).
Proof.
  intros Hi. unfold zlen in *. destruct (lookup_lt_is_Some_2 (pin_entries n) (Z.to_nat i)) as [e Ee]; [lia|]. exists e.
  replace (Z.to_nat (i + 1)) with (S (Z.to_nat i)) by lia.
  assert (Hl : length (map cpoint_pin (take (Z.to_nat i) (pin_entries n))) = Z.to_nat i) by (rewrite length_map, length_take; lia).
  split_and!; [unfold cpoint_upto; simpl; f_equal; by apply drop_S|lia|]. unfold put_pin, cpoint_upto. cbn [pin_current_idx pin_next pin_entries].
  f_equal. replace (Z.to_nat (i + 1)) with (S (Z.to_nat i)) by lia.
  rewrite (drop_S _ e) by done. rewrite (take_S_r _ _ e) by done. rewrite map_app, <- app_assoc. simpl.
  rewrite insert_app_r_alt by lia. by replace (Z.to_nat i - length (map cpoint_pin (take (Z.to_nat i) (pin_entries n))))%nat with O by lia.
Qed.

Lemma wp_cpoint_inode w V k pre a l n post now (Q : unit -> world PS -> Prop) :
  sees w V k -> chain_ok V (pre ++ (a, l, n) :: post) -> has_zero V -> list_now V (entries_of (pre ++ (a, l, n) :: post)) = now ->
  (forall V' w' k', (k <= k')%nat -> sees w' V' k' -> has_zero V' -> chain_ok V' (pre ++ (a, l, cpoint_all n) :: post) ->
     list_now V' (entries_of (pre ++ (a, l, cpoint_all n) :: post)) = now -> Q tt w') ->
  wp (for_ (Z.to_nat PPTR_INODE_ENTRIES) 0 (pptr_cpoint_entry a)) Q w.
Proof.
  intros Hs Hch Hz Hnow HQ.
  assert (Hlen : zlen (pin_entries n) = PPTR_INODE_ENTRIES).
  { pose proof (co_inodes _ _ Hch) as Hi. apply Forall_app in Hi as [_ Hi]. apply Forall_cons in Hi as [[_ Hi _] _]. exact Hi. }
  pose (I := fun (i : Z) w' => exists V' k', (k <= k')%nat /\ sees w' V' k' /\ has_zero V' /\
    chain_ok V' (pre ++ (a, l, cpoint_upto n i) :: post) /\ list_now V' (entries_of (pre ++ (a, l, cpoint_upto n i) :: post)) = now).
  apply (wp_for I).
  - exists V, k. assert (E : cpoint_upto n 0 = n) by (unfold cpoint_upto; simpl; by destruct n). by rewrite E.
  - intros i w1 Hi (V1 & k1 & Hk1 & Hs1 & Hz1 & Hc1 & Hn1). change (Z.of_nat (Z.to_nat PPTR_INODE_ENTRIES)) with PPTR_INODE_ENTRIES in Hi.
    destruct (cpoint_upto_step n i) as (e & E1 & E2 & E3); [lia|].
    rewrite <- E2 at 1. eapply wp_cpoint_entry; [exact Hs1|exact Hc1|exact E1|exact Hz1|].
    intros V2 w2 k2 Hk2 Hs2 Hz2 Hput Hh Hnw. rewrite E2, E3 in Hh.
    destruct (put_now _ _ _ _ _ _ _ _ _ _ _ _ Hc1 E1 Hput Hh) as [Hc2 Hn2]; [|done|].
    + rewrite <- E3. unfold put_pin. cbn [pin_entries]. rewrite E1. rewrite <- E2 at 1. apply insert_middle.
    + exists V2, k2. split_and!; [lia|done|done|done|]. by rewrite Hn2.
  - intros w1 (V1 & k1 & Hk1 & Hs1 & Hz1 & Hc1 & Hn1).
    assert (E : cpoint_upto n (0 + Z.of_nat (Z.to_nat PPTR_INODE_ENTRIES)) = cpoint_all n).
    { unfold cpoint_upto, cpoint_all. unfold zlen in Hlen. rewrite take_ge, drop_ge, app_nil_r by lia. done. }
    rewrite E in Hc1, Hn1. by eapply HQ.
Qed.

(** [foreach_inode] reaches every inode. *)
Definition cpoint_chain ch : list (Z * Z * pptr_inode) := map (fun x => (x.1.1, x.1.2, cpoint_all x.2)) ch.

Lemma wp_cpoint_chain fuel w V k pre post now (Q : unit -> world PS -> Prop) :
  (length post < fuel)%nat -> sees w V k -> chain_ok V (pre ++ post) -> linked (pre ++ post) -> has_zero V ->
  list_now V (entries_of (pre ++ post)) = now ->
  (forall V' w' k', (k <= k')%nat -> sees w' V' k' -> has_zero V' -> chain_ok V' (pre ++ cpoint_chain post) ->
     linked (pre ++ cpoint_chain post) -> list_now V' (entries_of (pre ++ cpoint_chain post)) = now -> Q tt w') ->
  wp (foreach_inode fuel (n_maddr (ref_of post)) (fun inode => for_ (Z.to_nat PPTR_INODE_ENTRIES) 0 (pptr_cpoint_entry inode))) Q w.
Proof.
  revert fuel w V k pre. induction post as [|[[a l] n] post IH]; intros fuel w V k pre Hf Hs Hch Hlk Hz Hnow HQ.
  - destruct fuel as [|fuel]; [simpl in Hf; lia|]. simpl. apply wp_ret. rewrite app_nil_r in *. by eapply HQ.
  - destruct fuel as [|fuel]; [simpl in Hf; lia|]. cbn [foreach_inode ref_of n_maddr].
    assert (Ha : a <> 0).
    { pose proof (co_inodes _ _ Hch) as Hi. apply Forall_app in Hi as [_ Hi]. apply Forall_cons in Hi as [[(p & Ep & _) _ _] _].
      destruct (sees_aligned _ _ _ _ _ Hs Ep). simpl in *. lia. }
    destruct (Z.eqb_spec a 0); [done|]. apply wp_bind. eapply wp_cpoint_inode; [exact Hs|exact Hch|exact Hz|exact Hnow|].
    intros V1 w1 k1 Hk1 Hs1 Hz1 Hc1 Hn1. pose proof (co_inodes _ _ Hc1) as Hi. apply Forall_app in Hi as [_ Hi].
    apply Forall_cons in Hi as [[(p & Ep & Epa) _ _] _]. cbn [fst snd] in *.
    apply wp_bind. eapply wp_read_view; [exact Hs1|exact Ep|exact Epa|].
    pose proof (linked_replace pre a l n (cpoint_all n) post Hlk eq_refl) as Hlk1.
    assert (Hnx : pin_next (cpoint_all n) = ref_of post).
    { clear -Hlk. induction pre as [|x pre IHp]; simpl in *; [apply Hlk|apply IHp, Hlk]. }
    rewrite Hnx. change ((a, l, cpoint_all n) :: post) with ([(a, l, cpoint_all n)] ++ post) in *. rewrite app_assoc in *.
    eapply (IH fuel w1 V1 k1 (pre ++ [(a, l, cpoint_all n)])); [simpl in Hf; lia|done|done|done|done|done|].
    intros V2 w2 k2 Hk2 Hs2 Hz2 Hc2 Hl2 Hn2. rewrite <- app_assoc in Hc2, Hl2, Hn2. eapply (HQ V2 w2 k2); [lia|done..].
Qed.

(** ** The operations *)
Lemma wp_pptr_init w V k (Q : pptr_head -> world PS -> Prop) :
  sees0 w V (S k) -> has_zero V ->
  (forall V' w' head, sees0 w' V' k -> ptr_list V' head 1 [] [] -> Q head w') -> wp pptr_init Q w.
Proof.
  intros Hs Hz HQ. unfold pptr_init. apply wp_bind. eapply wp_getpage0; [exact Hs|]. intros a l w1 Hna Ha0 _ Hs1 _. cbn [fst snd].
  apply wp_bind. destruct (Z.eqb_spec a 0); [lia|]. apply wp_ret.
  apply wp_bind. eapply (wp_upd_inode _ seeing_sees0); [exact Hs1|apply lookup_insert_eq|reflexivity|reflexivity|]. intros w2 Hs2 _.
  assert (Hc0 : chain_ok V []) by (split; [constructor|apply NoDup_nil_2]).
  destruct (chain_snoc V [] a l Hc0 Hna) as (C1 & C2 & C3). simpl in C1, C2, C3.
  destruct (put_same_entries _ [] a l zero_inode (set_pin_current_idx 0 zero_inode) [] [] zero_pin_entry (replicate 126 zero_pin_entry) C1)
    as (_ & _ & _ & _ & D1 & D2 & D3); [done|done|].
  apply wp_ret. eapply HQ; [exact Hs2|]. exists [], a, l, (set_pin_current_idx 0 zero_inode), [], zero_pin_entry, 126%nat.
  split; simpl; try done. eapply has_zero_insert; [by apply has_zero_new|apply lookup_insert_eq|done].
Qed.

Lemma wp_pptr_append w V k head m now old ls lo vs vo (Q : pptr_head -> world PS -> Prop) :
  sees0 w V (S (S (S k))) -> ptr_list V head m now old ->
  (forall V' w' k' head' m', (k <= k')%nat -> (m' <= S m)%nat -> sees0 w' V' k' ->
     ptr_list V' head' m' (now ++ [Pptr (u16 lo) (u32 ls) (u16 vo) (u32 vs)]) old -> Q head' w') ->
  wp (pptr_append head ls lo vs vo) Q w.
Proof.
  intros Hs Hl HQ. unfold pptr_append. apply wp_bind. eapply wp_get_dnode; [exact Hs|exact Hl|].
  intros V1 w1 k1 head1 m1 pre a l n dn e z Hk1 Hm1 Hs1 Hl1 [Hc (d & Hd & Hlt)].
  destruct (list_at_inode _ _ _ _ _ _ _ _ _ _ _ _ Hl1) as ((pa & Ea & Epa) & _).
  pose proof Hl1 as [Hz Hch Hlk [Hn Hi] _ _ _ _ _].
  apply wp_bind. unfold pin_idx. apply wp_bind. eapply wp_read_view; [apply Hs1|exact Ea|exact Epa|]. apply wp_ret. rewrite Hi.
  destruct k1 as [|k1]; [lia|]. eapply wp_snapshot_append; [exact Hs1|exact Hch|exact Hn|exact Hc|exact Hd|exact Hlt|exact Hz|].
  intros V2 w2 k2 n2 e2 Hk2 Hs2 [P1 P2 P3 P4] Hn2 Hi2 Hx2 Hz2. apply wp_ret.
  eapply HQ; [|exact Hm1|exact Hs2|]; [lia|]. exists pre, a, l, n2, dn, e2, z.
  eapply list_at_put; [exact Hl1|exact P1|exact P2|exact Hn2|split; [done|by rewrite Hi2]|exact Hx2|exact P3|exact P4|exact Hz2].
Qed.

Lemma list_cpointed V ch : list_old V (entries_of (cpoint_chain ch)) = list_now V (entries_of (cpoint_chain ch)).
Proof.
  induction ch as [|x ch IH]; [done|]. change (cpoint_chain (x :: ch)) with ((x.1.1, x.1.2, cpoint_all x.2) :: cpoint_chain ch).
  rewrite entries_cons, list_now_app, list_old_app, IH. f_equal. cbn [snd cpoint_all pin_entries].
  unfold list_now, list_old. f_equal. by rewrite !map_map.
Qed.

Lemma wp_pptr_cpoint w V k head m now old fuel (Q : unit -> world PS -> Prop) :
  sees w V k -> ptr_list V head m now old -> (m < fuel)%nat ->
  (forall V' w' k', (k <= k')%nat -> sees w' V' k' -> ptr_list V' head m now now -> Q tt w') ->
  wp (pptr_cpoint fuel head) Q w.
Proof.
  intros Hs (pre & a & l & n & dn & e & z & [Hz Hch Hlk [Hn Hi] Hm H1 H2 Hnow Hold]) Hf HQ. unfold pptr_cpoint. rewrite H1.
  eapply (wp_cpoint_chain fuel w V k [] (pre ++ [(a, l, n)]) now); [lia|exact Hs|exact Hch|exact Hlk|exact Hz|exact Hnow|].
  intros V' w' k' Hk Hs' Hz' Hc' Hl' Hn'. eapply HQ; [exact Hk|exact Hs'|].
  assert (E : cpoint_chain (pre ++ [(a, l, n)]) = cpoint_chain pre ++ [(a, l, cpoint_all n)]) by (unfold cpoint_chain; by rewrite map_app).
  simpl in Hc', Hl', Hn'. pose proof (list_cpointed V' (pre ++ [(a, l, n)])) as Ho. rewrite Hn' in Ho. rewrite E in *.
  exists (cpoint_chain pre), a, l, (cpoint_all n), (map cpoint_pin dn), (cpoint_pin e), z. split; try done.
  - split; [|unfold cpoint_all, zlen in *; simpl; by rewrite length_map]. unfold cpoint_all. simpl. rewrite Hn, map_app. simpl. f_equal. f_equal.
    clear. induction z as [|z IHz]; simpl; [done|by f_equal].
  - rewrite Hm, !length_app. unfold cpoint_chain. by rewrite length_map.
  - rewrite H1. unfold cpoint_chain. by destruct pre as [|[[??]?] ?].
Qed.
End list.

(** ** A list in a new file

    The first page, which would hold the container, then a list. *)
Section demo.
Definition new_world : world fmst := World (blank (2 ^ 40)) ∅ ∅ None 0 0 ∅ true false.
Definition first_page : M (world fmst) (Z * Z) := on_pa (fixed_mapper_init demo_env) ;;; getpage PA_PROT_WRITE.

Lemma demo_first_page : exists (w : world fmst) V, sees0 w V 63 /\ has_zero V.
Proof.
  assert (H : wp first_page (fun r w' => exists V, sees0 w' V 63 /\ (r.2 = 0 -> has_zero V)) new_world).
  { unfold first_page. apply wp_bind. unfold on_pa at 1. apply wp_zoom. eapply wp_mono; [exact demo_init|]. intros [] s Hs. cbv beta.
    assert (Hs0 : sees0 (set_w_pa s new_world) ∅ 64).
    { split; [split; [unfold owns; by rewrite dom_empty_L|done]|]. intros l [p Hp]. simpl in Hp. done. }
    eapply wp_getpage0; [exact Hs0|]. intros a l w' _ _ _ Hs1 _. eexists. split; [exact Hs1|]. simpl. intros ->.
    exists a. eexists. split; [apply lookup_insert_eq|done]. }
  destruct (wp_check _ _ (fun r _ => r.2 =? 0) _ H) as (r & w & (V & Hs & Hz) & E); [vm_compute; reflexivity|].
  apply Z.eqb_eq in E. exists w, V. auto.
Qed.
End demo.

(** ** Runs on the fixed mapper *)
Definition item (i : Z) : pptr := Pptr i i i i.
Definition append_pair (head : pptr_head) (i : Z) : M (world fmst) pptr_head := pptr_append head i i i i.

(** The pairs of the first data node of a list, current and committed. *)
Definition first_dnode (head : pptr_head) : M (world fmst) (list pptr * list pptr) :=
  let! c := PPTR_INODE_CIDXM (ph_last head) 0 in
  let! d := read (T := pptr_dnode) c in
  let! s := PPTR_INODE_SIDXM (ph_last head) 0 in
  let! ds := read (T := pptr_dnode) s in
  ret (dnode_items d, dnode_items ds).

(** Two lists in a file of five pages; the first goes through two
    transactions, whose last checkpoint frees a data node; then a pair is
    added to the second. *)
Definition five_pages : env := Env None (Some (PAGE_SIZE * 5)) None None.

Definition reuse_run : M (world fmst) (list pptr) :=
  on_pa (fixed_mapper_init five_pages) ;;;
  let! _ := getpage PA_PROT_WRITE in
  let! h1 := pptr_init in
  let! h2 := pptr_init in
  let! h1 := append_pair h1 1 in
  pptr_cpoint 2 h1 ;;;
  let! h1 := append_pair h1 2 in
  pptr_cpoint 2 h1 ;;;
  let! h2 := append_pair h2 3 in
  let! c := PPTR_INODE_CIDXM (ph_last h2) 0 in
  let! d := read (T := pptr_dnode) c in
  ret (dnode_items d).

(** Only the file outlives the process. *)
Definition new_process : M (world fmst) unit := fun w =>
  let old := fs_proc (w_pa w) in
  let p := Proc [] ∅ ∅ (p_file old) (p_space old) 1 GLOBAL_STATS in
  Ok tt (World (Fmst p ∅ ∅ (FixedMapperRec 0 0 0 None None None)) (w_file w) ∅ None 0 0 ∅ true false).

(** The pages of the file are mapped without write permission. *)
Definition unprotect (n : Z) : M (world fmst) unit :=
  forM (seqZ 0 n) (fun i => let! a := on_pa (fixed_mapper_getaddress (PAGE_SIZE * i)) in mprotect_page a PA_PROT_RNW).

(** A pair is committed, a second one appended, and the process ends before
    the next checkpoint; then the list is mapped again, by a process that
    makes the first [n] pages of the file writable. *)
Definition map_run (n : Z) (type : cpoint_type) : M (world fmst) (list pptr * list pptr) :=
  let! _ := first_page in
  let! h := pptr_init in
  let! h := append_pair h 1 in
  pptr_cpoint 2 h ;;;
  let! h := append_pair h 2 in
  new_process ;;;
  on_pa (fixed_mapper_init demo_env) ;;;
  unprotect n ;;;
  let! h := pptr_map 2 h type in
  first_dnode h.

(** ** Properties *)

(** C29 Appending a pair.  With three free pages, appending to a list that
    holds [now] and, committed, [old] succeeds: afterwards the list holds
    [now] and the pair, its numbers cut to the widths of the fields, the
    committed list is as it was, and at most one inode is new.  This holds on
    every path: a data node with room, a new data node, the next entry of the
    inode, a new inode, and a committed data node, which is copied first. *)
Theorem pptr_append_correct {PS} `{PL : PageAllocatorLaws PS} (w : world PS) V k head m now old ploc_seid ploc_offset pval_seid pval_offset :
  sees0 w V (3 + k) -> ptr_list V head m now old ->
  wp (pptr_append head ploc_seid ploc_offset pval_seid pval_offset)
    (fun head' w' => exists V' k' m', (k <= k')%nat /\ (m' <= S m)%nat /\ sees0 w' V' k' /\
       ptr_list V' head' m' (now ++ [Pptr (u16 ploc_offset) (u32 ploc_seid) (u16 pval_offset) (u32 pval_seid)]) old) w.
Proof.
  intros Hs Hl. eapply wp_pptr_append; [exact Hs|exact Hl|]. intros V' w' k' head' m' H1 H2 H3 H4. by exists V', k', m'.
Qed.

(** A list with one pair in a new file. *)
Lemma demo_list : exists (w : world fmst) V head, sees0 w V 62 /\ ptr_list V head 1 [] [].
Proof.
  destruct demo_first_page as (w & V & Hs & Hz).
  assert (H : wp pptr_init (fun head w1 => exists V1, sees0 w1 V1 62 /\ ptr_list V1 head 1 [] []) w).
  { eapply wp_pptr_init; [exact Hs|exact Hz|]. intros V1 w1 head H1 H2. by exists V1. }
  destruct (proj1 (wp_run _ _ _) H) as (head & w1 & _ & V1 & Hs1 & Hl1). by exists w1, V1, head.
Qed.

Lemma pptr_append_correct_witness : exists (w w' : world fmst) head head' V' k' m',
  pptr_append head 65541 65560 7 131071 w = Ok head' w' /\ sees0 w' V' k' /\
  ptr_list V' head' m' [Pptr 24 65541 65535 7] [].
Proof.
  destruct demo_list as (w & V & head & Hs & Hl).
  pose proof (pptr_append_correct w V 59 head 1 [] [] 65541 65560 7 131071 Hs Hl) as Ha.
  destruct (proj1 (wp_run _ _ _) Ha) as (head' & w' & E & V' & k' & m' & _ & _ & Hs' & Hl').
  exists w, w', head, head', V', k', m'. split_and!; [exact E|exact Hs'|exact Hl'].
Defined.

(** C30 The checkpoint of a list.  It ends when its loops may visit more inodes
    than there are, and makes the current list, which it does not change, the
    committed one; the data nodes of the committed list that were copied are
    freed. *)
Theorem pptr_cpoint_correct {PS} `{PL : PageAllocatorLaws PS} (w : world PS) V k head m now old fuel :
  sees w V k -> ptr_list V head m now old -> (m < fuel)%nat ->
  wp (pptr_cpoint fuel head) (fun _ w' => exists V' k', (k <= k')%nat /\ sees w' V' k' /\ ptr_list V' head m now now) w.
Proof.
  intros Hs Hl Hf. eapply wp_pptr_cpoint; [exact Hs|exact Hl|exact Hf|]. intros V' w' k' H1 H2 H3. by exists V', k'.
Qed.

Lemma pptr_cpoint_correct_witness : exists (w w' : world fmst) head V' k',
  pptr_cpoint 3 head w = Ok tt w' /\ sees w' V' k' /\ exists m, ptr_list V' head m [Pptr 24 65541 65535 7] [Pptr 24 65541 65535 7].
Proof.
  destruct demo_list as (w0 & V0 & head0 & Hs0 & Hl0).
  assert (Ha : wp (pptr_append head0 65541 65560 7 131071) (fun head w' => exists V' k' m', (m' < 3)%nat /\ sees w' V' k' /\
    ptr_list V' head m' [Pptr 24 65541 65535 7] []) w0).
  { eapply (wp_pptr_append w0 V0 59); [exact Hs0|exact Hl0|]. intros V' w' k' head' m' _ H2 H3 H4. exists V', k', m'.
    split; [lia|]. split; [apply H3|exact H4]. }
  destruct (proj1 (wp_run _ _ _) Ha) as (head & w & _ & V & k & m & Hm & Hs & Hl).
  destruct (proj1 (wp_run _ _ _) (pptr_cpoint_correct w V k head m [Pptr 24 65541 65535 7] [] 3 Hs Hl Hm)) as ([] & w' & E & V' & k' & _ & Hs' & Hl').
  exists w, w', head, V', k'. split_and!; [exact E|exact Hs'|by exists m].
Defined.

(** A data node is not cleared when its page has been used before.  The
    second list holds the pair of the first in front of its only pair. *)
Theorem recycled_dnode_keeps_pairs : value (reuse_run new_world) = inl [item 1; item 3].
Proof. vm_compute. reflexivity. Qed.

(** A process that maps a list again stores into pages without write
    permission and ends in the fault handler.  With the pages writable, a
    mapping after a completed checkpoint takes the current data nodes, the
    uncommitted pair included, for the committed ones; after an incomplete
    one, the checkpoint frees a page, for which the mapper of a file that is
    not new has no page object. *)
Lemma pptr_map_outcomes :
  value (map_run 0 CPOINT_COMPLETE new_world) = inr NullDeref /\
  value (map_run 4 CPOINT_COMPLETE new_world) = inl ([item 1; item 2], [item 1; item 2]) /\
  value (map_run 4 CPOINT_INCOMPLETE new_world) = inr NullDeref.
Proof. split_and!; vm_compute; reflexivity. Qed.
