(* ===== verification/Slab.v ===== *)
(** * The slab: [src/slab.c]

    Creation of the pages of the slab tree, the walk over all entries, the
    root of the container, and persistent pointers: [slab_insert_pointer]
    records where a pointer lies and what it points to as (entry id, offset)
    pairs, [slab_fixptrs] writes the pointers again from these records after
    the pages may have moved. *)
From Stdlib Require Import ZArith Lia.
From stdpp Require Import base numbers gmap option list.
From S2P Require Import Prelude Macros Bitstring Vector Queue Process RBTree FixedMapper PageAlloc.
From S2P Require Import SlabLayout World Demo Snapshot.
Open Scope Z_scope.

(** ** The root: an entry id and an offset in one 64-bit word *)
Definition OFFSET_SIZE_BITS := Z.shiftl 2 3.
Definition PACK_CONT_ROOT (seid offset : Z) : Z :=
  Z.lor (u64 (Z.shiftl (u64 seid) OFFSET_SIZE_BITS)) (u64 offset).
Definition UNPACK_CONT_ROOT (v : Z) : Z * Z := (u32 (Z.shiftr v OFFSET_SIZE_BITS), u16 v).

Section slab.
Context {PS : Type} `{PA : PageAllocator PS}.
Notation M := (M (world PS)).

Definition GET_NEXT_BUCKET_ID : M Z := fun w =>
  Ok (NEXT_SLAB_BUCKET_ID w) (set_next_ids (u32 (NEXT_SLAB_BUCKET_ID w + 1)) (NEXT_SLAB_ENTRY_ID w) w).
Definition GET_NEXT_SLAB_ENTRY_ID : M Z := fun w =>
  Ok (NEXT_SLAB_ENTRY_ID w) (set_next_ids (NEXT_SLAB_BUCKET_ID w) (u32 (NEXT_SLAB_ENTRY_ID w + 1)) w).

(** ** Size classes *)
Definition get_es (es : Z) : M slab_entry_size := fun w =>
  match w_sizes w !! es with Some e => Ok e w | None => Fail NullDeref w end.
Definition put_es (es : Z) (e : slab_entry_size) : M unit :=
  modify (fun w => set_w_sizes (<[es := e]> (w_sizes w)) w).
Definition es_at (w : world PS) (es : Z) : slab_entry_size := default (EntrySize 0 STAILQ_INIT) (w_sizes w !! es).

Definition slab_entry_size_init (size : Z) : M Z :=
  let! es := w_malloc in
  put_es es (EntrySize (u32 size) STAILQ_INIT) ;;;
  ret es.

(** The queue of a size class, and the free list of the directory. *)
Definition on_es_list (es : Z) (f : stailq Z -> M (stailq Z)) : M unit :=
  let! e := get_es es in
  let! q := f (es_list e) in
  put_es es (EntrySize (es_size e) q).

Definition on_free_list (sd : Z) (f : stailq Z -> M (stailq Z)) : M unit :=
  let! d := read (T := slab_dir) sd in
  let! q := f (sd_free_list d) in
  upd sd (set_sd_free_list q).

(** ** The trees of the directory *)
Definition find_size (d : slab_dir) (size : Z) : M (option Z) :=
  let key := EntrySize (u32 size) STAILQ_INIT in
  gets (fun w => RB_FIND (fun _ y => slab_entry_size_compare_by_size key (es_at w y)) (sd_size_root d) 0).

Definition insert_size (sd es : Z) : M unit :=
  let! d := read (T := slab_dir) sd in
  let! cmp := gets (fun w a b => slab_entry_size_compare_by_size (es_at w a) (es_at w b)) in
  let! r := from_opt NullDeref (RB_INSERT cmp (sd_size_root d) es) in
  write sd (set_sd_size_root r.2 d).

Definition insert_maddr (sd se : Z) : M unit :=
  let! d := read (T := slab_dir) sd in
  let! cmp := gets (fun w a b => slab_entry_compare_by_maddr (se_at w a) (se_at w b)) in
  let! r := from_opt NullDeref (RB_INSERT cmp (sd_maddr_root d) se) in
  write sd (set_sd_maddr_root r.2 d).

(** ** New entries, nodes and buckets *)
Definition slab_entry_init (se size : Z) : M unit :=
  assert_ (negb (se =? 0)) ;;;
  w_stat (__INC_BOTH se_init) ;;;
  let! r := getpage PA_PROT_READ in
  let! id := GET_NEXT_SLAB_ENTRY_ID in
  upd_se se (fun e => SlabEntry id (u32 size)
    (DRef r.1 r.2 (d_bitmap (se_data_current e))) (DRef r.1 r.2 (d_bitmap (se_data_snapshot e)))
    (PRef 0 0 0) (PRef 0 0 0) (se_list e)).

Definition slab_outer_init : M (Z * Z) := w_stat (__INC_BOTH so_init) ;;; getpage PA_PROT_WRITE.
Definition slab_inner_init : M (Z * Z) := w_stat (__INC_BOTH si_init) ;;; getpage PA_PROT_WRITE.

Definition free_entries (sd sb : Z) : M unit :=
  for_ (Z.to_nat SLAB_BUCKET_ENTRIES) 0 (fun i =>
    on_free_list sd (fun q => STAILQ_INSERT_TAIL q (se_addr sb i))).

Definition slab_bucket_init : M (Z * Z) :=
  w_stat (__INC_BOTH sb_init) ;;;
  let! sd := current_dir in
  let! r := getpage PA_PROT_WRITE in
  store r.1 PgZero ;;;
  let! id := GET_NEXT_BUCKET_ID in
  upd r.1 (fun b => SlabBucket (sb_has_snapshot b) id (sb_entries b)) ;;;
  free_entries sd r.1 ;;;
  ret r.

(** The reference in both arrays at the index of the node, which grows. *)
Definition append_ref (r : Z * Z) (n : slab_node) : option slab_node :=
  n ← node_set_current n (n_index n) (NRef r.1 r.2);
  n ← node_set_snapshot n (n_index n) (NRef r.1 r.2);
  Some (node_set_index n (u32 (n_index n + 1))).

Definition slab_dir_init : M (Z * Z) :=
  let! rd := getpage PA_PROT_WRITE in
  let sd := rd.1 in
  let! ro := slab_outer_init in
  let! ri := slab_inner_init in
  let! rb := getpage PA_PROT_WRITE in
  let! id := GET_NEXT_BUCKET_ID in
  upd rb.1 (fun b => SlabBucket (sb_has_snapshot b) id (sb_entries b)) ;;;
  when ((sd =? 0) || (ro.1 =? 0) || (ri.1 =? 0) || (rb.1 =? 0)) (fail HandleError) ;;;
  upd_dir sd (append_ref ro) ;;;
  upd sd (set_sd_maddr_root Leaf) ;;;
  upd sd (set_sd_size_root Leaf) ;;;
  upd sd (set_sd_free_list STAILQ_INIT) ;;;
  upd_outer ro.1 (append_ref ri) ;;;
  upd_inner ri.1 (append_ref rb) ;;;
  free_entries sd rb.1 ;;;
  let! d := read (T := slab_dir) sd in
  match VECTOR_INIT 8 (sd_vector d) with
  | Ok _ v => write sd (set_sd_vector v d)
  | Fail f v => fail f
  end ;;;
  ret rd.

(** ** The walk over every entry: the four nested loops *)
Definition current_maddr (n : slab_node) (i : Z) : M Z :=
  let! r := from_opt OutOfBounds (zget (n_current n) i) in ret (n_maddr r).

Definition foreach_entry (body : Z -> M unit) : M unit :=
  let! sd := current_dir in
  let! d := read (T := slab_dir) sd in
  for_ (Z.to_nat (n_index (sd_node d))) 0 (fun i =>
    let! d := read (T := slab_dir) sd in
    let! so := current_maddr (sd_node d) i in
    let! o := read (T := outer_node) so in
    for_ (Z.to_nat (n_index (the_outer o))) 0 (fun j =>
      let! o := read (T := outer_node) so in
      let! si := current_maddr (the_outer o) j in
      let! n := read (T := inner_node) si in
      for_ (Z.to_nat (n_index (the_inner n))) 0 (fun k =>
        let! n := read (T := inner_node) si in
        let! sb := current_maddr (the_inner n) k in
        for_ (Z.to_nat SLAB_BUCKET_ENTRIES) 0 (fun l => body (se_addr sb l))))).

Definition slab_mprotect_datapgs (prot : Z) : M unit :=
  foreach_entry (fun se =>
    let! e := get_se se in
    when (SLAB_ENTRY_IS_INIT e) (mprotect_page (d_maddr (se_data_current e)) prot)).

(** ** Entries by id *)
Definition si_idx_of (sb_id : Z) : Z := s32 (sb_id mod SLAB_INNER_ENTRIES).

Definition get_slab_entry_by_id (seid : Z) : M Z :=
  let sb_id := s32 (seid / SLAB_BUCKET_ENTRIES) in
  let sb_idx := s32 (seid mod SLAB_BUCKET_ENTRIES) in
  let! sd := current_dir in
  let! d := read (T := slab_dir) sd in
  let! so := current_maddr (sd_node d) (sd_idx_of sb_id) in
  let! o := read (T := outer_node) so in
  let! si := current_maddr (the_outer o) (so_idx_of sb_id) in
  let! n := read (T := inner_node) si in
  let! sb := current_maddr (the_inner n) (si_idx_of sb_id) in
  ret (se_addr sb sb_idx).

(** ** Pointers in memory

    A byte of a data page of the container, or of volatile memory; a pointer
    is eight bytes, the lowest first. *)
Definition is_container (w : world PS) (a : Z) : bool :=
  match vm_of (w_pa w) !! ROUND_DWNPG a with Some _ => true | None => false end.

Definition load_byte (a : Z) : M Z :=
  let! inside := gets (fun w => is_container w a) in
  if inside then
    let! d := read (T := data_page) (ROUND_DWNPG a) in
    from_opt OutOfBounds (zget (the_bytes d) (a - ROUND_DWNPG a))
  else
    let! v := gets (fun w => w_vol w !! a) in from_opt Unmapped v.

Definition store_byte (a v : Z) : M unit :=
  let! inside := gets (fun w => is_container w a) in
  if inside then
    let! d := read (T := data_page) (ROUND_DWNPG a) in
    let! l := from_opt OutOfBounds (zset (the_bytes d) (a - ROUND_DWNPG a) (u8 v)) in
    write (ROUND_DWNPG a) (Data l)
  else
    let! old := gets (fun w => w_vol w !! a) in
    let! _ := from_opt Unmapped old in
    modify (fun w => set_w_vol (<[a := u8 v]> (w_vol w)) w).

Fixpoint load_bytes (n : nat) (a : Z) : M (list Z) :=
  match n with
  | O => ret []
  | Datatypes.S n' => let! b := load_byte a in let! l := load_bytes n' (a + 1) in ret (b :: l)
  end.

Fixpoint store_bytes (a : Z) (l : list Z) : M unit :=
  match l with
  | [] => ret tt
  | b :: l' => store_byte a b ;;; store_bytes (a + 1) l'
  end.

Fixpoint le_word (l : list Z) : Z := match l with [] => 0 | b :: l' => b + 256 * le_word l' end.
Fixpoint le_bytes (n : nat) (v : Z) : list Z :=
  match n with O => [] | Datatypes.S n' => v mod 256 :: le_bytes n' (v / 256) end.

Definition load_ptr (a : Z) : M Z := let! l := load_bytes 8 a in ret (le_word l).
Definition store_ptr (a v : Z) : M unit := store_bytes a (le_bytes 8 v).

(** ** Persistent pointers *)
Definition is_null_item (it : slab_ptr_item) : bool :=
  (pval_seid it =? SLAB_PTR_SEID_NULL) && (pval_offset it =? SLAB_PTR_OFFSET_NULL).

(** One turn of the innermost loop of [do_fixptrs]. *)
Definition fix_item (se_loc m : Z) : M unit :=
  let! e := get_se se_loc in
  let! items := read (T := list slab_ptr_item) (r_maddr (se_ptr_current e)) in
  let! it := from_opt OutOfBounds (zget items m) in
  let ptr_loc := d_maddr (se_data_current e) + ploc_offset it in
  if is_null_item it then store_ptr ptr_loc 0
  else
    let! se_val := get_slab_entry_by_id (pval_seid it) in
    let! v := get_se se_val in
    store_ptr ptr_loc (d_maddr (se_data_current v) + pval_offset it).

Definition do_fixptrs : M unit :=
  foreach_entry (fun se_loc =>
    let! e := get_se se_loc in
    when (SLAB_ENTRY_IS_INIT e)
      (for_ (Z.to_nat (r_idx (se_ptr_current e))) 0 (fix_item se_loc))).

Definition slab_fixptrs : M unit :=
  let! fp := gets fixptrs_enabled in when fp do_fixptrs.

(** [sptr->ptrs[idx] = item; idx++] *)
Definition append_item (se_loc : Z) (it : slab_ptr_item) : M unit :=
  let! e := get_se se_loc in
  let sptr := r_maddr (se_ptr_current e) in
  let idx := r_idx (se_ptr_current e) in
  let! items := read (T := list slab_ptr_item) sptr in
  let! items' := from_opt OutOfBounds (zset items idx it) in
  write sptr items' ;;;
  upd_se se_loc (fun e => set_se_ptr_current (set_r_idx (u16 (idx + 1)) (se_ptr_current e)) e).

Definition do_insert_pointer (ptr_loc : Z) : M unit :=
  let! sd := current_dir in
  let! ptr_val := load_ptr ptr_loc in
  assert_ (negb (ptr_loc =? 0)) ;;;
  let rounded_ptr_loc := itop (ROUND_DWNPG (ptoi ptr_loc)) in
  let! d := read (T := slab_dir) sd in
  let! se_loc := find_by_key d (SLAB_ENTRY_SEARCH_KEY rounded_ptr_loc SE_SEARCH_NORMAL) in
  match se_loc with
  | None => fail HandleError
  | Some se_loc =>
      let ploc_offset := u16 (ptoi ptr_loc - ROUND_DWNPG (ptoi ptr_loc)) in
      let! e := get_se se_loc in
      when (r_maddr (se_ptr_current e) =? 0)
        (let! r := getpage PA_PROT_WRITE in
         upd_se se_loc (fun e => set_se_ptr_current (PRef (r_idx (se_ptr_current e)) r.1 r.2) e)) ;;;
      if negb (ptr_val =? 0) then
        let! d := read (T := slab_dir) sd in
        let! se_val := find_by_key d
          (SLAB_ENTRY_SEARCH_KEY (itop (ROUND_DWNPG (ptoi ptr_val))) SE_SEARCH_NORMAL) in
        match se_val with
        | None => fail HandleError
        | Some se_val =>
            let! v := get_se se_val in
            append_item se_loc
              (PtrItem ploc_offset (se_id v) (u16 (ptoi ptr_val - ROUND_DWNPG (ptoi ptr_val))))
        end
      else append_item se_loc (PtrItem ploc_offset SLAB_PTR_SEID_NULL SLAB_PTR_OFFSET_NULL)
  end.

Definition slab_insert_pointer (ptr_loc : Z) : M unit :=
  let! fp := gets fixptrs_enabled in when fp (do_insert_pointer ptr_loc).

(** ** The root of the container *)
Definition slab_setroot (maddr : Z) : M Z :=
  let! sd := current_dir in
  let rounded_maddr := itop (ROUND_DWNPG (ptoi maddr)) in
  let! d := read (T := slab_dir) sd in
  let! se := find_by_key d (SLAB_ENTRY_SEARCH_KEY rounded_maddr SE_SEARCH_NORMAL) in
  match se with
  | None => ret 0
  | Some se =>
      let! e := get_se se in
      let new_cont_root := PACK_CONT_ROOT (se_id e) (ROUND_DWNPG (ptoi maddr) - ptoi maddr) in
      upd sd (set_sd_cont_root new_cont_root) ;;;
      STATS_INC_FLUSH ;;;
      ret 1
  end.

Definition slab_getroot : M Z :=
  let! sd := current_dir in
  let! d := read (T := slab_dir) sd in
  let '(root_seid, root_offset) := UNPACK_CONT_ROOT (sd_cont_root d) in
  let! se := get_slab_entry_by_id root_seid in
  let! e := get_se se in
  ret (d_maddr (se_data_current e) + root_offset).

Definition slab_find (maddr : Z) : M (option Z) :=
  let! sd := current_dir in
  let! d := read (T := slab_dir) sd in
  find_by_key d (SLAB_ENTRY_SEARCH_KEY maddr SE_SEARCH_MADDR).

(** [slab_init]: which functions the environment selects. *)
Definition slab_init (e : env) : M unit :=
  modify (fun w =>
    let fp := match PMLIB_FIX_PTRS e with
              | Some v => if v =? 0 then false else fixptrs_enabled w
              | None => true end in
    let cns := match PMLIB_USE_NLMAPPER e with
               | Some v => if v =? 1 then true else copynswap_enabled w
               | None => copynswap_enabled w end in
    set_modes fp cns w).
End slab.

(** ** Packing the root *)
Lemma pack_unpack seid off :
  in_u 32 seid -> in_u 16 off -> UNPACK_CONT_ROOT (PACK_CONT_ROOT seid off) = (seid, off).
Proof.
  unfold in_u. intros Hs Ho. unfold UNPACK_CONT_ROOT, PACK_CONT_ROOT. change OFFSET_SIZE_BITS with 16.
  unfold u64. rewrite (wrap_id 64 seid) by (unfold in_u; lia). rewrite Z.shiftl_mul_pow2 by lia.
  rewrite !wrap_id by (unfold in_u; lia).
  assert (El : Z.lor (seid * 2 ^ 16) off = seid * 2 ^ 16 + off).
  { symmetry. apply Z.add_nocarry_lor. apply Z.bits_inj'. intros n Hn. rewrite Z.land_spec, Z.bits_0.
    destruct (Z.lt_ge_cases n 16).
    - rewrite Z.mul_pow2_bits_low by lia. done.
    - rewrite <- (Z.mod_small off (2 ^ 16)) by lia. rewrite Z.mod_pow2_bits_high by lia. by rewrite andb_false_r. }
  rewrite El. rewrite Z.shiftr_div_pow2 by lia. unfold u32, u16. f_equal.
  - rewrite Z.div_add_l, (Z.div_small off), Z.add_0_r by lia. by apply wrap_id.
  - unfold wrap. rewrite Z.add_comm, Z.mod_add by lia. by apply Z.mod_small.
Qed.

(** A negative offset fills the id with ones. *)
Lemma pack_negative seid d :
  in_u 32 seid -> 0 < d < PAGE_SIZE -> (UNPACK_CONT_ROOT (PACK_CONT_ROOT seid (u64 (- d)))).1 = 2 ^ 32 - 1.
Proof.
  unfold in_u. intros Hs Hd. unfold UNPACK_CONT_ROOT, PACK_CONT_ROOT, PAGE_SIZE in *. change OFFSET_SIZE_BITS with 16. simpl fst.
  assert (E : u64 (u64 (- d)) = 2 ^ 64 - d).
  { unfold u64. rewrite (wrap_id 64 (wrap 64 (- d))) by (apply wrap_range; lia). unfold wrap.
    symmetry. apply Z.mod_unique_pos with (-1); lia. }
  rewrite E. apply Z.bits_inj'. intros n Hn. unfold u32, wrap. destruct (Z.lt_ge_cases n 32) as [Hlt|Hge].
  - rewrite Z.mod_pow2_bits_low, Z.shiftr_spec, Z.lor_spec by lia.
    assert (E2 : Z.testbit (2 ^ 64 - d) (n + 16) = true).
    { replace (2 ^ 64 - d) with (Z.lnot (d - 1) + 1 * 2 ^ 64) by (unfold Z.lnot; lia).
      rewrite <- (Z.mod_pow2_bits_low _ 64) by lia. rewrite Z.mod_add by lia.
      rewrite Z.mod_pow2_bits_low, Z.lnot_spec by lia. rewrite <- (Z.mod_small (d - 1) (2 ^ 16)) by lia.
      by rewrite Z.mod_pow2_bits_high by lia. }
    rewrite E2, orb_true_r. symmetry. change (2 ^ 32 - 1) with (Z.ones 32). apply Z.ones_spec_low. lia.
  - rewrite Z.mod_pow2_bits_high by lia. symmetry. change (2 ^ 32 - 1) with (Z.ones 32). apply Z.ones_spec_high. lia.
Qed.

(** ** Entry ids as paths

    The four indices an id stands for; [max_entries] ids fit in a directory. *)
Definition id_path (seid : Z) : Z * Z * Z * Z :=
  let sb_id := s32 (seid / SLAB_BUCKET_ENTRIES) in
  (sd_idx_of sb_id, so_idx_of sb_id, si_idx_of sb_id, s32 (seid mod SLAB_BUCKET_ENTRIES)).

Definition max_entries : Z := SLAB_BUCKET_ENTRIES * SLAB_INNER_ENTRIES * SLAB_OUTER_ENTRIES * SLAB_DIR_ENTRIES.

Lemma id_path_eq seid :
  0 <= seid < max_entries ->
  id_path seid = (seid / (28 * 127 * 127), seid / (28 * 127) mod 127, seid / 28 mod 127, seid mod 28).
Proof.
  intros Hs. change max_entries with (28 * 127 * 127 * 124) in Hs.
  unfold id_path, sd_idx_of, so_idx_of, so_id_of, si_idx_of, si_id_of.
  change SLAB_BUCKET_ENTRIES with 28. change SLAB_INNER_ENTRIES with 127.
  change SLAB_OUTER_ENTRIES with 127. change SLAB_DIR_ENTRIES with 124.
  assert (H1 : 0 <= seid / 28 < 127 * 127 * 124) by (split; [apply Z.div_pos; lia|apply Z.div_lt_upper_bound; lia]).
  assert (H2 : 0 <= seid / 28 / 127 < 127 * 124) by (split; [apply Z.div_pos; lia|apply Z.div_lt_upper_bound; lia]).
  assert (H3 : 0 <= seid / 28 / 127 / 127 < 124) by (split; [apply Z.div_pos; lia|apply Z.div_lt_upper_bound; lia]).
  assert (Hm : forall a b, 0 < b < 2 ^ 31 -> s32 (a mod b) = a mod b).
  { intros a b Hb. pose proof (Z.mod_pos_bound a b). apply s32_id. lia. }
  rewrite (s32_id (seid / 28)), (s32_id (seid / 28 / 127)), (s32_id (seid / 28 / 127 / 127)) by lia.
  rewrite !Hm by lia. rewrite (Z.mod_small (seid / 28 / 127 / 127)) by lia. rewrite !Z.div_div by lia. done.
Qed.

Lemma id_path_inj x y : 0 <= x < max_entries -> 0 <= y < max_entries -> id_path x = id_path y -> x = y.
Proof.
  intros Hx Hy. rewrite !id_path_eq by done. intros [= H1 H2 H3 H4].
  pose proof (Z.div_mod x 28). pose proof (Z.div_mod y 28).
  pose proof (Z.div_mod (x / 28) 127). pose proof (Z.div_mod (y / 28) 127).
  pose proof (Z.div_mod (x / (28 * 127)) 127). pose proof (Z.div_mod (y / (28 * 127)) 127).
  rewrite !Z.div_div in * by lia. change (28 * 127 * 127) with 451612 in *. change (28 * 127) with 3556 in *. lia.
Qed.

(** ** Little-endian words *)
Lemma le_word_bytes n v : le_word (le_bytes n v) = v mod 256 ^ Z.of_nat n.
Proof.
  revert v. induction n as [|n IH]; intros v; [by rewrite Z.mod_1_r|].
  rewrite Nat2Z.inj_succ, Z.pow_succ_r by lia. simpl. rewrite IH.
  rewrite Z.rem_mul_r by lia. lia.
Qed.

Lemma le_bytes_len n v : length (le_bytes n v) = n.
Proof. revert v. induction n; intros v; simpl; [done|]. by rewrite IHn. Qed.

Lemma le_bytes_ok n v : Forall (in_u 8) (le_bytes n v).
Proof.
  revert v. induction n as [|n IH]; intros v; simpl; constructor; [|done].
  unfold in_u. pose proof (Z.mod_pos_bound v 256). lia.
Qed.

(** The bytes [l] written into [bs] from [off] on. *)
Fixpoint put_bytes (bs : list Z) (off : nat) (l : list Z) : list Z :=
  match l with [] => bs | b :: l' => put_bytes (<[off := u8 b]> bs) (S off) l' end.

Lemma put_bytes_len bs off l : length (put_bytes bs off l) = length bs.
Proof. revert bs off. induction l as [|b l IH]; intros bs off; simpl; [done|]. by rewrite IH, length_insert. Qed.

Lemma put_bytes_before bs off l j : (j < off)%nat -> put_bytes bs off l !! j = bs !! j.
Proof.
  revert bs off. induction l as [|b l IH]; intros bs off Hj; simpl; [done|].
  rewrite IH by lia. by rewrite list_lookup_insert_ne by lia.
Qed.

Lemma put_bytes_after bs off l j : (off + length l <= j)%nat -> put_bytes bs off l !! j = bs !! j.
Proof.
  revert bs off. induction l as [|b l IH]; intros bs off Hj; simpl in *; [done|].
  rewrite IH by lia. by rewrite list_lookup_insert_ne by lia.
Qed.

Lemma put_bytes_in bs off l j :
  Forall (in_u 8) l -> (j < length l)%nat -> (off + length l <= length bs)%nat -> put_bytes bs off l !! (off + j)%nat = l !! j.
Proof.
  revert bs off j. induction l as [|b l IH]; intros bs off j Hl Hj Hlen; simpl in *; [lia|].
  inversion Hl; subst. destruct j as [|j].
  - rewrite Nat.add_0_r, put_bytes_before by lia. rewrite list_lookup_insert_eq by lia. unfold u8. by rewrite wrap_id.
  - rewrite <- Nat.add_succ_comm. rewrite IH; [done|done|lia|]. rewrite length_insert. lia.
Qed.

Lemma put_bytes_read bs off l :
  Forall (in_u 8) l -> (off + length l <= length bs)%nat -> take (length l) (drop off (put_bytes bs off l)) = l.
Proof.
  intros Hl Hlen. apply list_eq. intros j. destruct (Nat.lt_ge_cases j (length l)).
  - rewrite lookup_take_lt, lookup_drop by done. by apply put_bytes_in.
  - rewrite lookup_take_ge by done. symmetry. by apply lookup_ge_None.
Qed.

Section slab_rules.
Context {PS : Type} `{PL : PageAllocatorLaws PS}.
Implicit Types (w : world PS) (V : gmap Z pinfo) (k : nat).

(** [a] lies in the data page [m], whose bytes are [bs]. *)
Record in_page w V k (m : Z) (i : pinfo) (bs : list Z) (a : Z) (n : nat) : Prop := {
  ip_sees : sees w V k;
  ip_page : V !! m = Some i;
  ip_bytes : as_page (T := data_page) (pi_page i) = Some (Data bs);
  ip_len : zlen bs = PAGE_SIZE;
  ip_range : m <= a /\ a + Z.of_nat n <= m + PAGE_SIZE;
}.

Lemma in_page_addr w V k m i bs a n :
  in_page w V k m i bs a (S n) -> ROUND_DWNPG a = m /\ is_container w a = true /\ 0 <= a - m < PAGE_SIZE.
Proof.
  intros [Hs Hm _ _ Hr]. destruct (sees_aligned _ _ _ _ _ Hs Hm) as (Hal & Hpos & Htop).
  assert (Ha : m <= a < m + PAGE_SIZE) by lia.
  destruct (page_of_byte m a) as [_ E]; [done|done|done|unfold PAGE_SIZE in *; lia|].
  assert (Ep : ptoi a = a) by (unfold ptoi, u64; apply wrap_id; unfold in_u, PAGE_SIZE in *; lia). rewrite Ep in E.
  split; [done|]. split; [|lia]. unfold is_container. rewrite E.
  destruct (sees_shows _ _ _ Hs _ _ Hm) as (_ & _ & El). by rewrite El.
Qed.

Lemma wp_load_bytes n w V k m i bs a (Q : list Z -> world PS -> Prop) :
  in_page w V k m i bs a n -> Q (take n (drop (Z.to_nat (a - m)) bs)) w -> wp (load_bytes n a) Q w.
Proof.
  revert a Q. induction n as [|n IH]; intros a Q Hp HQ; simpl; [by apply wp_ret|].
  destruct (in_page_addr _ _ _ _ _ _ _ _ Hp) as (Er & Ec & Hr). pose proof Hp as [Hs Hm Hb Hl Hrg].
  apply wp_bind. unfold load_byte. apply wp_bind, wp_gets. rewrite Ec, Er. apply wp_bind.
  eapply wp_read_view; [done|done|done|]. cbn [the_bytes].
  destruct (zget_total bs (a - m)) as [x Ex]; [lia|]. rewrite Ex. apply wp_ret, wp_bind.
  apply IH; [split; try done; lia|]. apply wp_ret. unfold zget in Ex. destruct (Z.leb_spec 0 (a - m)); [|done].
  rewrite (drop_S _ _ _ Ex) in HQ. simpl in HQ. by replace (Z.to_nat (a + 1 - m)) with (S (Z.to_nat (a - m))) by lia.
Qed.

Lemma wp_store_bytes l w V k m i bs a (Q : unit -> world PS -> Prop) :
  in_page w V k m i bs a (length l) -> pi_writable i = true ->
  (forall w' i', sees w' (<[m := i']> V) k -> globals w' = globals w ->
     as_page (T := data_page) (pi_page i') = Some (Data (put_bytes bs (Z.to_nat (a - m)) l)) -> pi_writable i' = true ->
     Q tt w') ->
  wp (store_bytes a l) Q w.
Proof.
  revert w V i bs a. induction l as [|b l IH]; intros w V i bs a Hp Hw HQ; simpl.
  { apply wp_ret. pose proof Hp as [Hs Hm Hb Hl Hrg]. apply (HQ w i); [by rewrite insert_id|done|done|done]. }
  destruct (in_page_addr _ _ _ _ _ _ _ _ Hp) as (Er & Ec & Hr). pose proof Hp as [Hs Hm Hb Hl Hrg].
  apply wp_bind. unfold store_byte. apply wp_bind, wp_gets. rewrite Ec, Er. apply wp_bind.
  eapply wp_read_view; [done|done|done|]. cbn [the_bytes].
  destruct (zset_total bs (a - m) (u8 b)) as [bs' Eb]; [lia|]. rewrite Eb. apply wp_bind, wp_ret.
  apply zset_Some in Eb as [_ ->]. unfold write. simpl to_page. eapply storing_store; [done|done|done|]. intros w' Hs' Hg.
  eapply (IH w' _ _ (<[Z.to_nat (a - m) := u8 b]> bs)).
  - split; [exact Hs'|by rewrite lookup_insert_eq|done|unfold zlen; rewrite length_insert; exact Hl|simpl in Hrg; lia].
  - done.
  - intros w'' i' Hs'' Hg' Hb' Hw'. rewrite insert_insert_eq in Hs''. apply (HQ w'' i'); [done|congruence| |done].
    rewrite Hb'. simpl. do 2 f_equal. by replace (Z.to_nat (a + 1 - m)) with (S (Z.to_nat (a - m))) by lia.
Qed.

Lemma wp_store_ptr w V k m i bs a v (Q : unit -> world PS -> Prop) :
  in_page w V k m i bs a 8 -> pi_writable i = true ->
  (forall w' i', sees w' (<[m := i']> V) k -> globals w' = globals w ->
     as_page (T := data_page) (pi_page i') = Some (Data (put_bytes bs (Z.to_nat (a - m)) (le_bytes 8 v))) ->
     pi_writable i' = true -> Q tt w') ->
  wp (store_ptr a v) Q w.
Proof. intros Hp Hw HQ. unfold store_ptr. by eapply wp_store_bytes. Qed.

Lemma wp_load_ptr w V k m i bs a (Q : Z -> world PS -> Prop) :
  in_page w V k m i bs a 8 -> Q (le_word (take 8 (drop (Z.to_nat (a - m)) bs))) w -> wp (load_ptr a) Q w.
Proof. intros Hp HQ. unfold load_ptr. apply wp_bind. eapply wp_load_bytes; [done|]. by apply wp_ret. Qed.

(** ** Finding the entry of an address *)
Record find_ctx w V k (sd : Z) (d : slab_dir) (ld : Z) : Prop := {
  fi_sees : sees w V k;
  fi_dir : dir_in w V sd d ld;
  fi_tree : tree_in V d;
}.

(** The data pages of the tree are pages. *)
Definition aligned_tree V (d : slab_dir) : Prop :=
  forall se, se ∈ inorder (sd_maddr_root d) ->
    maddr_of V se mod PAGE_SIZE = 0 /\ 0 <= maddr_of V se /\ maddr_of V se + PAGE_SIZE < 2 ^ 64.

Lemma compare_maddr_page a x m e :
  m = d_maddr (se_data_current e) -> m mod PAGE_SIZE = 0 -> 0 <= m -> m + PAGE_SIZE < 2 ^ 64 -> 0 <= a -> x = ROUND_DWNPG a ->
  slab_entry_compare_by_maddr (SLAB_ENTRY_SEARCH_KEY a SE_SEARCH_MADDR) e = cmp_ptr x m.
Proof.
  intros -> Hal H0 Htop Ha ->. unfold slab_entry_compare_by_maddr, cmp_ptr.
  change (SLAB_ENTRY_SEARCH_TYPE (SLAB_ENTRY_SEARCH_KEY a SE_SEARCH_MADDR) =? SE_SEARCH_MADDR) with true. cbn iota.
  change (d_maddr (se_data_current (SLAB_ENTRY_SEARCH_KEY a SE_SEARCH_MADDR))) with a.
  set (m := d_maddr (se_data_current e)) in *. rewrite ROUND_DWNPG_eq. unfold u64.
  rewrite wrap_id by (unfold in_u, PAGE_SIZE in *; lia). unfold PAGE_SIZE in *.
  pose proof (Z.mod_pos_bound a 4096). pose proof (Z.div_mod a 4096). pose proof (Z.div_mod m 4096).
  destruct (Z.ltb_spec a m), (Z.ltb_spec (a - a mod 4096) m); try lia; try done.
  destruct (Z.leb_spec (m + 4096) a), (Z.ltb_spec m (a - a mod 4096)); try lia; done.
Qed.

Lemma wp_slab_find w V k sd d ld a (Q : option Z -> world PS -> Prop) :
  find_ctx w V k sd d ld -> aligned_tree V d -> 0 <= a ->
  (forall se, se ∈ inorder (sd_maddr_root d) -> maddr_of V se <= a < maddr_of V se + PAGE_SIZE -> Q (Some se) w) ->
  ((forall se, se ∈ inorder (sd_maddr_root d) -> ~ (maddr_of V se <= a < maddr_of V se + PAGE_SIZE)) -> Q None w) ->
  wp (slab_find a) Q w.
Proof.
  intros [Hs Hd [Hsrt Hen]] Hal Ha HQ1 HQ0. unfold slab_find. apply wp_bind. eapply wp_current_dir; [done|done|].
  apply wp_bind. eapply wp_read_view; [done|by apply Hd|done|]. unfold find_by_key. apply wp_gets.
  assert (Hin : forall se, se ∈ inorder (sd_maddr_root d) ->
    (maddr_of V se = ROUND_DWNPG a <-> maddr_of V se <= a < maddr_of V se + PAGE_SIZE)).
  { intros se Hse. destruct (Hal se Hse) as (H1 & H2 & H3). rewrite ROUND_DWNPG_eq. unfold PAGE_SIZE in *.
    pose proof (Z.mod_pos_bound a 4096). pose proof (Z.div_mod a 4096). pose proof (Z.div_mod (maddr_of V se) 4096). lia. }
  assert (Hfun : forall t, (forall y, y ∈ inorder t -> y ∈ inorder (sd_maddr_root d)) ->
    RB_FIND (fun _ y => slab_entry_compare_by_maddr (SLAB_ENTRY_SEARCH_KEY a SE_SEARCH_MADDR) (se_at w y)) t 0 =
    RB_FIND (fun _ y => cmp_ptr (ROUND_DWNPG a) (maddr_of V y)) t 0).
  { induction t as [|c l IHl x r IHr]; intros Ht; [done|]. simpl in Ht |- *.
    assert (Hx : x ∈ inorder (sd_maddr_root d)) by (apply Ht, elem_of_app; right; by left).
    destruct (Hal x Hx) as (H1 & H2 & H3).
    rewrite (se_at_view _ _ _ _ Hs (Hen x Hx)).
    rewrite (compare_maddr_page a (ROUND_DWNPG a) (maddr_of V x)) by done.
    rewrite IHl by (intros y Hy; apply Ht, elem_of_app; by left).
    rewrite IHr by (intros y Hy; apply Ht, elem_of_app; right; by right). done. }
  rewrite Hfun by done.
  destruct (RB_FIND (fun _ y => cmp_ptr (ROUND_DWNPG a) (maddr_of V y)) (sd_maddr_root d) 0) as [se|] eqn:E.
  - assert (Hex : exists x, x ∈ inorder (sd_maddr_root d) /\ maddr_of V x = ROUND_DWNPG a).
    { destruct (decide (Exists (fun x => maddr_of V x = ROUND_DWNPG a) (inorder (sd_maddr_root d)))) as [Hex|Hno].
      - apply Exists_exists in Hex as (x & ? & ?). by exists x.
      - rewrite (RB_FIND_none (maddr_of V)) in E; [done|done|]. intros x Hx Hxe. apply Hno, Exists_exists. by exists x. }
    destruct Hex as (x & Hx & Hxe). rewrite (RB_FIND_key (maddr_of V) _ 0 _ x Hsrt Hx Hxe) in E. injection E as <-.
    apply HQ1; [done|]. by apply Hin.
  - apply HQ0. intros se Hse Hr. rewrite <- Hin in Hr by done.
    by rewrite (RB_FIND_key (maddr_of V) _ 0 _ se Hsrt Hse Hr) in E.
Qed.

(** ** Entries by id, and the root *)
Record id_in w V (sd : Z) (d : slab_dir) (ld seid se : Z) : Prop := {
  ii_dir : dir_in w V sd d ld;
  ii_path : let '(sd_idx, so_idx, si_idx, sb_idx) := id_path seid in
    exists so lso o wo lo si lsi n wn ln sb lsb,
      zget (n_current (sd_node d)) sd_idx = Some (NRef so lso) /\ V !! so = Some (PInfo (PgOuter o) wo lo) /\
      zget (n_current o) so_idx = Some (NRef si lsi) /\ V !! si = Some (PInfo (PgInner n) wn ln) /\
      zget (n_current n) si_idx = Some (NRef sb lsb) /\ se = se_addr sb sb_idx;
}.

Lemma wp_current_maddr n i r l (Q : Z -> world PS -> Prop) w :
  zget (n_current n) i = Some (NRef r l) -> Q r w -> wp (current_maddr n i) Q w.
Proof. intros E HQ. unfold current_maddr. apply wp_bind. eapply wp_from_opt; [done|]. by apply wp_ret. Qed.

Lemma wp_get_slab_entry_by_id w V k sd d ld seid se (Q : Z -> world PS -> Prop) :
  sees w V k -> id_in w V sd d ld seid se -> Q se w -> wp (get_slab_entry_by_id seid) Q w.
Proof.
  intros Hs [Hd Hp] HQ. unfold id_path in Hp.
  destruct Hp as (so & lso & o & wo & lo & si & lsi & n & wn & ln & sb & lsb & E1 & E2 & E3 & E4 & E5 & ->).
  unfold get_slab_entry_by_id. apply wp_bind. eapply wp_current_dir; [done|done|].
  apply wp_bind. eapply wp_read_view; [done|by apply Hd|done|]. apply wp_bind. eapply wp_current_maddr; [done|].
  apply wp_bind. eapply wp_read_view; [done|done|done|]. apply wp_bind. eapply wp_current_maddr; [done|].
  apply wp_bind. eapply wp_read_view; [done|done|done|]. apply wp_bind. eapply wp_current_maddr; [done|].
  by apply wp_ret.
Qed.
(** ** Setting the root *)
Lemma wp_find_normal_none w V k d a (Q : option Z -> world PS -> Prop) :
  sees w V k -> tree_in V d -> (forall se, se ∈ inorder (sd_maddr_root d) -> maddr_of V se <> a) ->
  Q None w -> wp (find_by_key d (SLAB_ENTRY_SEARCH_KEY a SE_SEARCH_NORMAL)) Q w.
Proof.
  intros Hs [Hsrt Hen] Hno HQ. unfold find_by_key. apply wp_gets.
  pose (f := fun y => d_maddr (se_data_current (se_at w y))).
  assert (Hf : forall y, y ∈ inorder (sd_maddr_root d) -> maddr_of V y = f y).
  { intros y Hy. unfold f. by rewrite (se_at_view _ _ _ _ Hs (Hen y Hy)). }
  pose proof (RB_FIND_none f (sd_maddr_root d) 0 a (key_sorted_ext _ _ _ Hf Hsrt)) as E.
  change (Q (RB_FIND (fun _ y => cmp_ptr a (f y)) (sd_maddr_root d) 0) w). rewrite E; [done|].
  intros x Hx. rewrite <- (Hf x Hx). by apply Hno.
Qed.

(** The directory with another root word: what the walk by id needs is kept. *)
Lemma dir_in_set w V sd d ld d' w' :
  dir_in w V sd d ld -> globals w' = globals w -> dir_in w' (<[sd := PInfo (PgDir d') true ld]> V) sd d' ld.
Proof.
  intros [Hd (c & cont & wc & lc & Hc & Ec & Esd)] Hg. split; [by rewrite lookup_insert_eq|].
  exists c, cont, wc, lc. rewrite (globals_cont _ _ Hg). split_and!; [done| |done]. by vlook.
Qed.

Lemma id_in_set w V sd d ld seid se d' w' :
  id_in w V sd d ld seid se -> globals w' = globals w -> sd_node d' = sd_node d ->
  id_in w' (<[sd := PInfo (PgDir d') true ld]> V) sd d' ld seid se.
Proof.
  intros [Hd Hp] Hg En. pose proof (di_dir _ _ _ _ _ Hd) as Ed. split; [by eapply dir_in_set|].
  destruct (id_path seid) as [[[i1 i2] i3] i4].
  destruct Hp as (so & lso & o & wo & lo & si & lsi & n & wn & ln & sb & lsb & E1 & E2 & E3 & E4 & E5 & ->).
  exists so, lso, o, wo, lo, si, lsi, n, wn, ln, sb, lsb. rewrite En. split_and!; (done || by vlook).
Qed.

(** What setting the root to an address in the page [m] of the entry [se]
    relies on. *)
Record root_ctx w V k (sd : Z) (d : slab_dir) (ld : Z) (se : Z) (b : slab_bucket) (lb : Z) (e : slab_entry) (m : Z) (im : pinfo) : Prop := {
  rc_find : find_ctx w V k sd d ld;
  rc_in : se ∈ inorder (sd_maddr_root d);
  rc_entry : entry_in V se b lb e m im;
  rc_id : in_u 32 (se_id e);
  rc_path : id_in w V sd d ld (se_id e) se;
}.

Lemma wp_slab_setroot w V k sd d ld se b lb e m im a (Q : Z -> world PS -> Prop) :
  root_ctx w V k sd d ld se b lb e m im -> m <= a < m + PAGE_SIZE ->
  (forall w', globals w' = globals w ->
     sees w' (<[sd := PInfo (PgDir (set_sd_cont_root (PACK_CONT_ROOT (se_id e) (m - a)) d)) true ld]> V) k -> Q 1 w') ->
  wp (slab_setroot a) Q w.
Proof.
  intros [[Hs Hd Ht] Hin He _ _] Ha HQ. unfold slab_setroot. pose proof (di_dir _ _ _ _ _ Hd) as Ed.
  destruct (sees_aligned _ _ _ _ _ Hs (ei_data _ _ _ _ _ _ _ He)) as (Hal & Hpos & Htop).
  destruct (page_of_byte m a) as [E1 E2]; [done|done|done|unfold PAGE_SIZE in *; lia|].
  apply wp_bind. eapply wp_current_dir; [done|done|].
  apply wp_bind. eapply wp_read_view; [done|done|done|]. rewrite E1.
  apply wp_bind. destruct (entry_in_at _ _ _ _ _ _ _ He) as [_ Hma]. eapply wp_find_normal; [done|done|done|done|].
  apply wp_bind. eapply wp_get_se; [done|by apply He|by apply He|].
  assert (Ep : ptoi a = a) by (unfold ptoi, u64; apply wrap_id; unfold in_u, PAGE_SIZE in *; lia).
  rewrite E2, Ep. apply wp_bind. unfold upd. apply wp_bind. eapply wp_read_view; [done|done|done|].
  unfold write. simpl to_page. eapply storing_store; [done|done|done|]. intros w1 Hs1 Hg1.
  apply wp_bind. eapply quiet_stat; [done|]. intros w2 Hs2 Hg2. apply wp_ret. apply HQ; [congruence|done].
Qed.

Lemma wp_slab_getroot w V k sd d ld se b lb e m im (Q : Z -> world PS -> Prop) :
  sees w V k -> id_in w V sd d ld (UNPACK_CONT_ROOT (sd_cont_root d)).1 se -> entry_in V se b lb e m im ->
  Q (m + (UNPACK_CONT_ROOT (sd_cont_root d)).2) w -> wp slab_getroot Q w.
Proof.
  intros Hs Hid He HQ. pose proof (ii_dir _ _ _ _ _ _ _ Hid) as Hd. unfold slab_getroot.
  apply wp_bind. eapply wp_current_dir; [done|done|].
  apply wp_bind. eapply wp_read_view; [done|by apply Hd|done|].
  destruct (UNPACK_CONT_ROOT (sd_cont_root d)) as [seid off]. apply wp_bind. eapply wp_get_slab_entry_by_id; [done|done|].
  apply wp_bind. eapply wp_get_se; [done|by apply He|by apply He|]. apply wp_ret. by rewrite (ei_maddr _ _ _ _ _ _ _ He).
Qed.
End slab_rules.


(** ** Properties *)

(** C23 [slab_setroot] followed by [slab_getroot]: for the first address of the
    data page of an entry, the root is that address again.  For any other
    address of the page the packed offset is negative and its sign fills the
    id of the root with ones, so the entry is lost.  For an address in no
    data page the result is 0 and nothing changes. *)
Theorem slab_setroot_correct {PS} `{PL : PageAllocatorLaws PS} (w : world PS) V k sd d ld a :
  find_ctx w V k sd d ld -> 0 < a < 2 ^ 64 ->
  (forall se b lb e m im, root_ctx w V k sd d ld se b lb e m im -> m <= a < m + PAGE_SIZE ->
     (a = m -> wp (let! r := slab_setroot a in let! x := slab_getroot in ret (r, x))
                  (fun rx w' => rx = (1, a) /\ globals w' = globals w) w) /\
     (a <> m -> wp (slab_setroot a) (fun r w' => r = 1 /\ exists d', page_at w' sd = Some (PgDir d') /\
                  (UNPACK_CONT_ROOT (sd_cont_root d')).1 = 2 ^ 32 - 1) w)) /\
  ((forall se, se ∈ inorder (sd_maddr_root d) -> maddr_of V se <> a / PAGE_SIZE * PAGE_SIZE) ->
     wp (slab_setroot a) (fun r w' => r = 0 /\ w' = w) w).
Proof.
  intros Hf Ha. split.
  - intros se b lb e m im Hr Hm. pose proof Hr as [_ _ He Hid Hp]. pose proof (di_dir _ _ _ _ _ (fi_dir _ _ _ _ _ _ Hf)) as Ed.
    split; intros Ham.
    + subst a. apply wp_bind. eapply wp_slab_setroot; [done|done|]. intros w1 Hg1 Hs1. rewrite Z.sub_diag in Hs1.
      assert (Eu : UNPACK_CONT_ROOT (PACK_CONT_ROOT (se_id e) 0) = (se_id e, 0)) by (apply pack_unpack; [done|unfold in_u; lia]).
      set (d1 := set_sd_cont_root _ d) in *. change (PACK_CONT_ROOT (se_id e) 0) with (sd_cont_root d1) in Eu.
      destruct (data_page_ne _ _ _ _ _ _ _ _ _ _ He Ed) as [Hne1 Hne2].
      pose proof (ei_bucket _ _ _ _ _ _ _ He) as Eb. unfold bucket_in in Eb. pose proof (ei_data _ _ _ _ _ _ _ He) as Edm.
      apply wp_bind. eapply (wp_slab_getroot w1 _ _ sd d1 ld se b lb e m im); [exact Hs1| | |].
      * rewrite Eu. by eapply id_in_set.
      * destruct He. split; try done; [unfold bucket_in; by vlook|by vlook].
      * rewrite Eu, Z.add_0_r. apply wp_ret. split; done.
    + eapply wp_slab_setroot; [done|done|]. intros w1 Hg1 Hs1. split; [done|]. eexists. split.
      * destruct (sees_shows _ _ _ Hs1 sd _ (lookup_insert_eq _ _ _)) as (E & _). exact E.
      * simpl. replace (PACK_CONT_ROOT (se_id e) (m - a)) with (PACK_CONT_ROOT (se_id e) (u64 (- (a - m)))).
        -- apply pack_negative; [done|lia].
        -- unfold PACK_CONT_ROOT. f_equal. unfold u64. rewrite (wrap_id 64 (wrap 64 _)) by (apply wrap_range; lia). f_equal. lia.
  - intros Hno. destruct Hf as [Hs Hd Ht]. unfold slab_setroot. apply wp_bind. eapply wp_current_dir; [done|done|].
    apply wp_bind. eapply wp_read_view; [done|by apply Hd|done|].
    assert (Er : itop (ROUND_DWNPG (ptoi a)) = a / PAGE_SIZE * PAGE_SIZE).
    { unfold itop, ptoi, u64. rewrite (wrap_id 64 a) by (unfold in_u; lia). rewrite ROUND_DWNPG_eq. unfold PAGE_SIZE.
      pose proof (Z.mod_pos_bound a 4096). pose proof (Z.div_mod a 4096). rewrite wrap_id by (unfold in_u; lia). lia. }
    rewrite Er. apply wp_bind. eapply wp_find_normal_none; [done|done|done|]. by apply wp_ret.
Qed.

Lemma demo_id_in w p : demo w p -> id_in w (demo_V p) (dp_d p).1 (demo_dir p) (dp_d p).2 0 (demo_se p).
Proof.
  intros H. destruct (demo_lookups w p H) as (_ & _ & Ho & Hi & _ & _). split; [by apply demo_dir_in|].
  change (id_path 0) with (0, 0, 0, 0).
  exists (dp_o p).1, (dp_o p).2, (demo_node SLAB_OUTER_ENTRIES (dp_i p)), true, (dp_o p).2,
    (dp_i p).1, (dp_i p).2, (demo_node SLAB_INNER_ENTRIES (dp_b p)), true, (dp_i p).2, (dp_b p).1, (dp_b p).2.
  split_and!; (done || reflexivity).
Qed.

Lemma demo_root w p : demo w p ->
  root_ctx w (demo_V p) 58 (dp_d p).1 (demo_dir p) (dp_d p).2 (demo_se p) (demo_bucket p) (dp_b p).2
    (demo_entry p) (dp_m p).1 (PInfo demo_data false (dp_m p).2).
Proof.
  intros H. pose proof (demo_fault w p H) as [Hs Hd Ht Hin He _ _ _ _]. split; [done|done|done|done|by apply demo_id_in].
Qed.

Lemma slab_setroot_correct_witness : exists (w : world fmst) p,
  wp (let! r := slab_setroot (dp_m p).1 in let! x := slab_getroot in ret (r, x))
    (fun rx w' => rx = (1, (dp_m p).1)) w /\
  wp (slab_setroot ((dp_m p).1 + 8)) (fun r w' => r = 1) w /\
  wp (slab_setroot 8) (fun r w' => r = 0 /\ w' = w) w.
Proof.
  destruct demo_exists as (w & p & H). exists w, p. pose proof (demo_root w p H) as Hr. destruct (do_data _ _ _ _ _ _ _ _ H) as (Hal & Hpos & Htop).
  pose proof (slab_setroot_correct w (demo_V p) 58 (dp_d p).1 (demo_dir p) (dp_d p).2) as Ht.
  assert (Hlt : (dp_m p).1 + PAGE_SIZE < 2 ^ 64) by (unfold PAGE_SIZE in *; lia). unfold PAGE_SIZE in Hlt.
  split_and!.
  - destruct (Ht (dp_m p).1) as [Ht1 _]; [exact (rc_find _ _ _ _ _ _ _ _ _ _ _ _ Hr)|lia|].
    destruct (Ht1 _ _ _ _ _ _ Hr) as [H1 _]; [unfold PAGE_SIZE; lia|].
    eapply wp_mono; [exact (H1 eq_refl)|]. intros rx w' [E _]. exact E.
  - destruct (Ht ((dp_m p).1 + 8)) as [Ht1 _]; [exact (rc_find _ _ _ _ _ _ _ _ _ _ _ _ Hr)|lia|].
    destruct (Ht1 _ _ _ _ _ _ Hr) as [_ H1]; [unfold PAGE_SIZE; lia|].
    eapply wp_mono; [apply H1; lia|]. intros r w' [E _]. exact E.
  - destruct (Ht 8) as [_ Ht0]; [exact (rc_find _ _ _ _ _ _ _ _ _ _ _ _ Hr)|lia|]. apply Ht0.
    intros se Hse. simpl in Hse. apply list_elem_of_singleton in Hse as ->.
    destruct (entry_in_at _ _ _ _ _ _ _ (rc_entry _ _ _ _ _ _ _ _ _ _ _ _ Hr)) as [_ E]. rewrite E. change (8 / PAGE_SIZE * PAGE_SIZE) with 0. lia.
Defined.

(** [slab_find] returns the entry whose data page contains the address,
    and [NULL] exactly when there is none. *)
Theorem slab_find_correct {PS} `{PL : PageAllocatorLaws PS} (w : world PS) V k sd d ld a :
  find_ctx w V k sd d ld -> aligned_tree V d -> 0 <= a ->
  wp (slab_find a) (fun r w' => w' = w /\
    match r with
    | Some se => se ∈ inorder (sd_maddr_root d) /\ maddr_of V se <= a < maddr_of V se + PAGE_SIZE
    | None => forall se, se ∈ inorder (sd_maddr_root d) -> ~ (maddr_of V se <= a < maddr_of V se + PAGE_SIZE)
    end) w.
Proof. intros Hf Hal Ha. by eapply wp_slab_find. Qed.

Lemma slab_find_correct_witness : exists (w : world fmst) p,
  wp (slab_find ((dp_m p).1 + 100)) (fun r w' => r = Some (demo_se p)) w /\ wp (slab_find 5) (fun r w' => r = None) w.
Proof.
  destruct demo_exists as (w & p & H). exists w, p. pose proof (demo_root w p H) as Hr. destruct (do_data _ _ _ _ _ _ _ _ H) as (Hal & Hpos & Htop).
  destruct (entry_in_at _ _ _ _ _ _ _ (rc_entry _ _ _ _ _ _ _ _ _ _ _ _ Hr)) as [_ Em].
  assert (Hat : aligned_tree (demo_V p) (demo_dir p)).
  { intros se Hse. simpl in Hse. apply list_elem_of_singleton in Hse as ->. rewrite Em. unfold PAGE_SIZE in *. lia. }
  pose proof (rc_find _ _ _ _ _ _ _ _ _ _ _ _ Hr) as Hf. split.
  - eapply wp_mono; [apply (slab_find_correct w (demo_V p) 58 _ _ _ ((dp_m p).1 + 100) Hf Hat); lia|].
    intros [se|] w' [_ Hres]; [destruct Hres as [Hse _]; simpl in Hse; by apply list_elem_of_singleton in Hse as ->|].
    exfalso. apply (Hres (demo_se p)); [by left|]. rewrite Em. unfold PAGE_SIZE. lia.
  - eapply wp_mono; [apply (slab_find_correct w (demo_V p) 58 _ _ _ 5 Hf Hat); lia|].
    intros [se|] w' [_ Hres]; [|done]. destruct Hres as [Hse Hrg]. simpl in Hse. apply list_elem_of_singleton in Hse as ->.
    rewrite Em in Hrg. unfold PAGE_SIZE in *. assert ((dp_m p).1 <= 5) by lia. pose proof (Z.div_mod (dp_m p).1 4096). lia.
Defined.

(** C34 Entry ids and the tree: every id below the capacity of a directory
    (28 entries, 127 buckets, 127 inner and 124 outer nodes) has indices
    within the arrays, different ids have different indices, and
    [get_slab_entry_by_id] returns the entry its indices lead to. *)
Theorem get_slab_entry_by_id_correct {PS} `{PL : PageAllocatorLaws PS} (w : world PS) V k sd d ld seid :
  0 <= seid < max_entries ->
  (let '(i, j, l, n) := id_path seid in
     0 <= i < SLAB_DIR_ENTRIES /\ 0 <= j < SLAB_OUTER_ENTRIES /\ 0 <= l < SLAB_INNER_ENTRIES /\ 0 <= n < SLAB_BUCKET_ENTRIES) /\
  (forall y, 0 <= y < max_entries -> id_path y = id_path seid -> y = seid) /\
  (forall se, sees w V k -> id_in w V sd d ld seid se -> wp (get_slab_entry_by_id seid) (fun r w' => r = se /\ w' = w) w).
Proof.
  intros Hid. split_and!.
  - rewrite id_path_eq by done. change SLAB_DIR_ENTRIES with 124. change SLAB_OUTER_ENTRIES with 127.
    change SLAB_INNER_ENTRIES with 127. change SLAB_BUCKET_ENTRIES with 28.
    change max_entries with (28 * 127 * 127 * 124) in Hid.
    split_and!; try (apply Z.mod_pos_bound; lia); [apply Z.div_pos; lia|apply Z.div_lt_upper_bound; lia].
  - intros y Hy E. by apply id_path_inj.
  - intros se Hs Hi. by eapply wp_get_slab_entry_by_id.
Qed.

Lemma get_slab_entry_by_id_correct_witness : exists (w : world fmst) p,
  id_path 3599 = (0, 1, 1, 15) /\ wp (get_slab_entry_by_id 0) (fun r w' => r = demo_se p /\ w' = w) w.
Proof.
  destruct demo_exists as (w & p & H). exists w, p. split; [reflexivity|].
  apply (get_slab_entry_by_id_correct w (demo_V p) 58 (dp_d p).1 (demo_dir p) (dp_d p).2 0); [split; reflexivity || discriminate|by eapply do_sees|by apply demo_id_in].
Defined.
