(* ===== verification/Pointers.v ===== *)
(** * Persistent pointers: what the functions of [src/slab.c] guarantee

    [slab_insert_pointer] and [slab_fixptrs] are defined in [Slab.v].  Here
    is what they do: a pointer recorded by the one is written back by the
    other, wherever the two pages lie by then. *)
From Stdlib Require Import ZArith Lia.
From stdpp Require Import base numbers gmap option list.
From S2P Require Import Prelude Macros Bitstring Vector Queue Process RBTree FixedMapper PageAlloc.
From S2P Require Import SlabLayout World Demo Snapshot Slab.
Open Scope Z_scope.

Section pointers.
Context {PS : Type} `{PL : PageAllocatorLaws PS}.
Implicit Types (w : world PS) (V : gmap Z pinfo) (k : nat).

(** The pointer page [pp] of the entry [e]: the first [r_idx] of [items] are
    in use. *)
Record ptrs_in V (e : slab_entry) (pp : Z) (items : list slab_ptr_item) (lp : Z) : Prop := {
  pt_maddr : r_maddr (se_ptr_current e) = pp;
  pt_not0 : pp <> 0;
  pt_page : V !! pp = Some (PInfo (PgPtrs items) true lp);
  pt_idx : 0 <= r_idx (se_ptr_current e) < zlen items;
  pt_len : zlen items < 2 ^ 16 - 1;
}.

Definition bumped (e : slab_entry) : slab_entry :=
  set_se_ptr_current (set_r_idx (u16 (r_idx (se_ptr_current e) + 1)) (se_ptr_current e)) e.

(** The view after an item is appended. *)
Definition item_view V (se : Z) b lb e pp items lp (it : slab_ptr_item) : gmap Z pinfo :=
  <[se_page se := PInfo (PgBucket (put_entry b se (bumped e))) true lb]>
  (<[pp := PInfo (PgPtrs (<[Z.to_nat (r_idx (se_ptr_current e)) := it]> items)) true lp]> V).

Lemma wp_append_item w V k se b lb e m im pp items lp it (Q : unit -> world PS -> Prop) :
  sees w V k -> entry_in V se b lb e m im -> ptrs_in V e pp items lp ->
  (forall w', sees w' (item_view V se b lb e pp items lp it) k -> globals w' = globals w -> Q tt w') ->
  wp (append_item se it) Q w.
Proof.
  intros Hs He [Epp _ Ep Hidx _] HQ. pose proof (ei_bucket _ _ _ _ _ _ _ He) as Eb. unfold bucket_in in Eb.
  pose proof (ei_entry _ _ _ _ _ _ _ He) as Ee.
  unfold append_item. apply wp_bind. eapply wp_get_se; [done|done|done|]. rewrite Epp.
  apply wp_bind. eapply wp_read_view; [done|done|done|].
  destruct (zset_total items (r_idx (se_ptr_current e)) it) as [items' Ei]; [done|]. apply wp_bind.
  eapply wp_from_opt; [done|]. apply zset_Some in Ei as [_ ->]. apply wp_bind. unfold write. simpl to_page.
  eapply storing_store; [done|done|done|]. intros w1 Hs1 Hg1.
  eapply wp_upd_se; [done|unfold bucket_in; by vlook|done|]. intros w2 Hs2 Hg2. apply HQ; [exact Hs2|congruence].
Qed.

(** What [do_insert_pointer] relies on: the location [m + off] lies in the
    data page of [se], whose bytes are [bs]. *)
Record insert_ctx w V k (sd : Z) (d : slab_dir) (ld : Z) (se : Z) b lb e (m : Z) im pp items lp (off : Z) bs : Prop := {
  ic_find : find_ctx w V k sd d ld;
  ic_in : se ∈ inorder (sd_maddr_root d);
  ic_entry : entry_in V se b lb e m im;
  ic_ptrs : ptrs_in V e pp items lp;
  ic_bytes : as_page (T := data_page) (pi_page im) = Some (Data bs);
  ic_len : zlen bs = PAGE_SIZE;
  ic_off : 0 <= off /\ off + 8 <= PAGE_SIZE;
}.

Definition word_at (bs : list Z) (off : Z) : Z := le_word (take 8 (drop (Z.to_nat off) bs)).

Lemma wp_insert_prefix w V k sd d ld se b lb e m im pp items lp off bs (Q : unit -> world PS -> Prop) :
  insert_ctx w V k sd d ld se b lb e m im pp items lp off bs ->
  wp (if negb (word_at bs off =? 0) then
        let! d := read (T := slab_dir) sd in
        let! se_val := find_by_key d
          (SLAB_ENTRY_SEARCH_KEY (itop (ROUND_DWNPG (ptoi (word_at bs off)))) SE_SEARCH_NORMAL) in
        match se_val with
        | None => fail HandleError
        | Some se_val =>
            let! v := get_se se_val in
            append_item se (PtrItem off (se_id v) (u16 (ptoi (word_at bs off) - ROUND_DWNPG (ptoi (word_at bs off)))))
        end
      else append_item se (PtrItem off SLAB_PTR_SEID_NULL SLAB_PTR_OFFSET_NULL)) Q w ->
  wp (do_insert_pointer (m + off)) Q w.
Proof.
  intros [[Hs Hd Ht] Hin He Hp Hb Hl Ho] HQ. pose proof (di_dir _ _ _ _ _ Hd) as Ed.
  destruct (sees_aligned _ _ _ _ _ Hs (ei_data _ _ _ _ _ _ _ He)) as (Hal & Hpos & Htop).
  unfold PAGE_SIZE in Ho, Htop.
  destruct (page_of_byte m (m + off)) as [E1 E2]; [done|done|unfold PAGE_SIZE; lia|lia|].
  assert (Ep : ptoi (m + off) = m + off) by (unfold ptoi, u64; apply wrap_id; unfold in_u; lia).
  assert (Eo : u16 (ptoi (m + off) - ROUND_DWNPG (ptoi (m + off))) = off).
  { rewrite E2, Ep. replace (m + off - m) with off by lia. unfold u16. apply wrap_id. unfold in_u. lia. }
  assert (Hpg : in_page w V k m im bs (m + off) 8).
  { split; [done|by eapply ei_data|done|done|unfold PAGE_SIZE; lia]. }
  unfold do_insert_pointer. apply wp_bind. eapply wp_current_dir; [done|done|]. apply wp_bind.
  eapply wp_load_ptr; [exact Hpg|].
  replace (m + off - m) with off by lia. change (le_word _) with (word_at bs off).
  apply wp_bind. apply wp_assert; [destruct (Z.eqb_spec (m + off) 0); [lia|done]|]. rewrite Eo, E1.
  apply wp_bind. eapply wp_read_view; [done|done|done|].
  apply wp_bind. destruct (entry_in_at _ _ _ _ _ _ _ He) as [_ Hma]. eapply wp_find_normal; [done|done|done|done|].
  apply wp_bind. eapply wp_get_se; [done|by apply He|by apply He|]. rewrite (pt_maddr _ _ _ _ _ Hp).
  destruct (Z.eqb_spec pp 0) as [E|_]; [by destruct (pt_not0 _ _ _ _ _ Hp)|]. cbn [when]. apply wp_bind, wp_ret. exact HQ.
Qed.

Lemma wp_do_insert_pointer w V k sd d ld se b lb e m im pp items lp off bs se' b' lb' e' m' im' (Q : unit -> world PS -> Prop) :
  insert_ctx w V k sd d ld se b lb e m im pp items lp off bs ->
  se' ∈ inorder (sd_maddr_root d) -> entry_in V se' b' lb' e' m' im' -> m' <= word_at bs off < m' + PAGE_SIZE ->
  (forall w', sees w' (item_view V se b lb e pp items lp (PtrItem off (se_id e') (word_at bs off - m'))) k ->
     globals w' = globals w -> Q tt w') ->
  wp (do_insert_pointer (m + off)) Q w.
Proof.
  intros Hi Hin' He' Hv HQ. eapply wp_insert_prefix; [done|]. destruct Hi as [[Hs Hd Ht] _ He Hp _ _ _].
  destruct (sees_aligned _ _ _ _ _ Hs (ei_data _ _ _ _ _ _ _ He')) as (Hal & Hpos & Htop). unfold PAGE_SIZE in Hv, Htop.
  destruct (Z.eqb_spec (word_at bs off) 0); [lia|]. cbn [negb].
  destruct (page_of_byte m' (word_at bs off)) as [E1 E2]; [done|done|unfold PAGE_SIZE; lia|lia|].
  assert (Ep : ptoi (word_at bs off) = word_at bs off) by (unfold ptoi, u64; apply wrap_id; unfold in_u; lia).
  apply wp_bind. eapply wp_read_view; [done|by apply Hd|done|]. rewrite E1.
  apply wp_bind. destruct (entry_in_at _ _ _ _ _ _ _ He') as [_ Hma]. eapply wp_find_normal; [done|done|done|done|].
  apply wp_bind. eapply wp_get_se; [done|by apply He'|by apply He'|]. rewrite E2, Ep.
  unfold u16. rewrite (wrap_id 16) by (unfold in_u; lia). by eapply wp_append_item.
Qed.

Lemma wp_do_insert_null w V k sd d ld se b lb e m im pp items lp off bs (Q : unit -> world PS -> Prop) :
  insert_ctx w V k sd d ld se b lb e m im pp items lp off bs -> word_at bs off = 0 ->
  (forall w', sees w' (item_view V se b lb e pp items lp (PtrItem off SLAB_PTR_SEID_NULL SLAB_PTR_OFFSET_NULL)) k ->
     globals w' = globals w -> Q tt w') ->
  wp (do_insert_pointer (m + off)) Q w.
Proof.
  intros Hi Ev HQ. eapply wp_insert_prefix; [done|]. destruct Hi as [[Hs Hd Ht] _ He Hp _ _ _]. rewrite Ev. cbn [Z.eqb negb].
  by eapply wp_append_item.
Qed.

(** ** Writing a pointer back *)

(** What [fix_item] relies on for the item [it]: the data page of [se], at
    [m], is writable. *)
Record fix_ctx w V k (se : Z) b lb e (m : Z) im pp items lp (n : Z) it bs : Prop := {
  fx_sees : sees w V k;
  fx_entry : entry_in V se b lb e m im;
  fx_writable : pi_writable im = true;
  fx_ptrs : ptrs_in V e pp items lp;
  fx_item : zget items n = Some it;
  fx_bytes : as_page (T := data_page) (pi_page im) = Some (Data bs);
  fx_len : zlen bs = PAGE_SIZE;
  fx_off : 0 <= ploc_offset it /\ ploc_offset it + 8 <= PAGE_SIZE;
}.

Lemma fix_in_page w V k se b lb e m im pp items lp n it bs :
  fix_ctx w V k se b lb e m im pp items lp n it bs -> in_page w V k m im bs (m + ploc_offset it) 8.
Proof. intros [Hs He _ _ _ Hb Hl Ho]. split; [done|by apply He|done|done|lia]. Qed.

(** The bytes of the data page after the pointer is [v]. *)
Definition pointed V' m bs (off v : Z) : Prop :=
  exists i, V' !! m = Some i /\ as_page (T := data_page) (pi_page i) = Some (Data (put_bytes bs (Z.to_nat off) (le_bytes 8 v))).

Lemma wp_fix_store w V k se b lb e m im pp items lp n it bs v (Q : unit -> world PS -> Prop) :
  fix_ctx w V k se b lb e m im pp items lp n it bs ->
  (forall w' i', sees w' (<[m := i']> V) k -> globals w' = globals w -> pointed (<[m := i']> V) m bs (ploc_offset it) v -> Q tt w') ->
  wp (store_ptr (m + ploc_offset it) v) Q w.
Proof.
  intros Hf HQ. eapply wp_store_ptr; [by eapply fix_in_page|by apply Hf|]. intros w' i' Hs' Hg Hb' _.
  apply (HQ w' i'); [done|done|]. exists i'. split; [by rewrite lookup_insert_eq|].
  by replace (m + ploc_offset it - m) with (ploc_offset it) in Hb' by lia.
Qed.

Lemma wp_fix_item w V k se b lb e m im pp items lp n it bs (Q : unit -> world PS -> Prop) :
  fix_ctx w V k se b lb e m im pp items lp n it bs ->
  (is_null_item it = true -> forall w' i', sees w' (<[m := i']> V) k -> globals w' = globals w ->
     pointed (<[m := i']> V) m bs (ploc_offset it) 0 -> Q tt w') ->
  (is_null_item it = false -> exists sd d ld se' b' lb' e' m' im', id_in w V sd d ld (pval_seid it) se' /\
     entry_in V se' b' lb' e' m' im' /\
     (forall w' i', sees w' (<[m := i']> V) k -> globals w' = globals w ->
        pointed (<[m := i']> V) m bs (ploc_offset it) (m' + pval_offset it) -> Q tt w')) ->
  wp (fix_item se n) Q w.
Proof.
  intros Hf HQ0 HQ1. pose proof Hf as [Hs He _ Hp Ei _ _ _]. unfold fix_item.
  apply wp_bind. eapply wp_get_se; [done|by apply He|by apply He|]. rewrite (pt_maddr _ _ _ _ _ Hp), (ei_maddr _ _ _ _ _ _ _ He).
  apply wp_bind. eapply wp_read_view; [done|by apply Hp|done|]. apply wp_bind. eapply wp_from_opt; [done|]. cbn zeta.
  destruct (is_null_item it).
  - eapply wp_fix_store; [done|]. by apply HQ0.
  - destruct HQ1 as (sd & d & ld & se' & b' & lb' & e' & m' & im' & Hid & He' & HQ1); [done|].
    apply wp_bind. eapply wp_get_slab_entry_by_id; [done|done|].
    apply wp_bind. eapply wp_get_se; [done|by apply He'|by apply He'|]. rewrite (ei_maddr _ _ _ _ _ _ _ He').
    by eapply wp_fix_store.
Qed.

Lemma pointed_word V' m bs off v :
  zlen bs = PAGE_SIZE -> 0 <= off -> off + 8 <= PAGE_SIZE -> pointed V' m bs off v ->
  exists i bs', V' !! m = Some i /\ as_page (T := data_page) (pi_page i) = Some (Data bs') /\ zlen bs' = PAGE_SIZE /\
    word_at bs' off = u64 v /\ (forall j, 0 <= j -> j < off \/ off + 8 <= j -> zget bs' j = zget bs j).
Proof.
  intros Hl H0 H8 (i & Ei & Eb). exists i, (put_bytes bs (Z.to_nat off) (le_bytes 8 v)).
  unfold zlen, PAGE_SIZE in *. split_and!; [done|done|by rewrite put_bytes_len| |].
  - unfold word_at. rewrite <- (le_bytes_len 8 v) at 1. rewrite put_bytes_read; [|apply le_bytes_ok|rewrite le_bytes_len; lia].
    rewrite le_word_bytes. done.
  - intros j Hj Hr. unfold zget. destruct (Z.leb_spec 0 j); [|lia]. destruct Hr.
    + apply put_bytes_before. lia.
    + apply put_bytes_after. rewrite le_bytes_len. lia.
Qed.
End pointers.

(** ** Properties *)

(** C28 [slab_insert_pointer] on a location in the data page of an entry with
    a pointer page: when the pointer there leads into the data page of
    another entry, the location's offset, that entry's id and the offset in
    its page are appended to the pointer page and the count grows; for a null
    pointer the null item is appended; when pointer fixing is switched off,
    nothing happens. *)
Theorem slab_insert_pointer_correct {PS} `{PL : PageAllocatorLaws PS} (w : world PS) V k sd d ld se b lb e m im pp items lp off bs :
  insert_ctx w V k sd d ld se b lb e m im pp items lp off bs ->
  (fixptrs_enabled w = true -> forall se' b' lb' e' m' im', se' ∈ inorder (sd_maddr_root d) ->
     entry_in V se' b' lb' e' m' im' -> m' <= word_at bs off < m' + PAGE_SIZE ->
     wp (slab_insert_pointer (m + off)) (fun _ w' => globals w' = globals w /\
       sees w' (item_view V se b lb e pp items lp (PtrItem off (se_id e') (word_at bs off - m'))) k) w) /\
  (fixptrs_enabled w = true -> word_at bs off = 0 ->
     wp (slab_insert_pointer (m + off)) (fun _ w' => globals w' = globals w /\
       sees w' (item_view V se b lb e pp items lp (PtrItem off SLAB_PTR_SEID_NULL SLAB_PTR_OFFSET_NULL)) k) w) /\
  (fixptrs_enabled w = false -> wp (slab_insert_pointer (m + off)) (fun _ w' => w' = w) w).
Proof.
  intros Hi. unfold slab_insert_pointer. split_and!.
  - intros Hon se' b' lb' e' m' im' Hin He Hv. apply wp_bind, wp_gets. rewrite Hon. by eapply wp_do_insert_pointer.
  - intros Hon Hv. apply wp_bind, wp_gets. rewrite Hon. by eapply wp_do_insert_null.
  - intros Hoff. apply wp_bind, wp_gets. rewrite Hoff. by apply wp_ret.
Qed.

(** C15 A recorded pointer survives a move.  [slab_insert_pointer] leaves an
    item from which, in any later world where the two entries have data pages
    at other addresses, [slab_fixptrs] writes the pointer so that it leads to
    the same offset in the target's new page, and changes no byte outside the
    pointer. *)
Theorem recorded_pointer_restored {PS} `{PL : PageAllocatorLaws PS} (w : world PS) V k sd d ld se b lb e m im pp items lp off bs
    se' b' lb' e' m' im' :
  insert_ctx w V k sd d ld se b lb e m im pp items lp off bs ->
  se' ∈ inorder (sd_maddr_root d) -> entry_in V se' b' lb' e' m' im' -> m' <= word_at bs off < m' + PAGE_SIZE ->
  wp (do_insert_pointer (m + off)) (fun _ w1 =>
    let it := PtrItem off (se_id e') (word_at bs off - m') in
    let items1 := <[Z.to_nat (r_idx (se_ptr_current e)) := it]> items in
    globals w1 = globals w /\ sees w1 (item_view V se b lb e pp items lp it) k /\
    forall (w2 : world PS) V2 k2 se2 b2 lb2 e2 m2 im2 pp2 lp2 bs2 sd2 d2 ld2 se2' b2' lb2' e2' m2' im2',
      fix_ctx w2 V2 k2 se2 b2 lb2 e2 m2 im2 pp2 items1 lp2 (r_idx (se_ptr_current e)) it bs2 ->
      id_in w2 V2 sd2 d2 ld2 (se_id e') se2' -> entry_in V2 se2' b2' lb2' e2' m2' im2' ->
      wp (fix_item se2 (r_idx (se_ptr_current e))) (fun _ w3 => exists V3 i3 bs3,
        sees w3 V3 k2 /\ V3 !! m2 = Some i3 /\ as_page (T := data_page) (pi_page i3) = Some (Data bs3) /\
        zlen bs3 = PAGE_SIZE /\ word_at bs3 off = m2' + (word_at bs off - m') /\
        (forall j, 0 <= j -> j < off \/ off + 8 <= j -> zget bs3 j = zget bs2 j) /\
        (forall a, a <> m2 -> V3 !! a = V2 !! a)) w2) w.
Proof.
  intros Hi Hin He' Hv. eapply wp_do_insert_pointer; try done. intros w1 Hs1 Hg1.
  cbv zeta. set (it := PtrItem _ _ _) in *. split_and!; try done.
  - intros w2 V2 k2 se2 b2 lb2 e2 m2 im2 pp2 lp2 bs2 sd2 d2 ld2 se2' b2' lb2' e2' m2' im2' Hx Hid He2'.
    destruct (sees_aligned _ _ _ _ _ (fx_sees _ _ _ _ _ _ _ _ _ _ _ _ _ _ _ Hx) (ei_data _ _ _ _ _ _ _ He2')) as (_ & Hpos & Htop).
    assert (Hw : u64 (m2' + pval_offset it) = m2' + (word_at bs off - m')) by
      (unfold u64; simpl; apply wrap_id; unfold in_u, PAGE_SIZE in *; lia).
    eapply wp_fix_item; [done| |].
    + intros Hnull. unfold is_null_item, it, SLAB_PTR_OFFSET_NULL in Hnull. simpl in Hnull.
      apply andb_true_iff in Hnull as [_ E%Z.eqb_eq]. unfold PAGE_SIZE in Hv. lia.
    + intros _. exists sd2, d2, ld2, se2', b2', lb2', e2', m2', im2'. split_and!; [done|done|].
      intros w3 i3 Hs3 _ Hpt. destruct (fx_off _ _ _ _ _ _ _ _ _ _ _ _ _ _ _ Hx) as [Ho1 Ho2].
      apply pointed_word in Hpt as (i & bs3 & Ei & Eb3 & El3 & Ew & Hother); [|by apply Hx|done|done].
      exists (<[m2 := i3]> V2), i, bs3. rewrite Hw in Ew. split_and!; try done. intros a Ha. by vlook.
Qed.

(** *** A world in which they apply

    The page of the container holds at offset 16 a pointer to its own offset
    40, and its entry has a pointer page with one item in use. *)
Definition demo_items : list slab_ptr_item := PtrItem 0 0 8 :: replicate 340 zero_ptr_item.
Definition demo_entry_ptr (p : demo_pages) (a l : Z) : slab_entry := set_se_ptr_current (PRef 1 a l) (demo_entry p).
Definition demo_bucket_ptr (p : demo_pages) (a l : Z) : slab_bucket := put_entry (demo_bucket p) (demo_se p) (demo_entry_ptr p a l).

Definition demo_bytes (v : Z) : list Z := put_bytes (replicate 4096 0) 16 (le_bytes 8 v).

Definition demo_ptr_V (p : demo_pages) (a l : Z) (i : pinfo) : gmap Z pinfo :=
  <[(dp_m p).1 := i]> (<[(dp_b p).1 := PInfo (PgBucket (demo_bucket_ptr p a l)) true (dp_b p).2]>
  (<[a := PInfo (PgPtrs demo_items) true l]> (demo_V p))).

Record demo_ptr (w : world fmst) (p : demo_pages) (a l v : Z) (i : pinfo) : Prop := {
  dq_base : exists w0, demo w0 p /\ globals w = globals w0;
  dq_fresh : demo_V p !! a = None;
  dq_pos : 0 < a;
  dq_sees : sees w (demo_ptr_V p a l i) 57;
  dq_writable : pi_writable i = true;
  dq_bytes : as_page (T := data_page) (pi_page i) = Some (Data (demo_bytes v));
}.

Lemma demo_ptr_exists f : exists w p a l i, demo_ptr w p a l (f p) i.
Proof.
  destruct demo_exists as (w & p & H). destruct (demo_lookups w p H) as (Hc & Hd & Ho & Hi & Hb & Hm).
  destruct (demo_se_ok w p H) as (Epg & _ & Hen). pose proof (do_sees _ _ _ _ _ _ _ _ H : sees w (demo_V p) 58) as Hs.
  assert (Hbk : bucket_in (demo_V p) (se_page (demo_se p)) (demo_bucket p) (dp_b p).2) by (by rewrite Epg).
  assert (Hrun : wp (let! r := getpage PA_PROT_WRITE in store_raw r.1 (PgPtrs demo_items) ;;;
    upd_se (demo_se p) (set_se_ptr_current (PRef 1 r.1 r.2)) ;;; mprotect_page (dp_m p).1 PA_PROT_RNW ;;;
    store_ptr ((dp_m p).1 + 16) (f p) ;;; ret r) (fun r w' => exists i, demo_ptr w' p r.1 r.2 (f p) i) w).
  { apply wp_bind. eapply wp_getpage_view; [exact Hs|]. intros a l pg wr w1 Hna Hpos Hw Hs1 Hg1. rewrite Hw in Hs1 by done.
    apply wp_bind. eapply wp_store_view; [exact Hs1|by vlook|done|]. intros w2 Hs2 Hg2. rewrite insert_insert_eq in Hs2.
    apply wp_bind. eapply wp_upd_se; [exact Hs2|unfold bucket_in; rewrite Epg; by vlook|exact Hen|]. intros w3 Hs3 Hg3.
    apply wp_bind. eapply wp_mprotect_view; [exact Hs3|rewrite Epg; by vlook|]. intros w4 Hs4 Hg4. rewrite Epg in Hs4.
    apply wp_bind. eapply (wp_store_ptr w4 _ _ (dp_m p).1 _ (replicate 4096 0)).
    - split; [exact Hs4|by vlook|reflexivity|reflexivity|unfold PAGE_SIZE; lia].
    - done.
    - intros w5 i Hs5 Hg5 Hbs Hwr. apply wp_ret. exists i. rewrite insert_insert_eq in Hs5.
      replace ((dp_m p).1 + 16 - (dp_m p).1) with 16 in Hbs by lia.
      split; [exists w; split; [done|congruence]|done|done|exact Hs5|done|exact Hbs]. }
  apply wp_run in Hrun as (r & w' & _ & i & Hr). by exists w', p, r.1, r.2, i.
Qed.

Lemma demo_ptr_insert w p a l v i : demo_ptr w p a l v i ->
  insert_ctx w (demo_ptr_V p a l i) 57 (dp_d p).1 (demo_dir p) (dp_d p).2 (demo_se p) (demo_bucket_ptr p a l) (dp_b p).2
    (demo_entry_ptr p a l) (dp_m p).1 i a demo_items l 16 (demo_bytes v).
Proof.
  intros [(w0 & H & Hg) Hna Hpos Hs Hw Hb]. destruct (demo_lookups w0 p H) as (Hc & Hd & Ho & Hi & Hbk & Hm).
  destruct (demo_se_ok w0 p H) as (Epg & _ & Hen). destruct (do_data _ _ _ _ _ _ _ _ H) as (_ & Hpm & _).
  assert (Eb : demo_ptr_V p a l i !! (dp_b p).1 = Some (PInfo (PgBucket (demo_bucket_ptr p a l)) true (dp_b p).2)) by (unfold demo_ptr_V; by vlook).
  assert (He : entry_of (demo_bucket_ptr p a l) (demo_se p) = Some (demo_entry_ptr p a l)) by (by eapply entry_put).
  assert (Hentry : entry_in (demo_ptr_V p a l i) (demo_se p) (demo_bucket_ptr p a l) (dp_b p).2 (demo_entry_ptr p a l) (dp_m p).1 i).
  { split; [unfold bucket_in; by rewrite Epg|done|done|done|unfold demo_ptr_V; by vlook|by eexists]. }
  split; try done.
  - split; [done| |].
    + split; [unfold demo_ptr_V; by vlook|]. exists (dp_c p).1, (demo_container p), true, (dp_c p).2.
      rewrite (globals_cont _ _ Hg). split_and!; [by eapply do_cont|unfold demo_ptr_V; by vlook|done].
    + split; [repeat constructor|]. intros x Hx. simpl in Hx. apply list_elem_of_singleton in Hx as ->.
      destruct (entry_in_at _ _ _ _ _ _ _ Hentry) as [-> _]. by eexists.
  - by left.
  - split; [done|simpl; lia|unfold demo_ptr_V; by vlook|done|done].
Qed.

Lemma demo_word v : word_at (demo_bytes v) 16 = u64 v.
Proof.
  unfold word_at, demo_bytes. change (Z.to_nat 16) with 16%nat. rewrite <- (le_bytes_len 8 v) at 1.
  rewrite put_bytes_read; [|apply le_bytes_ok|rewrite le_bytes_len, length_replicate; lia]. by rewrite le_word_bytes.
Qed.

Lemma demo_ptr_word w p a l i : demo_ptr w p a l ((dp_m p).1 + 40) i ->
  fixptrs_enabled w = true /\ word_at (demo_bytes ((dp_m p).1 + 40)) 16 = (dp_m p).1 + 40.
Proof.
  intros [(w0 & H & Hg) _ _ _ _ _]. split; [rewrite (globals_fix _ _ Hg); by eapply do_fix|].
  destruct (do_data _ _ _ _ _ _ _ _ H) as (_ & Hpm & Htop). unfold PAGE_SIZE in Htop. rewrite demo_word. unfold u64.
  apply wrap_id. unfold in_u. lia.
Qed.

Lemma slab_insert_pointer_correct_witness : exists (w : world fmst) p a l i,
  wp (slab_insert_pointer ((dp_m p).1 + 16)) (fun _ w' => globals w' = globals w /\
    sees w' (item_view (demo_ptr_V p a l i) (demo_se p) (demo_bucket_ptr p a l) (dp_b p).2 (demo_entry_ptr p a l) a demo_items l
               (PtrItem 16 0 40)) 57) w.
Proof.
  destruct (demo_ptr_exists (fun p => (dp_m p).1 + 40)) as (w & p & a & l & i & Hd). exists w, p, a, l, i.
  pose proof (demo_ptr_insert _ _ _ _ _ _ Hd) as Hi. destruct (demo_ptr_word _ _ _ _ _ Hd) as [Hon Ev].
  destruct (slab_insert_pointer_correct w _ _ _ _ _ _ _ _ _ _ _ _ _ _ _ _ Hi) as (Ht & _ & _).
  specialize (Ht Hon _ _ _ _ _ _ (ic_in _ _ _ _ _ _ _ _ _ _ _ _ _ _ _ _ _ Hi) (ic_entry _ _ _ _ _ _ _ _ _ _ _ _ _ _ _ _ _ Hi)).
  rewrite Ev in Ht. replace ((dp_m p).1 + 40 - (dp_m p).1) with 40 in Ht by lia. apply Ht. unfold PAGE_SIZE. lia.
Defined.

(** The pointer is recorded and written back in place. *)
Lemma recorded_pointer_restored_witness : exists (w : world fmst) p,
  wp (do_insert_pointer ((dp_m p).1 + 16) ;;; fix_item (demo_se p) 1 ;;; load_ptr ((dp_m p).1 + 16))
    (fun v _ => v = (dp_m p).1 + 40) w.
Proof.
  destruct (demo_ptr_exists (fun p => (dp_m p).1 + 40)) as (w & p & a & l & i & Hd). exists w, p.
  pose proof (demo_ptr_insert _ _ _ _ _ _ Hd) as Hi. destruct (demo_ptr_word _ _ _ _ _ Hd) as [Hon Ev].
  pose proof Hd as [(w0 & H & Hg) Hna Hpos _ Hwr Hby]. pose proof Hi as [_ Hin He Hp Hbs Hlen _].
  destruct (demo_se_ok w0 p H) as (Epg & _ & Hen). destruct (demo_lookups w0 p H) as (Hc & Hdd & Ho & Hii & Hbk & Hm).
  apply wp_bind. eapply wp_mono; [eapply (recorded_pointer_restored w _ _ _ _ _ _ _ _ _ _ _ _ _ _ _ _ _ _ _ _ _ _ Hi
    Hin He); rewrite Ev; unfold PAGE_SIZE; lia|].
  intros [] w1. rewrite Ev. replace ((dp_m p).1 + 40 - (dp_m p).1) with 40 by lia. cbv zeta. intros (Hg1 & Hs1 & Hfix).
  set (V1 := item_view _ _ _ _ _ _ _ _ _) in *.
  assert (Hin' : forall x j, demo_V p !! x = Some j -> x <> (dp_m p).1 -> x <> (dp_b p).1 -> V1 !! x = Some j).
  { intros x j Hx Hx1 Hx2. unfold V1, item_view, demo_ptr_V. rewrite Epg. by vlook. }
  assert (He1 : entry_in V1 (demo_se p) (put_entry (demo_bucket_ptr p a l) (demo_se p) (bumped (demo_entry_ptr p a l))) (dp_b p).2
    (bumped (demo_entry_ptr p a l)) (dp_m p).1 i).
  { pose proof (ei_entry _ _ _ _ _ _ _ He) as Ee. split; [unfold bucket_in, V1, item_view; by vlook|by eapply entry_put|done|done| |by eexists].
    unfold V1, item_view, demo_ptr_V. rewrite Epg. by vlook. }
  assert (Hid : id_in w1 V1 (dp_d p).1 (demo_dir p) (dp_d p).2 0 (demo_se p)).
  { split.
    - split; [apply Hin'; [done|congruence|congruence]|]. exists (dp_c p).1, (demo_container p), true, (dp_c p).2.
      rewrite (globals_cont _ _ Hg1), (globals_cont _ _ Hg). split_and!; [by eapply do_cont|apply Hin'; [done|congruence|congruence]|done].
    - change (id_path 0) with (0, 0, 0, 0).
      exists (dp_o p).1, (dp_o p).2, (demo_node SLAB_OUTER_ENTRIES (dp_i p)), true, (dp_o p).2,
        (dp_i p).1, (dp_i p).2, (demo_node SLAB_INNER_ENTRIES (dp_b p)), true, (dp_i p).2, (dp_b p).1, (dp_b p).2.
      split_and!; try (apply Hin'; [done|congruence|congruence]); reflexivity. }
  apply wp_bind. eapply wp_mono; [eapply Hfix; [|exact Hid|exact He1]|].
  - split; [exact Hs1|exact He1|done| |reflexivity|done|done|simpl; unfold PAGE_SIZE; lia].
    split; [done|simpl; lia|unfold V1, item_view; rewrite Epg; unfold demo_ptr_V; change (r_maddr (se_ptr_current (bumped (demo_entry_ptr p a l)))) with a; by vlook|done|done].
  - intros [] w2 (V3 & i3 & bs3 & Hs3 & Ei3 & Eb3 & El3 & Ew & _). eapply wp_load_ptr.
    + split; [exact Hs3|exact Ei3|exact Eb3|exact El3|unfold PAGE_SIZE; lia].
    + replace ((dp_m p).1 + 16 - (dp_m p).1) with 16 by lia. exact Ew.
Defined.
