(* ===== verification/Alloc.v ===== *)
(** * Allocation: [src/alloc.c]

    [slab_palloc] takes the entry at the head of the queue of its size class,
    or a free entry when that one is full, snapshots its bucket, gives the
    entry a data page when it has none, and sets the first clear bit of the
    bitmap. *)
From Stdlib Require Import ZArith Lia.
From stdpp Require Import base numbers gmap option list.
From S2P Require Import Prelude Macros Bitstring Vector Queue Process RBTree FixedMapper PageAlloc.
From S2P Require Import SlabLayout World Demo Snapshot Slab.
Open Scope Z_scope.

Section alloc.
Context {PS : Type} `{PA : PageAllocator PS}.
Notation M := (M (world PS)).

(** ** Bitmaps *)
Definition load_bitmap (e : slab_entry) : M (list Z) :=
  match SLAB_ENTRY_CBITMAP e with
  | InEntry => ret [d_bitmap (se_data_current e)]
  | InPage m => let! d := read (T := data_page) m in ret (the_bytes d)
  end.

Definition store_bitmap (se : Z) (e : slab_entry) (bm : list Z) : M unit :=
  match SLAB_ENTRY_CBITMAP e with
  | InEntry =>
      let! b := from_opt OutOfBounds (zget bm 0) in
      upd_se se (fun e => set_se_data_current
        (DRef (d_maddr (se_data_current e)) (d_laddr (se_data_current e)) b) e)
  | InPage m => write m (Data bm)
  end.

(** [count += bit_test(bitmap, i) ? 1 : 0] for [i] from [i] on. *)
Fixpoint bit_count (n : nat) (bm : list Z) (i count : Z) : option Z :=
  match n with
  | O => Some count
  | Datatypes.S n' =>
      t ← bit_test bm i; bit_count n' bm (i + 1) (count + (if t =? 0 then 0 else 1))
  end.

Definition slab_entry_full (se : Z) : M bool :=
  let! e := get_se se in
  let! bitmap := load_bitmap e in
  let! capacity := from_opt DivByZero (SLAB_ENTRY_CAPACITY e) in
  let! count := from_opt OutOfBounds (bit_count (Z.to_nat capacity) bitmap 0 0) in
  ret (count =? capacity).

Definition slab_entry_alloc_mem (se : Z) : M Z :=
  let! e := get_se se in
  let! bm_capacity := from_opt DivByZero (SLAB_ENTRY_CAPACITY e) in
  let! data_offset := from_opt DivByZero (SLAB_ENTRY_DATAOFFSET e) in
  assert_ (negb (d_maddr (se_data_current e) =? 0)) ;;;
  let! bitmap := load_bitmap e in
  let! idx := from_opt OutOfBounds (bit_ffc bitmap bm_capacity) in
  if negb (idx =? -1) then
    let maddr := d_maddr (se_data_current e) + data_offset + idx * se_size e in
    let! bitmap' := from_opt OutOfBounds (bit_set bitmap idx) in
    store_bitmap se e bitmap' ;;;
    ret maddr
  else ret 0.

(** ** Free entries *)

(** The last outer and inner node: [arr[index - 1].maddr]. *)
Definition last_outer (d : slab_dir) : M Z := current_maddr (sd_node d) (n_index (sd_node d) - 1).
Definition last_inner (o : outer_node) : M Z := current_maddr (the_outer o) (n_index (the_outer o) - 1).

(** A new outer node in the directory, snapshotting the directory first. *)
Definition grow_dir (cont sd : Z) : M Z :=
  let! c := read (T := container) cont in
  when (n_maddr (current_slab c) =? n_maddr (snapshot_slab c))
    (let! a := slab_dir_snapshot sd (fun l =>
        upd cont (fun c => Container (cont_id c) (current_slab c)
          (NRef (n_maddr (snapshot_slab c)) l) (cont_flags c))) in
     upd cont (fun c => Container (cont_id c) (current_slab c)
       (NRef a (n_laddr (snapshot_slab c))) (cont_flags c))) ;;;
  let! d := read (T := slab_dir) sd in
  when (SLAB_DIR_FULL d) (fail HandleError) ;;;
  let! r := slab_outer_init in
  upd_dir sd (append_ref r) ;;;
  ret r.1.

(** The snapshot of an outer node that is about to grow.  The current array
    is indexed by [so->so_index - 1], the snapshot array by
    [sd->sd_index - 1]. *)
Definition snapshot_outer (sd so : Z) : M unit :=
  let! d := read (T := slab_dir) sd in
  let! o := read (T := outer_node) so in
  let! cur := from_opt OutOfBounds (zget (n_current (sd_node d)) (n_index (the_outer o) - 1)) in
  let i := n_index (sd_node d) - 1 in
  let! snap := from_opt OutOfBounds (zget (n_snapshot (sd_node d)) i) in
  when (n_maddr cur =? n_maddr snap)
    (let! a := slab_outer_snapshot so (fun l => upd_dir sd (set_snapshot_laddr i l)) in
     upd_dir sd (set_snapshot_maddr i a)).

Definition snapshot_inner (so si : Z) : M unit :=
  let! o := read (T := outer_node) so in
  let i := n_index (the_outer o) - 1 in
  let! cur := from_opt OutOfBounds (zget (n_current (the_outer o)) i) in
  let! snap := from_opt OutOfBounds (zget (n_snapshot (the_outer o)) i) in
  when (n_maddr cur =? n_maddr snap)
    (let! a := slab_inner_snapshot si (fun l => upd_outer so (set_snapshot_laddr i l)) in
     upd_outer so (set_snapshot_maddr i a)).

(** The inner node that gets the next bucket. *)
Definition room_for_bucket (cont sd : Z) : M Z :=
  let! d := read (T := slab_dir) sd in
  let! so := last_outer d in
  let! o := read (T := outer_node) so in
  let! si := last_inner o in
  let! n := read (T := inner_node) si in
  if SLAB_INNER_FULL (the_inner n) then
    let! so :=
      (if SLAB_OUTER_FULL (the_outer o) then grow_dir cont sd
       else snapshot_outer sd so ;;; ret so) in
    let! r := slab_inner_init in
    upd_outer so (append_ref r) ;;;
    ret r.1
  else snapshot_inner so si ;;; ret si.

Definition get_free_slab_entry : M Z :=
  let! cont := get_container in
  let! sd := current_dir in
  let! d := read (T := slab_dir) sd in
  let! se :=
    match STAILQ_FIRST (sd_free_list d) with
    | Some se => ret se
    | None =>
        let! si := room_for_bucket cont sd in
        let! r := slab_bucket_init in
        upd_inner si (append_ref r) ;;;
        let! d := read (T := slab_dir) sd in
        from_opt HandleError (STAILQ_FIRST (sd_free_list d))
    end in
  on_free_list sd STAILQ_REMOVE_HEAD ;;;
  ret se.

(** ** [slab_palloc] *)

(** The entry of a size class that is not full, and the class. *)
Definition entry_for_size (sd size8 : Z) : M (Z * Z) :=
  let! d := read (T := slab_dir) sd in
  let! found := find_size d size8 in
  match found with
  | Some es =>
      let! q := get_es es in
      let! se := from_opt NullDeref (STAILQ_FIRST (es_list q)) in
      let! full := slab_entry_full se in
      if full then
        let! se := get_free_slab_entry in
        on_es_list es (fun q => STAILQ_INSERT_HEAD q se) ;;;
        ret (es, se)
      else ret (es, se)
  | None =>
      let! es := slab_entry_size_init size8 in
      insert_size sd es ;;;
      let! se := get_free_slab_entry in
      on_es_list es (fun q => STAILQ_INSERT_HEAD q se) ;;;
      ret (es, se)
  end.

(** [sb->sb_has_snapshot = Func_slab_bucket_snapshot(cid, sb)] *)
Definition snapshot_bucket (sb : Z) : M unit :=
  let! snap := Func_slab_bucket_snapshot sb in
  upd sb (fun b => SlabBucket snap (sb_id b) (sb_entries b)).

Definition slab_palloc (size : Z) : M Z :=
  let size8 := s32 (ROUND8 size) in
  w_stat (__INC_BOTH pallocations) ;;;
  when (PAGE_SIZE <? size) (fail HandleError) ;;;
  let! sd := current_dir in
  let! p := entry_for_size sd size8 in
  let '(es, se) := p in
  snapshot_bucket (se_page se) ;;;
  let! e := get_se se in
  when (negb (SLAB_ENTRY_IS_INIT e)) (slab_entry_init se size8 ;;; insert_maddr sd se) ;;;
  let! maddr := slab_entry_alloc_mem se in
  let! full := slab_entry_full se in
  when full (on_es_list es (fun q => STAILQ_INSERT_TAIL q se)) ;;;
  ret maddr.
End alloc.

(** ** Bitmaps of entries *)
Lemma bit_count_spec n bm i count :
  0 <= i -> i + Z.of_nat n <= 8 * zlen bm ->
  exists r, bit_count n bm i count = Some r /\ count <= r <= count + Z.of_nat n /\
    (r = count + Z.of_nat n <-> forall j, i <= j < i + Z.of_nat n -> bitz bm j = true).
Proof.
  revert i count. induction n as [|n IH]; intros i count Hi Hn.
  { exists count. split; [done|]. split; [lia|]. split; [intros _ j Hj; lia|lia]. }
  destruct (bit_test_total bm i) as [t Ht]; [lia|]. pose proof (bit_test_spec _ _ _ Ht) as Hb.
  destruct (IH (i + 1) (count + (if t =? 0 then 0 else 1))) as (r & Er & Hr & Hall); [lia|lia|].
  exists r. simpl. rewrite Ht. simpl. split; [done|]. rewrite Hb in *. destruct (bitz bm i) eqn:Ebit; simpl in *.
  - split; [lia|]. split.
    + intros -> j Hj. destruct (Z.eq_dec j i) as [->|]; [done|]. apply Hall; lia.
    + intros Hj. assert (r = count + 1 + Z.of_nat n); [|lia]. apply Hall. intros j Hjj. apply Hj. lia.
  - split; [lia|]. split; [lia|]. intros Hj. specialize (Hj i). rewrite Ebit in Hj. exfalso. enough (false = true) by done.
    apply Hj. lia.
Qed.

Section alloc_rules.
Context {PS : Type} `{PL : PageAllocatorLaws PS} {SV : world PS -> gmap Z pinfo -> nat -> Prop} {HSV : Stepping SV}.
Implicit Types (w : world PS) (V : gmap Z pinfo) (k : nat).

(** The bitmap of an entry: its own byte for large sizes, else the first
    bytes [bs] of its data page. *)
Definition bitmap_of (e : slab_entry) (bs : list Z) : list Z :=
  if SLAB_LARGE_ALLOC <=? se_size e then [d_bitmap (se_data_current e)] else bs.

(** An entry with a data page of bytes. *)
Record alloc_in V (se : Z) b lb (e : slab_entry) (m : Z) im (bs : list Z) : Prop := {
  ai_entry : entry_in V se b lb e m im;
  ai_bytes : as_page (T := data_page) (pi_page im) = Some (Data bs);
  ai_len : zlen bs = PAGE_SIZE;
  ai_ok : bytes_ok (bitmap_of e bs);
  ai_mult : se_size e mod 8 = 0;
}.

Lemma alloc_bounds V se b lb e m im bs :
  alloc_in V se b lb e m im bs ->
  se_size e <> 0 /\ 1 <= capacity_of (se_size e) <= 8 * zlen (bitmap_of e bs).
Proof.
  intros [[_ _ Hsz _ _ _] _ Hlen _ Hm]. destruct (layout _ Hsz Hm) as (H1 & H2 & H3 & _).
  unfold bitmap_of. split; [lia|]. split; [done|]. destruct (SLAB_LARGE_ALLOC <=? se_size e); [done|lia].
Qed.

Lemma wp_load_bitmap w V k se b lb e m im bs (Q : list Z -> world PS -> Prop) :
  SV w V k -> alloc_in V se b lb e m im bs -> Q (bitmap_of e bs) w -> wp (load_bitmap e) Q w.
Proof.
  intros Hs [[_ _ _ Em Ei _] Eb _ _ _] HQ. unfold load_bitmap, SLAB_ENTRY_CBITMAP, bitmap_of in *.
  destruct (SLAB_LARGE_ALLOC <=? se_size e); [by apply wp_ret|]. rewrite Em. apply wp_bind.
  eapply wp_read_view; [done|done|done|]. by apply wp_ret.
Qed.

Lemma wp_capacity e f (Q : Z -> world PS -> Prop) w :
  se_size e <> 0 -> Q (capacity_of (se_size e)) w -> wp (from_opt f (SLAB_ENTRY_CAPACITY e)) Q w.
Proof. intros Hz HQ. unfold SLAB_ENTRY_CAPACITY. destruct (Z.eqb_spec (se_size e) 0); [done|]. by apply wp_ret. Qed.

Lemma wp_dataoffset e f (Q : Z -> world PS -> Prop) w :
  se_size e <> 0 -> Q (dataoffset_of (se_size e)) w -> wp (from_opt f (SLAB_ENTRY_DATAOFFSET e)) Q w.
Proof. intros Hz HQ. unfold SLAB_ENTRY_DATAOFFSET. destruct (Z.eqb_spec (se_size e) 0); [done|]. by apply wp_ret. Qed.

Lemma wp_slab_entry_full w V k se b lb e m im bs (Q : bool -> world PS -> Prop) :
  SV w V k -> alloc_in V se b lb e m im bs ->
  (forall r, (r = true <-> forall i, 0 <= i < capacity_of (se_size e) -> bitz (bitmap_of e bs) i = true) -> Q r w) ->
  wp (slab_entry_full se) Q w.
Proof.
  intros Hs Ha HQ. destruct (alloc_bounds _ _ _ _ _ _ _ _ Ha) as [Hz Hc]. pose proof Ha as [He _ _ _ _].
  unfold slab_entry_full. apply wp_bind. eapply wp_get_se; [done|by apply He|by apply He|].
  apply wp_bind. eapply wp_load_bitmap; [done|done|]. apply wp_bind, wp_capacity; [done|].
  destruct (bit_count_spec (Z.to_nat (capacity_of (se_size e))) (bitmap_of e bs) 0 0) as (r & Er & Hr & Hall); [lia|lia|].
  apply wp_bind. rewrite Er. apply wp_ret, wp_ret, HQ. rewrite Z.eqb_eq. rewrite Z2Nat.id in Hall by lia.
  by rewrite !Z.add_0_l in Hall.
Qed.

(** ** Storing into a data page, protected or not *)
Lemma wp_store_data w V k sd d ld ls se b lb e m im p (Q : unit -> world PS -> Prop) :
  fault_ctx_of (SV := SV) w V (S k) sd d ld ls se b lb e m im ->
  (forall w' V' k', SV w' V' k' -> globals w' = globals w -> V' !! m = Some (PInfo p true (pi_laddr im)) ->
     (pi_writable im = true -> V' = <[m := PInfo p true (pi_laddr im)]> V) ->
     (pi_writable im = false -> exists a l v, V !! a = None /\ appended d ls se v /\
        V' = <[m := PInfo p true (pi_laddr im)]> (cow_view V sd d ld v se b lb e im a l)) -> Q tt w') ->
  wp (store m p) Q w.
Proof.
  intros Hf HQ. pose proof Hf as [Hs _ _ _ He _ _ _ _]. destruct (pi_writable im) eqn:Ew.
  - eapply storing_store; [done|by apply He|done|]. intros w' Hs' Hg.
    apply (HQ w' (<[m:=PInfo p true (pi_laddr im)]> V) (S k)); [done|done|by vlook|done|done].
  - eapply wp_store_cow; [done|done|]. intros w' a l v Hna Hg Hv Hs'.
    eapply (HQ w' _ k); [done|done|by vlook|done|]. intros _. by exists a, l, v.
Qed.

(** ** Allocating in a data page *)
Lemma wp_alloc_mem_prefix w V k se b lb e m im bs (Q : Z -> world PS -> Prop) :
  SV w V k -> alloc_in V se b lb e m im bs ->
  ((forall i, 0 <= i < capacity_of (se_size e) -> bitz (bitmap_of e bs) i = true) -> Q 0 w) ->
  (forall idx bm', 0 <= idx < capacity_of (se_size e) -> bitz (bitmap_of e bs) idx = false ->
     (forall i, 0 <= i < idx -> bitz (bitmap_of e bs) i = true) ->
     bit_set (bitmap_of e bs) idx = Some bm' -> zlen bm' = zlen (bitmap_of e bs) ->
     wp (store_bitmap se e bm' ;;; ret (m + dataoffset_of (se_size e) + idx * se_size e)) Q w) ->
  wp (slab_entry_alloc_mem se) Q w.
Proof.
  intros Hs Ha HQ0 HQ1. destruct (alloc_bounds _ _ _ _ _ _ _ _ Ha) as [Hz Hc]. pose proof Ha as [He _ _ Hok _].
  unfold slab_entry_alloc_mem. apply wp_bind. eapply wp_get_se; [done|by apply He|by apply He|].
  apply wp_bind, wp_capacity; [done|]. apply wp_bind, wp_dataoffset; [done|].
  destruct (sees_aligned _ _ _ _ _ (st_sees _ _ _ Hs) (ei_data _ _ _ _ _ _ _ He)) as (_ & Hpos & _).
  rewrite (ei_maddr _ _ _ _ _ _ _ He). apply wp_bind, wp_assert; [apply negb_true_iff, Z.eqb_neq; lia|].
  apply wp_bind. eapply wp_load_bitmap; [done|done|].
  destruct (bit_ffc_total (bitmap_of e bs) (capacity_of (se_size e)) Hok) as [idx Ei]; [lia|].
  rewrite Ei. apply wp_bind, wp_ret. destruct (bit_ffc_first _ _ _ Hok Ei) as [[-> Hall]|(Hidx & Hb & Hbelow)].
  - cbn [negb Z.eqb Pos.eqb]. apply wp_ret, HQ0. exact Hall.
  - destruct (Z.eqb_spec idx (-1)); [lia|]. cbn [negb].
    destruct (bit_set_total (bitmap_of e bs) idx) as (bm' & Es & Hlen); [lia|].
    rewrite Es. apply wp_bind, wp_ret. by apply (HQ1 idx bm').
Qed.
End alloc_rules.

(** ** Properties *)

(** [slab_entry_full] is true exactly when every object of the data page is
    allocated. *)
Theorem slab_entry_full_correct {PS} `{PL : PageAllocatorLaws PS} (w : world PS) V k se b lb e m im bs :
  sees w V k -> alloc_in V se b lb e m im bs ->
  wp (slab_entry_full se) (fun r w' => w' = w /\
    (r = true <-> forall i, 0 <= i < capacity_of (se_size e) -> bitz (bitmap_of e bs) i = true)) w.
Proof. intros Hs Ha. by eapply wp_slab_entry_full. Qed.

Lemma demo_alloc_in w p : demo w p ->
  alloc_in (demo_V p) (demo_se p) (demo_bucket p) (dp_b p).2 (demo_entry p) (dp_m p).1
    (PInfo demo_data false (dp_m p).2) (replicate 4096 0).
Proof.
  intros H. pose proof (fc_entry _ _ _ _ _ _ _ _ _ _ _ _ _ (demo_fault w p H)) as He.
  split; [exact He|done|reflexivity| |done]. unfold bytes_ok, bitmap_of. change (SLAB_LARGE_ALLOC <=? se_size (demo_entry p)) with false.
  apply Forall_replicate. unfold in_u. lia.
Qed.

Lemma slab_entry_full_correct_witness : exists (w : world fmst) p,
  wp (slab_entry_full (demo_se p)) (fun r w' => w' = w /\ r = false) w.
Proof.
  destruct demo_exists as (w & p & H). exists w, p.
  eapply wp_mono; [exact (slab_entry_full_correct w _ 58 _ _ _ _ _ _ _ (do_sees _ _ _ _ _ _ _ _ H) (demo_alloc_in w p H))|].
  intros r w' [E Hr]. split; [exact E|]. destruct r; [|reflexivity]. exfalso. destruct Hr as [Hr _].
  specialize (Hr eq_refl 0). assert (Hf : bitz (bitmap_of (demo_entry p) (replicate 4096 0)) 0 = true).
  { apply Hr. split; reflexivity. }
  discriminate Hf.
Defined.

(** The store of the bitmap, for a size whose bitmap is in the entry: the data
    page is not touched. *)
Lemma wp_store_bitmap_large {PS} `{PL : PageAllocatorLaws PS} (w : world PS) V k se b lb e m im x (Q : unit -> world PS -> Prop) :
  sees w V k -> entry_in V se b lb e m im -> SLAB_LARGE_ALLOC <= se_size e ->
  (forall w', page_at w' m = page_at w m ->
     se_at w' se = set_se_data_current (DRef (d_maddr (se_data_current e)) (d_laddr (se_data_current e)) x) e -> Q tt w') ->
  wp (store_bitmap se e [x]) Q w.
Proof.
  intros Hs He Hl HQ. pose proof (ei_bucket _ _ _ _ _ _ _ He) as Ebk. pose proof (ei_data _ _ _ _ _ _ _ He) as Edm.
  pose proof (ei_entry _ _ _ _ _ _ _ He) as Ee. pose proof (ei_maddr _ _ _ _ _ _ _ He) as Em.
  unfold store_bitmap, SLAB_ENTRY_CBITMAP. destruct (Z.leb_spec SLAB_LARGE_ALLOC (se_size e)); [|lia].
  apply wp_bind. eapply wp_from_opt; [done|]. eapply wp_upd_se; [done|done|done|]. intros w' Hs' _.
  unfold bucket_in in Ebk. apply HQ.
  - assert (Hne : m <> se_page se).
    { destruct He as [_ _ _ _ _ [y Hy]]. intros E. rewrite E, Ebk in Edm. by injection Edm as <-. }
    destruct (sees_shows _ _ _ Hs' m im) as (E1 & _); [by vlook|]. destruct (sees_shows _ _ _ Hs _ _ Edm) as (E2 & _). congruence.
  - erewrite (se_at_view _ _ _ _ Hs'); unfold entry_at; rewrite lookup_insert_eq; simpl; rewrite (entry_put _ _ _ _ Ee); [done|by eexists].
Qed.

(** ... and for a smaller size, whose bitmap is in the page. *)
Lemma wp_store_bitmap_small {PS} `{PL : PageAllocatorLaws PS} (w : world PS) V k sd d ld ls se b lb e m im bm (Q : unit -> world PS -> Prop) :
  fault_ctx w V (S k) sd d ld ls se b lb e m im -> se_size e < SLAB_LARGE_ALLOC ->
  (forall w', page_at w' m = Some (PgData bm) ->
     (pi_writable im = false -> exists a l, V !! a = None /\ page_at w' a = page_at w m /\ se_at w' se = snapshotted e a l) -> Q tt w') ->
  wp (store_bitmap se e bm) Q w.
Proof.
  intros Hf Hsmall HQ. pose proof Hf as [Hs Hd _ _ He _ _ _ _]. unfold store_bitmap, SLAB_ENTRY_CBITMAP.
  destruct (Z.leb_spec SLAB_LARGE_ALLOC (se_size e)); [lia|]. rewrite (ei_maddr _ _ _ _ _ _ _ He). unfold write. simpl to_page.
  eapply wp_store_data; [done|]. intros w' V' k' Hs' Hg Em Hw Hp.
  destruct (sees_shows _ _ _ Hs' _ _ Em) as (Epg & _ & _). apply HQ; [done|].
  intros Hro. destruct (Hp Hro) as (a & l & v & Hna & Hv & ->). exists a, l. split; [done|].
  destruct (data_page_ne _ _ _ _ _ _ _ _ _ _ He (di_dir _ _ _ _ _ Hd)) as [Hne1 Hne2].
  pose proof (ei_data _ _ _ _ _ _ _ He) as Edm. pose proof (di_dir _ _ _ _ _ Hd) as Ed.
  pose proof (ei_bucket _ _ _ _ _ _ _ He) as Ebk. unfold bucket_in in Ebk. unfold cow_view in Hs'.
  assert (Hsa : shows w' a (PInfo (pi_page im) true l)) by (apply Hs'; by vlook).
  destruct Hsa as (E1 & _ & _). destruct (sees_shows _ _ _ Hs _ _ Edm) as (E2 & _).
  split; [by rewrite E1, E2|].
  erewrite (se_at_view _ _ _ _ Hs'); unfold entry_at.
  - replace (_ !! se_page se) with (Some (PInfo (PgBucket (put_entry b se (snapshotted e a l))) true lb))
      by (symmetry; by vlook). simpl. by erewrite entry_put by apply He.
  - replace (_ !! se_page se) with (Some (PInfo (PgBucket (put_entry b se (snapshotted e a l))) true lb))
      by (symmetry; by vlook). simpl. erewrite entry_put by apply He. by eexists.
Qed.

(** C18 Allocating an object in a data page, for every size: NULL when all
    objects are allocated, and then nothing changes; otherwise the first free
    object, whose bit is set and no other.  For 512 bytes and more the bitmap
    is in the entry, which is written in place, and the data page stays as it
    is; below that the bitmap is in the page, and when the page was protected
    it has first been copied: the snapshot page of the entry holds the page as
    it was. *)
Theorem slab_entry_alloc_mem_correct {PS} `{PL : PageAllocatorLaws PS} (w : world PS) V k sd d ld ls se b lb e m im bs :
  fault_ctx w V (S k) sd d ld ls se b lb e m im -> alloc_in V se b lb e m im bs ->
  wp (slab_entry_alloc_mem se) (fun r w' =>
    (r = 0 /\ w' = w /\ forall i, 0 <= i < capacity_of (se_size e) -> bitz (bitmap_of e bs) i = true) \/
    (exists idx bm', 0 <= idx < capacity_of (se_size e) /\ bitz (bitmap_of e bs) idx = false /\
       (forall i, 0 <= i < idx -> bitz (bitmap_of e bs) i = true) /\
       r = m + dataoffset_of (se_size e) + idx * se_size e /\
       zlen bm' = zlen (bitmap_of e bs) /\
       (forall i, 0 <= i -> bitz bm' i = bool_decide (i = idx) || bitz (bitmap_of e bs) i) /\
       if SLAB_LARGE_ALLOC <=? se_size e then
         page_at w' m = page_at w m /\
         exists x, bm' = [x] /\
           se_at w' se = set_se_data_current (DRef (d_maddr (se_data_current e)) (d_laddr (se_data_current e)) x) e
       else
         page_at w' m = Some (PgData bm') /\
         (pi_writable im = false -> exists a l, V !! a = None /\ page_at w' a = page_at w m /\
            se_at w' se = snapshotted e a l))) w.
Proof.
  intros Hf Ha. pose proof Hf as [Hs _ _ _ He _ _ _ _]. eapply wp_alloc_mem_prefix; [done|done|intros Hall; by left|].
  intros idx bm' Hi Hb Hbelow Es Hlen. apply wp_bind.
  assert (Hbits : forall i, 0 <= i -> bitz bm' i = bool_decide (i = idx) || bitz (bitmap_of e bs) i) by (intros i Hi0; by apply bit_set_spec).
  destruct (Z.leb_spec SLAB_LARGE_ALLOC (se_size e)) as [Hl|Hl].
  - assert (exists x, bm' = [x]) as [x ->].
    { unfold bitmap_of in Hlen. destruct (Z.leb_spec SLAB_LARGE_ALLOC (se_size e)); [|lia].
      destruct bm' as [|x [|? ?]]; [done|by exists x|unfold zlen in Hlen; simpl in Hlen; lia]. }
    eapply wp_store_bitmap_large; [done|done|done|]. intros w' E1 E2. apply wp_ret. right. exists idx, [x].
    split_and!; eauto; lia.
  - eapply wp_store_bitmap_small; [done|done|]. intros w' E1 E2. apply wp_ret. right. exists idx, bm'.
    split_and!; eauto; lia.
Qed.

Lemma slab_entry_alloc_mem_correct_witness : exists (w : world fmst) p,
  wp (slab_entry_alloc_mem (demo_se p)) (fun r w' => r = (dp_m p).1 + 8) w.
Proof.
  destruct demo_exists as (w & p & H). exists w, p.
  pose proof (slab_entry_alloc_mem_correct w _ 57 _ _ _ _ _ _ _ _ _ _ _ (demo_fault w p H) (demo_alloc_in w p H)) as Ht.
  eapply wp_mono; [exact Ht|]. intros r w' [(_ & _ & Hall)|(idx & bs' & Hi & _ & Hbelow & Er & _)].
  - assert (Hf : bitz (replicate 4096 0) 0 = true) by (apply Hall; split; reflexivity || discriminate). discriminate Hf.
  - assert (E : idx = 0).
    { destruct (Z.eq_dec idx 0) as [E|E]; [exact E|]. assert (Hf : bitz (replicate 4096 0) 0 = true) by (apply Hbelow; lia).
      discriminate Hf. }
    rewrite E in Er. rewrite Er. change (dataoffset_of (se_size (demo_entry p))) with 8. lia.
Defined.
