(* ===== verification/Checkpoint.v ===== *)
(** * Checkpoint: [src/checkpoint.c]

    [slab_cpoint] makes the current version of every changed page the
    snapshot, frees the old snapshot pages, and protects the data pages
    again. *)
From Stdlib Require Import ZArith Lia.
From stdpp Require Import base numbers gmap option list.
From S2P Require Import Prelude Macros Bitstring Vector Queue Process RBTree FixedMapper PageAlloc.
From S2P Require Import SlabLayout World Demo Snapshot Slab.
Open Scope Z_scope.

Section checkpoint.
Context {PS : Type} `{PA : PageAllocator PS}.
Notation M := (M (world PS)).

(** The data page of an entry. *)
Definition entry_cpoint_data (se : Z) : M unit :=
  let! e := get_se se in
  when (negb (d_maddr (se_data_current e) =? d_maddr (se_data_snapshot e)))
    (upd_se se (fun e => set_se_data_snapshot
       (set_d_laddr (d_laddr (se_data_current e)) (se_data_snapshot e)) e) ;;;
     STATS_INC_FLUSH ;;;
     freepages (d_maddr (se_data_snapshot e)) ;;;
     upd_se se (fun e => set_se_data_snapshot
       (set_d_maddr (d_maddr (se_data_current e)) (se_data_snapshot e)) e)).

(** The pointer page of an entry. *)
Definition entry_cpoint_ptr (se : Z) : M unit :=
  let! e := get_se se in
  when (negb (r_maddr (se_ptr_current e) =? 0))
    (when (negb (r_maddr (se_ptr_snapshot e) =? 0) &&
           negb (r_maddr (se_ptr_snapshot e) =? r_maddr (se_ptr_current e)))
       (freepages (r_maddr (se_ptr_snapshot e))) ;;;
     upd_se se (fun e => set_se_ptr_snapshot
       (set_r_laddr (r_laddr (se_ptr_current e)) (se_ptr_snapshot e)) e) ;;;
     STATS_INC_FLUSH ;;;
     upd_se se (fun e => set_se_ptr_snapshot
       (set_r_maddr (r_maddr (se_ptr_current e)) (se_ptr_snapshot e)) e)).

Definition entry_cpoint (type : cpoint_type) (se : Z) : M unit :=
  let! e := get_se se in
  when (SLAB_ENTRY_IS_INIT e)
    (entry_cpoint_data se ;;;
     entry_cpoint_ptr se ;;;
     let! e := get_se se in
     when (bool_decide (type = CPOINT_REGULAR))
       (mprotect_page (d_maddr (se_data_current e)) PA_PROT_READ)).

Definition slab_bucket_cpoint (sb : Z) (type : cpoint_type) : M unit :=
  for_ (Z.to_nat SLAB_BUCKET_ENTRIES) 0 (fun i => entry_cpoint type (se_addr sb i)).

Definition slab_inner_cpoint (si : Z) (type : cpoint_type) : M unit :=
  let! n := read (T := inner_node) si in
  for_ (Z.to_nat (n_index (the_inner n))) 0 (fun i =>
    let! n := read (T := inner_node) si in
    let! cur := from_opt OutOfBounds (zget (n_current (the_inner n)) i) in
    let sb := n_maddr cur in
    let! b := read (T := slab_bucket) sb in
    when (negb (sb_has_snapshot b =? 0))
      (slab_bucket_cpoint sb type ;;;
       upd_inner si (set_snapshot_laddr i (n_laddr cur)) ;;;
       STATS_INC_FLUSH ;;;
       let! n := read (T := inner_node) si in
       let! snap := from_opt OutOfBounds (zget (n_snapshot (the_inner n)) i) in
       freepages (n_maddr snap) ;;;
       upd_inner si (set_snapshot_maddr i (n_maddr cur)) ;;;
       upd sb (fun b => SlabBucket 0 (sb_id b) (sb_entries b)))).

(** [if (current.maddr != snapshot.maddr)]: the commit of one reference of a
    node, where [get] reads the node and [set] updates it. *)
Definition commit_ref (get : M slab_node) (set : (slab_node -> option slab_node) -> M unit) (i : Z) : M unit :=
  let! n := get in
  let! cur := from_opt OutOfBounds (zget (n_current n) i) in
  let! snap := from_opt OutOfBounds (zget (n_snapshot n) i) in
  when (negb (n_maddr cur =? n_maddr snap))
    (set (set_snapshot_laddr i (n_laddr cur)) ;;;
     STATS_INC_FLUSH ;;;
     freepages (n_maddr snap) ;;;
     set (set_snapshot_maddr i (n_maddr cur))).

Definition slab_outer_cpoint (so : Z) (type : cpoint_type) : M unit :=
  let get := let! o := read (T := outer_node) so in ret (the_outer o) in
  let! n := get in
  for_ (Z.to_nat (n_index n)) 0 (fun i =>
    let! n := get in
    let! si := current_maddr n i in
    slab_inner_cpoint si type ;;;
    commit_ref get (upd_outer so) i).

Definition slab_dir_cpoint (sd : Z) (type : cpoint_type) : M unit :=
  let get := let! d := read (T := slab_dir) sd in ret (sd_node d) in
  let! n := get in
  for_ (Z.to_nat (n_index n)) 0 (fun i =>
    let! n := get in
    let! so := current_maddr n i in
    slab_outer_cpoint so type ;;;
    commit_ref get (upd_dir sd) i).

(** The loop that flushes the snapshotted entries' pages. *)
Definition flush_vector (sd : Z) : M unit :=
  let! d := read (T := slab_dir) sd in
  for_ (Z.to_nat (VECTOR_SIZE (sd_vector d))) 0 (fun i =>
    let! d := read (T := slab_dir) sd in
    match VECTOR_AT (sd_vector d) i with
    | inl f => fail f
    | inr se =>
        let! e := get_se se in
        flush_segment (d_maddr (se_data_current e)) PAGE_SIZE
    end).

Definition slab_cpoint (type : cpoint_type) : M unit :=
  let! sd := current_dir in
  slab_dir_cpoint sd type ;;;
  flush_vector sd ;;;
  upd sd (set_sd_vector (Vec 0 0 None)).
End checkpoint.

(** ** The commit of a bucket *)
Section checkpoint_rules.
Context {PS : Type} `{PL : PageAllocatorLaws PS}.
Implicit Types (w : world PS) (V : gmap Z pinfo) (k : nat).

Definition cur_page (e : slab_entry) : Z := d_maddr (se_data_current e).
Definition snap_page (e : slab_entry) : Z := d_maddr (se_data_snapshot e).

(** The entry after the commit: the snapshot is the current version. *)
Definition commit_entry (e : slab_entry) : slab_entry :=
  if cur_page e =? snap_page e then e
  else set_se_data_snapshot (DRef (cur_page e) (d_laddr (se_data_current e)) (d_bitmap (se_data_snapshot e))) e.

(** The pages an entry owns: none when it is free. *)
Definition pages_of (e : slab_entry) : list Z :=
  if SLAB_ENTRY_IS_INIT e then
    cur_page e :: (if cur_page e =? snap_page e then [] else [snap_page e])
  else [].

(** The entries whose commit gives a page back. *)
Definition is_old (e : slab_entry) : bool := SLAB_ENTRY_IS_INIT e && negb (cur_page e =? snap_page e).
Fixpoint old_pages (l : list slab_entry) : nat :=
  match l with [] => 0 | e :: l' => (if is_old e then 1 else 0) + old_pages l' end.

Lemma old_pages_app l l' : old_pages (l ++ l') = (old_pages l + old_pages l')%nat.
Proof. induction l as [|e l IH]; simpl; [done|]. rewrite IH. lia. Qed.

Lemma old_pages_len l : (old_pages l <= length l)%nat.
Proof. induction l as [|e l IH]; simpl; [done|]. destruct (is_old e); lia. Qed.

Lemma old_pages_take l n e : zget l n = Some e ->
  old_pages (take (Z.to_nat (n + 1)) l) = (old_pages (take (Z.to_nat n) l) + (if is_old e then 1 else 0))%nat.
Proof.
  intros Hn. pose proof (zget_lt _ _ _ Hn). unfold zget in Hn. destruct (Z.leb_spec 0 n); [|done].
  replace (Z.to_nat (n + 1)) with (S (Z.to_nat n)) by lia. rewrite (take_S_r _ _ e) by done. rewrite old_pages_app. simpl. lia.
Qed.

Lemma old_pages_insert l i e e' : zget l i = Some e ->
  (old_pages (<[Z.to_nat i := e']> l) + (if is_old e then 1 else 0) = old_pages l + (if is_old e' then 1 else 0))%nat.
Proof.
  intros Hi%zget_Some_nat. revert Hi. generalize (Z.to_nat i) as j. induction l as [|x l IH]; intros [|j] Hj; simpl in *; try done.
  - injection Hj as ->. lia.
  - specialize (IH j Hj). lia.
Qed.

(** The view after the commit of one entry. *)
Definition commit_view V (sb : Z) (b : slab_bucket) lb (e : slab_entry) (im : pinfo) : gmap Z pinfo :=
  <[cur_page e := PInfo (pi_page im) false (pi_laddr im)]>
  (<[sb := PInfo (PgBucket b) true lb]> (if cur_page e =? snap_page e then V else delete (snap_page e) V)).

Lemma put_same b se e : entry_of b se = Some e -> put_entry b se e = b.
Proof.
  unfold entry_of, put_entry, zget. destruct (Z.leb_spec 0 (SLAB_ENTRY_INDEX se)); [|done]. intros Hl.
  rewrite list_insert_id by done. by destruct b.
Qed.

Lemma wp_entry_cpoint w V k se b lb e im (Q : unit -> world PS -> Prop) :
  sees w V k -> bucket_in V (se_page se) b lb -> entry_of b se = Some e -> SLAB_ENTRY_IS_INIT e = true ->
  V !! cur_page e = Some im -> r_maddr (se_ptr_current e) = 0 ->
  NoDup (se_page se :: pages_of e) -> (forall a, a ∈ pages_of e -> is_Some (V !! a)) ->
  (forall w', sees w' (commit_view V (se_page se) (put_entry b se (commit_entry e)) lb e im)
                (if cur_page e =? snap_page e then k else S k) -> globals w' = globals w -> Q tt w') ->
  wp (entry_cpoint CPOINT_REGULAR se) Q w.
Proof.
  intros Hs Hb He Hini Hm Hnp Hnd Hin HQ. unfold bucket_in in Hb. unfold entry_cpoint.
  unfold pages_of in Hnd, Hin. rewrite Hini in Hnd, Hin.
  apply wp_bind. eapply wp_get_se; [done|done|done|]. rewrite Hini. cbn [when].
  apply wp_bind. unfold entry_cpoint_data. apply wp_bind. eapply wp_get_se; [done|done|done|].
  change (d_maddr (se_data_current e)) with (cur_page e). change (d_maddr (se_data_snapshot e)) with (snap_page e).
  unfold commit_view, commit_entry in HQ.
  destruct (Z.eqb_spec (cur_page e) (snap_page e)) as [Ecs|Ecs]; cbn [negb when].
  - apply wp_ret. apply wp_bind. unfold entry_cpoint_ptr. apply wp_bind. eapply wp_get_se; [done|done|done|].
    rewrite Hnp. cbn [Z.eqb negb when]. apply wp_ret. apply wp_bind. eapply wp_get_se; [done|done|done|].
    rewrite bool_decide_true by done. cbn [when]. eapply wp_mprotect_view; [done|done|]. intros w1 Hs1 Hg1.
    apply HQ; [|done]. rewrite (put_same _ _ _ He), (insert_id V (se_page se)) by done. exact Hs1.
  - assert (Hne : se_page se <> cur_page e /\ se_page se <> snap_page e /\ cur_page e <> snap_page e).
    { rewrite !NoDup_cons, !not_elem_of_cons in Hnd. tauto. }
    destruct Hne as (Hne1 & Hne2 & Hne3).
    apply wp_bind. eapply wp_upd_se; [done|done|done|]. intros w1 Hs1 Hg1.
    apply wp_bind. eapply quiet_stat; [done|]. intros w2 Hs2 Hg2.
    destruct (Hin (snap_page e)) as [isn Es]; [right; by left|].
    apply wp_bind. eapply wp_freepages_view; [done|by vlook|]. intros w3 Hs3 Hg3.
    eapply wp_upd_se; [done|unfold bucket_in; rewrite lookup_delete_ne by done; by vlook|by eapply entry_put|].
    intros w4 Hs4 Hg4. rewrite put_put in Hs4.
    rewrite <- delete_insert_ne, insert_insert_eq, delete_insert_ne in Hs4 by done.
    set (e1 := set_se_data_snapshot _ (set_se_data_snapshot _ _)) in Hs4.
    assert (Hb4 : bucket_in (<[se_page se := PInfo (PgBucket (put_entry b se e1)) true lb]> (delete (snap_page e) V))
      (se_page se) (put_entry b se e1) lb) by (unfold bucket_in; by vlook).
    assert (He4 : entry_of (put_entry b se e1) se = Some e1) by (by eapply entry_put).
    apply wp_bind. unfold entry_cpoint_ptr. apply wp_bind. eapply wp_get_se; [done|done|done|].
    change (r_maddr (se_ptr_current e1)) with (r_maddr (se_ptr_current e)). rewrite Hnp. cbn [Z.eqb negb when]. apply wp_ret.
    apply wp_bind. eapply wp_get_se; [done|done|done|]. rewrite bool_decide_true by done. cbn [when].
    change (d_maddr (se_data_current e1)) with (cur_page e).
    eapply wp_mprotect_view; [done|rewrite lookup_insert_ne by done; by rewrite lookup_delete_ne|].
    intros w5 Hs5 Hg5. apply HQ; [|congruence]. exact Hs5.
Qed.

Lemma commit_lookup_ne V sb b lb e im a :
  a <> cur_page e -> a <> sb -> (cur_page e = snap_page e \/ a <> snap_page e) ->
  commit_view V sb b lb e im !! a = V !! a.
Proof.
  intros H1 H2 H3. unfold commit_view. rewrite !lookup_insert_ne by done.
  destruct (Z.eqb_spec (cur_page e) (snap_page e)); [done|]. rewrite lookup_delete_ne; [done|]. destruct H3; congruence.
Qed.

Definition commit_if_init (e : slab_entry) : slab_entry := if SLAB_ENTRY_IS_INIT e then commit_entry e else e.

(** The pages of different entries of a bucket, and the bucket, are distinct
    and in the view; no entry has a pointer page. *)
Record cpoint_ready V (sb : Z) (b : slab_bucket) : Prop := {
  cr_len : zlen (sb_entries b) = SLAB_BUCKET_ENTRIES;
  cr_nodup : forall i e, zget (sb_entries b) i = Some e -> NoDup (sb :: pages_of e);
  cr_disjoint : forall i j ei ej a, zget (sb_entries b) i = Some ei -> zget (sb_entries b) j = Some ej -> i <> j ->
    a ∈ pages_of ei -> a ∉ pages_of ej;
  cr_in : forall i e a, zget (sb_entries b) i = Some e -> a ∈ pages_of e -> is_Some (V !! a);
  cr_noptr : forall i e, zget (sb_entries b) i = Some e -> r_maddr (se_ptr_current e) = 0;
}.

(** After the commit of the first [n] entries. *)
Record committed V (sb : Z) (b : slab_bucket) lb (n : Z) (V' : gmap Z pinfo) (b' : slab_bucket) : Prop := {
  cm_bucket : bucket_in V' sb b' lb;
  cm_id : sb_id b' = sb_id b;
  cm_len : zlen (sb_entries b') = SLAB_BUCKET_ENTRIES;
  cm_entries : forall i e, zget (sb_entries b) i = Some e ->
    zget (sb_entries b') i = Some (if i <? n then commit_if_init e else e);
  cm_done : forall i e, zget (sb_entries b) i = Some e -> i < n -> SLAB_ENTRY_IS_INIT e = true ->
    (exists im, V !! cur_page e = Some im /\ V' !! cur_page e = Some (PInfo (pi_page im) false (pi_laddr im))) /\
    (cur_page e <> snap_page e -> V' !! snap_page e = None);
  cm_todo : forall i e a, zget (sb_entries b) i = Some e -> n <= i -> a ∈ pages_of e -> V' !! a = V !! a;
  cm_other : forall a, a <> sb -> (forall i e, zget (sb_entries b) i = Some e -> a ∉ pages_of e) -> V' !! a = V !! a;
}.

Lemma commit_step V sb b lb n V' b' e im :
  cpoint_ready V sb b -> committed V sb b lb n V' b' -> 0 <= n -> zget (sb_entries b) n = Some e ->
  SLAB_ENTRY_IS_INIT e = true -> V !! cur_page e = Some im -> forall b'',
  zlen (sb_entries b'') = SLAB_BUCKET_ENTRIES -> sb_id b'' = sb_id b ->
  (forall i, zget (sb_entries b'') i = if decide (i = n) then Some (commit_entry e) else zget (sb_entries b') i) ->
  committed V sb b lb (n + 1) (commit_view V' sb b'' lb e im) b''.
Proof.
  intros Hr Hc Hn Ee Hini Eim b'' Hlen Hid Hb''.
  pose proof (cr_nodup _ _ _ Hr _ _ Ee) as Hnd. unfold pages_of in Hnd. rewrite Hini, NoDup_cons, NoDup_cons in Hnd.
  destruct Hnd as (Hsb & Hcs & _). rewrite not_elem_of_cons in Hsb. destruct Hsb as [Hsb1 Hsb2].
  assert (Hpg : forall a, a ∉ pages_of e -> a <> cur_page e /\ (cur_page e = snap_page e \/ a <> snap_page e)).
  { intros a Ha. unfold pages_of in Ha. rewrite Hini, not_elem_of_cons in Ha. destruct Ha as [Ha1 Ha2]. split; [done|].
    destruct (Z.eqb_spec (cur_page e) (snap_page e)); [by left|]. right. rewrite not_elem_of_cons in Ha2. tauto. }
  assert (Hkeep : forall a, a ∉ pages_of e -> a <> sb -> commit_view V' sb b'' lb e im !! a = V' !! a).
  { intros a Ha Hne. destruct (Hpg a Ha). by apply commit_lookup_ne. }
  assert (Hnsb : forall i ei a, zget (sb_entries b) i = Some ei -> a ∈ pages_of ei -> a <> sb).
  { intros i ei a Ei Ha ->. pose proof (cr_nodup _ _ _ Hr _ _ Ei) as Hd. apply NoDup_cons in Hd as [Hd _]. done. }
  split.
  - unfold bucket_in, commit_view. rewrite lookup_insert_ne by done. by rewrite lookup_insert_eq.
  - done.
  - done.
  - intros i ei Ei. rewrite Hb''. case_decide as Hi.
    + subst i. rewrite Ee in Ei. injection Ei as <-. destruct (Z.ltb_spec n (n + 1)); [|lia].
      unfold commit_if_init. by rewrite Hini.
    + rewrite (cm_entries _ _ _ _ _ _ _ Hc _ _ Ei). destruct (Z.ltb_spec i n), (Z.ltb_spec i (n + 1)); (done || lia).
  - intros i ei Ei Hi Hii. destruct (Z.eq_dec i n) as [->|Hne].
    + rewrite Ee in Ei. injection Ei as <-. split.
      * exists im. split; [done|]. unfold commit_view. by rewrite lookup_insert_eq.
      * intros Hd. unfold commit_view. destruct (Z.eqb_spec (cur_page e) (snap_page e)); [done|].
        rewrite not_elem_of_cons in Hcs. rewrite not_elem_of_cons in Hsb2.
        rewrite !lookup_insert_ne by (try tauto; intros ->; tauto). apply lookup_delete_eq.
    + destruct (cm_done _ _ _ _ _ _ _ Hc i ei Ei) as [(imi & E1 & E2) E3]; [lia|done|].
      assert (Hci : cur_page ei ∈ pages_of ei) by (unfold pages_of; rewrite Hii; by left).
      split.
      * exists imi. split; [done|]. rewrite Hkeep; [done| |by eapply Hnsb]. by eapply (cr_disjoint _ _ _ Hr i n).
      * intros Hd. assert (Hsi : snap_page ei ∈ pages_of ei).
        { unfold pages_of. rewrite Hii. destruct (Z.eqb_spec (cur_page ei) (snap_page ei)); [done|]. right. by left. }
        rewrite Hkeep; [by apply E3| |by eapply Hnsb]. by eapply (cr_disjoint _ _ _ Hr i n).
  - intros i ei a Ei Hi Ha. rewrite Hkeep; [|by eapply (cr_disjoint _ _ _ Hr i n); try done; lia|by eapply Hnsb].
    apply (cm_todo _ _ _ _ _ _ _ Hc i ei); [done|lia|done].
  - intros a Hne Ha. rewrite Hkeep; [|by eapply Ha|done]. by apply (cm_other _ _ _ _ _ _ _ Hc).
Qed.

Lemma commit_skip V sb b lb n V' b' e :
  committed V sb b lb n V' b' -> 0 <= n -> zget (sb_entries b) n = Some e -> SLAB_ENTRY_IS_INIT e = false ->
  committed V sb b lb (n + 1) V' b'.
Proof.
  intros Hc Hn Ee Hini. destruct Hc as [H1 Hid H2 H3 H4 H5 H6]. split; try done.
  - intros i ei Ei. rewrite (H3 _ _ Ei). destruct (Z.eq_dec i n) as [->|].
    + rewrite Ee in Ei. injection Ei as <-. unfold commit_if_init. rewrite Hini.
      by destruct (n <? n), (n <? n + 1).
    + destruct (Z.ltb_spec i n), (Z.ltb_spec i (n + 1)); (done || lia).
  - intros i ei Ei Hi Hii. apply (H4 i); [done| |done]. destruct (Z.eq_dec i n) as [->|]; [|lia].
    rewrite Ee in Ei. injection Ei as <-. congruence.
  - intros i ei a Ei Hi Ha. apply (H5 i ei); [done|lia|done].
Qed.

Lemma wp_slab_bucket_cpoint w V k sb b lb (Q : unit -> world PS -> Prop) :
  sees w V k -> bucket_in V sb b lb -> cpoint_ready V sb b ->
  (forall w' V' b', sees w' V' (k + old_pages (sb_entries b)) -> committed V sb b lb SLAB_BUCKET_ENTRIES V' b' ->
     globals w' = globals w -> Q tt w') ->
  wp (slab_bucket_cpoint sb CPOINT_REGULAR) Q w.
Proof.
  intros Hs Hb Hr HQ. unfold slab_bucket_cpoint.
  destruct (sees_aligned _ _ _ _ _ Hs Hb) as (Hal & Hpos & Htop).
  apply (wp_for (fun n w' => exists V' k' b', sees w' V' k' /\ committed V sb b lb n V' b' /\ globals w' = globals w /\
    k' = (k + old_pages (take (Z.to_nat n) (sb_entries b)))%nat)).
  - exists V, k, b. split_and!; [done| |done|simpl; lia]. split; [done|done|by apply Hr| | |done|done].
    + intros i e Ei. pose proof (zget_lt _ _ _ Ei). destruct (Z.ltb_spec i 0); [lia|done].
    + intros i e Ei Hi. pose proof (zget_lt _ _ _ Ei). lia.
  - intros n w1 Hn (V' & k' & b' & Hs' & Hc & Hg & Hk).
    change (Z.of_nat (Z.to_nat SLAB_BUCKET_ENTRIES)) with SLAB_BUCKET_ENTRIES in Hn.
    destruct (zget_total (sb_entries b) n) as [e Ee]; [rewrite (cr_len _ _ _ Hr); lia|].
    destruct (se_addr_decode sb n) as [Epg Eidx]; [done|done|unfold PAGE_SIZE in *; lia|lia|].
    assert (He' : entry_of b' (se_addr sb n) = Some e).
    { unfold entry_of. rewrite Eidx, (cm_entries _ _ _ _ _ _ _ Hc _ _ Ee). destruct (Z.ltb_spec n n); [lia|done]. }
    destruct (SLAB_ENTRY_IS_INIT e) eqn:Hini.
    + assert (Hcur : cur_page e ∈ pages_of e) by (unfold pages_of; rewrite Hini; by left).
      destruct (cr_in _ _ _ Hr n e _ Ee Hcur) as [im Eim].
      assert (Hkeep : forall a, a ∈ pages_of e -> V' !! a = V !! a).
      { intros a Ha. apply (cm_todo _ _ _ _ _ _ _ Hc n e); [done|lia|done]. }
      eapply (wp_entry_cpoint w1 V' k' (se_addr sb n) b' lb e im); try done.
      * rewrite Epg. apply Hc.
      * by rewrite Hkeep.
      * by eapply cr_noptr.
      * rewrite Epg. by eapply cr_nodup.
      * intros a Ha. rewrite Hkeep by done. by eapply cr_in.
      * intros w2 Hs2 Hg2. rewrite Epg in Hs2. eexists _, _, (put_entry b' (se_addr sb n) (commit_entry e)).
        split_and!; [exact Hs2| |congruence|].
        2: { rewrite (old_pages_take _ _ _ Ee). unfold is_old. rewrite Hini. destruct (cur_page e =? snap_page e); simpl; lia. }
        eapply commit_step; try done; [lia| |by simpl; apply Hc|].
        -- unfold put_entry, zlen. simpl. rewrite length_insert. apply Hc.
        -- intros i. unfold put_entry. simpl. rewrite Eidx. unfold entry_of in He'. rewrite Eidx in He'.
           pose proof (zget_lt _ _ _ He') as Hlt. unfold zget, zlen in *. case_decide as Hd.
           ++ subst i. destruct (Z.leb_spec 0 n); [|lia]. apply list_lookup_insert_eq. lia.
           ++ destruct (Z.leb_spec 0 i); [|done]. apply list_lookup_insert_ne. lia.
    + unfold entry_cpoint. apply wp_bind. eapply wp_get_se; [done|rewrite Epg; apply Hc|done|]. rewrite Hini. cbn [when].
      apply wp_ret. exists V', k', b'. split_and!; [done| |done|].
      2: { rewrite (old_pages_take _ _ _ Ee). unfold is_old. rewrite Hini. simpl. lia. }
      eapply commit_skip; try done. lia.
  - intros w1 (V' & k' & b' & Hs' & Hc & Hg & ->). apply (HQ w1 V' b'); [|done|done].
    rewrite take_ge in Hs' by (pose proof (cr_len _ _ _ Hr); unfold zlen in *; lia). done.
Qed.
End checkpoint_rules.

(** ** Properties *)

(** C14 A regular checkpoint of a bucket commits every entry: its snapshot
    reference equals its current reference, its data page keeps its content
    and is protected, its old snapshot page is given back to the allocator,
    and no other page changes. *)
Theorem slab_bucket_cpoint_correct {PS} `{PL : PageAllocatorLaws PS} (w : world PS) V k sb b lb :
  sees w V k -> bucket_in V sb b lb -> cpoint_ready V sb b ->
  wp (slab_bucket_cpoint sb CPOINT_REGULAR) (fun _ w' => exists V' k' b',
    sees w' V' k' /\ globals w' = globals w /\ bucket_in V' sb b' lb /\
    (forall i e, zget (sb_entries b) i = Some e -> SLAB_ENTRY_IS_INIT e = true ->
       (exists e', zget (sb_entries b') i = Some e' /\ snap_page e' = cur_page e /\ cur_page e' = cur_page e /\
          (cur_page e <> snap_page e -> d_laddr (se_data_snapshot e') = d_laddr (se_data_current e'))) /\
       page_at w' (cur_page e) = page_at w (cur_page e) /\ writable w' (cur_page e) = false /\
       (cur_page e <> snap_page e -> V' !! snap_page e = None)) /\
    (forall i e, zget (sb_entries b) i = Some e -> SLAB_ENTRY_IS_INIT e = false -> zget (sb_entries b') i = Some e) /\
    (forall a i, V !! a = Some i -> a <> sb -> (forall j e, zget (sb_entries b) j = Some e -> a ∉ pages_of e) ->
       page_at w' a = page_at w a /\ writable w' a = writable w a)) w.
Proof.
  intros Hs Hb Hr. eapply wp_slab_bucket_cpoint; [done|done|done|]. intros w' V' b' Hs' Hc Hg.
  exists V', (k + old_pages (sb_entries b))%nat, b'. split_and!; [done|done|by apply Hc| | |].
  - intros i e Ee Hini. pose proof (zget_lt _ _ _ Ee) as Hlt. rewrite (cr_len _ _ _ Hr) in Hlt.
    destruct (cm_done _ _ _ _ _ _ _ Hc i e Ee) as [(im & E1 & E2) E3]; [lia|done|].
    destruct (sees_shows _ _ _ Hs _ _ E1) as (P1 & _ & _). destruct (sees_shows _ _ _ Hs' _ _ E2) as (P2 & P3 & _).
    split_and!; [|by rewrite P1, P2|done|done]. exists (commit_entry e).
    rewrite (cm_entries _ _ _ _ _ _ _ Hc _ _ Ee). destruct (Z.ltb_spec i SLAB_BUCKET_ENTRIES); [|lia].
    unfold commit_if_init. rewrite Hini. split; [done|]. unfold commit_entry, cur_page, snap_page.
    destruct (Z.eqb_spec (d_maddr (se_data_current e)) (d_maddr (se_data_snapshot e))) as [E|E]; [|by split_and!].
    by split_and!.
  - intros i e Ee Hini. rewrite (cm_entries _ _ _ _ _ _ _ Hc _ _ Ee). unfold commit_if_init. rewrite Hini. by destruct (i <? _).
  - intros a i Ea Hne Hnp. destruct (sees_shows _ _ _ Hs _ _ Ea) as (P1 & P2 & _).
    destruct (sees_shows _ _ _ Hs' a i) as (P3 & P4 & _); [by rewrite (cm_other _ _ _ _ _ _ _ Hc)|]. by rewrite P1, P2, P3, P4.
Qed.

(** A write to the data page of the example and the checkpoint after it. *)
Lemma demo_entries p a l i e :
  entry_of (demo_bucket p) (demo_se p) = Some (demo_entry p) -> SLAB_ENTRY_INDEX (demo_se p) = 0 ->
  zget (sb_entries (put_entry (demo_bucket p) (demo_se p) (snapshotted (demo_entry p) a l))) i = Some e ->
  (i = 0 /\ e = snapshotted (demo_entry p) a l) \/ (i <> 0 /\ e = zero_entry).
Proof.
  intros He Hi Ee. unfold put_entry in Ee. rewrite Hi in Ee. cbn [sb_entries demo_bucket Z.to_nat] in Ee.
  pose proof (zget_lt _ _ _ Ee) as Hlt. unfold zget in Ee. destruct (Z.leb_spec 0 i); [|lia].
  destruct (Z.to_nat i) as [|j] eqn:Ej.
  - left. injection Ee as <-. split; [lia|done].
  - right. split; [lia|]. change ((replicate 27 zero_entry) !! j = Some e) in Ee.
    by apply lookup_replicate in Ee as [-> _].
Qed.

Lemma slab_bucket_cpoint_correct_witness : exists (w : world fmst) p,
  wp (store (dp_m p).1 (PgData (replicate 4096 1)) ;;; slab_bucket_cpoint (dp_b p).1 CPOINT_REGULAR)
    (fun _ w' => writable w' (dp_m p).1 = false) w.
Proof.
  destruct demo_exists as (w & p & H). exists w, p. pose proof (demo_fault w p H) as Hf.
  destruct (demo_lookups w p H) as (Hc & Hd & Ho & Hi & Hb & Hm). destruct (demo_se_ok w p H) as (Epg & Eidx & Hen).
  destruct (data_page_ne _ _ _ _ _ _ _ _ _ _ (fc_entry _ _ _ _ _ _ _ _ _ _ _ _ _ Hf) Hd) as [Hne1 Hne2].
  assert (Hmpos : (dp_m p).1 <> 0). { destruct (do_data _ _ _ _ _ _ _ _ H) as (_ & Hp & _). lia. }
  apply wp_bind. eapply wp_store_cow; [exact Hf|reflexivity|]. intros w' a l v Hna Hg Hv Hs'. rewrite Epg in Hne2.
  set (e' := snapshotted (demo_entry p) a l) in *. unfold cow_view in Hs'. rewrite Epg in Hs'.
  assert (Ham : a <> (dp_m p).1) by (intros ->; congruence). assert (Hab : a <> (dp_b p).1) by (intros ->; congruence).
  assert (Hpages : pages_of e' = [(dp_m p).1; a]).
  { unfold pages_of, e'. simpl. unfold cur_page, snap_page. simpl. destruct (Z.eqb_spec (dp_m p).1 a); [by destruct Ham|done]. }
  match type of Hs' with sees _ ?V _ => set (V' := V) in * end.
  assert (Hb' : bucket_in V' (dp_b p).1 (put_entry (demo_bucket p) (demo_se p) e') (dp_b p).2)
    by (unfold bucket_in, V'; by vlook).
  eapply wp_mono; [refine (slab_bucket_cpoint_correct w' V' 57 (dp_b p).1 _ (dp_b p).2 Hs' Hb' _)|].
  - assert (Hent : forall i e, zget (sb_entries (put_entry (demo_bucket p) (demo_se p) e')) i = Some e ->
      (i = 0 /\ e = e') \/ (i <> 0 /\ e = zero_entry)) by (intros i e; by apply demo_entries).
    split.
    + unfold put_entry, zlen. simpl. by rewrite length_insert.
    + intros i e Ee. destruct (Hent i e Ee) as [[_ ->]|[_ ->]]; [rewrite Hpages|repeat constructor; apply not_elem_of_nil].
      rewrite !NoDup_cons, !not_elem_of_cons. split_and!; try done; try apply not_elem_of_nil; try constructor; congruence.
    + intros i j ei ej x Ei Ej Hij Hx. destruct (Hent i ei Ei) as [[? ->]|[? ->]], (Hent j ej Ej) as [[? ->]|[? ->]];
        try lia; try (by apply not_elem_of_nil). by apply elem_of_nil in Hx.
    + intros i e x Ee Hx. destruct (Hent i e Ee) as [[_ ->]|[_ ->]]; [|by apply elem_of_nil in Hx].
      rewrite Hpages in Hx. apply elem_of_cons in Hx as [->|Hx]; [unfold V'; rewrite lookup_insert_eq; by eexists|].
      apply list_elem_of_singleton in Hx as ->. unfold V'. eexists. by vlook.
    + intros i e Ee. by destruct (Hent i e Ee) as [[_ ->]|[_ ->]].
  - intros [] w2 (V2 & k2 & b2 & _ & _ & _ & Hall & _). 
    assert (E0 : zget (sb_entries (put_entry (demo_bucket p) (demo_se p) e')) 0 = Some e').
    { unfold put_entry. rewrite Eidx. reflexivity. }
    destruct (Hall 0 e' E0) as (_ & _ & Hw & _); [reflexivity|]. exact Hw.
Defined.
