(* ===== verification/Txn.v ===== *)
(** * Transactions on one bucket

    What copy on write and checkpoint promise together.  [amem] is the
    abstract memory: for each entry of the bucket the content of its data
    page now, and as it was at the last checkpoint.  A transaction begins
    with the snapshot of the bucket that [slab_palloc] makes, then stores to
    data pages, then runs [slab_cpoint].  The theorems say that such
    transactions refine the abstract ones, and that at every moment the
    snapshot references of the bucket lead to the committed content.

    The container has one bucket.  [Missed.v] shows what goes wrong outside
    this discipline: stores without the snapshot of the bucket, or with two,
    are not committed, and a restart reads the references of the copy of the
    bucket, not these. *)
From Stdlib Require Import ZArith Lia.
From stdpp Require Import base numbers gmap option list.
From S2P Require Import Prelude Macros Bitstring Vector Queue Process RBTree FixedMapper PageAlloc.
From S2P Require Import SlabLayout World Demo Snapshot Slab Alloc Checkpoint.
Open Scope Z_scope.

(** ** The abstract memory *)
Record amem := AMem { a_now : gmap Z (list Z); a_old : gmap Z (list Z) }.

(** A store gives entry, and the new bytes of its page. *)
Definition astore (σ : amem) (st : Z * list Z) : amem := AMem (<[st.1 := st.2]> (a_now σ)) (a_old σ).
Definition acommit (σ : amem) : amem := AMem (a_now σ) (a_now σ).
Definition atransaction (σ : amem) (stores : list (Z * list Z)) : amem := acommit (fold_left astore stores σ).

(** ** The operations *)
Section ops.
Context {PS : Type} `{PA : PageAllocator PS}.
Notation M := (M (world PS)).

(** A store to the data page of the entry [i], at the address the program
    was given. *)
Definition store_entry (sb : Z) (st : Z * list Z) : M unit :=
  let! e := get_se (se_addr sb st.1) in store (d_maddr (se_data_current e)) (PgData st.2).

Definition transaction (sb : Z) (stores : list (Z * list Z)) : M unit :=
  snapshot_bucket sb ;;;
  forM stores (store_entry sb) ;;;
  slab_cpoint CPOINT_REGULAR.
End ops.

(** ** The relation *)

(** The addresses of the pages above the data, with their places. *)
Record geom := Geom {
  g_c : Z; g_sd : Z; g_so : Z; g_si : Z; g_sb : Z;
  g_ld : Z; g_li : Z; g_lb : Z;
}.

Section relation.
Context {PS : Type} `{PL : PageAllocatorLaws PS}.
Implicit Types (w : world PS) (V : gmap Z pinfo) (G : geom).

(** An entry whose page holds [now] and whose snapshot holds [old]: either
    they are the same protected page, or two pages, of which the first is
    writable. *)
Definition clean_entry V (e : slab_entry) (now : list Z) : Prop :=
  cur_page e = snap_page e /\ d_laddr (se_data_snapshot e) = d_laddr (se_data_current e) /\
  V !! cur_page e = Some (PInfo (PgData now) false (d_laddr (se_data_current e))).

Definition dirty_entry V (e : slab_entry) (now old : list Z) : Prop :=
  cur_page e <> snap_page e /\
  V !! cur_page e = Some (PInfo (PgData now) true (d_laddr (se_data_current e))) /\
  V !! snap_page e = Some (PInfo (PgData old) true (d_laddr (se_data_snapshot e))).

Definition entry_rel V (e : slab_entry) (now old : list Z) : Prop :=
  (clean_entry V e now /\ now = old) \/ dirty_entry V e now old.

Definition plain_entry (e : slab_entry) : Prop :=
  0 < se_size e <= PAGE_SIZE /\ r_maddr (se_ptr_current e) = 0 /\ r_maddr (se_ptr_snapshot e) = 0.

Record bucket_rel V (sb : Z) (b : slab_bucket) (σ : amem) : Prop := {
  br_ready : cpoint_ready V sb b;
  br_entry : forall i e, zget (sb_entries b) i = Some e -> SLAB_ENTRY_IS_INIT e = true ->
    plain_entry e /\ exists now old, a_now σ !! i = Some now /\ a_old σ !! i = Some old /\ entry_rel V e now old;
  br_known : forall i, is_Some (a_now σ !! i) -> exists e, zget (sb_entries b) i = Some e /\ SLAB_ENTRY_IS_INIT e = true;
}.

(** The tree of the directory holds the entries of this bucket. *)
Definition key_in (b : slab_bucket) (se : Z) : Z := d_maddr (se_data_current (default zero_entry (entry_of b se))).

Record tree_rel (sb : Z) (b : slab_bucket) (d : slab_dir) : Prop := {
  tr_sorted : key_sorted (key_in b) (inorder (sd_maddr_root d));
  tr_in : forall se, se ∈ inorder (sd_maddr_root d) -> se_page se = sb /\
    se = se_addr sb (SLAB_ENTRY_INDEX se) /\ exists e, entry_of b se = Some e /\ SLAB_ENTRY_IS_INIT e = true;
  tr_all : forall i e, zget (sb_entries b) i = Some e -> SLAB_ENTRY_IS_INIT e = true ->
    se_addr sb i ∈ inorder (sd_maddr_root d);
}.

(** The nodes on the one path to the bucket. *)
Record path_rel w V G (cont : container) (d : slab_dir) (o n : slab_node) : Prop := {
  pr_cont : CONTAINERS w = Some (g_c G);
  pr_c : exists wr l, V !! g_c G = Some (PInfo (PgCont cont) wr l);
  pr_cur : n_maddr (current_slab cont) = g_sd G;
  pr_d : V !! g_sd G = Some (PInfo (PgDir d) true (g_ld G));
  pr_o : exists wr l, V !! g_so G = Some (PInfo (PgOuter o) wr l);
  pr_i : V !! g_si G = Some (PInfo (PgInner n) true (g_li G));
  pr_dir : n_index (sd_node d) = 1 /\ exists l r, zget (n_current (sd_node d)) 0 = Some (NRef (g_so G) l) /\
    zget (n_snapshot (sd_node d)) 0 = Some r /\ n_maddr r = g_so G;
  pr_outer : n_index o = 1 /\ exists l r, zget (n_current o) 0 = Some (NRef (g_si G) l) /\
    zget (n_snapshot o) 0 = Some r /\ n_maddr r = g_si G;
  pr_inner : n_index n = 1 /\ zget (n_current n) 0 = Some (NRef (g_sb G) (g_lb G));
  pr_snap : n_maddr (snapshot_slab cont) = g_sd G;
}.

(** The vector of written entries. *)
Record vec_rel (sb : Z) (b : slab_bucket) (d : slab_dir) (ls : list Z) : Prop := {
  vr_repr : vector_repr (sd_vector d) ls;
  vr_cap : v_capacity (sd_vector d) <= Z.max 2 (2 * zlen ls);
  vr_count : length ls = old_pages (sb_entries b);
  vr_in : forall se, se ∈ ls -> exists i e, se = se_addr sb i /\ zget (sb_entries b) i = Some e /\ SLAB_ENTRY_IS_INIT e = true;
}.

Record txn_rel w V G (σ : amem) (cont : container) (d : slab_dir) (o n : slab_node) (b : slab_bucket) (ls : list Z) : Prop := {
  tx_mode : copynswap_enabled w = false;
  tx_path : path_rel w V G cont d o n;
  tx_bucket : bucket_in V (g_sb G) b (g_lb G);
  tx_id : sb_id b = 0;
  tx_data : bucket_rel V (g_sb G) b σ;
  tx_tree : tree_rel (g_sb G) b d;
  tx_vec : vec_rel (g_sb G) b d ls;
}.

(** Between transactions: the bucket is its own snapshot. *)
Definition idle G (K : nat) (σ : amem) w : Prop := exists V cont d o n b,
  sees w V K /\ txn_rel w V G σ cont d o n b [] /\ sb_has_snapshot b = 0 /\
  zget (n_snapshot n) 0 = Some (NRef (g_sb G) (g_lb G)).

(** The entry of a bucket, and the same entry of the copy that was made of the
    bucket when its pages were clean: both references of the copy lead to the
    page the entry has now. *)
Definition copy_entry (e e0 : slab_entry) : Prop :=
  SLAB_ENTRY_IS_INIT e0 = SLAB_ENTRY_IS_INIT e /\
  (SLAB_ENTRY_IS_INIT e = true -> plain_entry e0 /\ cur_page e0 = cur_page e /\ snap_page e0 = cur_page e /\
     d_laddr (se_data_snapshot e0) = d_laddr (se_data_current e)).
Definition copy_of (b cb : slab_bucket) : Prop := Forall2 copy_entry (sb_entries b) (sb_entries cb).

(** In a transaction: a copy of the bucket is its snapshot, and the number of
    free pages has gone down by that page and one for each written entry. *)
Definition active G (K : nat) (σ : amem) w : Prop := exists V cont d o n b ls a la cb,
  sees w V (K - S (length ls)) /\ txn_rel w V G σ cont d o n b ls /\ sb_has_snapshot b <> 0 /\
  zget (n_snapshot n) 0 = Some (NRef a la) /\ V !! a = Some (PInfo (PgBucket cb) true la) /\ a <> g_sb G /\
  copy_of b cb.

(** ** Changes of the view that keep the relation *)
Definition same_data V V' : Prop :=
  forall x bs wr l, V !! x = Some (PInfo (PgData bs) wr l) -> V' !! x = V !! x.

Lemma entry_pages_data V sb b σ i e x :
  bucket_rel V sb b σ -> zget (sb_entries b) i = Some e -> x ∈ pages_of e ->
  exists bs wr l, V !! x = Some (PInfo (PgData bs) wr l).
Proof.
  intros [_ He _] Ee Hx. unfold pages_of in Hx. destruct (SLAB_ENTRY_IS_INIT e) eqn:Hi; [|by apply elem_of_nil in Hx].
  destruct (He i e Ee Hi) as (_ & now & old & _ & _ & [[(E1 & _ & E2) _]|(_ & E2 & E3)]).
  - rewrite E1, Z.eqb_refl in Hx. apply list_elem_of_singleton in Hx as ->. rewrite <- E1. by do 3 eexists.
  - apply elem_of_cons in Hx as [->|Hx]; [by do 3 eexists|].
    destruct (cur_page e =? snap_page e); [by apply elem_of_nil in Hx|].
    apply list_elem_of_singleton in Hx as ->. by do 3 eexists.
Qed.

Lemma cur_in_pages e : SLAB_ENTRY_IS_INIT e = true -> cur_page e ∈ pages_of e.
Proof. intros Hi. unfold pages_of. rewrite Hi. by left. Qed.

Lemma snap_in_pages e : SLAB_ENTRY_IS_INIT e = true -> snap_page e ∈ pages_of e.
Proof.
  intros Hi. unfold pages_of. rewrite Hi. destruct (Z.eqb_spec (cur_page e) (snap_page e)) as [<-|]; [by left|].
  right. by left.
Qed.

Lemma entry_rel_same V V' e now old :
  SLAB_ENTRY_IS_INIT e = true -> (forall x, x ∈ pages_of e -> V' !! x = V !! x) ->
  entry_rel V e now old -> entry_rel V' e now old.
Proof.
  intros Hi Hs. pose proof (Hs _ (cur_in_pages e Hi)) as E1. pose proof (Hs _ (snap_in_pages e Hi)) as E2.
  unfold entry_rel, clean_entry, dirty_entry. by rewrite E1, E2.
Qed.

Lemma bucket_rel_same V V' sb b b' σ :
  bucket_rel V sb b σ -> same_data V V' -> sb_entries b' = sb_entries b -> bucket_rel V' sb b' σ.
Proof.
  intros Hb Hs Eb. assert (Hp : forall i e x, zget (sb_entries b) i = Some e -> x ∈ pages_of e -> V' !! x = V !! x).
  { intros i e x Ee Hx. destruct (entry_pages_data _ _ _ _ _ _ _ Hb Ee Hx) as (bs & wr & l & E). by eapply Hs. }
  destruct Hb as [[H1 H2 H3 H4 H5] He Hk]. split; [split|..]; rewrite ?Eb; try done.
  - intros i e x Ee Hx. rewrite (Hp i e) by done. by eapply H4.
  - intros i e Ee Hi. destruct (He i e Ee Hi) as (? & now & old & ? & ? & Hr). split; [done|]. exists now, old.
    split_and!; [done|done|]. eapply entry_rel_same; [done| |done]. intros x Hx. by eapply Hp.
Qed.

(** A page that is not a data page is outside of [same_data]. *)
Definition no_data V x : Prop := forall bs wr l, V !! x <> Some (PInfo (PgData bs) wr l).

Lemma same_data_refl V : same_data V V.
Proof. done. Qed.
Lemma same_data_insert V V' x i : same_data V V' -> no_data V x -> same_data V (<[x := i]> V').
Proof. intros Hs Hn y bs wr l E. rewrite lookup_insert_ne; [by eapply Hs|]. intros ->. by eapply Hn. Qed.
Lemma same_data_delete V V' x : same_data V V' -> no_data V x -> same_data V (delete x V').
Proof. intros Hs Hn y bs wr l E. rewrite lookup_delete_ne; [by eapply Hs|]. intros ->. by eapply Hn. Qed.

Lemma path_rel_same w w' V V' G cont d o n d' n' :
  path_rel w V G cont d o n -> CONTAINERS w' = CONTAINERS w -> V' !! g_c G = V !! g_c G -> V' !! g_so G = V !! g_so G ->
  V' !! g_sd G = Some (PInfo (PgDir d') true (g_ld G)) -> sd_node d' = sd_node d ->
  V' !! g_si G = Some (PInfo (PgInner n') true (g_li G)) -> n_index n' = n_index n -> n_current n' = n_current n ->
  path_rel w' V' G cont d' o n'.
Proof.
  intros [H1 H2 H3 H4 H5 H6 H7 H8 H9 H10] Ec E1 E2 E3 E4 E5 E6 E7. split; rewrite ?Ec, ?E1, ?E2, ?E4, ?E6, ?E7; done.
Qed.

(** The entries keep their data pages. *)
Definition same_keys (b b' : slab_bucket) : Prop := forall i e', zget (sb_entries b') i = Some e' ->
  exists e, zget (sb_entries b) i = Some e /\ cur_page e' = cur_page e /\ SLAB_ENTRY_IS_INIT e' = SLAB_ENTRY_IS_INIT e.

Lemma tree_rel_same sb b b' d d' :
  tree_rel sb b d -> same_keys b b' -> length (sb_entries b') = length (sb_entries b) ->
  sd_maddr_root d' = sd_maddr_root d -> tree_rel sb b' d'.
Proof.
  intros [H1 H2 H3] Hs Hl Ed. assert (Hin : forall se, is_Some (entry_of b se) -> is_Some (entry_of b' se) /\ key_in b se = key_in b' se).
  { intros se Hse. assert (Hse' : is_Some (entry_of b' se)).
    { unfold entry_of in *. apply zget_is_Some. apply zget_is_Some in Hse. unfold zlen in *. lia. }
    split; [done|]. destruct Hse' as [e' E']. destruct (Hs _ _ E') as (e & E & Ek & _).
    unfold key_in, entry_of in *. rewrite E, E'. by symmetry. }
  split; rewrite Ed.
  - eapply key_sorted_ext; [|exact H1]. intros se Hse. destruct (H2 se Hse) as (_ & _ & e & E & _). apply Hin. by eexists.
  - intros se Hse. destruct (H2 se Hse) as (E1 & E2 & e & E & Hi). split_and!; [done|done|].
    destruct (Hin se) as [[e' E'] _]; [by eexists|]. exists e'. split; [done|]. destruct (Hs _ _ E') as (e0 & E0 & _ & Ei).
    unfold entry_of in E. congruence.
  - intros i e' E' Hi. destruct (Hs _ _ E') as (e & E & _ & Ei). apply (H3 i e); [done|congruence].
Qed.

(** ** Clean buckets and their copies *)

(** With an empty vector every entry is clean. *)
Lemma entries_clean V sb b d σ i e : bucket_rel V sb b σ -> vec_rel sb b d [] ->
  zget (sb_entries b) i = Some e -> SLAB_ENTRY_IS_INIT e = true -> plain_entry e /\ exists bs, a_old σ !! i = Some bs /\ clean_entry V e bs.
Proof.
  intros Hd Hv Ei Hini. destruct (br_entry _ _ _ _ Hd i e Ei Hini) as (Hpl & now & old & En & Eo & Hr). split; [done|].
  destruct Hr as [[Hc ->]|(Hne & _)]; [by exists old|]. exfalso.
  pose proof (vr_count _ _ _ _ Hv) as Hn. pose proof (old_pages_insert _ _ _ zero_entry Ei) as Ho.
  assert (E : is_old e = true). { unfold is_old. rewrite Hini. by destruct (Z.eqb_spec (cur_page e) (snap_page e)). }
  rewrite E in Ho. change (is_old zero_entry) with false in Ho. cbv iota in Ho. simpl in Hn. lia.
Qed.

Lemma elem_entry b e : e ∈ sb_entries b -> exists i, zget (sb_entries b) i = Some e.
Proof.
  intros [j Ej]%list_elem_of_lookup. exists (Z.of_nat j). unfold zget. destruct (Z.leb_spec 0 (Z.of_nat j)); [|lia]. by rewrite Nat2Z.id.
Qed.

Lemma clean_copy V sb b d σ h : bucket_rel V sb b σ -> vec_rel sb b d [] -> copy_of (SlabBucket h (sb_id b) (sb_entries b)) b.
Proof.
  intros Hd Hv. apply Forall2_same_length_lookup. split; [done|]. cbn [sb_entries]. intros j y z Ey Ez. rewrite Ey in Ez. injection Ez as <-. split; [done|]. intros Hi.
  destruct (elem_entry b y) as [i Ei]; [by eapply list_elem_of_lookup_2|].
  destruct (entries_clean _ _ _ _ _ _ _ Hd Hv Ei Hi) as (Hpl & bs & _ & E1 & E2 & _). by split_and!.
Qed.

(** A store changes the snapshot reference of an entry and nothing else that
    the copy agrees with. *)
Lemma copy_put b b' cb i e e' : copy_of b cb -> zget (sb_entries b) i = Some e -> sb_entries b' = <[Z.to_nat i := e']> (sb_entries b) ->
  SLAB_ENTRY_IS_INIT e' = SLAB_ENTRY_IS_INIT e -> se_data_current e' = se_data_current e -> copy_of b' cb.
Proof.
  unfold copy_of. intros Hc Ei -> Hi Hd. apply zget_Some_nat in Ei.
  destruct (Forall2_lookup_l _ _ _ _ _ Hc Ei) as (e0 & E0 & Hce). rewrite <- (list_insert_id (sb_entries cb) (Z.to_nat i) e0) by done.
  apply Forall2_insert; [done|]. destruct Hce as [C1 C2]. split; [congruence|]. rewrite Hi. unfold cur_page in *. by rewrite Hd.
Qed.

(** ** The beginning: the snapshot of the bucket *)
Lemma wp_begin w V k G σ cont d o n b ls r (Q : unit -> world PS -> Prop) :
  sees w V (S k) -> txn_rel w V G σ cont d o n b ls -> zget (n_snapshot n) 0 = Some r -> n_maddr r = g_sb G ->
  (forall w' V' a l, let n' := with_snapshot n 0 (NRef a l) in let b' := SlabBucket 1 (sb_id b) (sb_entries b) in
     sees w' V' k -> txn_rel w' V' G σ cont d o n' b' ls -> zget (n_snapshot n') 0 = Some (NRef a l) ->
     V' !! a = Some (PInfo (PgBucket b) true l) -> a <> g_sb G -> Q tt w') ->
  wp (snapshot_bucket (g_sb G)) Q w.
Proof.
  intros Hs [Hm Hp Hb Hid Hd Ht Hv] Er Hr HQ. unfold snapshot_bucket, Func_slab_bucket_snapshot. unfold bucket_in in Hb.
  pose proof Hp as [P1 (wc & lc & P2) P3 P4 (wo & lo & P5) P6 (P7 & l7 & r7 & P7a & _) (P8 & l8 & r8 & P8a & _) (P9 & P9a)].
  apply wp_bind, wp_bind, wp_gets. rewrite Hm.
  eapply (wp_slab_bucket_snapshot w V k (g_sd G) d (g_ld G) (g_sb G) b (g_lb G) (g_si G) n (g_li G)); rewrite ?Hid; try done.
  - split; [split; [done|]|].
    + exists (g_c G), cont, wc, lc. by split_and!.
    + by exists (g_so G), l7, o, wo, lo, l8.
  - intros w1 a l _ Hna Hg Hs1. change (si_id_of 0) with 0 in Hs1.
    eapply wp_upd; [done|by vlook|done|]. intros w2 Hs2 Hg2.
    apply (HQ w2 (<[g_sb G := PInfo (PgBucket (SlabBucket 1 (sb_id b) (sb_entries b))) true (g_lb G)]>
      (<[g_si G := PInfo (PgInner (with_snapshot n 0 (NRef a l))) true (g_li G)]> (<[a := PInfo (PgBucket b) true l]> V))) a l);
      [done| |by eapply zget_insert|by vlook|intros ->; congruence].
    split; [by rewrite (globals_mode _ _ Hg2), (globals_mode _ _ Hg)| |unfold bucket_in; by vlook|done| | |by destruct Hv].
    + eapply path_rel_same; [done|by rewrite (globals_cont _ _ Hg2), (globals_cont _ _ Hg)|by vlook..].
    + eapply bucket_rel_same; [done| |done].
      repeat apply same_data_insert; try apply same_data_refl; intros ???; congruence.
    + eapply tree_rel_same; [done| |done|done]. intros i e Ee. by exists e.
Qed.

Lemma begin_active G K σ w :
  (0 < K)%nat -> idle G K σ w -> wp (snapshot_bucket (g_sb G)) (fun _ w' => active G K σ w') w.
Proof.
  intros HK (V & cont & d & o & n & b & Hs & Htx & _ & Er). destruct K as [|k]; [lia|].
  eapply wp_begin; [done|done|done|done|]. intros w' V' a l n' b' Hs' Htx' Er' Ea Hne.
  exists V', cont, d, o, n', b', [], a, l, b. split_and!; [by rewrite Nat.sub_1_r|done|done|done|done|done|].
  destruct Htx as [_ _ _ _ Hd _ Hv]. by eapply clean_copy.
Qed.

(** ** A store *)
Lemma cpoint_ready_put V V' sb b b' i e e' :
  cpoint_ready V sb b -> zget (sb_entries b) i = Some e -> sb_entries b' = <[Z.to_nat i := e']> (sb_entries b) ->
  r_maddr (se_ptr_current e') = 0 -> NoDup (sb :: pages_of e') ->
  (forall x, x ∈ pages_of e' -> is_Some (V' !! x) /\ (x ∈ pages_of e \/ V !! x = None)) ->
  (forall j ej x, zget (sb_entries b) j = Some ej -> j <> i -> x ∈ pages_of ej -> V' !! x = V !! x) ->
  cpoint_ready V' sb b'.
Proof.
  intros [H1 H2 H3 H4 H5] Ei Eb Hptr Hnd Hpg Hkeep.
  assert (Hz : forall j, zget (sb_entries b') j = if decide (j = i) then Some e' else zget (sb_entries b) j).
  { intros j. rewrite Eb. by apply zget_insert_case with e. }
  assert (Hx : forall j ej x, zget (sb_entries b) j = Some ej -> j <> i -> x ∈ pages_of ej -> x ∉ pages_of e').
  { intros j ej x Ej Hj Hx Hx'. destruct (Hpg x Hx') as [_ [Hp|Hn]]; [by eapply (H3 j i)|].
    destruct (H4 _ _ _ Ej Hx) as [? Es]. congruence. }
  split.
  - rewrite Eb. unfold zlen. rewrite length_insert. exact H1.
  - intros j ej. rewrite Hz. case_decide; [intros [= <-]; done|by apply H2].
  - intros j k ej ek x. rewrite !Hz. repeat case_decide; intros Ej Ek Hne Hxj; simplify_eq.
    + intros Hxk. by eapply (Hx k).
    + by eapply (Hx j).
    + by eapply (H3 j k).
  - intros j ej x. rewrite Hz. case_decide; intros Ej Hxj; simplify_eq; [by apply Hpg|].
    rewrite (Hkeep j ej) by done. by eapply H4.
  - intros j ej. rewrite Hz. case_decide; intros Ej; simplify_eq; [done|by eapply H5].
Qed.

Lemma bucket_rel_put V V' sb b b' σ i e e' now old :
  bucket_rel V sb b σ -> zget (sb_entries b) i = Some e -> sb_entries b' = <[Z.to_nat i := e']> (sb_entries b) ->
  SLAB_ENTRY_IS_INIT e' = true -> plain_entry e' -> a_old σ !! i = Some old -> entry_rel V' e' now old ->
  NoDup (sb :: pages_of e') ->
  (forall x, x ∈ pages_of e' -> is_Some (V' !! x) /\ (x ∈ pages_of e \/ V !! x = None)) ->
  (forall j ej x, zget (sb_entries b) j = Some ej -> j <> i -> x ∈ pages_of ej -> V' !! x = V !! x) ->
  bucket_rel V' sb b' (AMem (<[i := now]> (a_now σ)) (a_old σ)).
Proof.
  intros [Hr He Hk] Ei Eb Hini Hpl Eo Hrel Hnd Hpg Hkeep.
  assert (Hz : forall j, zget (sb_entries b') j = if decide (j = i) then Some e' else zget (sb_entries b) j).
  { intros j. rewrite Eb. by apply zget_insert_case with e. }
  split.
  - eapply cpoint_ready_put; try done. apply Hpl.
  - intros j ej. rewrite Hz. case_decide; intros Ej Hi; simplify_eq; simpl.
    + split; [done|]. exists now, old. by rewrite lookup_insert_eq.
    + destruct (He j ej Ej Hi) as (Hp & nw & od & E1 & E2 & Hrj). split; [done|]. exists nw, od.
      rewrite lookup_insert_ne by done. split_and!; [done|done|]. eapply entry_rel_same; [done| |done].
      intros x Hxj. by eapply Hkeep.
  - intros j. simpl. rewrite Hz. case_decide; [by exists e'|]. rewrite lookup_insert_ne by done. apply Hk.
Qed.

Lemma bucket_address w V k sb b lb σ i e :
  sees w V k -> bucket_in V sb b lb -> bucket_rel V sb b σ -> zget (sb_entries b) i = Some e ->
  se_page (se_addr sb i) = sb /\ SLAB_ENTRY_INDEX (se_addr sb i) = i /\ entry_of b (se_addr sb i) = Some e.
Proof.
  intros Hs Hb Hd Ee. destruct (sees_aligned _ _ _ _ _ Hs Hb) as (H1 & H2 & H3).
  pose proof (zget_lt _ _ _ Ee) as Hi. rewrite (cr_len _ _ _ (br_ready _ _ _ _ Hd)) in Hi.
  destruct (se_addr_decode sb i) as [E1 E2]; [done|done|unfold PAGE_SIZE in *; lia|done|].
  split_and!; [done|done|]. unfold entry_of. by rewrite E2.
Qed.

Lemma entry_address w V k G σ cont d o n b ls i e :
  sees w V k -> txn_rel w V G σ cont d o n b ls -> zget (sb_entries b) i = Some e ->
  se_page (se_addr (g_sb G) i) = g_sb G /\ SLAB_ENTRY_INDEX (se_addr (g_sb G) i) = i /\
  entry_of b (se_addr (g_sb G) i) = Some e.
Proof. intros Hs [_ _ Hb _ Hd _ _] Ee. by eapply bucket_address. Qed.

Lemma keep_other V sb b σ i e j ej x :
  bucket_rel V sb b σ -> zget (sb_entries b) i = Some e -> SLAB_ENTRY_IS_INIT e = true ->
  zget (sb_entries b) j = Some ej -> j <> i -> x ∈ pages_of ej -> x <> cur_page e.
Proof.
  intros Hb Ei Hi Ej Hne Hx ->. apply (cr_disjoint _ _ _ (br_ready _ _ _ _ Hb) j i ej e (cur_page e)); try done.
  by apply cur_in_pages.
Qed.

Lemma store_dirty w V k G σ cont d o n b ls i e now old bs (Q : unit -> world PS -> Prop) :
  sees w V k -> txn_rel w V G σ cont d o n b ls -> zget (sb_entries b) i = Some e -> SLAB_ENTRY_IS_INIT e = true ->
  plain_entry e -> a_old σ !! i = Some old -> dirty_entry V e now old ->
  (forall w', let V' := <[cur_page e := PInfo (PgData bs) true (d_laddr (se_data_current e))]> V in
     sees w' V' k -> txn_rel w' V' G (astore σ (i, bs)) cont d o n b ls -> Q tt w') ->
  wp (store (cur_page e) (PgData bs)) Q w.
Proof.
  intros Hs [Hm Hp Hb Hid Hd Ht Hv] Ei Hi Hpl Eo (Hne & E1 & E2) HQ. unfold bucket_in in Hb.
  pose proof Hp as [P1 (wc & lc & P2) P3 P4 (wo & lo & P5) P6 _ _ _].
  eapply storing_store; [done|done|done|]. intros w' Hs' Hg. apply HQ; [done|].
  assert (Hsnap : snap_page e ∈ pages_of e) by (by apply snap_in_pages).
  split; [by rewrite (globals_mode _ _ Hg)| |unfold bucket_in; by vlook|done| |done|done].
  - eapply path_rel_same; [done|by rewrite (globals_cont _ _ Hg)|by vlook..].
  - eapply (bucket_rel_put V _ _ b b σ i e e bs old); try done.
    + symmetry. apply list_insert_id. by apply zget_Some_nat.
    + right. split; [done|]. cbn [pi_laddr]. by split; vlook.
    + by eapply (cr_nodup _ _ _ (br_ready _ _ _ _ Hd)).
    + intros x Hx. split; [|by left]. destruct (decide (x = cur_page e)) as [->|]; [eexists; by vlook|].
      rewrite lookup_insert_ne by done. by eapply (cr_in _ _ _ (br_ready _ _ _ _ Hd)).
    + intros j ej x Ej Hj Hx. rewrite lookup_insert_ne; [done|]. intros E.
      exact (keep_other _ _ _ _ _ _ _ _ _ Hd Ei Hi Ej Hj Hx (eq_sym E)).
Qed.

Lemma tree_rel_in V sb b lb d : bucket_in V sb b lb -> tree_rel sb b d -> tree_in V d.
Proof.
  intros Hb Ht. unfold bucket_in in Hb. assert (Hat : forall se, se ∈ inorder (sd_maddr_root d) -> entry_at V se = entry_of b se).
  { intros se Hse. destruct (tr_in _ _ _ Ht se Hse) as [Epg _]. unfold entry_at. by rewrite Epg, Hb. }
  split.
  - eapply key_sorted_ext; [|apply Ht]. intros se Hse. unfold maddr_of, key_in. by rewrite Hat.
  - intros se Hse. rewrite Hat by done. destruct (tr_in _ _ _ Ht se Hse) as (_ & _ & e' & E' & _). by eexists.
Qed.

Lemma vec_rel_room sb b d ls : vec_rel sb b d ls -> zlen (sb_entries b) = SLAB_BUCKET_ENTRIES -> can_double 8 (v_capacity (sd_vector d)).
Proof.
  intros Hv Hlen. pose proof (vr_cap _ _ _ _ Hv) as Hc. pose proof (vr_count _ _ _ _ Hv) as Hn.
  pose proof (old_pages_len (sb_entries b)) as Hl. change SLAB_BUCKET_ENTRIES with 28 in Hlen. unfold can_double, zlen in *. lia.
Qed.

Lemma clean_fault w V k G σ cont d o n b ls i e now :
  sees w V (S k) -> txn_rel w V G σ cont d o n b ls -> zget (sb_entries b) i = Some e -> SLAB_ENTRY_IS_INIT e = true ->
  plain_entry e -> clean_entry V e now ->
  fault_ctx w V (S k) (g_sd G) d (g_ld G) ls (se_addr (g_sb G) i) b (g_lb G) e (cur_page e)
    (PInfo (PgData now) false (d_laddr (se_data_current e))).
Proof.
  intros Hs Htx Ei Hi (Hsz & Hpc & Hps) (_ & _ & E). pose proof Htx as [Hm Hp Hb Hid Hd Ht Hv].
  destruct (entry_address _ _ _ _ _ _ _ _ _ _ _ _ _ Hs Htx Ei) as (A1 & A2 & A3).
  pose proof Hp as [P1 (wc & lc & P2) P3 P4 _ _ _ _ _].
  split; try done.
  - split; [done|]. exists (g_c G), cont, wc, lc. by split_and!.
  - by eapply tree_rel_in.
  - by apply (tr_all _ _ _ Ht i e).
  - split; [by rewrite A1|done|done|done|done|by eexists].
  - apply Hv.
  - eapply vec_rel_room; [exact Hv|apply (cr_len _ _ _ (br_ready _ _ _ _ Hd))].
Qed.

(** The entry after its first store: [a] is the copy, at [l] in the file. *)
Lemma pages_of_snapshotted e a l :
  SLAB_ENTRY_IS_INIT e = true -> cur_page e <> a -> pages_of (snapshotted e a l) = [cur_page e; a].
Proof.
  intros Hi Hne. unfold pages_of. change (SLAB_ENTRY_IS_INIT (snapshotted e a l)) with (SLAB_ENTRY_IS_INIT e).
  rewrite Hi. change (cur_page (snapshotted e a l)) with (cur_page e). change (snap_page (snapshotted e a l)) with a.
  by destruct (Z.eqb_spec (cur_page e) a).
Qed.

Lemma vec_rel_append sb b b' d ls i e e' v :
  vec_rel sb b d ls -> zget (sb_entries b) i = Some e -> SLAB_ENTRY_IS_INIT e = true ->
  SLAB_ENTRY_IS_INIT e' = true -> is_old e = false -> is_old e' = true ->
  sb_entries b' = <[Z.to_nat i := e']> (sb_entries b) -> appended d ls (se_addr sb i) v ->
  vec_rel sb b' (set_sd_vector v d) (ls ++ [se_addr sb i]).
Proof.
  intros [H1 H2 H3 H4] Ei Hi Hi' Ho Ho' Eb [Hr Hc]. unfold zlen in *. split.
  - done.
  - cbn [set_sd_vector sd_vector]. unfold zlen. rewrite length_app. simpl. lia.
  - pose proof (old_pages_insert _ _ _ e' Ei) as Hins. rewrite Ho, Ho' in Hins. rewrite length_app, Eb. simpl. lia.
  - assert (Hz : forall j, zget (sb_entries b') j = if decide (j = i) then Some e' else zget (sb_entries b) j).
    { intros j. rewrite Eb. by apply zget_insert_case with e. }
    intros se [Hse|Hse]%elem_of_app.
    + destruct (H4 se Hse) as (j & ej & -> & Ej & Hij). exists j. rewrite Hz. case_decide; [by exists e'|by exists ej].
    + apply list_elem_of_singleton in Hse as ->. exists i, e'. rewrite Hz. by rewrite decide_True.
Qed.

Lemma store_clean w V k G σ cont d o n b ls i e now bs (Q : unit -> world PS -> Prop) :
  sees w V (S k) -> txn_rel w V G σ cont d o n b ls -> zget (sb_entries b) i = Some e -> SLAB_ENTRY_IS_INIT e = true ->
  plain_entry e -> a_old σ !! i = Some now -> clean_entry V e now ->
  (forall w' V' d' b', sees w' V' k -> txn_rel w' V' G (astore σ (i, bs)) cont d' o n b' (ls ++ [se_addr (g_sb G) i]) ->
     sb_has_snapshot b' = sb_has_snapshot b ->
     (forall x cb wr l, x <> g_sb G -> V !! x = Some (PInfo (PgBucket cb) wr l) -> V' !! x = V !! x) ->
     (forall cb, copy_of b cb -> copy_of b' cb) -> Q tt w') ->
  wp (store (cur_page e) (PgData bs)) Q w.
Proof.
  intros Hs Htx Ei Hi Hpl Eo Hcl HQ. pose proof (clean_fault _ _ _ _ _ _ _ _ _ _ _ _ _ _ Hs Htx Ei Hi Hpl Hcl) as Hf.
  destruct (entry_address _ _ _ _ _ _ _ _ _ _ _ _ _ Hs Htx Ei) as (A1 & A2 & A3).
  pose proof Htx as [Hm Hp Hb Hid Hd Ht Hv]. unfold bucket_in in Hb. destruct Hcl as (E1 & E2 & E3).
  pose proof Hp as [P1 (wc & lc & P2) P3 P4 (wo & lo & P5) P6 _ _ _].
  eapply wp_store_cow; [done|done|]. intros w' a l v Hna Hg Hv' Hs'.
  assert (Ham : cur_page e <> a) by (intros <-; congruence). assert (Hab : g_sb G <> a) by (intros <-; congruence).
  set (e' := snapshotted e a l) in *. set (b' := put_entry b (se_addr (g_sb G) i) e').
  pose proof (pages_of_snapshotted e a l Hi Ham) as Hpg.
  assert (Eb : sb_entries b' = <[Z.to_nat i := e']> (sb_entries b)) by (unfold b', put_entry; by rewrite A2).
  assert (Hother : forall x, x <> cur_page e -> x <> g_sb G -> x <> g_sd G -> x <> a ->
    <[cur_page e := PInfo (PgData bs) true (d_laddr (se_data_current e))]>
      (cow_view V (g_sd G) d (g_ld G) v (se_addr (g_sb G) i) b (g_lb G) e (PInfo (PgData now) false (d_laddr (se_data_current e))) a l) !! x = V !! x).
  { intros x H1 H2 H3 H4. unfold cow_view. rewrite A1. by rewrite !lookup_insert_ne. }
  eapply (HQ w' _ (set_sd_vector v d) b'); [exact Hs'| |done| |by intros cb Hcb; eapply (copy_put b b' cb i e e')].
  2: { intros x cb wr lx Hx Ex. apply Hother; [congruence|done|congruence|congruence]. }
  unfold cow_view in *. rewrite A1 in *. fold b'. cbn [pi_laddr pi_page].
  split; [by rewrite (globals_mode _ _ Hg)| |unfold bucket_in; by vlook|done| | |].
  - eapply path_rel_same; [done|by rewrite (globals_cont _ _ Hg)|by vlook..].
  - eapply (bucket_rel_put V _ _ b b' σ i e e' bs now); try done.
    + right. split_and!; [done|by vlook|]. change (snap_page e') with a. by vlook.
    + unfold e'. rewrite Hpg, !NoDup_cons, !not_elem_of_cons. split_and!; try done; try apply not_elem_of_nil; try constructor.
      intros E. by rewrite <- E, Hb in E3.
    + intros x. unfold e'. rewrite Hpg. intros [->|Hx]%elem_of_cons; [split; [eexists; by vlook|left; by apply cur_in_pages]|].
      apply list_elem_of_singleton in Hx as ->. split; [eexists; by vlook|by right].
    + intros j ej x Ej Hj Hx. destruct (entry_pages_data _ _ _ _ _ _ _ Hd Ej Hx) as (bx & wx & lx & Ex).
      apply Hother; [exact (keep_other _ _ _ _ _ _ _ _ _ Hd Ei Hi Ej Hj Hx)|congruence..].
  - eapply tree_rel_same; [done| |by rewrite Eb, length_insert|done]. intros j ej. rewrite Eb, (zget_insert_case _ _ _ _ _ Ei).
    case_decide; [intros [= <-]; subst; by exists e|]. intros Ej. by exists ej.
  - eapply (vec_rel_append _ b b' d ls i e e' v); try done; unfold is_old; [by rewrite E1, Z.eqb_refl, andb_false_r|].
    change (SLAB_ENTRY_IS_INIT e') with (SLAB_ENTRY_IS_INIT e). rewrite Hi.
    change (cur_page e') with (cur_page e). change (snap_page e') with a. by destruct (Z.eqb_spec (cur_page e) a).
Qed.

Lemma vec_len w V G σ cont d o n b ls : txn_rel w V G σ cont d o n b ls -> (length ls <= 28)%nat.
Proof.
  intros [_ _ _ _ Hd _ Hv]. rewrite (vr_count _ _ _ _ Hv). pose proof (old_pages_len (sb_entries b)).
  pose proof (cr_len _ _ _ (br_ready _ _ _ _ Hd)) as Hl. change SLAB_BUCKET_ENTRIES with 28 in Hl. unfold zlen in Hl. lia.
Qed.

(** A store to an entry, whichever state its page is in: the first one takes a
    free page and adds the entry to the vector. *)
Lemma wp_store_entry w V k G σ cont d o n b ls i bs (Q : unit -> world PS -> Prop) :
  sees w V (S k) -> txn_rel w V G σ cont d o n b ls -> is_Some (a_now σ !! i) ->
  (forall w' V' k' d' b' ls', sees w' V' k' -> txn_rel w' V' G (astore σ (i, bs)) cont d' o n b' ls' ->
     (k' + length ls' = S k + length ls)%nat -> sb_has_snapshot b' = sb_has_snapshot b ->
     (forall x cb wr l, x <> g_sb G -> V !! x = Some (PInfo (PgBucket cb) wr l) -> V' !! x = V !! x) ->
     (forall cb, copy_of b cb -> copy_of b' cb) -> Q tt w') ->
  wp (store_entry (g_sb G) (i, bs)) Q w.
Proof.
  intros Hs Htx Hi HQ. pose proof Htx as [_ _ Hb _ Hd _ Hv]. destruct (br_known _ _ _ _ Hd i Hi) as (e & Ei & Hini).
  destruct (entry_address _ _ _ _ _ _ _ _ _ _ _ _ _ Hs Htx Ei) as (A1 & A2 & A3).
  destruct (br_entry _ _ _ _ Hd i e Ei Hini) as (Hpl & now & old & En & Eo & Hr).
  unfold store_entry. cbn [fst snd]. apply wp_bind. eapply wp_get_se; [done|by rewrite A1|done|].
  change (d_maddr (se_data_current e)) with (cur_page e). destruct Hr as [[Hcl ->]|Hdi].
  - eapply (store_clean w V k G σ cont d o n b ls i e old bs); [done|done|done|done|done|exact Eo|done|].
    intros w' V' d' b' Hs' Htx' Hsb HV Hcp. eapply (HQ w' V' k); [done|exact Htx'| |done|exact HV|exact Hcp].
    rewrite length_app. simpl. lia.
  - eapply (store_dirty w V _ G σ cont d o n b ls i e now old bs); [done|done|done|done|done|exact Eo|done|]. intros w' V' Hs' Htx'.
    eapply (HQ w' V' (S k)); [exact Hs'|exact Htx'|lia|done| |done]. intros x cb wr l Hx Ex. destruct Hdi as (_ & E1 & _).
    unfold V'. by vlook.
Qed.

Lemma store_active G K σ i bs w :
  (30 <= K)%nat -> is_Some (a_now σ !! i) -> active G K σ w ->
  wp (store_entry (g_sb G) (i, bs)) (fun _ w' => active G K (astore σ (i, bs)) w') w.
Proof.
  intros HK Hi (V & cont & d & o & n & b & ls & a & la & cb & Hs & Htx & Hsn & Hsl & Ha & Hne & Hco).
  pose proof (vec_len _ _ _ _ _ _ _ _ _ _ Htx) as Hlen. destruct (K - S (length ls))%nat as [|k] eqn:Ek; [lia|].
  eapply wp_store_entry; [exact Hs|exact Htx|exact Hi|]. intros w' V' k' d' b' ls' Hs' Htx' Hk Hsb HV Hcp.
  pose proof (vec_len _ _ _ _ _ _ _ _ _ _ Htx') as Hlen'. exists V', cont, d', o, n, b', ls', a, la, cb.
  split_and!; [|done|by rewrite Hsb|done|by rewrite (HV a cb true la)|done|by apply Hcp].
  by replace (K - S (length ls'))%nat with k' by lia.
Qed.

(** ** The commit *)
Lemma commit_entry_keys e : cur_page (commit_if_init e) = cur_page e /\
  SLAB_ENTRY_IS_INIT (commit_if_init e) = SLAB_ENTRY_IS_INIT e.
Proof. unfold commit_if_init, commit_entry. by destruct (SLAB_ENTRY_IS_INIT e) eqn:Hi; [destruct (cur_page e =? snap_page e)|]. Qed.

Lemma commit_entry_snap e : SLAB_ENTRY_IS_INIT e = true -> snap_page (commit_if_init e) = cur_page e.
Proof.
  intros Hi. unfold commit_if_init, commit_entry. rewrite Hi. by destruct (Z.eqb_spec (cur_page e) (snap_page e)).
Qed.

Lemma commit_entry_pages e : pages_of (commit_if_init e) = if SLAB_ENTRY_IS_INIT e then [cur_page e] else [].
Proof.
  destruct (commit_entry_keys e) as [E1 E2]. unfold pages_of. rewrite E2, E1.
  destruct (SLAB_ENTRY_IS_INIT e) eqn:Hi; [|done]. by rewrite (commit_entry_snap _ Hi), Z.eqb_refl.
Qed.

Lemma committed_inv V sb b lb V1 b1 i e' :
  cpoint_ready V sb b -> committed V sb b lb SLAB_BUCKET_ENTRIES V1 b1 -> zget (sb_entries b1) i = Some e' ->
  exists e, zget (sb_entries b) i = Some e /\ e' = commit_if_init e /\ i < SLAB_BUCKET_ENTRIES.
Proof.
  intros Hr Hc E'. pose proof (zget_lt _ _ _ E') as Hi. rewrite (cm_len _ _ _ _ _ _ _ Hc) in Hi.
  destruct (zget_total (sb_entries b) i) as [e Ee]; [by rewrite (cr_len _ _ _ Hr)|]. exists e. split; [done|].
  rewrite (cm_entries _ _ _ _ _ _ _ Hc _ _ Ee) in E'. destruct (Z.ltb_spec i SLAB_BUCKET_ENTRIES); [|lia].
  injection E' as <-. split; [done|lia].
Qed.

Lemma committed_old_pages V sb b lb V1 b1 :
  cpoint_ready V sb b -> committed V sb b lb SLAB_BUCKET_ENTRIES V1 b1 -> old_pages (sb_entries b1) = 0%nat.
Proof.
  intros Hr Hc. assert (Hall : forall e', e' ∈ sb_entries b1 -> is_old e' = false).
  { intros e' (j & Ej)%list_elem_of_lookup. destruct (committed_inv _ _ _ _ _ _ (Z.of_nat j) e' Hr Hc) as (e & _ & -> & _).
    { unfold zget. destruct (Z.leb_spec 0 (Z.of_nat j)); [|lia]. by rewrite Nat2Z.id. }
    unfold is_old. destruct (commit_entry_keys e) as [E1 E2]. rewrite E1, E2.
    destruct (SLAB_ENTRY_IS_INIT e) eqn:Hi; [|done]. by rewrite (commit_entry_snap _ Hi), Z.eqb_refl. }
  induction (sb_entries b1) as [|e l IH]; [done|]. simpl. rewrite (Hall e) by (by left). apply IH.
  intros e' He. apply Hall. by right.
Qed.

Lemma committed_data V sb b lb V1 b1 σ :
  bucket_rel V sb b σ -> committed V sb b lb SLAB_BUCKET_ENTRIES V1 b1 -> bucket_rel V1 sb b1 (acommit σ).
Proof.
  intros [Hr He Hk] Hc. pose proof Hr as [H1 H2 H3 H4 H5]. split; [split|..].
  - apply Hc.
  - intros i e' E'. destruct (committed_inv _ _ _ _ _ _ _ _ Hr Hc E') as (e & Ee & -> & _). rewrite commit_entry_pages.
    pose proof (H2 _ _ Ee) as Hnd. destruct (SLAB_ENTRY_IS_INIT e) eqn:Hi; [|repeat constructor; apply not_elem_of_nil].
    rewrite !NoDup_cons in *. destruct Hnd as [Hsb _]. split_and!; [|apply not_elem_of_nil|constructor].
    intros ->%list_elem_of_singleton. apply Hsb. by apply cur_in_pages.
  - intros i j ei ej x Ei Ej Hij. destruct (committed_inv _ _ _ _ _ _ _ _ Hr Hc Ei) as (e1 & E1 & -> & _).
    destruct (committed_inv _ _ _ _ _ _ _ _ Hr Hc Ej) as (e2 & E2 & -> & _). rewrite !commit_entry_pages.
    destruct (SLAB_ENTRY_IS_INIT e1) eqn:I1, (SLAB_ENTRY_IS_INIT e2) eqn:I2; try (intros; by apply not_elem_of_nil);
      intros ->%list_elem_of_singleton || intros Hx%elem_of_nil; [|done].
    intros E%list_elem_of_singleton. apply (H3 i j e1 e2 (cur_page e1)); try done; [by apply cur_in_pages|].
    rewrite E. by apply cur_in_pages.
  - intros i e' x E'. destruct (committed_inv _ _ _ _ _ _ _ _ Hr Hc E') as (e & Ee & -> & Hlt). rewrite commit_entry_pages.
    destruct (SLAB_ENTRY_IS_INIT e) eqn:Hi; [|by intros ?%elem_of_nil]. intros ->%list_elem_of_singleton.
    destruct (cm_done _ _ _ _ _ _ _ Hc i e Ee Hlt Hi) as [(im & _ & E2) _]. by eexists.
  - intros i e' E'. destruct (committed_inv _ _ _ _ _ _ _ _ Hr Hc E') as (e & Ee & -> & _).
    unfold commit_if_init, commit_entry. pose proof (H5 _ _ Ee).
    by destruct (SLAB_ENTRY_IS_INIT e), (cur_page e =? snap_page e).
  - intros i e' E'. destruct (committed_inv _ _ _ _ _ _ _ _ Hr Hc E') as (e & Ee & -> & Hlt).
    destruct (commit_entry_keys e) as [K1 K2]. rewrite K2. intros Hi.
    destruct (He i e Ee Hi) as (Hpl & now & old & En & _ & Hrel). split.
    { unfold commit_if_init, commit_entry. rewrite Hi. by destruct (cur_page e =? snap_page e). }
    exists now, now. split_and!; [done|done|]. left. split; [|done].
    destruct (cm_done _ _ _ _ _ _ _ Hc i e Ee Hlt Hi) as [(im & E1 & E2) _].
    unfold clean_entry. rewrite K1, (commit_entry_snap _ Hi). split; [done|].
    assert (Him : pi_page im = PgData now /\ pi_laddr im = d_laddr (se_data_current e)).
    { destruct Hrel as [[(_ & _ & E3) _]|(_ & E3 & _)]; rewrite E1 in E3; injection E3 as ->; done. }
    destruct Him as [Hi1 Hi2]. rewrite Hi1, Hi2 in E2.
    unfold commit_if_init, commit_entry. rewrite Hi. destruct (Z.eqb_spec (cur_page e) (snap_page e)) as [Eq|Nq]; [|done].
    split; [|done]. destruct Hrel as [[(_ & E3 & _) _]|(E3 & _)]; [done|by destruct E3].
  - intros i Hi. destruct (Hk i Hi) as (e & Ee & Hini). pose proof (zget_lt _ _ _ Ee) as Hlt. rewrite H1 in Hlt.
    exists (commit_if_init e). rewrite (cm_entries _ _ _ _ _ _ _ Hc _ _ Ee). destruct (Z.ltb_spec i SLAB_BUCKET_ENTRIES); [|lia].
    destruct (commit_entry_keys e) as [_ K2]. by rewrite K2.
Qed.

(** The walk over a tree of one bucket. *)
Lemma wp_inner_cpoint w V k G σ cont d o n b ls a la cb (Q : unit -> world PS -> Prop) :
  sees w V k -> txn_rel w V G σ cont d o n b ls -> sb_has_snapshot b <> 0 ->
  zget (n_snapshot n) 0 = Some (NRef a la) -> V !! a = Some (PInfo (PgBucket cb) true la) -> a <> g_sb G ->
  (forall w' V' b', let n' := with_snapshot n 0 (NRef (g_sb G) (g_lb G)) in
     sees w' V' (S (k + length ls)) -> globals w' = globals w -> path_rel w' V' G cont d o n' ->
     bucket_in V' (g_sb G) b' (g_lb G) -> sb_id b' = 0 ->
     bucket_rel V' (g_sb G) b' (acommit σ) -> tree_rel (g_sb G) b' d -> same_keys b b' ->
     length (sb_entries b') = length (sb_entries b) -> old_pages (sb_entries b') = 0%nat -> sb_has_snapshot b' = 0 -> Q tt w') ->
  wp (slab_inner_cpoint (g_si G) CPOINT_REGULAR) Q w.
Proof.
  intros Hs Htx Hsn Esl Ea Hne HQ. pose proof Htx as [Hm Hp Hb Hid Hd Ht Hv]. unfold bucket_in in Hb.
  pose proof Hp as [P1 (wc & lc & P2) P3 P4 (wo & lo & P5) P6 _ _ (P9 & P9a)]. pose proof (br_ready _ _ _ _ Hd) as Hr.
  unfold slab_inner_cpoint. apply wp_bind. eapply wp_read_view; [done|done|done|]. cbn [the_inner]. rewrite P9. cbn [for_ Z.to_nat Pos.to_nat Pos.iter_op].
  apply wp_bind. apply wp_bind. eapply wp_read_view; [done|done|done|]. cbn [the_inner].
  apply wp_bind. eapply wp_from_opt; [done|]. cbn [n_maddr n_laddr].
  apply wp_bind. eapply wp_read_view; [done|done|done|]. destruct (Z.eqb_spec (sb_has_snapshot b) 0); [done|]. cbn [negb when].
  apply wp_bind. eapply wp_slab_bucket_cpoint; [done|done|done|]. intros w1 V1 b1 Hs1 Hc Hg1.
  assert (Hkeep : forall x, x <> g_sb G -> no_data V x -> V1 !! x = V !! x).
  { intros x Hx Hno. apply (cm_other _ _ _ _ _ _ _ Hc); [done|]. intros i e Ei Hin.
    destruct (entry_pages_data _ _ _ _ _ _ _ Hd Ei Hin) as (bs & wr & l & E). by eapply Hno. }
  assert (Hi1 : V1 !! g_si G = V !! g_si G) by (apply Hkeep; [congruence|intros ???; congruence]).
  assert (Ha1 : V1 !! a = V !! a) by (apply Hkeep; [done|intros ???; congruence]).
  assert (Hc1 : V1 !! g_c G = V !! g_c G) by (apply Hkeep; [congruence|intros ???; congruence]).
  assert (Ho1 : V1 !! g_so G = V !! g_so G) by (apply Hkeep; [congruence|intros ???; congruence]).
  assert (Hd1 : V1 !! g_sd G = V !! g_sd G) by (apply Hkeep; [congruence|intros ???; congruence]).
  pose proof (cm_bucket _ _ _ _ _ _ _ Hc) as Hb1. unfold bucket_in in Hb1.
  rewrite P6 in Hi1. rewrite Ea in Ha1. rewrite P2 in Hc1. rewrite P5 in Ho1. rewrite P4 in Hd1.
  apply wp_bind. eapply wp_upd_inner; [done|done|by apply set_snapshot_laddr_eq|]. intros w2 Hs2 Hg2.
  apply wp_bind. eapply quiet_stat; [done|]. intros w3 Hs3 Hg3.
  apply wp_bind. eapply wp_read_view; [done|by vlook|done|]. cbn [the_inner n_snapshot].
  apply wp_bind. eapply wp_from_opt; [by eapply zget_insert|]. cbn [n_maddr].
  apply wp_bind. eapply wp_freepages_view; [done|by vlook|]. intros w4 Hs4 Hg4.
  apply wp_bind. eapply wp_upd_inner; [done|by vlook|by eapply set_snapshot_maddr_eq, zget_insert|].
  intros w5 Hs5 Hg5. cbn [n_index n_current n_snapshot n_laddr] in Hs5. rewrite list_insert_insert_eq in Hs5.
  eapply wp_upd; [done|by vlook|done|].
  intros w6 Hs6 Hg6. apply wp_ret. assert (Hg : globals w6 = globals w) by congruence.
  rewrite <- (vr_count _ _ _ _ Hv) in Hs6.
  assert (Hk : same_keys b b1).
  { intros i e' E'. destruct (committed_inv _ _ _ _ _ _ _ _ Hr Hc E') as (e & Ee & -> & _). exists e. split; [done|].
    apply commit_entry_keys. }
  assert (Hlen : length (sb_entries b1) = length (sb_entries b)).
  { pose proof (cm_len _ _ _ _ _ _ _ Hc). pose proof (cr_len _ _ _ Hr). unfold zlen in *. lia. }
  eapply (HQ w6 _ (SlabBucket 0 (sb_id b1) (sb_entries b1))); [exact Hs6|done| |unfold bucket_in; by vlook| | | |done|done| |done].
  - eapply path_rel_same; [done|by apply globals_cont|..]; try done; vlook; congruence.
  - simpl. by rewrite (cm_id _ _ _ _ _ _ _ Hc).
  - eapply bucket_rel_same; [by eapply committed_data| |done].
    repeat (apply same_data_insert || apply same_data_delete || apply same_data_refl); intros ???; congruence.
  - by eapply tree_rel_same.
  - exact (committed_old_pages _ _ _ _ _ _ Hr Hc).
Qed.

Lemma wp_commit_ref_same (get : M (world PS) slab_node) set i n cur snap w (Q : unit -> world PS -> Prop) :
  wp get (fun n' w' => n' = n /\ w' = w) w -> zget (n_current n) i = Some cur -> zget (n_snapshot n) i = Some snap ->
  n_maddr snap = n_maddr cur -> Q tt w -> wp (commit_ref get set i) Q w.
Proof.
  intros Hg Ec Es E HQ. unfold commit_ref. apply wp_bind. eapply wp_mono; [exact Hg|]. intros ? ? [-> ->].
  apply wp_bind. eapply wp_from_opt; [done|]. apply wp_bind. eapply wp_from_opt; [done|]. rewrite E, Z.eqb_refl.
  by apply wp_ret.
Qed.

Lemma wp_flush_vector w V k sd d ld ls (Q : unit -> world PS -> Prop) :
  sees w V k -> V !! sd = Some (PInfo (PgDir d) true ld) -> vector_repr (sd_vector d) ls ->
  (forall se, se ∈ ls -> exists b lb e, bucket_in V (se_page se) b lb /\ entry_of b se = Some e /\ is_Some (V !! cur_page e)) ->
  (forall w', sees w' V k -> globals w' = globals w -> Q tt w') -> wp (flush_vector sd) Q w.
Proof.
  intros Hs Ed Hv Hin HQ. unfold flush_vector. apply wp_bind. eapply wp_read_view; [done|done|done|].
  pose proof Hv as (Hsz & _). unfold VECTOR_SIZE. rewrite Hsz.
  apply (wp_for (fun _ w' => sees w' V k /\ globals w' = globals w)); [done| |].
  - intros i w1 Hi [Hs1 Hg1]. apply wp_bind. eapply wp_read_view; [done|done|done|].
    destruct (zget_total ls i) as [se Ese]; [unfold zlen in *; lia|]. rewrite (VECTOR_AT_repr _ _ _ _ Hv Ese).
    destruct (Hin se) as (b & lb & e & Hb & He & im & Em).
    { apply list_elem_of_lookup. exists (Z.to_nat i). by apply zget_Some_nat. }
    apply wp_bind. eapply wp_get_se; [done|done|done|]. eapply quiet_flush; [done|exact Em|]. intros w2 Hs2 Hg2.
    split; [done|congruence].
  - intros w1 [Hs1 Hg1]. by apply HQ.
Qed.

(** What a walk over the inner node leaves: the pages of the path, and a bucket
    with the same entries in use. *)
Record inner_walked G cont d o (b : slab_bucket) w w1 V1 (k1 : nat) (b1 : slab_bucket) (n1 : slab_node) : Prop := {
  wd_sees : sees w1 V1 k1;
  wd_globals : globals w1 = globals w;
  wd_path : path_rel w1 V1 G cont d o n1;
  wd_bucket : bucket_in V1 (g_sb G) b1 (g_lb G);
  wd_keys : same_keys b b1;
  wd_len : length (sb_entries b1) = length (sb_entries b);
  wd_ready : cpoint_ready V1 (g_sb G) b1;
}.

(** [slab_cpoint] around the inner node: nothing is left to commit in the outer
    node and the directory, and the vector is emptied. *)
Lemma wp_walk w V k G σ cont d o n b ls (P : world PS -> gmap Z pinfo -> nat -> slab_bucket -> slab_node -> Prop) (Q : unit -> world PS -> Prop) :
  sees w V k -> txn_rel w V G σ cont d o n b ls ->
  wp (slab_inner_cpoint (g_si G) CPOINT_REGULAR) (fun _ w1 => exists V1 k1 b1 n1, inner_walked G cont d o b w w1 V1 k1 b1 n1 /\ P w1 V1 k1 b1 n1) w ->
  (forall w1 V1 k1 b1 n1 w', inner_walked G cont d o b w w1 V1 k1 b1 n1 -> P w1 V1 k1 b1 n1 -> globals w' = globals w ->
     sees w' (<[g_sd G := PInfo (PgDir (set_sd_vector (Vec 0 0 None) d)) true (g_ld G)]> V1) k1 -> Q tt w') ->
  wp (slab_cpoint CPOINT_REGULAR) Q w.
Proof.
  intros Hs Htx Hin HQ. pose proof Htx as [Hm Hp Hb Hid Hd Ht Hv]. pose proof Hv as [Hv1 _ Hv3 Hv4].
  pose proof Hp as [P1 (wc & lc & P2) P3 P4 (wo & lo & P5) P6 (P7 & l7 & r7 & P7a & P7b & P7c) (P8 & l8 & r8 & P8a & P8b & P8c) _].
  unfold slab_cpoint. apply wp_bind. eapply wp_current_dir; [done|split; [done|exists (g_c G), cont, wc, lc; done]|].
  apply wp_bind. unfold slab_dir_cpoint. apply wp_bind. apply wp_bind. eapply wp_read_view; [done|done|done|]. apply wp_ret.
  rewrite P7. cbn [for_ Z.to_nat Pos.to_nat Pos.iter_op].
  apply wp_bind. apply wp_bind. apply wp_bind. eapply wp_read_view; [done|done|done|]. apply wp_ret.
  apply wp_bind. unfold current_maddr at 1. apply wp_bind. eapply wp_from_opt; [done|]. apply wp_ret. cbn [n_maddr].
  apply wp_bind. unfold slab_outer_cpoint. apply wp_bind. apply wp_bind. eapply wp_read_view; [done|done|done|]. apply wp_ret. cbn [the_outer].
  rewrite P8. cbn [for_ Z.to_nat Pos.to_nat Pos.iter_op].
  apply wp_bind. apply wp_bind. apply wp_bind. eapply wp_read_view; [done|done|done|]. apply wp_ret.
  apply wp_bind. unfold current_maddr at 1. apply wp_bind. eapply wp_from_opt; [done|]. apply wp_ret. cbn [n_maddr].
  apply wp_bind. eapply wp_mono; [exact Hin|]. intros [] w1 (V1 & k1 & b1 & n1 & Hwd & HP). pose proof Hwd as [Hs1 Hg1 Hp1 Hb1 Hk1 Hl1 Hr1].
  pose proof Hp1 as [Q1 (wc1 & lc1 & Q2) Q3 Q4 (wo1 & lo1 & Q5) Q6 _ _ _].
  eapply wp_commit_ref_same; [|exact P8a|exact P8b|exact P8c|].
  { apply wp_bind. eapply wp_read_view; [done|done|done|]. by apply wp_ret. }
  apply wp_ret. eapply wp_commit_ref_same; [|exact P7a|exact P7b|exact P7c|].
  { apply wp_bind. eapply wp_read_view; [done|done|done|]. by apply wp_ret. }
  apply wp_ret. apply wp_bind. eapply wp_flush_vector; [done|done|done| |].
  { intros se Hse. destruct (Hv4 se Hse) as (i & e & -> & Ei & Hini).
    destruct (entry_address _ _ _ _ _ _ _ _ _ _ _ _ _ Hs Htx Ei) as (A1 & A2 & A3).
    destruct (zget_total (sb_entries b1) i) as [e1 E1]; [apply zget_lt in Ei; unfold zlen in *; lia|].
    exists b1, (g_lb G), e1. split_and!; [by rewrite A1|unfold entry_of; by rewrite A2|].
    destruct (Hk1 _ _ E1) as (e0 & E0 & _ & Hi1). rewrite Ei in E0. injection E0 as <-.
    eapply (cr_in _ _ _ Hr1); [exact E1|]. apply cur_in_pages. congruence. }
  intros w2 Hs2 Hg2. eapply wp_upd; [done|done|done|]. intros w3 Hs3 Hg3. eapply HQ; [exact Hwd|exact HP|congruence|done].
Qed.

Lemma wp_commit w V k G σ cont d o n b ls a la cb :
  sees w V k -> txn_rel w V G σ cont d o n b ls -> sb_has_snapshot b <> 0 ->
  zget (n_snapshot n) 0 = Some (NRef a la) -> V !! a = Some (PInfo (PgBucket cb) true la) -> a <> g_sb G ->
  wp (slab_cpoint CPOINT_REGULAR) (fun _ w' => idle G (S (k + length ls)) (acommit σ) w') w.
Proof.
  intros Hs Htx Hsn Hsl Ha Hne. pose proof Htx as [Hm _ _ _ _ _ _].
  eapply (wp_walk w V k G σ cont d o n b ls (fun _ V1 k1 b1 n1 => k1 = S (k + length ls) /\ n1 = with_snapshot n 0 (NRef (g_sb G) (g_lb G)) /\
    sb_id b1 = 0 /\ bucket_rel V1 (g_sb G) b1 (acommit σ) /\ tree_rel (g_sb G) b1 d /\ old_pages (sb_entries b1) = 0%nat /\ sb_has_snapshot b1 = 0)); [done|done| |].
  { eapply wp_inner_cpoint; [done|done|done|done|done|done|].
    intros w1 V1 b1 n1 Hs1 Hg1 Hp1 Hb1 Hid1 Hd1 Ht1 Hk1 Hl1 Ho1 Hf1. exists V1, (S (k + length ls)), b1, n1.
    split; [split; try done; apply Hd1|by split_and!]. }
  intros w1 V1 k1 b1 n1 w' [_ Hg1 Hp1 Hb1 _ _ _] (-> & -> & Hid1 & Hd1 & Ht1 & Ho1 & Hf1) Hg Hs'.
  exists (<[g_sd G := PInfo (PgDir (set_sd_vector (Vec 0 0 None) d)) true (g_ld G)]> V1), cont, (set_sd_vector (Vec 0 0 None) d), o,
    (with_snapshot n 0 (NRef (g_sb G) (g_lb G))), b1.
  pose proof Hp1 as [Q1 (wc1 & lc1 & Q2) Q3 Q4 (wo1 & lo1 & Q5) Q6 _ _ _].
  split_and!; [exact Hs'| |exact Hf1|by eapply zget_insert]. unfold bucket_in in Hb1.
  split; [by rewrite (globals_mode _ _ Hg)| |unfold bucket_in; by vlook|done| | |].
  - eapply path_rel_same; [exact Hp1|apply globals_cont; congruence|..]; try done; by vlook.
  - eapply bucket_rel_same; [done| |done]. apply same_data_insert; [apply same_data_refl|]. intros ???; congruence.
  - eapply tree_rel_same; [exact Ht1| |done|done]. intros i e E. by exists e.
  - split; [done|done|by rewrite Ho1|]. intros se Hse. by apply elem_of_nil in Hse.
Qed.

Lemma commit_idle G K σ w : active G K σ w -> (30 <= K)%nat ->
  wp (slab_cpoint CPOINT_REGULAR) (fun _ w' => idle G K (acommit σ) w') w.
Proof.
  intros (V & cont & d & o & n & b & ls & a & la & cb & Hs & Htx & Hsn & Hsl & Ha & Hne & _) HK.
  pose proof (vec_len _ _ _ _ _ _ _ _ _ _ Htx) as Hlen.
  eapply wp_mono; [by eapply wp_commit|]. intros [] w'. by replace (S (K - S (length ls) + length ls)) with K by lia.
Qed.
End relation.

(** ** Runs of transactions *)
Section runs.
Context {PS : Type} `{PL : PageAllocatorLaws PS}.
Implicit Types (w : world PS) (G : geom) (σ : amem).

(** The entries that can be stored to. *)
Definition storable σ (st : Z * list Z) : Prop := is_Some (a_now σ !! st.1).

Lemma storable_store σ st st' : storable σ st -> storable (astore σ st') st.
Proof.
  unfold storable, astore. cbn [a_now]. destruct (decide (st'.1 = st.1)) as [<-|]; [rewrite lookup_insert_eq; by eexists|].
  by rewrite lookup_insert_ne.
Qed.

Lemma storable_all σ stores sts : Forall (storable σ) sts -> Forall (storable (fold_left astore stores σ)) sts.
Proof.
  revert σ. induction stores as [|st stores IH]; intros σ Hs; [done|]. simpl. apply IH.
  eapply Forall_impl; [exact Hs|]. intros st' Hst'. by apply storable_store.
Qed.

Lemma stores_active G K stores : (30 <= K)%nat -> forall σ w, Forall (storable σ) stores -> active G K σ w ->
  wp (forM stores (store_entry (g_sb G))) (fun _ w' => active G K (fold_left astore stores σ) w') w.
Proof.
  intros HK. induction stores as [|[i bs] stores IH]; intros σ w Hst Ha; [by apply wp_ret|].
  apply Forall_cons in Hst as [Hi Hst]. simpl. apply wp_bind. eapply wp_mono; [by apply store_active|].
  intros [] w' Ha'. apply IH; [|done]. eapply Forall_impl; [exact Hst|]. intros st Hs. by apply (storable_store σ st (i, bs)).
Qed.

Lemma transaction_idle G K σ stores w : (30 <= K)%nat -> Forall (storable σ) stores -> idle G K σ w ->
  wp (transaction (g_sb G) stores) (fun _ w' => idle G K (atransaction σ stores) w') w.
Proof.
  intros HK Hst Hi. unfold transaction. apply wp_bind. eapply wp_mono; [apply (begin_active G K σ w); [lia|exact Hi]|].
  intros [] w1 H1. apply wp_bind. eapply wp_mono; [by apply stores_active|]. intros [] w2 H2. by apply commit_idle.
Qed.

(** What the program does, a call at a time, with the abstract memory beside
    it; the flag tells whether a transaction is open. *)
Inductive txn_step (sb : Z) : bool * amem * world PS -> bool * amem * world PS -> Prop :=
  | step_begin σ w w' : snapshot_bucket sb w = Ok tt w' -> txn_step sb (false, σ, w) (true, σ, w')
  | step_store σ w w' st : storable σ st -> store_entry sb st w = Ok tt w' ->
      txn_step sb (true, σ, w) (true, astore σ st, w')
  | step_commit σ w w' : slab_cpoint CPOINT_REGULAR w = Ok tt w' -> txn_step sb (true, σ, w) (false, acommit σ, w').

Definition txn_ok G K (s : bool * amem * world PS) : Prop :=
  match s with (false, σ, w) => idle G K σ w | (true, σ, w) => active G K σ w end.

Lemma txn_step_ok G K s s' : (30 <= K)%nat -> txn_ok G K s -> txn_step (g_sb G) s s' -> txn_ok G K s'.
Proof.
  intros HK Ho Hs. inversion Hs as [σ w w' E|σ w w' [i bs] Hst E|σ w w' E]; subst; simpl in Ho |- *.
  - assert (Hw : wp (snapshot_bucket (g_sb G)) (fun _ w1 => active G K σ w1) w) by (apply begin_active; [lia|done]).
    unfold wp in Hw. by rewrite E in Hw.
  - pose proof (store_active G K σ i bs w HK Hst Ho) as Hw. unfold wp in Hw. by rewrite E in Hw.
  - pose proof (commit_idle G K σ w Ho HK) as Hw. unfold wp in Hw. by rewrite E in Hw.
Qed.

Lemma reachable_ok G K s s' : (30 <= K)%nat -> txn_ok G K s -> rtc (txn_step (g_sb G)) s s' -> txn_ok G K s'.
Proof. intros HK Ho Hr. induction Hr as [|s1 s2 s3 Hs _ IH]; [done|]. apply IH. by eapply txn_step_ok. Qed.

(** In a state of the invariant, entry [i] holds the abstract contents. *)
Lemma page_file w V k a bs wr l : sees w V k -> V !! a = Some (PInfo (PgData bs) wr l) ->
  page_at w a = Some (PgData bs) /\ w_file w !! l = Some (PgData bs).
Proof.
  intros Hs E. destruct (sees_shows _ _ _ Hs _ _ E) as (E1 & _ & E2). cbn [pi_page pi_laddr] in *. split; [done|].
  unfold page_at in E1. rewrite E2 in E1. simpl in E1. destruct (w_file w !! l); simpl in E1; congruence.
Qed.

Definition entry_holds w (se : Z) (now old : list Z) : Prop :=
  let e := se_at w se in
  page_at w (d_maddr (se_data_current e)) = Some (PgData now) /\
  page_at w (d_maddr (se_data_snapshot e)) = Some (PgData old) /\
  w_file w !! d_laddr (se_data_snapshot e) = Some (PgData old).

Lemma bucket_holds w V k sb b lb σ i : sees w V k -> bucket_in V sb b lb -> bucket_rel V sb b σ -> is_Some (a_now σ !! i) ->
  exists now old, a_now σ !! i = Some now /\ a_old σ !! i = Some old /\ entry_holds w (se_addr sb i) now old.
Proof.
  intros Hs Hb Hd Hi. destruct (br_known _ _ _ _ Hd i Hi) as (e & Ei & Hini).
  destruct (br_entry _ _ _ _ Hd i e Ei Hini) as (_ & now & old & En & Eo & Hr). exists now, old. split_and!; [done|done|].
  destruct (bucket_address _ _ _ _ _ _ _ _ _ Hs Hb Hd Ei) as (A1 & A2 & A3).
  assert (Hse : se_at w (se_addr sb i) = e).
  { assert (Hat : entry_at V (se_addr sb i) = Some e) by (unfold entry_at; unfold bucket_in in Hb; by rewrite A1, Hb).
    by erewrite se_at_view, Hat by (done || rewrite Hat; by eexists). }
  unfold entry_holds. rewrite Hse. change (d_maddr (se_data_current e)) with (cur_page e).
  change (d_maddr (se_data_snapshot e)) with (snap_page e).
  destruct Hr as [[(E1 & E2 & E3) ->]|(_ & E1 & E2)].
  - rewrite E2, <- E1. destruct (page_file _ _ _ _ _ _ _ Hs E3). by split_and!.
  - destruct (page_file _ _ _ _ _ _ _ Hs E1), (page_file _ _ _ _ _ _ _ Hs E2). by split_and!.
Qed.

Lemma txn_rel_holds w V k G σ cont d o n b ls i : sees w V k -> txn_rel w V G σ cont d o n b ls -> is_Some (a_now σ !! i) ->
  exists now old, a_now σ !! i = Some now /\ a_old σ !! i = Some old /\ entry_holds w (se_addr (g_sb G) i) now old.
Proof. intros Hs [_ _ Hb _ Hd _ _] Hi. by eapply bucket_holds. Qed.

Lemma txn_ok_holds G K t σ w i : txn_ok G K (t, σ, w) -> is_Some (a_now σ !! i) ->
  exists now old, a_now σ !! i = Some now /\ a_old σ !! i = Some old /\ entry_holds w (se_addr (g_sb G) i) now old.
Proof.
  destruct t; simpl.
  - intros (V & cont & d & o & n & b & ls & a & la & cb & Hs & Htx & _). by eapply txn_rel_holds.
  - intros (V & cont & d & o & n & b & Hs & Htx & _). by eapply txn_rel_holds.
Qed.
End runs.

(** ** The example world is between transactions *)
Definition demo_geom (p : demo_pages) : geom :=
  Geom (dp_c p).1 (dp_d p).1 (dp_o p).1 (dp_i p).1 (dp_b p).1 (dp_d p).2 (dp_i p).2 (dp_b p).2.
Definition demo_mem : amem := let m : gmap Z (list Z) := {[0 := replicate 4096 0]} in AMem m m.

Lemma demo_entry_get p i e : zget (sb_entries (demo_bucket p)) i = Some e ->
  (i = 0 /\ e = demo_entry p) \/ (i <> 0 /\ e = zero_entry).
Proof.
  intros Ee. pose proof (zget_lt _ _ _ Ee) as Hlt. unfold zget in Ee. destruct (Z.leb_spec 0 i); [|lia].
  destruct (Z.to_nat i) as [|j] eqn:Ej.
  - left. injection Ee as <-. split; [lia|done].
  - right. split; [lia|]. change ((replicate 27 zero_entry) !! j = Some e) in Ee. by apply lookup_replicate in Ee as [-> _].
Qed.

Lemma demo_pages_of p : pages_of (demo_entry p) = [(dp_m p).1].
Proof.
  unfold pages_of. change (SLAB_ENTRY_IS_INIT (demo_entry p)) with true. cbv iota.
  change (cur_page (demo_entry p)) with (dp_m p).1. change (snap_page (demo_entry p)) with (dp_m p).1. by rewrite Z.eqb_refl.
Qed.

Lemma demo_txn_rel w p : demo w p -> txn_rel w (demo_V p) (demo_geom p) demo_mem (demo_container p) (demo_dir p)
  (demo_node SLAB_OUTER_ENTRIES (dp_i p)) (demo_node SLAB_INNER_ENTRIES (dp_b p)) (demo_bucket p) [].
Proof.
  intros H. destruct (demo_lookups w p H) as (Hc & Hd & Ho & Hi & Hb & Hm). destruct (demo_se_ok w p H) as (A1 & A2 & A3).
  split; [by eapply do_mode| |done|done| | |].
  - split; [by eapply do_cont|by do 2 eexists|done|done|by do 2 eexists|done|split; [done|]..|by split|done].
    + by exists (dp_o p).2, (NRef (dp_o p).1 (dp_o p).2).
    + by exists (dp_i p).2, (NRef (dp_i p).1 (dp_i p).2).
  - split; [split|..].
    + done.
    + intros i e Ee. destruct (demo_entry_get p i e Ee) as [[_ ->]|[_ ->]]; [rewrite demo_pages_of|by apply NoDup_singleton].
      rewrite !NoDup_cons, not_elem_of_cons. split_and!; try apply not_elem_of_nil; [|constructor].
      cbn [demo_geom g_sb]. intros E. rewrite E in Hb. congruence.
    + intros i j ei ej x Ei Ej Hij Hx. destruct (demo_entry_get p i ei Ei) as [[-> ->]|[_ ->]]; [|by apply elem_of_nil in Hx].
      destruct (demo_entry_get p j ej Ej) as [[-> ->]|[_ ->]]; [done|apply not_elem_of_nil].
    + intros i e x Ee Hx. destruct (demo_entry_get p i e Ee) as [[-> ->]|[_ ->]]; [|by apply elem_of_nil in Hx].
      rewrite demo_pages_of in Hx. apply list_elem_of_singleton in Hx as ->. by eexists.
    + intros i e Ee. by destruct (demo_entry_get p i e Ee) as [[_ ->]|[_ ->]].
    + intros i e Ee Hini. destruct (demo_entry_get p i e Ee) as [[-> ->]|[_ ->]]; [|done]. split; [done|].
      exists (replicate 4096 0), (replicate 4096 0). split_and!; [done|done|]. left. split; [|done]. by split_and!.
    + intros i [x Hx]. unfold demo_mem in Hx. cbn [a_now] in Hx. apply lookup_singleton_Some in Hx as [<- _]. by exists (demo_entry p).
  - split.
    + repeat constructor.
    + intros se Hse. simpl in Hse. apply list_elem_of_singleton in Hse as ->.
      split_and!; [done|by rewrite A2|by exists (demo_entry p)].
    + intros i e Ee Hini. destruct (demo_entry_get p i e Ee) as [[-> ->]|[_ ->]]; [|done]. by left.
  - split; [by unfold vector_repr, zlen|by unfold zlen; simpl; lia| |].
    + cbn [demo_bucket sb_entries old_pages]. unfold is_old at 1. change (cur_page (demo_entry p)) with (dp_m p).1.
      change (snap_page (demo_entry p)) with (dp_m p).1. by rewrite Z.eqb_refl, andb_false_r.
    + intros se Hse. by apply elem_of_nil in Hse.
Qed.

Lemma demo_idle w p : demo w p -> idle (demo_geom p) 58 demo_mem w.
Proof.
  intros H. do 6 eexists. split_and!; [by eapply do_sees|by apply demo_txn_rel|done|done].
Qed.

(** ** Properties *)

(** C1 Transactions refine the abstract memory.  Started between transactions
    with at least 30 free pages, a list of transactions, each a snapshot of
    the bucket, stores to entries of it, and a checkpoint, runs without a
    fault that is not repaired and ends between transactions, with the
    contents the abstract transactions give and the same number of free
    pages. *)
Theorem transactions_refine {PS} `{PL : PageAllocatorLaws PS} (w : world PS) G K σ txns :
  (30 <= K)%nat -> idle G K σ w -> Forall (Forall (storable σ)) txns ->
  wp (forM txns (transaction (g_sb G))) (fun _ w' => idle G K (fold_left atransaction txns σ) w') w.
Proof.
  intros HK. revert σ w. induction txns as [|stores txns IH]; intros σ w Hi Hst; [by apply wp_ret|].
  apply Forall_cons in Hst as [H1 H2]. simpl. apply wp_bind. eapply wp_mono; [by apply transaction_idle|].
  intros [] w' Hi'. apply IH; [done|]. eapply Forall_impl; [exact H2|]. intros sts Hs.
  exact (storable_all σ stores sts Hs).
Qed.

Lemma transactions_refine_witness : exists (w : world fmst) p,
  wp (forM [[(0, replicate 4096 1); (0, replicate 4096 2)]; []; [(0, replicate 4096 3)]] (transaction (dp_b p).1))
    (fun _ w' => idle (demo_geom p) 58 (AMem {[0 := replicate 4096 3]} {[0 := replicate 4096 3]}) w') w.
Proof.
  destruct demo_exists as (w & p & H). exists w, p.
  eapply wp_mono; [apply (transactions_refine w (demo_geom p) 58 demo_mem); [lia|exact (demo_idle w p H)|]|].
  - repeat constructor; exists (replicate 4096 0); reflexivity.
  - intros [] w' Hi. exact Hi.
Defined.

(** C2 At every moment of every run of transactions, an entry's data page
    holds its current content, and the page its snapshot refers to, also at
    the recorded place of the file, holds the content of the last checkpoint;
    and the calls the program may make next do not fail. *)
Theorem committed_content_kept {PS} `{PL : PageAllocatorLaws PS} G K σ0 (w0 : world PS) t σ w :
  (30 <= K)%nat -> idle G K σ0 w0 -> rtc (txn_step (g_sb G)) (false, σ0, w0) (t, σ, w) ->
  (forall i, is_Some (a_now σ !! i) -> exists now old, a_now σ !! i = Some now /\ a_old σ !! i = Some old /\
     entry_holds w (se_addr (g_sb G) i) now old) /\
  (t = false -> exists w', txn_step (g_sb G) (t, σ, w) (true, σ, w')) /\
  (t = true -> (exists w', txn_step (g_sb G) (t, σ, w) (false, acommit σ, w')) /\
     forall st, storable σ st -> exists w', txn_step (g_sb G) (t, σ, w) (true, astore σ st, w')).
Proof.
  intros HK Hi Hr. assert (Ho : txn_ok G K (t, σ, w)) by (by eapply (reachable_ok G K (false, σ0, w0))).
  split_and!; [intros i; by apply (txn_ok_holds G K t σ w i)| |]; intros ->; simpl in Ho.
  - assert (Hb : wp (snapshot_bucket (g_sb G)) (fun _ w1 => active G K σ w1) w) by (apply begin_active; [lia|done]).
    apply wp_run in Hb as ([] & w' & E & _). exists w'. by constructor.
  - split.
    + pose proof (commit_idle G K σ w Ho HK) as Hb. apply wp_run in Hb as ([] & w' & E & _). exists w'. by constructor.
    + intros [i bs] Hst. pose proof (store_active G K σ i bs w HK Hst Ho) as Hb.
      apply wp_run in Hb as ([] & w' & E & _). exists w'. by constructor.
Qed.

Lemma committed_content_kept_witness : exists (w : world fmst) p w',
  rtc (txn_step (dp_b p).1) (false, demo_mem, w) (true, astore demo_mem (0, replicate 4096 1), w') /\
  entry_holds w' (se_addr (dp_b p).1 0) (replicate 4096 1) (replicate 4096 0).
Proof.
  destruct demo_exists as (w & p & H). exists w, p. pose proof (demo_idle w p H) as Hi.
  assert (Hk : (30 <= 58)%nat) by lia.
  destruct (committed_content_kept (demo_geom p) 58 demo_mem w false demo_mem w Hk Hi (rtc_refl _ _)) as (_ & Hb & _).
  destruct (Hb eq_refl) as (w1 & S1).
  destruct (committed_content_kept (demo_geom p) 58 demo_mem w true demo_mem w1 Hk Hi (rtc_once _ _ S1)) as (_ & _ & Hst).
  destruct (Hst eq_refl) as [_ Hst0].
  destruct (Hst0 (0, replicate 4096 1)) as (w2 & S2); [exists (replicate 4096 0); reflexivity|].
  pose proof (rtc_l _ _ _ _ S1 (rtc_once _ _ S2)) as Hr.
  destruct (committed_content_kept (demo_geom p) 58 demo_mem w true _ w2 Hk Hi Hr) as (Hh & _).
  destruct (Hh 0) as (now & old & En & Eo & He); [eexists; reflexivity|].
  exists w2. split; [exact Hr|]. injection En as <-. injection Eo as <-. exact He.
Defined.
