(* ===== verification/Restore.v ===== *)
(** * Restore: [src/restore.c]

    [slab_map] walks the slab tree from the file offset of a directory, turns
    the offsets into addresses, and rebuilds the trees, the queues and the
    free list.  After a crash in a checkpoint ([CPOINT_INCOMPLETE]) both
    versions are mapped; otherwise ([CPOINT_COMPLETE]) the snapshot becomes
    the current version. *)
From Stdlib Require Import ZArith Lia.
From stdpp Require Import base numbers gmap option list.
From S2P Require Import Prelude Macros Bitstring Vector Queue Process RBTree PageAlloc SlabLayout World Snapshot Slab Alloc.
Open Scope Z_scope.

Section restore.
Context {PS : Type} `{PA : PageAllocator PS}.
Notation M := (M (world PS)).

Definition index_slab_entry (sd se : Z) : M unit :=
  let! e := get_se se in
  if SLAB_ENTRY_IS_INIT e then
    let! d := read (T := slab_dir) sd in
    let! found := find_size d (se_size e) in
    match found with
    | Some es =>
        let! full := slab_entry_full se in
        if full then on_es_list es (fun q => STAILQ_INSERT_TAIL q se)
        else on_es_list es (fun q => STAILQ_INSERT_HEAD q se)
    | None =>
        let! es := slab_entry_size_init (s32 (se_size e)) in
        insert_size sd es ;;;
        on_es_list es (fun q => STAILQ_INSERT_TAIL q se)
    end ;;;
    insert_maddr sd se
  else on_free_list sd (fun q => STAILQ_INSERT_TAIL q se).

(** [a = mappage(...)], the four references of an entry after a crash. *)
Definition map_entry_incomplete (se : Z) : M unit :=
  let! e := get_se se in
  let! a := mappage (d_laddr (se_data_current e)) in
  upd_se se (fun e => set_se_data_current (set_d_maddr a (se_data_current e)) e) ;;;
  let! e := get_se se in
  let! a := mappage (d_laddr (se_data_snapshot e)) in
  upd_se se (fun e => set_se_data_snapshot (set_d_maddr a (se_data_snapshot e)) e) ;;;
  let! e := get_se se in
  let! a := mappage (r_laddr (se_ptr_current e)) in
  upd_se se (fun e => set_se_ptr_current (set_r_maddr a (se_ptr_current e)) e) ;;;
  let! e := get_se se in
  let! a := mappage (r_laddr (se_ptr_snapshot e)) in
  upd_se se (fun e => set_se_ptr_snapshot (set_r_maddr a (se_ptr_snapshot e)) e).

Definition map_entry_complete (se : Z) : M unit :=
  let! e := get_se se in
  assert_ (d_laddr (se_data_current e) =? d_laddr (se_data_snapshot e)) ;;;
  let! a := mappage (d_laddr (se_data_snapshot e)) in
  upd_se se (fun e => set_se_data_current (set_d_maddr a (se_data_current e)) e) ;;;
  upd_se se (fun e => set_se_data_snapshot (set_d_maddr (d_maddr (se_data_current e)) (se_data_snapshot e)) e) ;;;
  upd_se se (fun e => set_se_data_current (set_d_laddr (d_laddr (se_data_snapshot e)) (se_data_current e)) e) ;;;
  let! e := get_se se in
  assert_ (r_laddr (se_ptr_current e) =? r_laddr (se_ptr_snapshot e)) ;;;
  let! a := mappage (r_laddr (se_ptr_snapshot e)) in
  upd_se se (fun e => set_se_ptr_current (set_r_maddr a (se_ptr_current e)) e) ;;;
  upd_se se (fun e => set_se_ptr_snapshot (set_r_maddr (r_maddr (se_ptr_current e)) (se_ptr_snapshot e)) e) ;;;
  upd_se se (fun e => set_se_ptr_current (set_r_laddr (r_laddr (se_ptr_snapshot e)) (se_ptr_current e)) e).

Definition slab_bucket_map (sd laddr : Z) (type : cpoint_type) (indexing : bool) : M Z :=
  let! sb := mappage laddr in
  for_ (Z.to_nat SLAB_BUCKET_ENTRIES) 0 (fun i =>
    let se := se_addr sb i in
    let! e := get_se se in
    when (SLAB_ENTRY_IS_INIT e)
      (match type with
       | CPOINT_INCOMPLETE => map_entry_incomplete se
       | CPOINT_COMPLETE => map_entry_complete se
       | _ => fail HandleError
       end) ;;;
    when indexing (index_slab_entry sd se)) ;;;
  ret sb.

(** The loop body common to the three kinds of node: [get] and [set] access
    the node, [map_cur] and [map_snap] map the page a reference leads to. *)
Definition map_ref (get : M slab_node) (set : (slab_node -> option slab_node) -> M unit)
    (map_cur map_snap : Z -> M Z) (type : cpoint_type) (i : Z) : M unit :=
  let! n := get in
  let! cur := from_opt OutOfBounds (zget (n_current n) i) in
  let! snap := from_opt OutOfBounds (zget (n_snapshot n) i) in
  when (negb (NOT_CS_CONSISTENT (n_laddr cur) (n_laddr snap) =? 0)) (fail HandleError) ;;;
  when (negb (n_laddr cur =? 0))
    (match type with
     | CPOINT_INCOMPLETE =>
         let! a := map_cur (n_laddr cur) in
         set (set_current_maddr i a) ;;;
         let! n := get in
         let! snap := from_opt OutOfBounds (zget (n_snapshot n) i) in
         let! a := map_snap (n_laddr snap) in
         set (set_snapshot_maddr i a)
     | CPOINT_COMPLETE =>
         let! a := map_cur (n_laddr snap) in
         set (set_current_maddr i a) ;;;
         set (set_snapshot_maddr i a) ;;;
         set (set_current_laddr i (n_laddr snap))
     | _ => fail HandleError
     end).

Definition slab_inner_map (sd laddr : Z) (type : cpoint_type) : M Z :=
  let! si := mappage laddr in
  let get := let! n := read (T := inner_node) si in ret (the_inner n) in
  let! n := get in
  for_ (Z.to_nat (n_index n)) 0
    (map_ref get (upd_inner si)
       (fun l => slab_bucket_map sd l type true) (fun l => slab_bucket_map sd l type false) type) ;;;
  ret si.

Definition slab_outer_map (sd laddr : Z) (type : cpoint_type) : M Z :=
  let! so := mappage laddr in
  let get := let! o := read (T := outer_node) so in ret (the_outer o) in
  let! n := get in
  for_ (Z.to_nat (n_index n)) 0
    (map_ref get (upd_outer so)
       (fun l => slab_inner_map sd l type) (fun l => slab_inner_map sd l type) type) ;;;
  ret so.

Definition slab_map (laddr : Z) (type : cpoint_type) : M Z :=
  let! sd := mappage laddr in
  upd sd (set_sd_maddr_root Leaf) ;;;
  upd sd (set_sd_size_root Leaf) ;;;
  upd sd (set_sd_free_list STAILQ_INIT) ;;;
  let get := let! d := read (T := slab_dir) sd in ret (sd_node d) in
  let! n := get in
  for_ (Z.to_nat (n_index n)) 0
    (map_ref get (upd_dir sd)
       (fun l => slab_outer_map sd l type) (fun l => slab_outer_map sd l type) type) ;;;
  ret sd.
End restore.
