(* ===== verification/Recovery.v ===== *)
(** * Recovery of a bucket after a restart

    What [slab_bucket_map] does after a restart that follows a completed
    checkpoint, and what it means for the transactions of [Txn]: the file a
    process leaves between two transactions, mapped again at other addresses,
    gives back the committed content of every entry.

    The pages have to be writable; [restore_after_checkpoint_fails] shows
    that the mappers do not make them so.  Here the bucket is mapped without
    the index over its entries, as [slab_inner_map] does for snapshots; the
    walk with the index is in [Index] and [Remap]. *)
From Stdlib Require Import ZArith Lia.
From stdpp Require Import base numbers gmap option list.
From S2P Require Import Prelude Macros Bitstring Vector Queue Process RBTree FixedMapper PageAlloc.
From S2P Require Import SlabLayout World Demo Snapshot Slab Alloc Checkpoint Txn Restore.
Open Scope Z_scope.

(** An entry whose data page, at the place of its snapshot, is mapped at
    [pg] of that place. *)
Definition restored (pg : Z -> Z) (e : slab_entry) : slab_entry :=
  let l := d_laddr (se_data_snapshot e) in
  let lp := r_laddr (se_ptr_snapshot e) in
  SlabEntry (se_id e) (se_size e) (DRef (pg l) l (d_bitmap (se_data_current e))) (DRef (pg l) l (d_bitmap (se_data_snapshot e)))
    (PRef (r_idx (se_ptr_current e)) (pg lp) lp) (PRef (r_idx (se_ptr_snapshot e)) (pg lp) lp) (se_list e).
Definition restored_if_init (pg : Z -> Z) (e : slab_entry) : slab_entry := if SLAB_ENTRY_IS_INIT e then restored pg e else e.

Definition with_entries (b : slab_bucket) (es : list slab_entry) : slab_bucket := SlabBucket (sb_has_snapshot b) (sb_id b) es.
Definition restored_bucket (pg : Z -> Z) (b : slab_bucket) : slab_bucket := with_entries b (map (restored_if_init pg) (sb_entries b)).

(** The two [assert]s of the walk. *)
Definition consistent (e : slab_entry) : Prop :=
  d_laddr (se_data_current e) = d_laddr (se_data_snapshot e) /\ r_laddr (se_ptr_current e) = r_laddr (se_ptr_snapshot e).

Section recovery.
Context {PS : Type} `{PA : PageAllocator PS}.
Implicit Types (w : world PS).

(** A page of the file is replaced. *)
Definition wrote w (l : Z) (p : page) : world PS := set_w_file (<[l := p]> (w_file w)) w.

Lemma wrote_wrote w l p q : wrote (wrote w l p) l q = wrote w l q.
Proof. unfold wrote, set_w_file. destruct w. simpl. by rewrite insert_insert_eq. Qed.
Lemma wrote_id w l p : w_file w !! l = Some p -> wrote w l p = w.
Proof. intros E. unfold wrote, set_w_file. rewrite insert_id by done. by destruct w. Qed.

Record bucket_at w (sb lb : Z) (b : slab_bucket) : Prop := {
  ba_map : vm_of (w_pa w) !! sb = Some lb;
  ba_write : writable w sb = true;
  ba_file : w_file w !! lb = Some (PgBucket b);
}.

Lemma bucket_at_wrote w sb lb b b' : bucket_at w sb lb b -> bucket_at (wrote w lb (PgBucket b')) sb lb b'.
Proof. intros [H1 H2 _]. split; [done|done|]. apply lookup_insert_eq. Qed.

Lemma wp_read_at w sb lb b (Q : slab_bucket -> world PS -> Prop) : bucket_at w sb lb b -> Q b w -> wp (read sb) Q w.
Proof. intros [H1 _ H3] HQ. eapply wp_read; [unfold page_at; rewrite H1; simpl; by rewrite H3|done|done]. Qed.

Lemma wp_get_se_at w sb lb b se e (Q : slab_entry -> world PS -> Prop) :
  bucket_at w sb lb b -> se_page se = sb -> entry_of b se = Some e -> Q e w -> wp (get_se se) Q w.
Proof. intros Hb <- He HQ. unfold get_se. apply wp_bind. eapply wp_read_at; [exact Hb|]. by eapply wp_from_opt. Qed.

Lemma wp_upd_se_at w sb lb b se e f (Q : unit -> world PS -> Prop) :
  bucket_at w sb lb b -> se_page se = sb -> entry_of b se = Some e ->
  (bucket_at (wrote w lb (PgBucket (put_entry b se (f e)))) sb lb (put_entry b se (f e)) ->
   Q tt (wrote w lb (PgBucket (put_entry b se (f e))))) -> wp (upd_se se f) Q w.
Proof.
  intros Hb <- He HQ. specialize (HQ (bucket_at_wrote _ _ _ _ _ Hb)). unfold upd_se. apply wp_bind. eapply wp_read_at; [exact Hb|].
  apply wp_bind. eapply wp_from_opt; [done|]. apply wp_bind. eapply wp_from_opt; [by eapply with_entry_put|].
  destruct Hb as [H1 H2 _]. unfold write. eapply wp_ok; [|exact HQ]. unfold store, bind, gets. rewrite H2. simpl.
  unfold store_raw. by rewrite H1, H2.
Qed.

(** ** One entry *)
Section entry.
Context (pg : Z -> Z) (w0 : world PS).
Context (Hmap : forall l, page_allocator_mappage l (w_pa w0) = Ok (pg l) (w_pa w0)).

Lemma wp_mappage_at w l (Q : Z -> world PS -> Prop) : w_pa w = w_pa w0 -> Q (pg l) w -> wp (mappage l) Q w.
Proof using Hmap.
  intros Ew HQ. eapply wp_ok; [|exact HQ]. unfold mappage, on_pa, zoom. rewrite Ew, Hmap, <- Ew. by destruct w.
Qed.

Lemma wp_map_entry_complete w sb lb b se e (Q : unit -> world PS -> Prop) :
  w_pa w = w_pa w0 -> bucket_at w sb lb b -> se_page se = sb -> entry_of b se = Some e -> consistent e ->
  Q tt (wrote w lb (PgBucket (put_entry b se (restored pg e)))) -> wp (map_entry_complete se) Q w.
Proof using Hmap.
  intros Ew Hb Ese Ee [Hc1 Hc2] HQ. unfold map_entry_complete.
  apply wp_bind. eapply wp_get_se_at; [exact Hb|exact Ese|exact Ee|].
  apply wp_bind, wp_assert; [by apply Z.eqb_eq|]. apply wp_bind, wp_mappage_at; [done|].
  apply wp_bind. eapply wp_upd_se_at; [exact Hb|exact Ese|exact Ee|]. intros Hb1.
  apply wp_bind. eapply wp_upd_se_at; [exact Hb1|exact Ese|by eapply entry_put|]. rewrite put_put, wrote_wrote. intros Hb2.
  apply wp_bind. eapply wp_upd_se_at; [exact Hb2|exact Ese|by eapply entry_put|]. rewrite put_put, wrote_wrote. intros Hb3.
  apply wp_bind. eapply wp_get_se_at; [exact Hb3|exact Ese|by eapply entry_put|].
  apply wp_bind, wp_assert; [by apply Z.eqb_eq|]. apply wp_bind, wp_mappage_at; [done|].
  apply wp_bind. eapply wp_upd_se_at; [exact Hb3|exact Ese|by eapply entry_put|]. rewrite put_put, wrote_wrote. intros Hb4.
  apply wp_bind. eapply wp_upd_se_at; [exact Hb4|exact Ese|by eapply entry_put|]. rewrite put_put, wrote_wrote. intros Hb5.
  eapply wp_upd_se_at; [exact Hb5|exact Ese|by eapply entry_put|]. rewrite put_put, wrote_wrote. intros _. exact HQ.
Qed.

(** ** The bucket *)
Definition restored_upto (b : slab_bucket) (i : Z) : slab_bucket :=
  with_entries b (map (restored_if_init pg) (take (Z.to_nat i) (sb_entries b)) ++ drop (Z.to_nat i) (sb_entries b)).

Lemma restored_upto_step b se i e : zget (sb_entries b) i = Some e -> SLAB_ENTRY_INDEX se = i ->
  entry_of (restored_upto b i) se = Some e /\ put_entry (restored_upto b i) se (restored_if_init pg e) = restored_upto b (i + 1).
Proof using.
  intros Ee Ei. pose proof (zget_lt _ _ _ Ee) as Hlt. apply zget_Some_nat in Ee. unfold entry_of, put_entry. rewrite Ei. unfold zget, zlen in *.
  destruct (Z.leb_spec 0 i); [|lia]. unfold restored_upto, with_entries. cbn [sb_entries sb_has_snapshot sb_id].
  assert (Hl : length (map (restored_if_init pg) (take (Z.to_nat i) (sb_entries b))) = Z.to_nat i) by (rewrite length_map, length_take; lia).
  replace (Z.to_nat (i + 1)) with (S (Z.to_nat i)) by lia. rewrite (drop_S _ e) by done. split.
  - rewrite lookup_app_r by lia. by rewrite Hl, Nat.sub_diag.
  - f_equal. rewrite insert_app_r_alt by lia. rewrite Hl, Nat.sub_diag. simpl. rewrite (take_S_r _ _ e) by done. by rewrite map_app, <- app_assoc.
Qed.

Lemma wp_slab_bucket_map w sb lb b sd (Q : Z -> world PS -> Prop) :
  w_pa w = w_pa w0 -> bucket_at w sb lb b -> pg lb = sb -> zlen (sb_entries b) = SLAB_BUCKET_ENTRIES ->
  (sb mod PAGE_SIZE = 0 /\ 0 < sb /\ sb + PAGE_SIZE <= 2 ^ 64) ->
  (forall e, e ∈ sb_entries b -> SLAB_ENTRY_IS_INIT e = true -> consistent e) ->
  Q sb (wrote w lb (PgBucket (restored_bucket pg b))) -> wp (slab_bucket_map sd lb CPOINT_COMPLETE false) Q w.
Proof using Hmap.
  intros Ew Hb Epg Hlen (Hal & Hpos & Htop) Hcons HQ. unfold slab_bucket_map. apply wp_bind, wp_mappage_at; [done|]. rewrite Epg.
  apply wp_bind. apply (wp_for (fun i w' => w' = wrote w lb (PgBucket (restored_upto b i)))).
  - unfold restored_upto, with_entries. simpl. symmetry. destruct b. apply wrote_id, (ba_file _ _ _ _ Hb).
  - intros i w1 Hi ->. change (Z.of_nat (Z.to_nat SLAB_BUCKET_ENTRIES)) with SLAB_BUCKET_ENTRIES in Hi.
    destruct (zget_total (sb_entries b) i) as [e Ee]; [lia|].
    destruct (se_addr_decode sb i) as [E1 E2]; [done|done|done|lia|].
    destruct (restored_upto_step b (se_addr sb i) i e Ee E2) as [S1 S2].
    pose proof (bucket_at_wrote _ _ _ _ (restored_upto b i) Hb) as Hbi.
    apply wp_bind. eapply wp_get_se_at; [exact Hbi|exact E1|exact S1|].
    apply wp_bind. destruct (SLAB_ENTRY_IS_INIT e) eqn:Hini; cbn [when].
    + eapply wp_map_entry_complete; [done|exact Hbi|exact E1|exact S1| |].
      * apply Hcons; [|done]. apply list_elem_of_lookup. exists (Z.to_nat i). by apply zget_Some_nat.
      * apply wp_ret. rewrite wrote_wrote. f_equal. f_equal. rewrite <- S2. unfold restored_if_init. by rewrite Hini.
    + apply wp_ret, wp_ret. f_equal. f_equal. rewrite <- S2. unfold restored_if_init. rewrite Hini.
      unfold put_entry. rewrite E2. rewrite list_insert_id; [by unfold restored_upto, with_entries|]. 
      unfold entry_of in S1. rewrite E2 in S1. by apply zget_Some_nat.
  - intros w1 ->. apply wp_ret. assert (E : restored_upto b (0 + Z.of_nat (Z.to_nat SLAB_BUCKET_ENTRIES)) = restored_bucket pg b).
    { unfold restored_upto, restored_bucket. unfold zlen in Hlen. rewrite take_ge, drop_ge, app_nil_r by lia. done. }
    by rewrite E.
Qed.
End entry.
End recovery.

(** ** A restart between two transactions

    The new process [w] has the file of the old one [w0]; a page of the file
    that was mapped is mapped again, at [pg] of its place, which is also what
    [page_allocator_mappage] answers. *)
Record restarted {PS} `{PageAllocator PS} (w0 w : world PS) (pg : Z -> Z) : Prop := {
  rs_file : w_file w = w_file w0;
  rs_mappage : forall l, page_allocator_mappage l (w_pa w) = Ok (pg l) (w_pa w);
  rs_vm : forall a l, vm_of (w_pa w0) !! a = Some l -> vm_of (w_pa w) !! pg l = Some l;
}.

Definition page_address (a : Z) : Prop := a mod PAGE_SIZE = 0 /\ 0 < a /\ a + PAGE_SIZE <= 2 ^ 64.

(** What the mappers answer. *)
Lemma fixed_mappage (s : fmst) l : page_allocator_mappage l s = Ok (u64 (fm_start_addr (fs_fm s) + l)) s.
Proof. done. Qed.

(** A page in use of the fixed mapper is where its place says. *)
Lemma fixed_linear (s : fmst) U k a l : fm_inv s U k -> vm_of s !! a = Some l -> u64 (fm_start_addr (fs_fm s) + l) = a.
Proof.
  intros (start & n & ps & F & Hwf & _ & Htop & _) E. pose proof (fw_mapped _ _ _ _ _ Hwf) as Hm.
  destruct (mp_only _ _ _ Hm a) as (i & Hi & ->); [by eexists|]. unfold vm_of in E. simpl in E. rewrite (mp_vm _ _ _ Hm i Hi) in E.
  injection E as <-. rewrite (mp_start _ _ _ Hm). pose proof (mp_range _ _ _ Hm). apply wrap_id. unfold in_u, PAGE_SIZE in *. lia.
Qed.

(** The state [s] of a process that has not mapped anything yet, with the file
    of [s0], which may be longer than what [s0] maps of it, and the same range
    of addresses free. *)
Record file_again (s0 s : fmst) (m : Z) : Prop := {
  fa_file : p_file (fs_proc s) = PAGE_SIZE * m;
  fa_long : fm_file_size (fs_fm s0) <= PAGE_SIZE * m;
  fa_blank : p_vm (fs_proc s) = ∅;
  fa_maps : sorted_ranges (p_maps (fs_proc s));
  fa_place : map_hint (p_maps (fs_proc s)) (PAGE_SIZE * m) = fm_start_addr (fs_fm s0);
}.

(** A process that has just loaded the library, after the one of [w] has
    ended: only the file is left. *)
Definition new_process (w : world fmst) : world fmst :=
  let old := fs_proc (w_pa w) in
  World (Fmst (Proc [] ∅ ∅ (p_file old) (p_space old) 1 GLOBAL_STATS) ∅ ∅ (FixedMapperRec 0 0 0 None None None))
    (w_file w) ∅ None 0 0 ∅ true false.

(** Then the file is mapped where it was, and all of it is read-only. *)
Lemma reopened (s0 s : fmst) U k e m : fm_inv s0 U k -> file_again s0 s m ->
  wp (fixed_mapper_init e) (fun _ s' => fm_start_addr (fs_fm s') = fm_start_addr (fs_fm s0) /\
    forall a l, vm_of s0 !! a = Some l -> vm_of s' !! a = Some l /\ prot_of s' !! a = Some DEFAULT_MAPPING_PROT) s.
Proof.
  intros (start & n & ps & F & Hwf & _) [Hf Hlong Hvm Hmaps Hpl]. pose proof (fw_mapped _ _ _ _ _ Hwf) as Hm.
  pose proof (mp_pos _ _ _ Hm). pose proof (mp_range _ _ _ Hm) as [Hpos _]. rewrite (mp_start _ _ _ Hm) in *. rewrite (mp_size _ _ _ Hm) in Hlong.
  assert (Hnm : n <= m) by (unfold PAGE_SIZE in *; lia).
  eapply wp_mono; [apply (reopen_run s e m); [exact Hf|lia|exact Hvm|exact Hmaps|lia]|].
  rewrite Hpl. intros [] s' [Hm' Hp']. split; [by rewrite (mp_start _ _ _ Hm')|]. intros a l Ea. unfold vm_of, prot_of in *. simpl in *.
  destruct (mp_only _ _ _ Hm a) as (i & Hi & ->); [by eexists|]. rewrite (mp_vm _ _ _ Hm i Hi) in Ea. injection Ea as <-.
  split; [apply (mp_vm _ _ _ Hm'); lia|apply Hp'; lia].
Qed.

Lemma demo_again w p : demo w p -> file_again (w_pa w) (w_pa (new_process w)) 64.
Proof.
  intros H. pose proof (proj2 (do_mapper _ _ _ _ _ _ _ _ H)) as Hm. unfold mapped_at_hint in Hm.
  apply andb_prop in Hm as [Hm Hf]. apply andb_prop in Hm as [Hs Hm]. apply Z.eqb_eq in Hf, Hs, Hm. split; simpl.
  - exact Hf.
  - by rewrite Hm.
  - done.
  - apply sorted_ranges_nil.
  - rewrite Hs. vm_compute. reflexivity.
Qed.

Section restart.
Context {PS : Type} `{PL : PageAllocatorLaws PS}.
Implicit Types (w : world PS) (V : gmap Z pinfo) (G : geom).

Lemma shown_file w V k a p wr l : sees w V k -> V !! a = Some (PInfo p wr l) -> p <> PgZero ->
  vm_of (w_pa w) !! a = Some l /\ w_file w !! l = Some p.
Proof.
  intros Hs E Hp. destruct (sees_shows _ _ _ Hs _ _ E) as (E1 & _ & E2). cbn [pi_page pi_laddr] in *. split; [done|].
  unfold page_at in E1. rewrite E2 in E1. simpl in E1. destruct (w_file w !! l); simpl in E1; congruence.
Qed.

(** Between transactions every entry in use has one data page. *)
Lemma idle_clean w V k G σ cont d o n b i : sees w V k -> txn_rel w V G σ cont d o n b [] -> is_Some (a_now σ !! i) ->
  exists e bs, zget (sb_entries b) i = Some e /\ SLAB_ENTRY_IS_INIT e = true /\ a_old σ !! i = Some bs /\ clean_entry V e bs.
Proof.
  intros Hs Htx Hi. pose proof Htx as [_ _ _ _ Hd _ Hv]. destruct (br_known _ _ _ _ Hd i Hi) as (e & Ei & Hini).
  destruct (entries_clean _ _ _ _ _ _ _ Hd Hv Ei Hini) as (_ & bs & ? & ?). by exists e, bs.
Qed.

Lemma all_clean w V k G σ cont d o n b e : sees w V k -> txn_rel w V G σ cont d o n b [] ->
  e ∈ sb_entries b -> SLAB_ENTRY_IS_INIT e = true -> exists bs, clean_entry V e bs.
Proof.
  intros Hs Htx He Hini. destruct (elem_entry b e He) as [i Ei]. pose proof Htx as [_ _ _ _ Hd _ Hv].
  destruct (entries_clean _ _ _ _ _ _ _ Hd Hv Ei Hini) as (_ & bs & _ & Hc). by exists bs.
Qed.
End restart.

Lemma restored_get {PS} `{PageAllocator PS} (w : world PS) pg sb lb b i e : bucket_at w sb lb (restored_bucket pg b) -> page_address sb ->
  zget (sb_entries b) i = Some e -> SLAB_ENTRY_IS_INIT e = true -> 0 <= i < SLAB_BUCKET_ENTRIES -> se_at w (se_addr sb i) = restored pg e.
Proof.
  intros [H1 _ H3] (Hal & Hpos & Htop) Ee Hini Hi. destruct (se_addr_decode sb i) as [E1 E2]; [done|done|done|done|].
  unfold se_at. rewrite E1. unfold page_at. rewrite H1. simpl. rewrite H3. simpl. unfold entry_of. rewrite E2.
  unfold restored_bucket, with_entries. cbn [sb_entries]. unfold zget in *. destruct (0 <=? i); [|done].
  assert (El : map (restored_if_init pg) (sb_entries b) !! Z.to_nat i = Some (restored pg e)).
  { change (map ?f ?l) with (f <$> l). rewrite list_lookup_fmap, Ee. simpl. unfold restored_if_init. by rewrite Hini. }
  by rewrite El.
Qed.

(** Recovery of a bucket.  A process ends between two transactions; a new
    one maps the file at other addresses, the page of the bucket with write
    permission.  Then [slab_bucket_map] ends, and every entry leads, through
    both its references, to the content of the last checkpoint, at the
    address of the new mapping.  An entry without a pointer page gets the
    address of the page at place 0 as its pointer page. *)
Theorem restart_restores_committed {PS} `{PL : PageAllocatorLaws PS} (w0 w : world PS) V k G σ cont d o n b pg sd :
  sees w0 V k -> txn_rel w0 V G σ cont d o n b [] ->
  (forall e, e ∈ sb_entries b -> r_laddr (se_ptr_current e) = r_laddr (se_ptr_snapshot e)) ->
  restarted w0 w pg -> page_address (pg (g_lb G)) -> writable w (pg (g_lb G)) = true ->
  exists w', slab_bucket_map sd (g_lb G) CPOINT_COMPLETE false w = Ok (pg (g_lb G)) w' /\
    (forall i, is_Some (a_now σ !! i) -> exists old, a_old σ !! i = Some old /\
       entry_holds w' (se_addr (pg (g_lb G)) i) old old) /\
    (forall i e, zget (sb_entries b) i = Some e -> SLAB_ENTRY_IS_INIT e = true -> r_laddr (se_ptr_snapshot e) = 0 ->
       r_maddr (se_ptr_current (se_at w' (se_addr (pg (g_lb G)) i))) = pg 0).
Proof.
  intros Hs Htx Hptr [Rf Rm Rv] Ha Hw. pose proof Htx as [_ _ Hb _ Hd _ _].
  pose proof (cr_len _ _ _ (br_ready _ _ _ _ Hd)) as Hlen.
  destruct (shown_file _ _ _ _ _ _ _ Hs Hb) as [Bv Bf]; [done|].
  assert (Hba : bucket_at w (pg (g_lb G)) (g_lb G) b) by (split; [by eapply Rv|done|by rewrite Rf]).
  assert (Hm : wp (slab_bucket_map sd (g_lb G) CPOINT_COMPLETE false)
    (fun r w' => r = pg (g_lb G) /\ w' = wrote w (g_lb G) (PgBucket (restored_bucket pg b))) w).
  { eapply (wp_slab_bucket_map pg w); [exact Rm|done|exact Hba|done|exact Hlen|exact Ha| |done].
    intros e He Hini. split; [|by apply Hptr]. by destruct (all_clean _ _ _ _ _ _ _ _ _ _ _ Hs Htx He Hini) as (bs & _ & E & _). }
  destruct (proj1 (wp_run _ _ _) Hm) as (r & w' & E & -> & Ew). exists w'. split; [exact E|].
  pose proof (bucket_at_wrote _ _ _ _ (restored_bucket pg b) Hba) as Hba'. rewrite <- Ew in Hba'. split.
  - intros i Hi. destruct (idle_clean _ _ _ _ _ _ _ _ _ _ _ Hs Htx Hi) as (e & bs & Ee & Hini & Eo & Hc1 & Hc2 & Hc3).
    exists bs. split; [done|]. pose proof (zget_lt _ _ _ Ee) as Hlt. rewrite Hlen in Hlt.
    destruct (shown_file _ _ _ _ _ _ _ Hs Hc3) as [Dv Df]; [done|]. rewrite <- Hc2 in Dv, Df.
    assert (Hne : d_laddr (se_data_snapshot e) <> g_lb G).
    { intros El. rewrite El in Df. congruence. }
    assert (Hpg : page_at w' (pg (d_laddr (se_data_snapshot e))) = Some (PgData bs) /\ w_file w' !! d_laddr (se_data_snapshot e) = Some (PgData bs)).
    { rewrite Ew. unfold page_at. cbn [wrote set_w_file w_pa w_file]. rewrite (Rv _ _ Dv). simpl.
      rewrite lookup_insert_ne by (intros El; by apply Hne). rewrite Rf, Df. done. }
    unfold entry_holds. rewrite (restored_get _ _ _ _ _ _ _ Hba' Ha Ee Hini Hlt). cbn [restored se_data_current se_data_snapshot d_maddr d_laddr].
    by destruct Hpg.
  - intros i e Ee Hini Hz. pose proof (zget_lt _ _ _ Ee) as Hlt. rewrite Hlen in Hlt.
    rewrite (restored_get _ _ _ _ _ _ _ Hba' Ha Ee Hini Hlt). simpl. by rewrite Hz.
Qed.

Lemma restart_restores_committed_witness : exists (w w' : world fmst) p pg,
  slab_bucket_map 0 (dp_b p).2 CPOINT_COMPLETE false w = Ok (pg (dp_b p).2) w' /\
  entry_holds w' (se_addr (pg (dp_b p).2) 0) (replicate 4096 0) (replicate 4096 0).
Proof.
  destruct demo_exists as (w & p & H). pose proof (do_sees _ _ _ _ _ _ _ _ H) as Hs.
  pose (pg := fun l => u64 (fm_start_addr (fs_fm (w_pa w)) + l)).
  assert (Hlin : forall a l, vm_of (w_pa w) !! a = Some l -> pg l = a) by (intros a l; apply (fixed_linear _ _ _ a l (sees_owns _ _ _ Hs))).
  destruct (demo_lookups w p H) as (_ & _ & _ & _ & Hb & _).
  destruct (shown_file _ _ _ _ _ _ _ Hs Hb) as [Bv _]; [done|]. pose proof (Hlin _ _ Bv) as Eb.
  destruct (sees_shows _ _ _ Hs _ _ Hb) as (_ & Ew & _). destruct (do_bucket _ _ _ _ _ _ _ _ H) as (B1 & B2 & B3).
  destruct (restart_restores_committed w w (demo_V p) 58 (demo_geom p) demo_mem _ _ _ _ _ pg 0 Hs (demo_txn_rel w p H)) as (w' & E & Hh & _).
  - intros e He. apply list_elem_of_lookup in He as [j Ej]. destruct (demo_entry_get p (Z.of_nat j) e) as [[_ ->]|[_ ->]]; [|done|done].
    unfold zget. destruct (Z.leb_spec 0 (Z.of_nat j)); [|lia]. by rewrite Nat2Z.id.
  - split; [done|done|]. intros a l Ea. by rewrite (Hlin _ _ Ea).
  - simpl. rewrite Eb. split_and!; [done|done|unfold PAGE_SIZE in *; lia].
  - simpl. by rewrite Eb.
  - exists w, w', p, pg. split; [exact E|]. destruct (Hh 0) as (old & Eo & He); [by eexists|]. injection Eo as <-. exact He.
Defined.
