(* ===== verification/Missed.v ===== *)
(** * Transactions that are not committed

    [Txn.v] shows what a transaction of the intended shape does: one snapshot
    of the bucket, stores, a checkpoint.  Here the snapshots, which every
    allocation from the bucket makes ([slab_palloc], [alloc.c:151]), and the
    stores come in any number and order.  The checkpoint commits exactly when
    there was one snapshot; and once there was one, the file already leads a
    restart to the pages that are then overwritten. *)
From Stdlib Require Import ZArith Lia.
From stdpp Require Import base numbers gmap option list.
From S2P Require Import Prelude Macros Bitstring Vector Queue Process RBTree FixedMapper PageAlloc.
From S2P Require Import SlabLayout World Demo Snapshot Slab Alloc Checkpoint Txn Restore Recovery.
Open Scope Z_scope.

(** ** What a program does between two checkpoints *)
Inductive txn_action := ASnapshot | AStore (st : Z * list Z).

Section actions.
Context {PS : Type} `{PA : PageAllocator PS}.
Definition run_action (sb : Z) (a : txn_action) : M (world PS) unit :=
  match a with ASnapshot => snapshot_bucket sb | AStore st => store_entry sb st end.
End actions.

Definition a_action (σ : amem) (a : txn_action) : amem := match a with ASnapshot => σ | AStore st => astore σ st end.
Fixpoint snapshots (acts : list txn_action) : nat :=
  match acts with [] => 0 | ASnapshot :: l => S (snapshots l) | AStore _ :: l => snapshots l end.
Definition action_ok (σ : amem) (a : txn_action) : Prop := match a with ASnapshot => True | AStore st => storable σ st end.

(** What a restart finds for the entry [i]: from the inner node at the place
    [li] of the file through the snapshot references, which are the ones it
    maps. *)
Definition restart_page {PS} (w : world PS) (li i : Z) : option page :=
  match w_file w !! li with
  | Some (PgInner n) =>
      r ← zget (n_snapshot n) 0;
      match w_file w !! n_laddr r with
      | Some (PgBucket b) => e ← zget (sb_entries b) i; w_file w !! d_laddr (se_data_snapshot e)
      | _ => None
      end
  | _ => None
  end.

Section missed.
Context {PS : Type} `{PL : PageAllocatorLaws PS}.
Implicit Types (w : world PS) (V : gmap Z pinfo) (G : geom) (σ : amem).

(** ** After [c] snapshots *)

(** The slot of the bucket: the bucket itself, then a copy of it. *)
Definition slot_in V G (n : slab_node) (c : nat) : Prop :=
  match c with
  | O => zget (n_snapshot n) 0 = Some (NRef (g_sb G) (g_lb G))
  | S _ => exists a l cb, zget (n_snapshot n) 0 = Some (NRef a l) /\ V !! a = Some (PInfo (PgBucket cb) true l) /\ a <> g_sb G
  end.

Definition after_snapshots G (K c : nat) σ w : Prop := exists V k cont d o n b ls,
  sees w V k /\ (K <= k + length ls + Nat.min c 1)%nat /\ txn_rel w V G σ cont d o n b ls /\
  (sb_has_snapshot b = 0 <-> c <> 1%nat) /\ slot_in V G n c.

Lemma idle_after G K σ w : idle G K σ w -> after_snapshots G K 0 σ w.
Proof. intros (V & cont & d & o & n & b & Hs & Htx & Hf & Er). exists V, K, cont, d, o, n, b, []. split_and!; [done|simpl; lia|done|done|done]. Qed.

(** A second snapshot finds the copy and makes none, so that the flag of the
    bucket is cleared. *)
Lemma wp_snapshot_again w V k G σ cont d o n b ls a l (Q : unit -> world PS -> Prop) :
  sees w V (S k) -> txn_rel w V G σ cont d o n b ls -> zget (n_snapshot n) 0 = Some (NRef a l) -> a <> g_sb G ->
  (forall w', let b' := SlabBucket 0 (sb_id b) (sb_entries b) in let V' := <[g_sb G := PInfo (PgBucket b') true (g_lb G)]> V in
     sees w' V' (S k) -> txn_rel w' V' G σ cont d o n b' ls -> Q tt w') ->
  wp (snapshot_bucket (g_sb G)) Q w.
Proof.
  intros Hs [Hm Hp Hb Hid Hd Ht Hv] Er Hne HQ. unfold snapshot_bucket, Func_slab_bucket_snapshot. unfold bucket_in in Hb.
  pose proof Hp as [P1 (wc & lc & P2) P3 P4 (wo & lo & P5) P6 (P7 & l7 & r7 & P7a & _) (P8 & l8 & r8 & P8a & _) (P9 & P9a)].
  apply wp_bind, wp_bind, wp_gets. rewrite Hm.
  eapply (wp_slab_bucket_snapshot w V k (g_sd G) d (g_ld G) (g_sb G) b (g_lb G) (g_si G) n (g_li G)); rewrite ?Hid; try done.
  - split; [split; [done|]|].
    + exists (g_c G), cont, wc, lc. by split_and!.
    + by exists (g_so G), l7, o, wo, lo, l8.
  - intros _. eapply wp_upd; [done|done|done|]. intros w2 Hs2 Hg2. apply HQ; [done|].
    split; [by rewrite (globals_mode _ _ Hg2)| |unfold bucket_in; by vlook|done| | |by destruct Hv].
    + eapply path_rel_same; [done|by rewrite (globals_cont _ _ Hg2)|by vlook..].
    + eapply bucket_rel_same; [done| |done]. apply same_data_insert; [apply same_data_refl|]. intros ???; congruence.
    + eapply tree_rel_same; [done| |done|done]. intros i e Ee. by exists e.
Qed.

Lemma after_snapshot G K c σ w : (30 <= K)%nat -> after_snapshots G K c σ w ->
  wp (snapshot_bucket (g_sb G)) (fun _ w' => after_snapshots G K (S c) σ w') w.
Proof.
  intros HK (V & k & cont & d & o & n & b & ls & Hs & Hk & Htx & Hf & Hsl). pose proof (vec_len _ _ _ _ _ _ _ _ _ _ Htx) as Hlen.
  destruct k as [|k]; [lia|]. destruct c as [|c]; simpl in Hsl.
  - eapply wp_begin; [done|done|done|done|]. intros w' V' a l n' b' Hs' Htx' Er' Ea Hne.
    exists V', k, cont, d, o, n', b', ls. split_and!; [done|simpl in *; lia|done|by split|]. by exists a, l, b.
  - destruct Hsl as (a & l & cb & Er & Ea & Hne). eapply wp_snapshot_again; [done|done|done|done|].
    intros w' b' V' Hs' Htx'. exists V', (S k), cont, d, o, n, b', ls. split_and!; [done|simpl in *; lia|done|by split|].
    exists a, l, cb. split_and!; [done|unfold V'; by rewrite lookup_insert_ne|done].
Qed.

Lemma after_store G K c σ i bs w : (30 <= K)%nat -> is_Some (a_now σ !! i) -> after_snapshots G K c σ w ->
  wp (store_entry (g_sb G) (i, bs)) (fun _ w' => after_snapshots G K c (astore σ (i, bs)) w') w.
Proof.
  intros HK Hi (V & k & cont & d & o & n & b & ls & Hs & Hk & Htx & Hf & Hsl). pose proof (vec_len _ _ _ _ _ _ _ _ _ _ Htx) as Hlen.
  destruct k as [|k]; [lia|]. eapply wp_store_entry; [done|done|done|]. intros w' V' k' d' b' ls' Hs' Htx' Hk' Hsb HV _.
  exists V', k', cont, d', o, n, b', ls'. split_and!; [done|lia|done|by rewrite Hsb|].
  destruct c; simpl in *; [done|]. destruct Hsl as (a & l & cb & Er & Ea & Hne). exists a, l, cb. by rewrite (HV a cb true l).
Qed.

Lemma after_actions G K acts : (30 <= K)%nat -> forall c σ w, Forall (action_ok σ) acts -> after_snapshots G K c σ w ->
  wp (forM acts (run_action (g_sb G))) (fun _ w' => after_snapshots G K (snapshots acts + c) (fold_left a_action acts σ) w') w.
Proof.
  intros HK. induction acts as [|[|[i bs]] acts IH]; intros c σ w Ho Ha; [by apply wp_ret|..]; apply Forall_cons in Ho as [Hi Ho];
    simpl; apply wp_bind.
  - eapply wp_mono; [by apply after_snapshot|]. intros [] w' Ha'. replace (S (snapshots acts + c)) with (snapshots acts + S c)%nat by lia. by apply IH.
  - eapply wp_mono; [by apply after_store|]. intros [] w' Ha'. apply IH; [|done]. eapply Forall_impl; [exact Ho|].
    intros [|st] Hst; [done|]. by apply (storable_store σ st (i, bs)).
Qed.

(** ** The checkpoint *)

(** Without the flag the bucket is skipped. *)
Lemma wp_skip w V k G σ cont d o n b ls :
  sees w V k -> txn_rel w V G σ cont d o n b ls -> sb_has_snapshot b = 0 ->
  wp (slab_cpoint CPOINT_REGULAR) (fun _ w' => forall i, is_Some (a_now σ !! i) ->
    exists now old, a_now σ !! i = Some now /\ a_old σ !! i = Some old /\ entry_holds w' (se_addr (g_sb G) i) now old) w.
Proof.
  intros Hs Htx Hf. pose proof Htx as [Hm Hp Hb Hid Hd Ht Hv]. pose proof Hp as [P1 (wc & lc & P2) P3 P4 (wo & lo & P5) P6 _ _ (P9 & P9a)].
  eapply (wp_walk w V k G σ cont d o n b ls (fun w1 V1 k1 b1 n1 => V1 = V /\ b1 = b)); [done|done| |].
  - unfold slab_inner_cpoint. apply wp_bind. eapply wp_read_view; [done|done|done|]. cbn [the_inner]. rewrite P9. cbn [for_ Z.to_nat Pos.to_nat Pos.iter_op].
    apply wp_bind. apply wp_bind. eapply wp_read_view; [done|done|done|]. cbn [the_inner].
    apply wp_bind. eapply wp_from_opt; [done|]. cbn [n_maddr n_laddr].
    apply wp_bind. eapply wp_read_view; [done|exact Hb|done|]. rewrite Hf. cbn [Z.eqb negb when]. apply wp_ret, wp_ret.
    exists V, k, b, n. split; [|done]. split; try done; [|apply Hd]. intros i e Ei. by exists e.
  - intros w1 V1 k1 b1 n1 w' _ [-> ->] Hg Hs' i Hi. unfold bucket_in in Hb.
    eapply (bucket_holds w' _ k1 (g_sb G) b (g_lb G) σ i Hs'); [unfold bucket_in; by vlook| |done].
    eapply bucket_rel_same; [done| |done]. apply same_data_insert; [apply same_data_refl|]. intros ???; congruence.
Qed.

Lemma after_cpoint G K c σ w : (30 <= K)%nat -> after_snapshots G K c σ w ->
  wp (slab_cpoint CPOINT_REGULAR) (fun _ w' => forall i, is_Some (a_now σ !! i) ->
    exists now old, a_now σ !! i = Some now /\ a_old σ !! i = Some old /\
      entry_holds w' (se_addr (g_sb G) i) now (if (c =? 1)%nat then now else old)) w.
Proof.
  intros HK (V & k & cont & d & o & n & b & ls & Hs & Hk & Htx & Hf & Hsl). destruct (Nat.eqb_spec c 1) as [->|Hc].
  - destruct Hsl as (a & l & cb & Er & Ea & Hne). eapply wp_mono; [eapply wp_commit; [done|done|by intros E%Hf|done|done|done]|].
    intros [] w' Hid i Hi. destruct (txn_rel_holds _ _ _ _ _ _ _ _ _ _ _ i Hs Htx Hi) as (now & old & En & Eo & _).
    exists now, old. split_and!; [done|done|]. destruct Hid as (V' & cont' & d' & o' & n' & b' & Hs' & Htx' & _).
    destruct (txn_rel_holds _ _ _ _ _ _ _ _ _ _ _ i Hs' Htx' Hi) as (nw & od & E1 & E2 & Hh). simpl in E1, E2. by simplify_eq.
  - eapply wp_skip; [done|done|by apply Hf].
Qed.

(** ** What a restart reads *)
Lemma restart_page_eq w V k G σ cont d o n b ls r cb i e0 bs : sees w V k -> txn_rel w V G σ cont d o n b ls ->
  zget (n_snapshot n) 0 = Some r -> V !! n_maddr r = Some (PInfo (PgBucket cb) true (n_laddr r)) -> zget (sb_entries cb) i = Some e0 ->
  w_file w !! d_laddr (se_data_snapshot e0) = Some (PgData bs) -> restart_page w (g_li G) i = Some (PgData bs).
Proof.
  intros Hs [_ Hp _ _ _ _ _] Er Ea Ee Hf. unfold restart_page.
  destruct (shown_file _ _ _ _ _ _ _ Hs (pr_i _ _ _ _ _ _ _ Hp)) as [_ ->]; [done|]. rewrite Er. simpl.
  destruct (shown_file _ _ _ _ _ _ _ Hs Ea) as [_ ->]; [done|]. by rewrite Ee.
Qed.

(** The file holds what an entry holds now at the place of its page. *)
Lemma current_in_file w V k G σ cont d o n b ls i : sees w V k -> txn_rel w V G σ cont d o n b ls -> is_Some (a_now σ !! i) ->
  exists e now, zget (sb_entries b) i = Some e /\ SLAB_ENTRY_IS_INIT e = true /\ a_now σ !! i = Some now /\
    w_file w !! d_laddr (se_data_current e) = Some (PgData now).
Proof.
  intros Hs [_ _ _ _ Hd _ _] Hi. destruct (br_known _ _ _ _ Hd i Hi) as (e & Ee & Hini).
  destruct (br_entry _ _ _ _ Hd i e Ee Hini) as (_ & now & old & En & _ & Hr). exists e, now. split_and!; [done|done|done|].
  destruct Hr as [[(_ & _ & E) _]|(_ & E & _)]; by destruct (page_file _ _ _ _ _ _ _ Hs E).
Qed.

Lemma idle_restart_page G K σ w i : idle G K σ w -> is_Some (a_now σ !! i) ->
  exists old, a_old σ !! i = Some old /\ restart_page w (g_li G) i = Some (PgData old).
Proof.
  intros (V & cont & d & o & n & b & Hs & Htx & _ & Er) Hi. destruct (idle_clean _ _ _ _ _ _ _ _ _ _ i Hs Htx Hi) as (e & bs & Ee & _ & Eo & _ & Ec & Ev).
  exists bs. split; [done|]. eapply restart_page_eq; [done|done|exact Er|exact (tx_bucket _ _ _ _ _ _ _ _ _ _ Htx)|exact Ee|].
  rewrite Ec. by destruct (page_file _ _ _ _ _ _ _ Hs Ev).
Qed.

Lemma active_restart_page G K σ w i : active G K σ w -> is_Some (a_now σ !! i) ->
  exists now, a_now σ !! i = Some now /\ restart_page w (g_li G) i = Some (PgData now).
Proof.
  intros (V & cont & d & o & n & b & ls & a & la & cb & Hs & Htx & _ & Er & Ha & _ & Hc) Hi.
  destruct (current_in_file _ _ _ _ _ _ _ _ _ _ _ i Hs Htx Hi) as (e & now & Ee & Hini & En & Hf). exists now. split; [done|].
  apply zget_Some_nat in Ee as Ej. destruct (Forall2_lookup_l _ _ _ _ _ Hc Ej) as (e0 & E0 & _ & Hce).
  destruct (Hce Hini) as (_ & _ & _ & El). pose proof (zget_lt _ _ _ Ee) as Hlt.
  eapply (restart_page_eq w V _ G σ cont d o n b ls (NRef a la) cb i e0); [done|done|exact Er|exact Ha| |by rewrite El].
  unfold zget. destruct (Z.leb_spec 0 i); [done|lia].
Qed.
End missed.

(** ** Properties *)

(** C3 A transaction is committed exactly when it makes one snapshot of the
    bucket.  Between two checkpoints the program makes any number of snapshots
    of the bucket and of stores to its entries, in any order.  After the
    checkpoint each entry holds what was stored last, and its snapshot, also in
    the file, holds the same if there was one snapshot; if there was none, or
    more than one, the checkpoint skips the bucket, and the snapshot still
    holds what the checkpoint before has committed. *)
Theorem commit_needs_one_snapshot {PS} `{PL : PageAllocatorLaws PS} G K σ (w : world PS) acts :
  (30 <= K)%nat -> idle G K σ w -> Forall (action_ok σ) acts ->
  wp (forM acts (run_action (g_sb G)) ;;; slab_cpoint CPOINT_REGULAR) (fun _ w' =>
    forall i, is_Some (a_now σ !! i) -> exists now old,
      a_now (fold_left a_action acts σ) !! i = Some now /\ a_old σ !! i = Some old /\
      entry_holds w' (se_addr (g_sb G) i) now (if (snapshots acts =? 1)%nat then now else old)) w.
Proof.
  intros HK Hi Ho. apply wp_bind. eapply wp_mono; [eapply (after_actions G K acts HK 0); [done|by apply idle_after]|].
  intros [] w1 Ha. rewrite Nat.add_0_r in Ha. eapply wp_mono; [by eapply after_cpoint|]. intros [] w' Hh i Hk.
  assert (Hf : forall acts' σ', a_old (fold_left a_action acts' σ') = a_old σ' /\
    (is_Some (a_now σ' !! i) -> is_Some (a_now (fold_left a_action acts' σ') !! i))).
  { induction acts' as [|[|st] acts' IH]; intros σ'; simpl; [done|apply IH|]. destruct (IH (astore σ' st)) as [-> H2].
    split; [done|]. intros Hn. apply H2. exact (storable_store σ' (i, []) st Hn). }
  destruct (Hf acts σ) as [Eo Hn]. rewrite <- Eo. apply Hh. by apply Hn.
Qed.

(** Two transactions on the example: the first only stores, the second makes
    two snapshots. *)
Lemma commit_needs_one_snapshot_witness : exists (w : world fmst) p, let st := AStore (0, replicate 4096 1) in
  wp (forM [st] (run_action (dp_b p).1) ;;; slab_cpoint CPOINT_REGULAR) (fun _ w' =>
    entry_holds w' (se_addr (dp_b p).1 0) (replicate 4096 1) (replicate 4096 0)) w /\
  wp (forM [ASnapshot; st; ASnapshot] (run_action (dp_b p).1) ;;; slab_cpoint CPOINT_REGULAR) (fun _ w' =>
    entry_holds w' (se_addr (dp_b p).1 0) (replicate 4096 1) (replicate 4096 0)) w.
Proof.
  destruct demo_exists as (w & p & H). exists w, p. pose proof (demo_idle w p H) as Hi. assert (HK : (30 <= 58)%nat) by lia.
  assert (Hok : action_ok demo_mem (AStore (0, replicate 4096 1))) by (eexists; reflexivity).
  cbv zeta. split.
  - eapply wp_mono; [apply (commit_needs_one_snapshot (demo_geom p) 58 demo_mem w [_] HK Hi); by repeat constructor|].
    intros [] w' Hh. destruct (Hh 0) as (now & old & En & Eo & He); [eexists; reflexivity|].
    injection En as <-. injection Eo as <-. exact He.
  - eapply wp_mono; [apply (commit_needs_one_snapshot (demo_geom p) 58 demo_mem w [ASnapshot; _; ASnapshot] HK Hi); by repeat constructor|].
    intros [] w' Hh. destruct (Hh 0) as (now & old & En & Eo & He); [eexists; reflexivity|].
    injection En as <-. injection Eo as <-. exact He.
Defined.

(** C5 A restart in the middle of a transaction reads what was not committed.
    Between transactions the references that a restart follows in the file
    lead, for every entry, to the content of the last checkpoint.  Once the
    bucket has been copied, and after any stores, they lead through the copy to
    the page that is being overwritten: to the new content of every entry,
    before any checkpoint. *)
Theorem restart_reads_uncommitted {PS} `{PL : PageAllocatorLaws PS} G K σ (w : world PS) stores :
  (30 <= K)%nat -> idle G K σ w -> Forall (storable σ) stores ->
  (forall i, is_Some (a_now σ !! i) -> exists old, a_old σ !! i = Some old /\ restart_page w (g_li G) i = Some (PgData old)) /\
  wp (snapshot_bucket (g_sb G) ;;; forM stores (store_entry (g_sb G))) (fun _ w' => forall i, is_Some (a_now σ !! i) ->
    exists now, a_now (fold_left astore stores σ) !! i = Some now /\ restart_page w' (g_li G) i = Some (PgData now)) w.
Proof.
  intros HK Hi Hst. split; [intros i; by apply (idle_restart_page G K)|]. apply wp_bind. eapply wp_mono; [apply (begin_active G K σ w); [lia|done]|].
  intros [] w1 H1. eapply wp_mono; [by apply stores_active|]. intros [] w2 H2 i Hk. eapply active_restart_page; [exact H2|].
  assert (Hs : Forall (storable (fold_left astore stores σ)) [(i, [])]) by (apply storable_all; by constructor).
  by apply Forall_cons in Hs as [? _].
Qed.

Lemma restart_reads_uncommitted_witness : exists (w : world fmst) p,
  restart_page w (dp_i p).2 0 = Some (PgData (replicate 4096 0)) /\
  wp (snapshot_bucket (dp_b p).1 ;;; forM [(0, replicate 4096 1)] (store_entry (dp_b p).1)) (fun _ w' =>
    restart_page w' (dp_i p).2 0 = Some (PgData (replicate 4096 1))) w.
Proof.
  destruct demo_exists as (w & p & H). exists w, p. pose proof (demo_idle w p H) as Hi. assert (HK : (30 <= 58)%nat) by lia.
  assert (Hok : Forall (storable demo_mem) [(0, replicate 4096 1)]) by (repeat constructor; eexists; reflexivity).
  destruct (restart_reads_uncommitted (demo_geom p) 58 demo_mem w _ HK Hi Hok) as [H0 H1]. split.
  - destruct (H0 0) as (old & Eo & E); [eexists; reflexivity|]. injection Eo as <-. exact E.
  - eapply wp_mono; [exact H1|]. intros [] w' Hh. destruct (Hh 0) as (now & En & E); [eexists; reflexivity|].
    injection En as <-. exact E.
Defined.
