(* ===== verification/Progress.v ===== *)
(** * What holds and what happens in every run of transactions

    Two properties of the runs of [Txn].  In every reachable state every
    reference on the way from the container to the data, current or snapshot,
    leads to a page of its type ([typed_container]); and in an infinite run whose transactions
    end, every store is committed in the end. *)
From Stdlib Require Import ZArith Lia.
From stdpp Require Import base numbers gmap option list.
From S2P Require Import Prelude Macros Bitstring Vector Queue Process RBTree FixedMapper PageAlloc.
From S2P Require Import SlabLayout World Demo Snapshot Slab Alloc Checkpoint Txn Restore Recovery.
Open Scope Z_scope.

(** ** Typed references *)
Section types.
Context {PS : Type} `{PA : PageAllocator PS}.
Implicit Types (w : world PS).

Definition is_data w (a : Z) : bool := match page_at w a with Some (PgData _) => true | _ => false end.
(** A reference to a page of pointers, which may be null. *)
Definition is_ptrs w (a : Z) : bool := (a =? 0) || match page_at w a with Some (PgPtrs _) => true | _ => false end.

(** The four references of an entry in use. *)
Definition typed_entry w (e : slab_entry) : bool :=
  negb (SLAB_ENTRY_IS_INIT e) ||
  is_data w (d_maddr (se_data_current e)) && is_data w (d_maddr (se_data_snapshot e)) &&
  is_ptrs w (r_maddr (se_ptr_current e)) && is_ptrs w (r_maddr (se_ptr_snapshot e)).
Definition typed_bucket w (a : Z) : bool :=
  match page_at w a with Some (PgBucket b) => forallb (typed_entry w) (sb_entries b) | _ => false end.

(** The references of a node that are in use, in both versions. *)
Definition used_refs (n : slab_node) : list node_ref :=
  take (Z.to_nat (n_index n)) (n_current n) ++ take (Z.to_nat (n_index n)) (n_snapshot n).
Definition typed_refs (typed : Z -> bool) (n : slab_node) : bool := forallb (fun r => typed (n_maddr r)) (used_refs n).

Definition typed_inner w (a : Z) : bool :=
  match page_at w a with Some (PgInner n) => typed_refs (typed_bucket w) n | _ => false end.
Definition typed_outer w (a : Z) : bool :=
  match page_at w a with Some (PgOuter n) => typed_refs (typed_inner w) n | _ => false end.

(** The directory, with its nodes and the entries of its tree. *)
Definition typed_dir w (a : Z) : bool :=
  match page_at w a with
  | Some (PgDir d) => typed_refs (typed_outer w) (sd_node d) &&
      forallb (fun se => typed_bucket w (se_page se) && SLAB_ENTRY_IS_INIT (se_at w se)) (inorder (sd_maddr_root d))
  | _ => false
  end.

Definition typed_container w : bool :=
  match CONTAINERS w with
  | Some c =>
      match page_at w c with
      | Some (PgCont cont) => typed_dir w (n_maddr (current_slab cont)) && typed_dir w (n_maddr (snapshot_slab cont))
      | _ => false
      end
  | None => false
  end.

Lemma typed_refs_one typed n a l r : n_index n = 1 -> zget (n_current n) 0 = Some (NRef a l) -> zget (n_snapshot n) 0 = Some r ->
  typed a = true -> typed (n_maddr r) = true -> typed_refs typed n = true.
Proof.
  intros Hn Ec%zget_Some_nat Es%zget_Some_nat Ha Hr. unfold typed_refs, used_refs. rewrite Hn.
  destruct (n_current n) as [|x xs]; [done|]. destruct (n_snapshot n) as [|y ys]; [done|].
  injection Ec as ->. injection Es as ->. simpl. by rewrite Ha, Hr.
Qed.
End types.

Section reachable_types.
Context {PS : Type} `{PL : PageAllocatorLaws PS}.
Implicit Types (w : world PS) (V : gmap Z pinfo) (G : geom).

Lemma page_seen w V k a p wr l : sees w V k -> V !! a = Some (PInfo p wr l) -> page_at w a = Some p.
Proof. intros Hs E. by destruct (sees_shows _ _ _ Hs _ _ E) as (E1 & _). Qed.

Lemma plain_typed w e : (SLAB_ENTRY_IS_INIT e = true -> plain_entry e /\ is_data w (cur_page e) = true /\ is_data w (snap_page e) = true) ->
  typed_entry w e = true.
Proof.
  unfold typed_entry. destruct (SLAB_ENTRY_IS_INIT e); [|done]. intros [(_ & H1 & H2) [E1 E2]]; [done|].
  unfold cur_page in E1. unfold snap_page in E2. by rewrite E1, E2, H1, H2.
Qed.

Lemma current_data w V k G σ cont d o n b ls i e x : sees w V k -> txn_rel w V G σ cont d o n b ls ->
  zget (sb_entries b) i = Some e -> x ∈ pages_of e -> is_data w x = true.
Proof.
  intros Hs [_ _ _ _ Hd _ _] Ee Hx. destruct (entry_pages_data _ _ _ _ _ _ _ Hd Ee Hx) as (bs & wr & l & E).
  unfold is_data. by rewrite (page_seen _ _ _ _ _ _ _ Hs E).
Qed.

Lemma txn_bucket_typed w V k G σ cont d o n b ls : sees w V k -> txn_rel w V G σ cont d o n b ls -> typed_bucket w (g_sb G) = true.
Proof.
  intros Hs Htx. pose proof Htx as [_ _ Hb _ Hd _ _]. unfold typed_bucket. rewrite (page_seen _ _ _ _ _ _ _ Hs Hb).
  apply forallb_forall. intros e He%list_elem_of_In. destruct (elem_entry _ _ He) as [i Ei]. apply plain_typed. intros Hi.
  split; [by apply (br_entry _ _ _ _ Hd i e)|]. split; (eapply current_data; [done|done|exact Ei|]); [by apply cur_in_pages|by apply snap_in_pages].
Qed.

(** The copy of the bucket, while a transaction is open. *)
Lemma copy_typed w V k G σ cont d o n b ls a wr la cb : sees w V k -> txn_rel w V G σ cont d o n b ls ->
  V !! a = Some (PInfo (PgBucket cb) wr la) -> copy_of b cb -> typed_bucket w a = true.
Proof.
  intros Hs Htx Ha Hc. unfold typed_bucket. rewrite (page_seen _ _ _ _ _ _ _ Hs Ha).
  apply forallb_forall. intros e0 [j Ej]%list_elem_of_In%list_elem_of_lookup.
  destruct (Forall2_lookup_r _ _ _ _ _ Hc Ej) as (e & Ee & Hi & He). apply plain_typed. rewrite Hi. intros Hini.
  destruct (He Hini) as (Hpl & -> & -> & _). split; [done|]. destruct (elem_entry b e) as [i Ei]; [by eapply list_elem_of_lookup_2|].
  split; (eapply current_data; [done|done|exact Ei|by apply cur_in_pages]).
Qed.

Lemma txn_rel_typed w V k G σ cont d o n b ls r : sees w V k -> txn_rel w V G σ cont d o n b ls ->
  zget (n_snapshot n) 0 = Some r -> typed_bucket w (n_maddr r) = true -> typed_container w = true.
Proof.
  intros Hs Htx Er Hr. pose proof (txn_bucket_typed _ _ _ _ _ _ _ _ _ _ _ Hs Htx) as Hbk. pose proof Htx as [_ Hp Hb _ Hd Ht _].
  pose proof Hp as [P1 (wc & lc & P2) P3 P4 (wo & lo & P5) P6 (P7 & l7 & r7 & P7a & P7b & P7c) (P8 & l8 & r8 & P8a & P8b & P8c) (P9 & P9a) P10].
  assert (Hi : typed_inner w (g_si G) = true).
  { unfold typed_inner. rewrite (page_seen _ _ _ _ _ _ _ Hs P6). by eapply typed_refs_one. }
  assert (Ho : typed_outer w (g_so G) = true).
  { unfold typed_outer. rewrite (page_seen _ _ _ _ _ _ _ Hs P5). eapply typed_refs_one; [exact P8|exact P8a|exact P8b|done|by rewrite P8c]. }
  unfold typed_container. rewrite P1, (page_seen _ _ _ _ _ _ _ Hs P2), P3, P10.
  enough (Hdir : typed_dir w (g_sd G) = true) by (by rewrite Hdir).
  unfold typed_dir. rewrite (page_seen _ _ _ _ _ _ _ Hs P4). apply andb_true_iff. split.
  - eapply typed_refs_one; [exact P7|exact P7a|exact P7b|done|by rewrite P7c].
  - apply forallb_forall. intros se Hse%list_elem_of_In. destruct (tr_in _ _ _ Ht se Hse) as (E1 & _ & e & E2 & Hie).
    rewrite E1, Hbk. unfold se_at. rewrite E1, (page_seen _ _ _ _ _ _ _ Hs Hb). simpl. by rewrite E2.
Qed.

Lemma txn_ok_typed G K t σ w : txn_ok G K (t, σ, w) -> typed_container w = true.
Proof.
  destruct t; simpl.
  - intros (V & cont & d & o & n & b & ls & a & la & cb & Hs & Htx & _ & Er & Ha & _ & Hc).
    eapply txn_rel_typed; [done|done|exact Er|]. by eapply copy_typed.
  - intros (V & cont & d & o & n & b & Hs & Htx & _ & Er). eapply txn_rel_typed; [done|done|exact Er|].
    by eapply txn_bucket_typed.
Qed.

(** ** Infinite runs *)
Notation state := (bool * amem * world PS)%type.
Definition in_txn (s : state) : bool := s.1.1.
Definition mem_of (s : state) : amem := s.1.2.
Definition world_of (s : state) : world PS := s.2.

Definition is_run (sb : Z) (run : nat -> state) : Prop := forall n, txn_step sb (run n) (run (S n)).

(** Every transaction ends. *)
Definition transactions_end (run : nat -> state) : Prop := forall n, exists m, (n <= m)%nat /\ in_txn (run m) = false.

Lemma run_ok G K run n : (30 <= K)%nat -> txn_ok G K (run 0%nat) -> is_run (g_sb G) run -> txn_ok G K (run n).
Proof. intros HK H0 Hr. induction n as [|n IH]; [done|]. by eapply txn_step_ok. Qed.

(** Between transactions nothing is left to commit. *)
Lemma idle_committed G K σ w i now : idle G K σ w -> a_now σ !! i = Some now ->
  entry_holds w (se_addr (g_sb G) i) now now.
Proof.
  intros (V & cont & d & o & n & b & Hs & Htx & _) En. assert (Hi : is_Some (a_now σ !! i)) by by eexists.
  destruct (idle_clean _ _ _ _ _ _ _ _ _ _ _ Hs Htx Hi) as (e & bs & Ee & Hini & Eo & Hc1 & _ & Hc3).
  destruct (txn_rel_holds _ _ _ _ _ _ _ _ _ _ _ i Hs Htx Hi) as (nw & old & En' & Eo' & Hh). simplify_eq.
  pose proof Htx as [_ _ _ _ Hd _ _]. destruct (br_entry _ _ _ _ Hd i e Ee Hini) as (_ & nw & od & E1 & E2 & Hr). simplify_eq.
  destruct Hr as [[_ ->]|(Hne & _)]; [exact Hh|by destruct Hne].
Qed.

Lemma step_known sb (s s' : state) i :
  txn_step sb s s' -> is_Some (a_now (mem_of s) !! i) -> is_Some (a_now (mem_of s') !! i).
Proof.
  intros Hs. destruct Hs as [σ w w' E|σ w w' st Hst E|σ w w' E]; intros Hi; unfold mem_of in *; simpl in *; try done.
  rewrite lookup_insert_is_Some. destruct (decide (st.1 = i)); [by left|by right].
Qed.

Lemma run_known sb run i n m :
  is_run sb run -> (n <= m)%nat -> is_Some (a_now (mem_of (run n)) !! i) -> is_Some (a_now (mem_of (run m)) !! i).
Proof.
  intros Hr Hle. induction Hle as [|m Hle IH]; intros Hi; [done|]. eapply step_known; [apply Hr|]. by apply IH.
Qed.

Lemma run_unchanged (run : nat -> state) i n m :
  (n <= m)%nat -> (forall k, (n <= k < m)%nat -> a_now (mem_of (run (S k))) !! i = a_now (mem_of (run k)) !! i) ->
  a_now (mem_of (run m)) !! i = a_now (mem_of (run n)) !! i.
Proof.
  intros Hle. induction Hle as [|m Hle IH]; intros Hs; [done|]. rewrite Hs by lia. apply IH. intros k Hk. apply Hs. lia.
Qed.

(** *** A run: begin, store, commit, again and again *)
Definition last_world {A} (r : outcome (world PS) A) : world PS := match r with Ok _ w => w | Fail _ w => w end.

Definition turn (sb : Z) (n : nat) (s : state) : state :=
  let st := (0, replicate 4096 (Z.of_nat n)) in
  match (n mod 3)%nat with
  | O => (true, mem_of s, last_world (snapshot_bucket sb (world_of s)))
  | 1%nat => (true, astore (mem_of s) st, last_world (store_entry sb st (world_of s)))
  | _ => (false, acommit (mem_of s), last_world (slab_cpoint CPOINT_REGULAR (world_of s)))
  end.

Fixpoint turns (sb : Z) (s : state) (n : nat) : state :=
  match n with O => s | S n' => turn sb n' (turns sb s n') end.

Lemma turns_ok G K s n : (30 <= K)%nat -> txn_ok G K s -> in_txn s = false -> is_Some (a_now (mem_of s) !! 0) ->
  txn_ok G K (turns (g_sb G) s n) /\ in_txn (turns (g_sb G) s n) = negb (n mod 3 =? 0)%nat /\
  is_Some (a_now (mem_of (turns (g_sb G) s n)) !! 0) /\
  txn_step (g_sb G) (turns (g_sb G) s n) (turns (g_sb G) s (S n)).
Proof.
  intros HK H0 Hb0 Hk0.
  assert (Hstep : forall n, let x := turns (g_sb G) s n in txn_ok G K x -> in_txn x = negb (n mod 3 =? 0)%nat ->
    is_Some (a_now (mem_of x) !! 0) -> txn_step (g_sb G) x (turn (g_sb G) n x)).
  { intros m x. generalize x. clear x. intros [[t σ] w] Ho Ht Hk. unfold in_txn, mem_of, world_of in *. cbn [fst snd] in Ht, Hk. subst t.
    unfold turn, mem_of, world_of. cbn [fst snd]. remember (m mod 3)%nat as r eqn:Er. clear Er. destruct r as [|[|r]]; cbn [Nat.eqb negb txn_ok] in Ho |- *.
    - assert (Hw : wp (snapshot_bucket (g_sb G)) (fun _ w1 => active G K σ w1) w) by (apply begin_active; [lia|done]).
      apply wp_run in Hw as ([] & w' & E & _). rewrite E. by constructor.
    - set (st := (0, replicate 4096 (Z.of_nat m))). pose proof (store_active G K σ 0 st.2 w HK Hk Ho) as Hw.
      apply wp_run in Hw as ([] & w' & E & _). change (0, st.2) with st in E. rewrite E. by constructor.
    - pose proof (commit_idle G K σ w Ho HK) as Hw. apply wp_run in Hw as ([] & w' & E & _). rewrite E. by constructor. }
  enough (Hi : txn_ok G K (turns (g_sb G) s n) /\ in_txn (turns (g_sb G) s n) = negb (n mod 3 =? 0)%nat /\
    is_Some (a_now (mem_of (turns (g_sb G) s n)) !! 0)).
  { destruct Hi as (H1 & H2 & H3). split_and!; [done|done|done|]. by apply Hstep. }
  induction n as [|n (H1 & H2 & H3)]; [done|]. pose proof (Hstep n H1 H2 H3) as Hs. cbn [turns].
  split_and!; [by eapply txn_step_ok| |by eapply step_known].
  pose proof (Nat.mod_upper_bound n 3 ltac:(lia)) as Hlt. pose proof (Nat.div_mod n 3 ltac:(lia)) as Hdm.
  unfold turn. destruct (n mod 3)%nat as [|[|r]] eqn:Em.
  - replace (S n mod 3)%nat with 1%nat; [done|]. apply (Nat.mod_unique (S n) 3 (n / 3)); lia.
  - replace (S n mod 3)%nat with 2%nat; [done|]. apply (Nat.mod_unique (S n) 3 (n / 3)); lia.
  - replace (S n mod 3)%nat with 0%nat; [done|]. apply (Nat.mod_unique (S n) 3 (S (n / 3))); lia.
Qed.
End reachable_types.

(** C9 Types: in every reachable state, in or between transactions, every
    reference on the way from the container to the data, current and
    snapshot, leads to a page of its type: those of the container to a
    directory page, those of the directory, of the outer and of the inner nodes
    that are in use to pages of the next level, so that the copy of the bucket
    is a bucket too; the data references of the entries in use, in the bucket
    and in its copy, to data pages, and their pointer references to a page of
    pointers, unless they are null; and the entries of the tree are entries in
    use of a bucket. *)
Theorem references_keep_types {PS} `{PL : PageAllocatorLaws PS} G K σ0 (w0 : world PS) t σ w :
  (30 <= K)%nat -> idle G K σ0 w0 -> rtc (txn_step (g_sb G)) (false, σ0, w0) (t, σ, w) ->
  typed_container w = true.
Proof.
  intros HK Hi Hr. eapply txn_ok_typed. by eapply (reachable_ok G K (false, σ0, w0)).
Qed.

Lemma references_keep_types_witness : exists (w : world fmst) p w',
  rtc (txn_step (dp_b p).1) (false, demo_mem, w) (true, demo_mem, w') /\ typed_container w' = true.
Proof.
  destruct demo_exists as (w & p & H). exists w, p. pose proof (demo_idle w p H) as Hi. assert (Hk : (30 <= 58)%nat) by lia.
  assert (Hb : wp (snapshot_bucket (dp_b p).1) (fun _ w1 => active (demo_geom p) 58 demo_mem w1) w).
  { apply (begin_active (demo_geom p)); [lia|exact Hi]. }
  apply wp_run in Hb as ([] & w' & E & _).
  assert (Hr : rtc (txn_step (dp_b p).1) (false, demo_mem, w) (true, demo_mem, w')) by (apply rtc_once; by constructor).
  exists w'. split; [exact Hr|]. exact (references_keep_types (demo_geom p) 58 demo_mem w true demo_mem w' Hk Hi Hr).
Defined.

(** C8 Liveness: in an infinite run whose transactions end, whatever an entry
    holds at some moment is committed later, or something newer is: there is
    a later moment between two transactions at which the data page of the
    entry and the page its snapshot leads to, also in the file, hold the
    entry's last content; when nothing was stored to the entry in the
    meantime, that is the content it held. *)
Theorem stores_eventually_committed {PS} `{PL : PageAllocatorLaws PS} G K (run : nat -> bool * amem * world PS) n i bs :
  (30 <= K)%nat -> txn_ok G K (run 0%nat) -> is_run (g_sb G) run -> transactions_end run ->
  a_now (mem_of (run n)) !! i = Some bs ->
  exists m bs', (n <= m)%nat /\ in_txn (run m) = false /\ a_now (mem_of (run m)) !! i = Some bs' /\
    entry_holds (world_of (run m)) (se_addr (g_sb G) i) bs' bs' /\
    ((forall k, (n <= k < m)%nat -> a_now (mem_of (run (S k))) !! i = a_now (mem_of (run k)) !! i) -> bs' = bs).
Proof.
  intros HK H0 Hr Hend En. destruct (Hend n) as (m & Hle & Hm).
  destruct (run_known (g_sb G) run i n m Hr Hle) as [bs' Em]; [by eexists|]. exists m, bs'. split_and!; [done|done|done| |].
  - pose proof (run_ok G K run m HK H0 Hr) as Ho. destruct (run m) as [[t σ] w] eqn:E. unfold in_txn, mem_of, world_of in *. simpl in *.
    subst t. by eapply idle_committed.
  - intros Hun. rewrite (run_unchanged run i n m Hle Hun) in Em. congruence.
Qed.

(** The run that stores a page in every transaction: the content of the first
    is committed. *)
Lemma stores_eventually_committed_witness : exists (w : world fmst) p m bs',
  let s := turns (dp_b p).1 (false, demo_mem, w) in
  a_now (mem_of (s 2%nat)) !! 0 = Some (replicate 4096 1) /\
  (2 <= m)%nat /\ a_now (mem_of (s m)) !! 0 = Some bs' /\ entry_holds (world_of (s m)) (se_addr (dp_b p).1 0) bs' bs'.
Proof.
  destruct demo_exists as (w & p & H). exists w, p. pose proof (demo_idle w p H) as Hi. assert (Hk : (30 <= 58)%nat) by lia.
  set (run := turns (dp_b p).1 (false, demo_mem, w)).
  assert (H0 : txn_ok (demo_geom p) 58 (run 0%nat)) by exact Hi.
  assert (Hk0 : is_Some (a_now (mem_of (run 0%nat)) !! 0)) by (eexists; reflexivity).
  assert (Hr : is_run (g_sb (demo_geom p)) run).
  { intros n. apply (turns_ok (demo_geom p) 58 (false, demo_mem, w) n Hk H0 eq_refl Hk0). }
  assert (Hend : transactions_end run).
  { intros n. exists (3 * n)%nat. split; [lia|].
    destruct (turns_ok (demo_geom p) 58 (false, demo_mem, w) (3 * n) Hk H0 eq_refl Hk0) as (_ & E & _).
    unfold run. change (dp_b p).1 with (g_sb (demo_geom p)). rewrite E. rewrite Nat.mul_comm, Nat.Div0.mod_mul. reflexivity. }
  assert (E2 : a_now (mem_of (run 2%nat)) !! 0 = Some (replicate 4096 1)) by reflexivity.
  destruct (stores_eventually_committed (demo_geom p) 58 run 2 0 _ Hk H0 Hr Hend E2) as (m & bs' & Hle & _ & Em & Hh & _).
  exists m, bs'. split_and!; [exact E2|exact Hle|exact Em|exact Hh].
Defined.
