(* ===== verification/Index.v ===== *)
(** * The index that a restart rebuilds: [index_slab_entry] of [restore.c]

    The walk over a bucket puts every entry in use into the tree by address
    and into the queue of its size class, which is created when it is the
    first of its size, and every other entry into the free list.  [indexed]
    says what has been built; one call of [index_slab_entry] extends it by
    its entry. *)
From Stdlib Require Import ZArith Lia Sorted.
From stdpp Require Import base numbers gmap option list.
From S2P Require Import Prelude Macros Bitstring Vector Queue Process RBTree FixedMapper PageAlloc.
From S2P Require Import SlabLayout World Snapshot Slab Alloc Checkpoint Txn Restore Recovery.
Open Scope Z_scope.

(** ** Entries up to their links *)
Definition erase (e : slab_entry) : slab_entry := set_se_list None e.

Definition same_links (b b' : slab_bucket) : Prop :=
  sb_id b' = sb_id b /\ sb_has_snapshot b' = sb_has_snapshot b /\ erase <$> sb_entries b' = erase <$> sb_entries b.

#[export] Instance same_links_equiv : Equivalence same_links.
Proof.
  split; [by intros b|by intros b b' (H1 & H2 & H3)|]. intros b1 b2 b3 (H1 & H2 & H3) (H4 & H5 & H6).
  split_and!; congruence.
Qed.

Lemma same_links_entry b b' se e :
  same_links b b' -> entry_of b se = Some e -> exists n, entry_of b' se = Some (set_se_list n e).
Proof.
  intros (_ & _ & H) He. assert (Hz : erase <$> entry_of b' se = erase <$> entry_of b se).
  { unfold entry_of, zget. destruct (0 <=? SLAB_ENTRY_INDEX se); [|done]. by rewrite <- !list_lookup_fmap, H. }
  rewrite He in Hz. simpl in Hz. destruct (entry_of b' se) as [e'|]; [|done].
  destruct e, e'. simpl in Hz. injection Hz as -> -> -> -> -> ->. by eexists.
Qed.

Lemma same_links_put b se e n : entry_of b se = Some e -> same_links b (put_entry b se (set_se_list n e)).
Proof.
  intros He. split_and!; [done|done|]. unfold put_entry. cbn [sb_entries]. rewrite list_fmap_insert.
  apply list_insert_id. rewrite list_lookup_fmap. apply zget_Some_nat in He. by rewrite He.
Qed.

(** The address of the data page of an entry, and its size. *)
Definition size_in (b : slab_bucket) (se : Z) : Z := se_size (default zero_entry (entry_of b se)).

Lemma same_links_key b b' se : same_links b b' -> key_in b' se = key_in b se /\ size_in b' se = size_in b se.
Proof.
  intros Hb. unfold key_in, size_in. destruct (entry_of b se) as [e|] eqn:E.
  - by destruct (same_links_entry _ _ _ _ Hb E) as [n ->].
  - destruct (entry_of b' se) as [e'|] eqn:E'; [|done]. symmetry in Hb.
    destruct (same_links_entry _ _ _ _ Hb E') as [n En]. congruence.
Qed.

(** ** The links of the entries of a bucket *)
Section links.
Context {PS : Type} `{PA : PageAllocator PS}.
Context (sb lb : Z).
Implicit Types (w : world PS) (b : slab_bucket).

Definition in_bucket_page (se : Z) : bool := (se_page se =? sb) && (se =? se_addr sb (SLAB_ENTRY_INDEX se)).

Definition bucket_of w : option slab_bucket :=
  if decide (vm_of (w_pa w) !! sb = Some lb) then
    if writable w sb then match w_file w !! lb with Some (PgBucket b) => Some b | _ => None end else None
  else None.

Lemma bucket_of_at w b : bucket_of w = Some b <-> bucket_at w sb lb b.
Proof using.
  unfold bucket_of. split.
  - case_decide as Hv; [|done]. destruct (writable w sb) eqn:Hw; [|done]. destruct (w_file w !! lb) as [[]|] eqn:Ef; try done.
    intros [= ->]. by split.
  - intros [H1 H2 H3]. by rewrite decide_True, H2, H3 by done.
Qed.

Definition link_view w (se : Z) : option (option Z) :=
  if in_bucket_page se then (b ← bucket_of w; e ← entry_of b se; Some (se_list e)) else None.

Lemma link_view_Some w se v :
  link_view w se = Some v <-> exists b e, in_bucket_page se = true /\ bucket_at w sb lb b /\ entry_of b se = Some e /\ se_list e = v.
Proof using.
  unfold link_view. split.
  - destruct (in_bucket_page se) eqn:Hi; [|done]. destruct (bucket_of w) as [b|] eqn:Eb; [|done]. simpl.
    destruct (entry_of b se) as [e|] eqn:Ee; [|done]. intros [= <-]. exists b, e. rewrite <- bucket_of_at. done.
  - intros (b & e & -> & Hb%bucket_of_at & He & <-). rewrite Hb. simpl. by rewrite He.
Qed.

Lemma in_bucket_page_spec se : in_bucket_page se = true <-> se_page se = sb /\ se = se_addr sb (SLAB_ENTRY_INDEX se).
Proof using. unfold in_bucket_page. by rewrite andb_true_iff, !Z.eqb_eq. Qed.

Lemma wp_set_link w b se e n (Q : unit -> world PS -> Prop) :
  bucket_at w sb lb b -> in_bucket_page se = true -> entry_of b se = Some e ->
  (bucket_at (wrote w lb (PgBucket (put_entry b se (set_se_list n e)))) sb lb (put_entry b se (set_se_list n e)) ->
   Q tt (wrote w lb (PgBucket (put_entry b se (set_se_list n e))))) ->
  wp (set_stqe_next se n) Q w.
Proof using.
  intros Hb [Hp _]%in_bucket_page_spec He HQ. simpl. by eapply (wp_upd_se_at w sb lb b se e (set_se_list n)).
Qed.

#[local] Instance bucket_links : SLinksLaws (world PS) Z.
Proof using sb lb.
  refine {| slink_view := link_view |}.
  - intros w se v (b & e & [Hp _]%in_bucket_page_spec & Hb & He & <-)%link_view_Some. simpl.
    assert (Hw : wp (get_se se) (fun x w' => x = e /\ w' = w) w) by by eapply wp_get_se_at.
    apply wp_run in Hw as (x & w' & E & -> & ->). unfold bind. by rewrite E.
  - intros w se v [v0 (b & e & Hi & Hb & He & <-)%link_view_Some].
    assert (Hw : wp (set_stqe_next se v) (fun _ w' => w' = wrote w lb (PgBucket (put_entry b se (set_se_list v e))) /\
      bucket_at w' sb lb (put_entry b se (set_se_list v e))) w) by by eapply wp_set_link.
    apply wp_run in Hw as ([] & w' & E & -> & Hb'). eexists. split; [exact E|]. intros j. unfold link_view.
    destruct (in_bucket_page j) eqn:Hj.
    + rewrite (proj2 (bucket_of_at _ _) Hb'), (proj2 (bucket_of_at _ _) Hb). simpl. case_decide as Hjs.
      * subst j. by erewrite entry_put by done.
      * rewrite entry_put_ne; [done| |].
        -- intros E'. apply Hjs. apply in_bucket_page_spec in Hi as [_ ->], Hj as [_ ->]. by rewrite E'.
        -- by apply zget_lt in He as [? _].
    + case_decide; [congruence|done].
Defined.

(** What the stores of links do to the world. *)
Definition relinked w w' : Prop :=
  forall b, bucket_at w sb lb b -> exists b', same_links b b' /\ bucket_at w' sb lb b' /\ w' = wrote w lb (PgBucket b').

#[local] Instance relinked_preorder : PreOrder relinked.
Proof using.
  split.
  - intros w b Hb. exists b. split_and!; [done|done|]. symmetry. apply wrote_id, (ba_file _ _ _ _ Hb).
  - intros w1 w2 w3 H1 H2 b Hb. destruct (H1 b Hb) as (b' & Hs1 & Hb1 & ->). destruct (H2 b' Hb1) as (b'' & Hs2 & Hb2 & ->).
    exists b''. split_and!; [by transitivity b'|done|]. by rewrite wrote_wrote.
Qed.

Lemma set_link_relinked w k v w' :
  is_Some (slink_view w k) -> set_stqe_next k v w = Ok tt w' -> relinked w w'.
Proof using.
  intros [v0 (b0 & e & Hi & Hb0 & He & _)%link_view_Some] E b Hb.
  assert (b0 = b) as -> by (destruct Hb0 as [_ _ F1], Hb as [_ _ F2]; congruence).
  assert (Hw : wp (set_stqe_next k v) (fun _ w1 => w1 = wrote w lb (PgBucket (put_entry b k (set_se_list v e))) /\
    bucket_at w1 sb lb (put_entry b k (set_se_list v e))) w) by by eapply wp_set_link.
  unfold wp in Hw. rewrite E in Hw. destruct Hw as [-> Hb']. eexists. split_and!; [|exact Hb'|done]. by apply same_links_put.
Qed.

(** An entry of the bucket, at its address. *)
Definition entry_at_addr b (se : Z) (e : slab_entry) : Prop := in_bucket_page se = true /\ entry_of b se = Some e.

Lemma entry_view w b se e : bucket_at w sb lb b -> entry_at_addr b se e -> is_Some (slink_view w se).
Proof using. intros Hb [Hi He]. exists (se_list e). apply link_view_Some. by exists b, e. Qed.

(** What an insertion leaves of the other queues. *)
Definition others_kept w w' (l : list Z) (elm : Z) : Prop :=
  forall h2 l2, stailq_repr w h2 l2 -> (forall j, j ∈ l2 -> j <> elm /\ j ∉ l) -> stailq_repr w' h2 l2.

Lemma frame_kept w w' l elm :
  (forall j, j <> elm -> j ∉ l -> slink_view w' j = slink_view w j) -> others_kept w w' l elm.
Proof using.
  intros Hf h2 l2 (Hl & Hlast & Hnd) Hj. split_and!; [|done|done]. eapply lseg_frame; [exact Hl|].
  intros j Hjl. by apply Hf; apply Hj.
Qed.

Lemma wp_insert_tail w b h l elm e (Q : stailq Z -> world PS -> Prop) :
  bucket_at w sb lb b -> stailq_repr w h l -> elm ∉ l -> entry_at_addr b elm e ->
  (forall h' b', let w' := wrote w lb (PgBucket b') in same_links b b' -> bucket_at w' sb lb b' ->
     stailq_repr w' h' (l ++ [elm]) -> others_kept w w' l elm -> Q h' w') ->
  wp (STAILQ_INSERT_TAIL h elm) Q w.
Proof using.
  intros Hb Hq Hn He HQ. pose proof (entry_view _ _ _ _ Hb He) as Hv.
  eapply wp_mono; [apply wp_and; [by apply STAILQ_INSERT_TAIL_repr|]|].
  - eapply (STAILQ_INSERT_TAIL_steps relinked _ set_link_relinked); done.
  - intros h' w' [[Hr Hf] Hrel]. destruct (Hrel b Hb) as (b' & Hs & Hb' & ->). apply (HQ h' b'); try done. by apply frame_kept.
Qed.

Lemma wp_insert_head w b h l elm e (Q : stailq Z -> world PS -> Prop) :
  bucket_at w sb lb b -> stailq_repr w h l -> elm ∉ l -> entry_at_addr b elm e ->
  (forall h' b', let w' := wrote w lb (PgBucket b') in same_links b b' -> bucket_at w' sb lb b' ->
     stailq_repr w' h' (elm :: l) -> others_kept w w' l elm -> Q h' w') ->
  wp (STAILQ_INSERT_HEAD h elm) Q w.
Proof using.
  intros Hb Hq Hn He HQ. pose proof (entry_view _ _ _ _ Hb He) as Hv.
  eapply wp_mono; [apply wp_and; [by apply STAILQ_INSERT_HEAD_repr|]|].
  - apply (STAILQ_INSERT_HEAD_steps relinked set_link_relinked); done.
  - intros h' w' [[Hr Hf] Hrel]. destruct (Hrel b Hb) as (b' & Hs & Hb' & ->). apply (HQ h' b'); try done.
    apply frame_kept. intros j Hj _. apply Hf. intros Hin%list_elem_of_singleton. done.
Qed.

(** ** What has been built *)
Context (sd ld : Z) (Hne : lb <> ld).

(** A writable page with its content. *)
Record at_place w (a l : Z) (p : page) : Prop := {
  ap_map : vm_of (w_pa w) !! a = Some l;
  ap_write : writable w a = true;
  ap_file : w_file w !! l = Some p;
}.

(** A world in which nothing but the pages at [lb] and [ld], the size classes
    and the break may differ. *)
Record stable w w' : Prop := {
  sta_vm : vm_of (w_pa w') = vm_of (w_pa w);
  sta_prot : prot_of (w_pa w') = prot_of (w_pa w);
  sta_file : forall l, l <> lb -> l <> ld -> w_file w' !! l = w_file w !! l;
  sta_map : forall l x, page_allocator_mappage l (w_pa w) = Ok x (w_pa w) -> page_allocator_mappage l (w_pa w') = Ok x (w_pa w');
}.

#[export] Instance stable_preorder : PreOrder stable.
Proof using.
  split; [by intros w|]. intros w1 w2 w3 [H1 H2 H3 H4] [H5 H6 H7 H8].
  split; [congruence|congruence|intros l Hl1 Hl2; by rewrite H7, H3|intros l x E; by apply H8, H4].
Qed.

Lemma stable_wrote_bucket w b : stable w (wrote w lb (PgBucket b)).
Proof using. split; try done. intros l Hl _. by apply lookup_insert_ne. Qed.
Lemma stable_wrote_dir w d : stable w (wrote w ld (PgDir d)).
Proof using. split; try done. intros l _ Hl. by apply lookup_insert_ne. Qed.

Lemma at_place_same w w' a l p :
  at_place w a l p -> vm_of (w_pa w') = vm_of (w_pa w) -> prot_of (w_pa w') = prot_of (w_pa w) ->
  w_file w' !! l = w_file w !! l -> at_place w' a l p.
Proof using. intros [H1 H2 H3] E1 E2 E3. split; [congruence| |congruence]. unfold writable in *. by rewrite E2. Qed.

Lemma at_place_wrote w a l p q : at_place w a l p -> at_place (wrote w l q) a l q.
Proof using. intros [H1 H2 _]. split; [done|done|]. apply lookup_insert_eq. Qed.

Lemma at_place_wrote_ne w a l l' p q : at_place w a l p -> l' <> l -> at_place (wrote w l' q) a l p.
Proof using. intros [H1 H2 H3] Hl. split; [done|done|]. by rewrite <- H3; apply lookup_insert_ne. Qed.

Lemma bucket_place w b : bucket_at w sb lb b <-> at_place w sb lb (PgBucket b).
Proof using. split; intros [H1 H2 H3]; by split. Qed.

Lemma wp_read_place {T} `{PageType T} w a l p (x : T) (Q : T -> world PS -> Prop) :
  at_place w a l p -> as_page p = Some x -> Q x w -> wp (read a) Q w.
Proof using. intros [H1 _ H3] Ex HQ. eapply wp_read; [unfold page_at; rewrite H1; simpl; by rewrite H3|done|done]. Qed.

Lemma wp_write_place {T} `{PageType T} w a l p (x : T) (Q : unit -> world PS -> Prop) :
  at_place w a l p -> Q tt (wrote w l (to_page x)) -> wp (write a x) Q w.
Proof using.
  intros [H1 H2 _] HQ. unfold write. eapply wp_ok; [|exact HQ]. unfold store, bind, gets. rewrite H2. simpl.
  unfold store_raw. by rewrite H1, H2.
Qed.

(** The links stay when the bucket stays. *)
Lemma view_same w w' b : bucket_at w sb lb b -> bucket_at w' sb lb b -> forall j, slink_view w' j = slink_view w j.
Proof using.
  intros Hb Hb' j. simpl. unfold link_view. by rewrite (proj2 (bucket_of_at _ _) Hb), (proj2 (bucket_of_at _ _) Hb').
Qed.

Lemma repr_same w w' b h l : bucket_at w sb lb b -> bucket_at w' sb lb b -> stailq_repr w h l -> stailq_repr w' h l.
Proof using.
  intros Hb Hb' (Hl & Hlast & Hnd). split_and!; [|done|done]. eapply lseg_frame; [exact Hl|]. intros j _. by apply (view_same w w' b).
Qed.

(** The size classes: the tree of the directory leads to queues of the
    entries [classed], by their sizes. *)
Record classes w b (d : slab_dir) (classed : list Z) : Prop := {
  cl_tree : rb_tree (sd_size_root d);
  cl_sorted : key_sorted (fun es => es_size (es_at w es)) (inorder (sd_size_root d));
  cl_queue : forall es, es ∈ inorder (sd_size_root d) -> exists q l, w_sizes w !! es = Some q /\ stailq_repr w (es_list q) l /\
    forall se, se ∈ l <-> se ∈ classed /\ size_in b se = es_size q;
  cl_has : forall se, se ∈ classed -> exists es, es ∈ inorder (sd_size_root d) /\ es_size (es_at w es) = size_in b se;
  cl_fresh : forall es, is_Some (w_sizes w !! es) -> es < p_brk (pa_proc (w_pa w));
}.

(** The tree by address holds the entries [treed]. *)
Record addressed b (d : slab_dir) (treed : list Z) : Prop := {
  ad_tree : rb_tree (sd_maddr_root d);
  ad_sorted : key_sorted (key_in b) (inorder (sd_maddr_root d));
  ad_elems : forall se, se ∈ inorder (sd_maddr_root d) <-> se ∈ treed;
}.

Record indexed w b (d : slab_dir) (treed classed free : list Z) : Prop := {
  ix_bucket : bucket_at w sb lb b;
  ix_dir : at_place w sd ld (PgDir d);
  ix_entries : forall se, se ∈ treed ++ classed ++ free -> exists e, entry_at_addr b se e;
  ix_apart : forall se, se ∈ classed -> se ∉ free;
  ix_addressed : addressed b d treed;
  ix_classes : classes w b d classed;
  ix_free : stailq_repr w (sd_free_list d) free;
}.

Lemma entry_same b b' se e : same_links b b' -> entry_at_addr b se e -> exists n, entry_at_addr b' se (set_se_list n e).
Proof using. intros Hb [Hi He]. destruct (same_links_entry _ _ _ _ Hb He) as [n Hn]. by exists n. Qed.

Lemma addressed_same b b' d d' treed :
  addressed b d treed -> same_links b b' -> sd_maddr_root d' = sd_maddr_root d -> addressed b' d' treed.
Proof using.
  intros [H1 H2 H3] Hb Hd. split; rewrite ?Hd; [done| |done]. eapply key_sorted_ext; [|exact H2].
  intros se _. symmetry. by apply same_links_key.
Qed.

Lemma classes_same w w' b b' d d' classed :
  classes w b d classed -> same_links b b' -> sd_size_root d' = sd_size_root d -> w_sizes w' = w_sizes w ->
  p_brk (pa_proc (w_pa w)) <= p_brk (pa_proc (w_pa w')) ->
  (forall h l, stailq_repr w h l -> (forall j, j ∈ l -> j ∈ classed) -> stailq_repr w' h l) -> classes w' b' d' classed.
Proof using.
  intros [H1 H2 H3 H4 H5] Hb Hd Hs Hbr Hq. assert (Hes : forall es, es_at w' es = es_at w es) by (intros es; unfold es_at; by rewrite Hs).
  split; rewrite ?Hd.
  - done.
  - eapply key_sorted_ext; [|exact H2]. intros es _. by rewrite Hes.
  - intros es He. destruct (H3 es He) as (q & l & Eq & Hr & Hl). exists q, l. rewrite Hs. split_and!; [done| |].
    + apply Hq; [done|]. intros j Hj. by apply Hl.
    + intros se. rewrite Hl. by rewrite (proj2 (same_links_key _ _ se Hb)).
  - intros se Hse. destruct (H4 se Hse) as (es & He & Es). exists es. rewrite Hes, (proj2 (same_links_key _ _ se Hb)). done.
  - intros es. rewrite Hs. intros He. specialize (H5 es He). lia.
Qed.

(** *** The free list *)
Lemma index_free w b d treed classed free se e (Q : unit -> world PS -> Prop) :
  indexed w b d treed classed free -> entry_at_addr b se e -> se ∉ classed -> se ∉ free ->
  (forall w' b' d', same_links b b' -> sd_node d' = sd_node d -> stable w w' ->
     indexed w' b' d' treed classed (free ++ [se]) -> Q tt w') ->
  wp (on_free_list sd (fun q => STAILQ_INSERT_TAIL q se)) Q w.
Proof using Hne.
  intros [Hb Hd Hen Hap Had Hcl Hfr] He Hc Hf HQ. unfold on_free_list. apply wp_bind. eapply wp_read_place; [exact Hd|done|].
  apply wp_bind. eapply wp_insert_tail; [exact Hb|exact Hfr|done|exact He|]. cbv zeta. intros q' b' Hs Hb' Hq Hoth.
  pose proof (at_place_wrote_ne w sd ld lb _ (PgBucket b') Hd Hne) as Hd'. set (w1 := wrote w lb (PgBucket b')) in *.
  unfold upd. apply wp_bind. eapply wp_read_place; [exact Hd'|done|]. eapply wp_write_place; [exact Hd'|].
  set (w2 := wrote w1 ld _). assert (Hb2 : bucket_at w2 sb lb b') by (apply bucket_place, at_place_wrote_ne; [by apply bucket_place|done]).
  assert (Hk : forall h l, stailq_repr w h l -> (forall j, j ∈ l -> j ∈ classed) -> stailq_repr w2 h l).
  { intros h l Hr Hj. eapply repr_same; [exact Hb'|exact Hb2|]. apply Hoth; [done|]. intros j Hjl%Hj.
    split; [by intros ->|by apply Hap]. }
  apply (HQ w2 b' (set_sd_free_list q' d)); [done|done| |].
  { transitivity w1; [apply stable_wrote_bucket|]. unfold w2. apply (stable_wrote_dir w1 (set_sd_free_list q' d)). }
  split.
  - exact Hb2.
  - eapply at_place_wrote. exact Hd'.
  - intros x Hx. assert (Hx' : x ∈ treed ++ classed ++ free \/ x = se) by set_solver.
    destruct Hx' as [Hx'| ->]; [destruct (Hen x Hx') as [y Hy]; destruct (entry_same _ _ _ _ Hs Hy) as [n Hn]; by eexists|].
    destruct (entry_same _ _ _ _ Hs He) as [n Hn]. by eexists.
  - intros x Hx. rewrite elem_of_app, list_elem_of_singleton. intros [Hxf| ->]; [by apply (Hap x)|done].
  - by eapply addressed_same.
  - eapply (classes_same w w2); [exact Hcl|exact Hs|done|done|apply Z.le_refl|exact Hk].
  - eapply (repr_same _ w2); [exact Hb'|exact Hb2|exact Hq].
Qed.

(** *** The tree by address *)
Lemma compare_entries a c : d_maddr (se_data_snapshot a) <> SE_SEARCH_MADDR ->
  slab_entry_compare_by_maddr a c = cmp_ptr (d_maddr (se_data_current a)) (d_maddr (se_data_current c)).
Proof using. intros H. unfold slab_entry_compare_by_maddr, SLAB_ENTRY_SEARCH_TYPE. by destruct (Z.eqb_spec (d_maddr (se_data_snapshot a)) SE_SEARCH_MADDR). Qed.

Lemma se_at_bucket w b se e : bucket_at w sb lb b -> entry_at_addr b se e -> se_at w se = e.
Proof using.
  intros [H1 _ H3] [[Hp _]%in_bucket_page_spec He]. unfold se_at. rewrite Hp. unfold page_at. rewrite H1. simpl.
  rewrite H3. simpl. by rewrite He.
Qed.

Lemma index_tree w b d treed classed free se e (Q : unit -> world PS -> Prop) :
  indexed w b d treed classed free -> entry_at_addr b se e -> d_maddr (se_data_snapshot e) <> SE_SEARCH_MADDR ->
  (forall x, x ∈ treed -> key_in b x <> key_in b se) ->
  (forall w' d', sd_node d' = sd_node d -> stable w w' -> indexed w' b d' (treed ++ [se]) classed free -> Q tt w') ->
  wp (insert_maddr sd se) Q w.
Proof using Hne.
  intros [Hb Hd Hen Hap [Ht Hts Hte] Hcl Hfr] He Hty Hk HQ. unfold insert_maddr. apply wp_bind. eapply wp_read_place; [exact Hd|done|].
  apply wp_bind, wp_gets. set (f := fun x => d_maddr (se_data_current (se_at w x))).
  assert (Hf : forall x ex, entry_at_addr b x ex -> f x = key_in b x).
  { intros x ex Hx. unfold f, key_in. destruct Hx as [Hx1 Hx2]. rewrite Hx2. by rewrite (se_at_bucket w b x ex Hb). }
  assert (Hft : forall x, x ∈ inorder (sd_maddr_root d) -> f x = key_in b x).
  { intros x Hx%Hte. destruct (Hen x) as [y Hy]; [apply elem_of_app; by left|]. by eapply Hf. }
  destruct (RB_INSERT_key f (fun a c => slab_entry_compare_by_maddr (se_at w a) (se_at w c)) (sd_maddr_root d) se)
    as (t & Er & Ht' & Hs' & Hin').
  - intros x. rewrite (se_at_bucket w b se e Hb He) at 1. rewrite compare_entries by done. unfold f. by rewrite (se_at_bucket w b se e Hb He).
  - exact Ht.
  - eapply key_sorted_ext; [|exact Hts]. intros x Hx. symmetry. by apply Hft.
  - intros x Hx. rewrite (Hft x Hx), (Hf se e He). apply Hk. by apply Hte.
  - apply wp_bind. rewrite Er. apply wp_ret. eapply wp_write_place; [exact Hd|]. cbn [snd].
    set (w' := wrote w ld _). assert (Hb' : bucket_at w' sb lb b) by (apply bucket_place, at_place_wrote_ne; [by apply bucket_place|done]).
    apply (HQ w' (set_sd_maddr_root t d)); [done|apply stable_wrote_dir|]. split.
    + exact Hb'.
    + eapply at_place_wrote. exact Hd.
    + intros x Hx. assert (Hx' : x ∈ treed ++ classed ++ free \/ x = se) by set_solver.
      destruct Hx' as [Hx'| ->]; [by apply Hen|by eexists].
    + done.
    + split; cbn [sd_maddr_root set_sd_maddr_root]; [done| |].
      * eapply key_sorted_ext; [|exact Hs']. intros x [->|Hx]%Hin'; [by eapply Hf|by apply Hft].
      * intros x. rewrite Hin', Hte. set_solver.
    + eapply (classes_same w w'); [exact Hcl|done|done|done|apply Z.le_refl|]. intros h l Hr _. by eapply (repr_same w w').
    + by eapply (repr_same w w').
Qed.
(** *** The size classes *)
Lemma wp_find_size w d s (Q : option Z -> world PS -> Prop) :
  key_sorted (fun es => es_size (es_at w es)) (inorder (sd_size_root d)) -> in_u 32 s ->
  (forall es, es ∈ inorder (sd_size_root d) -> es_size (es_at w es) = s -> Q (Some es) w) ->
  ((forall es, es ∈ inorder (sd_size_root d) -> es_size (es_at w es) <> s) -> Q None w) ->
  wp (find_size d s) Q w.
Proof using.
  intros Hs Hr HS HN. unfold find_size. apply wp_gets. unfold u32. rewrite wrap_id by done.
  destruct (List.in_dec Z.eq_dec s (map (fun es => es_size (es_at w es)) (inorder (sd_size_root d)))) as [Hin|Hin].
  - apply List.in_map_iff in Hin as (es & E & He%list_elem_of_In).
    assert (Ef : RB_FIND (fun _ y => cmp_ptr s (es_size (es_at w y))) (sd_size_root d) 0 = Some es)
      by (by apply (RB_FIND_key (fun es => es_size (es_at w es)))).
    unfold cmp_ptr in Ef. unfold slab_entry_size_compare_by_size. cbn [es_size]. rewrite Ef. by apply HS.
  - assert (Hn : forall es, es ∈ inorder (sd_size_root d) -> es_size (es_at w es) <> s).
    { intros es He E. apply Hin, List.in_map_iff. exists es. split; [done|by apply list_elem_of_In]. }
    assert (Ef : RB_FIND (fun _ y => cmp_ptr s (es_size (es_at w y))) (sd_size_root d) 0 = None)
      by (by apply (RB_FIND_none (fun es => es_size (es_at w es)))).
    unfold cmp_ptr in Ef. unfold slab_entry_size_compare_by_size. cbn [es_size]. rewrite Ef. by apply HN.
Qed.

(** An insertion, at either end. *)
Definition inserts (ins : stailq Z -> Z -> M (world PS) (stailq Z)) : Prop :=
  forall w b h l elm e (Q : stailq Z -> world PS -> Prop),
    bucket_at w sb lb b -> stailq_repr w h l -> elm ∉ l -> entry_at_addr b elm e ->
    (forall h' l' b', let w' := wrote w lb (PgBucket b') in same_links b b' -> bucket_at w' sb lb b' ->
       stailq_repr w' h' l' -> (forall x, x ∈ l' <-> x ∈ l \/ x = elm) -> others_kept w w' l elm -> Q h' w') ->
    wp (ins h elm) Q w.

Lemma inserts_tail : inserts (fun q se => STAILQ_INSERT_TAIL q se).
Proof using.
  intros w b h l elm e Q Hb Hq Hn He HQ. eapply wp_insert_tail; [done..|]. intros h' b' w' Hs Hb' Hr Ho.
  apply (HQ h' (l ++ [elm]) b'); try done. intros x. by rewrite elem_of_app, list_elem_of_singleton.
Qed.

Lemma inserts_head : inserts (fun q se => STAILQ_INSERT_HEAD q se).
Proof using.
  intros w b h l elm e Q Hb Hq Hn He HQ. eapply wp_insert_head; [done..|]. intros h' b' w' Hs Hb' Hr Ho.
  apply (HQ h' (elm :: l) b'); try done. intros x. rewrite elem_of_cons. tauto.
Qed.

(** The size classes after an entry joined one of them. *)
Lemma classes_join w w' b b' d classed es q l se h' l' :
  classes w b d classed -> es ∈ inorder (sd_size_root d) -> w_sizes w !! es = Some q -> stailq_repr w (es_list q) l ->
  (forall x, x ∈ l <-> x ∈ classed /\ size_in b x = es_size q) -> size_in b se = es_size q -> se ∉ classed ->
  same_links b b' -> w_sizes w' = <[es := EntrySize (es_size q) h']> (w_sizes w) ->
  p_brk (pa_proc (w_pa w')) = p_brk (pa_proc (w_pa w)) ->
  stailq_repr w' h' l' -> (forall x, x ∈ l' <-> x ∈ l \/ x = se) -> others_kept w w' l se ->
  classes w' b' d (classed ++ [se]).
Proof using.
  intros [H1 H2 H3 H4 H5] Hes Eq Hr Hl Hsz Hse Hs Ew Ebr Hr' Hl' Ho.
  assert (Hat : forall x, es_size (es_at w' x) = es_size (es_at w x)).
  { intros x. unfold es_at. rewrite Ew. destruct (decide (x = es)) as [->|]; [by rewrite lookup_insert_eq, Eq|by rewrite lookup_insert_ne]. }
  assert (Ekey : forall x, size_in b' x = size_in b x) by (intros x; by apply same_links_key).
  split.
  - done.
  - eapply key_sorted_ext; [|exact H2]. intros x _. by rewrite Hat.
  - intros x Hx. rewrite Ew. destruct (decide (x = es)) as [->|Hne'].
    + exists (EntrySize (es_size q) h'), l'. rewrite lookup_insert_eq. split_and!; [done|done|]. intros y. cbn [es_size].
      rewrite Hl', Hl, Ekey, elem_of_app, list_elem_of_singleton. split; [intros [[? ?]| ->]; tauto|intros [[?| ->] ?]; tauto].
    + destruct (H3 x Hx) as (q2 & l2 & E2 & Hr2 & Hl2). exists q2, l2. rewrite lookup_insert_ne by done.
      assert (Hq : es_size q2 <> es_size q).
      { intros E. apply Hne'. eapply (key_sorted_inj (fun es => es_size (es_at w es))); [exact H2|done|done|]. unfold es_at. by rewrite E2, Eq. }
      split_and!; [done| |].
      * apply Ho; [done|]. intros j [Hj1 Hj2]%Hl2. split; [by intros ->|]. intros [_ Hj3]%Hl. congruence.
      * intros y. rewrite Hl2, Ekey, elem_of_app, list_elem_of_singleton. split; [tauto|]. intros [[?| ->] ?]; [tauto|congruence].
  - intros x [Hx|Hx%list_elem_of_singleton]%elem_of_app.
    + destruct (H4 x Hx) as (y & Hy & Ey). exists y. by rewrite Hat, Ekey.
    + subst x. exists es. rewrite Hat, Ekey. split; [done|]. unfold es_at. rewrite Eq. by rewrite Hsz.
  - intros x. rewrite Ebr, Ew. intros Hx. apply H5. destruct (decide (x = es)) as [->|]; [by rewrite Eq|by rewrite lookup_insert_ne in Hx].
Qed.

Lemma index_class ins w b d treed classed free es se e (Q : unit -> world PS -> Prop) :
  inserts ins -> indexed w b d treed classed free -> entry_at_addr b se e -> se ∉ classed -> se ∉ free ->
  es ∈ inorder (sd_size_root d) -> es_size (es_at w es) = size_in b se ->
  (forall w' b', same_links b b' -> stable w w' -> indexed w' b' d treed (classed ++ [se]) free -> Q tt w') ->
  wp (on_es_list es (fun q => ins q se)) Q w.
Proof using Hne.
  intros Hins [Hb Hd Hen Hap Had Hcl Hfr] He Hc Hf Hes Esz HQ. destruct (cl_queue _ _ _ _ Hcl es Hes) as (q & l & Eq & Hr & Hl).
  unfold es_at in Esz. rewrite Eq in Esz. simpl in Esz.
  unfold on_es_list. apply wp_bind. unfold get_es, wp at 1. rewrite Eq. apply wp_bind.
  eapply Hins; [exact Hb|exact Hr|rewrite Hl; tauto|exact He|]. cbv zeta. intros h' l' b' Hs Hb' Hr' Hl' Ho.
  pose proof (at_place_wrote_ne w sd ld lb _ (PgBucket b') Hd Hne) as Hd'. set (w1 := wrote w lb (PgBucket b')) in *.
  unfold put_es. apply wp_modify. set (w2 := set_w_sizes _ w1).
  assert (Hb2 : bucket_at w2 sb lb b') by (destruct Hb'; by split).
  assert (Hk : forall h l, stailq_repr w1 h l -> stailq_repr w2 h l) by (intros h1 l1; by apply (repr_same w1 w2 b')).
  apply (HQ w2 b'); [done| |].
  { transitivity w1; [apply stable_wrote_bucket|]. by split. }
  split.
  - exact Hb2.
  - destruct Hd'. by split.
  - intros x Hx. assert (Hx' : x ∈ treed ++ classed ++ free \/ x = se) by set_solver.
    destruct Hx' as [Hx'| ->]; [destruct (Hen x Hx') as [y Hy]; destruct (entry_same _ _ _ _ Hs Hy) as [n Hn]; by eexists|].
    destruct (entry_same _ _ _ _ Hs He) as [n Hn]. by eexists.
  - intros x [Hx|Hx%list_elem_of_singleton]%elem_of_app; [by apply Hap|by subst].
  - by eapply addressed_same.
  - eapply (classes_join w w2); [exact Hcl|exact Hes|exact Eq|exact Hr|exact Hl|done|exact Hc|exact Hs|done|done| |exact Hl'|].
    + by apply Hk.
    + intros h2 l2 Hr2 Hj. by apply Hk, Ho.
  - apply Hk, Ho; [exact Hfr|]. intros j Hj. split; [by intros ->|]. intros [Hjc _]%Hl. by apply (Hap j).
Qed.
End links.

(** ** One call of [index_slab_entry] *)
Section index.
Context {PS : Type} `{AM : AllocatorMalloc PS}.
Context (sb lb sd ld : Z) (Hne : lb <> ld).
Implicit Types (w : world PS) (b : slab_bucket).
#[local] Hint Extern 0 (SLinksLaws (world PS) Z) => exact (bucket_links sb lb) : typeclass_instances.
Notation indexed := (indexed sb lb sd ld).

(** A new size class, in the tree and still without entries. *)
Lemma classes_new w w' b d d' classed es s :
  classes sb lb w b d classed -> (forall x, x ∈ inorder (sd_size_root d) -> es_size (es_at w x) <> s) ->
  es = p_brk (pa_proc (w_pa w)) -> p_brk (pa_proc (w_pa w')) = es + 1 ->
  w_sizes w' = <[es := EntrySize s STAILQ_INIT]> (w_sizes w) ->
  rb_tree (sd_size_root d') -> key_sorted (fun es => es_size (es_at w' es)) (inorder (sd_size_root d')) ->
  (forall x, x ∈ inorder (sd_size_root d') <-> x = es \/ x ∈ inorder (sd_size_root d)) ->
  (forall h l, stailq_repr w h l -> stailq_repr w' h l) ->
  classes sb lb w' b d' classed.
Proof.
  intros [H1 H2 H3 H4 H5] Hno Ees Ebr Ew Ht Hs Hin Hk.
  assert (Hold : forall x, x ∈ inorder (sd_size_root d) -> x <> es).
  { intros x Hx ->. destruct (H3 es Hx) as (q & l & Eq & _). specialize (H5 es). rewrite Eq in H5. specialize (H5 (ltac:(by eexists))). lia. }
  split.
  - done.
  - done.
  - intros x [->|Hx]%Hin.
    + exists (EntrySize s STAILQ_INIT), []. rewrite Ew, lookup_insert_eq. split_and!; [done| |].
      * split_and!; [done|done|constructor].
      * intros y. split; [by intros ?%elem_of_nil|]. intros [Hy1 Hy2]. destruct (H4 y Hy1) as (z & Hz & Ez).
        exfalso. apply (Hno z Hz). by rewrite Ez.
    + destruct (H3 x Hx) as (q & l & Eq & Hr & Hl). exists q, l. rewrite Ew, lookup_insert_ne by (intros <-; by apply (Hold es)).
      split_and!; [done|by apply Hk|done].
  - intros y Hy. destruct (H4 y Hy) as (z & Hz & Ez). exists z. split; [apply Hin; by right|]. rewrite <- Ez. unfold es_at.
    rewrite Ew, lookup_insert_ne by (intros <-; by apply (Hold es)). done.
  - intros x. rewrite Ew, Ebr. intros Hx. destruct (decide (x = es)) as [->|]; [lia|]. rewrite lookup_insert_ne in Hx by done.
    specialize (H5 x Hx). lia.
Qed.

Lemma u32_s32 s : 0 <= s < 2 ^ 31 -> u32 (s32 s) = s.
Proof. intros Hs. rewrite s32_id by lia. apply wrap_id. unfold in_u. lia. Qed.

Lemma index_new w b d treed classed free s (Q : Z -> world PS -> Prop) :
  indexed w b d treed classed free -> 0 <= s < 2 ^ 31 -> (forall x, x ∈ inorder (sd_size_root d) -> es_size (es_at w x) <> s) ->
  (forall es w' d', sd_node d' = sd_node d -> stable lb ld w w' -> indexed w' b d' treed classed free ->
     es ∈ inorder (sd_size_root d') -> es_size (es_at w' es) = s -> Q es w') ->
  wp (slab_entry_size_init (s32 s)) (fun es w1 => wp (insert_size sd es) (fun _ w2 => Q es w2) w1) w.
Proof.
  intros [Hb Hd Hen Hap Had Hcl Hfr] Hs Hno HQ. set (es := p_brk (pa_proc (w_pa w))).
  destruct (pa_malloc_ok (w_pa w)) as (s' & Em & Ep & _ & Hmap).
  set (w1 := set_w_sizes (<[es := EntrySize s STAILQ_INIT]> (w_sizes w)) (set_w_pa s' w)).
  eapply wp_ok with (a := es) (s' := w1).
  { unfold slab_entry_size_init, bind, w_malloc, on_pa, zoom. rewrite Em. unfold put_es, modify. simpl. by rewrite u32_s32. }
  assert (Evm : vm_of (w_pa w1) = vm_of (w_pa w)) by (unfold vm_of; simpl; by rewrite Ep).
  assert (Epr : prot_of (w_pa w1) = prot_of (w_pa w)) by (unfold prot_of; simpl; by rewrite Ep).
  assert (Hb1 : bucket_at w1 sb lb b).
  { apply bucket_place. eapply at_place_same; [by apply bucket_place|done|done|done]. }
  assert (Hd1 : at_place w1 sd ld (PgDir d)) by (by eapply at_place_same).
  assert (Hold : forall x, x ∈ inorder (sd_size_root d) -> x <> es).
  { intros x Hx ->. destruct (cl_queue _ _ _ _ _ _ Hcl es Hx) as (q & l & Eq & _).
    pose proof (cl_fresh _ _ _ _ _ _ Hcl es) as Hfresh. rewrite Eq in Hfresh. unfold es in Hfresh. specialize (Hfresh ltac:(by eexists)). lia. }
  assert (Hat : forall x, x ∈ inorder (sd_size_root d) -> es_at w1 x = es_at w x).
  { intros x Hx. unfold es_at, w1. simpl. rewrite lookup_insert_ne; [done|]. intros E. by apply (Hold x). }
  assert (Hes : es_size (es_at w1 es) = s) by (unfold es_at, w1; simpl; by rewrite lookup_insert_eq).
  unfold insert_size. apply wp_bind. eapply wp_read_place; [exact Hd1|done|]. apply wp_bind, wp_gets.
  destruct (RB_INSERT_key (fun es => es_size (es_at w1 es)) (fun a c => slab_entry_size_compare_by_size (es_at w1 a) (es_at w1 c)) (sd_size_root d) es)
    as (t & Er & Ht & Hst & Hin).
  - done.
  - apply (cl_tree _ _ _ _ _ _ Hcl).
  - eapply key_sorted_ext; [|apply (cl_sorted _ _ _ _ _ _ Hcl)]. intros x Hx. by rewrite (Hat x Hx).
  - intros x Hx. rewrite (Hat x Hx), Hes. by apply Hno.
  - apply wp_bind. rewrite Er. apply wp_ret. eapply wp_write_place; [exact Hd1|]. cbn [snd].
    set (d' := set_sd_size_root t d). change (to_page _) with (PgDir d'). set (w2 := wrote w1 ld (PgDir d')).
    assert (Hb2 : bucket_at w2 sb lb b) by (apply bucket_place, at_place_wrote_ne; [by apply bucket_place|done]).
    assert (Hk : forall h l, stailq_repr w h l -> stailq_repr w2 h l) by (intros h l; by apply (repr_same sb lb w w2 b)).
    apply (HQ es w2 d'); [done| | |by apply Hin; left|exact Hes].
    { transitivity w1; [|apply stable_wrote_dir]. split; [done|done|done|exact Hmap]. }
    split.
    + exact Hb2.
    + eapply at_place_wrote. exact Hd1.
    + exact Hen.
    + exact Hap.
    + eapply addressed_same; [exact Had|done|done].
    + eapply (classes_new w w2); [exact Hcl|exact Hno|reflexivity|simpl; by rewrite Ep|done|exact Ht|exact Hst|exact Hin|exact Hk].
    + by apply Hk.
Qed.

(** What the walk needs of an entry in use: a size that an allocation can
    have, and a data page that is not one of the pages being rebuilt. *)
Record sized w (e : slab_entry) : Prop := {
  sz_range : 0 < se_size e <= PAGE_SIZE;
  sz_mult : se_size e mod 8 = 0;
  sz_page : exists l bs, vm_of (w_pa w) !! d_maddr (se_data_current e) = Some l /\ l <> lb /\ l <> ld /\
    as_page (default PgZero (w_file w !! l)) = Some (Data bs) /\ zlen bs = PAGE_SIZE;
  sz_type : d_maddr (se_data_snapshot e) <> SE_SEARCH_MADDR;
}.

Lemma sized_stable w w' e n : sized w e -> stable lb ld w w' -> sized w' (set_se_list n e).
Proof.
  intros [H1 H2 (l & bs & E1 & E2 & E3 & E4) H4] [S1 _ S3 _]. split; [done|done| |done]. exists l, bs. rewrite S1, S3 by done. done.
Qed.

(** Whether the page is full decides at which end the entry goes. *)
Lemma wp_full w b se e (Q : bool -> world PS -> Prop) :
  bucket_at w sb lb b -> entry_at_addr sb b se e -> sized w e -> (forall r, Q r w) -> wp (slab_entry_full se) Q w.
Proof.
  intros Hb [Hi He] [Hr Hm (l & bs & E1 & _ & _ & E4 & E5) _] HQ. apply in_bucket_page_spec in Hi as [Hp _].
  destruct (layout _ Hr Hm) as (L1 & L2 & L3 & _). unfold slab_entry_full. apply wp_bind. eapply wp_get_se_at; [exact Hb|exact Hp|exact He|].
  apply wp_bind. assert (Hl : wp (load_bitmap e) (fun bm w' => w' = w /\ capacity_of (se_size e) <= 8 * zlen bm) w).
  { unfold load_bitmap, SLAB_ENTRY_CBITMAP. destruct (SLAB_LARGE_ALLOC <=? se_size e); [by apply wp_ret|].
    apply wp_bind. eapply wp_read; [unfold page_at; by rewrite E1|exact E4|]. apply wp_ret. split; [done|]. cbn [the_bytes]. lia. }
  eapply wp_mono; [exact Hl|]. intros bm w' [-> Hc]. apply wp_bind, wp_capacity; [lia|].
  destruct (bit_count_spec (Z.to_nat (capacity_of (se_size e))) bm 0 0) as (r & Er & _); [lia|lia|].
  apply wp_bind. rewrite Er. by apply wp_ret, wp_ret.
Qed.

Definition when_used (e : slab_entry) (se : Z) : list Z := if SLAB_ENTRY_IS_INIT e then [se] else [].
Definition when_unused (e : slab_entry) (se : Z) : list Z := if SLAB_ENTRY_IS_INIT e then [] else [se].

(** Into the queue of its size class; [K] is the rest of the function. *)
Lemma index_size w b d treed classed free se e (K : M (world PS) unit) (Q : unit -> world PS -> Prop) :
  indexed w b d treed classed free -> entry_at_addr sb b se e -> se ∉ classed -> se ∉ free -> sized w e ->
  (forall w' b' d', same_links b b' -> sd_node d' = sd_node d -> stable lb ld w w' ->
     indexed w' b' d' treed (classed ++ [se]) free -> wp K Q w') ->
  wp (let! d := read (T := slab_dir) sd in
      let! found := find_size d (se_size e) in
      match found with
      | Some es =>
          let! full := slab_entry_full se in
          if full then on_es_list es (fun q => STAILQ_INSERT_TAIL q se) else on_es_list es (fun q => STAILQ_INSERT_HEAD q se)
      | None =>
          let! es := slab_entry_size_init (s32 (se_size e)) in
          insert_size sd es ;;; on_es_list es (fun q => STAILQ_INSERT_TAIL q se)
      end ;;; K) Q w.
Proof.
  intros Hix He Hc Hf Hsz HQ. pose proof Hix as [Hb Hd _ _ _ Hcl _]. pose proof (sz_range _ _ Hsz) as Hr.
  assert (Es : size_in b se = se_size e) by (unfold size_in; by rewrite (proj2 He)).
  apply wp_bind. eapply wp_read_place; [exact Hd|done|]. apply wp_bind. eapply wp_find_size; [apply Hcl| | |].
  - unfold in_u, PAGE_SIZE in *. lia.
  - intros es Hes E. apply wp_bind, wp_bind. eapply wp_full; [exact Hb|exact He|exact Hsz|]. rewrite <- E in Es. intros [].
    + eapply (index_class sb lb sd ld Hne (fun q se => STAILQ_INSERT_TAIL q se)); [apply inserts_tail|exact Hix|exact He|done|done|exact Hes|done|].
      intros w' b' Hs Hst Hix'. by apply (HQ w' b' d).
    + eapply (index_class sb lb sd ld Hne (fun q se => STAILQ_INSERT_HEAD q se)); [apply inserts_head|exact Hix|exact He|done|done|exact Hes|done|].
      intros w' b' Hs Hst Hix'. by apply (HQ w' b' d).
  - intros Hno. apply wp_bind, wp_bind. eapply wp_mono; [eapply index_new; [exact Hix| |exact Hno|]|].
    + unfold PAGE_SIZE in Hr. lia.
    + instantiate (1 := fun es w' => exists d', sd_node d' = sd_node d /\ stable lb ld w w' /\ indexed w' b d' treed classed free /\
        es ∈ inorder (sd_size_root d') /\ es_size (es_at w' es) = se_size e). intros es w' d'. by exists d'.
    + intros es w1 Hw1. apply wp_bind. eapply wp_mono; [exact Hw1|]. intros [] w2 (d' & Hn & Hst & Hix' & Hin & Hes).
      eapply (index_class sb lb sd ld Hne (fun q se => STAILQ_INSERT_TAIL q se)); [apply inserts_tail|exact Hix'|exact He|done|done|exact Hin|congruence|].
      intros w' b' Hs Hst' Hix''. apply (HQ w' b' d'); [done|done| |done]. by transitivity w2.
Qed.

Lemma index_entry w b d treed classed free se e (Q : unit -> world PS -> Prop) :
  indexed w b d treed classed free -> entry_at_addr sb b se e -> se ∉ classed -> se ∉ free ->
  (SLAB_ENTRY_IS_INIT e = true -> sized w e /\ forall x, x ∈ treed -> key_in b x <> key_in b se) ->
  (forall w' b' d', same_links b b' -> sd_node d' = sd_node d -> stable lb ld w w' ->
     indexed w' b' d' (treed ++ when_used e se) (classed ++ when_used e se) (free ++ when_unused e se) -> Q tt w') ->
  wp (index_slab_entry sd se) Q w.
Proof.
  intros Hix He Hc Hf Hu HQ. unfold index_slab_entry. apply wp_bind.
  eapply wp_get_se_at; [apply Hix|by apply in_bucket_page_spec, He|by apply He|]. unfold when_used, when_unused in HQ.
  destruct (SLAB_ENTRY_IS_INIT e).
  - destruct (Hu eq_refl) as [Hsz Hk]. eapply index_size; [exact Hix|exact He|done|done|exact Hsz|].
    intros w1 b1 d1 Hs1 Hn1 Hst1 Hix1. destruct (entry_same _ _ _ _ _ Hs1 He) as [n He1].
    eapply (index_tree sb lb sd ld Hne); [exact Hix1|exact He1|apply Hsz| |].
    + intros x Hx. rewrite !(proj1 (same_links_key _ _ _ Hs1)). by apply Hk.
    + intros w2 d2 Hn2 Hst2 Hix2. apply (HQ w2 b1 d2); [done|congruence|by transitivity w1|]. by rewrite app_nil_r.
  - eapply (index_free sb lb sd ld Hne); [exact Hix|exact He|done|done|]. intros w' b' d' Hs Hn Hst Hix'. apply (HQ w' b' d'); [done|done|done|].
    by rewrite !app_nil_r.
Qed.
End index.
