(* ===== verification/Remap.v ===== *)
(** * The whole walk of a restart: [slab_map] of [restore.c]

    [slab_bucket_map] with the index, entry by entry, and the nodes above
    the bucket: what a new process has after [slab_map] when the old one ended
    between two transactions. *)
From Stdlib Require Import ZArith Lia.
From stdpp Require Import base numbers gmap option list.
From S2P Require Import Prelude Macros Bitstring Vector Queue Process RBTree FixedMapper PageAlloc.
From S2P Require Import SlabLayout World Demo Snapshot Slab Alloc Checkpoint Txn Restore Recovery Index.
Open Scope Z_scope.

(** ** The entries of a bucket that satisfy a predicate, in order *)
Fixpoint picked_from (p : slab_entry -> bool) (sb : Z) (es : list slab_entry) (i : Z) : list Z :=
  match es with
  | [] => []
  | e :: es' => (if p e then [se_addr sb i] else []) ++ picked_from p sb es' (i + 1)
  end.

Definition used_entries (b : slab_bucket) (sb : Z) : list Z := picked_from SLAB_ENTRY_IS_INIT sb (sb_entries b) 0.
Definition unused_entries (b : slab_bucket) (sb : Z) : list Z := picked_from (fun e => negb (SLAB_ENTRY_IS_INIT e)) sb (sb_entries b) 0.

Lemma picked_app p sb l1 l2 i : picked_from p sb (l1 ++ l2) i = picked_from p sb l1 i ++ picked_from p sb l2 (i + zlen l1).
Proof.
  revert i. induction l1 as [|e l1 IH]; intros i; [by rewrite Z.add_0_r|]. cbn [picked_from app]. rewrite IH, <- app_assoc.
  unfold zlen. simpl length. do 3 f_equal. lia.
Qed.

Lemma elem_of_picked p sb es i x :
  x ∈ picked_from p sb es i <-> exists j e, zget es j = Some e /\ p e = true /\ x = se_addr sb (i + j).
Proof.
  revert i. induction es as [|e es IH]; intros i.
  - split; [by intros ?%elem_of_nil|]. intros (j & e & He & _). unfold zget in He. by destruct (0 <=? j).
  - cbn [picked_from]. rewrite elem_of_app, IH. split.
    + intros [Hx|(j & e' & He & Hp & ->)].
      * destruct (p e) eqn:Ep; [|by apply elem_of_nil in Hx]. apply list_elem_of_singleton in Hx as ->. exists 0, e. by rewrite Z.add_0_r.
      * exists (j + 1), e'. pose proof (zget_lt _ _ _ He). unfold zget in *. destruct (Z.leb_spec 0 j), (Z.leb_spec 0 (j + 1)); try lia.
        replace (Z.to_nat (j + 1)) with (Datatypes.S (Z.to_nat j)) by lia. split_and!; [done|done|f_equal; lia].
    + intros (j & e' & He & Hp & ->). pose proof (zget_lt _ _ _ He). unfold zget in He. destruct (Z.leb_spec 0 j); [|lia].
      destruct (decide (j = 0)) as [->|Hj].
      * simpl in He. injection He as <-. left. rewrite Hp, Z.add_0_r. by left.
      * right. exists (j - 1), e'. replace (Z.to_nat j) with (Datatypes.S (Z.to_nat (j - 1))) in He by lia. unfold zget.
        destruct (Z.leb_spec 0 (j - 1)); [|lia]. split_and!; [done|done|f_equal; lia].
Qed.

(** The first [i] entries. *)
Definition first_entries (b : slab_bucket) (i : Z) : slab_bucket := with_entries b (take (Z.to_nat i) (sb_entries b)).

Lemma first_step p sb b i e : zget (sb_entries b) i = Some e ->
  picked_from p sb (sb_entries (first_entries b (i + 1))) 0 =
  picked_from p sb (sb_entries (first_entries b i)) 0 ++ (if p e then [se_addr sb i] else []).
Proof.
  intros Ee. pose proof (zget_lt _ _ _ Ee) as Hlt. apply zget_Some_nat in Ee. unfold first_entries, with_entries. cbn [sb_entries].
  replace (Z.to_nat (i + 1)) with (Datatypes.S (Z.to_nat i)) by lia. rewrite (take_S_r _ _ e) by done. rewrite picked_app.
  f_equal. cbn [picked_from]. rewrite app_nil_r. unfold zlen in *. rewrite length_take_le by lia. by replace (0 + Z.of_nat (Z.to_nat i)) with i by lia.
Qed.

Lemma first_all b : first_entries b (zlen (sb_entries b)) = b.
Proof. unfold first_entries, with_entries, zlen. rewrite Nat2Z.id, firstn_all. by destruct b. Qed.

Lemma first_elem p sb b i x : x ∈ picked_from p sb (sb_entries (first_entries b i)) 0 <->
  exists j e, j < i /\ zget (sb_entries b) j = Some e /\ p e = true /\ x = se_addr sb j.
Proof.
  rewrite elem_of_picked. unfold first_entries, with_entries. cbn [sb_entries]. split.
  - intros (j & e & He & Hp & ->). pose proof (zget_lt _ _ _ He) as Hlt. apply zget_Some_nat in He.
    apply lookup_take_Some in He as [He Hi]. exists j, e. split; [lia|]. unfold zget. destruct (Z.leb_spec 0 j); [done|lia].
  - intros (j & e & Hji & He & Hp & ->). pose proof (zget_lt _ _ _ He) as Hlt. exists j, e. split; [|done].
    apply zget_Some_nat in He. unfold zget. destruct (Z.leb_spec 0 j); [|lia]. apply lookup_take_Some. split; [done|lia].
Qed.

(** ** Storing an entry that is in none of the lists *)
Section put.
Context {PS : Type} `{PA : PageAllocator PS}.
Context (sb lb sd ld : Z) (Hne : lb <> ld).
Implicit Types (w : world PS) (b : slab_bucket).
#[local] Hint Extern 0 (SLinksLaws (world PS) Z) => exact (bucket_links sb lb) : typeclass_instances.

Lemma entry_put_other b se e x : entry_of b se <> None -> se = se_addr sb (SLAB_ENTRY_INDEX se) -> in_bucket_page sb x = true -> x <> se ->
  entry_of (put_entry b se e) x = entry_of b x.
Proof.
  intros Hse Ese [_ Ex]%in_bucket_page_spec Hx. apply entry_put_ne; [congruence|].
  destruct (entry_of b se) as [y|] eqn:E; [|done]. by apply zget_lt in E as [? _].
Qed.

Lemma indexed_put w b d treed classed free se e e' :
  indexed sb lb sd ld w b d treed classed free -> entry_at_addr sb b se e -> se ∉ treed ++ classed ++ free ->
  indexed sb lb sd ld (wrote w lb (PgBucket (put_entry b se e'))) (put_entry b se e') d treed classed free.
Proof using Hne.
  intros [Hb Hd Hen Hap [Ht Hts Hte] Hcl Hfr] [Hi He] Hni. set (b' := put_entry b se e').
  pose proof (proj1 (in_bucket_page_spec _ _) Hi) as [_ Ese].
  assert (Hent : forall x, in_bucket_page sb x = true -> x <> se -> entry_of b' x = entry_of b x)
    by (intros x; apply entry_put_other; [by rewrite He|done]).
  assert (Hx : forall x, x ∈ treed ++ classed ++ free -> x <> se /\ in_bucket_page sb x = true).
  { intros x Hx. split; [by intros ->|]. by destruct (Hen x Hx) as [y [Hy _]]. }
  assert (Hb' : bucket_at (wrote w lb (PgBucket b')) sb lb b') by (by eapply bucket_at_wrote).
  assert (Hk : forall h l, stailq_repr w h l -> (forall x, x ∈ l -> x <> se /\ in_bucket_page sb x = true) ->
    stailq_repr (wrote w lb (PgBucket b')) h l).
  { intros h l (Hl & Hlast & Hnd) Hin. split_and!; [|done|done]. eapply lseg_frame; [exact Hl|]. intros x Hxl.
    destruct (Hin x Hxl) as [H1 H2]. simpl. unfold link_view. rewrite H2.
    by rewrite (proj2 (bucket_of_at _ _ _ _) Hb'), (proj2 (bucket_of_at _ _ _ _) Hb); simpl; rewrite (Hent x H2 H1). }
  assert (Hsz : forall x, x ∈ treed ++ classed ++ free -> key_in b' x = key_in b x /\ size_in b' x = size_in b x).
  { intros x Hxl. destruct (Hx x Hxl) as [H1 H2]. unfold key_in, size_in. by rewrite (Hent x H2 H1). }
  split.
  - exact Hb'.
  - by apply at_place_wrote_ne.
  - intros x Hxl. destruct (Hen x Hxl) as [y [Hy1 Hy2]], (Hx x Hxl) as [H1 H2]. exists y. split; [done|]. by rewrite Hent.
  - done.
  - split; [done| |done]. eapply key_sorted_ext; [|exact Hts]. intros x Hxt. symmetry. apply Hsz. apply elem_of_app. left. by apply Hte.
  - destruct Hcl as [C1 C2 C3 C4 C5]. split; [done|done| | |done].
    + intros es Hes. destruct (C3 es Hes) as (q & l & Eq & Hr & Hl). exists q, l. split_and!; [done| |].
      * apply Hk; [done|]. intros x [Hxl _]%Hl. apply Hx. set_solver.
      * intros x. rewrite Hl. split; intros [H1 H2]; (split; [done|]); [rewrite (proj2 (Hsz x ltac:(set_solver)))|rewrite <- (proj2 (Hsz x ltac:(set_solver)))]; done.
    + intros x Hxc. destruct (C4 x Hxc) as (es & Hes & Ees). exists es. split; [done|]. by rewrite (proj2 (Hsz x ltac:(set_solver))).
  - apply Hk; [done|]. intros x Hxf. apply Hx. set_solver.
Qed.

Lemma same_links_put2 b1 b2 se e1 e2 : same_links b1 b2 -> erase e1 = erase e2 -> same_links (put_entry b1 se e1) (put_entry b2 se e2).
Proof using.
  intros (H1 & H2 & H3) He. split_and!; [done|done|]. unfold put_entry. cbn [sb_entries]. by rewrite !list_fmap_insert, H3, He.
Qed.
End put.

(** ** The bucket, entry by entry *)
Section bucket.
Context {PS : Type} `{AM : AllocatorMalloc PS}.
Context (pg : Z -> Z) (sb lb sd ld : Z) (Hne : lb <> ld) (Ha : page_address sb).
Implicit Types (w : world PS) (b : slab_bucket).

(** A bucket the walk can restore: the data pages of its entries are at
    different addresses of the new process, with sizes that an allocation can
    have. *)
Record walkable w b : Prop := {
  wk_len : zlen (sb_entries b) = SLAB_BUCKET_ENTRIES;
  wk_consistent : forall i e, zget (sb_entries b) i = Some e -> SLAB_ENTRY_IS_INIT e = true -> consistent e;
  wk_sized : forall i e, zget (sb_entries b) i = Some e -> SLAB_ENTRY_IS_INIT e = true -> sized lb ld w (restored pg e);
  wk_apart : forall i j ei ej, zget (sb_entries b) i = Some ei -> zget (sb_entries b) j = Some ej -> i <> j ->
    SLAB_ENTRY_IS_INIT ei = true -> SLAB_ENTRY_IS_INIT ej = true ->
    pg (d_laddr (se_data_snapshot ei)) <> pg (d_laddr (se_data_snapshot ej));
}.

Lemma addr_at i : 0 <= i < SLAB_BUCKET_ENTRIES -> se_page (se_addr sb i) = sb /\ SLAB_ENTRY_INDEX (se_addr sb i) = i /\
  in_bucket_page sb (se_addr sb i) = true.
Proof using Ha.
  intros Hi. destruct Ha as (Hal & Hpos & Htop). destruct (se_addr_decode sb i) as [E1 E2]; [done|done|done|done|]. split_and!; [done|done|].
  apply in_bucket_page_spec. by rewrite E2.
Qed.

Lemma addr_inj i j : 0 <= i < SLAB_BUCKET_ENTRIES -> 0 <= j < SLAB_BUCKET_ENTRIES -> se_addr sb i = se_addr sb j -> i = j.
Proof using Ha. intros Hi Hj E. destruct (addr_at i Hi) as (_ & <- & _), (addr_at j Hj) as (_ & <- & _). by rewrite E. Qed.

Notation used b i := (used_entries (first_entries b i) sb).
Notation unused b i := (unused_entries (first_entries b i) sb).

Definition walked w b d i w1 b1 d1 : Prop :=
  same_links (restored_upto pg b i) b1 /\ sd_node d1 = sd_node d /\ stable lb ld w w1 /\
  indexed sb lb sd ld w1 b1 d1 (used b i) (used b i) (unused b i).

(** The entries met so far have keys of their own. *)
Lemma key_restored b i j b1 e : zlen (sb_entries b) = SLAB_BUCKET_ENTRIES -> zget (sb_entries b) j = Some e -> SLAB_ENTRY_IS_INIT e = true -> j < i ->
  same_links (restored_upto pg b i) b1 -> key_in b1 (se_addr sb j) = pg (d_laddr (se_data_snapshot e)).
Proof using Ha.
  intros Hlen Ee Hini Hji Hs. pose proof (zget_lt _ _ _ Ee) as Hlt. destruct (addr_at j) as (_ & E2 & _); [lia|].
  rewrite (proj1 (same_links_key _ _ _ Hs)). unfold key_in, entry_of. rewrite E2. apply zget_Some_nat in Ee. unfold zget.
  destruct (Z.leb_spec 0 j); [|lia]. unfold restored_upto, with_entries. cbn [sb_entries].
  rewrite lookup_app_l by (rewrite length_map, length_take; unfold zlen in *; lia).
  change (map ?f ?l) with (f <$> l). rewrite list_lookup_fmap, lookup_take_lt, Ee by lia. simpl. unfold restored_if_init. by rewrite Hini.
Qed.

Lemma erase_restored n e : erase (restored_if_init pg (set_se_list n e)) = erase (restored_if_init pg e).
Proof using. unfold restored_if_init. change (SLAB_ENTRY_IS_INIT (set_se_list n e)) with (SLAB_ENTRY_IS_INIT e). by destruct (SLAB_ENTRY_IS_INIT e). Qed.

Lemma not_yet b i p : zlen (sb_entries b) = SLAB_BUCKET_ENTRIES -> 0 <= i < SLAB_BUCKET_ENTRIES ->
  se_addr sb i ∉ picked_from p sb (sb_entries (first_entries b i)) 0.
Proof using Ha.
  intros Hlen Hi (j & e & Hji & Ee & _ & E)%first_elem. pose proof (zget_lt _ _ _ Ee). apply addr_inj in E; lia.
Qed.

(** The reference of the entry is mapped. *)
Lemma wp_map_step w b d i e w1 b1 d1 (Q : unit -> world PS -> Prop) :
  (forall l, page_allocator_mappage l (w_pa w) = Ok (pg l) (w_pa w)) -> walkable w b -> zget (sb_entries b) i = Some e ->
  walked w b d i w1 b1 d1 ->
  (forall w2 b2 e2, erase e2 = erase (restored_if_init pg e) -> same_links (restored_upto pg b (i + 1)) b2 -> stable lb ld w w2 ->
     entry_at_addr sb b2 (se_addr sb i) e2 -> indexed sb lb sd ld w2 b2 d1 (used b i) (used b i) (unused b i) -> Q tt w2) ->
  wp (let! e := get_se (se_addr sb i) in when (SLAB_ENTRY_IS_INIT e) (map_entry_complete (se_addr sb i))) Q w1.
Proof using Hne Ha.
  intros Hmap [Hlen Hcons _ _] Ee (Hs & _ & Hst & Hix) HQ. pose proof (zget_lt _ _ _ Ee) as Hlt. rewrite Hlen in Hlt.
  destruct (addr_at i Hlt) as (E1 & E2 & E3). set (se := se_addr sb i) in *.
  destruct (restored_upto_step pg b se i e Ee E2) as [S1 S2]. destruct (same_links_entry _ _ _ _ Hs S1) as [n En].
  set (e1 := set_se_list n e) in *. set (b2 := put_entry b1 se (restored_if_init pg e1)).
  assert (Hni : se ∉ used b i ++ used b i ++ unused b i).
  { rewrite !elem_of_app. intros [?|[?|?]]; by eapply not_yet. }
  specialize (HQ (wrote w1 lb (PgBucket b2)) b2 (restored_if_init pg e1) (erase_restored _ _)).
  assert (Hfin : Q tt (wrote w1 lb (PgBucket b2))).
  { apply HQ.
    - rewrite <- S2. apply same_links_put2; [done|]. symmetry. apply erase_restored.
    - transitivity w1; [done|apply stable_wrote_bucket].
    - split; [done|]. by eapply entry_put.
    - eapply (indexed_put sb lb sd ld Hne); [exact Hix|by split|exact Hni]. }
  apply wp_bind. eapply wp_get_se_at; [apply Hix|done|exact En|]. change (SLAB_ENTRY_IS_INIT e1) with (SLAB_ENTRY_IS_INIT e).
  destruct (SLAB_ENTRY_IS_INIT e) eqn:Hini; cbn [when].
  - eapply (wp_map_entry_complete pg w1); [|done|apply Hix|done|exact En|exact (Hcons i e Ee Hini)|].
    + intros l. eapply (sta_map _ _ _ _ Hst). apply Hmap.
    + unfold b2, restored_if_init in Hfin. change (SLAB_ENTRY_IS_INIT e1) with (SLAB_ENTRY_IS_INIT e) in Hfin. by rewrite Hini in Hfin.
  - apply wp_ret. assert (Eb : b2 = b1).
    { unfold b2, restored_if_init. change (SLAB_ENTRY_IS_INIT e1) with (SLAB_ENTRY_IS_INIT e). rewrite Hini. unfold put_entry.
      rewrite list_insert_id; [by destruct b1|]. by apply zget_Some_nat in En. }
    rewrite Eb, wrote_id in Hfin; [done|]. apply (ba_file _ _ _ _ (ix_bucket _ _ _ _ _ _ _ _ _ _ Hix)).
Qed.

(** Two different entries have different keys. *)
Lemma key_fresh w b d i e w1 b1 d1 b2 e2 x : walkable w b -> zget (sb_entries b) i = Some e -> SLAB_ENTRY_IS_INIT e = true ->
  walked w b d i w1 b1 d1 -> same_links (restored_upto pg b (i + 1)) b2 -> entry_at_addr sb b2 (se_addr sb i) e2 ->
  erase e2 = erase (restored_if_init pg e) -> x ∈ used b i -> key_in b2 x <> key_in b2 (se_addr sb i).
Proof using Ha.
  intros [Hlen _ _ Hap] Ee Hini _ Hs [_ He2] Eer (j & ej & Hji & Eej & Hj & ->)%first_elem.
  rewrite (key_restored b (i + 1) j b2 ej) by (done || lia). unfold key_in. rewrite He2. simpl.
  assert (Ek : d_maddr (se_data_current e2) = pg (d_laddr (se_data_snapshot e))).
  { change (d_maddr (se_data_current (erase e2)) = pg (d_laddr (se_data_snapshot e))). rewrite Eer. unfold restored_if_init. by rewrite Hini. }
  rewrite Ek. apply (Hap j i); [done|done|lia|done|done].
Qed.

Lemma sized_erase w e1 e2 : erase e1 = erase e2 -> sized lb ld w e1 -> sized lb ld w e2.
Proof using. destruct e1, e2. simpl. intros [= -> -> -> -> -> ->] [H1 H2 H3 H4]. by split. Qed.

Lemma wp_slab_bucket_index w b d (Q : Z -> world PS -> Prop) :
  (forall l, page_allocator_mappage l (w_pa w) = Ok (pg l) (w_pa w)) -> pg lb = sb -> walkable w b ->
  indexed sb lb sd ld w b d [] [] [] ->
  (forall w' b' d', same_links (restored_bucket pg b) b' -> sd_node d' = sd_node d -> stable lb ld w w' ->
     indexed sb lb sd ld w' b' d' (used_entries b sb) (used_entries b sb) (unused_entries b sb) -> Q sb w') ->
  wp (slab_bucket_map sd lb CPOINT_COMPLETE true) Q w.
Proof using Hne Ha AM.
  intros Hmap Epg Hwk Hix HQ. pose proof (wk_len _ _ Hwk) as Hlen. unfold slab_bucket_map. apply wp_bind.
  apply (wp_mappage_at pg w Hmap); [done|]. rewrite Epg. apply wp_bind.
  apply (wp_for (fun i w1 => exists b1 d1, walked w b d i w1 b1 d1)).
  - exists b, d. split_and!; [|done|done|exact Hix]. split_and!; [done|done|by unfold restored_upto].
  - intros i w1 Hi (b1 & d1 & Hwd). change (Z.of_nat (Z.to_nat SLAB_BUCKET_ENTRIES)) with SLAB_BUCKET_ENTRIES in Hi.
    destruct (zget_total (sb_entries b) i) as [e Ee]; [lia|]. apply wp_bind_assoc.
    eapply wp_map_step; [exact Hmap|exact Hwk|exact Ee|exact Hwd|]. intros w2 b2 e2 Eer Hs2 Hst2 He2 Hix2. cbn [when].
    assert (Eini : SLAB_ENTRY_IS_INIT e2 = SLAB_ENTRY_IS_INIT e).
    { change (SLAB_ENTRY_IS_INIT e2) with (SLAB_ENTRY_IS_INIT (erase e2)). rewrite Eer. unfold restored_if_init.
      destruct (SLAB_ENTRY_IS_INIT e) eqn:Ei; [|exact Ei]. destruct (wk_sized _ _ Hwk i e Ee Ei) as [Hr _ _ _]. simpl in Hr.
      unfold SLAB_ENTRY_IS_INIT. simpl. destruct (Z.eqb_spec (se_size e) 0); [lia|done]. }
    eapply (index_entry sb lb sd ld Hne); [exact Hix2|exact He2|apply not_yet; [done|lia]|apply not_yet; [done|lia]| |].
    + rewrite Eini. intros Ei. split.
      * pose proof (wk_sized _ _ Hwk i e Ee Ei) as Hsz. apply (sized_stable _ _ _ w2 _ None) in Hsz; [|done].
        eapply sized_erase; [|exact Hsz]. rewrite Eer. unfold restored_if_init. by rewrite Ei.
      * intros x. by eapply key_fresh.
    + intros w3 b3 d3 Hs3 Hn3 Hst3 Hix3. exists b3, d3. destruct Hwd as (_ & Hn & _ & _). split_and!.
      * by transitivity b2.
      * congruence.
      * by transitivity w2.
      * unfold used_entries, unused_entries in *. rewrite !(first_step _ _ _ _ _ Ee). unfold when_used, when_unused in Hix3. rewrite Eini in Hix3.
        by destruct (SLAB_ENTRY_IS_INIT e).
  - intros w1 (b1 & d1 & Hs & Hn & Hst & Hix'). change (0 + Z.of_nat (Z.to_nat SLAB_BUCKET_ENTRIES)) with SLAB_BUCKET_ENTRIES in *.
    apply wp_ret. rewrite <- Hlen in Hs, Hix'. rewrite first_all in Hix'. apply (HQ w1 b1 d1); [|done|done|done].
    assert (E : restored_upto pg b (zlen (sb_entries b)) = restored_bucket pg b); [|by rewrite <- E].
    unfold restored_upto, restored_bucket, zlen. rewrite Nat2Z.id, firstn_all, drop_all. by rewrite app_nil_r.
Qed.
End bucket.

(** ** The nodes above the bucket *)

(** A node with one child at the place [l], in both versions. *)
Definition leads (nd : slab_node) (l : Z) : Prop :=
  n_index nd = 1 /\ exists c s, zget (n_current nd) 0 = Some c /\ zget (n_snapshot nd) 0 = Some s /\
    n_laddr c = l /\ n_laddr s = l /\ l <> 0.

(** Both references to the child, with the address it is mapped at. *)
Definition leads_at (nd : slab_node) (a l : Z) : Prop :=
  n_index nd = 1 /\ zget (n_current nd) 0 = Some (NRef a l) /\ zget (n_snapshot nd) 0 = Some (NRef a l).

Definition mapped_child (nd : slab_node) (a l : Z) : slab_node :=
  SlabNode (n_index nd) (<[0%nat := NRef a l]> (n_current nd)) (<[0%nat := NRef a l]> (n_snapshot nd)).

Lemma mapped_child_leads nd a l : leads nd l -> leads_at (mapped_child nd a l) a l.
Proof.
  intros (H1 & c & s & Hc%zget_Some_nat & Hs%zget_Some_nat & _). apply lookup_lt_Some in Hc, Hs.
  split_and!; [done|by apply list_lookup_insert_eq..].
Qed.

Section nodes.
Context {PS : Type} `{PA : PageAllocator PS}.
Implicit Types (w : world PS).

(** How a node is stored in its page. *)
Definition setter (set : (slab_node -> option slab_node) -> M (world PS) unit) (a l : Z) (tp : slab_node -> page) : Prop :=
  forall w n n' f Q, at_place w a l (tp n) -> f n = Some n' -> Q tt (wrote w l (tp n')) -> wp (set f) Q w.

Lemma setter_inner a l : setter (upd_inner a) a l PgInner.
Proof.
  intros w n n' f Q Hp Hf HQ. unfold upd_inner. apply wp_bind. eapply wp_read_place; [exact Hp|done|]. apply wp_bind.
  eapply wp_from_opt; [exact Hf|]. by eapply wp_write_place.
Qed.

Lemma setter_outer a l : setter (upd_outer a) a l PgOuter.
Proof.
  intros w n n' f Q Hp Hf HQ. unfold upd_outer. apply wp_bind. eapply wp_read_place; [exact Hp|done|]. apply wp_bind.
  eapply wp_from_opt; [exact Hf|]. by eapply wp_write_place.
Qed.

Lemma setter_dir a l d : setter (upd_dir a) a l (fun n => PgDir (set_sd_node n d)).
Proof.
  intros w n n' f Q Hp Hf HQ. unfold upd_dir. apply wp_bind. eapply wp_read_place; [exact Hp|done|]. apply wp_bind.
  eapply wp_from_opt; [exact Hf|]. by eapply wp_write_place.
Qed.

(** One turn of the loop of a node: the child is mapped, then both references
    get its address. *)
Lemma wp_map_ref get set map_cur map_snap w a l nd lp (Q : unit -> world PS -> Prop) :
  (forall Q', Q' nd w -> wp get Q' w) -> leads nd lp ->
  wp (map_cur lp) (fun x w1 => exists tp, setter set a l tp /\ at_place w1 a l (tp nd) /\
    Q tt (wrote w1 l (tp (mapped_child nd x lp)))) w ->
  wp (map_ref get set map_cur map_snap CPOINT_COMPLETE 0) Q w.
Proof.
  intros Hget (Hi & c & s & Ec & Es & Elc & Els & Hz) HQ. unfold map_ref. apply wp_bind, Hget.
  apply wp_bind. eapply wp_from_opt; [exact Ec|]. apply wp_bind. eapply wp_from_opt; [exact Es|]. rewrite Elc, Els.
  apply wp_bind. unfold NOT_CS_CONSISTENT. rewrite Z.lxor_nilpotent. cbn [Z.eqb negb when]. apply wp_ret.
  destruct (Z.eqb_spec lp 0); [done|]. cbn [negb when]. apply wp_bind. eapply wp_mono; [exact HQ|].
  intros x w1 (tp & Hset & Hp & HQ1). apply wp_bind.
  assert (Hlc : 0 <= 0 < zlen (n_current nd)) by by apply zget_lt in Ec.
  assert (Hls : 0 <= 0 < zlen (n_snapshot nd)) by by apply zget_lt in Es.
  assert (Hzs : forall (L : list node_ref) r, 0 <= 0 < zlen L -> zset L 0 r = Some (<[0%nat := r]> L)) by (intros L r HL; by apply zset_Some).
  assert (Hlen : forall r, zlen (<[0%nat := r]> (n_current nd)) = zlen (n_current nd)) by (intros r; unfold zlen; by rewrite length_insert).
  assert (Hin : forall (L : list node_ref) r, 0 <= 0 < zlen L -> zget (<[0%nat := r]> L) 0 = Some r).
  { intros L r HL. apply list_lookup_insert_eq. unfold zlen in HL. lia. }
  eapply (Hset w1 nd (SlabNode (n_index nd) (<[0%nat := NRef x lp]> (n_current nd)) (n_snapshot nd))); [exact Hp| |].
  { unfold set_current_maddr, node_set_current. rewrite Ec. simpl. rewrite Hzs by done. by rewrite Elc. }
  apply wp_bind. eapply (Hset _ _ (mapped_child nd x lp)); [by eapply at_place_wrote| |].
  { unfold set_snapshot_maddr, node_set_snapshot. cbn [n_snapshot n_current n_index]. rewrite Es. simpl. rewrite Hzs by done. by rewrite Els. }
  rewrite wrote_wrote. eapply (Hset _ _ (mapped_child nd x lp)); [by eapply at_place_wrote| |by rewrite wrote_wrote].
  unfold set_current_laddr, node_set_current, mapped_child. cbn [n_snapshot n_current n_index]. rewrite Hin by done. simpl.
  rewrite Hzs by by rewrite Hlen. simpl. by rewrite list_insert_insert_eq.
Qed.

Lemma for_one (body : Z -> M (world PS) unit) n (Q : unit -> world PS -> Prop) w : n = 1 -> wp (body 0) Q w -> wp (for_ (Z.to_nat n) 0 body) Q w.
Proof. intros -> HQ. cbn [for_ Z.to_nat Pos.to_nat Pos.iter_op]. apply wp_bind. eapply wp_mono; [exact HQ|]. intros []. by intros; apply wp_ret. Qed.
End nodes.

Lemma indexed_move {PS} `{PA : PageAllocator PS} (sb lb sd ld : Z) (w w' : world PS) b d d' treed classed free :
  indexed sb lb sd ld w b d treed classed free -> bucket_at w' sb lb b -> at_place w' sd ld (PgDir d') ->
  sd_maddr_root d' = sd_maddr_root d -> sd_size_root d' = sd_size_root d -> sd_free_list d' = sd_free_list d ->
  w_sizes w' = w_sizes w -> p_brk (pa_proc (w_pa w')) = p_brk (pa_proc (w_pa w)) ->
  indexed sb lb sd ld w' b d' treed classed free.
Proof.
  intros [Hb Hd Hen Hap Had Hcl Hfr] Hb' Hd' E1 E2 E3 E4 E5.
  assert (Hk : forall h l, @stailq_repr _ _ _ _ (bucket_links sb lb) w h l -> @stailq_repr _ _ _ _ (bucket_links sb lb) w' h l)
    by (intros h l; by apply (repr_same sb lb w w' b)).
  split; [done|done|done|done| | |].
  - by eapply addressed_same.
  - eapply (classes_same sb lb w w'); [exact Hcl|done|done|done|lia|]. intros h l Hr _. by apply Hk.
  - rewrite E3. by apply Hk.
Qed.

(** ** The walk *)
Section walk.
Context {PS : Type} `{AM : AllocatorMalloc PS}.
Context (pg : Z -> Z) (lb li lo ld : Z) (Hnd : NoDup [lb; li; lo; ld]) (Ha : page_address (pg lb)).
Context (w0 : world PS) (b0 : slab_bucket) (Hmap : forall l, page_allocator_mappage l (w_pa w0) = Ok (pg l) (w_pa w0)).
Implicit Types (w : world PS) (n o : slab_node) (d : slab_dir).
Notation indexed := (indexed (pg lb) lb (pg ld) ld).

Lemma places_ne : lb <> li /\ lb <> lo /\ lb <> ld /\ li <> lo /\ li <> ld /\ lo <> ld.
Proof using Hnd. pose proof Hnd as Hn. rewrite !NoDup_cons, !not_elem_of_cons in Hn. naive_solver. Qed.

(** What the walk of the bucket leaves, in the world [w]. *)
Record walk_done w d : Prop := {
  wd_stable : stable lb ld w0 w;
  wd_index : exists b', same_links (restored_bucket pg b0) b' /\
    indexed w b' d (used_entries b0 (pg lb)) (used_entries b0 (pg lb)) (unused_entries b0 (pg lb));
}.

Lemma stable_place w w' a l p : at_place w a l p -> stable lb ld w w' -> l <> lb -> l <> ld -> at_place w' a l p.
Proof using. intros Hp [S1 S2 S3 _] H1 H2. by eapply at_place_same; [exact Hp|exact S1|exact S2|apply S3]. Qed.

Lemma wp_inner_map d n (Q : Z -> world PS -> Prop) :
  walkable pg lb ld w0 b0 -> indexed w0 b0 d [] [] [] -> at_place w0 (pg li) li (PgInner n) -> leads n lb ->
  (forall w d', walk_done w d' -> sd_node d' = sd_node d -> at_place w (pg li) li (PgInner n) ->
     Q (pg li) (wrote w li (PgInner (mapped_child n (pg lb) lb)))) ->
  wp (slab_inner_map (pg ld) li CPOINT_COMPLETE) Q w0.
Proof using Hnd Ha Hmap AM.
  intros Hwk Hix Hp Hl HQ. destruct places_ne as (N1 & N2 & N3 & N4 & N5 & N6).
  unfold slab_inner_map. apply wp_bind, (wp_mappage_at pg w0 Hmap); [done|].
  assert (Hget : forall Q', Q' n w0 -> wp (let! x := read (T := inner_node) (pg li) in ret (the_inner x)) Q' w0).
  { intros Q' H'. apply wp_bind. eapply wp_read_place; [exact Hp|done|]. by apply wp_ret. }
  apply wp_bind, Hget, wp_bind. apply for_one; [apply Hl|].
  eapply wp_map_ref; [exact Hget|exact Hl|]. eapply (wp_slab_bucket_index pg (pg lb) lb (pg ld) ld N3 Ha); [exact Hmap|done|exact Hwk|exact Hix|].
  intros w1 b1 d1 Hs Hn Hst Hix1. assert (Hp1 : at_place w1 (pg li) li (PgInner n)) by (by eapply stable_place).
  exists PgInner. split_and!; [apply setter_inner|exact Hp1|]. apply wp_ret. apply (HQ w1 d1); [|done|done]. split; [done|]. by exists b1.
Qed.

Lemma wp_outer_map d n o (Q : Z -> world PS -> Prop) :
  walkable pg lb ld w0 b0 -> indexed w0 b0 d [] [] [] -> at_place w0 (pg li) li (PgInner n) -> leads n lb ->
  at_place w0 (pg lo) lo (PgOuter o) -> leads o li ->
  (forall w d', walk_done w d' -> sd_node d' = sd_node d -> at_place w (pg li) li (PgInner n) -> at_place w (pg lo) lo (PgOuter o) ->
     Q (pg lo) (wrote (wrote w li (PgInner (mapped_child n (pg lb) lb))) lo (PgOuter (mapped_child o (pg li) li)))) ->
  wp (slab_outer_map (pg ld) lo CPOINT_COMPLETE) Q w0.
Proof using Hnd Ha Hmap AM.
  intros Hwk Hix Hpi Hli Hpo Hlo HQ. destruct places_ne as (N1 & N2 & N3 & N4 & N5 & N6).
  unfold slab_outer_map. apply wp_bind, (wp_mappage_at pg w0 Hmap); [done|].
  assert (Hget : forall Q', Q' o w0 -> wp (let! x := read (T := outer_node) (pg lo) in ret (the_outer x)) Q' w0).
  { intros Q' H'. apply wp_bind. eapply wp_read_place; [exact Hpo|done|]. by apply wp_ret. }
  apply wp_bind, Hget, wp_bind. apply for_one; [apply Hlo|].
  eapply wp_map_ref; [exact Hget|exact Hlo|]. eapply wp_inner_map; [exact Hwk|exact Hix|exact Hpi|exact Hli|].
  intros w1 d1 Hd Hn Hp1. pose proof (wd_stable _ _ Hd) as Hst.
  assert (Hp2 : at_place w1 (pg lo) lo (PgOuter o)) by (eapply stable_place; [exact Hpo|exact Hst|done..]).
  exists PgOuter. split_and!; [apply setter_outer|by apply at_place_wrote_ne|]. apply wp_ret. by apply (HQ w1 d1).
Qed.
End walk.

(** The pages of a slab tree with one path, at the addresses [pg]. *)
Record tree_at {PS} `{PageAllocator PS} (pg : Z -> Z) (lb li lo ld : Z) (w : world PS) (d : slab_dir) (o n : slab_node) (b : slab_bucket) : Prop := {
  ta_dir : at_place w (pg ld) ld (PgDir d);
  ta_outer : at_place w (pg lo) lo (PgOuter o);
  ta_inner : at_place w (pg li) li (PgInner n);
  ta_bucket : at_place w (pg lb) lb (PgBucket b);
}.

(** What [slab_map] leaves in [w']: the tree at its new addresses, from the
    directory down, the index over the entries in use, and every other page
    of the file as it was. *)
Record slab_mapped {PS} `{PageAllocator PS} (pg : Z -> Z) (lb li lo ld : Z) (w : world PS) (b : slab_bucket) (w' : world PS) : Prop := {
  sm_tree : exists d' o' n' b', tree_at pg lb li lo ld w' d' o' n' b' /\
    leads_at (sd_node d') (pg lo) lo /\ leads_at o' (pg li) li /\ leads_at n' (pg lb) lb /\
    same_links (restored_bucket pg b) b' /\
    indexed (pg lb) lb (pg ld) ld w' b' d' (used_entries b (pg lb)) (used_entries b (pg lb)) (unused_entries b (pg lb));
  sm_vm : vm_of (w_pa w') = vm_of (w_pa w);
  sm_file : forall l, l ∉ [lb; li; lo; ld] -> w_file w' !! l = w_file w !! l;
}.

Section map.
Context {PS : Type} `{AM : AllocatorMalloc PS}.
Context (pg : Z -> Z) (lb li lo ld : Z) (Hnd : NoDup [lb; li; lo; ld]) (Ha : page_address (pg lb)).
Implicit Types (w : world PS) (n o : slab_node) (d : slab_dir).

Lemma indexed_start w b d : bucket_at w (pg lb) lb b -> at_place w (pg ld) ld (PgDir d) ->
  sd_maddr_root d = Leaf -> sd_size_root d = Leaf -> sd_free_list d = STAILQ_INIT ->
  (forall es, is_Some (w_sizes w !! es) -> es < p_brk (pa_proc (w_pa w))) -> indexed (pg lb) lb (pg ld) ld w b d [] [] [].
Proof.
  intros Hb Hd E1 E2 E3 Hf. split; [done|done|by intros x ?%elem_of_nil|by intros x ?%elem_of_nil| | |].
  - split; rewrite E1; [by exists 0%nat; constructor|constructor|done].
  - split; rewrite ?E2; [by exists 0%nat; constructor|constructor| | |done]; by intros x ?%elem_of_nil.
  - rewrite E3. split_and!; [done|done|constructor].
Qed.

Lemma wp_slab_map w d o n b (Q : Z -> world PS -> Prop) :
  (forall l, page_allocator_mappage l (w_pa w) = Ok (pg l) (w_pa w)) -> tree_at pg lb li lo ld w d o n b ->
  leads (sd_node d) lo -> leads o li -> leads n lb -> walkable pg lb ld w b ->
  (forall es, is_Some (w_sizes w !! es) -> es < p_brk (pa_proc (w_pa w))) ->
  (forall w', slab_mapped pg lb li lo ld w b w' -> Q (pg ld) w') -> wp (slab_map ld CPOINT_COMPLETE) Q w.
Proof using Hnd Ha AM.
  intros Hmap [Hd Ho Hn Hb] Ld Lo Ln Hwk Hfresh HQ. destruct (places_ne _ _ _ _ Hnd) as (N1 & N2 & N3 & N4 & N5 & N6).
  unfold slab_map. apply wp_bind, (wp_mappage_at pg w Hmap); [done|].
  assert (Hupd : forall f (d1 : slab_dir) w1 (Q' : unit -> world PS -> Prop), at_place w1 (pg ld) ld (PgDir d1) ->
    Q' tt (wrote w1 ld (PgDir (f d1))) -> wp (upd (pg ld) f) Q' w1).
  { intros f d1 w1 Q' H1 H2. unfold upd. apply wp_bind. eapply wp_read_place; [exact H1|done|]. by eapply wp_write_place. }
  apply wp_bind. eapply Hupd; [exact Hd|]. apply wp_bind. eapply Hupd; [by eapply at_place_wrote|]. rewrite wrote_wrote.
  apply wp_bind. eapply Hupd; [by eapply at_place_wrote|]. rewrite wrote_wrote. set (d0 := set_sd_free_list _ _). set (w0 := wrote w ld (PgDir d0)).
  assert (Hd0 : at_place w0 (pg ld) ld (PgDir d0)) by (by eapply at_place_wrote).
  assert (Ho0 : at_place w0 (pg lo) lo (PgOuter o)) by (apply at_place_wrote_ne; [done|congruence]).
  assert (Hn0 : at_place w0 (pg li) li (PgInner n)) by (apply at_place_wrote_ne; [done|congruence]).
  assert (Hb0 : at_place w0 (pg lb) lb (PgBucket b)) by (apply at_place_wrote_ne; [done|congruence]).
  assert (Hget : forall Q', Q' (sd_node d) w0 -> wp (let! x := read (T := slab_dir) (pg ld) in ret (sd_node x)) Q' w0).
  { intros Q' H'. apply wp_bind. eapply wp_read_place; [exact Hd0|done|]. by apply wp_ret. }
  assert (Hwk0 : walkable pg lb ld w0 b).
  { destruct Hwk as [H1 H2 H3 H4]. split; [done|done| |done]. intros i e Ee Ei. specialize (H3 i e Ee Ei).
    apply (sized_stable lb ld w w0 _ (se_list (restored pg e))) in H3; [|apply stable_wrote_dir]. exact H3. }
  apply wp_bind, Hget, wp_bind. apply for_one; [apply Ld|]. eapply wp_map_ref; [exact Hget|exact Ld|].
  eapply (wp_outer_map pg lb li lo ld Hnd Ha w0 b Hmap d0); [exact Hwk0| |exact Hn0|exact Ln|exact Ho0|exact Lo|].
  { apply indexed_start; [by apply bucket_place|done..|exact Hfresh]. }
  intros w1 d1 [Hst (b1 & Hs1 & Hix1)] En1 Hi1 Ho1. pose proof (ix_dir _ _ _ _ _ _ _ _ _ _ Hix1) as Hd1.
  pose proof (proj1 (bucket_place _ _ _ _) (ix_bucket _ _ _ _ _ _ _ _ _ _ Hix1)) as Hb1.
  set (n' := mapped_child n (pg lb) lb). set (o' := mapped_child o (pg li) li). set (w2 := wrote (wrote w1 li (PgInner n')) lo (PgOuter o')).
  assert (Hd2 : at_place w2 (pg ld) ld (PgDir d1)) by (do 2 (apply at_place_wrote_ne; [|congruence]); exact Hd1).
  exists (fun nd => PgDir (set_sd_node nd d1)). change (sd_node d0) with (sd_node d) in En1. split_and!; [apply setter_dir| |].
  { rewrite <- En1. by destruct d1. }
  apply wp_ret, HQ. set (nd' := mapped_child (sd_node d) (pg lo) lo). set (w3 := wrote w2 ld _).
  assert (Hd3 : at_place w3 (pg ld) ld (PgDir (set_sd_node nd' d1))) by (by eapply at_place_wrote).
  assert (Hb3 : at_place w3 (pg lb) lb (PgBucket b1)) by (do 3 (apply at_place_wrote_ne; [|congruence]); exact Hb1).
  split; [|exact (sta_vm _ _ _ _ Hst)|].
  - exists (set_sd_node nd' d1), o', n', b1. split_and!; [split|..].
    + exact Hd3.
    + apply at_place_wrote_ne; [|congruence]. eapply at_place_wrote. apply at_place_wrote_ne; [exact Ho1|congruence].
    + do 2 (apply at_place_wrote_ne; [|congruence]). by eapply at_place_wrote.
    + exact Hb3.
    + by apply mapped_child_leads.
    + by apply mapped_child_leads.
    + by apply mapped_child_leads.
    + done.
    + eapply (indexed_move _ _ _ _ w1); [exact Hix1|by apply bucket_place|exact Hd3|done..].
  - intros l Hl. rewrite !not_elem_of_cons in Hl. destruct Hl as (L1 & L2 & L3 & L4 & _). unfold w3, w2. cbn [wrote set_w_file w_file].
    rewrite !lookup_insert_ne by congruence. rewrite (sta_file _ _ _ _ Hst) by done. cbn. by rewrite lookup_insert_ne by congruence.
Qed.
End map.

(** ** A restart between two transactions *)
Section restart.
Context {PS : Type} `{PL : PageAllocatorLaws PS}.
Implicit Types (w : world PS) (V : gmap Z pinfo) (G : geom).

(** The old process saved the place of every node in its parent, in both
    versions, and only sizes that an allocation can have. *)
Record saved V G (d : slab_dir) (o n : slab_node) (b : slab_bucket) (σ : amem) (lo : Z) : Prop := {
  sv_outer : exists wr, V !! g_so G = Some (PInfo (PgOuter o) wr lo);
  sv_dir : leads (sd_node d) lo;
  sv_node : leads o (g_li G);
  sv_inner : leads n (g_lb G);
  sv_sizes : forall i e, zget (sb_entries b) i = Some e -> SLAB_ENTRY_IS_INIT e = true ->
    se_size e mod 8 = 0 /\ r_laddr (se_ptr_current e) = r_laddr (se_ptr_snapshot e);
  sv_bytes : forall i bs, a_old σ !! i = Some bs -> zlen bs = PAGE_SIZE;
}.

(** A new process: the file again, at page addresses, no size class yet.
    [fp_writable] is what [slab_map] needs and the library does not provide:
    both mappers map the file of a former process read-only. *)
Record fresh_process w0 w (pg : Z -> Z) (places : list Z) : Prop := {
  fp_restarted : restarted w0 w pg;
  fp_addresses : forall a l, vm_of (w_pa w0) !! a = Some l -> page_address (pg l);
  fp_writable : forall l, l ∈ places -> writable w (pg l) = true;
  fp_sizes : w_sizes w = ∅;
}.

Lemma saved_places w V k G σ cont d o n b lo : sees w V k -> txn_rel w V G σ cont d o n b [] -> saved V G d o n b σ lo ->
  NoDup [g_lb G; g_li G; lo; g_ld G].
Proof.
  intros Hs [_ [_ _ _ Hd _ Hi _ _ _] Hb _ _ _ _] [[wr Ho] _ _ _ _ _].
  destruct (shown_file _ _ _ _ _ _ _ Hs Hb) as [_ Fb]; [done|]. destruct (shown_file _ _ _ _ _ _ _ Hs Hd) as [_ Fd]; [done|].
  destruct (shown_file _ _ _ _ _ _ _ Hs Hi) as [_ Fi]; [done|]. destruct (shown_file _ _ _ _ _ _ _ Hs Ho) as [_ Fo]; [done|].
  rewrite !NoDup_cons, !not_elem_of_cons. split_and!; try apply not_elem_of_nil; try constructor; intros E; congruence.
Qed.

Lemma saved_entry w V k G σ cont d o n b i e : sees w V k -> txn_rel w V G σ cont d o n b [] ->
  zget (sb_entries b) i = Some e -> SLAB_ENTRY_IS_INIT e = true ->
  exists bs, a_old σ !! i = Some bs /\ vm_of (w_pa w) !! cur_page e = Some (d_laddr (se_data_snapshot e)) /\
    w_file w !! d_laddr (se_data_snapshot e) = Some (PgData bs) /\ plain_entry e /\ d_laddr (se_data_current e) = d_laddr (se_data_snapshot e).
Proof.
  intros Hs Htx Ee Hini. pose proof Htx as [_ _ _ _ Hd _ _]. destruct (br_entry _ _ _ _ Hd i e Ee Hini) as (Hpl & now & old & En & _).
  destruct (idle_clean _ _ _ _ _ _ _ _ _ _ i Hs Htx) as (e' & bs & E' & _ & Eo & _ & Ec & Ev); [by eexists|].
  assert (e' = e) as -> by congruence. exists bs. destruct (shown_file _ _ _ _ _ _ _ Hs Ev) as [Hv Hf]; [done|].
  rewrite <- Ec in Hv, Hf. by split_and!.
Qed.

Lemma saved_walkable w0 w V k G σ cont d o n b lo pg : sees w0 V k -> txn_rel w0 V G σ cont d o n b [] -> saved V G d o n b σ lo ->
  fresh_process w0 w pg [g_lb G; g_li G; lo; g_ld G] -> walkable pg (g_lb G) (g_ld G) w b.
Proof.
  intros Hs Htx Hsv [[Rf Rm Rv] Hpa _ _]. pose proof Htx as [_ [_ _ _ Pd _ _ _ _ _] Hb _ Hd _ _].
  destruct (shown_file _ _ _ _ _ _ _ Hs Hb) as [_ Fb]; [done|]. destruct (shown_file _ _ _ _ _ _ _ Hs Pd) as [_ Fd]; [done|].
  pose proof (br_ready _ _ _ _ Hd) as Hr. split; [apply Hr|..].
  - intros i e Ee Hini. destruct (saved_entry _ _ _ _ _ _ _ _ _ _ i e Hs Htx Ee Hini) as (bs & _ & _ & _ & _ & El).
    split; [done|]. by apply (sv_sizes _ _ _ _ _ _ _ _ Hsv i).
  - intros i e Ee Hini. destruct (saved_entry _ _ _ _ _ _ _ _ _ _ i e Hs Htx Ee Hini) as (bs & Eo & Hv & Hf & (Hsz & _) & _).
    split; [done|exact (proj1 (sv_sizes _ _ _ _ _ _ _ _ Hsv i e Ee Hini))| |].
    + exists (d_laddr (se_data_snapshot e)), bs. split_and!; [by eapply Rv|intros E; rewrite E in Hf; congruence|
        intros E; rewrite E in Hf; congruence|by rewrite Rf, Hf|by eapply (sv_bytes _ _ _ _ _ _ _ _ Hsv)].
    + simpl. destruct (Hpa _ _ Hv) as (Hal & _ & _). unfold SE_SEARCH_MADDR. intros E. rewrite E in Hal. discriminate Hal.
  - intros i j ei ej Ei Ej Hij Hii Hjj E.
    destruct (saved_entry _ _ _ _ _ _ _ _ _ _ i ei Hs Htx Ei Hii) as (bi & _ & Vi & _ & _ & _).
    destruct (saved_entry _ _ _ _ _ _ _ _ _ _ j ej Hs Htx Ej Hjj) as (bj & _ & Vj & _ & _ & _).
    pose proof (Rv _ _ Vi) as Hi2. rewrite E, (Rv _ _ Vj) in Hi2. injection Hi2 as El. rewrite El in Vj.
    assert (Hc : cur_page ei = cur_page ej).
    { assert (Hpi : cur_page ei ∈ pages_of ei) by (unfold pages_of; rewrite Hii; by left).
      assert (Hpj : cur_page ej ∈ pages_of ej) by (unfold pages_of; rewrite Hjj; by left).
      eapply pa_inv_inj; [apply (sees_owns _ _ _ Hs)| | |by rewrite Vi, Vj]; apply elem_of_dom.
      - exact (cr_in _ _ _ Hr i ei _ Ei Hpi).
      - exact (cr_in _ _ _ Hr j ej _ Ej Hpj). }
    eapply (cr_disjoint _ _ _ Hr i j ei ej (cur_page ei)); [done|done|done| |].
    + unfold pages_of. rewrite Hii. by left.
    + rewrite Hc. unfold pages_of. rewrite Hjj. by left.
Qed.

(** An entry after the walk. *)
Lemma mapped_get w pg sb lb b b' i e : bucket_at w sb lb b' -> same_links (restored_bucket pg b) b' -> page_address sb ->
  zget (sb_entries b) i = Some e -> SLAB_ENTRY_IS_INIT e = true -> 0 <= i < SLAB_BUCKET_ENTRIES ->
  erase (se_at w (se_addr sb i)) = erase (restored pg e).
Proof.
  intros Hb Hs Ha Ee Hini Hi. destruct (addr_at sb Ha i Hi) as (E1 & E2 & E3).
  assert (Er : entry_of (restored_bucket pg b) (se_addr sb i) = Some (restored pg e)).
  { unfold entry_of, restored_bucket, with_entries. rewrite E2. cbn [sb_entries]. unfold zget in *. destruct (0 <=? i); [|done].
    change (map ?f ?l) with (f <$> l). rewrite list_lookup_fmap, Ee. simpl. unfold restored_if_init. by rewrite Hini. }
  destruct (same_links_entry _ _ _ _ Hs Er) as [m Em].
  by rewrite (se_at_bucket sb lb w b' (se_addr sb i) _ Hb (conj E3 Em)).
Qed.
End restart.

(** C10 What [slab_map] makes of the file, on writable nodes.  A process ends
    between two transactions; a new one maps the file at other addresses, and
    the pages of the nodes are writable there.  Neither mapper maps them so, and
    [container_restore] does not protect them otherwise before it calls
    [slab_map] ([Restart.v]); the theorem is about the walk itself.  It ends at
    the new address of the directory: every node leads to its child through
    both its references; every entry holds, through both its references, the
    content of the last checkpoint; the tree by address holds the entries in
    use and no other, ordered by their new addresses; each of them is in the
    queue of its size class and in no other; and the free list holds the entries
    not in use, in the order of the bucket.  An entry without a pointer page
    gets the address of the page at place 0 as its pointer page. *)
Theorem slab_map_restores {PS} `{AM : AllocatorMalloc PS} (w0 w : world PS) V k G σ cont d o n b lo pg :
  sees w0 V k -> txn_rel w0 V G σ cont d o n b [] -> saved V G d o n b σ lo ->
  fresh_process w0 w pg [g_lb G; g_li G; lo; g_ld G] ->
  exists w', slab_map (g_ld G) CPOINT_COMPLETE w = Ok (pg (g_ld G)) w' /\
    slab_mapped pg (g_lb G) (g_li G) lo (g_ld G) w b w' /\
    (forall i, is_Some (a_now σ !! i) -> exists old, a_old σ !! i = Some old /\
       entry_holds w' (se_addr (pg (g_lb G)) i) old old) /\
    (forall i e, zget (sb_entries b) i = Some e -> SLAB_ENTRY_IS_INIT e = true -> r_laddr (se_ptr_snapshot e) = 0 ->
       r_maddr (se_ptr_current (se_at w' (se_addr (pg (g_lb G)) i))) = pg 0).
Proof.
  intros Hs Htx Hsv Hfp. pose proof (saved_places _ _ _ _ _ _ _ _ _ _ _ Hs Htx Hsv) as Hnd.
  pose proof (saved_walkable _ _ _ _ _ _ _ _ _ _ _ _ _ Hs Htx Hsv Hfp) as Hwk.
  pose proof Hfp as [[Rf Rm Rv] Hpa Hwr Hsz]. pose proof Htx as [_ [_ _ _ Pd _ Pi _ _ _] Pb _ Hd _ _].
  pose proof Hsv as [[wr Po] Ld Lo Ln _ _].
  assert (Hat : forall a p wp l, V !! a = Some (PInfo p wp l) -> p <> PgZero -> l ∈ [g_lb G; g_li G; lo; g_ld G] ->
    at_place w (pg l) l p /\ page_address (pg l)).
  { intros a p wp l E Hp Hl. destruct (shown_file _ _ _ _ _ _ _ Hs E Hp) as [E1 E2].
    split; [split; [by eapply Rv|by apply Hwr|by rewrite Rf]|by eapply Hpa]. }
  destruct (Hat _ _ _ _ Pd) as [Td _]; [done|set_solver|]. destruct (Hat _ _ _ _ Pi) as [Ti _]; [done|set_solver|].
  destruct (Hat _ _ _ _ Po) as [To _]; [done|set_solver|]. destruct (Hat _ _ _ _ Pb) as [Tb Ha]; [done|set_solver|].
  assert (Hm : wp (slab_map (g_ld G) CPOINT_COMPLETE) (fun r w' => r = pg (g_ld G) /\ slab_mapped pg (g_lb G) (g_li G) lo (g_ld G) w b w') w).
  { eapply (wp_slab_map pg (g_lb G) (g_li G) lo (g_ld G) Hnd Ha w d o n b); [exact Rm|by split|exact Ld|exact Lo|exact Ln|exact Hwk| |done].
    intros es. rewrite Hsz, lookup_empty. by intros []. }
  destruct (proj1 (wp_run _ _ _) Hm) as (r & w' & E & -> & Hsm). exists w'. split_and!; [exact E|exact Hsm| |].
  all: pose proof Hsm as [(d' & o' & n' & b' & [_ _ _ Tb'] & _ & _ & _ & Hsl & _) Hvm Hfl]; apply bucket_place in Tb'.
  2: { intros i e Ee Hini Hz. pose proof (zget_lt _ _ _ Ee) as Hlt. rewrite (cr_len _ _ _ (br_ready _ _ _ _ Hd)) in Hlt.
    pose proof (mapped_get w' pg _ _ b b' i e Tb' Hsl Ha Ee Hini Hlt) as Hg.
    change (r_maddr (se_ptr_current (erase (se_at w' (se_addr (pg (g_lb G)) i)))) = pg 0). rewrite Hg. simpl. by rewrite Hz. }
  intros i Hi. destruct (br_known _ _ _ _ Hd i Hi) as (e & Ee & Hini). pose proof (zget_lt _ _ _ Ee) as Hlt.
  rewrite (cr_len _ _ _ (br_ready _ _ _ _ Hd)) in Hlt.
  destruct (saved_entry _ _ _ _ _ _ _ _ _ _ i e Hs Htx Ee Hini) as (bs & Eo & Hv & Hf & _ & _). exists bs. split; [exact Eo|].
  pose proof (mapped_get w' pg _ _ b b' i e Tb' Hsl Ha Ee Hini Hlt) as Hg.
  assert (Hni : d_laddr (se_data_snapshot e) ∉ [g_lb G; g_li G; lo; g_ld G]).
  { intros Hin. assert (Hk : exists a p wp, V !! a = Some (PInfo p wp (d_laddr (se_data_snapshot e))) /\ p <> PgZero /\ forall x, p <> PgData x).
    { unfold bucket_in in Pb. rewrite !elem_of_cons, elem_of_nil in Hin.
      destruct Hin as [->|[->|[->|[->|[]]]]]; do 3 eexists; (split; [eassumption|done]). }
    destruct Hk as (a & p & wp & E1 & E2 & E3). destruct (shown_file _ _ _ _ _ _ _ Hs E1 E2) as [_ E4]. rewrite Hf in E4. injection E4 as E4. by apply (E3 bs). }
  assert (Hpg : page_at w' (pg (d_laddr (se_data_snapshot e))) = Some (PgData bs) /\ w_file w' !! d_laddr (se_data_snapshot e) = Some (PgData bs)).
  { unfold page_at. rewrite Hvm, (Rv _ _ Hv). simpl. by rewrite (Hfl _ Hni), Rf, Hf. }
  unfold entry_holds. destruct (se_at w' _) as [? ? ? ? ? ? ?], Hpg as [P1 P2]. simpl in Hg. injection Hg as -> -> -> -> -> ->. by split_and!.
Qed.

(** A page of the fixed mapper is at a page address. *)
Lemma fixed_page_address (s : fmst) U k a l : fm_inv s U k -> vm_of s !! a = Some l -> page_address a.
Proof.
  intros (start & n & ps & F & Hwf & _ & Htop & _) E. pose proof (fw_mapped _ _ _ _ _ Hwf) as Hm.
  destruct (mp_only _ _ _ Hm a) as (i & Hi & ->); [by eexists|].
  destruct (fm_inv_elem _ _ _ _ _ i Hwf Hi Htop) as (_ & H1 & H2 & H3). split_and!; [done|done|unfold PAGE_SIZE in *; lia].
Qed.

Lemma demo_saved w p : demo w p -> saved (demo_V p) (demo_geom p) (demo_dir p) (demo_node SLAB_OUTER_ENTRIES (dp_i p))
  (demo_node SLAB_INNER_ENTRIES (dp_b p)) (demo_bucket p) demo_mem (dp_o p).2.
Proof.
  intros H. destruct (demo_lookups w p H) as (_ & _ & Ho & _). destruct (do_places _ _ _ _ _ _ _ _ H) as (P1 & P2 & P3). split.
  - by eexists.
  - split; [done|]. by do 2 eexists.
  - split; [done|]. by do 2 eexists.
  - split; [done|]. by do 2 eexists.
  - intros i e Ee Hini. by destruct (demo_entry_get p i e Ee) as [[_ ->]|[_ ->]].
  - intros i bs E. unfold demo_mem in E. cbn [a_old] in E. apply lookup_singleton_Some in E as [_ <-]. reflexivity.
Qed.

(** The file is mapped again, and the pages of [ls] are made writable. *)
Definition reopen_writable (e : env) (ls : list Z) : M (world fmst) unit :=
  on_pa (page_allocator_init e) ;;; forM ls (fun a => mprotect_page a PA_PROT_RNW).

Lemma wp_reopen_writable (w0 w : world fmst) U k e m ls : fm_inv (w_pa w0) U k -> file_again (w_pa w0) (w_pa w) m ->
  (forall a, a ∈ ls -> is_Some (vm_of (w_pa w0) !! a)) ->
  wp (reopen_writable e ls) (fun _ w' => w_file w' = w_file w /\ w_sizes w' = w_sizes w /\
    fm_start_addr (fs_fm (w_pa w')) = fm_start_addr (fs_fm (w_pa w0)) /\
    (forall a l, vm_of (w_pa w0) !! a = Some l -> vm_of (w_pa w') !! a = Some l) /\ forall a, a ∈ ls -> writable w' a = true) w.
Proof.
  intros Hi Ha Hls. unfold reopen_writable. apply wp_bind. unfold on_pa at 1. apply wp_zoom.
  eapply wp_mono; [by eapply reopened|]. intros [] s1 [E1 Hvm].
  assert (Hgo : forall ls w1, (forall a, a ∈ ls -> is_Some (vm_of (w_pa w0) !! a)) ->
    (forall a l, vm_of (w_pa w0) !! a = Some l -> vm_of (w_pa w1) !! a = Some l) ->
    wp (forM ls (fun a => mprotect_page a PA_PROT_RNW)) (fun _ w' => w_file w' = w_file w1 /\ w_sizes w' = w_sizes w1 /\
      fm_start_addr (fs_fm (w_pa w')) = fm_start_addr (fs_fm (w_pa w1)) /\ vm_of (w_pa w') = vm_of (w_pa w1) /\
      forall a, a ∈ ls \/ writable w1 a = true -> writable w' a = true) w1).
  { clear ls Hls. induction ls as [|x ls IH]; intros w1 Hls Hv; [apply wp_ret; split_and!; try done; by intros a [?%elem_of_nil|?]|].
    simpl. apply wp_bind. unfold mprotect_page at 1, on_pa at 1. apply wp_zoom. unfold page_allocator_mprotect at 1. simpl. apply wp_zoom.
    destruct (Hls x) as [l El]; [by left|]. apply wp_mprotect_page.
    { destruct Hi as (start & n & ps & F & Hwf & _ & Htop & _). pose proof (fw_mapped _ _ _ _ _ Hwf) as Hm.
      destruct (mp_only _ _ _ Hm x) as (i & Hii & ->); [by eexists|]. by destruct (fm_inv_elem _ _ _ _ _ i Hwf Hii Htop) as (_ & ? & _). }
    { exists l. exact (Hv x l El). }
    eapply wp_mono; [apply IH; [intros a Hin; apply Hls; by right|exact Hv]|].
    intros [] w2 (H1 & H2 & H3 & H4 & H5). split_and!; [done|done|done|done|]. intros a Hor. apply H5.
    unfold writable, prot_of. simpl. destruct (decide (a = x)) as [->|Hne]; [right; by rewrite lookup_insert_eq|].
    rewrite lookup_insert_ne by done. destruct Hor as [[?|?]%elem_of_cons|?]; [done|by left|by right]. }
  eapply wp_mono; [apply (Hgo ls _ Hls); intros a l El; by apply Hvm|]. intros [] w2 (H1 & H2 & H3 & H4 & H5).
  split_and!; [done|done|by rewrite H3|intros a l El; rewrite H4; by apply Hvm|intros a Hin; apply H5; by left].
Qed.

(** A process ends, a new one maps the file again and makes the nodes
    writable, which [container_restore] does not; then it runs [slab_map]. *)
Lemma slab_map_restores_witness : exists (w w1 w' : world fmst) p pg,
  reopen_writable demo_env [(dp_b p).1; (dp_i p).1; (dp_o p).1; (dp_d p).1] (new_process w) = Ok tt w1 /\
  slab_map (dp_d p).2 CPOINT_COMPLETE w1 = Ok (pg (dp_d p).2) w' /\
  slab_mapped pg (dp_b p).2 (dp_i p).2 (dp_o p).2 (dp_d p).2 w1 (demo_bucket p) w' /\
  entry_holds w' (se_addr (pg (dp_b p).2) 0) (replicate 4096 0) (replicate 4096 0).
Proof.
  destruct demo_exists as (w & p & H). pose proof (do_sees _ _ _ _ _ _ _ _ H) as Hs.
  pose (pg := fun l => u64 (fm_start_addr (fs_fm (w_pa w)) + l)).
  assert (Hlin : forall a l, vm_of (w_pa w) !! a = Some l -> pg l = a) by (intros a l; apply (fixed_linear _ _ _ a l (sees_owns _ _ _ Hs))).
  destruct (demo_lookups w p H) as (_ & Ld & Lo & Li & Lb & _).
  assert (Hv : forall a pp wr l, demo_V p !! a = Some (PInfo pp wr l) -> vm_of (w_pa w) !! a = Some l).
  { intros a pp wr l Ea. by destruct (sees_shows _ _ _ Hs _ _ Ea) as (_ & _ & Ev). }
  assert (Hr : wp (reopen_writable demo_env [(dp_b p).1; (dp_i p).1; (dp_o p).1; (dp_d p).1]) (fun _ w1 => w_file w1 = w_file w /\ w_sizes w1 = ∅ /\
    fm_start_addr (fs_fm (w_pa w1)) = fm_start_addr (fs_fm (w_pa w)) /\
    (forall a l, vm_of (w_pa w) !! a = Some l -> vm_of (w_pa w1) !! a = Some l) /\
    forall a, a ∈ [(dp_b p).1; (dp_i p).1; (dp_o p).1; (dp_d p).1] -> writable w1 a = true) (new_process w)).
  { apply (wp_reopen_writable w (new_process w) _ _ demo_env 64 _ (sees_owns _ _ _ Hs) (demo_again w p H)). intros a Ha.
    rewrite !elem_of_cons, elem_of_nil in Ha. destruct Ha as [->|[->|[->|[->|[]]]]]; eexists; by eapply Hv. }
  destruct (proj1 (wp_run _ _ _) Hr) as ([] & w1 & Er & Ef & Ez & Es & Evm & Ew).
  destruct (slab_map_restores w w1 (demo_V p) 58 (demo_geom p) demo_mem _ _ _ _ _ (dp_o p).2 pg Hs (demo_txn_rel w p H) (demo_saved w p H))
    as (w' & E & Hm & Hh & _).
  - split; [split; [done|intros l; unfold pg; by rewrite <- Es|]|..].
    + intros a l Ea. rewrite (Hlin _ _ Ea). by apply Evm.
    + intros a l Ea. rewrite (Hlin _ _ Ea). exact (fixed_page_address _ _ _ a l (sees_owns _ _ _ Hs) Ea).
    + intros l Hl. cbn [demo_geom g_lb g_li g_ld] in Hl. rewrite !elem_of_cons, elem_of_nil in Hl.
      assert (Hw : forall a pp l, demo_V p !! a = Some (PInfo pp true l) -> a ∈ [(dp_b p).1; (dp_i p).1; (dp_o p).1; (dp_d p).1] -> writable w1 (pg l) = true).
      { intros a pp l' Ea Hin. rewrite (Hlin a l'); [by apply Ew|by eapply Hv]. }
      destruct Hl as [->|[->|[->|[->|[]]]]]; [eapply (Hw _ _ _ Lb)|eapply (Hw _ _ _ Li)|eapply (Hw _ _ _ Lo)|eapply (Hw _ _ _ Ld)]; set_solver.
    + exact Ez.
  - exists w, w1, w', p, pg. split; [exact Er|]. split; [exact E|]. split; [exact Hm|]. destruct (Hh 0) as (old & Eo & He); [by eexists|].
    injection Eo as <-. exact He.
Defined.
