(* ===== verification/Heap.v ===== *)
(** * The invariant of the slab

    What allocation from the slab relies on and keeps: [heap].  It covers the
    pages of the entries, the tree by address, the tree of size classes with
    the heads of their queues, and the free list.  A full entry is put at the
    tail of a queue it is still in, which can cut the queue or close it to a
    cycle; the allocation only follows the heads, so the invariant says
    nothing of the rest of these queues.

    The slab has one bucket. *)
From Stdlib Require Import ZArith Lia.
From stdpp Require Import base numbers gmap option list.
From S2P Require Import Prelude Macros Bitstring Vector Queue Process RBTree FixedMapper PageAlloc NlLaws Brk.
From S2P Require Import SlabLayout World Demo Snapshot Slab Alloc Checkpoint Txn Restore Recovery Index Remap.
Open Scope Z_scope.

(** ** Steps that keep the size classes below the break *)
Section seen.
Context {PS : Type} `{PL : PageAllocatorLaws PS} `{AB : !AllocatorBrk PS}.
Implicit Types (w : world PS) (V : gmap Z pinfo) (k : nat).

Definition low w : Prop := forall es, is_Some (w_sizes w !! es) -> es < p_brk (pa_proc (w_pa w)).

Record seen w V k : Prop := { sn_sees0 : sees0 w V k; sn_low : low w }.

Lemma sn_sees w V k : seen w V k -> sees w V k.
Proof. intros [[Hs _] _]. exact Hs. Qed.

Lemma low_step {A} (m : M PS A) w x w' : low w -> grows (brk_le pa_proc) m -> on_pa m w = Ok x w' -> low w'.
Proof.
  intros Hl Hm. unfold on_pa, zoom. destruct (m (w_pa w)) as [y s|] eqn:E; [|done]. intros [= _ <-] es Hes.
  specialize (Hl es Hes). specialize (Hm _ _ _ E). unfold brk_le in Hm. simpl. lia.
Qed.

(** A step of the allocator. *)
Lemma wp_seen_step {A} (m : M PS A) w V k (Q R : A -> world PS -> Prop) :
  seen w V k -> grows (brk_le pa_proc) m -> wp (on_pa m) R w -> (forall x w', R x w' -> low w' -> Q x w') -> wp (on_pa m) Q w.
Proof using AB.
  intros [_ Hl] Hm HR HQ. eapply wp_mono; [eapply wp_also; [exact HR|intros x w'; by eapply low_step]|]. intros x w' [H1 H2]. by apply HQ.
Qed.

#[export] Instance seen_stepping : Stepping seen | 20.
Proof using AB.
  split.
  - intros w V k. apply sn_sees.
  - intros w V k a i p Q [Hs Hl] E Hw HQ. destruct (sees_shows _ _ _ (s0_sees _ _ _ Hs) _ _ E) as (_ & Ew & El).
    eapply wp_mono; [eapply wp_also; [eapply (sees0_store w V k a i p (fun _ w' => sees0 w' (<[a := PInfo p true (pi_laddr i)]> V) k /\ globals w' = globals w));
      [exact Hs|exact E|exact Hw|by split]|]|].
    + intros x w' Ex. instantiate (1 := fun _ w' => low w'). revert Ex. unfold store_raw. rewrite El, Ew, Hw. intros [= _ <-]. exact Hl.
    + intros [] w' [[Hs' Hg] Hl']. apply HQ; [by split|done].
  - intros w V k flags Q Hs HQ. unfold getpage.
    eapply (wp_seen_step _ w V (Datatypes.S k) _ (fun r w' => exists a l p b, r = (a, l) /\ V !! a = None /\ 0 < a /\
      (Z.land flags PA_PROT_WRITE <> 0 -> b = true) /\ sees0 w' (<[a := PInfo p b l]> V) k /\ globals w' = globals w)); [exact Hs|apply pa_getpage_brk| |].
    + apply (wp_getpage_view (SV := sees0) w V k flags); [apply Hs|]. intros a l p b w' H1 H2 H3 H4 H5. by exists a, l, p, b.
    + intros r w' (a & l & p & b & -> & H1 & H2 & H3 & H4 & H5) Hl. by apply (HQ a l p b).
  - intros w V k a i flags Q Hs E HQ. unfold mprotect_page.
    eapply (wp_seen_step _ w V k _ (fun _ w' => sees0 w' (<[a := PInfo (pi_page i) (negb (Z.land flags PA_PROT_WRITE =? 0)) (pi_laddr i)]> V) k /\
      globals w' = globals w)); [exact Hs|apply pa_mprotect_brk| |].
    + apply (wp_mprotect_view (SV := sees0) w V k a i flags); [apply Hs|exact E|by split].
    + intros [] w' [H1 H2] Hl. by apply HQ.
  - intros f w V k Q Hs HQ. unfold w_stat.
    eapply (wp_seen_step _ w V k _ (fun _ w' => sees0 w' V k /\ globals w' = globals w)); [exact Hs|apply pa_stat_brk| |].
    + apply (wp_stat_view (SV := sees0) f w V k); [apply Hs|by split].
    + intros [] w' [H1 H2] Hl. by apply HQ.
Qed.

(** A new page is zero. *)
Lemma wp_getpage_new w V k flags (Q : Z * Z -> world PS -> Prop) : seen w V (S k) ->
  (forall a l b w', V !! a = None -> 0 < a -> (Z.land flags PA_PROT_WRITE <> 0 -> b = true) ->
     seen w' (<[a := PInfo PgZero b l]> V) k -> globals w' = globals w -> Q (a, l) w') -> wp (getpage flags) Q w.
Proof using AB.
  intros Hs HQ. unfold getpage. eapply (wp_seen_step _ w V (S k) _ (fun r w' => exists a l b, r = (a, l) /\ V !! a = None /\ 0 < a /\
    (Z.land flags PA_PROT_WRITE <> 0 -> b = true) /\ sees0 w' (<[a := PInfo PgZero b l]> V) k /\ globals w' = globals w)); [exact Hs|apply pa_getpage_brk| |].
  - apply (wp_getpage_zero w V k); [apply Hs|]. intros a l b w' H1 H2 H3 _ H4 H5. by exists a, l, b.
  - intros r w' (a & l & b & -> & H1 & H2 & H3 & H4 & H5) Hl. apply (HQ a l b); [done|done|done|by split|done].
Qed.
End seen.

(** ** The invariant *)

(** The same entries, up to their links. *)
Definition same_entries (b b' : slab_bucket) : Prop := erase <$> sb_entries b' = erase <$> sb_entries b.

#[export] Instance same_entries_equiv : Equivalence same_entries.
Proof. split; unfold same_entries; [by intros b|by intros b b'|]. intros b1 b2 b3 H1 H2. congruence. Qed.

Lemma same_entries_get b b' i e : same_entries b b' -> zget (sb_entries b) i = Some e -> exists n, zget (sb_entries b') i = Some (set_se_list n e).
Proof.
  intros H He. assert (Hz : erase <$> zget (sb_entries b') i = erase <$> zget (sb_entries b) i).
  { unfold zget. destruct (0 <=? i); [|done]. by rewrite <- !list_lookup_fmap, H. }
  rewrite He in Hz. simpl in Hz. destruct (zget (sb_entries b') i) as [e'|]; [|done].
  destruct e, e'. simpl in Hz. injection Hz as -> -> -> -> -> ->. by eexists.
Qed.

Lemma same_entries_back b b' i e' : same_entries b b' -> zget (sb_entries b') i = Some e' ->
  exists n e, zget (sb_entries b) i = Some e /\ e' = set_se_list n e.
Proof.
  intros H He. destruct (same_entries_get b' b i e') as [m Hm]; [by symmetry|done|]. exists (se_list e'), (set_se_list m e').
  split; [done|]. by destruct e'.
Qed.

Lemma same_entries_len b b' : same_entries b b' -> length (sb_entries b') = length (sb_entries b).
Proof. intros H. apply (f_equal length) in H. by rewrite !length_fmap in H. Qed.

Lemma same_entries_link b se e n : entry_of b se = Some e -> same_entries b (put_entry b se (set_se_list n e)).
Proof. intros He. by destruct (same_links_put b se e n He) as (_ & _ & ?). Qed.

(** An entry in use has a data page, and is protected only when the page is
    also its snapshot. *)
Record entry_used (V : gmap Z pinfo) (e : slab_entry) : Prop := {
  eu_size : 0 < se_size e <= PAGE_SIZE;
  eu_mult : se_size e mod 8 = 0;
  eu_noptr : r_maddr (se_ptr_snapshot e) = 0;
  eu_byte : in_u 8 (d_bitmap (se_data_current e));
  eu_data : exists im bs, V !! cur_page e = Some im /\ as_page (T := data_page) (pi_page im) = Some (Data bs) /\
    zlen bs = PAGE_SIZE /\ bytes_ok bs /\ (pi_writable im = false -> cur_page e = snap_page e);
  eu_snap : exists im, V !! snap_page e = Some im /\ is_Some (as_page (T := data_page) (pi_page im));
}.

Record bucket_ok V (sb : Z) (b : slab_bucket) : Prop := {
  bo_ready : cpoint_ready V sb b;
  bo_used : forall i e, zget (sb_entries b) i = Some e -> SLAB_ENTRY_IS_INIT e = true -> entry_used V e;
  bo_unused : forall i e, zget (sb_entries b) i = Some e -> SLAB_ENTRY_IS_INIT e = false -> d_bitmap (se_data_current e) = 0;
}.

(** The links from [p] on. *)
Fixpoint chain (b : slab_bucket) (p : option Z) (l : list Z) : Prop :=
  match l with
  | [] => p = None
  | x :: l' => p = Some x /\ exists e, entry_of b x = Some e /\ chain b (se_list e) l'
  end.

(** An entry of the bucket in the class of the size [s]: in use, or the
    pending one, which has left the free list and is not in use yet. *)
Definition member (sb : Z) (b : slab_bucket) (pend : option (Z * Z)) (se s : Z) : Prop :=
  exists i e, se = se_addr sb i /\ zget (sb_entries b) i = Some e /\
    if SLAB_ENTRY_IS_INIT e then se_size e = s else pend = Some (se, s).

Definition class_ok {PS} (w : world PS) sb b (pend : option (Z * Z)) (es : Z) : Prop :=
  exists q f x, w_sizes w !! es = Some q /\ stqh_first (es_list q) = Some f /\ stqh_last (es_list q) = SNext x /\
    member sb b pend f (es_size q) /\ member sb b pend x (es_size q).

Record sizes_ok {PS} (w : world PS) (sb : Z) b (d : slab_dir) (pend : option (Z * Z)) : Prop := {
  so_tree : rb_tree (sd_size_root d);
  so_sorted : key_sorted (fun es => es_size (es_at w es)) (inorder (sd_size_root d));
  so_class : forall es, es ∈ inorder (sd_size_root d) -> class_ok w sb b pend es;
}.

Definition unused_at (sb : Z) (b : slab_bucket) (se : Z) : Prop :=
  exists i e, se = se_addr sb i /\ zget (sb_entries b) i = Some e /\ SLAB_ENTRY_IS_INIT e = false.

Record free_ok (sb : Z) b (d : slab_dir) (pend : option (Z * Z)) (l : list Z) : Prop := {
  fo_chain : chain b (stqh_first (sd_free_list d)) l;
  fo_nodup : NoDup l;
  fo_elem : forall se, se ∈ l <-> unused_at sb b se /\ forall s, pend <> Some (se, s);
}.

Record heap {PS} `{PageAllocatorLaws PS} (G : geom) (w : world PS) V cont d o n b ls (pend : option (Z * Z)) (l : list Z) : Prop := {
  hp_mode : copynswap_enabled w = false;
  hp_path : path_rel w V G cont d o n;
  hp_slot : is_Some (zget (n_snapshot n) 0);
  hp_bucket : bucket_in V (g_sb G) b (g_lb G);
  hp_id : sb_id b = 0;
  hp_entries : bucket_ok V (g_sb G) b;
  hp_tree : tree_rel (g_sb G) b d;
  hp_rb : rb_tree (sd_maddr_root d);
  hp_vec : vec_rel (g_sb G) b d ls;
  hp_sizes : sizes_ok w (g_sb G) b d pend;
  hp_free : free_ok (g_sb G) b d pend l;
}.

(** ** What keeps the invariant *)
Section keep.
Context (sb : Z) (Ha : page_address sb).
Implicit Types (V : gmap Z pinfo) (b : slab_bucket) (d : slab_dir).

Lemma entry_used_same V V' e : entry_used V e -> (forall x, x ∈ pages_of e -> V' !! x = V !! x) -> SLAB_ENTRY_IS_INIT e = true -> entry_used V' e.
Proof using.
  intros [U1 U2 U3 U4 U5 U6] HV Hi. pose proof (HV _ (cur_in_pages e Hi)) as E1. pose proof (HV _ (snap_in_pages e Hi)) as E2.
  by split; rewrite ?E1, ?E2.
Qed.

(** The pages of an entry are data pages. *)
Lemma used_pages V e x : entry_used V e -> x ∈ pages_of e -> exists im, V !! x = Some im /\ is_Some (as_page (T := data_page) (pi_page im)).
Proof using.
  intros [_ _ _ _ (im & bs & E1 & E2 & _) U6] Hx. unfold pages_of in Hx. destruct (SLAB_ENTRY_IS_INIT e); [|by apply elem_of_nil in Hx].
  apply elem_of_cons in Hx as [->|Hx]; [exists im; by rewrite E2|].
  destruct (cur_page e =? snap_page e); [by apply elem_of_nil in Hx|]. by apply list_elem_of_singleton in Hx as ->.
Qed.

Lemma bucket_ok_same V V' b b' : bucket_ok V sb b -> same_entries b b' ->
  (forall i e x, zget (sb_entries b) i = Some e -> x ∈ pages_of e -> V' !! x = V !! x) -> bucket_ok V' sb b'.
Proof using.
  intros [[H1 H2 H3 H4 H5] Hu Hn] Hs HV. split; [split|..].
  - unfold zlen. by rewrite (same_entries_len _ _ Hs).
  - intros i e' (n & e & Ee & ->)%(same_entries_back _ _ _ _ Hs). by apply (H2 i e).
  - intros i j ei ej a (n & e & Ee & ->)%(same_entries_back _ _ _ _ Hs) (m & f & Ef & ->)%(same_entries_back _ _ _ _ Hs). by apply (H3 i j e f).
  - intros i e' a (n & e & Ee & ->)%(same_entries_back _ _ _ _ Hs) Hx. change (a ∈ pages_of e) in Hx. rewrite (HV i e a Ee Hx). by apply (H4 i e).
  - intros i e' (n & e & Ee & ->)%(same_entries_back _ _ _ _ Hs). by apply (H5 i e).
  - intros i e' (n & e & Ee & ->)%(same_entries_back _ _ _ _ Hs) Hi. change (SLAB_ENTRY_IS_INIT e = true) in Hi.
    destruct (entry_used_same V V' e (Hu i e Ee Hi)); [intros x Hx; by eapply HV|done|by split].
  - intros i e' (n & e & Ee & ->)%(same_entries_back _ _ _ _ Hs). by apply (Hn i e).
Qed.

Lemma same_entries_keys b b' : same_entries b b' -> same_keys b b'.
Proof using. intros Hs i e' (n & e & Ee & ->)%(same_entries_back _ _ _ _ Hs). by exists e. Qed.

Lemma old_pages_same es es' : erase <$> es' = erase <$> es -> old_pages es' = old_pages es.
Proof using.
  revert es'. induction es as [|e es IH]; intros [|e' es']; simpl; [done|done|done|]. intros [= E1 E2 E3 E4 E5 E6 E]. rewrite (IH es' E).
  unfold is_old, SLAB_ENTRY_IS_INIT, cur_page, snap_page. by rewrite E2, E3, E4.
Qed.

Lemma vec_rel_keep b b' d d' ls : vec_rel sb b d ls -> same_entries b b' -> sd_vector d' = sd_vector d -> vec_rel sb b' d' ls.
Proof using.
  intros [H1 H2 H3 H4] Hs Ed. split; rewrite ?Ed; [done|done|by rewrite (old_pages_same _ _ Hs)|].
  intros se Hse. destruct (H4 se Hse) as (i & e & -> & Ee & Hi). destruct (same_entries_get _ _ _ _ Hs Ee) as [n En]. by exists i, (set_se_list n e).
Qed.

Lemma member_same b b' pend se s : same_entries b b' -> member sb b pend se s -> member sb b' pend se s.
Proof using.
  intros Hs (i & e & -> & Ee & Hm). destruct (same_entries_get _ _ _ _ Hs Ee) as [n En]. by exists i, (set_se_list n e).
Qed.

Lemma unused_same b b' se : same_entries b b' -> unused_at sb b se -> unused_at sb b' se.
Proof using.
  intros Hs (i & e & -> & Ee & Hm). destruct (same_entries_get _ _ _ _ Hs Ee) as [n En]. by exists i, (set_se_list n e).
Qed.

Lemma sizes_ok_same {PS} (w w' : world PS) b b' d d' pend : sizes_ok w sb b d pend -> same_entries b b' ->
  sd_size_root d' = sd_size_root d -> w_sizes w' = w_sizes w -> sizes_ok w' sb b' d' pend.
Proof using.
  intros [H1 H2 H3] Hs Ed Ew. split; rewrite ?Ed; [done| |].
  - eapply key_sorted_ext; [|exact H2]. intros x _. unfold es_at. by rewrite Ew.
  - intros es Hes. destruct (H3 es Hes) as (q & f & x & E1 & E2 & E3 & E4 & E5). exists q, f, x. rewrite Ew.
    split_and!; [done|done|done|by apply (member_same b)|by apply (member_same b)].
Qed.

Lemma addr_of_entry b i e : zlen (sb_entries b) = SLAB_BUCKET_ENTRIES -> zget (sb_entries b) i = Some e ->
  se_page (se_addr sb i) = sb /\ SLAB_ENTRY_INDEX (se_addr sb i) = i /\ entry_of b (se_addr sb i) = Some e.
Proof using Ha.
  intros Hlen Ee. pose proof (zget_lt _ _ _ Ee) as Hlt. rewrite Hlen in Hlt. destruct (addr_at sb Ha i Hlt) as (E1 & E2 & _).
  split_and!; [done|done|]. unfold entry_of. by rewrite E2.
Qed.

(** A link that is not on the chain may change. *)
Lemma chain_put b b' p l : (forall y e, y ∈ l -> entry_of b y = Some e -> exists e', entry_of b' y = Some e' /\ se_list e' = se_list e) ->
  chain b p l -> chain b' p l.
Proof using.
  revert p. induction l as [|x l IH]; intros p Hk; [done|]. simpl. intros (-> & e & Ee & Hc). split; [done|].
  destruct (Hk x e) as (e' & Ee' & El); [by left|done|]. exists e'. split; [done|]. rewrite El. apply IH; [|done].
  intros y ey Hy. apply Hk. by right.
Qed.

Lemma free_ok_same b b' d d' pend l : free_ok sb b d pend l -> same_entries b b' ->
  stqh_first (sd_free_list d') = stqh_first (sd_free_list d) ->
  (forall y e, y ∈ l -> entry_of b y = Some e -> exists e', entry_of b' y = Some e' /\ se_list e' = se_list e) -> free_ok sb b' d' pend l.
Proof using.
  intros [H1 H2 H3] Hs Ed Hk. split; [rewrite Ed; by eapply chain_put|done|]. intros se. rewrite H3.
  split; intros [Hu Hp]; (split; [|done]); [by apply (unused_same b)|]. apply (unused_same b'); [by symmetry|done].
Qed.
(** *** One entry changes *)

(** The entry at [i] becomes [e'], in use: it was in use with this size, or
    was the pending entry of this size. *)
Record entry_step (b b' : slab_bucket) (pend : option (Z * Z)) (i : Z) (e e' : slab_entry) : Prop := {
  es_old : zget (sb_entries b) i = Some e;
  es_new : sb_entries b' = <[Z.to_nat i := e']> (sb_entries b);
  es_init : SLAB_ENTRY_IS_INIT e' = true;
  es_link : se_list e' = se_list e;
  es_from : if SLAB_ENTRY_IS_INIT e then pend = None /\ se_size e' = se_size e else pend = Some (se_addr sb i, se_size e');
}.

Lemma entry_step_get b b' pend i e e' j : entry_step b b' pend i e e' ->
  zget (sb_entries b') j = if decide (j = i) then Some e' else zget (sb_entries b) j.
Proof using. intros [H1 -> _ _ _]. by apply zget_insert_case with e. Qed.

Lemma entry_step_pend b b' pend i e e' y s : entry_step b b' pend i e e' -> pend = Some (y, s) ->
  y = se_addr sb i /\ s = se_size e' /\ SLAB_ENTRY_IS_INIT e = false.
Proof using. intros [_ _ _ _ H5] ->. destruct (SLAB_ENTRY_IS_INIT e); [by destruct H5|]. by injection H5 as -> ->. Qed.

Lemma se_addr_inj i j : se_addr sb i = se_addr sb j -> i = j.
Proof using. unfold se_addr, sizeof_slab_entry. lia. Qed.

Lemma bucket_ok_put V V' b b' pend i e e' : bucket_ok V sb b -> entry_step b b' pend i e e' -> entry_used V' e' ->
  r_maddr (se_ptr_current e') = 0 -> NoDup (sb :: pages_of e') ->
  (forall x, x ∈ pages_of e' -> is_Some (V' !! x) /\ (x ∈ pages_of e \/ V !! x = None)) ->
  (forall j ej x, zget (sb_entries b) j = Some ej -> j <> i -> x ∈ pages_of ej -> V' !! x = V !! x) ->
  bucket_ok V' sb b'.
Proof using.
  intros [Hr Hu Hn] Hst Hu' Hptr Hnd Hpg Hkeep. split.
  - by eapply cpoint_ready_put; [exact Hr|apply Hst|apply Hst|..].
  - intros j ej. rewrite (entry_step_get _ _ _ _ _ _ _ Hst). case_decide; intros Ej Hi; simplify_eq; [done|].
    eapply entry_used_same; [by eapply Hu| |done]. intros x Hx. by eapply Hkeep.
  - intros j ej. rewrite (entry_step_get _ _ _ _ _ _ _ Hst). case_decide; intros Ej Hi; simplify_eq; [|by eapply Hn].
    by rewrite (es_init _ _ _ _ _ _ Hst) in Hi.
Qed.

Lemma member_put b b' pend i e e' y s : entry_step b b' pend i e e' -> member sb b pend y s -> member sb b' None y s.
Proof using.
  intros Hst (j & ej & -> & Ej & Hm). pose proof (entry_step_get _ _ _ _ _ _ j Hst) as Hz. unfold member.
  destruct (decide (j = i)) as [->|Hj].
  - exists i, e'. rewrite (es_init _ _ _ _ _ _ Hst). split_and!; [done|done|]. pose proof (es_old _ _ _ _ _ _ Hst) as Eo.
    assert (ej = e) as -> by congruence. pose proof (es_from _ _ _ _ _ _ Hst) as Hf. destruct (SLAB_ENTRY_IS_INIT e); [destruct Hf; congruence|].
    rewrite Hm in Hf. by injection Hf.
  - exists j, ej. rewrite Hz. split_and!; [done|done|]. destruct (SLAB_ENTRY_IS_INIT ej); [done|].
    destruct (entry_step_pend _ _ _ _ _ _ _ _ Hst Hm) as (E%se_addr_inj & _). done.
Qed.

Lemma sizes_ok_put {PS} (w w' : world PS) b b' d d' pend i e e' : sizes_ok w sb b d pend -> entry_step b b' pend i e e' ->
  sd_size_root d' = sd_size_root d -> w_sizes w' = w_sizes w -> sizes_ok w' sb b' d' None.
Proof using.
  intros [H1 H2 H3] Hst Ed Ew. split; rewrite ?Ed; [done| |].
  - eapply key_sorted_ext; [|exact H2]. intros x _. unfold es_at. by rewrite Ew.
  - intros es Hes. destruct (H3 es Hes) as (q & f & x & E1 & E2 & E3 & E4 & E5). exists q, f, x. rewrite Ew.
    split_and!; [done|done|done|by eapply member_put|by eapply member_put].
Qed.

Lemma free_ok_put b b' d d' pend i e e' l : zlen (sb_entries b) = SLAB_BUCKET_ENTRIES ->
  free_ok sb b d pend l -> entry_step b b' pend i e e' -> sd_free_list d' = sd_free_list d -> free_ok sb b' d' None l.
Proof using Ha.
  intros Hlen [H1 H2 H3] Hst Ed. pose proof (fun j => entry_step_get _ _ _ _ _ _ j Hst) as Hz. pose proof (es_old _ _ _ _ _ _ Hst) as Ei.
  split; [|done|].
  - rewrite Ed. eapply chain_put; [|exact H1]. intros y ey _ Ey. unfold entry_of in *. rewrite Hz. case_decide as Hd; [|by exists ey].
    exists e'. split; [done|]. rewrite (es_link _ _ _ _ _ _ Hst). congruence.
  - intros y. rewrite H3. split.
    + intros [(j & ej & -> & Ej & Hi) Hp]. split; [|done]. exists j, ej. rewrite Hz. case_decide as Hd; [|done]. subst j.
      assert (ej = e) as -> by congruence. pose proof (es_from _ _ _ _ _ _ Hst) as Hf. rewrite Hi in Hf. by destruct (Hp (se_size e')).
    + intros [(j & ej & -> & Ej & Hi) _]. rewrite Hz in Ej. case_decide as Hd; [injection Ej as <-; by rewrite (es_init _ _ _ _ _ _ Hst) in Hi|].
      split; [by exists j, ej|]. intros s Hp. by destruct (entry_step_pend _ _ _ _ _ _ _ _ Hst Hp) as (E%se_addr_inj & _).
Qed.
Lemma vec_rel_put b b' d d' pend i e e' ls : vec_rel sb b d ls -> entry_step b b' pend i e e' -> is_old e' = is_old e ->
  sd_vector d' = sd_vector d -> vec_rel sb b' d' ls.
Proof using.
  intros [H1 H2 H3 H4] Hst Ho Ed. split; rewrite ?Ed; [done|done| |].
  - pose proof (old_pages_insert _ _ _ e' (es_old _ _ _ _ _ _ Hst)) as Hins. rewrite (es_new _ _ _ _ _ _ Hst). rewrite Ho in Hins. lia.
  - intros se Hse. destruct (H4 se Hse) as (j & ej & -> & Ej & Hij). exists j. rewrite (entry_step_get _ _ _ _ _ _ _ Hst).
    case_decide; [exists e'; split_and!; [done|done|apply Hst]|by exists ej].
Qed.
End keep.

(** The static variables but for the size classes. *)
Definition same_mode {PS} (w w' : world PS) : Prop := copynswap_enabled w' = copynswap_enabled w /\ CONTAINERS w' = CONTAINERS w.

#[export] Instance same_mode_preorder {PS} : PreOrder (same_mode (PS := PS)).
Proof. split; [by intros w|]. intros w1 w2 w3 [H1 H2] [H3 H4]. split; congruence. Qed.

(** A step that changes links, the free list, the classes and the snapshot of
    the bucket, but no entry and no data page. *)
Lemma heap_step {PS} `{PL : PageAllocatorLaws PS} G (w w' : world PS) V V' cont d d' o n n' b b' ls pend pend' l l' :
  heap G w V cont d o n b ls pend l ->
  copynswap_enabled w' = copynswap_enabled w -> CONTAINERS w' = CONTAINERS w ->
  V' !! g_c G = V !! g_c G -> V' !! g_so G = V !! g_so G ->
  V' !! g_sd G = Some (PInfo (PgDir d') true (g_ld G)) -> sd_node d' = sd_node d -> sd_vector d' = sd_vector d -> sd_maddr_root d' = sd_maddr_root d ->
  V' !! g_si G = Some (PInfo (PgInner n') true (g_li G)) -> n_index n' = n_index n -> n_current n' = n_current n -> is_Some (zget (n_snapshot n') 0) ->
  bucket_in V' (g_sb G) b' (g_lb G) -> sb_id b' = sb_id b -> same_entries b b' ->
  (forall i e x, zget (sb_entries b) i = Some e -> x ∈ pages_of e -> V' !! x = V !! x) ->
  sizes_ok w' (g_sb G) b' d' pend' -> free_ok (g_sb G) b' d' pend' l' ->
  heap G w' V' cont d' o n' b' ls pend' l'.
Proof.
  intros [H1 H2 H3 H4 H5 H6 H7 H8 H9 H10 H11] E1 E2 E3 E4 E5 E6 E7 E8 E9 E10 E11 E12 E13 E14 Hs HV Hz Hf.
  split; [congruence| |done|done|congruence| | | | |done|done].
  - by eapply path_rel_same.
  - by eapply bucket_ok_same.
  - eapply tree_rel_same; [exact H7|by apply same_entries_keys|by apply same_entries_len|done].
  - by rewrite E8.
  - by eapply vec_rel_keep.
Qed.

(** A step that changes one entry. *)
Lemma heap_put {PS} `{PL : PageAllocatorLaws PS} G (w w' : world PS) V V' cont d d' o n b b' ls ls' pend l i e e' :
  heap G w V cont d o n b ls pend l -> page_address (g_sb G) -> same_mode w w' -> w_sizes w' = w_sizes w ->
  entry_step (g_sb G) b b' pend i e e' -> sb_id b' = sb_id b ->
  V' !! g_c G = V !! g_c G -> V' !! g_so G = V !! g_so G -> V' !! g_si G = V !! g_si G ->
  V' !! g_sd G = Some (PInfo (PgDir d') true (g_ld G)) -> V' !! g_sb G = Some (PInfo (PgBucket b') true (g_lb G)) ->
  sd_node d' = sd_node d -> sd_size_root d' = sd_size_root d -> sd_free_list d' = sd_free_list d ->
  entry_used V' e' -> r_maddr (se_ptr_current e') = 0 -> NoDup (g_sb G :: pages_of e') ->
  (forall x, x ∈ pages_of e' -> is_Some (V' !! x) /\ (x ∈ pages_of e \/ V !! x = None)) ->
  (forall j ej x, zget (sb_entries b) j = Some ej -> j <> i -> x ∈ pages_of ej -> V' !! x = V !! x) ->
  tree_rel (g_sb G) b' d' -> rb_tree (sd_maddr_root d') -> vec_rel (g_sb G) b' d' ls' ->
  heap G w' V' cont d' o n b' ls' None l.
Proof.
  intros [H1 H2 H3 H4 H5 H6 H7 H8 H9 H10 H11] Ha [Hm Hc] Hz Hst Hid E1 E2 E3 E4 E5 E6 E7 E8 Hu Hptr Hnd Hpg Hkeep Ht Hrb Hv.
  split; [congruence| |done|done|congruence| |done|done|done| |].
  - eapply path_rel_same; [exact H2|done|done|done|done|done|rewrite E3; apply H2|done|done].
  - by eapply bucket_ok_put.
  - by eapply sizes_ok_put.
  - eapply free_ok_put; [done|apply (cr_len _ _ _ (bo_ready _ _ _ H6))|done|done|done].
Qed.
