(* ===== verification/Palloc.v ===== *)
(** * Allocation from the whole slab: [slab_palloc] of [alloc.c]

    Each step of [slab_palloc] keeps the invariant of [Heap.v]: the choice of
    an entry by the tree of size classes, the free list, the snapshot of the
    bucket, a new entry with its page, the bit of the object, and the tail of
    the class.  The objects that are allocated are then those that were, and
    the new one.

    A free entry is left when one is needed. *)
From Stdlib Require Import ZArith Lia.
From stdpp Require Import base numbers gmap option list.
From S2P Require Import Prelude Macros Bitstring Vector Queue Process RBTree FixedMapper PageAlloc NlLaws Brk.
From S2P Require Import SlabLayout World Demo Snapshot Slab Alloc Checkpoint Txn Restore Recovery Index Remap Heap.
Open Scope Z_scope.

(** ** The steps *)
Section steps.
Context {PS : Type} `{AM : AllocatorMalloc PS} `{AB : !AllocatorBrk PS}.
Implicit Types (w : world PS) (V : gmap Z pinfo) (k : nat).
#[local] Existing Instance seen_stepping | 0.

Lemma globals_same w w' : globals w' = globals w -> same_mode w w' /\ w_sizes w' = w_sizes w.
Proof using. unfold globals, same_mode. intros [= ]. by split_and!. Qed.

Lemma dir_in_mode w w' V sd d ld : dir_in w V sd d ld -> same_mode w w' -> dir_in w' V sd d ld.
Proof using.
  intros [E (c & cont & wc & lc & H1 & H2 & H3)] [_ Hc]. split; [done|]. exists c, cont, wc, lc. by rewrite Hc.
Qed.

Lemma seen_sizes w V k m : seen w V k -> (forall es, is_Some (m !! es) -> es < brk w) -> seen (set_w_sizes m w) V k.
Proof using.
  intros [[[Ho Hs] Hu] Hl] Hm. split; [split|].
  - split; [done|]. intros a i Ea. by apply Hs.
  - done.
  - done.
Qed.

Lemma seen_low w V k es : seen w V k -> is_Some (w_sizes w !! es) -> es < brk w.
Proof using. intros [_ Hl]. apply Hl. Qed.

Lemma wp_put_es w V k es e q (Q : unit -> world PS -> Prop) : seen w V k -> w_sizes w !! es = Some q ->
  (forall w', seen w' V k -> w_sizes w' = <[es := e]> (w_sizes w) -> same_mode w w' -> Q tt w') -> wp (put_es es e) Q w.
Proof using AB.
  intros Hs Eq HQ. unfold put_es. apply wp_modify, HQ; [|done|done]. apply seen_sizes; [done|]. intros x Hx.
  eapply seen_low; [done|]. destruct (decide (x = es)) as [->|]; [by eexists|by rewrite lookup_insert_ne in Hx].
Qed.

Lemma wp_size_init w V k s (Q : Z -> world PS -> Prop) : seen w V k -> 0 <= s < 2 ^ 31 ->
  (forall w', seen w' V k -> w_sizes w !! brk w = None -> w_sizes w' = <[brk w := EntrySize s STAILQ_INIT]> (w_sizes w) -> same_mode w w' -> Q (brk w) w') ->
  wp (slab_entry_size_init s) Q w.
Proof using AM AB.
  intros Hs Hr HQ. unfold slab_entry_size_init. apply wp_bind.
  eapply wp_mono; [eapply wp_also; [eapply (wp_malloc_view w V k (fun r w' => sees w' V k /\ globals w' = globals w /\ brk w' = brk w + 1 /\ r = brk w)); [by apply sn_sees|by intros w' ???]|intros x w'; apply on_pa_file]|].
  intros r w1 [(Hs1 & Hg1 & Hb1 & ->) Ef]. apply globals_same in Hg1 as [Hm1 Hz1].
  assert (Hseen : seen w1 V k).
  { split; [split; [done|]|].
    - eapply unwritten_file; [apply Hs|done|]. intros a i E. by exists i.
    - intros es Hes. rewrite Hz1 in Hes. pose proof (seen_low _ _ _ _ Hs Hes). unfold brk in *. lia. }
  apply wp_bind. unfold put_es. apply wp_modify, wp_ret, HQ.
  - apply seen_sizes; [done|]. intros x Hx. destruct (decide (x = brk w)) as [->|]; [unfold brk in *; lia|].
    rewrite lookup_insert_ne in Hx by done. by eapply seen_low.
  - destruct (w_sizes w !! brk w) as [q|] eqn:E; [|done]. pose proof (seen_low w V k (brk w) Hs) as Hlow. rewrite E in Hlow.
    specialize (Hlow ltac:(by eexists)). lia.
  - simpl. rewrite Hz1. unfold u32. by rewrite wrap_id by (unfold in_u; lia).
  - done.
Qed.

Lemma wp_insert_size w V k sd d ld es (Q : unit -> world PS -> Prop) : seen w V k -> V !! sd = Some (PInfo (PgDir d) true ld) ->
  rb_tree (sd_size_root d) -> key_sorted (fun x => es_size (es_at w x)) (inorder (sd_size_root d)) ->
  (forall x, x ∈ inorder (sd_size_root d) -> es_size (es_at w x) <> es_size (es_at w es)) ->
  (forall w' t, seen w' (<[sd := PInfo (PgDir (set_sd_size_root t d)) true ld]> V) k -> globals w' = globals w ->
     rb_tree t -> key_sorted (fun x => es_size (es_at w x)) (inorder t) ->
     (forall x, x ∈ inorder t <-> x = es \/ x ∈ inorder (sd_size_root d)) -> Q tt w') ->
  wp (insert_size sd es) Q w.
Proof using AB.
  intros Hs Ed Ht Hst Hno HQ. unfold insert_size. apply wp_bind. eapply wp_read_view; [done|done|done|]. apply wp_bind, wp_gets.
  destruct (RB_INSERT_key (fun x => es_size (es_at w x)) (fun a c => slab_entry_size_compare_by_size (es_at w a) (es_at w c)) (sd_size_root d) es)
    as (t & Er & Ht' & Hst' & Hin); [done|done|done|done|].
  apply wp_bind. rewrite Er. apply wp_ret. unfold write. eapply storing_store; [done|done|done|]. intros w' Hs' Hg. by apply (HQ w' t).
Qed.

Lemma wp_get_free w V k sd d ld se b lb e (Q : Z -> world PS -> Prop) : seen w V k -> dir_in w V sd d ld ->
  stqh_first (sd_free_list d) = Some se -> bucket_in V (se_page se) b lb -> entry_of b se = Some e ->
  (forall w' q, stqh_first q = se_list e -> seen w' (<[sd := PInfo (PgDir (set_sd_free_list q d)) true ld]> V) k -> globals w' = globals w -> Q se w') ->
  wp get_free_slab_entry Q w.
Proof using AB.
  intros Hs Hd Ef Hb He HQ. pose proof Hd as [Ed (c & cont & wc & lc & Hc & _)]. unfold get_free_slab_entry.
  apply wp_bind. eapply wp_ok; [unfold get_container; by rewrite Hc|]. apply wp_bind. eapply wp_current_dir; [done|done|].
  apply wp_bind. eapply wp_read_view; [done|done|done|]. unfold STAILQ_FIRST. rewrite Ef. apply wp_bind, wp_ret.
  apply wp_bind. unfold on_free_list. apply wp_bind. eapply wp_read_view; [done|done|done|]. unfold STAILQ_REMOVE_HEAD. rewrite Ef.
  apply wp_bind, wp_bind, wp_ret, wp_bind. simpl. apply wp_bind. eapply wp_get_se; [done|done|done|]. apply wp_ret, wp_ret.
  eapply wp_upd; [done|done|done|]. intros w' Hs' Hg. apply wp_ret. eapply HQ; [|exact Hs'|exact Hg]. done.
Qed.

Lemma wp_class_head w V k es q se b lb e (Q : unit -> world PS -> Prop) : seen w V k -> w_sizes w !! es = Some q ->
  bucket_in V (se_page se) b lb -> entry_of b se = Some e ->
  (forall w', let first := stqh_first (es_list q) in
     seen w' (<[se_page se := PInfo (PgBucket (put_entry b se (set_se_list first e))) true lb]> V) k ->
     w_sizes w' = <[es := EntrySize (es_size q) (Stailq (Some se) (match first with None => SNext se | Some _ => stqh_last (es_list q) end))]> (w_sizes w) ->
     same_mode w w' -> Q tt w') ->
  wp (on_es_list es (fun q => STAILQ_INSERT_HEAD q se)) Q w.
Proof using AB.
  intros Hs Eq Hb He HQ. unfold on_es_list. apply wp_bind. unfold get_es, wp at 1. rewrite Eq. apply wp_bind.
  unfold STAILQ_INSERT_HEAD. apply wp_bind. eapply (wp_upd_se (SV := seen)); [done|done|done|]. intros w1 Hs1 [Hm1 Hz1]%globals_same. apply wp_ret.
  eapply wp_put_es; [done|by rewrite Hz1|]. intros w2 Hs2 Hz2 Hm2. apply HQ; [done|by rewrite Hz2, Hz1|by transitivity w1].
Qed.

(** ** Facts of the invariant *)
Lemma heap_addr G w V k cont d o n b ls pend l : seen w V k -> heap G w V cont d o n b ls pend l -> page_address (g_sb G).
Proof using.
  intros Hs Hh. destruct (sees_aligned _ _ _ _ _ (sn_sees _ _ _ Hs) (hp_bucket _ _ _ _ _ _ _ _ _ _ _ Hh)) as (H1 & H2 & H3).
  split_and!; [done|done|unfold PAGE_SIZE in *; lia].
Qed.

Lemma heap_entry G w V k cont d o n b ls pend l i e : seen w V k -> heap G w V cont d o n b ls pend l -> zget (sb_entries b) i = Some e ->
  se_page (se_addr (g_sb G) i) = g_sb G /\ SLAB_ENTRY_INDEX (se_addr (g_sb G) i) = i /\ entry_of b (se_addr (g_sb G) i) = Some e.
Proof using.
  intros Hs Hh. apply addr_of_entry; [by eapply heap_addr|]. by apply (cr_len _ _ _ (bo_ready _ _ _ (hp_entries _ _ _ _ _ _ _ _ _ _ _ Hh))).
Qed.

Lemma heap_dir_in G w V cont d o n b ls pend l : heap G w V cont d o n b ls pend l -> dir_in w V (g_sd G) d (g_ld G).
Proof using.
  intros Hh. destruct (hp_path _ _ _ _ _ _ _ _ _ _ _ Hh) as [P1 (wc & lc & P2) P3 P4 _ _ _ _ _]. split; [done|].
  by exists (g_c G), cont, wc, lc.
Qed.

Lemma path_mode G w w' V cont d o n : path_rel w V G cont d o n -> CONTAINERS w' = CONTAINERS w -> path_rel w' V G cont d o n.
Proof using. intros [H1 H2 H3 H4 H5 H6 H7 H8 H9 H10] E. split; rewrite ?E; done. Qed.

Lemma heap_same G w w' V cont d o n b ls pend l : heap G w V cont d o n b ls pend l -> same_mode w w' -> w_sizes w' = w_sizes w ->
  heap G w' V cont d o n b ls pend l.
Proof using.
  intros [H1 H2 H3 H4 H5 H6 H7 H8 H9 H10 H11] [M1 M2] Hz. split; [congruence| |done..|by eapply sizes_ok_same|done]. by apply (path_mode G w).
Qed.

(** The pages of the entries are none of the other pages. *)
Lemma heap_page_ne G w V cont d o n b ls pend l i e x : heap G w V cont d o n b ls pend l -> zget (sb_entries b) i = Some e ->
  x ∈ pages_of e -> x <> g_c G /\ x <> g_sd G /\ x <> g_so G /\ x <> g_si G /\ x <> g_sb G.
Proof using.
  intros Hh Ee Hx. assert (Hu : entry_used V e).
  { apply (bo_used _ _ _ (hp_entries _ _ _ _ _ _ _ _ _ _ _ Hh) i e Ee). unfold pages_of in Hx.
    destruct (SLAB_ENTRY_IS_INIT e); [done|by apply elem_of_nil in Hx]. }
  destruct (used_pages _ _ _ Hu Hx) as (im & E & [y Hy]).
  destruct (hp_path _ _ _ _ _ _ _ _ _ _ _ Hh) as [_ (wc & lc & P2) _ P4 (wo & lo & P5) P6 _ _ _].
  pose proof (hp_bucket _ _ _ _ _ _ _ _ _ _ _ Hh) as P7. unfold bucket_in in P7. split_and!; intros ->; simplify_eq; done.
Qed.

(** The metadata pages are different. *)
Lemma heap_meta_ne G w V cont d o n b ls pend l : heap G w V cont d o n b ls pend l ->
  g_c G <> g_sd G /\ g_c G <> g_si G /\ g_c G <> g_sb G /\ g_so G <> g_sd G /\ g_so G <> g_si G /\ g_so G <> g_sb G /\
  g_sd G <> g_si G /\ g_sd G <> g_sb G /\ g_si G <> g_sb G.
Proof using.
  intros Hh. destruct (hp_path _ _ _ _ _ _ _ _ _ _ _ Hh) as [_ (wc & lc & P2) _ P4 (wo & lo & P5) P6 _ _ _].
  pose proof (hp_bucket _ _ _ _ _ _ _ _ _ _ _ Hh) as P7. unfold bucket_in in P7. split_and!; intros E; congruence.
Qed.

(** ** Taking a free entry for a size class *)

(** A queue of the class [s] before the entry is put at its head. *)
Definition class_queue w sb b (es s : Z) : Prop := exists q, w_sizes w !! es = Some q /\ es_size q = s /\
  (stqh_first (es_list q) = None \/
   exists f x, stqh_first (es_list q) = Some f /\ stqh_last (es_list q) = SNext x /\ member sb b None f s /\ member sb b None x s).

Lemma member_pend sb b se s p : member sb b None se s -> member sb b p se s.
Proof using. intros (i & e & E1 & E2 & Hm). exists i, e. split_and!; [done|done|]. by destruct (SLAB_ENTRY_IS_INIT e). Qed.

Lemma class_ok_pend w w' sb b b' p es : same_entries b b' -> w_sizes w' !! es = w_sizes w !! es -> class_ok w sb b None es -> class_ok w' sb b' p es.
Proof using.
  intros Hs Ew (q & f & x & E1 & E2 & E3 & E4 & E5). exists q, f, x. rewrite Ew.
  split_and!; [done|done|done|by apply member_pend, (member_same _ b)|by apply member_pend, (member_same _ b)].
Qed.

Lemma wp_take_free G w w1 V k cont d o n b ls se l es s t (Q : Z * Z -> world PS -> Prop) :
  heap G w V cont d o n b ls None (se :: l) -> seen w V k ->
  seen w1 (<[g_sd G := PInfo (PgDir (set_sd_size_root t d)) true (g_ld G)]> V) k -> same_mode w w1 ->
  rb_tree t -> key_sorted (fun x => es_size (es_at w1 x)) (inorder t) -> es ∈ inorder t ->
  class_queue w1 (g_sb G) b es s -> (forall x, x ∈ inorder t -> x <> es -> class_ok w1 (g_sb G) b None x) ->
  (forall w' V' d' b', seen w' V' k -> same_mode w w' -> heap G w' V' cont d' o n b' ls (Some (se, s)) l -> same_entries b b' ->
     (forall x, x <> g_sd G -> x <> g_sb G -> V' !! x = V !! x) -> es ∈ inorder (sd_size_root d') -> es_size (es_at w' es) = s -> Q (es, se) w') ->
  wp (let! se := get_free_slab_entry in on_es_list es (fun q => STAILQ_INSERT_HEAD q se) ;;; ret (es, se)) Q w1.
Proof using AB.
  intros Hh Hs Hs1 Hm1 Ht Hst Hes (q & Eq & Eqs & Hq) Hcl HQ.
  pose proof (hp_free _ _ _ _ _ _ _ _ _ _ _ Hh) as [Hch Hnd Hel]. simpl in Hch. destruct Hch as (Ef & e & Ee & Hch).
  destruct (proj1 (Hel se)) as [(i & e0 & -> & Ei & Hi) _]; [by left|].
  destruct (heap_entry _ _ _ _ _ _ _ _ _ _ _ _ _ _ Hs Hh Ei) as (A1 & A2 & A3). assert (e0 = e) as -> by congruence.
  pose proof (heap_meta_ne _ _ _ _ _ _ _ _ _ _ _ Hh) as (N1 & N2 & N3 & N4 & N5 & N6 & N7 & N8 & N9).
  pose proof (hp_path _ _ _ _ _ _ _ _ _ _ _ Hh) as [_ (wc & lc & P2) _ _ (wo & lo & P5) P6 _ _ _].
  pose proof (hp_bucket _ _ _ _ _ _ _ _ _ _ _ Hh) as Hb. unfold bucket_in in Hb.
  apply wp_bind. eapply (wp_get_free w1 _ k (g_sd G) (set_sd_size_root t d) (g_ld G) _ b (g_lb G) e); [exact Hs1| |exact Ef|unfold bucket_in; rewrite A1; by vlook|done|].
  { destruct (heap_dir_in _ _ _ _ _ _ _ _ _ _ _ Hh) as [_ (c & ct & wc' & lc' & C1 & C2 & C3)]. split; [by vlook|].
    exists c, ct, wc', lc'. destruct Hm1 as [_ Ec1]. rewrite Ec1. split_and!; [done| |done]. rewrite lookup_insert_ne; [done|].
    rewrite (pr_cont _ _ _ _ _ _ _ (hp_path _ _ _ _ _ _ _ _ _ _ _ Hh)) in C1. injection C1 as <-. congruence. }
  intros w2 q2 Eq2 Hs2 [Hm2 Hz2]%globals_same. rewrite insert_insert_eq in Hs2.
  apply wp_bind. eapply (wp_class_head w2 _ k es q _ b (g_lb G) e); [exact Hs2|by rewrite Hz2|unfold bucket_in; rewrite A1; by vlook|done|].
  cbv zeta. rewrite A1. intros w3 Hs3 Hz3 Hm3. apply wp_ret.
  set (first := stqh_first (es_list q)) in *. set (b' := put_entry b (se_addr (g_sb G) i) (set_se_list first e)) in *.
  assert (Hsame : same_entries b b') by by apply same_entries_link.
  set (d' := set_sd_free_list q2 (set_sd_size_root t d)) in *.
  assert (Hsz : forall x, es_size (es_at w3 x) = es_size (es_at w1 x)).
  { intros x. unfold es_at. rewrite Hz3, Hz2. destruct (decide (x = es)) as [->|]; [by rewrite lookup_insert_eq, Eq|by rewrite lookup_insert_ne]. }
  assert (Hmem : forall y, member (g_sb G) b None y s -> member (g_sb G) b' (Some (se_addr (g_sb G) i, s)) y s).
  { intros y Hy. by apply member_pend, (member_same _ b). }
  assert (Hself : member (g_sb G) b' (Some (se_addr (g_sb G) i, s)) (se_addr (g_sb G) i) s).
  { apply (member_same _ b); [done|]. exists i, e. by rewrite Hi. }
  apply (HQ w3 _ d' b' Hs3); [by rewrite Hm1, Hm2| |done| |done|rewrite Hsz; unfold es_at; by rewrite Eq].
  - assert (Hmode : same_mode w w3) by (by rewrite Hm1, Hm2). destruct Hmode as [Hmd Hct].
    eapply (heap_step G w w3 V _ cont d d' o n n b b'); [exact Hh|exact Hmd|exact Hct|by vlook|by vlook|by vlook|done|done|done|by vlook|done|done|
      by eapply hp_slot|unfold bucket_in; by vlook|done|exact Hsame| | |].
    + intros j ej x Ej Hx. destruct (heap_page_ne _ _ _ _ _ _ _ _ _ _ _ _ _ _ Hh Ej Hx) as (_ & ? & _ & _ & ?). by vlook.
    + split; [exact Ht| |].
      * eapply key_sorted_ext; [|exact Hst]. intros x _. by rewrite Hsz.
      * intros x Hx. destruct (decide (x = es)) as [->|Hne].
        -- unfold class_ok. rewrite Hz3, lookup_insert_eq, Eqs.
           destruct Hq as [Hn|(f & y & Hf & Hl & Mf & My)]; [rewrite Hn|rewrite Hf].
           ++ eexists _, (se_addr (g_sb G) i), (se_addr (g_sb G) i). split; [reflexivity|]. by split_and!.
           ++ eexists _, (se_addr (g_sb G) i), y. split; [reflexivity|]. split_and!; [done|exact Hl|exact Hself|by apply Hmem].
        -- eapply (class_ok_pend w1); [exact Hsame|by rewrite Hz3, lookup_insert_ne, Hz2|by apply Hcl].
    + apply NoDup_cons in Hnd as [Hnin Hnd]. split; [| exact Hnd|].
      * cbn [d' set_sd_free_list sd_free_list]. rewrite Eq2. eapply chain_put; [|exact Hch]. intros y ey Hy Ey. exists ey. split; [|done].
        destruct (proj1 (Hel y)) as [(j & ej & -> & Ej & _) _]; [by right|].
        destruct (heap_entry _ _ _ _ _ _ _ _ _ _ _ _ _ _ Hs Hh Ej) as (B1 & B2 & B3). unfold b'. rewrite entry_put_ne; [done| |rewrite A2; apply zget_lt in Ei; lia].
        rewrite A2, B2. intros ->. done.
      * intros y. split.
        -- intros Hy. destruct (proj1 (Hel y)) as [Hu _]; [by right|]. split; [by apply (unused_same _ b)|]. intros s' [= E _]. by subst y.
        -- intros [Hu Hne]. assert (Hy : y ∈ se_addr (g_sb G) i :: l).
           { apply Hel. split; [apply (unused_same _ b'); [by symmetry|done]|done]. }
           apply elem_of_cons in Hy as [->|Hy]; [by destruct (Hne s)|done].
  - intros x H1 H2. by vlook.
Qed.

(** ** The entry for a size *)
Lemma used_alloc_in V sb lb b i e : bucket_in V sb b lb -> se_page (se_addr sb i) = sb -> entry_of b (se_addr sb i) = Some e -> entry_used V e ->
  exists im bs, alloc_in V (se_addr sb i) b lb e (cur_page e) im bs /\ bytes_ok bs /\ (pi_writable im = false -> cur_page e = snap_page e).
Proof using.
  intros Hb A1 A3 [U1 U2 U3 U4 (im & bs & E1 & E2 & E3 & E4 & E5) _]. exists im, bs. split; [|done].
  assert (bytes_ok (bitmap_of e bs)).
  { unfold bitmap_of. destruct (SLAB_LARGE_ALLOC <=? se_size e); [|done]. by constructor. }
  split; try done. split; rewrite ?A1; done.
Qed.

Lemma heap_used G w V cont d o n b ls pend l i e : heap G w V cont d o n b ls pend l -> zget (sb_entries b) i = Some e -> SLAB_ENTRY_IS_INIT e = true -> entry_used V e.
Proof using. intros Hh. by apply (bo_used _ _ _ (hp_entries _ _ _ _ _ _ _ _ _ _ _ Hh)). Qed.

Lemma heap_alloc_in G w V k cont d o n b ls pend l i e : seen w V k -> heap G w V cont d o n b ls pend l -> zget (sb_entries b) i = Some e ->
  SLAB_ENTRY_IS_INIT e = true ->
  exists im bs, alloc_in V (se_addr (g_sb G) i) b (g_lb G) e (cur_page e) im bs /\ bytes_ok bs /\ (pi_writable im = false -> cur_page e = snap_page e).
Proof using.
  intros Hs Hh Ee Hi. destruct (heap_entry _ _ _ _ _ _ _ _ _ _ _ _ _ _ Hs Hh Ee) as (A1 & A2 & A3).
  apply used_alloc_in; [by eapply hp_bucket|done|done|by eapply heap_used].
Qed.

(** Not every object of the page is allocated. *)
Definition has_room V (e : slab_entry) : Prop := exists im bs idx, V !! cur_page e = Some im /\ as_page (T := data_page) (pi_page im) = Some (Data bs) /\
  0 <= idx < capacity_of (se_size e) /\ bitz (bitmap_of e bs) idx = false.

Lemma not_full_room (f : Z -> bool) n : 0 <= n -> ~ (forall i, 0 <= i < n -> f i = true) -> exists i, 0 <= i < n /\ f i = false.
Proof using.
  intros Hn Hf. destruct (List.existsb (fun i => negb (f i)) (seqZ 0 n)) eqn:E.
  - apply List.existsb_exists in E as (i & Hi & Ef). apply list_elem_of_In, elem_of_seqZ in Hi. exists i. split; [lia|]. by apply negb_true_iff.
  - exfalso. apply Hf. intros i Hi. destruct (f i) eqn:Ei; [done|].
    assert (List.existsb (fun i => negb (f i)) (seqZ 0 n) = true); [|congruence].
    apply List.existsb_exists. exists i. split; [apply list_elem_of_In, elem_of_seqZ; lia|by rewrite Ei].
Qed.

Lemma wp_entry_for_size G w V k cont d o n b ls se l s (Q : Z * Z -> world PS -> Prop) :
  seen w V k -> heap G w V cont d o n b ls None (se :: l) -> 0 < s <= PAGE_SIZE ->
  (forall es i e, es ∈ inorder (sd_size_root d) -> es_size (es_at w es) = s -> zget (sb_entries b) i = Some e -> SLAB_ENTRY_IS_INIT e = true ->
     se_size e = s -> has_room V e -> Q (es, se_addr (g_sb G) i) w) ->
  (forall es w' V' d' b', seen w' V' k -> same_mode w w' -> heap G w' V' cont d' o n b' ls (Some (se, s)) l -> same_entries b b' ->
     (forall x, x <> g_sd G -> x <> g_sb G -> V' !! x = V !! x) -> es ∈ inorder (sd_size_root d') -> es_size (es_at w' es) = s -> Q (es, se) w') ->
  wp (entry_for_size (g_sd G) s) Q w.
Proof using AM AB.
  intros Hs Hh Hr HQ1 HQ2. pose proof (hp_sizes _ _ _ _ _ _ _ _ _ _ _ Hh) as [Ht Hst Hcl].
  pose proof (pr_d _ _ _ _ _ _ _ (hp_path _ _ _ _ _ _ _ _ _ _ _ Hh)) as Ed. pose proof (hp_bucket _ _ _ _ _ _ _ _ _ _ _ Hh) as Hb.
  unfold entry_for_size. apply wp_bind. eapply wp_read_view; [done|done|done|].
  apply wp_bind, wp_find_size; [done|unfold in_u, PAGE_SIZE in *; lia| |].
  - intros es Hes Esz. destruct (Hcl es Hes) as (q & f & x & Eq & Ef & El & Mf & Mx). unfold es_at in Esz. rewrite Eq in Esz. simpl in Esz. rewrite Esz in *.
    destruct Mf as (i & e & -> & Ee & Hm). destruct (SLAB_ENTRY_IS_INIT e) eqn:Hi; [|done].
    apply wp_bind. unfold get_es, wp at 1. rewrite Eq. apply wp_bind. unfold STAILQ_FIRST. rewrite Ef. apply wp_ret.
    destruct (heap_alloc_in _ _ _ _ _ _ _ _ _ _ _ _ _ _ Hs Hh Ee Hi) as (im & bs & Ha & Hbs & _).
    apply wp_bind. eapply wp_slab_entry_full; [done|exact Ha|]. intros r Hfull. destruct r.
    + rewrite <- (insert_id V (g_sd G) (PInfo (PgDir (set_sd_size_root (sd_size_root d) d)) true (g_ld G))) in Hs by (rewrite Ed; by destruct d).
      eapply (wp_take_free G w w V k cont d o n b ls se l es s (sd_size_root d)); [exact Hh| |exact Hs|done|done|done|done| | |].
      * by rewrite insert_id in Hs by (rewrite Ed; by destruct d).
      * exists q. split_and!; [done|done|]. right. exists (se_addr (g_sb G) i), x. split_and!; [done|done|exists i, e; by rewrite Hi|done].
      * intros y Hy _. by apply Hcl.
      * intros w' V' d' b'. apply HQ2.
    + apply wp_ret. apply (HQ1 es i e); [done|unfold es_at; by rewrite Eq|done|done|done|].
      destruct (alloc_bounds _ _ _ _ _ _ _ _ Ha) as [_ Hc].
      destruct (not_full_room (bitz (bitmap_of e bs)) (capacity_of (se_size e))) as (idx & H1 & H2); [lia|by intros Hall%Hfull|].
      exists im, bs, idx. split_and!; [by apply Ha|by apply Ha|lia|lia|done].
  - intros Hno. apply wp_bind. eapply (wp_size_init w V k s); [done|unfold PAGE_SIZE in *; lia|]. intros w1 Hs1 Hfr Hz1 Hm1.
    set (es := brk w) in *. assert (Hat : forall x, x ∈ inorder (sd_size_root d) -> es_at w1 x = es_at w x /\ x <> es).
    { intros x Hx. destruct (Hcl x Hx) as (q & _ & _ & Eq & _). assert (x <> es) by (intros ->; congruence).
      split; [|done]. unfold es_at. by rewrite Hz1, lookup_insert_ne. }
    assert (Hes : es_at w1 es = EntrySize s STAILQ_INIT) by (unfold es_at; by rewrite Hz1, lookup_insert_eq).
    apply wp_bind. eapply (wp_insert_size w1 V k (g_sd G) d (g_ld G) es); [done|done|done| | |].
    + eapply key_sorted_ext; [|exact Hst]. intros x Hx. by rewrite (proj1 (Hat x Hx)).
    + intros x Hx. rewrite (proj1 (Hat x Hx)), Hes. by apply Hno.
    + intros w2 t Hs2 [Hm2 Hz2]%globals_same Ht2 Hst2 Hin2.
      eapply (wp_take_free G w w2 V k cont d o n b ls se l es s t); [exact Hh|done|exact Hs2|by rewrite Hm1|done| | | | |].
      * eapply key_sorted_ext; [|exact Hst2]. intros x _. unfold es_at. by rewrite Hz2.
      * apply Hin2. by left.
      * exists (EntrySize s STAILQ_INIT). split_and!; [by rewrite Hz2, Hz1, lookup_insert_eq|done|by left].
      * intros x [->|Hx]%Hin2 Hne; [done|]. eapply (class_ok_pend w); [done| |by apply Hcl]. by rewrite Hz2, Hz1, lookup_insert_ne.
      * intros w' V' d' b'. apply HQ2.
Qed.

(** ** The snapshot of the bucket *)
Lemma wp_snapshot_bucket G w V k cont d o n b ls pend l (Q : unit -> world PS -> Prop) :
  seen w V (S k) -> heap G w V cont d o n b ls pend l ->
  (forall w' V' k' n' b', (k <= k')%nat -> seen w' V' k' -> globals w' = globals w -> heap G w' V' cont d o n' b' ls pend l ->
     sb_entries b' = sb_entries b -> (forall x, is_Some (V !! x) -> x <> g_si G -> x <> g_sb G -> V' !! x = V !! x) -> Q tt w') ->
  wp (snapshot_bucket (g_sb G)) Q w.
Proof using AB.
  intros Hs Hh HQ. pose proof (heap_meta_ne _ _ _ _ _ _ _ _ _ _ _ Hh) as (N1 & N2 & N3 & N4 & N5 & N6 & N7 & N8 & N9).
  pose proof Hh as [Hm Hp [snap Esn] Hb Hid _ _ _ _ Hz Hf]. unfold bucket_in in Hb.
  pose proof Hp as [P1 (wc & lc & P2) P3 P4 (wo & lo & P5) P6 (P7 & l7 & r7 & P7a & _) (P8 & l8 & r8 & P8a & _) (P9 & P9a)].
  assert (Hfin : forall w1 V1 k1 n1 sn, (k <= k1)%nat -> seen w1 V1 k1 -> globals w1 = globals w ->
    n_index n1 = n_index n -> n_current n1 = n_current n -> is_Some (zget (n_snapshot n1) 0) ->
    V1 !! g_si G = Some (PInfo (PgInner n1) true (g_li G)) ->
    (forall x, is_Some (V !! x) -> x <> g_si G -> V1 !! x = V !! x) ->
    wp (upd (g_sb G) (fun b => SlabBucket sn (sb_id b) (sb_entries b))) Q w1).
  { intros w1 V1 k1 n1 sn Hk Hs1 Hg1 H1 H2 H3 E1 E2. assert (Hb1 : V1 !! g_sb G = Some (PInfo (PgBucket b) true (g_lb G))) by (by rewrite E2 by (done || by eexists)).
    eapply wp_upd; [done|exact Hb1|done|]. intros w2 Hs2 Hg2. assert (Hg : globals w2 = globals w) by congruence.
    assert (Hkeep : forall x, is_Some (V !! x) -> x <> g_si G -> x <> g_sb G ->
      <[g_sb G := PInfo (to_page (SlabBucket sn (sb_id b) (sb_entries b))) true (g_lb G)]> V1 !! x = V !! x).
    { intros x Hx Hx1 Hx2. rewrite lookup_insert_ne by done. by apply E2. }
    apply (HQ w2 _ k1 n1 (SlabBucket sn (sb_id b) (sb_entries b)) Hk Hs2 Hg); [|done|exact Hkeep].
    destruct (globals_same _ _ Hg) as [[Hmd Hct] Hsz].
    eapply (heap_step G w w2 V _ cont d d o n n1 b _); [exact Hh|exact Hmd|exact Hct|apply Hkeep; [by eexists|done|done]|apply Hkeep; [by eexists|done|done]| |done|done|done| |done|done|done| |done|done| | |].
    - rewrite Hkeep; [done|by eexists|done|done].
    - by vlook.
    - unfold bucket_in. by vlook.
    - intros i e x Ee Hx. destruct (heap_page_ne _ _ _ _ _ _ _ _ _ _ _ _ _ _ Hh Ee Hx) as (_ & _ & _ & ? & ?).
      apply Hkeep; [|done|done]. by eapply (cr_in _ _ _ (bo_ready _ _ _ (hp_entries _ _ _ _ _ _ _ _ _ _ _ Hh))).
    - by eapply sizes_ok_same.
    - eapply free_ok_same; [exact Hf|done|done|]. intros y e _ Ee. by exists e. }
  unfold snapshot_bucket, Func_slab_bucket_snapshot. apply wp_bind, wp_bind, wp_gets. rewrite Hm.
  eapply (wp_slab_bucket_snapshot w V k (g_sd G) d (g_ld G) (g_sb G) b (g_lb G) (g_si G) n (g_li G)); rewrite ?Hid; try done.
  - split; [by eapply heap_dir_in|]. by exists (g_so G), l7, o, wo, lo, l8.
  - intros _. apply (Hfin w V (S k) n 0); [lia|done|done|done|done|by eexists|done|done].
  - intros w1 a l1 _ Hna Hg Hs1. change (si_id_of 0) with 0 in Hs1. eapply (Hfin w1 _ k (with_snapshot n 0 (NRef a l1)) 1); [lia|exact Hs1|done|done|done| |by vlook|].
    + eexists. by eapply zget_insert.
    + intros x [y Hx] Hne. rewrite !lookup_insert_ne by congruence. done.
Qed.

(** ** A new entry *)
Lemma seen_next_ids w V k x y : seen w V k -> seen (set_next_ids x y w) V k.
Proof using. intros [[[Ho Hs] Hu] Hl]. split; [split|]; [split; [done|]|done|done]. intros a i Ea. by apply Hs. Qed.

Definition new_entry (e : slab_entry) (id s a la : Z) : slab_entry :=
  SlabEntry id s (DRef a la (d_bitmap (se_data_current e))) (DRef a la (d_bitmap (se_data_snapshot e))) (PRef 0 0 0) (PRef 0 0 0) (se_list e).

Lemma wp_slab_entry_init w V k se b lb e s (Q : unit -> world PS -> Prop) :
  seen w V (S k) -> bucket_in V (se_page se) b lb -> entry_of b se = Some e -> 0 < se -> 0 < s <= PAGE_SIZE ->
  (forall w' a la wr id, V !! a = None -> 0 < a ->
     seen w' (<[se_page se := PInfo (PgBucket (put_entry b se (new_entry e id s a la))) true lb]> (<[a := PInfo PgZero wr la]> V)) k ->
     same_mode w w' -> w_sizes w' = w_sizes w -> Q tt w') ->
  wp (slab_entry_init se s) Q w.
Proof using AB.
  intros Hs Hb He Hpos Hsz HQ. unfold slab_entry_init. unfold bucket_in in Hb.
  apply wp_bind, wp_assert; [apply negb_true_iff, Z.eqb_neq; lia|].
  apply wp_bind. eapply wp_stat_view; [done|]. intros w1 Hs1 Hg1. apply wp_bind.
  eapply wp_getpage_new; [exact Hs1|]. intros a l wr w2 Hna Ha _ Hsn Hg2. cbn [fst snd].
  apply wp_bind. unfold GET_NEXT_SLAB_ENTRY_ID. eapply wp_ok; [reflexivity|].
  set (id := NEXT_SLAB_ENTRY_ID w2). set (w3 := set_next_ids _ _ w2).
  assert (Hsn3 : seen w3 (<[a := PInfo PgZero wr l]> V) k) by by apply seen_next_ids.
  eapply wp_upd_se; [exact Hsn3|unfold bucket_in; by vlook|exact He|]. intros w4 Hs4 [Hm4 Hz4]%globals_same.
  destruct (globals_same _ _ Hg1) as [Hm1 Hz1]. destruct (globals_same _ _ Hg2) as [Hm2 Hz2].
  eapply (HQ w4 a l wr id Hna Ha); [|rewrite Hm1, Hm2; exact Hm4|by rewrite Hz4; change (w_sizes w3) with (w_sizes w2); rewrite Hz2, Hz1].
  unfold new_entry. by replace s with (u32 s) at 1 by (unfold u32; apply wrap_id; unfold in_u, PAGE_SIZE in *; lia).
Qed.

Lemma wp_insert_maddr w V k sb lb b d b0 d0 sd ld i e (Q : unit -> world PS -> Prop) :
  seen w V k -> page_address sb -> bucket_in V sb b lb -> V !! sd = Some (PInfo (PgDir d) true ld) ->
  zlen (sb_entries b) = SLAB_BUCKET_ENTRIES -> zlen (sb_entries b0) = SLAB_BUCKET_ENTRIES ->
  tree_rel sb b0 d0 -> rb_tree (sd_maddr_root d0) -> sd_maddr_root d = sd_maddr_root d0 ->
  zget (sb_entries b) i = Some e -> SLAB_ENTRY_IS_INIT e = true -> d_maddr (se_data_snapshot e) <> SE_SEARCH_MADDR ->
  (forall j, j <> i -> zget (sb_entries b) j = zget (sb_entries b0) j) ->
  (forall e0, zget (sb_entries b0) i = Some e0 -> SLAB_ENTRY_IS_INIT e0 = false) ->
  (forall j ej, zget (sb_entries b0) j = Some ej -> SLAB_ENTRY_IS_INIT ej = true -> cur_page ej <> cur_page e) ->
  (forall w' t, seen w' (<[sd := PInfo (PgDir (set_sd_maddr_root t d)) true ld]> V) k -> globals w' = globals w ->
     tree_rel sb b (set_sd_maddr_root t d) -> rb_tree t -> Q tt w') ->
  wp (insert_maddr sd (se_addr sb i)) Q w.
Proof using AB.
  intros Hs Ha Hb Ed Hlen Hlen0 [T1 T2 T3] Hrb Er Ei Hini Hty Hoth Hun Hne HQ. unfold insert_maddr.
  destruct (addr_of_entry sb Ha b i e Hlen Ei) as (A1 & A2 & A3). unfold bucket_in in Hb.
  assert (Hat : forall j ej, zget (sb_entries b) j = Some ej -> se_at w (se_addr sb j) = ej).
  { intros j ej Ej. destruct (addr_of_entry sb Ha b j ej Hlen Ej) as (B1 & B2 & B3).
    assert (Een : entry_at V (se_addr sb j) = Some ej) by (unfold entry_at; rewrite B1, Hb; exact B3).
    rewrite (se_at_view _ _ _ _ Hs) by (rewrite Een; by eexists). by rewrite Een. }
  assert (Hin : forall x, x ∈ inorder (sd_maddr_root d0) -> exists j ej, x = se_addr sb j /\ j <> i /\ zget (sb_entries b0) j = Some ej /\
    zget (sb_entries b) j = Some ej /\ SLAB_ENTRY_IS_INIT ej = true /\ entry_of b0 x = Some ej /\ entry_of b x = Some ej).
  { intros x Hx. destruct (T2 x Hx) as (_ & Ex & ej & Ej & Hij). exists (SLAB_ENTRY_INDEX x), ej. unfold entry_of in *.
    assert (SLAB_ENTRY_INDEX x <> i) by (intros E; rewrite E in Ej; rewrite (Hun _ Ej) in Hij; done). rewrite Hoth by done. done. }
  set (f := fun x => d_maddr (se_data_current (se_at w x))).
  assert (Hfk : forall j ej, zget (sb_entries b) j = Some ej -> f (se_addr sb j) = key_in b (se_addr sb j)).
  { intros j ej Ej. unfold f, key_in. rewrite (Hat _ _ Ej). destruct (addr_of_entry sb Ha b j ej Hlen Ej) as (_ & _ & ->). done. }
  assert (Hft : forall x, x ∈ inorder (sd_maddr_root d0) -> key_in b0 x = f x /\ f x = key_in b x /\ f x <> f (se_addr sb i)).
  { intros x Hx. destruct (Hin x Hx) as (j & ej & -> & Hji & Ej0 & Ej & Hij & X1 & X2). rewrite (Hfk _ _ Ej). unfold key_in. rewrite X1, X2.
    split_and!; [done|done|]. unfold f. rewrite (Hat _ _ Ei). by apply (Hne j). }
  apply wp_bind. eapply wp_read_view; [done|done|done|]. rewrite Er. apply wp_bind, wp_gets.
  destruct (RB_INSERT_key f (fun a c => slab_entry_compare_by_maddr (se_at w a) (se_at w c)) (sd_maddr_root d0) (se_addr sb i))
    as (t & Et & Ht & Hst & Hel).
  - intros x. rewrite (Hat _ _ Ei), compare_entries by done. unfold f. by rewrite (Hat _ _ Ei).
  - done.
  - eapply key_sorted_ext; [|exact T1]. intros x Hx. by apply Hft.
  - intros x Hx. by apply Hft.
  - apply wp_bind. rewrite Et. apply wp_ret. unfold write. eapply storing_store; [done|done|done|]. intros w' Hs' Hg.
    apply (HQ w' t); [done|done| |done]. split; cbn [sd_maddr_root set_sd_maddr_root].
    + eapply key_sorted_ext; [|exact Hst]. intros x [->|Hx]%Hel; [by eapply Hfk|by apply Hft].
    + intros x [->|Hx]%Hel; [rewrite A1, A2; by split_and!; [..|exists e]|].
      destruct (T2 x Hx) as (X1 & X2 & _). destruct (Hin x Hx) as (j & ej & _ & _ & _ & _ & Hij & _ & X3). by split_and!; [..|exists ej].
    + intros j ej Ej Hij. apply Hel. destruct (decide (j = i)) as [->|Hj]; [by left|right]. apply (T3 j ej); [by rewrite <- Hoth|done].
Qed.

Lemma wp_init_entry G w V k cont d o n b ls l i e s (Q : unit -> world PS -> Prop) :
  seen w V (S k) -> heap G w V cont d o n b ls (Some (se_addr (g_sb G) i, s)) l -> zget (sb_entries b) i = Some e -> SLAB_ENTRY_IS_INIT e = false ->
  0 < s <= PAGE_SIZE -> s mod 8 = 0 ->
  (forall w' V' d' b' e' wr la, seen w' V' k -> same_mode w w' -> w_sizes w' = w_sizes w -> sd_size_root d' = sd_size_root d ->
     heap G w' V' cont d' o n b' ls None l -> entry_step (g_sb G) b b' (Some (se_addr (g_sb G) i, s)) i e e' -> d_bitmap (se_data_current e') = 0 ->
     V !! cur_page e' = None -> V' !! cur_page e' = Some (PInfo PgZero wr la) ->
     (forall x, is_Some (V !! x) -> x <> g_sd G -> x <> g_sb G -> V' !! x = V !! x) -> Q tt w') ->
  wp (slab_entry_init (se_addr (g_sb G) i) s ;;; insert_maddr (g_sd G) (se_addr (g_sb G) i)) Q w.
Proof using AB.
  intros Hs Hh Ei Hi Hsz Hmult HQ. pose proof (heap_addr _ _ _ _ _ _ _ _ _ _ _ _ Hs Hh) as Ha.
  destruct (heap_entry _ _ _ _ _ _ _ _ _ _ _ _ _ _ Hs Hh Ei) as (A1 & A2 & A3).
  pose proof (heap_meta_ne _ _ _ _ _ _ _ _ _ _ _ Hh) as (N1 & N2 & N3 & N4 & N5 & N6 & N7 & N8 & N9).
  pose proof Hh as [Hm Hp _ Hb _ He Ht Hrb Hv _ _]. pose proof Hp as [_ (wc & lc & P2) _ Ed (wo & lo & P5) P6 _ _ _].
  pose proof (bo_ready _ _ _ He) as Hr. pose proof (cr_len _ _ _ Hr) as Hlen.
  assert (Hnn : 0 < se_addr (g_sb G) i).
  { destruct Ha as (_ & ? & _). pose proof (zget_lt _ _ _ Ei). unfold se_addr, se_offset, sizeof_slab_entry. lia. }
  apply wp_bind. eapply (wp_slab_entry_init w V k _ b (g_lb G) e s); [done|by rewrite A1|done|done|done|].
  rewrite A1. unfold bucket_in in Hb. intros w1 a la wr id Hna Hapos Hs1 Hm1 Hz1.
  set (e' := new_entry e id s a la) in *. set (b' := put_entry b (se_addr (g_sb G) i) e') in *.
  assert (Eb : sb_entries b' = <[Z.to_nat i := e']> (sb_entries b)) by (unfold b', put_entry; by rewrite A2).
  assert (Hini : SLAB_ENTRY_IS_INIT e' = true).
  { unfold SLAB_ENTRY_IS_INIT, e'. cbn [new_entry se_size]. destruct (Z.eqb_spec s 0); [lia|done]. }
  assert (Hst : entry_step (g_sb G) b b' (Some (se_addr (g_sb G) i, s)) i e e') by (split; [done|done|done|done|by rewrite Hi]).
  assert (Hpg : pages_of e' = [a]).
  { unfold pages_of. rewrite Hini. change (cur_page e') with a. change (snap_page e') with a. by rewrite Z.eqb_refl. }
  assert (Hane : forall x, is_Some (V !! x) -> x <> a) by (intros x [y Hx] ->; congruence).
  assert (Hothers : forall j, j <> i -> zget (sb_entries b') j = zget (sb_entries b) j).
  { intros j Hj. rewrite (entry_step_get _ _ _ _ _ _ _ _ Hst). by case_decide. }
  destruct (sees_aligned _ _ _ a (PInfo PgZero wr la) (sn_sees _ _ _ Hs1)) as (Hal & _); [by vlook|].
  eapply (wp_insert_maddr w1 _ k (g_sb G) (g_lb G) b' d b d (g_sd G) (g_ld G) i e'); try done.
  - unfold bucket_in. by vlook.
  - rewrite lookup_insert_ne by done. rewrite lookup_insert_ne; [done|]. intros ->. congruence.
  - rewrite Eb. unfold zlen. by rewrite length_insert.
  - by rewrite (entry_step_get _ _ _ _ _ _ _ _ Hst), decide_True.
  - change (d_maddr (se_data_snapshot e')) with a. unfold SE_SEARCH_MADDR, PAGE_SIZE in *. intros ->. done.
  - intros e0 E0. congruence.
  - intros j ej Ej Hij. change (cur_page e') with a. apply Hane, (cr_in _ _ _ Hr j ej); [done|by apply cur_in_pages].
  - intros w2 t Hs2 [Hm2 Hz2]%globals_same Ht' Hrb'.
    match type of Hs2 with seen _ ?W _ => set (V' := W) in * end. assert (Hkeep : forall x, is_Some (V !! x) -> x <> g_sd G -> x <> g_sb G -> V' !! x = V !! x).
    { intros x Hx H1 H2. unfold V'. rewrite !lookup_insert_ne; try done. intros E. by apply (Hane x). }
    assert (Ea : V' !! a = Some (PInfo PgZero wr la)).
    { unfold V'. rewrite !lookup_insert_ne by (intros E; rewrite E in *; congruence). apply lookup_insert_eq. }
    apply (HQ w2 V' (set_sd_maddr_root t d) b' e' wr la); [done|by rewrite Hm1|by rewrite Hz2| done| |exact Hst|exact (bo_unused _ _ _ He i e Ei Hi)|exact Hna|exact Ea|exact Hkeep].
    eapply (heap_put G w w2 V V'); [exact Hh|done|by rewrite Hm1|by rewrite Hz2|exact Hst|done| | | |by unfold V'; vlook|unfold V'; by vlook|done|done|done| |done| | | |done|done|].
    + apply Hkeep; [by eexists|done|done].
    + apply Hkeep; [by eexists|done|done].
    + apply Hkeep; [by eexists|done|done].
    + split; [exact Hsz|exact Hmult|done| | |].
      * change (in_u 8 (d_bitmap (se_data_current e))). rewrite (bo_unused _ _ _ He i e Ei Hi). unfold in_u. lia.
      * eexists _, _. change (cur_page e') with a. split_and!; [exact Ea|reflexivity|reflexivity| |done]. apply Forall_replicate. unfold in_u. lia.
      * eexists. change (snap_page e') with a. split; [exact Ea|by eexists].
    + rewrite Hpg. constructor; [|apply NoDup_singleton]. intros E%list_elem_of_singleton. rewrite E in *. congruence.
    + intros x. rewrite Hpg. intros ->%list_elem_of_singleton. split; [by eexists|by right].
    + intros j ej x Ej _ Hx. destruct (heap_page_ne _ _ _ _ _ _ _ _ _ _ _ _ _ _ Hh Ej Hx) as (_ & ? & _ & _ & ?).
      apply Hkeep; [by eapply (cr_in _ _ _ Hr)|done|done].
    + eapply vec_rel_put; [exact Hv|exact Hst| |done]. unfold is_old. rewrite Hi. change (cur_page e') with a. change (snap_page e') with a.
      rewrite Z.eqb_refl. by rewrite andb_false_r.
Qed.

(** ** Allocating in the page of an entry *)
Lemma heap_fault G w V k cont d o n b ls l i e im : seen w V (S k) -> heap G w V cont d o n b ls None l -> zget (sb_entries b) i = Some e ->
  SLAB_ENTRY_IS_INIT e = true -> V !! cur_page e = Some im -> is_Some (as_page (T := data_page) (pi_page im)) ->
  fault_ctx_of (SV := seen) w V (S k) (g_sd G) d (g_ld G) ls (se_addr (g_sb G) i) b (g_lb G) e (cur_page e) im.
Proof using AB.
  intros Hs Hh Ei Hi Em Hd. destruct (heap_entry _ _ _ _ _ _ _ _ _ _ _ _ _ _ Hs Hh Ei) as (A1 & A2 & A3).
  pose proof (heap_used _ _ _ _ _ _ _ _ _ _ _ _ _ Hh Ei Hi) as [U1 U2 U3 _ _ _].
  pose proof (heap_dir_in _ _ _ _ _ _ _ _ _ _ _ Hh) as Hdir.
  pose proof Hh as [Hm Hp _ Hb _ He Ht _ Hv _ _]. split; try done.
  - by eapply tree_rel_in.
  - by apply (tr_all _ _ _ Ht i e).
  - split; [by rewrite A1|done|done|done|done|done].
  - apply Hv.
  - eapply vec_rel_room; [exact Hv|apply (cr_len _ _ _ (bo_ready _ _ _ He))].
Qed.

(** ** Writing to the page of an entry *)

(** The entry [i] after a write of [bs'] to its page: the first write to a
    protected page has left a copy of the page as the snapshot. *)
Record wrote G w w' V V' cont d d' o n b b' ls' l i e e' bs' : Prop := {
  wo_heap : heap G w' V' cont d' o n b' ls' None l;
  wo_sizes : sd_size_root d' = sd_size_root d;
  wo_step : entry_step (g_sb G) b b' None i e e';
  wo_size : se_size e' = se_size e;
  wo_data : se_data_current e' = se_data_current e;
  wo_bytes : exists la, V' !! cur_page e = Some (PInfo (PgData bs') true la);
  wo_frame : forall x, is_Some (V !! x) -> x <> g_sd G -> x <> g_sb G -> x <> cur_page e -> V' !! x = V !! x;
}.

Section in_entry.
Context G w V cont d o n b ls l i e (Hh : heap G w V cont d o n b ls None l) (Ha : page_address (g_sb G))
  (Ei : zget (sb_entries b) i = Some e) (Hi : SLAB_ENTRY_IS_INIT e = true).

Lemma own_page_ne x : x ∈ pages_of e -> is_Some (V !! x) /\ x <> g_c G /\ x <> g_sd G /\ x <> g_so G /\ x <> g_si G /\ x <> g_sb G.
Proof using Hh Ei.
  intros Hx. split; [|by eapply heap_page_ne].
  by eapply (cr_in _ _ _ (bo_ready _ _ _ (hp_entries _ _ _ _ _ _ _ _ _ _ _ Hh))).
Qed.

Lemma other_page j ej x : zget (sb_entries b) j = Some ej -> j <> i -> x ∈ pages_of ej ->
  is_Some (V !! x) /\ x <> cur_page e /\ x <> g_sd G /\ x <> g_sb G.
Proof using Hh Ei Hi.
  intros Ej Hj Hx. pose proof (bo_ready _ _ _ (hp_entries _ _ _ _ _ _ _ _ _ _ _ Hh)) as Hr.
  destruct (heap_page_ne _ _ _ _ _ _ _ _ _ _ _ _ _ _ Hh Ej Hx) as (_ & ? & _ & _ & ?).
  split_and!; [by eapply (cr_in _ _ _ Hr)| |done|done]. intros ->.
  apply (cr_disjoint _ _ _ Hr j i ej e (cur_page e)); [done..|by apply cur_in_pages].
Qed.

Context w' im bs' (Em : V !! cur_page e = Some im) (Hg : globals w' = globals w) (Hlen : zlen bs' = PAGE_SIZE) (Hok : bytes_ok bs').

Lemma write_dirty : wrote G w w' V (<[cur_page e := PInfo (PgData bs') true (pi_laddr im)]> V) cont d d o n b b ls l i e e bs'.
Proof using Hh Ha Ei Hi Em Hg Hlen Hok.
  destruct (globals_same _ _ Hg) as [Hm Hz]. pose proof (bo_ready _ _ _ (hp_entries _ _ _ _ _ _ _ _ _ _ _ Hh)) as Hr.
  destruct (own_page_ne (cur_page e) (cur_in_pages e Hi)) as (_ & M1 & M2 & M3 & M4 & M5).
  assert (Hkeep : forall y, y <> cur_page e -> <[cur_page e := PInfo (PgData bs') true (pi_laddr im)]> V !! y = V !! y) by (intros y Hy; by vlook).
  assert (Hst : entry_step (g_sb G) b b None i e e).
  { split; [done| |done|done|by rewrite Hi]. symmetry. apply list_insert_id. by apply zget_Some_nat. }
  split; [|done|exact Hst|done|done|eexists; apply lookup_insert_eq|by intros; apply Hkeep].
  eapply (heap_put G w w' V _); [exact Hh|done|done|done|exact Hst|done|by apply Hkeep|by apply Hkeep|by apply Hkeep| | |done|done|done| |
    by apply (cr_noptr _ _ _ Hr i e)|by apply (cr_nodup _ _ _ Hr i e)| | |by eapply hp_tree|by eapply hp_rb|by eapply hp_vec].
  - rewrite Hkeep by done. by eapply pr_d, hp_path.
  - rewrite Hkeep by done. by eapply hp_bucket.
  - destruct (heap_used _ _ _ _ _ _ _ _ _ _ _ _ _ Hh Ei Hi) as [U1 U2 U3 U4 _ (sm & S1 & S2)]. split; try done.
    + eexists _, bs'. by split_and!; [apply lookup_insert_eq|..].
    + destruct (decide (snap_page e = cur_page e)) as [->|Hne]; [eexists; split; [apply lookup_insert_eq|by eexists]|].
      exists sm. by rewrite Hkeep.
  - intros y Hy. split; [|by left]. destruct (decide (y = cur_page e)) as [->|Hne]; [by rewrite lookup_insert_eq|]. rewrite Hkeep by done. by apply own_page_ne.
  - intros j ej y Ej Hj Hy. apply Hkeep. by apply (other_page j ej y).
Qed.

Lemma write_clean v a la : cur_page e = snap_page e -> is_Some (as_page (T := data_page) (pi_page im)) ->
  V !! a = None -> appended d ls (se_addr (g_sb G) i) v ->
  let e' := snapshotted e a la in
  let b' := put_entry b (se_addr (g_sb G) i) e' in
  wrote G w w' V (<[cur_page e := PInfo (PgData bs') true (pi_laddr im)]> (cow_view V (g_sd G) d (g_ld G) v (se_addr (g_sb G) i) b (g_lb G) e im a la))
    cont d (set_sd_vector v d) o n b b' (ls ++ [se_addr (g_sb G) i]) l i e e' bs'.
Proof using Hh Ha Ei Hi Em Hg Hlen Hok.
  intros Hcs Hdp Hna Happ e' b'. destruct (globals_same _ _ Hg) as [Hm Hz].
  pose proof (heap_meta_ne _ _ _ _ _ _ _ _ _ _ _ Hh) as (N1 & N2 & N3 & N4 & N5 & N6 & N7 & N8 & N9).
  pose proof (bo_ready _ _ _ (hp_entries _ _ _ _ _ _ _ _ _ _ _ Hh)) as Hr.
  destruct (addr_of_entry _ Ha _ _ _ (cr_len _ _ _ Hr) Ei) as (A1 & A2 & _).
  destruct (own_page_ne (cur_page e) (cur_in_pages e Hi)) as (_ & M1 & M2 & M3 & M4 & M5).
  assert (Hane : forall x, is_Some (V !! x) -> x <> a) by (intros x [y Hx] ->; congruence).
  assert (Hca : cur_page e <> a) by (apply Hane; by eexists).
  unfold cow_view. rewrite A1. fold e' b'. set (V' := <[cur_page e := _]> _).
  assert (Hkeep : forall x, is_Some (V !! x) -> x <> g_sd G -> x <> g_sb G -> x <> cur_page e -> V' !! x = V !! x).
  { intros x Hx X1 X2 X3. pose proof (Hane x Hx). unfold V'. by vlook. }
  assert (Hst : entry_step (g_sb G) b b' None i e e') by (split; [done|unfold b', put_entry; by rewrite A2|done|done|by rewrite Hi]).
  pose proof (pages_of_snapshotted e a la Hi Hca) as Hpg. fold e' in Hpg.
  assert (Hpc : is_Some (V !! g_c G)) by (destruct (pr_c _ _ _ _ _ _ _ (hp_path _ _ _ _ _ _ _ _ _ _ _ Hh)) as (? & ? & ->); by eexists).
  assert (Hpo : is_Some (V !! g_so G)) by (destruct (pr_o _ _ _ _ _ _ _ (hp_path _ _ _ _ _ _ _ _ _ _ _ Hh)) as (? & ? & ->); by eexists).
  assert (Hpi : is_Some (V !! g_si G)) by (rewrite (pr_i _ _ _ _ _ _ _ (hp_path _ _ _ _ _ _ _ _ _ _ _ Hh)); by eexists).
  assert (Ea : V' !! a = Some (PInfo (pi_page im) true la)).
  { assert (g_sd G <> a) by (apply Hane; rewrite (pr_d _ _ _ _ _ _ _ (hp_path _ _ _ _ _ _ _ _ _ _ _ Hh)); by eexists).
    assert (g_sb G <> a) by (apply Hane; rewrite (hp_bucket _ _ _ _ _ _ _ _ _ _ _ Hh); by eexists). unfold V'. by vlook. }
  split; [|done|exact Hst|done|done|eexists; apply lookup_insert_eq|done].
  eapply (heap_put G w w' V V'); [exact Hh|done|done|done|exact Hst|done|by apply Hkeep|by apply Hkeep|by apply Hkeep| | |done|done|done| |
    by apply (cr_noptr _ _ _ Hr i e)| | | | |exact (hp_rb _ _ _ _ _ _ _ _ _ _ _ Hh)|].
  - unfold V'. by vlook.
  - unfold V'. by vlook.
  - destruct (heap_used _ _ _ _ _ _ _ _ _ _ _ _ _ Hh Ei Hi) as [U1 U2 U3 U4 _ _]. split; try done.
    + eexists _, bs'. by split_and!; [apply lookup_insert_eq|..].
    + exists (PInfo (pi_page im) true la). split; [exact Ea|done].
  - rewrite Hpg, !NoDup_cons, !not_elem_of_cons. split_and!; try done; try apply not_elem_of_nil; try constructor; try done.
    apply Hane. rewrite (hp_bucket _ _ _ _ _ _ _ _ _ _ _ Hh). by eexists.
  - intros y. rewrite Hpg. intros [->|Hy]%elem_of_cons; [split; [unfold V'; by rewrite lookup_insert_eq|left; by apply cur_in_pages]|].
    apply list_elem_of_singleton in Hy as ->. split; [by eexists|by right].
  - intros j ej y Ej Hj Hy. destruct (other_page j ej y Ej Hj Hy) as (X1 & X2 & X3 & X4). by apply Hkeep.
  - eapply tree_rel_same; [by eapply hp_tree| |rewrite (es_new _ _ _ _ _ _ _ Hst); apply length_insert|done].
    intros j ej. rewrite (entry_step_get _ _ _ _ _ _ _ _ Hst). case_decide; [intros [= <-]; subst; by exists e|]. intros Ej. by exists ej.
  - eapply (vec_rel_append _ b b' d ls i e e' v); [by eapply hp_vec|done|done|done| | |apply Hst|done].
    + unfold is_old. by rewrite Hcs, Z.eqb_refl, andb_false_r.
    + unfold is_old. change (SLAB_ENTRY_IS_INIT e') with (SLAB_ENTRY_IS_INIT e). rewrite Hi.
      change (cur_page e') with (cur_page e). change (snap_page e') with a. by destruct (Z.eqb_spec (cur_page e) a).
Qed.
End in_entry.

(** A store to the page; the first one to a protected page takes a page. *)
Lemma wp_write_entry G w V k cont d o n b ls l i e im bs bs' (Q : unit -> world PS -> Prop) :
  seen w V (if pi_writable im then k else S k) -> heap G w V cont d o n b ls None l -> zget (sb_entries b) i = Some e -> SLAB_ENTRY_IS_INIT e = true ->
  V !! cur_page e = Some im -> as_page (T := data_page) (pi_page im) = Some (Data bs) -> zlen bs' = PAGE_SIZE -> bytes_ok bs' ->
  (forall w' V' d' b' ls' e', seen w' V' k -> globals w' = globals w -> wrote G w w' V V' cont d d' o n b b' ls' l i e e' bs' -> Q tt w') ->
  wp (write (cur_page e) (Data bs')) Q w.
Proof using AB.
  intros Hs Hh Ei Hi Em Ebs Hlen Hok HQ. pose proof (heap_addr _ _ _ _ _ _ _ _ _ _ _ _ Hs Hh) as Ha.
  destruct (heap_used _ _ _ _ _ _ _ _ _ _ _ _ _ Hh Ei Hi) as [_ _ _ _ (im0 & bs0 & E0 & _ & _ & _ & Hcl) _].
  assert (im0 = im) as -> by congruence. unfold write. cbn [to_page]. destruct (pi_writable im) eqn:Hw.
  - eapply storing_store; [exact Hs|exact Em|exact Hw|]. intros w' Hs' Hg. eapply HQ; [exact Hs'|exact Hg|]. by apply write_dirty.
  - eapply wp_store_cow; [eapply heap_fault; [exact Hs|exact Hh|exact Ei|exact Hi|exact Em|by rewrite Ebs]|exact Hw|].
    intros w' a la v Hna Hg Hv Hs'. eapply HQ; [exact Hs'|exact Hg|]. apply write_clean; rewrite ?Ebs; try done; by apply Hcl.
Qed.

(** ** Taking an object *)

(** The entry after the allocation of the object [idx]. *)
Record took V V' (e e' : slab_entry) (idx : Z) : Prop := {
  tk_page : cur_page e' = cur_page e;
  tk_size : se_size e' = se_size e;
  tk_range : 0 <= idx < capacity_of (se_size e);
  tk_bytes : exists im im' bs bs', V !! cur_page e = Some im /\ V' !! cur_page e = Some im' /\
    as_page (T := data_page) (pi_page im) = Some (Data bs) /\ as_page (T := data_page) (pi_page im') = Some (Data bs') /\
    bitz (bitmap_of e bs) idx = false /\ (forall j, 0 <= j < idx -> bitz (bitmap_of e bs) j = true) /\
    (forall j, 0 <= j -> bitz (bitmap_of e' bs') j = bool_decide (j = idx) || bitz (bitmap_of e bs) j) /\
    (forall j, dataoffset_of (se_size e) <= Z.of_nat j -> bs' !! j = bs !! j);
}.

(** The place of an object in its page. *)
Definition object_addr (e : slab_entry) (idx : Z) : Z := cur_page e + dataoffset_of (se_size e) + idx * se_size e.

Record at_bit G w V k cont d o n b ls l i e im bs idx bm : Prop := {
  ab_seen : seen w V k;
  ab_heap : heap G w V cont d o n b ls None l;
  ab_entry : zget (sb_entries b) i = Some e;
  ab_init : SLAB_ENTRY_IS_INIT e = true;
  ab_alloc : alloc_in V (se_addr (g_sb G) i) b (g_lb G) e (cur_page e) im bs;
  ab_bytes : bytes_ok bs;
  ab_clean : pi_writable im = false -> cur_page e = snap_page e;
  ab_range : 0 <= idx < capacity_of (se_size e);
  ab_bit : bitz (bitmap_of e bs) idx = false;
  ab_below : forall j, 0 <= j < idx -> bitz (bitmap_of e bs) j = true;
  ab_set : bit_set (bitmap_of e bs) idx = Some bm;
}.

Record after_bit G w w' V V' cont d d' o n b b' ls' l i e e' idx : Prop := {
  af_heap : heap G w' V' cont d' o n b' ls' None l;
  af_sizes : sd_size_root d' = sd_size_root d;
  af_step : entry_step (g_sb G) b b' None i e e';
  af_took : took V V' e e' idx;
  af_frame : forall x, is_Some (V !! x) -> x <> g_sd G -> x <> g_sb G -> x <> cur_page e -> V' !! x = V !! x;
}.

Section at_bit.
Context G w V k cont d o n b ls l i e im bs idx bm (HA : at_bit G w V k cont d o n b ls l i e im bs idx bm).

Lemma at_page : V !! cur_page e = Some im /\ as_page (T := data_page) (pi_page im) = Some (Data bs) /\ zlen bs = PAGE_SIZE.
Proof using HA. pose proof (ab_alloc _ _ _ _ _ _ _ _ _ _ _ _ _ _ _ _ _ HA) as [He Hb Hl _ _]. by destruct He. Qed.

Lemma at_used : entry_used V e.
Proof using HA. eapply heap_used; apply HA. Qed.

Lemma at_bits : bytes_ok bm /\ zlen bm = zlen (bitmap_of e bs) /\ (forall j, 0 <= j -> bitz bm j = bool_decide (j = idx) || bitz (bitmap_of e bs) j) /\
  (SLAB_LARGE_ALLOC <=? se_size e = false -> forall j, dataoffset_of (se_size e) <= Z.of_nat j -> bm !! j = bs !! j).
Proof using HA.
  pose proof (ab_range _ _ _ _ _ _ _ _ _ _ _ _ _ _ _ _ _ HA) as Hi. pose proof (ab_set _ _ _ _ _ _ _ _ _ _ _ _ _ _ _ _ _ HA) as Es.
  destruct (bit_set_bytes _ _ _ (proj1 Hi) (ai_ok _ _ _ _ _ _ _ _ (ab_alloc _ _ _ _ _ _ _ _ _ _ _ _ _ _ _ _ _ HA)) Es) as [Hok Hk].
  destruct (alloc_bounds _ _ _ _ _ _ _ _ (ab_alloc _ _ _ _ _ _ _ _ _ _ _ _ _ _ _ _ _ HA)) as [_ Hc].
  destruct (bit_set_total (bitmap_of e bs) idx) as (bm' & Es' & Hlen); [lia|].
  split_and!; [done|congruence|intros j Hj; by apply bit_set_spec|]. intros El j Hj. unfold bitmap_of in Hk. rewrite El in Hk. apply Hk.
  pose proof at_used as [U1 U2 _ _ _ _]. destruct (layout _ U1 U2) as (_ & Lay & _). rewrite El in Lay. apply Z.lt_le_trans with (2 := Hj).
  apply Z.div_lt_upper_bound; lia.
Qed.

(** The bitmap of a large size is in the entry. *)
Lemma at_large w' x : SLAB_LARGE_ALLOC <=? se_size e = true -> bm = [x] ->
  let e' := set_se_data_current (DRef (d_maddr (se_data_current e)) (d_laddr (se_data_current e)) x) e in
  let b' := put_entry b (se_addr (g_sb G) i) e' in
  globals w' = globals w -> SLAB_ENTRY_INDEX (se_addr (g_sb G) i) = i ->
  after_bit G w w' V (<[g_sb G := PInfo (PgBucket b') true (g_lb G)]> V) cont d d o n b b' ls l i e e' idx.
Proof using HA.
  intros El Ebm e' b' Hg A2. destruct (globals_same _ _ Hg) as [Hm Hz]. pose proof (ab_heap _ _ _ _ _ _ _ _ _ _ _ _ _ _ _ _ _ HA) as Hh.
  pose proof (ab_entry _ _ _ _ _ _ _ _ _ _ _ _ _ _ _ _ _ HA) as Ei. pose proof (ab_init _ _ _ _ _ _ _ _ _ _ _ _ _ _ _ _ _ HA) as Hi.
  pose proof (heap_meta_ne _ _ _ _ _ _ _ _ _ _ _ Hh) as (N1 & N2 & N3 & N4 & N5 & N6 & N7 & N8 & N9).
  pose proof (bo_ready _ _ _ (hp_entries _ _ _ _ _ _ _ _ _ _ _ Hh)) as Hr. destruct at_page as (E1 & E2 & E3). destruct at_bits as (B1 & B2 & B3 & B4).
  assert (Hkeep : forall y, y <> g_sb G -> <[g_sb G := PInfo (PgBucket b') true (g_lb G)]> V !! y = V !! y) by (intros y Hy; by vlook).
  assert (Hst : entry_step (g_sb G) b b' None i e e') by (split; [done|unfold b', put_entry; by rewrite A2|done|done|by rewrite Hi]).
  assert (Hpg : forall y, y ∈ pages_of e -> <[g_sb G := PInfo (PgBucket b') true (g_lb G)]> V !! y = V !! y) by (intros y Hy; apply Hkeep; by apply (own_page_ne _ _ _ _ _ _ _ _ _ _ _ _ Hh Ei)).
  split; [| done|exact Hst| |by intros; apply Hkeep].
  - eapply (heap_put G w w' V _); [exact Hh|by eapply heap_addr; apply HA|done|done|exact Hst|done|by apply Hkeep|by apply Hkeep|by apply Hkeep| |by vlook|done|done|done| |
      by apply (cr_noptr _ _ _ Hr i e)|by apply (cr_nodup _ _ _ Hr i e)| | | |by eapply hp_rb|].
    + rewrite Hkeep by done. by eapply pr_d, hp_path.
    + destruct (entry_used_same V _ e at_used Hpg Hi) as [U1 U2 U3 _ U5 U6]. split; try done. change (in_u 8 x). rewrite Ebm in B1. by inversion B1.
    + intros y Hy. change (y ∈ pages_of e) in Hy. split; [|by left]. rewrite Hpg by done. by apply (own_page_ne _ _ _ _ _ _ _ _ _ _ _ _ Hh Ei).
    + intros j ej y Ej Hj Hy. apply Hkeep. by apply (other_page _ _ _ _ _ _ _ _ _ _ _ _ Hh Ei Hi j ej y).
    + eapply tree_rel_same; [by eapply hp_tree| |rewrite (es_new _ _ _ _ _ _ _ Hst); apply length_insert|done].
      intros j ej. rewrite (entry_step_get _ _ _ _ _ _ _ _ Hst). case_decide; [intros [= <-]; subst; by exists e|]. intros Ej. by exists ej.
    + by eapply vec_rel_put; [by eapply hp_vec|exact Hst|..].
  - split; [done|done|apply HA|]. exists im, im, bs, bs. rewrite (Hpg (cur_page e)) by (by apply cur_in_pages).
    split_and!; [done|done|done|done|apply HA|apply HA| |done].
    intros j Hj. unfold bitmap_of at 1. change (se_size e') with (se_size e). rewrite El. change (d_bitmap (se_data_current e')) with x. rewrite <- Ebm. by apply B3.
Qed.

(** Else it is in the page; a protected page is copied first. *)
Lemma small_bitmap : SLAB_LARGE_ALLOC <=? se_size e = false -> forall e', se_size e' = se_size e -> forall bs', bitmap_of e' bs' = bs'.
Proof using. intros El e' Ee bs'. unfold bitmap_of. by rewrite Ee, El. Qed.

Lemma at_took V' e' la : SLAB_LARGE_ALLOC <=? se_size e = false -> cur_page e' = cur_page e -> se_size e' = se_size e ->
  V' !! cur_page e = Some (PInfo (PgData bm) true la) -> took V V' e e' idx.
Proof using HA.
  intros El Hc Hz Hp. destruct at_page as (E1 & E2 & E3). destruct at_bits as (B1 & B2 & B3 & B4). split; [done|done|apply HA|].
  eexists im, _, bs, bm. split_and!; [done|exact Hp|done|done|apply HA|apply HA| |by apply B4]. by rewrite (small_bitmap El e' Hz).
Qed.

Lemma at_wrote w' V' d' b' ls' e' : SLAB_LARGE_ALLOC <=? se_size e = false -> wrote G w w' V V' cont d d' o n b b' ls' l i e e' bm ->
  after_bit G w w' V V' cont d d' o n b b' ls' l i e e' idx.
Proof using HA.
  intros El [H1 H2 H3 H4 H5 [la H6] H7]. split; [done|done|done| |done]. eapply at_took; [done|by unfold cur_page; rewrite H5|done|done].
Qed.
End at_bit.

Lemma wp_alloc_entry G w V k cont d o n b ls l i e (Q : Z -> world PS -> Prop) :
  seen w V (S k) -> heap G w V cont d o n b ls None l -> zget (sb_entries b) i = Some e -> SLAB_ENTRY_IS_INIT e = true -> has_room V e ->
  (forall w' V' k' d' b' ls' e' idx, (k <= k')%nat -> seen w' V' k' -> globals w' = globals w ->
     after_bit G w w' V V' cont d d' o n b b' ls' l i e e' idx -> Q (object_addr e idx) w') ->
  wp (slab_entry_alloc_mem (se_addr (g_sb G) i)) Q w.
Proof using AB.
  intros Hs Hh Ei Hi (im & bs0 & idx0 & Em & Ebs0 & Hidx0 & Hbit0) HQ. pose proof (hp_bucket _ _ _ _ _ _ _ _ _ _ _ Hh) as Hb. unfold bucket_in in Hb.
  destruct (heap_entry _ _ _ _ _ _ _ _ _ _ _ _ _ _ Hs Hh Ei) as (A1 & A2 & A3).
  destruct (heap_alloc_in _ _ _ _ _ _ _ _ _ _ _ _ _ _ Hs Hh Ei Hi) as (im' & bs & Hal & Hbs & Hcl).
  assert (im' = im) as -> by (pose proof (ei_data _ _ _ _ _ _ _ (ai_entry _ _ _ _ _ _ _ _ Hal)); congruence).
  assert (bs0 = bs) as -> by (pose proof (ai_bytes _ _ _ _ _ _ _ _ Hal); congruence).
  eapply wp_alloc_mem_prefix; [exact Hs|exact Hal|intros Hall; rewrite Hall in Hbit0 by done; done|].
  intros idx bm Hidx Hbit Hbelow Eset Hlen. apply wp_bind.
  assert (HA : at_bit G w V (S k) cont d o n b ls l i e im bs idx bm) by by split.
  destruct (at_bits _ _ _ _ _ _ _ _ _ _ _ _ _ _ _ _ _ HA) as (Hok & _).
  unfold store_bitmap, SLAB_ENTRY_CBITMAP. destruct (SLAB_LARGE_ALLOC <=? se_size e) eqn:El.
  - assert (exists x, bm = [x]) as [x ->].
    { unfold bitmap_of in Hlen. rewrite El in Hlen. destruct bm as [|x [|? ?]]; [done|by exists x|unfold zlen in Hlen; simpl in Hlen; lia]. }
    apply wp_bind. eapply wp_from_opt; [reflexivity|]. eapply wp_upd_se; [exact Hs|unfold bucket_in; by rewrite A1|exact A3|]. rewrite A1.
    intros w' Hs' Hg. apply wp_ret. eapply (HQ w'); [|exact Hs'|exact Hg|]; [lia|]. by apply (at_large _ _ _ _ _ _ _ _ _ _ _ _ _ _ _ _ _ HA).
  - assert (Hbm : zlen bm = PAGE_SIZE).
    { rewrite (proj1 (proj2 (at_bits _ _ _ _ _ _ _ _ _ _ _ _ _ _ _ _ _ HA))), (small_bitmap e El e eq_refl).
      by destruct (at_page _ _ _ _ _ _ _ _ _ _ _ _ _ _ _ _ _ HA) as (_ & _ & ?). }
    change (d_maddr (se_data_current e)) with (cur_page e).
    eapply (wp_write_entry G w V (if pi_writable im then S k else k) cont d o n b ls l i e im bs); [by destruct (pi_writable im)|exact Hh|exact Ei|exact Hi|exact Em|exact Ebs0|exact Hbm|exact Hok|].
    intros w' V' d' b' ls' e' Hs' Hg Hwr. apply wp_ret. eapply (HQ w'); [|exact Hs'|exact Hg|by eapply (at_wrote _ _ _ _ _ _ _ _ _ _ _ _ _ _ _ _ _ HA)].
    destruct (pi_writable im); lia.
Qed.

(** ** The tail of the class *)
Lemma wp_class_tail G w V k cont d o n b ls l es i e (Q : unit -> world PS -> Prop) :
  seen w V k -> heap G w V cont d o n b ls None l -> es ∈ inorder (sd_size_root d) ->
  zget (sb_entries b) i = Some e -> SLAB_ENTRY_IS_INIT e = true -> es_size (es_at w es) = se_size e ->
  (forall w' V' b', seen w' V' k -> same_mode w w' -> heap G w' V' cont d o n b' ls None l -> same_entries b b' ->
     (forall x, x <> g_sb G -> V' !! x = V !! x) -> Q tt w') ->
  wp (on_es_list es (fun q => STAILQ_INSERT_TAIL q (se_addr (g_sb G) i))) Q w.
Proof using AB.
  intros Hs Hh Hes Ei Hi Hsz HQ. destruct (heap_entry _ _ _ _ _ _ _ _ _ _ _ _ _ _ Hs Hh Ei) as (A1 & A2 & A3).
  pose proof (hp_bucket _ _ _ _ _ _ _ _ _ _ _ Hh) as Hb. unfold bucket_in in Hb.
  pose proof (hp_sizes _ _ _ _ _ _ _ _ _ _ _ Hh) as [Ht Hst Hcl]. pose proof (hp_free _ _ _ _ _ _ _ _ _ _ _ Hh) as [Hch Hnd Hel].
  destruct (Hcl es Hes) as (q & f & x & Eq & Ef & El & Mf & Mx). unfold es_at in Hsz. rewrite Eq in Hsz. simpl in Hsz.
  assert (Hme : member (g_sb G) b None (se_addr (g_sb G) i) (es_size q)) by (exists i, e; by rewrite Hi).
  pose proof Mx as (j & ej & -> & Ej & Hij). destruct (SLAB_ENTRY_IS_INIT ej) eqn:Hinj; [|done].
  destruct (heap_entry _ _ _ _ _ _ _ _ _ _ _ _ _ _ Hs Hh Ej) as (B1 & B2 & B3).
  set (b1 := put_entry b (se_addr (g_sb G) i) (set_se_list None e)). assert (Hsm1 : same_entries b b1) by by apply same_entries_link.
  destruct (same_entries_get _ _ _ _ Hsm1 Ej) as [m Hm]. set (e1 := set_se_list m ej) in *.
  assert (C3 : entry_of b1 (se_addr (g_sb G) j) = Some e1) by (unfold entry_of; by rewrite B2).
  set (b2 := put_entry b1 (se_addr (g_sb G) j) (set_se_list (Some (se_addr (g_sb G) i)) e1)).
  assert (Hsm2 : same_entries b b2) by (transitivity b1; [done|by apply same_entries_link]).
  unfold on_es_list. apply wp_bind. unfold get_es, wp at 1. rewrite Eq. apply wp_bind.
  unfold STAILQ_INSERT_TAIL. apply wp_bind. eapply (wp_upd_se (SV := seen)); [exact Hs|unfold bucket_in; by rewrite A1|exact A3|].
  rewrite A1. fold b1. intros w1 Hs1 [Hm1 Hz1]%globals_same. apply wp_bind. unfold store_last. rewrite El. apply wp_bind.
  eapply (wp_upd_se (SV := seen)); [exact Hs1|unfold bucket_in; rewrite B1; apply lookup_insert_eq|exact C3|].
  rewrite B1, insert_insert_eq. fold b2. intros w2 Hs2 [Hm2 Hz2]%globals_same. apply wp_ret, wp_ret. cbn [stqh_first].
  eapply wp_put_es; [exact Hs2|by rewrite Hz2, Hz1|]. intros w3 Hs3 Hz3 Hm3. rewrite Hz2, Hz1 in Hz3.
  assert (Hmode : same_mode w w3) by (by rewrite Hm1, Hm2). pose proof Hmode as [Hmd Hct].
  set (V' := <[g_sb G := _]> V) in Hs3. assert (Hkeep : forall y, y <> g_sb G -> V' !! y = V !! y) by (intros y Hy; unfold V'; by vlook).
  pose proof (heap_meta_ne _ _ _ _ _ _ _ _ _ _ _ Hh) as (N1 & N2 & N3 & N4 & N5 & N6 & N7 & N8 & N9).
  pose proof (hp_path _ _ _ _ _ _ _ _ _ _ _ Hh) as Hp.
  apply (HQ w3 V' b2 Hs3 Hmode); [|exact Hsm2|exact Hkeep].
  eapply (heap_step G w w3 V V' cont d d o n n b b2); [exact Hh|exact Hmd|exact Hct|by apply Hkeep|by apply Hkeep|rewrite Hkeep by done; by eapply pr_d|done|done|done|
    rewrite Hkeep by done; by eapply pr_i|done|done|by eapply hp_slot|unfold bucket_in, V'; by vlook|done|exact Hsm2| | |].
  - intros h eh y Eh Hy. apply Hkeep. by apply (heap_page_ne _ _ _ _ _ _ _ _ _ _ _ _ _ _ Hh Eh Hy).
  - assert (Hat : forall y, es_size (es_at w3 y) = es_size (es_at w y)).
    { intros y. unfold es_at. rewrite Hz3. destruct (decide (y = es)) as [->|]; [by rewrite lookup_insert_eq, Eq|by rewrite lookup_insert_ne]. }
    split; [exact Ht|eapply key_sorted_ext; [|exact Hst]; intros y _; by rewrite Hat|]. intros y Hy. destruct (decide (y = es)) as [->|Hne].
    + unfold class_ok. rewrite Hz3, lookup_insert_eq. eexists _, f, _. split; [reflexivity|].
      split_and!; [exact Ef|reflexivity|by apply (member_same _ b)|by apply (member_same _ b)].
    + eapply (class_ok_pend w); [exact Hsm2|by rewrite Hz3, lookup_insert_ne|by apply Hcl].
  - eapply free_ok_same; [by split|exact Hsm2|done|]. intros y ey Hy Ey. exists ey. split; [|done].
    destruct (proj1 (Hel y) Hy) as [(h & eh & -> & Eh & Hh') _]. destruct (heap_entry _ _ _ _ _ _ _ _ _ _ _ _ _ _ Hs Hh Eh) as (D1 & D2 & D3).
    unfold b2, b1. rewrite !entry_put_ne; [done|rewrite D2, A2; intros ->; congruence|rewrite A2; apply zget_lt in Ei; lia|rewrite D2, B2; intros ->; congruence|
      rewrite B2; apply zget_lt in Ej; lia].
Qed.
End steps.

(** ** The allocated objects *)
Section objects.
Implicit Types (V : gmap Z pinfo) (b : slab_bucket).

Definition obj_addr (m s idx : Z) : Z := m + dataoffset_of s + idx * s.

(** The object [idx] of the page [m] of objects of the size [s] is allocated. *)
Definition live V b (m s idx : Z) : Prop := exists i e im bs, zget (sb_entries b) i = Some e /\ SLAB_ENTRY_IS_INIT e = true /\
  V !! cur_page e = Some im /\ as_page (T := data_page) (pi_page im) = Some (Data bs) /\
  m = cur_page e /\ s = se_size e /\ 0 <= idx < capacity_of s /\ bitz (bitmap_of e bs) idx = true.

(** The entries in use keep their page and their size, and their pages keep
    what lies behind the bitmap. *)
Definition kept V V' b b' : Prop := forall i e im bs, zget (sb_entries b) i = Some e -> SLAB_ENTRY_IS_INIT e = true ->
  V !! cur_page e = Some im -> as_page (T := data_page) (pi_page im) = Some (Data bs) ->
  exists e' im' bs', zget (sb_entries b') i = Some e' /\ SLAB_ENTRY_IS_INIT e' = true /\ cur_page e' = cur_page e /\ se_size e' = se_size e /\
    V' !! cur_page e = Some im' /\ as_page (T := data_page) (pi_page im') = Some (Data bs') /\
    forall j, dataoffset_of (se_size e) <= Z.of_nat j -> bs' !! j = bs !! j.

Lemma kept_trans V1 V2 V3 b1 b2 b3 : kept V1 V2 b1 b2 -> kept V2 V3 b2 b3 -> kept V1 V3 b1 b3.
Proof.
  intros H1 H2 i e im bs E1 E2 E3 E4. destruct (H1 i e im bs E1 E2 E3 E4) as (e' & im' & bs' & F1 & F2 & F3 & F4 & F5 & F6 & F7).
  rewrite <- F3 in F5. destruct (H2 i e' im' bs' F1 F2 F5 F6) as (e'' & im'' & bs'' & G1 & G2 & G3 & G4 & G5 & G6 & G7).
  exists e'', im'', bs''. rewrite <- F3, <- F4. split_and!; [done..|]. intros j Hj. rewrite G7 by done. apply F7. by rewrite <- F4.
Qed.

(** The same objects are allocated. *)
Definition same_live V V' b b' : Prop := kept V V' b b' /\ forall m s idx, live V' b' m s idx <-> live V b m s idx.

Lemma same_live_trans V1 V2 V3 b1 b2 b3 : same_live V1 V2 b1 b2 -> same_live V2 V3 b2 b3 -> same_live V1 V3 b1 b3.
Proof. intros [H1 H2] [H3 H4]. split; [by eapply kept_trans|]. intros m s idx. by rewrite H4. Qed.

Lemma live_mono V V' b b' m s idx : same_entries b b' ->
  (forall i e, zget (sb_entries b) i = Some e -> SLAB_ENTRY_IS_INIT e = true -> V' !! cur_page e = V !! cur_page e) ->
  live V b m s idx -> live V' b' m s idx.
Proof.
  intros Hs HV (i & e & im & bs & E1 & E2 & E3 & E4). destruct (same_entries_get _ _ _ _ Hs E1) as [n En].
  exists i, (set_se_list n e), im, bs. split_and!; [done|done| |apply E4..].
  change (cur_page (set_se_list n e)) with (cur_page e). by rewrite (HV i e).
Qed.

Lemma same_live_entries V V' b b' : same_entries b b' ->
  (forall i e, zget (sb_entries b) i = Some e -> SLAB_ENTRY_IS_INIT e = true -> V' !! cur_page e = V !! cur_page e) -> same_live V V' b b'.
Proof.
  intros Hs HV. split.
  - intros i e im bs E1 E2 E3 E4. destruct (same_entries_get _ _ _ _ Hs E1) as [n En]. exists (set_se_list n e), im, bs. by rewrite (HV i e).
  - intros m s idx. split; [|by apply live_mono]. apply live_mono; [by symmetry|].
    intros i e' (n & e & Ee & ->)%(same_entries_back _ _ _ _ Hs) Hi. symmetry. by apply (HV i e).
Qed.
End objects.

Section live_steps.
Context {PS : Type} `{PL : PageAllocatorLaws PS}.
Implicit Types (w : world PS) (V : gmap Z pinfo).

Lemma bitz_zeros n idx : bitz (replicate n 0) idx = false.
Proof.
  unfold bitz. destruct (zget (replicate n 0) (idx / 8)) as [x|] eqn:Ex; [|done].
  apply zget_Some_nat, lookup_replicate in Ex as [-> _]. by rewrite Z.bits_0.
Qed.

Lemma zero_page_bytes bs : as_page (T := data_page) PgZero = Some (Data bs) -> bs = replicate (Z.to_nat PAGE_SIZE) 0.
Proof. intros E. apply (f_equal (option_map the_bytes)) in E. symmetry. by apply (inj Some). Qed.

(** A new entry has no objects. *)
Lemma same_live_init sb V V' b b' s i e e' wr la : entry_step sb b b' (Some (se_addr sb i, s)) i e e' -> SLAB_ENTRY_IS_INIT e = false ->
  d_bitmap (se_data_current e') = 0 -> V' !! cur_page e' = Some (PInfo PgZero wr la) ->
  (forall j ej, zget (sb_entries b) j = Some ej -> SLAB_ENTRY_IS_INIT ej = true -> V' !! cur_page ej = V !! cur_page ej) -> same_live V V' b b'.
Proof.
  intros Hst Hi Hbm Hp HV. pose proof (fun j => entry_step_get _ _ _ _ _ _ _ j Hst) as Hz. pose proof (es_old _ _ _ _ _ _ _ Hst) as Ei.
  assert (Hne : forall j ej, zget (sb_entries b) j = Some ej -> SLAB_ENTRY_IS_INIT ej = true -> zget (sb_entries b') j = Some ej).
  { intros j ej Ej Hj. rewrite Hz. case_decide; [subst; congruence|done]. }
  split.
  - intros j ej im bs E1 E2 E3 E4. exists ej, im, bs. rewrite (HV j) by done. pose proof (Hne _ _ E1 E2). by split_and!.
  - intros m s' idx. split; intros (j & ej & im & bs & E1 & E2 & E3 & E4 & E5 & E6 & [E7 E7'] & E8).
    + rewrite Hz in E1. case_decide; [|rewrite (HV j ej E1 E2) in E3; exists j, ej, im, bs; by split_and!].
      injection E1 as <-. rewrite Hp in E3. injection E3 as <-. cbn [pi_page] in E4. apply zero_page_bytes in E4 as ->.
      exfalso. revert E8. unfold bitmap_of. rewrite Hbm. change [0] with (replicate 1 0). destruct (SLAB_LARGE_ALLOC <=? se_size e'); by rewrite bitz_zeros.
    + exists j, ej, im, bs. rewrite (HV j) by done. pose proof (Hne _ _ E1 E2). by split_and!.
Qed.

(** One more object. *)
Lemma live_took G w w' V V' cont d d' o n b b' ls ls' l i e e' idx :
  heap G w V cont d o n b ls None l -> after_bit G w w' V V' cont d d' o n b b' ls' l i e e' idx ->
  SLAB_ENTRY_IS_INIT e = true ->
  kept V V' b b' /\ ~ live V b (cur_page e) (se_size e) idx /\
  forall m s j, live V' b' m s j <-> live V b m s j \/ (m = cur_page e /\ s = se_size e /\ j = idx).
Proof.
  intros Hh [Hh' _ Hst [T1 T2 [T3 T3'] (im & im' & bs & bs' & P1 & P2 & P3 & P4 & P5 & P6 & P7 & P8)] Hfr] Hi.
  pose proof (fun j => entry_step_get _ _ _ _ _ _ _ j Hst) as Hz. pose proof (es_old _ _ _ _ _ _ _ Hst) as Ei. pose proof (es_init _ _ _ _ _ _ _ Hst) as Hi'.
  pose proof (bo_ready _ _ _ (hp_entries _ _ _ _ _ _ _ _ _ _ _ Hh)) as Hr.
  assert (Hoth : forall j ej, zget (sb_entries b) j = Some ej -> SLAB_ENTRY_IS_INIT ej = true -> j <> i -> cur_page ej <> cur_page e /\ V' !! cur_page ej = V !! cur_page ej).
  { intros j ej Ej Hj Hne. pose proof (cur_in_pages ej Hj) as Hc. assert (cur_page ej <> cur_page e).
    { intros E. apply (cr_disjoint _ _ _ Hr j i ej e (cur_page ej)); [done..|]. rewrite E. by apply cur_in_pages. }
    split; [done|]. destruct (heap_page_ne _ _ _ _ _ _ _ _ _ _ _ _ _ _ Hh Ej Hc) as (_ & ? & _ & _ & ?). apply Hfr; [by eapply (cr_in _ _ _ Hr)|done..]. }
  split_and!.
  - intros j ej imj bsj E1 E2 E3 E4. rewrite Hz. destruct (decide (j = i)) as [->|Hne].
    + assert (ej = e) as -> by congruence. exists e', im', bs'. assert (bsj = bs) as -> by congruence. by split_and!.
    + exists ej, imj, bsj. rewrite (proj2 (Hoth j ej E1 E2 Hne)). by split_and!.
  - intros (j & ej & imj & bsj & E1 & E2 & E3 & E4 & E5 & E6 & [E7 E7'] & E8). destruct (decide (j = i)) as [->|Hne].
    + assert (ej = e) as -> by congruence. assert (bsj = bs) as -> by congruence. congruence.
    + destruct (Hoth j ej E1 E2 Hne) as [Hn _]. congruence.
  - intros m s jx. split.
    + intros (j & ej & imj & bsj & E1 & E2 & E3 & E4 & E5 & E6 & [E7 E7'] & E8). rewrite Hz in E1. case_decide as Hd.
      * injection E1 as <-. rewrite T1 in *. rewrite T2 in *. assert (bsj = bs') as -> by congruence. rewrite P7 in E8 by lia.
        destruct (bool_decide_reflect (jx = idx)) as [->|Hne]; [by right|left]. exists i, e, im, bs. by split_and!.
      * left. rewrite (proj2 (Hoth j ej E1 E2 Hd)) in E3. exists j, ej, imj, bsj. by split_and!.
    + intros [(j & ej & imj & bsj & E1 & E2 & E3 & E4 & E5 & E6 & [E7 E7'] & E8)|(-> & -> & ->)].
      * destruct (decide (j = i)) as [->|Hne].
        -- assert (ej = e) as -> by congruence. assert (bsj = bs) as -> by congruence. exists i, e', im', bs'. rewrite Hz, decide_True, T1, T2 by done.
           split_and!; [done|done|done|done|done|done|lia|lia|]. rewrite P7, E8 by lia. by rewrite orb_true_r.
        -- exists j, ej, imj, bsj. rewrite Hz, decide_False, (proj2 (Hoth j ej E1 E2 Hne)) by done. by split_and!.
      * exists i, e', im', bs'. rewrite Hz, decide_True, T1, T2 by done. split_and!; [done|done|done|done|done|done|lia|lia|]. rewrite P7 by lia. by rewrite bool_decide_true.
Qed.
End live_steps.

(** ** [slab_palloc] *)
Lemma ROUND8_size size : 0 < size <= PAGE_SIZE -> size <= ROUND8 size <= PAGE_SIZE /\ ROUND8 size mod 8 = 0 /\ s32 (ROUND8 size) = ROUND8 size.
Proof.
  unfold PAGE_SIZE. intros Hs. rewrite ROUND8_eq by lia. pose proof (Z.div_mod (size + (8 - 1)) 8).
  pose proof (Z.mod_pos_bound (size + (8 - 1)) 8). set (q := (size + (8 - 1)) / 8) in *. set (r := (size + (8 - 1)) mod 8) in *.
  replace (size + (8 - 1) - r) with (q * 8) by lia. split; [lia|]. split; [by apply Z.mod_mul|]. apply s32_id. lia.
Qed.

Section palloc.
Context {PS : Type} `{AM : AllocatorMalloc PS} `{AB : !AllocatorBrk PS}.
Implicit Types (w : world PS) (V : gmap Z pinfo) (k : nat).
#[local] Existing Instance seen_stepping | 0.

(** One object of the size [s], at [r], is allocated in a slab whose view was
    [V] and whose bucket was [b]; [l] is the free list, and [k] pages are left. *)
Definition allocated_in G V b cont o l k s (r : Z) w' : Prop := exists V' k' d' n' b' ls' m idx,
  (k <= k')%nat /\ seen w' V' k' /\ heap G w' V' cont d' o n' b' ls' None l /\
  r = obj_addr m s idx /\ kept V V' b b' /\ ~ live V b m s idx /\
  forall m' s' j, live V' b' m' s' j <-> live V b m' s' j \/ (m' = m /\ s' = s /\ j = idx).

Lemma allocated_from G V0 b0 V b cont o l k s r w' : same_live V0 V b0 b -> allocated_in G V b cont o l k s r w' -> allocated_in G V0 b0 cont o l k s r w'.
Proof using.
  intros [Hk Hl] (V' & k' & d' & n' & b' & ls' & m & idx & H1 & H2 & H3 & H4 & H5 & H6 & H7). exists V', k', d', n', b', ls', m, idx.
  split_and!; [done|done|done|done|by eapply kept_trans|by rewrite <- Hl|]. intros m' s' j. by rewrite H7, Hl.
Qed.

(** From an entry in use that has room. *)
Lemma wp_palloc_end G w V k cont d o n b ls l i e es :
  seen w V (S k) -> heap G w V cont d o n b ls None l -> zget (sb_entries b) i = Some e -> SLAB_ENTRY_IS_INIT e = true -> has_room V e ->
  es ∈ inorder (sd_size_root d) -> es_size (es_at w es) = se_size e ->
  wp (let! maddr := slab_entry_alloc_mem (se_addr (g_sb G) i) in
      let! full := slab_entry_full (se_addr (g_sb G) i) in
      when full (on_es_list es (fun q => STAILQ_INSERT_TAIL q (se_addr (g_sb G) i))) ;;; ret maddr)
    (allocated_in G V b cont o l k (se_size e)) w.
Proof using AB.
  intros Hs Hh Ei Hi Hroom Hes Esz. apply wp_bind. eapply wp_alloc_entry; [exact Hs|exact Hh|exact Ei|exact Hi|exact Hroom|].
  intros w1 V1 k1 d1 b1 ls1 e1 idx Hk1 Hs1 Hg1 Haf. destruct (live_took _ _ _ _ _ _ _ _ _ _ _ _ _ _ _ _ _ _ _ Hh Haf Hi) as (Hkept & Hnl & Hl).
  destruct Haf as [Hh1 Hr1 Hst1 Ht1 _]. destruct (globals_same _ _ Hg1) as [Hm1 Hz1].
  assert (E1 : zget (sb_entries b1) i = Some e1) by (by rewrite (entry_step_get _ _ _ _ _ _ _ _ Hst1), decide_True).
  pose proof (es_init _ _ _ _ _ _ _ Hst1) as Hi1.
  destruct (heap_alloc_in _ _ _ _ _ _ _ _ _ _ _ _ _ _ Hs1 Hh1 E1 Hi1) as (im1 & bs1 & Hal1 & _).
  apply wp_bind. eapply wp_slab_entry_full; [exact Hs1|exact Hal1|]. intros full _. destruct full; cbn [when]; apply wp_bind.
  - eapply wp_class_tail; [exact Hs1|exact Hh1|by rewrite Hr1|exact E1|exact Hi1| |].
    { unfold es_at. rewrite Hz1. change (es_size (es_at w es) = se_size e1). by rewrite Esz, (tk_size _ _ _ _ _ Ht1). }
    intros w2 V2 b2 Hs2 Hm2 Hh2 Hsm2 HV2. apply wp_ret. destruct (same_live_entries V1 V2 b1 b2 Hsm2) as [Hk2 Hl2].
    { intros j ej Ej Hj. apply HV2. by apply (heap_page_ne _ _ _ _ _ _ _ _ _ _ _ _ _ _ Hh1 Ej (cur_in_pages ej Hj)). }
    exists V2, k1, d1, n, b2, ls1, (cur_page e), idx. split_and!; [done|done|done|done|by eapply kept_trans|done|].
    intros m s j. by rewrite Hl2, Hl.
  - apply wp_ret, wp_ret. exists V1, k1, d1, n, b1, ls1, (cur_page e), idx. by split_and!.
Qed.

(** From the entry that was chosen: in use with room, or new. *)
Lemma wp_palloc_rest G w V k cont d o n b ls l i e es s pend :
  seen w V (3 + k) -> heap G w V cont d o n b ls pend l -> zget (sb_entries b) i = Some e -> 0 < s <= PAGE_SIZE -> s mod 8 = 0 ->
  es ∈ inorder (sd_size_root d) -> es_size (es_at w es) = s ->
  (if SLAB_ENTRY_IS_INIT e then pend = None /\ se_size e = s /\ has_room V e else pend = Some (se_addr (g_sb G) i, s)) ->
  wp (snapshot_bucket (se_page (se_addr (g_sb G) i)) ;;;
      let! e := get_se (se_addr (g_sb G) i) in
      when (negb (SLAB_ENTRY_IS_INIT e)) (slab_entry_init (se_addr (g_sb G) i) s ;;; insert_maddr (g_sd G) (se_addr (g_sb G) i)) ;;;
      let! maddr := slab_entry_alloc_mem (se_addr (g_sb G) i) in
      let! full := slab_entry_full (se_addr (g_sb G) i) in
      when full (on_es_list es (fun q => STAILQ_INSERT_TAIL q (se_addr (g_sb G) i))) ;;; ret maddr)
    (allocated_in G V b cont o l k s) w.
Proof using AB.
  intros Hs Hh Ei Hsz Hmult Hes Esz Hcase. destruct (heap_entry _ _ _ _ _ _ _ _ _ _ _ _ _ _ Hs Hh Ei) as (A1 & A2 & A3). rewrite A1.
  apply wp_bind. eapply (wp_snapshot_bucket G w V (2 + k)); [exact Hs|exact Hh|]. intros w1 V1 k1 n1 b1 Hk1 Hs1 Hg1 Hh1 Eb1 HV1.
  destruct (globals_same _ _ Hg1) as [Hm1 Hz1]. pose proof (bo_ready _ _ _ (hp_entries _ _ _ _ _ _ _ _ _ _ _ Hh)) as Hr.
  assert (Hpg : forall j ej x, zget (sb_entries b) j = Some ej -> x ∈ pages_of ej -> V1 !! x = V !! x).
  { intros j ej x Ej Hx. destruct (heap_page_ne _ _ _ _ _ _ _ _ _ _ _ _ _ _ Hh Ej Hx) as (_ & _ & _ & ? & ?).
    apply HV1; [by eapply (cr_in _ _ _ Hr)|done|done]. }
  assert (Hcur : forall j ej, zget (sb_entries b) j = Some ej -> SLAB_ENTRY_IS_INIT ej = true -> V1 !! cur_page ej = V !! cur_page ej).
  { intros j ej Ej Hj. by apply (Hpg j ej), cur_in_pages. }
  assert (Hsl : same_live V V1 b b1) by (apply same_live_entries; [unfold same_entries; by rewrite Eb1|done]).
  assert (Ei1 : zget (sb_entries b1) i = Some e) by (by rewrite Eb1).
  assert (Hes1 : es_size (es_at w1 es) = s) by (unfold es_at; by rewrite Hz1).
  pose proof (hp_bucket _ _ _ _ _ _ _ _ _ _ _ Hh1) as Hb1. unfold bucket_in in Hb1.
  destruct (heap_entry _ _ _ _ _ _ _ _ _ _ _ _ _ _ Hs1 Hh1 Ei1) as (B1 & B2 & B3).
  apply wp_bind. eapply wp_get_se; [exact Hs1|unfold bucket_in; by rewrite B1|exact B3|].
  destruct k1 as [|[|k1]]; [lia|lia|]. destruct (SLAB_ENTRY_IS_INIT e) eqn:Hi; cbn [negb when]; apply wp_bind.
  - destruct Hcase as (-> & Es & Hroom). apply wp_ret. rewrite <- Es in *. eapply wp_mono.
    { eapply (wp_palloc_end G w1 V1 (S k1)); [exact Hs1|exact Hh1|exact Ei1|exact Hi| |exact Hes|exact Hes1].
      destruct Hroom as (im & bs & idx & R1 & R2 & R3). exists im, bs, idx. by rewrite (Hcur i e). }
    intros r w' (V' & k' & Hr'). eapply allocated_from; [exact Hsl|]. exists V', k'. destruct Hr' as (d' & n' & b' & ls' & m & idx & X1 & X2).
    exists d', n', b', ls', m, idx. split; [lia|exact X2].
  - subst pend. eapply (wp_init_entry G w1 V1 (S k1)); [exact Hs1|exact Hh1|exact Ei1|exact Hi|done|done|].
    intros w2 V2 d2 b2 e2 wr la Hs2 Hm2 Hz2 Hd2 Hh2 Hst2 Hbm Hna Hp2 HV2.
    pose proof (es_init _ _ _ _ _ _ _ Hst2) as Hi2. pose proof (es_from _ _ _ _ _ _ _ Hst2) as Hf2. rewrite Hi in Hf2.
    assert (E2 : se_size e2 = s) by (by injection Hf2). clear Hf2.
    assert (Ei2 : zget (sb_entries b2) i = Some e2) by (by rewrite (entry_step_get _ _ _ _ _ _ _ _ Hst2), decide_True).
    assert (Hsl2 : same_live V1 V2 b1 b2).
    { eapply same_live_init; [exact Hst2|exact Hi|exact Hbm|exact Hp2|]. intros j ej Ej Hj. pose proof (cur_in_pages ej Hj) as Hc.
      destruct (heap_page_ne _ _ _ _ _ _ _ _ _ _ _ _ _ _ Hh1 Ej Hc) as (_ & ? & _ & _ & ?).
      apply HV2; [|done|done]. by eapply (cr_in _ _ _ (bo_ready _ _ _ (hp_entries _ _ _ _ _ _ _ _ _ _ _ Hh1))). }
    eapply wp_mono; [eapply (wp_palloc_end G w2 V2 k1); [exact Hs2|exact Hh2|exact Ei2|exact Hi2| |by rewrite Hd2|]|].
    + exists (PInfo PgZero wr la), (replicate (Z.to_nat PAGE_SIZE) 0), 0. rewrite E2. destruct (layout s Hsz Hmult) as (L1 & _).
      split_and!; [exact Hp2|reflexivity|lia|lia|]. unfold bitmap_of. rewrite Hbm. change [0] with (replicate 1 0).
      destruct (SLAB_LARGE_ALLOC <=? se_size e2); apply bitz_zeros.
    + unfold es_at. rewrite Hz2. change (es_size (es_at w1 es) = se_size e2). by rewrite Hes1.
    + intros r w' Hr'. rewrite E2 in Hr'. eapply allocated_from; [exact Hsl|]. eapply allocated_from; [exact Hsl2|].
      destruct Hr' as (V' & k' & d' & n' & b' & ls' & m & idx & X1 & X2). exists V', k', d', n', b', ls', m, idx. split; [lia|exact X2].
Qed.

Lemma wp_slab_palloc G w V k cont d o n b ls se l size :
  seen w V (3 + k) -> heap G w V cont d o n b ls None (se :: l) -> 0 < size <= PAGE_SIZE ->
  wp (slab_palloc size) (fun r w' => exists l', (l' = se :: l \/ l' = l) /\ allocated_in G V b cont o l' k (ROUND8 size) r w') w.
Proof using AM AB.
  intros Hs Hh Hsz. destruct (ROUND8_size size Hsz) as (R1 & R2 & R3). unfold slab_palloc. rewrite R3. set (s := ROUND8 size) in *.
  apply wp_bind. eapply wp_stat_view; [exact Hs|]. intros w1 Hs1 Hg1. destruct (globals_same _ _ Hg1) as [Hm1 Hz1].
  pose proof (heap_same _ _ _ _ _ _ _ _ _ _ _ _ Hh Hm1 Hz1) as Hh1.
  destruct (Z.ltb_spec PAGE_SIZE size); [lia|]. cbn [when]. apply wp_bind, wp_ret.
  apply wp_bind. eapply wp_current_dir; [exact Hs1|by eapply heap_dir_in|]. apply wp_bind.
  eapply wp_entry_for_size; [exact Hs1|exact Hh1|lia| |].
  - intros es i e Hes Esz Ei Hi Ee Hroom. eapply wp_mono; [eapply wp_palloc_rest; [exact Hs1|exact Hh1|exact Ei|lia|exact R2|exact Hes|exact Esz|by rewrite Hi]|].
    intros r w' Hr. exists (se :: l). by split; [left|].
  - intros es w2 V2 d2 b2 Hs2 Hm2 Hh2 Hsm2 HV2 Hes Esz.
    destruct (proj1 (fo_elem _ _ _ _ _ (hp_free _ _ _ _ _ _ _ _ _ _ _ Hh1) se)) as [Hu _]; [by left|].
    destruct (unused_same _ _ _ _ Hsm2 Hu) as (i & e & -> & Ei & Hi).
    eapply wp_mono; [eapply wp_palloc_rest; [exact Hs2|exact Hh2|exact Ei|lia|exact R2|exact Hes|exact Esz|by rewrite Hi]|].
    intros r w' Hr. exists l. split; [by right|]. eapply allocated_from; [|exact Hr]. apply same_live_entries; [done|].
    intros j ej Ej Hj. destruct (heap_page_ne _ _ _ _ _ _ _ _ _ _ _ _ _ _ Hh1 Ej (cur_in_pages ej Hj)) as (_ & ? & _ & _ & ?). by apply HV2.
Qed.

(** ** Objects do not overlap *)
Definition apart (a n b m : Z) : Prop := a + n <= b \/ b + m <= a.

Lemma live_apart G w V k cont d o n b ls l m s i m' s' j : seen w V k -> heap G w V cont d o n b ls None l ->
  live V b m s i -> live V b m' s' j -> s ∉ overflowing -> s' ∉ overflowing -> (m, s, i) <> (m', s', j) ->
  apart (obj_addr m s i) s (obj_addr m' s' j) s'.
Proof using.
  intros Hs Hh (x & e & im & bs & E1 & E2 & E3 & _ & -> & -> & E7 & _) (y & f & jm & bt & F1 & F2 & F3 & _ & -> & -> & F7 & _) No1 No2 Hne.
  pose proof (bo_ready _ _ _ (hp_entries _ _ _ _ _ _ _ _ _ _ _ Hh)) as Hr.
  destruct (heap_used _ _ _ _ _ _ _ _ _ _ _ _ _ Hh E1 E2) as [U1 U2 _ _ _ _]. destruct (heap_used _ _ _ _ _ _ _ _ _ _ _ _ _ Hh F1 F2) as [W1 W2 _ _ _ _].
  destruct (layout _ U1 U2) as (_ & _ & L3 & L4). destruct (layout _ W1 W2) as (_ & _ & K3 & K4).
  apply L4 in No1. apply K4 in No2. unfold apart, obj_addr.
  destruct (decide (x = y)) as [->|Hxy].
  - assert (f = e) as -> by congruence. assert (Hij : i <> j) by congruence. nia.
  - assert (Hp : cur_page e <> cur_page f).
    { intros E. apply (cr_disjoint _ _ _ Hr x y e f (cur_page e)); [done..|by apply cur_in_pages|]. rewrite E. by apply cur_in_pages. }
    destruct (sees_aligned _ _ _ _ _ (sn_sees _ _ _ Hs) E3) as (A1 & _). destruct (sees_aligned _ _ _ _ _ (sn_sees _ _ _ Hs) F3) as (A2 & _).
    pose proof (Z.div_mod (cur_page e) PAGE_SIZE) as D1. pose proof (Z.div_mod (cur_page f) PAGE_SIZE) as D2. unfold PAGE_SIZE in *.
    assert (cur_page e + 4096 <= cur_page f \/ cur_page f + 4096 <= cur_page e) by lia. nia.
Qed.

(** Several allocations, one after the other. *)
Fixpoint slab_pallocs (sizes : list Z) : M (world PS) (list Z) :=
  match sizes with
  | [] => ret []
  | size :: sizes' => let! r := slab_palloc size in let! rs := slab_pallocs sizes' in ret (r :: rs)
  end.

(** The objects [os] of the sizes [sizes], at the addresses [rs]. *)
Definition objects_of (os : list (Z * Z * Z)) (sizes rs : list Z) : Prop :=
  rs = map (fun o => obj_addr o.1.1 o.1.2 o.2) os /\ map (fun o => o.1.2) os = map ROUND8 sizes.

Lemma wp_slab_pallocs sizes : forall G w V k cont d o n b ls l,
  seen w V (3 * length sizes + k) -> heap G w V cont d o n b ls None l -> (length sizes <= length l)%nat ->
  Forall (fun size => 0 < size <= PAGE_SIZE) sizes ->
  wp (slab_pallocs sizes) (fun rs w' => exists V' k' d' n' b' ls' l' os, (k <= k')%nat /\ seen w' V' k' /\ heap G w' V' cont d' o n' b' ls' None l' /\
    objects_of os sizes rs /\ NoDup os /\ kept V V' b b' /\ (forall m s j, (m, s, j) ∈ os -> ~ live V b m s j) /\
    forall m s j, live V' b' m s j <-> live V b m s j \/ (m, s, j) ∈ os) w.
Proof using AM AB.
  induction sizes as [|size sizes IH]; intros G w V k cont d o n b ls l Hs Hh Hlen Hsz; cbn [slab_pallocs].
  - apply wp_ret. exists V, k, d, n, b, ls, l, []. split_and!; [done|done|done|done|constructor| | |].
    + intros i e im bs E1 E2 E3 E4. exists e, im, bs. by split_and!.
    + intros m s j Hin. by apply elem_of_nil in Hin.
    + intros m s j. split; [by left|]. intros [?|Hin]; [done|]. by apply elem_of_nil in Hin.
  - inversion Hsz as [|? ? Hsz1 Hsz2]; subst. destruct l as [|se l]; [simpl in Hlen; lia|].
    apply wp_bind. eapply wp_mono; [eapply (wp_slab_palloc G w V (3 * length sizes + k)); [|exact Hh|exact Hsz1]|].
    { replace (3 + (3 * length sizes + k))%nat with (3 * length (size :: sizes) + k)%nat by (simpl; lia). exact Hs. }
    intros r w1 (l1 & Hl1 & V1 & k1 & d1 & n1 & b1 & ls1 & m & idx & Hk1 & Hs1 & Hh1 & Hr & Hkept1 & Hnl & Hlive1).
    apply wp_bind. replace k1 with (3 * length sizes + (k1 - 3 * length sizes))%nat in Hs1 by lia.
    eapply wp_mono; [eapply (IH G w1 V1 _ cont d1 o n1 b1 ls1 l1 Hs1 Hh1)|].
    { simpl in Hlen. destruct Hl1 as [-> | ->]; simpl; lia. }
    { done. }
    intros rs w2 (V2 & k2 & d2 & n2 & b2 & ls2 & l2 & os & Hk2 & Hs2 & Hh2 & [Hrs Hoss] & Hnd & Hkept2 & Hno & Hlive2). apply wp_ret.
    exists V2, k2, d2, n2, b2, ls2, l2, ((m, ROUND8 size, idx) :: os).
    split_and!; [lia|done|done|split; [by rewrite Hr, Hrs|simpl; by rewrite Hoss]| |by eapply kept_trans| |].
    + constructor; [|done]. intros Hin%Hno. apply Hin, Hlive1. by right.
    + intros m' s' j [E|Hin]%elem_of_cons; [injection E as -> -> ->; done|]. intros Hl. apply (Hno m' s' j Hin), Hlive1. by left.
    + intros m' s' j. rewrite Hlive2, Hlive1, elem_of_cons. split.
      * intros [[?|(-> & -> & ->)]|?]; [by left|right; by left|right; by right].
      * intros [?|[E|?]]; [left; by left|injection E as -> -> ->; left; by right|by right].
Qed.
End palloc.
