(* ===== verification/Closure.v ===== *)
(** * The closure of the container: [src/closure.c]

    Before a checkpoint, volatile allocations that a persistent pointer
    reaches are moved into the container.  The program registers its
    allocations ([mallocat]) and the locations of its pointers
    ([pointerat]).  A pointer location in a registered allocation is kept
    with the allocation, one in a data page becomes persistent, any other is
    a back reference, whose target is corrected at the end.

    [clst] is the slab's world together with the static variables of
    [closure.c] and [cont.c]; a [struct mallocat_entry] is known by its
    address in [cl_entries]. *)
From Stdlib Require Import ZArith Lia.
From stdpp Require Import base numbers gmap option list.
From S2P Require Import Prelude Macros Bitstring Vector Hash Htable Queue Process RBTree PageAlloc Splay.
From S2P Require Import SlabLayout World Snapshot Slab Alloc.
Open Scope Z_scope.

Record mallocat_entry := MallocatEntry {
  me_addr : Z;
  me_size : Z;
  me_paddr : Z;
  me_ptrs : vector Z;
}.

Definition mallocat_entry_cpm (a b : mallocat_entry) : Z :=
  if me_addr a <? me_addr b then -1 else if me_addr b + me_size b <=? me_addr a then 1 else 0.

Definition PTR_REBASE (base ploc newbase : Z) : Z := newbase + (ploc - base).

Record clst (PS : Type) := Clst {
  cl_world : world PS;
  ht_pointerat : htable;
  ht_mallocat : htable;
  pptr_vec : vector Z;
  mallocat_tree : stree Z;
  cl_entries : gmap Z mallocat_entry;
  closure_enabled : bool;
}.
Arguments Clst {PS}.
Arguments cl_world {PS}.
Arguments ht_pointerat {PS}.
Arguments ht_mallocat {PS}.
Arguments pptr_vec {PS}.
Arguments mallocat_tree {PS}.
Arguments cl_entries {PS}.
Arguments closure_enabled {PS}.

Section closure.
Context {PS : Type} `{PA : PageAllocator PS}.
Notation M := (M (clst PS)).

Definition set_cl_world (w : world PS) (s : clst PS) : clst PS :=
  Clst w (ht_pointerat s) (ht_mallocat s) (pptr_vec s) (mallocat_tree s) (cl_entries s) (closure_enabled s).
Definition set_ht_pointerat (h : htable) (s : clst PS) : clst PS :=
  Clst (cl_world s) h (ht_mallocat s) (pptr_vec s) (mallocat_tree s) (cl_entries s) (closure_enabled s).
Definition set_ht_mallocat (h : htable) (s : clst PS) : clst PS :=
  Clst (cl_world s) (ht_pointerat s) h (pptr_vec s) (mallocat_tree s) (cl_entries s) (closure_enabled s).
Definition set_pptr_vec (v : vector Z) (s : clst PS) : clst PS :=
  Clst (cl_world s) (ht_pointerat s) (ht_mallocat s) v (mallocat_tree s) (cl_entries s) (closure_enabled s).
Definition set_mallocat_tree (t : stree Z) (s : clst PS) : clst PS :=
  Clst (cl_world s) (ht_pointerat s) (ht_mallocat s) (pptr_vec s) t (cl_entries s) (closure_enabled s).
Definition set_cl_entries (m : gmap Z mallocat_entry) (s : clst PS) : clst PS :=
  Clst (cl_world s) (ht_pointerat s) (ht_mallocat s) (pptr_vec s) (mallocat_tree s) m (closure_enabled s).

Definition on_world {A} (m : Prelude.M (world PS) A) : M A := zoom cl_world set_cl_world m.
Definition on_pptr_vec {A} (m : Prelude.M (vector Z) A) : M A := zoom pptr_vec set_pptr_vec m.

(** ** Registration *)
Definition pointerat_aux (ptr_loc : Z) : M unit :=
  let! _ := zoom ht_pointerat set_ht_pointerat (htable_insert ptr_loc ptr_loc) in ret tt.

Definition mallocat (addr size : Z) : M unit :=
  assert_ (negb (addr =? 0)) ;;;
  let! _ := zoom ht_mallocat set_ht_mallocat (htable_insert addr (itop size)) in ret tt.

Definition freeat (addr : Z) : M unit := fail HandleError.

(** ** Entries and their tree *)
Definition get_me (e : Z) : M mallocat_entry := fun s =>
  match cl_entries s !! e with Some x => Ok x s | None => Fail NullDeref s end.
Definition put_me (e : Z) (x : mallocat_entry) : M unit :=
  modify (fun s => set_cl_entries (<[e := x]> (cl_entries s)) s).
Definition me_at (s : clst PS) (e : Z) : mallocat_entry :=
  default (MallocatEntry 0 0 0 (Vec 0 0 None)) (cl_entries s !! e).

Definition on_me_ptrs (e : Z) (m : Prelude.M (vector Z) unit) : M unit :=
  let! x := get_me e in
  match m (me_ptrs x) with
  | Ok _ v => put_me e (MallocatEntry (me_addr x) (me_size x) (me_paddr x) v)
  | Fail f v => fail f
  end.

Definition mallocat_entry_alloc (addr size : Z) : M Z :=
  let! e := on_world w_malloc in
  put_me e (MallocatEntry addr size 0 (Vec 0 0 None)) ;;;
  on_me_ptrs e (VECTOR_INIT 8) ;;;
  ret e.

Definition mallocat_insert (e : Z) : M unit :=
  modify (fun s =>
    let c y := mallocat_entry_cpm (me_at s e) (me_at s y) in
    set_mallocat_tree (SPLAY_INSERT c e (mallocat_tree s)).2 s).

(** [SPLAY_FIND] with a key on the stack whose [addr] is [addr]. *)
Definition mallocat_find (addr : Z) : M (option Z) := fun s =>
  let c y := mallocat_entry_cpm (MallocatEntry addr 0 0 (Vec 0 0 None)) (me_at s y) in
  let r := SPLAY_FIND c (mallocat_tree s) in
  Ok r.1 (set_mallocat_tree r.2 s).

Definition init_mallocat_tree_callback (key val : Z) : M unit :=
  let! e := mallocat_entry_alloc key (ptoi val) in mallocat_insert e.

Definition build_mallocat_tree : M unit :=
  let! ht := gets ht_mallocat in htable_foreach ht init_mallocat_tree_callback.

(** [empty_mallocat_tree]: the loop runs while the tree is empty. *)
Fixpoint empty_mallocat_tree (fuel : nat) : M unit :=
  match fuel with
  | O => fail Diverges
  | S fuel' =>
      let! t := gets mallocat_tree in
      if SPLAY_EMPTY t then
        (* SPLAY_REMOVE on an empty tree returns at once *)
        empty_mallocat_tree fuel'
      else ret tt
  end.

(** ** Classification *)
Definition classify_pointers_callback (key val : Z) : M Z :=
  let ptr_loc := key in
  let! e := mallocat_find ptr_loc in
  match e with
  | Some e => on_me_ptrs e (VECTOR_APPEND 8 ptr_loc) ;;; ret 0
  | None =>
      let! se := on_world (slab_find ptr_loc) in
      match se with
      | Some _ => on_pptr_vec (VECTOR_APPEND 8 ptr_loc) ;;; ret 1
      | None => ret 0
      end
  end.

Definition classify_pointers : M unit :=
  let! ht := gets ht_pointerat in
  let! ht' := htable_filter ht classify_pointers_callback in
  modify (set_ht_pointerat ht').

(** ** Moving allocations *)

(** [pmemcpy(e->paddr, e->addr, e->size)], from volatile memory to a data
    page. *)
Definition pmemcpy_bytes (dest src n : Z) : M unit :=
  on_world (let! l := load_bytes (Z.to_nat n) src in store_bytes dest l) ;;;
  on_world (flush_segment dest n).

(** [free]: the bytes of the block are gone. *)
Fixpoint free_bytes (n : nat) (a : Z) (vol : gmap Z Z) : gmap Z Z :=
  match n with O => vol | S n' => free_bytes n' (a + 1) (delete a vol) end.
Definition free_block (addr size : Z) : M unit :=
  on_world (modify (fun w => set_w_vol (free_bytes (Z.to_nat size) addr (w_vol w)) w)).

(** Move one allocation, and every pointer in it to the vector. *)
Definition move_allocation (e : Z) : M unit :=
  let! x := get_me e in
  let! paddr := on_world (slab_palloc (u32 (me_size x))) in
  put_me e (MallocatEntry (me_addr x) (me_size x) paddr (me_ptrs x)) ;;;
  pmemcpy_bytes paddr (me_addr x) (me_size x) ;;;
  free_block (me_addr x) (me_size x) ;;;
  match VECTOR_FOREACH (me_ptrs x) with
  | inl f => fail f
  | inr (ptrs, _) =>
      forM ptrs (fun ptr =>
        on_pptr_vec (VECTOR_APPEND 8 (PTR_REBASE (me_addr x) ptr paddr)) ;;;
        let! _ := zoom ht_pointerat set_ht_pointerat (htable_remove ptr) in ret tt)
  end.

Definition persist_valloc (ptr_loc : Z) : M unit :=
  let! target := on_world (load_ptr ptr_loc) in
  let! e := mallocat_find target in
  match e with
  | None => ret tt
  | Some e =>
      let! x := get_me e in
      when (me_paddr x =? 0) (move_allocation e) ;;;
      let! x := get_me e in
      let! target := on_world (load_ptr ptr_loc) in
      on_world (store_ptr ptr_loc (PTR_REBASE (me_addr x) target (me_paddr x)))
  end.

(** [for (i = 0; i < se_loc->se_ptr.current.idx; i++)], from [i] on. *)
Fixpoint move_callback (fuel : nat) (se_loc sp i : Z) : M unit :=
  match fuel with
  | O => fail Diverges
  | S fuel' =>
      let! e := on_world (get_se se_loc) in
      if i <? r_idx (se_ptr_current e) then
        let! items := on_world (read (T := list slab_ptr_item) sp) in
        let! it := from_opt OutOfBounds (zget items i) in
        persist_valloc (d_maddr (se_data_current e) + ploc_offset it) ;;;
        move_callback fuel' se_loc sp (i + 1)
      else ret tt
  end.

Definition move_volatile_allocations_callback (fuel : nat) (se_loc : Z) : M unit :=
  let! e := on_world (get_se se_loc) in
  move_callback fuel se_loc (r_maddr (se_ptr_current e)) 0.

(** The loop over the vector of persistent pointers, which grows while it
    runs. *)
Fixpoint move_pptrs (fuel : nat) (i : Z) : M unit :=
  match fuel with
  | O => fail Diverges
  | S fuel' =>
      let! v := gets pptr_vec in
      if i <? VECTOR_SIZE v then
        match VECTOR_AT v i with
        | inl f => fail f
        | inr ptr_loc =>
            persist_valloc ptr_loc ;;;
            on_world (slab_insert_pointer ptr_loc) ;;;
            move_pptrs fuel' (i + 1)
        end
      else ret tt
  end.

(** [slab_foreach_snapshot_entry] with a callback on this state. *)
Fixpoint foreach_snapshotted (fuel : nat) (sd : Z) (f : Z -> M unit) (i : Z) : M unit :=
  match fuel with
  | O => fail Diverges
  | S fuel' =>
      let! d := on_world (read (T := slab_dir) sd) in
      if i <? VECTOR_SIZE (sd_vector d) then
        match VECTOR_AT (sd_vector d) i with
        | inl flt => fail flt
        | inr se => f se ;;; foreach_snapshotted fuel' sd f (i + 1)
        end
      else ret tt
  end.

Definition move_volatile_allocations (fuel : nat) : M unit :=
  move_pptrs fuel 0 ;;;
  on_pptr_vec VECTOR_FREE ;;;
  let! sd := on_world current_dir in
  foreach_snapshotted fuel sd (move_volatile_allocations_callback fuel) 0.

(** ** Back references *)
Definition fix_back_references_callback (key val : Z) : M unit :=
  let ptr_loc := key in
  let! target := on_world (load_ptr ptr_loc) in
  if target =? 0 then ret tt
  else
    let! e := mallocat_find target in
    match e with
    | None => ret tt
    | Some e =>
        let! x := get_me e in
        on_world (store_ptr ptr_loc (PTR_REBASE (me_addr x) target (me_paddr x)))
    end.

Definition fix_back_references : M unit :=
  let! ht := gets ht_pointerat in htable_foreach ht fix_back_references_callback.

Definition store_peristent_pointers : M unit :=
  let! v := gets pptr_vec in
  match VECTOR_FOREACH v with
  | inl f => fail f
  | inr (ptrs, _) => forM ptrs (fun ptr_loc => on_world (slab_insert_pointer ptr_loc))
  end.

(** [closure_init]: two new tables and a new vector. *)
Definition closure_init : M unit := fun s =>
  match htable_init, VECTOR_INIT 8 (pptr_vec s) with
  | Ok _ ht, Ok _ v => Ok tt (set_pptr_vec v (set_ht_pointerat ht (set_ht_mallocat ht s)))
  | Fail f _, _ => Fail f s
  | _, Fail f _ => Fail f s
  end.
End closure.
