(* ===== verification/MallocTree.v ===== *)
(** * The closure's tables: what [closure.c] finds and how it sorts pointers

    The tree of registered allocations is searched by address ranges.  Under
    [tree_ok] (its entries are known and their blocks follow each other) a
    search gives the entry whose block holds the address.  From a table of
    disjoint blocks [build_mallocat_tree] makes such a tree, and
    [classify_pointers] then puts every registered pointer into its class
    ([pointer_class]): in an allocation, persistent, or back reference. *)
From Stdlib Require Import ZArith Lia Sorted.
From stdpp Require Import base numbers gmap option list.
From S2P Require Import Prelude Macros Vector Hash Htable Process RBTree FixedMapper PageAlloc Splay.
From S2P Require Import SlabLayout World Demo Snapshot Slab Closure.
Open Scope Z_scope.

(** ** Vectors that are small enough to grow *)
Definition vec_ok (v : vector Z) (l : list Z) : Prop :=
  vector_repr v l /\ is_Some (v_buffer v) /\ v_capacity v <= Z.max 2 (2 * zlen l).

Lemma vec_ok_init v : wp (VECTOR_INIT 8) (fun _ v' => vec_ok v' []) v.
Proof.
  eapply wp_mono; [apply (VECTOR_INIT_repr 8)|]; [done|done|]. intros [] v' [Hr Hc]. split_and!; [done| |by rewrite Hc].
  destruct v' as [c n [b|]]; [by eexists|]. destruct Hr as (_ & _ & _ & _ & H0). simpl in *. specialize (H0 eq_refl). lia.
Qed.

Lemma vec_ok_append v l x : vec_ok v l -> zlen l < 2 ^ 26 -> wp (VECTOR_APPEND 8 x) (fun _ v' => vec_ok v' (l ++ [x])) v.
Proof.
  intros (Hr & Hb & Hc) Hl. pose proof (zlen_nonneg l) as H0.
  eapply wp_mono; [apply (VECTOR_APPEND_repr 8); [done|done|unfold can_double; lia]|].
  intros [] v' [Hr' Hc']. pose proof Hr as (H1 & _ & H3 & _). pose proof Hr' as (H1' & H2' & H3' & _ & H5').
  assert (Hlen : zlen (l ++ [x]) = zlen l + 1) by (rewrite zlen_app; unfold zlen; simpl; lia).
  split_and!; [done| |].
  - destruct (v_buffer v') eqn:E; [by eexists|]. rewrite H5' in * by done. lia.
  - rewrite Hlen. rewrite Hc'. destruct (Z.eqb_spec (v_size v) (v_capacity v)); lia.
Qed.

(** ** Address ranges *)
Definition inside (m : mallocat_entry) (a : Z) : bool := (me_addr m <=? a) && (a <? me_addr m + me_size m).

(** [m1] lies below [m2]. *)
Definition under (m1 m2 : mallocat_entry) : Prop :=
  me_addr m1 < me_addr m2 /\ me_addr m1 + me_size m1 <= me_addr m2.

Definition key_entry (a : Z) : mallocat_entry := MallocatEntry a 0 0 (Vec 0 0 None).

Lemma cpm_inside k m : 0 <= me_size m -> mallocat_entry_cpm k m = 0 <-> inside m (me_addr k) = true.
Proof.
  intros Hs. unfold mallocat_entry_cpm, inside. rewrite andb_true_iff, Z.leb_le, Z.ltb_lt.
  destruct (Z.ltb_spec (me_addr k) (me_addr m)), (Z.leb_spec (me_addr m + me_size m) (me_addr k)); lia.
Qed.

Lemma cpm_under k m1 m2 : under m1 m2 -> mallocat_entry_cpm k m1 <= 0 -> mallocat_entry_cpm k m2 < 0.
Proof.
  unfold under, mallocat_entry_cpm. intros [H1 H2].
  destruct (Z.ltb_spec (me_addr k) (me_addr m1)), (Z.leb_spec (me_addr m1 + me_size m1) (me_addr k)),
    (Z.ltb_spec (me_addr k) (me_addr m2)), (Z.leb_spec (me_addr m2 + me_size m2) (me_addr k)); lia.
Qed.

Section tree.
Context {PS : Type} `{PA : PageAllocator PS}.
Implicit Types (s : clst PS) (es : list Z) (e a p : Z).

Record tree_ok s es : Prop := {
  to_order : sinorder (mallocat_tree s) = es;
  to_known : forall e, e ∈ es -> is_Some (cl_entries s !! e);
  to_size : forall e, e ∈ es -> 0 <= me_size (me_at s e);
  to_sorted : StronglySorted (fun e1 e2 => under (me_at s e1) (me_at s e2)) es;
}.

(** The entry whose block holds [a]. *)
Definition owner s es a : option Z := head (List.filter (fun e => inside (me_at s e) a) es).

Lemma owner_Some s es a e : owner s es a = Some e -> e ∈ es /\ inside (me_at s e) a = true.
Proof.
  unfold owner. intros H. apply head_Some_elem_of in H. apply list_elem_of_In, List.filter_In in H as [H1 H2].
  split; [by apply list_elem_of_In|done].
Qed.

Lemma owner_None s es a : owner s es a = None <-> forall e, e ∈ es -> inside (me_at s e) a = false.
Proof.
  unfold owner. rewrite head_None. split.
  - intros H e He. destruct (inside (me_at s e) a) eqn:E; [|done].
    assert (Hin : e ∈ List.filter (fun e => inside (me_at s e) a) es).
    { apply list_elem_of_In, List.filter_In. split; [by apply list_elem_of_In|done]. }
    rewrite H in Hin. by apply elem_of_nil in Hin.
  - intros H. destruct (List.filter _ es) as [|e l] eqn:E; [done|].
    assert (Hin : e ∈ e :: l) by by left. rewrite <- E in Hin.
    apply list_elem_of_In, List.filter_In in Hin as [H1%list_elem_of_In H2]. by rewrite H in H2.
Qed.

(** Two blocks do not share an address. *)
Lemma owner_unique s es a e1 e2 :
  tree_ok s es -> e1 ∈ es -> e2 ∈ es -> inside (me_at s e1) a = true -> inside (me_at s e2) a = true -> e1 = e2.
Proof.
  intros [_ _ _ Hs]. induction Hs as [|x es Hs IH Hx]; [by intros ?%elem_of_nil|].
  rewrite Forall_forall in Hx. unfold inside. rewrite !andb_true_iff, !Z.leb_le, !Z.ltb_lt.
  assert (Hu : forall e, e ∈ es -> under (me_at s x) (me_at s e)) by (intros e He; by apply Hx).
  intros [->|H1]%elem_of_cons [->|H2]%elem_of_cons; [done| | |]; intros Ha Hb.
  - destruct (Hu _ H2). lia.
  - destruct (Hu _ H1). lia.
  - apply IH; try done; unfold inside; rewrite andb_true_iff, Z.leb_le, Z.ltb_lt; lia.
Qed.

Lemma owner_ok s es a e : tree_ok s es -> e ∈ es -> inside (me_at s e) a = true -> owner s es a = Some e.
Proof.
  intros Ht He Hi. destruct (owner s es a) as [e'|] eqn:E.
  - apply owner_Some in E as [He' Hi']. f_equal. by eapply owner_unique.
  - rewrite owner_None in E. by rewrite E in Hi.
Qed.

Lemma tree_sep s es k : tree_ok s es -> sep (fun y => mallocat_entry_cpm k (me_at s y)) es.
Proof.
  intros [_ _ _ Hs]. unfold sep. induction Hs as [|x es Hs IH Hx]; constructor; [done|].
  eapply Forall_impl; [exact Hx|]. intros y Hy. by apply cpm_under.
Qed.

(** [mallocat_find] *)
Lemma mallocat_find_ok s es a :
  tree_ok s es ->
  exists t, mallocat_find a s = Ok (owner s es a) (set_mallocat_tree t s) /\ sinorder t = es.
Proof.
  intros Ht. unfold mallocat_find. set (c := fun y => mallocat_entry_cpm _ _).
  pose proof (to_order _ _ Ht) as Ho. pose proof (tree_sep s es (key_entry a) Ht) as Hsep.
  destruct (SPLAY_FIND_ok c (mallocat_tree s)) as [Hi Hr]; [by rewrite Ho|].
  exists (SPLAY_FIND c (mallocat_tree s)).2. rewrite Hi, Ho. split; [|done]. f_equal.
  destruct (SPLAY_FIND c (mallocat_tree s)).1 as [e|].
  - destruct Hr as [He Hc]. rewrite Ho in He. symmetry. apply owner_ok; [done|done|].
    by apply (cpm_inside (key_entry a)); [apply (to_size _ _ Ht)|].
  - symmetry. apply owner_None. intros e He. rewrite Ho in Hr. rewrite Forall_forall in Hr. specialize (Hr e).
    destruct (inside (me_at s e) a) eqn:E; [|done]. exfalso. apply Hr; [done|].
    by apply (cpm_inside (key_entry a)); [apply (to_size _ _ Ht)|].
Qed.

(** The tree depends on the addresses and sizes of the entries only. *)
Lemma tree_ok_same s s' es :
  tree_ok s es -> sinorder (mallocat_tree s') = es ->
  (forall e, e ∈ es -> is_Some (cl_entries s' !! e) /\ me_addr (me_at s' e) = me_addr (me_at s e) /\
     me_size (me_at s' e) = me_size (me_at s e)) ->
  tree_ok s' es.
Proof.
  intros [_ Hk Hsz Hs] Ho Hsame. split; [done|by intros e He; apply Hsame| |].
  - intros e He. destruct (Hsame e He) as (_ & _ & ->). by apply Hsz.
  - clear Hsz Hk Ho. induction Hs as [|x es Hs IH Hx]; constructor; [apply IH; intros e He; apply Hsame; by right|].
    rewrite Forall_forall in Hx |- *. intros y Hy. specialize (Hx y Hy).
    destruct (Hsame x) as (_ & Ex1 & Ex2); [by left|]. destruct (Hsame y) as (_ & Ey1 & Ey2); [apply elem_of_cons; by right|].
    unfold under in *. by rewrite Ex1, Ex2, Ey1.
Qed.

Lemma owner_same s s' es a :
  (forall e, e ∈ es -> me_addr (me_at s' e) = me_addr (me_at s e) /\ me_size (me_at s' e) = me_size (me_at s e)) ->
  owner s' es a = owner s es a.
Proof.
  intros H. unfold owner. f_equal. induction es as [|e es IH]; [done|]. simpl.
  destruct (H e) as [E1 E2]; [by left|]. rewrite IH by (intros x Hx; apply H; by right).
  assert (Ei : inside (me_at s' e) a = inside (me_at s e) a) by (unfold inside; by rewrite E1, E2).
  by rewrite Ei.
Qed.
End tree.

(** ** Building the tree *)
Section build.
Context {PS : Type} `{AM : AllocatorMalloc PS}.
Implicit Types (s : clst PS) (es : list Z) (e a p : Z) (w : world PS).

Lemma mallocat_insert_ok s es e :
  tree_ok s es -> is_Some (cl_entries s !! e) -> 0 <= me_size (me_at s e) ->
  (forall x, x ∈ es -> under (me_at s x) (me_at s e) \/ under (me_at s e) (me_at s x)) ->
  exists t lo hi, mallocat_insert e s = Ok tt (set_mallocat_tree t s) /\ es = lo ++ hi /\
    tree_ok (set_mallocat_tree t s) (lo ++ e :: hi).
Proof.
  intros Ht He Hsz Hu. unfold mallocat_insert. set (c := fun y => mallocat_entry_cpm (me_at s e) (me_at s y)).
  pose proof (tree_sep s es (me_at s e) Ht) as Hsep. pose proof (to_order _ _ Ht) as Ho. rewrite <- Ho in Hsep.
  assert (Hpos : forall x, under (me_at s x) (me_at s e) -> c x = 1).
  { intros x [H1 H2]. unfold c, mallocat_entry_cpm.
    destruct (Z.ltb_spec (me_addr (me_at s e)) (me_addr (me_at s x))); [lia|].
    by destruct (Z.leb_spec (me_addr (me_at s x) + me_size (me_at s x)) (me_addr (me_at s e))); [|lia]. }
  assert (Hneg : forall x, under (me_at s e) (me_at s x) -> c x = -1).
  { intros x [H1 H2]. unfold c, mallocat_entry_cpm.
    by destruct (Z.ltb_spec (me_addr (me_at s e)) (me_addr (me_at s x))); [|lia]. }
  destruct (SPLAY_INSERT_new c e (mallocat_tree s) Hsep) as (_ & lo & hi & E & Hlo & Hhi & Ei).
  { rewrite Ho. rewrite Forall_forall. intros x Hx. destruct (Hu x Hx) as [Hc|Hc]; [rewrite (Hpos x Hc)|rewrite (Hneg x Hc)]; done. }
  rewrite Ho in E. exists (SPLAY_INSERT c e (mallocat_tree s)).2, lo, hi. split_and!; [done|done|].
  rewrite Forall_forall in Hlo, Hhi. destruct Ht as [_ Hk Hs Hsort]. rewrite E in Hk, Hs, Hsort, Hu.
  assert (Hin : forall x, x ∈ lo ++ e :: hi -> x = e \/ x ∈ lo ++ hi) by set_solver.
  split; [done| | |].
  - intros x Hx. destruct (Hin x Hx) as [->|Hx']; [done|by apply Hk].
  - intros x Hx. destruct (Hin x Hx) as [->|Hx']; [done|by apply Hs].
  - assert (Hlo' : forall x, x ∈ lo -> under (me_at s x) (me_at s e)).
    { intros x Hx. destruct (Hu x) as [Hc|Hc]; [apply elem_of_app; by left|done|]. specialize (Hlo x Hx). rewrite (Hneg x Hc) in Hlo. lia. }
    assert (Hhi' : forall x, x ∈ hi -> under (me_at s e) (me_at s x)).
    { intros x Hx. destruct (Hu x) as [Hc|Hc]; [apply elem_of_app; by right| |done]. specialize (Hhi x Hx). rewrite (Hpos x Hc) in Hhi. lia. }
    clear -Hsort Hlo' Hhi'. change (me_at (set_mallocat_tree _ s)) with (me_at s).
    induction lo as [|y lo IH]; simpl in *.
    + constructor; [done|]. apply Forall_forall. intros x Hx. by apply Hhi'.
    + inversion Hsort as [|? ? Hsort' Hy]; subst. constructor; [apply IH; [done|intros x Hx; apply Hlo'; by right]|].
      apply Forall_app in Hy as [Hy1 Hy2]. apply Forall_app. split; [done|]. constructor; [apply Hlo'; by left|done].
Qed.

(** What does not change while the tables are built and the pointers sorted:
    the world but for the break, the tables, the switch. *)
Record still V k (w0 : world PS) s s' : Prop := {
  st_sees : sees (cl_world s') V k;
  st_globals : globals (cl_world s') = globals w0;
  st_mallocat : ht_mallocat s' = ht_mallocat s;
  st_pointerat : ht_pointerat s' = ht_pointerat s;
  st_enabled : closure_enabled s' = closure_enabled s;
}.

Definition block s e : Z * Z := (me_addr (me_at s e), me_size (me_at s e)).

(** The tree after the blocks [bs]: an entry for each, not moved, without
    pointers. *)
Record built V k w0 s0 s (bs : list (Z * Z)) es : Prop := {
  bu_still : still V k w0 s0 s;
  bu_vec : pptr_vec s = pptr_vec s0;
  bu_tree : tree_ok s es;
  bu_blocks : map (block s) es ≡ₚ bs;
  bu_new : forall e, e ∈ es -> me_paddr (me_at s e) = 0 /\ vec_ok (me_ptrs (me_at s e)) [];
  bu_fresh : forall e, is_Some (cl_entries s !! e) -> e < brk (cl_world s);
}.

(** The blocks lie apart. *)
Definition blocks_apart (bs : list (Z * Z)) : Prop :=
  ForallOrdPairs (fun b1 b2 => b1.1 < b2.1 /\ b1.1 + b1.2 <= b2.1 \/ b2.1 < b1.1 /\ b2.1 + b2.2 <= b1.1) bs.

Lemma alloc_entry_ok V k w0 s0 s bs es addr size :
  built V k w0 s0 s bs es ->
  exists e s', mallocat_entry_alloc addr size s = Ok e s' /\ built V k w0 s0 s' bs es /\ e ∉ es /\
    is_Some (cl_entries s' !! e) /\ block s' e = (addr, size) /\ me_paddr (me_at s' e) = 0 /\
    vec_ok (me_ptrs (me_at s' e)) [] /\ mallocat_tree s' = mallocat_tree s.
Proof.
  intros [[Hs Hg Hm Hp He] Hv Ht Hb Hn Hf].
  destruct (proj1 (wp_run _ _ _) (wp_malloc_view (cl_world s) V k
    (fun r w' => r = brk (cl_world s) /\ sees w' V k /\ globals w' = globals (cl_world s) /\ brk w' = brk (cl_world s) + 1) Hs
    ltac:(by intros w' H1 H2 H3))) as (e & w' & E & -> & Hs' & Hg' & Hbrk).
  set (e := brk (cl_world s)) in *.
  assert (Hne : cl_entries s !! e = None).
  { destruct (cl_entries s !! e) eqn:Ee; [|done]. specialize (Hf e). rewrite Ee in Hf. specialize (Hf ltac:(by eexists)). lia. }
  assert (Hees : e ∉ es) by (intros Hin; apply (to_known _ _ Ht) in Hin as [x Hx]; congruence).
  destruct (proj1 (wp_run _ _ _) (vec_ok_init (Vec 0 0 None))) as ([] & v & Ev & Hvec).
  exists e, (set_cl_entries (<[e := MallocatEntry addr size 0 v]> (cl_entries s)) (set_cl_world w' s)).
  assert (Erun : mallocat_entry_alloc addr size s =
    Ok e (set_cl_entries (<[e := MallocatEntry addr size 0 v]> (cl_entries s)) (set_cl_world w' s))).
  { unfold mallocat_entry_alloc, on_world, zoom, bind. rewrite E. unfold put_me, modify, on_me_ptrs, bind, get_me.
    cbn [cl_entries set_cl_entries set_cl_world]. rewrite lookup_insert_eq. cbn [me_ptrs]. rewrite Ev.
    unfold put_me, modify, ret. cbn [me_addr me_size me_paddr]. f_equal. unfold set_cl_entries, set_cl_world. cbn.
    by rewrite insert_insert_eq. }
  set (s' := set_cl_entries _ _) in *.
  assert (Hat : forall x, x ∈ es -> me_at s' x = me_at s x).
  { intros x Hx. unfold me_at, s'. cbn [cl_entries set_cl_entries]. rewrite lookup_insert_ne; [done|]. by intros <-. }
  assert (Hae : me_at s' e = MallocatEntry addr size 0 v).
  { unfold me_at, s'. cbn [cl_entries set_cl_entries]. by rewrite lookup_insert_eq. }
  split_and!; [exact Erun| |done|unfold s'; cbn; rewrite lookup_insert_eq; by eexists|unfold block; by rewrite Hae|by rewrite Hae|
    by rewrite Hae|done].
  split.
  - by split; [|rewrite <- Hg| | |].
  - done.
  - eapply tree_ok_same; [exact Ht|apply (to_order _ _ Ht)|]. intros x Hx. rewrite (Hat x Hx). split_and!; [|done|done].
    unfold s'. cbn. rewrite lookup_insert_is_Some. destruct (decide (e = x)) as [|Hex]; [by left|right].
    split; [done|by apply (to_known _ _ Ht)].
  - assert (Em : map (block s') es = map (block s) es); [|by rewrite Em].
    apply map_ext_in. intros x Hx%list_elem_of_In. unfold block. by rewrite (Hat x Hx).
  - intros x Hx. rewrite (Hat x Hx). by apply Hn.
  - intros x Hx. unfold s' in *. cbn in *. rewrite Hbrk. rewrite lookup_insert_is_Some in Hx. fold e.
    destruct Hx as [<-|[_ Hx]]; [lia|]. specialize (Hf x Hx). lia.
Qed.
End build.

(** What becomes of a registered pointer. *)
Inductive pclass := InAllocation (e : Z) | Persistent | BackReference.

#[export] Instance pclass_eq_dec : EqDecision pclass.
Proof. solve_decision. Defined.

Section classify.
Context {PS : Type} `{AM : AllocatorMalloc PS}.
Implicit Types (s : clst PS) (es : list Z) (e a p : Z) (w : world PS).

(** *** The tree of the registered blocks *)
Definition entry_block (x : htable_entry) : Z * Z := (hte_key x, ptoi (hte_val x)).

(** The blocks of the table do not overlap. *)
Definition mallocs_apart (m : gmap Z Z) : Prop :=
  forall a1 v1 a2 v2, m !! a1 = Some v1 -> m !! a2 = Some v2 -> a1 < a2 -> a1 + ptoi v1 <= a2.

Lemma insert_entry_ok V k w0 s0 s bs es addr size :
  built V k w0 s0 s bs es -> 0 <= size ->
  (forall b, b ∈ bs -> b.1 < addr /\ b.1 + b.2 <= addr \/ addr < b.1 /\ addr + size <= b.1) ->
  wp (bind (mallocat_entry_alloc addr size) mallocat_insert)
    (fun _ s' => exists es', built V k w0 s0 s' (bs ++ [(addr, size)]) es') s.
Proof.
  intros Hb Hsz Hap. destruct (alloc_entry_ok V k w0 s0 s bs es addr size Hb) as (e & s1 & E1 & Hb1 & Hne & Hk & Hbl & Hp & Hv & _).
  destruct Hb1 as [Hst Hpv Ht Hbs Hn Hf]. pose proof Hbl as [= Ea Es].
  destruct (mallocat_insert_ok s1 es e Ht Hk) as (t & lo & hi & E2 & -> & Ht'); [by rewrite Es| |].
  { intros x Hx. assert (Hin : block s1 x ∈ bs) by (rewrite <- Hbs; apply list_elem_of_In, in_map, list_elem_of_In, Hx).
    destruct (Hap _ Hin) as [H1|H1]; [left|right]; unfold under, block in *; rewrite Ea, ?Es; exact H1. }
  unfold wp. rewrite (bind_run _ _ _ _ _ E1), E2. exists (lo ++ e :: hi). split; try done.
  - destruct Hst. by split.
  - change (map (block s1) (lo ++ e :: hi) ≡ₚ bs ++ [(addr, size)]). rewrite <- Permutation_middle. simpl.
    rewrite Hbl, Hbs. by rewrite Permutation_app_comm.
  - intros x Hx. change (me_at (set_mallocat_tree t s1)) with (me_at s1).
    assert (Hx' : x = e \/ x ∈ lo ++ hi) by set_solver. destruct Hx' as [->|Hx']; [done|by apply Hn].
Qed.

Lemma build_mallocat_tree_ok s V k :
  sees (cl_world s) V k -> ht_wf (ht_mallocat s) -> mallocs_apart (ht_map (ht_mallocat s)) ->
  mallocat_tree s = SLeaf -> (forall e, is_Some (cl_entries s !! e) -> e < brk (cl_world s)) ->
  wp build_mallocat_tree (fun _ s' => exists es, built V k (cl_world s) s s' (entry_block <$> ht_entries (ht_mallocat s)) es) s.
Proof.
  intros Hs Hwf Hap Ht Hf. unfold build_mallocat_tree. apply wp_bind, wp_gets. unfold htable_foreach. apply wp_bind.
  apply (wp_forM (fun xs s' => exists es, built V k (cl_world s) s s' (entry_block <$> xs) es)).
  - exists []. split; [by split|done| |done|by intros e ?%elem_of_nil|done].
    split; [by rewrite Ht|by intros e ?%elem_of_nil|by intros e ?%elem_of_nil|constructor].
  - intros before x after s' E [es Hb]. rewrite fmap_app. unfold init_mallocat_tree_callback.
    eapply insert_entry_ok; [exact Hb|unfold ptoi, u64; apply (wrap_range 64); lia|].
    intros b (y & -> & Hy)%list_elem_of_fmap. cbn [entry_block fst snd].
    pose proof (wf_nodup _ Hwf) as Hnd. assert (Hl : forall z, z ∈ ht_entries (ht_mallocat s) ->
      ht_map (ht_mallocat s) !! hte_key z = Some (hte_val z)).
    { intros z Hz. apply map_lookup_Some; [done|]. by exists z. }
    assert (Hyl : y ∈ ht_entries (ht_mallocat s)) by (rewrite E; apply elem_of_app; by left).
    assert (Hxl : x ∈ ht_entries (ht_mallocat s)) by (rewrite E; apply elem_of_app; right; by left).
    assert (Hk : hte_key y <> hte_key x).
    { intros Ek. rewrite E, fmap_app, fmap_cons in Hnd. apply NoDup_app in Hnd as (_ & Hd & _).
      apply (Hd (hte_key y)); [by apply list_elem_of_fmap_2|]. rewrite Ek. by left. }
    destruct (Z.lt_total (hte_key y) (hte_key x)) as [Hlt|[?|Hlt]]; [left|done|right]; (split; [done|]).
    + by eapply (Hap _ _ _ _ (Hl y Hyl) (Hl x Hxl)).
    + by eapply (Hap _ _ _ _ (Hl x Hxl) (Hl y Hyl)).
  - intros s' Hb. apply wp_assert; [by rewrite (wf_elems _ Hwf), Z.eqb_refl|done].
Qed.

(** *** The classes of pointers *)
Definition in_page V (d : slab_dir) (p : Z) : bool :=
  existsb (fun se => (maddr_of V se <=? p) && (p <? maddr_of V se + PAGE_SIZE)) (inorder (sd_maddr_root d)).

Definition pointer_class s es V d p : pclass :=
  match owner s es p with
  | Some e => InAllocation e
  | None => if in_page V d p then Persistent else BackReference
  end.

(** The pointers of a class. *)
Definition those s es V d (c : pclass) (ps : list Z) : list Z := filter (fun p => pointer_class s es V d p = c) ps.

Lemma those_snoc s es V d c ps p :
  those s es V d c (ps ++ [p]) = those s es V d c ps ++ (if decide (pointer_class s es V d p = c) then [p] else []).
Proof. unfold those. rewrite filter_app, filter_cons, filter_nil. done. Qed.

Lemma those_length s es V d c ps : zlen (those s es V d c ps) <= zlen ps.
Proof. unfold those, zlen. pose proof (length_filter (fun p => pointer_class s es V d p = c) ps). lia. Qed.

(** The state when the pointers [ps] have been sorted; [s1] is the state
    before. *)
Record sorted_out s1 es V d ps s : Prop := {
  so_world : cl_world s = cl_world s1;
  so_tables : ht_pointerat s = ht_pointerat s1 /\ ht_mallocat s = ht_mallocat s1 /\ closure_enabled s = closure_enabled s1;
  so_order : sinorder (mallocat_tree s) = es;
  so_entries : forall e, e ∈ es -> is_Some (cl_entries s !! e) /\ block s e = block s1 e /\
    me_paddr (me_at s e) = me_paddr (me_at s1 e) /\ vec_ok (me_ptrs (me_at s e)) (those s1 es V d (InAllocation e) ps);
  so_vec : vec_ok (pptr_vec s) (those s1 es V d Persistent ps);
}.

Lemma sorted_owner s1 es V d ps s a : tree_ok s1 es -> sorted_out s1 es V d ps s -> owner s es a = owner s1 es a /\ tree_ok s es.
Proof.
  intros Ht Hso. assert (Hsame : forall e, e ∈ es -> is_Some (cl_entries s !! e) /\ me_addr (me_at s e) = me_addr (me_at s1 e) /\
     me_size (me_at s e) = me_size (me_at s1 e)).
  { intros e He. destruct (so_entries _ _ _ _ _ _ Hso e He) as (H1 & [= H2 H3] & _). done. }
  split; [apply owner_same; intros e He; by apply Hsame|]. by eapply tree_ok_same; [|apply (so_order _ _ _ _ _ _ Hso)|].
Qed.

(** Appending to the vector of an entry. *)
Lemma append_to_entry s e x l :
  cl_entries s !! e = Some x -> vec_ok (me_ptrs x) l -> zlen l < 2 ^ 26 ->
  forall p, exists v, on_me_ptrs e (VECTOR_APPEND 8 p) s =
    Ok tt (set_cl_entries (<[e := MallocatEntry (me_addr x) (me_size x) (me_paddr x) v]> (cl_entries s)) s) /\
    vec_ok v (l ++ [p]).
Proof.
  intros Hx Hv Hl p. destruct (proj1 (wp_run _ _ _) (vec_ok_append _ _ p Hv Hl)) as ([] & v & E & Hv').
  exists v. split; [|done]. unfold on_me_ptrs, get_me, bind. rewrite Hx, E. done.
Qed.

Lemma sorted_splay s1 es V d ps s t :
  sorted_out s1 es V d ps s -> sinorder t = es -> sorted_out s1 es V d ps (set_mallocat_tree t s).
Proof. intros [] Ht. by split. Qed.

Lemma in_page_spec V d p :
  in_page V d p = true <-> exists se, se ∈ inorder (sd_maddr_root d) /\ maddr_of V se <= p < maddr_of V se + PAGE_SIZE.
Proof.
  unfold in_page. rewrite existsb_exists. setoid_rewrite <- list_elem_of_In. setoid_rewrite andb_true_iff.
  setoid_rewrite Z.leb_le. by setoid_rewrite Z.ltb_lt.
Qed.

Lemma classify_callback_ok s1 es V k sd d ld ps s p v :
  tree_ok s1 es -> find_ctx (cl_world s1) V k sd d ld -> aligned_tree V d -> 0 <= p -> zlen ps < 2 ^ 26 ->
  sorted_out s1 es V d ps s ->
  wp (classify_pointers_callback p v)
    (fun r s' => r = (if decide (pointer_class s1 es V d p = Persistent) then 1 else 0) /\
       sorted_out s1 es V d (ps ++ [p]) s') s.
Proof.
  intros Ht Hf Hal Hp Hn Hso. destruct (sorted_owner _ _ _ _ _ _ p Ht Hso) as [Eo Hts].
  destruct (mallocat_find_ok s es p Hts) as (t & Ef & Hto). rewrite Eo in Ef.
  pose proof (sorted_splay _ _ _ _ _ _ t Hso Hto) as [Hw Htab Hord Hent Hvec]. unfold classify_pointers_callback.
  apply wp_bind. eapply wp_ok; [exact Ef|]. set (s' := set_mallocat_tree t s) in *.
  pose proof (fun c => those_length s1 es V d c ps) as Hlen.
  assert (Ecl : pointer_class s1 es V d p =
    match owner s1 es p with Some e => InAllocation e | None => if in_page V d p then Persistent else BackReference end) by done.
  destruct (owner s1 es p) as [e|] eqn:Eown.
  - assert (He : e ∈ es) by by apply owner_Some in Eown as [].
    destruct (Hent e He) as ([x Hx] & Hb & Hpa & Hvx). assert (Hme : me_at s' e = x) by (unfold me_at; by rewrite Hx).
    rewrite Hme in Hvx. destruct (append_to_entry s' e x _ Hx Hvx ltac:(pose proof (Hlen (InAllocation e)); lia) p) as (vx & E & Hvx').
    apply wp_bind. eapply wp_ok; [exact E|]. apply wp_ret. rewrite decide_False by congruence. split; [done|].
    split; [done|done|done| |].
    + intros y Hy. destruct (Hent y Hy) as (H1 & H2 & H3 & H4). rewrite those_snoc, Ecl.
      set (s2 := set_cl_entries _ s'). destruct (decide (y = e)) as [->|Hye].
      * assert (Hm2 : me_at s2 e = MallocatEntry (me_addr x) (me_size x) (me_paddr x) vx).
        { unfold s2, me_at. cbn [cl_entries set_cl_entries]. by rewrite lookup_insert_eq. }
        unfold block at 1. rewrite Hm2, decide_True by done. cbn [me_addr me_size me_paddr me_ptrs].
        rewrite <- H2, <- H3. unfold block. rewrite Hme. split_and!; try done.
        cbn [cl_entries set_cl_entries s2]. rewrite lookup_insert_eq. by eexists.
      * assert (Hm2 : me_at s2 y = me_at s' y).
        { unfold s2, me_at. cbn [cl_entries set_cl_entries]. by rewrite lookup_insert_ne. }
        unfold block at 1. rewrite Hm2, decide_False, app_nil_r by congruence. split_and!; try done.
        cbn [cl_entries set_cl_entries s2]. by rewrite lookup_insert_ne.
    + rewrite those_snoc, Ecl, decide_False by done. by rewrite app_nil_r.
  - assert (Hdone : forall c, c <> Persistent -> pointer_class s1 es V d p = c ->
      sorted_out s1 es V d (ps ++ [p]) s' \/ exists e, c = InAllocation e).
    { intros c Hc Hcl. destruct c as [e| |]; [right; by exists e|done|left]. split; [done|done|done| |].
      - intros y Hy. rewrite those_snoc, Hcl, decide_False, app_nil_r by done. by apply Hent.
      - by rewrite those_snoc, Hcl, decide_False, app_nil_r by done. }
    apply wp_bind. unfold on_world. apply wp_zoom.
    assert (Hset : set_cl_world (cl_world s') s' = s') by by destruct s'.
    eapply wp_slab_find; [rewrite Hw; exact Hf|exact Hal|done| |].
    + intros se Hse Hin. rewrite Hset. assert (Hpg : in_page V d p = true) by (apply in_page_spec; by exists se).
      rewrite Hpg in *. apply wp_bind. unfold on_pptr_vec. apply wp_zoom.
      eapply wp_mono; [apply (vec_ok_append _ _ p Hvec); specialize (Hlen Persistent); lia|]. intros [] v' Hv'.
      apply wp_ret. rewrite decide_True by done. split; [done|]. split; [done|done|done| |].
      * intros y Hy. rewrite those_snoc, Ecl, decide_False, app_nil_r by done. by apply Hent.
      * by rewrite those_snoc, Ecl, decide_True by done.
    + intros Hno. rewrite Hset. assert (Hpg : in_page V d p = false).
      { apply not_true_is_false. rewrite in_page_spec. intros (se & H1 & H2). by apply (Hno se). }
      rewrite Hpg in *. apply wp_ret. rewrite decide_False by congruence. split; [done|].
      destruct (Hdone BackReference) as [?|[? ?]]; done.
Qed.

Lemma classify_pointers_ok s1 es V k sd d ld :
  tree_ok s1 es -> find_ctx (cl_world s1) V k sd d ld -> aligned_tree V d ->
  ht_wf (ht_pointerat s1) -> ht_elems (ht_pointerat s1) <= 2 ^ 26 ->
  (forall x, x ∈ ht_entries (ht_pointerat s1) -> 0 <= hte_key x) ->
  (forall e, e ∈ es -> vec_ok (me_ptrs (me_at s1 e)) []) -> vec_ok (pptr_vec s1) [] ->
  let f (p _ : Z) := if decide (pointer_class s1 es V d p = Persistent) then 1 else 0 in
  wp classify_pointers (fun _ s' => exists s2, s' = set_ht_pointerat (kept f (ht_pointerat s1)) s2 /\
    sorted_out s1 es V d (hte_key <$> ht_entries (ht_pointerat s1)) s2) s1.
Proof.
  intros Ht Hf Hal Hwf Hn Hpos Hv0 Hpv f. unfold classify_pointers. apply wp_bind, wp_gets, wp_bind.
  eapply wp_mono; [apply (wp_htable_filter f classify_pointers_callback _ (fun xs s => sorted_out s1 es V d (hte_key <$> xs) s))|].
  - intros before x after s E Hso. rewrite fmap_app. apply (classify_callback_ok s1 es V k sd d ld); [done|done|done| | |done].
    + apply Hpos. rewrite E. apply elem_of_app; right; by left.
    + rewrite (wf_elems _ Hwf), E, zlen_app in Hn. unfold zlen in *. rewrite length_fmap. cbn [length] in Hn. lia.
  - split; [done|done|apply (to_order _ _ Ht)| |exact Hpv]. intros e He. split_and!; [by apply (to_known _ _ Ht)|done|done|].
    by apply Hv0.
  - intros ht s2 [-> Hso]. apply wp_modify. by exists s2.
Qed.

(** What the two tables hold before a checkpoint. *)
Record registered s V k sd d ld : Prop := {
  rg_find : find_ctx (cl_world s) V k sd d ld;
  rg_pages : aligned_tree V d;
  rg_mallocat : ht_wf (ht_mallocat s);
  rg_apart : mallocs_apart (ht_map (ht_mallocat s));
  rg_pointerat : ht_wf (ht_pointerat s);
  rg_few : ht_elems (ht_pointerat s) <= 2 ^ 26;
  rg_ptrs : forall p, is_Some (ht_map (ht_pointerat s) !! p) -> 0 <= p;
  rg_empty : mallocat_tree s = SLeaf;
  rg_fresh : forall e, is_Some (cl_entries s !! e) -> e < brk (cl_world s);
  rg_vec : vec_ok (pptr_vec s) [];
}.

Definition in_no_block s es p : Prop := forall e, e ∈ es -> inside (me_at s e) p = false.

Record classified s s' es V (d : slab_dir) : Prop := {
  cd_tree : tree_ok s' es;
  cd_blocks : block s' <$> es ≡ₚ (fun kv => (kv.1, ptoi kv.2)) <$> map_to_list (ht_map (ht_mallocat s));
  cd_entries : forall e, e ∈ es -> me_paddr (me_at s' e) = 0 /\
    exists l, vector_repr (me_ptrs (me_at s' e)) l /\ NoDup l /\
      forall p, p ∈ l <-> is_Some (ht_map (ht_pointerat s) !! p) /\ inside (me_at s' e) p = true;
  cd_persistent : exists l, vector_repr (pptr_vec s') l /\ NoDup l /\
    forall p, p ∈ l <-> is_Some (ht_map (ht_pointerat s) !! p) /\ in_no_block s' es p /\ in_page V d p = true;
  cd_table : ht_wf (ht_pointerat s') /\ forall p v, ht_map (ht_pointerat s') !! p = Some v <->
    ht_map (ht_pointerat s) !! p = Some v /\ ~ (in_no_block s' es p /\ in_page V d p = true);
}.

Lemma elem_of_keys (ht : htable) p : ht_wf ht -> p ∈ hte_key <$> ht_entries ht <-> is_Some (ht_map ht !! p).
Proof.
  intros Hwf. destruct (ht_map ht !! p) as [v|] eqn:E.
  - split; [by eexists|intros _]. apply map_lookup_Some in E as (x & Hx & <- & _); [|apply Hwf]. by apply list_elem_of_fmap_2.
  - apply map_lookup_None in E. split; [done|]. by intros [? ?].
Qed.

Lemma those_elem s es V d c ps p : p ∈ those s es V d c ps <-> p ∈ ps /\ pointer_class s es V d p = c.
Proof. unfold those. rewrite list_elem_of_filter. tauto. Qed.

Lemma class_persistent s es V d p : pointer_class s es V d p = Persistent <-> in_no_block s es p /\ in_page V d p = true.
Proof.
  unfold pointer_class, in_no_block. rewrite <- owner_None. destruct (owner s es p); [naive_solver|].
  destruct (in_page V d p); naive_solver.
Qed.

Lemma class_allocation s es V d p e :
  tree_ok s es -> e ∈ es -> pointer_class s es V d p = InAllocation e <-> inside (me_at s e) p = true.
Proof.
  intros Ht He. unfold pointer_class. split.
  - destruct (owner s es p) as [e'|] eqn:E; [intros [= ->]; by apply owner_Some in E as []|by destruct (in_page V d p)].
  - intros Hi. by rewrite (owner_ok s es p e).
Qed.

Lemma find_ctx_still w w' V k sd d ld :
  find_ctx w V k sd d ld -> sees w' V k -> globals w' = globals w -> find_ctx w' V k sd d ld.
Proof.
  intros [_ [Hd (c & cont & wc & lc & Hc & Hrest)] Ht] Hs Hg. split; [done| |done]. split; [done|].
  exists c, cont, wc, lc. by rewrite (globals_cont _ _ Hg).
Qed.

Lemma classification V k sd d ld s :
  registered s V k sd d ld ->
  wp (build_mallocat_tree ;;; classify_pointers) (fun _ s' =>
    (exists es, classified s s' es V d) /\ still V k (cl_world s) s (set_ht_pointerat (ht_pointerat s) s')) s.
Proof.
  intros [Hf Hal Hwm Hap Hwp Hfew Hpos Hemp Hfr Hvec]. apply wp_bind.
  eapply wp_mono; [by apply (build_mallocat_tree_ok s V k); [apply Hf| | | |]|].
  intros [] s1 [es [Hst Hpv Ht Hbs Hn _]]. pose proof Hst as [Hs1 Hg1 Hm1 Hp1 Hc1].
  eapply wp_mono; [apply (classify_pointers_ok s1 es V k sd d ld Ht)|].
  - by eapply find_ctx_still.
  - done.
  - by rewrite Hp1.
  - by rewrite Hp1.
  - rewrite Hp1. intros x Hx. apply Hpos. apply elem_of_keys; [done|]. by apply list_elem_of_fmap_2.
  - intros e He. by apply Hn.
  - by rewrite Hpv.
  - intros [] s' (s2 & -> & Hso). pose proof Hso as [Hw (Htp & Htm & Htc) Hord Hent Hv]. rewrite Hp1 in *.
    destruct (sorted_owner _ _ _ _ _ _ 0 Ht Hso) as [_ Ht2]. set (f := fun p _ : Z => _).
    pose proof (wf_nodup _ Hwp) as Hnd. destruct (kept_wf f _ Hwp) as [Hkw Hkm].
    assert (Hins : forall e p, e ∈ es -> inside (me_at s2 e) p = inside (me_at s1 e) p).
    { intros e p He. destruct (Hent e He) as (_ & [= E1 E2] & _). unfold inside. by rewrite E1, E2. }
    assert (Hno : forall p, in_no_block (set_ht_pointerat (kept f (ht_pointerat s)) s2) es p <-> in_no_block s1 es p).
    { intros p. unfold in_no_block. split; intros Hall e He; specialize (Hall e He);
        change (me_at (set_ht_pointerat _ s2)) with (me_at s2) in *; by rewrite (Hins e p He) in *. }
    split; [exists es; split|].
    + by destruct Ht2.
    + assert (Eb : block s2 <$> es = block s1 <$> es).
      { apply list_fmap_ext. intros i e He%list_elem_of_lookup_2. by destruct (Hent e He) as (_ & ? & _). }
      change (block s2 <$> es ≡ₚ (fun kv => (kv.1, ptoi kv.2)) <$> map_to_list (ht_map (ht_mallocat s))).
      rewrite Eb. change (block s1 <$> es) with (map (block s1) es). rewrite Hbs. unfold ht_map.
      rewrite map_to_list_to_map by (rewrite entry_pair_fst; apply Hwm). by rewrite <- list_fmap_compose.
    + intros e He. destruct (Hent e He) as (_ & _ & H1 & H2 & _). destruct (Hn e He) as [H3 _].
      split; [by etransitivity|]. eexists. split; [exact H2|]. split; [by apply NoDup_filter|]. intros p.
      rewrite those_elem, elem_of_keys by done. rewrite (class_allocation s1 es V d p e Ht He).
      change (me_at (set_ht_pointerat _ s2)) with (me_at s2). by rewrite Hins.
    + destruct Hv as [Hv _]. eexists. split; [exact Hv|]. split; [by apply NoDup_filter|]. intros p.
      rewrite those_elem, elem_of_keys, class_persistent, Hno by done. done.
    + split; [done|]. intros p v. cbn [ht_pointerat set_ht_pointerat]. rewrite Hkm, Hno, <- class_persistent. unfold f.
      case_decide; naive_solver.
    + split; cbn; [by rewrite Hw|by rewrite Hw|by rewrite Htm|done|by rewrite Htc].
Qed.
End classify.

(** C16 Building the tree and sorting the pointers: the tree holds the
    registered blocks, each once, in the order of their addresses.  A
    registered pointer inside a block is in the vector of that block and
    stays in the table; one in a data page outside every block moves from the
    table to the vector of persistent pointers; every other one stays in the
    table.  No pointer is lost, listed twice or in two classes.  The pages and
    the table of blocks are left alone. *)
Theorem classify_pointers_correct {PS} `{AM : AllocatorMalloc PS} (s : clst PS) V k sd d ld :
  registered s V k sd d ld ->
  wp (build_mallocat_tree ;;; classify_pointers) (fun _ s' =>
    (exists es, classified s s' es V d) /\
    sees (cl_world s') V k /\ globals (cl_world s') = globals (cl_world s) /\ ht_mallocat s' = ht_mallocat s) s.
Proof.
  intros Hr. eapply wp_mono; [by eapply classification|]. intros [] s' [Hc [H1 H2 H3 _ _]]. done.
Qed.

Lemma classify_pointers_correct_witness : exists (s : clst fmst) p, demo (cl_world s) p /\
  is_Some (ht_map (ht_pointerat s) !! ((dp_m p).1 + 8)) /\
  wp (build_mallocat_tree ;;; classify_pointers) (fun _ s' =>
    (exists l, vector_repr (pptr_vec s') l /\ forall x, x ∈ l <-> x = (dp_m p).1 + 8) /\
    (forall x, is_Some (ht_map (ht_pointerat s') !! x) <-> x = 1008 \/ x = 50)) s.
Proof.
  destruct demo_exists as (w & p & H). pose proof (demo_root w p H) as Hr. destruct (do_data _ _ _ _ _ _ _ _ H) as (Hal & Hpos & Htop).
  destruct (entry_in_at _ _ _ _ _ _ _ (rc_entry _ _ _ _ _ _ _ _ _ _ _ _ Hr)) as [_ Em].
  assert (Hm : 4096 <= (dp_m p).1).
  { unfold PAGE_SIZE in *. pose proof (Z.div_mod (dp_m p).1 4096). destruct (Z.le_gt_cases 4096 (dp_m p).1); [done|].
    rewrite Z.mod_small in Hal by lia. lia. }
  set (x := (dp_m p).1 + 8) in *. destruct htable_init_wf as (h0 & E0 & Hw0 & Hm0).
  assert (Ee : ht_elems h0 = 0).
  { unfold htable_init in E0. vm_compute in E0. by injection E0 as <-. }
  assert (Hel : forall h, ht_wf h -> ht_elems h = Z.of_nat (size (ht_map h))).
  { intros h Hh. rewrite (wf_elems _ Hh). unfold ht_map, zlen. rewrite <- (length_fmap hte_key).
    rewrite <- length_map_to_list. rewrite map_to_list_to_map by (rewrite entry_pair_fst; apply Hh). by rewrite !length_fmap. }
  destruct (htable_insert_map h0 1008 1008 Hw0) as (h1 & _ & Hw1 & Hm1); [lia|].
  destruct (htable_insert_map h1 x x Hw1) as (h2 & _ & Hw2 & Hm2); [rewrite Hel, Hm1, Hm0 by done; done|].
  assert (Hs2 : Z.of_nat (size (ht_map h2)) <= 2).
  { rewrite Hm2, Hm1, Hm0. rewrite map_size_insert, map_size_insert, map_size_empty, lookup_empty. cbn.
    destruct (_ !! x); cbn; lia. }
  destruct (htable_insert_map h2 50 50 Hw2) as (h3 & _ & Hw3 & Hm3); [rewrite Hel by done; lia|].
  destruct (htable_insert_map h0 1000 16 Hw0) as (g1 & _ & Hwg & Hmg); [lia|].
  destruct (proj1 (wp_run _ _ _) (vec_ok_init (Vec 0 0 None))) as ([] & v & _ & Hv).
  set (s := Clst w h3 g1 v SLeaf ∅ true). exists s, p. split; [exact H|].
  assert (Hp : forall y, is_Some (ht_map h3 !! y) <-> y = 1008 \/ y = x \/ y = 50).
  { intros y. rewrite Hm3, Hm2, Hm1, Hm0. rewrite !lookup_insert_is_Some, lookup_empty. clear -x. split.
    - intros [E|[? [E|[? [E|[? [? E]]]]]]]; [by right; right|by right; left|by left|done].
    - intros [E|[E|E]]; rewrite E; clear E y.
      + destruct (decide (50 = 1008)); [by left|right; split; [done|]]. destruct (decide (x = 1008)); [by left|right; split; [done|by left]].
      + destruct (decide (50 = x)); [by left|right; split; [done|by left]].
      + by left. }
  split; [apply Hp; by right; left|].
  assert (Hreg : registered s (demo_V p) 58 (dp_d p).1 (demo_dir p) (dp_d p).2).
  { split; try done.
    - exact (rc_find _ _ _ _ _ _ _ _ _ _ _ _ Hr).
    - intros se Hse. simpl in Hse. apply list_elem_of_singleton in Hse as ->. rewrite Em. unfold PAGE_SIZE in *. lia.
    - cbn. rewrite Hmg, Hm0. intros a1 v1 a2 v2 H1 H2. rewrite !lookup_insert_Some, lookup_empty in H1, H2. intros ?.
      destruct H1 as [[<- <-]|[_ ?]]; [|done]. destruct H2 as [[<- <-]|[_ ?]]; [|done]. lia.
    - cbn. rewrite Hel by done. rewrite Hm3, map_size_insert. destruct (_ !! 50); cbn; lia.
    - intros y Hy%Hp. lia.
    - intros e [? He]. cbn in He. by rewrite lookup_empty in He. }
  eapply wp_mono; [exact (classify_pointers_correct s _ _ _ _ _ Hreg)|]. intros [] s' [[es [Ht Hb He Hv' [Hwt Htab]]] _].
  cbn [ht_mallocat ht_pointerat s] in *. rewrite Hmg, Hm0 in Hb.
  assert (Hno : forall y, in_no_block s' es y <-> ~ (1000 <= y < 1016)).
  { rewrite insert_empty, map_to_list_singleton in Hb. symmetry in Hb. cbn in Hb. apply Permutation_singleton_l in Hb.
    destruct es as [|e [|]]; try done. injection Hb as E1 E2. intros y. unfold in_no_block. split.
    - intros Hall. specialize (Hall e ltac:(by left)). unfold inside in Hall. rewrite <- E1, <- E2 in Hall. bsimpl. change (ptoi 16) with 16 in *. lia.
    - intros Hy e' ->%list_elem_of_singleton. unfold inside. rewrite <- E1, <- E2. bsimpl. change (ptoi 16) with 16. lia. }
  assert (Hpage : forall y, in_page (demo_V p) (demo_dir p) y = true <-> (dp_m p).1 <= y < (dp_m p).1 + 4096).
  { intros y. rewrite in_page_spec. split.
    - intros (se & Hse & Hin). simpl in Hse. apply list_elem_of_singleton in Hse as ->. by rewrite Em in Hin.
    - intros Hin. exists (demo_se p). split; [by left|]. by rewrite Em. }
  split.
  - destruct Hv' as (l & Hl & _ & Hin). exists l. split; [done|]. intros y. rewrite Hin, Hp, Hno, Hpage. subst x. lia.
  - intros y. assert (Ey : is_Some (ht_map (ht_pointerat s') !! y) <->
      is_Some (ht_map h3 !! y) /\ ~ (in_no_block s' es y /\ in_page (demo_V p) (demo_dir p) y = true)).
    { split; [intros [z Hz]; apply Htab in Hz as [Hz ?]; split; [by eexists|done]|].
      intros [[z Hz] ?]. exists z. by apply Htab. }
    rewrite Ey, Hp, Hno, Hpage. subst x. lia.
Defined.
