(* ===== verification/BackRef.v ===== *)
(** * Back references: [fix_back_references] of [closure.c]

    The pointers that stay in the table lie in volatile memory and may point
    to blocks that were moved into the container.  The words of volatile
    memory ([vol_word]) are loaded and stored byte by byte; correcting the
    back references rebases each of those words once ([rebased]) and changes
    no other byte. *)
From Stdlib Require Import ZArith Lia.
From stdpp Require Import base numbers gmap option list.
From S2P Require Import Prelude Macros Vector Hash Htable Process RBTree FixedMapper PageAlloc Splay.
From S2P Require Import SlabLayout World Demo Snapshot Slab Closure MallocTree.
Open Scope Z_scope.

(** ** Words of volatile memory *)
Definition vol_bytes (n : nat) (a : Z) (vol : gmap Z Z) : list Z := map (fun x => default 0 (vol !! x)) (seqZ a (Z.of_nat n)).
Definition vol_word (a : Z) (vol : gmap Z Z) : Z := le_word (vol_bytes 8 a vol).

Fixpoint vol_put (a : Z) (l : list Z) (vol : gmap Z Z) : gmap Z Z :=
  match l with [] => vol | b :: l' => vol_put (a + 1) l' (<[a := u8 b]> vol) end.

Lemma vol_bytes_S n a vol : vol_bytes (S n) a vol = default 0 (vol !! a) :: vol_bytes n (a + 1) vol.
Proof. unfold vol_bytes. rewrite seqZ_cons by lia. cbn [map]. f_equal.
  by replace (Z.succ a) with (a + 1) by lia; replace (Z.pred (Z.of_nat (S n))) with (Z.of_nat n) by lia. Qed.

Lemma vol_bytes_same n a vol vol' :
  (forall x, a <= x < a + Z.of_nat n -> vol' !! x = vol !! x) -> vol_bytes n a vol' = vol_bytes n a vol.
Proof.
  intros H. unfold vol_bytes. apply map_ext_in. intros x Hx%list_elem_of_In%elem_of_seqZ. by rewrite H by lia.
Qed.

Lemma vol_put_other l a vol x : ~ (a <= x < a + zlen l) -> vol_put a l vol !! x = vol !! x.
Proof.
  revert a vol. induction l as [|b l IH]; intros a vol Hx; [done|]. cbn [vol_put]. unfold zlen in *. cbn [length] in Hx.
  rewrite IH by lia. by rewrite lookup_insert_ne by lia.
Qed.

Lemma vol_put_bytes l a vol : Forall (in_u 8) l -> vol_bytes (length l) a (vol_put a l vol) = l.
Proof.
  intros Hl. revert a vol. induction Hl as [|b l Hb Hl IH]; intros a vol; [done|]. cbn [length vol_put].
  rewrite vol_bytes_S, IH, vol_put_other by lia. rewrite lookup_insert_eq. cbn [default]. f_equal. by apply wrap_id.
Qed.

Lemma vol_put_dom l a vol x : is_Some (vol !! x) -> is_Some (vol_put a l vol !! x).
Proof.
  revert a vol. induction l as [|b l IH]; intros a vol Hx; [done|]. cbn [vol_put]. apply IH.
  rewrite lookup_insert_is_Some. destruct (decide (a = x)); [by left|by right].
Qed.

Section words.
Context {PS : Type} `{PA : PageAllocator PS}.
Implicit Types (w : world PS).

(** [n] bytes of volatile memory that the program owns. *)
Definition volatile w (a n : Z) : Prop :=
  forall x, a <= x < a + n -> is_container w x = false /\ is_Some (w_vol w !! x).

Lemma load_bytes_vol n w a : volatile w a (Z.of_nat n) -> load_bytes n a w = Ok (vol_bytes n a (w_vol w)) w.
Proof.
  revert a. induction n as [|n IH]; intros a Hv; [done|]. cbn [load_bytes]. destruct (Hv a) as [Hc [b Hb]]; [lia|].
  unfold load_byte, bind, gets. rewrite Hc, Hb. cbn. rewrite IH by (intros x Hx; apply Hv; lia).
  by rewrite vol_bytes_S, Hb.
Qed.

Lemma store_bytes_vol l w a : volatile w a (zlen l) -> store_bytes a l w = Ok tt (set_w_vol (vol_put a l (w_vol w)) w).
Proof.
  revert w a. induction l as [|b l IH]; intros w a Hv; [by destruct w|]. unfold zlen in Hv. cbn [length] in Hv.
  cbn [store_bytes vol_put]. destruct (Hv a) as [Hc [o Ho]]; [lia|].
  unfold store_byte, bind, gets. rewrite Hc, Ho. cbn. rewrite IH; [done|]. unfold zlen. intros x Hx.
  destruct (Hv x) as [H1 H2]; [lia|]. split; [exact H1|]. cbn. rewrite lookup_insert_is_Some.
  destruct (decide (a = x)); [by left|by right].
Qed.

Lemma load_ptr_vol w a : volatile w a 8 -> load_ptr a w = Ok (vol_word a (w_vol w)) w.
Proof. intros Hv. unfold load_ptr, bind. by rewrite (load_bytes_vol 8). Qed.

Definition put_word (a v : Z) (vol : gmap Z Z) : gmap Z Z := vol_put a (le_bytes 8 v) vol.

Lemma store_ptr_vol w a v : volatile w a 8 -> store_ptr a v w = Ok tt (set_w_vol (put_word a v (w_vol w)) w).
Proof. intros Hv. unfold store_ptr. by apply store_bytes_vol. Qed.

Lemma put_word_eq a v vol : vol_word a (put_word a v vol) = u64 v.
Proof.
  unfold vol_word, put_word. rewrite <- (le_bytes_len 8 v) at 1. rewrite vol_put_bytes by apply le_bytes_ok.
  by rewrite le_word_bytes.
Qed.

Lemma put_word_other a v vol x : ~ (a <= x < a + 8) -> put_word a v vol !! x = vol !! x.
Proof. intros Hx. apply vol_put_other. unfold zlen. by rewrite le_bytes_len. Qed.
End words.

(** ** Correcting the back references *)
Section back.
Context {PS : Type} `{PA : PageAllocator PS}.
Implicit Types (s : clst PS) (es : list Z) (p v : Z).

(** Where a pointer with the target [v] leads afterwards. *)
Definition rebased s es v : Z :=
  if v =? 0 then 0
  else match owner s es v with
       | Some e => u64 (PTR_REBASE (me_addr (me_at s e)) v (me_paddr (me_at s e)))
       | None => v
       end.

Record back_refs s es : Prop := {
  br_tree : tree_ok s es;
  br_table : ht_wf (ht_pointerat s);
  br_volatile : forall p, is_Some (ht_map (ht_pointerat s) !! p) -> volatile (cl_world s) p 8;
  br_apart : forall p q, is_Some (ht_map (ht_pointerat s) !! p) -> is_Some (ht_map (ht_pointerat s) !! q) -> p < q -> p + 8 <= q;
}.

(** The state with other volatile memory and another form of the tree. *)
Definition with_vol s (vol : gmap Z Z) t : clst PS := set_mallocat_tree t (set_cl_world (set_w_vol vol (cl_world s)) s).

Definition in_word (ps : list Z) x : Prop := exists p, p ∈ ps /\ p <= x < p + 8.

(** The words at [ps] are corrected, and no other byte has changed. *)
Record corrected s es ps (vol : gmap Z Z) : Prop := {
  co_words : forall p, p ∈ ps -> vol_word p vol = rebased s es (vol_word p (w_vol (cl_world s)));
  co_other : forall x, ~ in_word ps x -> vol !! x = w_vol (cl_world s) !! x;
  co_dom : forall x, is_Some (w_vol (cl_world s) !! x) -> is_Some (vol !! x);
}.

Lemma word_apart s es p q x :
  back_refs s es -> is_Some (ht_map (ht_pointerat s) !! p) -> is_Some (ht_map (ht_pointerat s) !! q) -> p <> q ->
  p <= x < p + 8 -> ~ (q <= x < q + 8).
Proof.
  intros Hb Hp Hq Hne Hx. destruct (Z.lt_total p q) as [H|[?|H]]; [|done|].
  - pose proof (br_apart _ _ Hb p q Hp Hq H). lia.
  - pose proof (br_apart _ _ Hb q p Hq Hp H). lia.
Qed.

Lemma corrected_same s es ps p vol :
  corrected s es ps vol -> vol_word p vol = rebased s es (vol_word p (w_vol (cl_world s))) ->
  corrected s es (ps ++ [p]) vol.
Proof.
  intros [H1 H2 H3] Hp. split; [|intros x Hx; apply H2|done].
  - intros q [Hq| ->%list_elem_of_singleton]%elem_of_app; [by apply H1|done].
  - intros (q & Hq & Hxq). apply Hx. exists q. split; [apply elem_of_app; by left|done].
Qed.

Lemma corrected_put s es ps p v vol :
  back_refs s es -> (forall q, q ∈ ps -> is_Some (ht_map (ht_pointerat s) !! q)) -> is_Some (ht_map (ht_pointerat s) !! p) ->
  p ∉ ps -> corrected s es ps vol -> rebased s es (vol_word p (w_vol (cl_world s))) = u64 v ->
  corrected s es (ps ++ [p]) (put_word p v vol).
Proof.
  intros Hb Hps Hp Hnp [H1 H2 H3] Hv. split.
  - intros q [Hq| ->%list_elem_of_singleton]%elem_of_app; [|by rewrite put_word_eq].
    rewrite <- H1 by done. unfold vol_word. f_equal. apply vol_bytes_same. intros x Hx. apply put_word_other.
    apply (word_apart s es q p x Hb (Hps q Hq) Hp); [intros E; by rewrite E in Hq|exact Hx].
  - intros x Hx. rewrite put_word_other.
    + apply H2. intros (q & Hq & Hxq). apply Hx. exists q. split; [apply elem_of_app; by left|done].
    + intros Hxp. apply Hx. exists p. split; [apply elem_of_app; right; by left|done].
  - intros x Hx. apply vol_put_dom. by apply H3.
Qed.

Lemma fix_callback_ok s es ps p v0 vol t :
  back_refs s es -> (forall q, q ∈ ps -> is_Some (ht_map (ht_pointerat s) !! q)) -> is_Some (ht_map (ht_pointerat s) !! p) ->
  p ∉ ps -> corrected s es ps vol -> sinorder t = es ->
  exists vol' t', fix_back_references_callback p v0 (with_vol s vol t) = Ok tt (with_vol s vol' t') /\
    corrected s es (ps ++ [p]) vol' /\ sinorder t' = es.
Proof.
  intros Hb Hps Hp Hnp Hc Ht. set (s1 := with_vol s vol t).
  assert (Hv1 : volatile (cl_world s1) p 8).
  { intros x Hx. destruct (br_volatile _ _ Hb p Hp x Hx) as [H1 H2]. split; [exact H1|]. by apply (co_dom _ _ _ _ Hc). }
  assert (Ew : vol_word p vol = vol_word p (w_vol (cl_world s))).
  { unfold vol_word. f_equal. apply vol_bytes_same. intros x Hx. apply (co_other _ _ _ _ Hc). intros (q & Hq & Hxq).
    apply (word_apart s es p q x Hb Hp (Hps q Hq)); [intros E; by rewrite E in Hnp|exact Hx|exact Hxq]. }
  assert (Ht1 : tree_ok s1 es).
  { eapply tree_ok_same; [apply (br_tree _ _ Hb)|exact Ht|]. intros e He. split; [|done].
    by apply (to_known _ _ (br_tree _ _ Hb)). }
  unfold fix_back_references_callback, on_world, bind at 1, zoom at 1. rewrite (load_ptr_vol _ _ Hv1).
  change (set_cl_world (cl_world s1) s1) with s1. change (w_vol (cl_world s1)) with vol. rewrite Ew.
  set (v := vol_word p (w_vol (cl_world s))) in *. destruct (Z.eqb_spec v 0) as [E0|Hv].
  { exists vol, t. split_and!; [done| |done]. apply corrected_same; [done|]. fold v. rewrite Ew, E0. reflexivity. }
  destruct (mallocat_find_ok s1 es v Ht1) as (t' & Ef & Ht'). change (owner s1 es v) with (owner s es v) in Ef.
  unfold bind at 1. rewrite Ef. assert (Er : rebased s es v = match owner s es v with
    Some e => u64 (PTR_REBASE (me_addr (me_at s e)) v (me_paddr (me_at s e))) | None => v end).
  { unfold rebased. by destruct (Z.eqb_spec v 0). }
  destruct (owner s es v) as [e|] eqn:Eo.
  - pose proof Eo as [He _]%owner_Some. destruct (to_known _ _ (br_tree _ _ Hb) e He) as [x Hx].
    unfold bind, get_me. change (cl_entries (set_mallocat_tree t' s1)) with (cl_entries s). rewrite Hx.
    unfold zoom. change (cl_world (set_mallocat_tree t' s1)) with (cl_world s1). rewrite (store_ptr_vol _ _ _ Hv1).
    eexists _, t'. split_and!; [unfold s1, with_vol; reflexivity| |done]. change (w_vol (cl_world s1)) with vol.
    apply corrected_put; try done. fold v. rewrite Er. unfold me_at. by rewrite Hx.
  - exists vol, t'. split_and!; [done| |done]. apply corrected_same; [done|]. fold v. by rewrite Ew, Er.
Qed.

Lemma fix_back_references_ok s es :
  back_refs s es ->
  exists vol t, fix_back_references s = Ok tt (with_vol s vol t) /\ sinorder t = es /\
    corrected s es (hte_key <$> ht_entries (ht_pointerat s)) vol.
Proof.
  intros Hb. pose proof (br_table _ _ Hb) as Hwf.
  enough (Hw : wp fix_back_references (fun _ s' => exists vol t, s' = with_vol s vol t /\ sinorder t = es /\
    corrected s es (hte_key <$> ht_entries (ht_pointerat s)) vol) s).
  { apply wp_run in Hw as ([] & s' & E & vol & t & -> & H1 & H2). by exists vol, t. }
  unfold fix_back_references. apply wp_bind, wp_gets. unfold htable_foreach. apply wp_bind.
  apply (wp_forM (fun xs s' => exists vol t, s' = with_vol s vol t /\ sinorder t = es /\ corrected s es (hte_key <$> xs) vol)).
  - exists (w_vol (cl_world s)), (mallocat_tree s). split_and!; [by destruct s as [[] ? ? ? ? ? ?]|apply (to_order _ _ (br_tree _ _ Hb))|].
    split; [by intros p ?%elem_of_nil|done|done].
  - intros before x after s' E (vol & t & -> & Ht & Hc). rewrite fmap_app.
    assert (Hin : forall y, y ∈ before ++ x :: after -> is_Some (ht_map (ht_pointerat s) !! hte_key y)).
    { intros y Hy. apply elem_of_keys; [done|]. rewrite E. by apply list_elem_of_fmap_2. }
    pose proof (wf_nodup _ Hwf) as Hnd. rewrite E, fmap_app, fmap_cons in Hnd. apply NoDup_app in Hnd as (_ & Hd & _).
    destruct (fix_callback_ok s es (hte_key <$> before) (hte_key x) (hte_val x) vol t) as (vol' & t' & Er & Hc' & Ht');
      [done| | | |done|done|].
    + intros q (y & -> & Hy)%list_elem_of_fmap. apply Hin, elem_of_app. by left.
    + apply Hin, elem_of_app. right. by left.
    + intros Hq. apply (Hd _ Hq). by left.
    + eapply wp_ok; [exact Er|]. by exists vol', t'.
  - intros s' (vol & t & -> & Ht & Hc). apply wp_assert; [by rewrite (wf_elems _ Hwf), Z.eqb_refl|]. by exists vol, t.
Qed.
End back.

(** C17 Correcting the back references: a registered pointer whose target lies
    in a block of the tree leads afterwards to the same offset of the block's
    new address; a null pointer and a pointer to anything else stay as they
    were.  No other byte of memory, no page and no table changes, and the
    search trees keep their entries. *)
Theorem fix_back_references_correct {PS} `{PageAllocator PS} (s : clst PS) es :
  back_refs s es ->
  exists vol t, fix_back_references s = Ok tt (with_vol s vol t) /\ sinorder t = es /\
    (forall p, is_Some (ht_map (ht_pointerat s) !! p) ->
       vol_word p vol = rebased s es (vol_word p (w_vol (cl_world s)))) /\
    (forall x, (forall p, is_Some (ht_map (ht_pointerat s) !! p) -> ~ (p <= x < p + 8)) ->
       vol !! x = w_vol (cl_world s) !! x).
Proof.
  intros Hb. pose proof (br_table _ _ Hb) as Hwf. destruct (fix_back_references_ok s es Hb) as (vol & t & E & Ht & [H1 H2 _]).
  exists vol, t. split_and!; [done|done| |].
  - intros p Hp. apply H1. by apply elem_of_keys.
  - intros x Hx. apply H2. intros (p & Hp & Hpx). apply (Hx p); [|done]. by apply elem_of_keys.
Qed.

(** A block of 16 bytes at 1000, moved to 70000; a pointer to its middle and
    one to something else. *)
Lemma fix_back_references_correct_witness : exists (s : clst fmst) vol t,
  fix_back_references s = Ok tt (with_vol s vol t) /\
  map (fun p => vol_word p (w_vol (cl_world s))) [5000; 5008] = [1008; 77] /\
  map (fun p => vol_word p vol) [5000; 5008] = [70008; 77].
Proof.
  set (vol0 := put_word 5008 77 (put_word 5000 1008 (list_to_map (map (fun a => (a, 0)) (seqZ 5000 16))))).
  destruct htable_init_wf as (h0 & E0 & Hw0 & Hm0).
  assert (Ee : ht_elems h0 = 0) by (unfold htable_init in E0; vm_compute in E0; by injection E0 as <-).
  destruct (htable_insert_map h0 5000 5000 Hw0) as (h1 & E1 & Hw1 & Hm1); [lia|].
  assert (Ee1 : ht_elems h1 = 1).
  { unfold htable_init in E0. vm_compute in E0. injection E0 as <-. vm_compute in E1. by injection E1 as <-. }
  destruct (htable_insert_map h1 5008 5008 Hw1) as (h2 & _ & Hw2 & Hm2); [lia|].
  set (w := World (blank 0) ∅ vol0 None 0 0 ∅ true false : world fmst).
  set (s := Clst w h2 h0 (Vec 0 0 None) (SNode SLeaf 3 SLeaf) {[3 := MallocatEntry 1000 16 70000 (Vec 0 0 None)]} true).
  assert (Hp : forall p, is_Some (ht_map h2 !! p) <-> p = 5000 \/ p = 5008).
  { intros p. rewrite Hm2, Hm1, Hm0, !lookup_insert_is_Some, lookup_empty. split; [|].
    - intros [E|[_ [E|[_ [? E]]]]]; [right; by rewrite E|left; by rewrite E|discriminate E].
    - intros [->| ->]; [right; split; [done|by left]|by left]. }
  assert (Hb : back_refs s [3]).
  { split; [| exact Hw2| |].
    - split; [done| | |by repeat constructor].
      + intros e ->%list_elem_of_singleton. by eexists.
      + by intros e ->%list_elem_of_singleton.
    - intros p Hpp%Hp x Hx. split; [done|]. change (is_Some (vol0 !! x)). unfold vol0, put_word. apply vol_put_dom, vol_put_dom.
      assert (Hin : x ∈ seqZ 5000 16) by (apply elem_of_seqZ; lia). exists 0. apply elem_of_list_to_map.
      + rewrite <- list_fmap_compose. rewrite (list_fmap_ext _ id); [rewrite list_fmap_id; apply NoDup_seqZ|done].
      + apply list_elem_of_fmap. by exists x.
    - intros p q Hp1%Hp Hq1%Hp Hlt. lia. }
  destruct (fix_back_references_correct s [3] Hb) as (vol & t & E & _ & Hw & _). exists s, vol, t.
  split_and!; [exact E|vm_compute; reflexivity|]. cbn [map].
  rewrite (Hw 5000), (Hw 5008) by (apply Hp; (by left) || by right). vm_compute. reflexivity.
Defined.
