(* ===== verification/Cont.v ===== *)
(** * Containers: [src/cont.c]

    The public operations: creation, allocation, checkpoint, restore and the
    root of the one container. *)
From Stdlib Require Import ZArith Lia.
From stdpp Require Import base numbers gmap option list.
From S2P Require Import Prelude Macros Bitstring Vector Hash Htable Queue Process RBTree PageAlloc Splay.
From S2P Require Import SlabLayout World Snapshot Slab Alloc Checkpoint Restore Closure.
Open Scope Z_scope.

Section cont.
Context {PS : Type} `{PA : PageAllocator PS}.
Notation M := (M (clst PS)).

(** [fuel] bounds the loops of the closure. *)
Context (fuel : nat).

(** The first free slot of [CONTAINERS], or -1. *)
Definition container_getid : M Z :=
  let! c := on_world (gets CONTAINERS) in
  ret (match c with None => 0 | Some _ => -1 end).

Definition dont_compute_closure : M unit := ret tt.
Definition compute_closure : M unit :=
  build_mallocat_tree ;;;
  classify_pointers ;;;
  move_volatile_allocations fuel ;;;
  fix_back_references.

Definition Func_compute_closure : M unit :=
  let! on := gets closure_enabled in if on then compute_closure else dont_compute_closure.

(** The constructor of the library. *)
Definition init (e : env) : M unit :=
  modify (fun s =>
    let on := match PMLIB_CLOSURE e with
              | Some v => if v =? 0 then false else closure_enabled s
              | None => true end in
    Clst (cl_world s) (ht_pointerat s) (ht_mallocat s) (pptr_vec s) (mallocat_tree s) (cl_entries s) on) ;;;
  on_world (slab_init e).

(** Indexing [PAGE_ALLOCATORS] and [CONTAINERS], arrays of one element. *)
Definition check_cid (cid : Z) : M unit :=
  when (negb ((0 <=? cid) && (cid <? CONTAINER_CNT))) (fail OutOfBounds).

Definition upd_cont (f : container -> container) : M unit :=
  on_world (let! c := get_container in upd c f).

Definition container_init (e : env) : M Z :=
  let! cid := container_getid in
  check_cid cid ;;;
  on_world (on_pa (page_allocator_init e)) ;;;
  let! r := on_world (getpage PA_PROT_WRITE) in
  let cont := r.1 in
  when (cont =? 0) (fail HandleError) ;;;
  when (negb (r.2 =? CONTAINER_LIMA_ADDRESS)) (fail HandleError) ;;;
  closure_init ;;;
  on_world (modify (set_CONTAINERS (Some cont))) ;;;
  upd_cont (fun c => Container cid (current_slab c) (snapshot_slab c) (cont_flags c)) ;;;
  let! d := on_world slab_dir_init in
  upd_cont (fun c => Container (cont_id c) (NRef d.1 d.2) (snapshot_slab c) (cont_flags c)) ;;;
  upd_cont (fun c => Container (cont_id c) (current_slab c) (current_slab c) (cont_flags c)) ;;;
  ret cont.

Definition container_palloc (size : Z) : M Z := on_world (slab_palloc size).

Definition set_cont_flags (f : Z -> Z) (c : container) : container :=
  Container (cont_id c) (current_slab c) (snapshot_slab c) (u8 (f (cont_flags c))).

Definition container_cpoint_aux (type : cpoint_type) : M unit :=
  upd_cont (set_cont_flags (fun x => set_flag x CFLAG_CPOINT_IN_PROGRESS)) ;;;
  on_world STATS_INC_FLUSH ;;;
  Func_compute_closure ;;;
  on_world (slab_cpoint type) ;;;
  let! c := on_world (let! a := get_container in read (T := container) a) in
  when (negb (n_maddr (current_slab c) =? n_maddr (snapshot_slab c)))
    (upd_cont (fun c => Container (cont_id c) (current_slab c)
       (NRef (n_maddr (snapshot_slab c)) (n_laddr (current_slab c))) (cont_flags c)) ;;;
     on_world STATS_INC_FLUSH ;;;
     on_world (freepages (n_maddr (snapshot_slab c))) ;;;
     upd_cont (fun c => Container (cont_id c) (current_slab c)
       (NRef (n_maddr (current_slab c)) (n_laddr (snapshot_slab c))) (cont_flags c))) ;;;
  upd_cont (set_cont_flags (fun x => clear_flag x CFLAG_CPOINT_IN_PROGRESS)) ;;;
  on_world STATS_INC_FLUSH.

Definition container_cpoint : M unit :=
  container_cpoint_aux CPOINT_REGULAR ;;;
  on_world (w_stat STATS_RESET_TRANSACTION_COUNTERS).

(** After a crash in the middle of a checkpoint. *)
Definition restore_incomplete : M unit :=
  let! c := on_world (let! a := get_container in read (T := container) a) in
  let! a := on_world (slab_map (n_laddr (current_slab c)) CPOINT_INCOMPLETE) in
  upd_cont (fun c => Container (cont_id c) (NRef a (n_laddr (current_slab c))) (snapshot_slab c) (cont_flags c)) ;;;
  let! c := on_world (let! a := get_container in read (T := container) a) in
  when (negb (n_laddr (current_slab c) =? n_laddr (snapshot_slab c)))
    (let! a := on_world (slab_map (n_laddr (snapshot_slab c)) CPOINT_INCOMPLETE) in
     upd_cont (fun c => Container (cont_id c) (current_slab c) (NRef a (n_laddr (snapshot_slab c))) (cont_flags c))) ;;;
  container_cpoint_aux CPOINT_RESTORE ;;;
  upd_cont (set_cont_flags (fun x => clear_flag x CFLAG_CPOINT_IN_PROGRESS)) ;;;
  on_world STATS_INC_FLUSH.

Definition restore_complete : M unit :=
  let! c := on_world (let! a := get_container in read (T := container) a) in
  let! a := on_world (slab_map (n_laddr (snapshot_slab c)) CPOINT_COMPLETE) in
  upd_cont (fun c => Container (cont_id c) (NRef a (n_laddr (current_slab c))) (snapshot_slab c) (cont_flags c)) ;;;
  upd_cont (fun c => Container (cont_id c) (current_slab c)
    (NRef (n_maddr (current_slab c)) (n_laddr (snapshot_slab c))) (cont_flags c)) ;;;
  upd_cont (fun c => Container (cont_id c)
    (NRef (n_maddr (current_slab c)) (n_laddr (snapshot_slab c))) (snapshot_slab c) (cont_flags c)).

(** The address of the allocator object, which [cont->pg_allocator] is set
    to, is not part of the container record; the store is a store all the
    same. *)
Definition container_restore (e : env) (cid : Z) : M Z :=
  check_cid cid ;;;
  on_world (on_pa (page_allocator_init e)) ;;;
  let! cont := on_world (mappage CONTAINER_LIMA_ADDRESS) in
  on_world (modify (set_CONTAINERS (Some cont))) ;;;
  upd_cont (fun c => c) ;;;
  closure_init ;;;
  let! c := on_world (read (T := container) cont) in
  (if negb (test_flag (cont_flags c) CFLAG_CPOINT_IN_PROGRESS =? 0) then restore_incomplete
   else restore_complete) ;;;
  on_world slab_fixptrs ;;;
  on_world (slab_mprotect_datapgs PA_PROT_READ) ;;;
  ret cont.

Definition container_setroot (maddr : Z) : M Z := on_world (slab_setroot maddr).
Definition container_getroot : M Z := on_world slab_getroot.
End cont.
