(* ===== verification/Restart.v ===== *)
(** * The restart that the library performs: [container_restore] of [cont.c]

    [Remap.v] shows what [slab_map] restores when the pages of the nodes are
    writable.  Nothing makes them writable: the fixed mapper maps the file of
    a former process [PROT_READ], and [container_restore] stores into the
    container page at once.  The handler, which the constructor of the library
    has registered, looks for the page in the tree of the former process, which
    the file still holds, does not find it, and ends the process. *)
From Stdlib Require Import ZArith Lia.
From stdpp Require Import base numbers gmap option list.
From S2P Require Import Prelude Macros Bitstring Vector Htable Queue Process RBTree FixedMapper PageAlloc Splay.
From S2P Require Import SlabLayout World Demo Snapshot Slab Alloc Checkpoint Txn Restore Recovery Index Closure Cont.
Open Scope Z_scope.

Implicit Types (w : world fmst) (V : gmap Z pinfo) (G : geom) (σ : amem).

(** ** The file of a former process *)

(** What the handler reads: the container, the directory with its tree, and
    the bucket of the entries of the tree, none of which is the container. *)
Record former w G (cont : container) (d : slab_dir) (b : slab_bucket) : Prop := {
  fo_cont : page_at w (g_c G) = Some (PgCont cont);
  fo_dir : n_maddr (current_slab cont) = g_sd G /\ page_at w (g_sd G) = Some (PgDir d);
  fo_bucket : page_at w (g_sb G) = Some (PgBucket b);
  fo_tree : tree_rel (g_sb G) b d;
  fo_other : forall i e, zget (sb_entries b) i = Some e -> SLAB_ENTRY_IS_INIT e = true -> cur_page e <> g_c G;
  fo_page : itop (ROUND_DWNPG (ptoi (g_c G))) = g_c G;
}.

Lemma former_pages w w' G cont d b : former w G cont d b ->
  (forall a, is_Some (page_at w a) -> page_at w' a = page_at w a) -> former w' G cont d b.
Proof. intros [H1 [H2 H3] H4 H5 H6 H7] Hp. split; try done; [|split; [done|]|]; rewrite Hp by (by eexists); done. Qed.

Lemma txn_former w V k G σ cont d o n b ls : sees w V k -> txn_rel w V G σ cont d o n b ls -> former w G cont d b.
Proof.
  intros Hs [_ Hp Hb _ Hd Ht _]. pose proof Hp as [P1 (wc & lc & P2) P3 P4 _ _ _ _ _].
  assert (Hat : forall a p wr l, V !! a = Some (PInfo p wr l) -> page_at w a = Some p).
  { intros a p wr l E. by destruct (sees_shows _ _ _ Hs _ _ E) as (E1 & _). }
  split; [by eapply Hat|split; [done|by eapply Hat]|by eapply Hat|done| |].
  - intros i e Ee Hi E. destruct (entry_pages_data _ _ _ _ _ _ _ Hd Ee (cur_in_pages e Hi)) as (bs & wr & l & Ed). congruence.
  - destruct (sees_aligned _ _ _ _ _ Hs P2) as (Hal & Hpos & Htop).
    apply (page_of_byte (g_c G) (g_c G)); unfold PAGE_SIZE in *; lia.
Qed.

Lemma ok_former G K t σ w : txn_ok G K (t, σ, w) -> exists U k cont d b, owns w U k /\ former w G cont d b.
Proof.
  destruct t; simpl.
  - intros (V & cont & d & o & n & b & ls & a & la & cb & Hs & Htx & _).
    exists (dom V), (K - S (length ls))%nat, cont, d, b. split; [apply (sees_owns _ _ _ Hs)|by eapply txn_former].
  - intros (V & cont & d & o & n & b & Hs & Htx & _).
    exists (dom V), K, cont, d, b. split; [apply (sees_owns _ _ _ Hs)|by eapply txn_former].
Qed.

(** ** A fault that the handler cannot repair *)
Lemma find_not_there w G cont d b : former w G cont d b ->
  find_by_key d (SLAB_ENTRY_SEARCH_KEY (g_c G) SE_SEARCH_NORMAL) w = Ok None w.
Proof.
  intros [_ _ Hb Ht Hne _]. unfold find_by_key, gets. f_equal.
  pose (f := fun y => d_maddr (se_data_current (se_at w y))).
  assert (Hf : forall y, y ∈ inorder (sd_maddr_root d) -> key_in b y = f y).
  { intros y Hy. destruct (tr_in _ _ _ Ht y Hy) as (E1 & _ & e & E2 & _). unfold f, se_at, key_in. by rewrite E1, Hb. }
  change (RB_FIND (fun _ y => cmp_ptr (g_c G) (f y)) (sd_maddr_root d) 0 = None).
  apply RB_FIND_none; [by eapply key_sorted_ext; [|apply Ht]|]. intros x Hx E. rewrite <- (Hf x Hx) in E.
  destruct (tr_in _ _ _ Ht x Hx) as (_ & _ & e & E2 & Hi). unfold key_in in E. rewrite E2 in E. by apply (Hne _ e E2 Hi).
Qed.

Lemma read_page {T} `{PageType T} w a p (x : T) : page_at w a = Some p -> as_page p = Some x -> read (T := T) a w = Ok x w.
Proof. intros E1 E2. unfold read, bind, load, from_opt. by rewrite E1, E2. Qed.

Lemma read_cont w a c : page_at w a = Some (PgCont c) -> read (T := container) a w = Ok c w.
Proof. intros E. by apply (read_page _ _ _ _ E). Qed.
Lemma read_dir w a d : page_at w a = Some (PgDir d) -> read (T := slab_dir) a w = Ok d w.
Proof. intros E. by apply (read_page _ _ _ _ E). Qed.

Lemma handler_fails w G cont d b : former w G cont d b -> CONTAINERS w = Some (g_c G) ->
  exists w', handle_memory_update (g_c G) w = Fail HandleError w' /\ w_file w' = w_file w.
Proof.
  intros Hf Hc. pose proof Hf as [H1 [H2 H3] _ _ _ H7]. unfold handle_memory_update.
  assert (Ed : current_dir w = Ok (g_sd G) w).
  { unfold current_dir, get_container, bind. rewrite Hc, (read_cont _ _ _ H1). by rewrite H2. }
  rewrite (bind_run _ _ _ _ _ Ed).
  assert (Es : exists w1, w_stat STATS_INC_FAULTS w = Ok tt w1 /\ w_file w1 = w_file w /\ forall a, page_at w1 a = page_at w a) by by eexists.
  destruct Es as (w1 & Es & Ew & Hp). rewrite (bind_run _ _ _ _ _ Es).
  assert (Hf1 : former w1 G cont d b) by (eapply former_pages; [exact Hf|intros a _; apply Hp]). cbv zeta.
  rewrite (bind_run _ _ _ _ _ (read_dir _ _ _ (proj2 (fo_dir _ _ _ _ _ Hf1)))).
  rewrite H7.
  rewrite (bind_run _ _ _ _ _ (find_not_there _ _ _ _ _ Hf1)). by exists w1.
Qed.

Lemma upd_cont_fails (s : clst fmst) G cont d b f : former (cl_world s) G cont d b -> CONTAINERS (cl_world s) = Some (g_c G) ->
  writable (cl_world s) (g_c G) = false ->
  exists s', upd_cont f s = Fail HandleError s' /\ w_file (cl_world s') = w_file (cl_world s).
Proof.
  intros Hf Hc Hw. destruct (handler_fails _ _ _ _ _ Hf Hc) as (w' & E & Ew). unfold upd_cont, on_world, zoom, get_container, bind.
  rewrite Hc. unfold upd. rewrite (bind_run _ _ _ _ _ (read_cont _ _ _ (fo_cont _ _ _ _ _ Hf))).
  unfold write, store, bind, gets. rewrite Hw. simpl. rewrite E. by eexists.
Qed.

(** ** Properties *)

(** C4 A restart does not succeed.  A process ends at any moment, in a
    transaction or between two; a new one finds the file, as long as it was or
    longer, and the same range of addresses free.  Then [container_restore]
    maps the file where it was, stores into the container page, which is mapped
    without write permission, and the fault handler, which looks the page up in
    the tree of the former process, ends the process with an error.  The file
    is as the former process has left it. *)
Theorem container_restore_fails G K t σ (w0 : world fmst) (s : clst fmst) fuel e m :
  txn_ok G K (t, σ, w0) -> vm_of (w_pa w0) !! g_c G = Some CONTAINER_LIMA_ADDRESS ->
  file_again (w_pa w0) (w_pa (cl_world s)) m -> w_file (cl_world s) = w_file w0 ->
  exists s', container_restore fuel e 0 s = Fail HandleError s' /\ w_file (cl_world s') = w_file w0.
Proof.
  intros Hok Hc Ha Hfile. destruct (ok_former _ _ _ _ _ Hok) as (U & k & cont & d & b & Ho & Hf).
  pose proof (reopened _ _ U k e m Ho Ha) as Hr. destruct (proj1 (wp_run _ _ _) Hr) as ([] & s1 & E1 & Es & Hvm).
  set (w1 := set_w_pa s1 (cl_world s)).
  assert (Hf1 : former (set_CONTAINERS (Some (g_c G)) w1) G cont d b).
  { eapply former_pages; [exact Hf|]. intros a [p Ep]. unfold page_at in *. destruct (vm_of (w_pa w0) !! a) as [l|] eqn:El; [|done].
    change (w_pa (set_CONTAINERS (Some (g_c G)) w1)) with s1. rewrite (proj1 (Hvm a l El)). simpl. by rewrite Hfile. }
  assert (E0 : on_world (on_pa (page_allocator_init e)) s = Ok tt (set_cl_world w1 s)).
  { unfold on_world, on_pa, zoom. change (page_allocator_init e (w_pa (cl_world s))) with (fixed_mapper_init e (w_pa (cl_world s))). by rewrite E1. }
  assert (Em : on_world (mappage CONTAINER_LIMA_ADDRESS) (set_cl_world w1 s) = Ok (g_c G) (set_cl_world w1 s)).
  { unfold on_world, mappage, on_pa, zoom. change (w_pa (cl_world (set_cl_world w1 s))) with s1. rewrite fixed_mappage.
    rewrite Es, (fixed_linear _ _ _ _ _ Ho Hc). done. }
  destruct (upd_cont_fails (set_cl_world (set_CONTAINERS (Some (g_c G)) w1) s) G cont d b (fun c => c)) as (s' & Eu & Ew).
  - exact Hf1.
  - done.
  - unfold writable. change (prot_of (w_pa _)) with (prot_of s1). by rewrite (proj2 (Hvm _ _ Hc)).
  - exists s'. split; [|by rewrite Ew]. unfold container_restore.
    rewrite (bind_run _ _ _ _ _ (eq_refl : check_cid 0 s = Ok tt s)), (bind_run _ _ _ _ _ E0), (bind_run _ _ _ _ _ Em).
    assert (Es' : on_world (modify (set_CONTAINERS (Some (g_c G)))) (set_cl_world w1 s) = Ok tt (set_cl_world (set_CONTAINERS (Some (g_c G)) w1) s)) by done.
    rewrite (bind_run _ _ _ _ _ Es'). unfold bind at 1. by rewrite Eu.
Qed.

(** The example, and a new process that finds its file. *)
Lemma container_restore_fails_witness : exists (w0 : world fmst) p (s s' : clst fmst),
  demo w0 p /\ cl_world s = new_process w0 /\ container_restore 100 demo_env 0 s = Fail HandleError s'.
Proof.
  destruct demo_exists as (w & p & H). destruct (do_mapper _ _ _ _ _ _ _ _ H) as [Hz _].
  pose (s := Clst (new_process w) (Htable 0 0 []) (Htable 0 0 []) (Vec 0 0 None) SLeaf ∅ true).
  destruct (container_restore_fails (demo_geom p) 58 false demo_mem w s 100 demo_env 64) as (s' & E & _).
  - exact (demo_idle w p H).
  - destruct (demo_lookups w p H) as (Lc & _). destruct (sees_shows _ _ _ (do_sees _ _ _ _ _ _ _ _ H) _ _ Lc) as (_ & _ & Ev).
    rewrite <- Hz. exact Ev.
  - exact (demo_again w p H).
  - reflexivity.
  - exists w, p, s, s'. split; [exact H|]. split; [reflexivity|exact E].
Defined.
