(* ===== verification/NewCont.v ===== *)
(** * A new container: [container_init] of [cont.c] and [slab_dir_init] of [slab.c]

    A container that was just created satisfies the invariant of [Heap.v]: its
    28 entries are free, and no object is allocated.  From there on every
    [slab_palloc] returns an object of its own ([slab_palloc_correct],
    [slab_pallocs_disjoint]), as long as free entries and zero pages are left
    and the slab keeps its one bucket. *)
From Stdlib Require Import ZArith Lia.
From stdpp Require Import base numbers gmap option list.
From S2P Require Import Prelude Macros Bitstring Vector Htable Queue Process RBTree FixedMapper PageAlloc NlLaws Brk Splay.
From S2P Require Import SlabLayout World Demo Snapshot Slab Alloc Checkpoint Txn Restore Recovery Index Remap Heap Palloc Closure Cont.
Open Scope Z_scope.

(** ** The free list grows *)

(** The entries [0 .. n - 1] of the bucket [sb], in this order. *)
Definition entries_upto (sb n : Z) : list Z := se_addr sb <$> seqZ 0 n.

Lemma entries_upto_S sb n : 0 <= n -> entries_upto sb (n + 1) = entries_upto sb n ++ [se_addr sb n].
Proof. intros Hn. unfold entries_upto. rewrite seqZ_app by lia. by rewrite fmap_app. Qed.

Lemma elem_of_entries_upto sb n se : se ∈ entries_upto sb n <-> exists i, 0 <= i < n /\ se = se_addr sb i.
Proof.
  unfold entries_upto. rewrite list_elem_of_fmap. split.
  - intros (i & -> & Hi%elem_of_seqZ). exists i. split; [lia|done].
  - intros (i & Hi & ->). exists i. split; [done|]. apply elem_of_seqZ. lia.
Qed.

Lemma NoDup_entries_upto sb n : NoDup (entries_upto sb n).
Proof.
  unfold entries_upto. apply NoDup_fmap_2_strong; [|apply NoDup_seqZ]. intros i j _ _. apply se_addr_inj.
Qed.

Lemma links_snoc b b' l : forall p x y, chain b p (l ++ [x]) -> NoDup (l ++ [x]) ->
  (forall z e, z ∈ l -> entry_of b z = Some e -> exists e', entry_of b' z = Some e' /\ se_list e' = se_list e) ->
  (exists e, entry_of b' x = Some e /\ se_list e = Some y) -> (exists e, entry_of b' y = Some e /\ se_list e = None) ->
  chain b' p ((l ++ [x]) ++ [y]).
Proof.
  induction l as [|z l IH]; intros p x y Hc Hnd Hk (ex & Ex & Lx) (ey & Ey & Ly); simpl in *.
  - destruct Hc as (-> & _). split; [done|]. exists ex. split; [done|]. split; [done|]. by exists ey.
  - destruct Hc as (-> & e & Ee & Hc). apply NoDup_cons in Hnd as [_ Hnd]. split; [done|]. destruct (Hk z e) as (e' & Ee' & Le); [by left|done|].
    exists e'. split; [done|]. rewrite Le. apply IH; [done|done| |by exists ex|by exists ey]. intros u eu Hu. apply Hk. by right.
Qed.

Section create.
Context {PS : Type} `{AM : AllocatorMalloc PS} `{AB : !AllocatorBrk PS}.
Implicit Types (w : world PS) (V : gmap Z pinfo) (k : nat).
#[local] Existing Instance seen_stepping | 0.

(** The free list after the first [n] entries. *)
Record queue_upto (sb : Z) (b : slab_bucket) (q : stailq Z) (n : Z) : Prop := {
  qu_chain : chain b (stqh_first q) (entries_upto sb n);
  qu_last : stqh_last q = if n =? 0 then SHead else SNext (se_addr sb (n - 1));
}.

Lemma wp_free_entry w V k sb lb b sd ld d i (Q : unit -> world PS -> Prop) :
  seen w V k -> page_address sb -> zlen (sb_entries b) = SLAB_BUCKET_ENTRIES -> 0 <= i < SLAB_BUCKET_ENTRIES -> sd <> sb ->
  V !! sb = Some (PInfo (PgBucket b) true lb) -> V !! sd = Some (PInfo (PgDir d) true ld) -> queue_upto sb b (sd_free_list d) i ->
  (forall w' b' q, seen w' (<[sd := PInfo (PgDir (set_sd_free_list q d)) true ld]> (<[sb := PInfo (PgBucket b') true lb]> V)) k -> globals w' = globals w ->
     same_links b b' -> queue_upto sb b' q (i + 1) -> Q tt w') ->
  wp (on_free_list sd (fun q => STAILQ_INSERT_TAIL q (se_addr sb i))) Q w.
Proof using AB.
  intros Hs Ha Hlen Hi Hne Eb Ed [Hc Hl] HQ. destruct (zget_total (sb_entries b) i) as [e Ei]; [lia|].
  destruct (addr_of_entry sb Ha b i e Hlen Ei) as (A1 & A2 & A3).
  set (b1 := put_entry b (se_addr sb i) (set_se_list None e)). assert (Hl1 : same_links b b1) by by apply same_links_put.
  assert (E1 : entry_of b1 (se_addr sb i) = Some (set_se_list None e)) by by eapply entry_put.
  assert (Hoth1 : forall j, 0 <= j < SLAB_BUCKET_ENTRIES -> j <> i -> entry_of b1 (se_addr sb j) = entry_of b (se_addr sb j)).
  { intros j Hj Hji. destruct (addr_at sb Ha j Hj) as (_ & B2 & _). apply entry_put_ne; [by rewrite A2, B2|rewrite A2; lia]. }
  unfold on_free_list. apply wp_bind. eapply wp_read_view; [exact Hs|exact Ed|done|]. apply wp_bind.
  unfold STAILQ_INSERT_TAIL. apply wp_bind. eapply (wp_upd_se (SV := seen)); [exact Hs|unfold bucket_in; by rewrite A1|exact A3|].
  rewrite A1. fold b1. intros w1 Hs1 Hg1. apply wp_bind. unfold store_last. rewrite Hl. destruct (Z.eqb_spec i 0) as [->|Hi0].
  - apply wp_ret, wp_ret. cbn [stqh_first]. eapply wp_upd; [exact Hs1|by vlook|done|]. intros w2 Hs2 Hg2.
    eapply (HQ w2 b1); [exact Hs2|congruence|exact Hl1|]. split; [|done]. cbn [stqh_first]. unfold entries_upto. simpl. split; [done|]. by eexists.
  - destruct (zget_total (sb_entries b) (i - 1)) as [x Ex]; [lia|]. destruct (addr_of_entry sb Ha b (i - 1) x Hlen Ex) as (B1 & B2 & B3).
    assert (E2 : entry_of b1 (se_addr sb (i - 1)) = Some x) by (by rewrite Hoth1 by lia).
    set (b2 := put_entry b1 (se_addr sb (i - 1)) (set_se_list (Some (se_addr sb i)) x)). assert (Hl2 : same_links b1 b2) by by apply same_links_put.
    assert (Hoth2 : forall j, 0 <= j < SLAB_BUCKET_ENTRIES -> j <> i - 1 -> entry_of b2 (se_addr sb j) = entry_of b1 (se_addr sb j)).
    { intros j Hj Hji. destruct (addr_at sb Ha j Hj) as (_ & C2 & _). apply entry_put_ne; [by rewrite B2, C2|rewrite B2; lia]. }
    apply wp_bind. eapply (wp_upd_se (SV := seen)); [exact Hs1|unfold bucket_in; rewrite B1; by vlook|exact E2|].
    rewrite B1, insert_insert_eq. fold b2. intros w2 Hs2 Hg2. apply wp_ret, wp_ret. cbn [stqh_first].
    eapply wp_upd; [exact Hs2|by vlook|done|]. intros w3 Hs3 Hg3.
    eapply (HQ w3 b2); [exact Hs3|congruence|by transitivity b1|]. split.
    + cbn [stqh_first]. replace (entries_upto sb (i + 1)) with ((entries_upto sb (i - 1) ++ [se_addr sb (i - 1)]) ++ [se_addr sb i]).
      2: { rewrite <- entries_upto_S, Z.sub_add, <- entries_upto_S by lia. done. }
      eapply (links_snoc b b2); [by rewrite <- entries_upto_S, Z.sub_add by lia|rewrite <- entries_upto_S, Z.sub_add by lia; apply NoDup_entries_upto| | |].
      * intros z ez (j & Hj & ->)%elem_of_entries_upto Ez. exists ez. by rewrite Hoth2, Hoth1 by lia.
      * eexists. split; [eapply entry_put, E2|done].
      * eexists. rewrite Hoth2 by lia. split; [exact E1|done].
    + cbn [stqh_last]. destruct (Z.eqb_spec (i + 1) 0); [lia|]. by replace (i + 1 - 1) with i by lia.
Qed.

Lemma wp_free_entries w V k sb lb b sd ld d (Q : unit -> world PS -> Prop) :
  seen w V k -> page_address sb -> zlen (sb_entries b) = SLAB_BUCKET_ENTRIES -> sd <> sb ->
  V !! sb = Some (PInfo (PgBucket b) true lb) -> V !! sd = Some (PInfo (PgDir d) true ld) -> sd_free_list d = STAILQ_INIT ->
  (forall w' b' q, seen w' (<[sd := PInfo (PgDir (set_sd_free_list q d)) true ld]> (<[sb := PInfo (PgBucket b') true lb]> V)) k -> globals w' = globals w ->
     same_links b b' -> chain b' (stqh_first q) (entries_upto sb SLAB_BUCKET_ENTRIES) -> Q tt w') ->
  wp (free_entries sd sb) Q w.
Proof using AB.
  intros Hs Ha Hlen Hne Eb Ed Ef HQ. unfold free_entries.
  apply (wp_for (fun i w' => exists b' q, seen w' (<[sd := PInfo (PgDir (set_sd_free_list q d)) true ld]> (<[sb := PInfo (PgBucket b') true lb]> V)) k /\
    globals w' = globals w /\ same_links b b' /\ queue_upto sb b' q i)).
  - exists b, STAILQ_INIT. rewrite (insert_id V sb) by done. rewrite insert_id by (rewrite Ed; destruct d; simpl in *; by subst).
    split_and!; [done|done|done|]. by split.
  - intros i w1 Hi (b1 & q1 & Hs1 & Hg1 & Hl1 & Hq1). change (0 + Z.of_nat (Z.to_nat SLAB_BUCKET_ENTRIES)) with SLAB_BUCKET_ENTRIES in Hi.
    assert (Hlen1 : zlen (sb_entries b1) = SLAB_BUCKET_ENTRIES).
    { rewrite <- Hlen. destruct Hl1 as (_ & _ & Hl1%(f_equal length)). rewrite !length_fmap in Hl1. unfold zlen. lia. }
    eapply wp_free_entry; [exact Hs1|done|exact Hlen1|exact Hi|done|by vlook|by vlook|exact Hq1|].
    intros w2 b2 q2 Hs2 Hg2 Hl2 Hq2. exists b2, q2. split_and!; [|congruence|by transitivity b1|done].
    replace (<[sd := PInfo (PgDir (set_sd_free_list q2 d)) true ld]> (<[sb := PInfo (PgBucket b2) true lb]> V)) with
      (<[sd := PInfo (PgDir (set_sd_free_list q2 (set_sd_free_list q1 d))) true ld]> (<[sb := PInfo (PgBucket b2) true lb]>
        (<[sd := PInfo (PgDir (set_sd_free_list q1 d)) true ld]> (<[sb := PInfo (PgBucket b1) true lb]> V)))); [done|].
    rewrite (insert_insert_ne _ sb sd), insert_insert_eq, insert_insert_eq by done. done.
  - intros w1 (b1 & q1 & Hs1 & Hg1 & Hl1 & Hq1). change (0 + Z.of_nat (Z.to_nat SLAB_BUCKET_ENTRIES)) with SLAB_BUCKET_ENTRIES in Hq1.
    eapply HQ; [exact Hs1|done|done|apply Hq1].
Qed.

(** ** The pages of the directory *)
Definition first_node (entries : Z) (r : Z * Z) : slab_node :=
  let l := <[0%nat := NRef r.1 r.2]> (replicate (Z.to_nat entries) (NRef 0 0)) in SlabNode 1 l l.

Lemma append_first entries r : 0 < entries -> append_ref r (zero_node entries) = Some (first_node entries r).
Proof using.
  intros He. assert (Hz : zset (replicate (Z.to_nat entries) (NRef 0 0)) 0 (NRef r.1 r.2) =
    Some (<[0%nat := NRef r.1 r.2]> (replicate (Z.to_nat entries) (NRef 0 0)))).
  { destruct (zset_total (replicate (Z.to_nat entries) (NRef 0 0)) 0 (NRef r.1 r.2)) as [l El]; [unfold zlen; rewrite length_replicate; lia|].
    rewrite El. by apply zset_Some in El as [_ ->]. }
  unfold append_ref, node_set_current, node_set_snapshot. cbn [zero_node n_index n_current n_snapshot]. rewrite Hz. cbn [mbind option_bind n_snapshot n_index n_current].
  by rewrite Hz.
Qed.

Lemma first_node_get entries r : 0 < entries -> zget (n_current (first_node entries r)) 0 = Some (NRef r.1 r.2) /\
  zget (n_snapshot (first_node entries r)) 0 = Some (NRef r.1 r.2).
Proof using.
  intros He. assert (E : zget (replicate (Z.to_nat entries) (NRef 0 0)) 0 = Some (NRef 0 0)).
  { unfold zget. change (Z.to_nat 0) with 0%nat. apply lookup_replicate. split; [done|lia]. }
  split; exact (zget_insert _ 0 _ _ E).
Qed.

Definition new_dir (r : Z * Z) (q : stailq Z) (v : vector Z) : slab_dir := SlabDir Leaf Leaf q 0 (first_node SLAB_DIR_ENTRIES r) v.

(** The view when the pages of a directory have been added. *)
Definition new_view V (sd ld so lo si li sb lb : Z) (b : slab_bucket) (q : stailq Z) (v : vector Z) : gmap Z pinfo :=
  <[sd := PInfo (PgDir (new_dir (so, lo) q v)) true ld]> (<[sb := PInfo (PgBucket b) true lb]>
  (<[si := PInfo (PgInner (first_node SLAB_INNER_ENTRIES (sb, lb))) true li]>
  (<[so := PInfo (PgOuter (first_node SLAB_OUTER_ENTRIES (si, li))) true lo]> V))).

Lemma wp_upd_outer w V k a p l n f n' (Q : unit -> world PS -> Prop) :
  seen w V k -> V !! a = Some (PInfo p true l) -> as_page (T := outer_node) p = Some (Outer n) -> f n = Some n' ->
  (forall w', seen w' (<[a := PInfo (PgOuter n') true l]> V) k -> globals w' = globals w -> Q tt w') -> wp (upd_outer a f) Q w.
Proof using AB.
  intros Hs E Ep Ef HQ. unfold upd_outer. apply wp_bind. eapply wp_read_view; [exact Hs|exact E|exact Ep|].
  apply wp_bind. eapply wp_from_opt; [exact Ef|]. unfold write. by eapply storing_store.
Qed.

Lemma wp_upd_inner_page w V k a p l n f n' (Q : unit -> world PS -> Prop) :
  seen w V k -> V !! a = Some (PInfo p true l) -> as_page (T := inner_node) p = Some (Inner n) -> f n = Some n' ->
  (forall w', seen w' (<[a := PInfo (PgInner n') true l]> V) k -> globals w' = globals w -> Q tt w') -> wp (upd_inner a f) Q w.
Proof using AB.
  intros Hs E Ep Ef HQ. unfold upd_inner. apply wp_bind. eapply wp_read_view; [exact Hs|exact E|exact Ep|].
  apply wp_bind. eapply wp_from_opt; [exact Ef|]. unfold write. by eapply storing_store.
Qed.

Lemma wp_upd_dir w V k a p l d f n' (Q : unit -> world PS -> Prop) :
  seen w V k -> V !! a = Some (PInfo p true l) -> as_page (T := slab_dir) p = Some d -> f (sd_node d) = Some n' ->
  (forall w', seen w' (<[a := PInfo (PgDir (set_sd_node n' d)) true l]> V) k -> globals w' = globals w -> Q tt w') -> wp (upd_dir a f) Q w.
Proof using AB.
  intros Hs E Ep Ef HQ. unfold upd_dir. apply wp_bind. eapply wp_read_view; [exact Hs|exact E|exact Ep|].
  apply wp_bind. eapply wp_from_opt; [exact Ef|]. unfold write. by eapply storing_store.
Qed.

Lemma wp_slab_dir_init w V k (Q : Z * Z -> world PS -> Prop) : seen w V (4 + k) ->
  (forall w' sd ld so lo si li sb lb b q v, (forall x, x ∈ [sd; so; si; sb] -> V !! x = None) -> NoDup [sd; so; si; sb] ->
     seen w' (new_view V sd ld so lo si li sb lb b q v) k -> same_mode w w' -> w_sizes w' = w_sizes w ->
     sb_id b = NEXT_SLAB_BUCKET_ID w -> erase <$> sb_entries b = replicate (Z.to_nat SLAB_BUCKET_ENTRIES) zero_entry ->
     chain b (stqh_first q) (entries_upto sb SLAB_BUCKET_ENTRIES) -> vector_repr v [] -> v_capacity v = 2 -> Q (sd, ld) w') ->
  wp slab_dir_init Q w.
Proof using AB.
  intros Hs HQ. unfold slab_dir_init, slab_outer_init, slab_inner_init.
  apply wp_bind. eapply wp_getpage_new; [exact Hs|]. intros sd ld b1 w1 Hn1 Hp1 Hb1 Hs1 Hg1. rewrite Hb1 in Hs1 by done. clear Hb1. cbn [fst snd].
  apply wp_bind, wp_bind. eapply wp_stat_view; [exact Hs1|]. intros w2 Hs2 Hg2.
  eapply wp_getpage_new; [exact Hs2|]. intros so lo b3 w3 Hn3 Hp3 Hb3 Hs3 Hg3. rewrite Hb3 in Hs3 by done. clear Hb3.
  apply wp_bind, wp_bind. eapply wp_stat_view; [exact Hs3|]. intros w4 Hs4 Hg4.
  eapply wp_getpage_new; [exact Hs4|]. intros si li b5 w5 Hn5 Hp5 Hb5 Hs5 Hg5. rewrite Hb5 in Hs5 by done. clear Hb5.
  apply wp_bind. eapply wp_getpage_new; [exact Hs5|]. intros sb lb b6 w6 Hn6 Hp6 Hb6 Hs6 Hg6. rewrite Hb6 in Hs6 by done. clear Hb6. cbn [fst snd].
  apply wp_bind. unfold GET_NEXT_BUCKET_ID. eapply wp_ok; [reflexivity|].
  assert (Hg : globals w6 = globals w) by congruence. assert (Hid : NEXT_SLAB_BUCKET_ID w6 = NEXT_SLAB_BUCKET_ID w) by (unfold globals in Hg; congruence).
  rewrite Hid. set (w7 := set_next_ids _ _ w6). apply (seen_next_ids _ _ _ (u32 (NEXT_SLAB_BUCKET_ID w + 1)) (NEXT_SLAB_ENTRY_ID w6)) in Hs6. fold w7 in Hs6.
  repeat match goal with E : <[_:=_]> _ !! _ = None |- _ => apply lookup_insert_None in E as [? ?] end.
  assert (Ha : page_address sb).
  { destruct (sees_aligned _ _ _ sb (PInfo PgZero true lb) (sn_sees _ _ _ Hs6)) as (Y1 & Y2 & Y3); [by vlook|]. split_and!; [done|done|unfold PAGE_SIZE in *; lia]. }
  apply wp_bind. eapply wp_upd; [exact Hs6|by vlook|reflexivity|]. intros w8 Hs8 Hg8.
  destruct (Z.eqb_spec sd 0), (Z.eqb_spec so 0), (Z.eqb_spec si 0), (Z.eqb_spec sb 0); try lia. cbn [orb when]. apply wp_bind, wp_ret.
  apply wp_bind. eapply wp_upd_dir; [exact Hs8|by vlook|reflexivity|by apply append_first|]. intros w9 Hs9 Hg9.
  apply wp_bind. eapply wp_upd; [exact Hs9|by vlook|done|]. intros w10 Hs10 Hg10.
  apply wp_bind. eapply wp_upd; [exact Hs10|by vlook|done|]. intros w11 Hs11 Hg11.
  apply wp_bind. eapply wp_upd; [exact Hs11|by vlook|done|]. intros w12 Hs12 Hg12.
  apply wp_bind. eapply wp_upd_outer; [exact Hs12|by vlook|reflexivity|by apply append_first|]. intros w13 Hs13 Hg13.
  apply wp_bind. eapply wp_upd_inner_page; [exact Hs13|by vlook|reflexivity|by apply append_first|]. intros w14 Hs14 Hg14.
  apply wp_bind. eapply wp_free_entries; [exact Hs14|exact Ha| |done|by vlook|by vlook|done|]; [done|].
  intros w15 b q Hs15 Hg15 (L1 & _ & L3) Hc. apply wp_bind. eapply wp_read_view; [exact Hs15|by vlook|done|]. apply wp_bind.
  assert (Height : 0 < 8) by lia. pose proof (VECTOR_INIT_repr 8 Height (sd_vector zero_dir) ltac:(lia)) as Hv.
  destruct (proj1 (wp_run _ _ _) Hv) as ([] & v & Ev & Hv1 & Hv2). cbn [sd_vector set_sd_free_list set_sd_size_root set_sd_maddr_root set_sd_node] in *.
  rewrite Ev. unfold write. eapply storing_store; [exact Hs15|by vlook|done|]. intros w16 Hs16 Hg16. apply wp_ret.
  assert (Hg' : globals w16 = globals w7) by congruence. destruct (globals_same _ _ Hg') as [Hm' Hz']. destruct (globals_same _ _ Hg) as [Hm Hz].
  eapply (HQ w16 sd ld so lo si li sb lb b q v); [| | |transitivity w6; [exact Hm|exact Hm']|rewrite Hz'; change (w_sizes w7) with (w_sizes w6); exact Hz|exact L1|rewrite L3; exact (fmap_replicate erase _ zero_entry)|exact Hc|exact Hv1|exact Hv2].
  - intros x Hx. do 4 (apply elem_of_cons in Hx as [->|Hx]; [done|]). by apply elem_of_nil in Hx.
  - rewrite !NoDup_cons, !not_elem_of_cons. split_and!; try done; try apply not_elem_of_nil; constructor.
  - match type of Hs16 with seen _ ?W _ => replace (new_view V sd ld so lo si li sb lb b q v) with W; [exact Hs16|] end.
    unfold new_view. apply map_eq. intros x.
    destruct (decide (x = sd)) as [->|?]; [by vlook|]. destruct (decide (x = sb)) as [->|?]; [by vlook|].
    destruct (decide (x = si)) as [->|?]; [by vlook|]. destruct (decide (x = so)) as [->|?]; [by vlook|].
    by rewrite !lookup_insert_ne by done.
Qed.

(** ** The invariant of a new directory *)
Lemma new_view_other V sd ld so lo si li sb lb b q v c i : c ∉ [sd; so; si; sb] ->
  <[c := i]> (new_view V sd ld so lo si li sb lb b q v) = new_view (<[c := i]> V) sd ld so lo si li sb lb b q v.
Proof using.
  rewrite !not_elem_of_cons. intros (H1 & H2 & H3 & H4 & _). unfold new_view.
  by rewrite (insert_insert_ne _ c sd), (insert_insert_ne _ c sb), (insert_insert_ne _ c si), (insert_insert_ne _ c so) by done.
Qed.

Lemma unused_entry b i e : erase <$> sb_entries b = replicate (Z.to_nat SLAB_BUCKET_ENTRIES) zero_entry -> zget (sb_entries b) i = Some e ->
  SLAB_ENTRY_IS_INIT e = false /\ d_bitmap (se_data_current e) = 0 /\ pages_of e = [] /\ r_maddr (se_ptr_current e) = 0.
Proof using.
  intros He Hi%zget_Some_nat. assert (E : erase e = zero_entry).
  { assert (El : (erase <$> sb_entries b) !! Z.to_nat i = Some (erase e)) by (rewrite list_lookup_fmap; by rewrite Hi).
    rewrite He in El. by apply lookup_replicate in El as [? _]. }
  destruct e. injection E as -> -> -> -> -> ->. done.
Qed.

Lemma new_heap w V c lc cont sd ld so lo si li sb lb b q v :
  CONTAINERS w = Some c -> copynswap_enabled w = false -> V !! c = Some (PInfo (PgCont cont) true lc) -> n_maddr (current_slab cont) = sd -> n_maddr (snapshot_slab cont) = sd ->
  (forall x, x ∈ [sd; so; si; sb] -> V !! x = None) -> NoDup [sd; so; si; sb] ->
  sb_id b = 0 -> erase <$> sb_entries b = replicate (Z.to_nat SLAB_BUCKET_ENTRIES) zero_entry ->
  chain b (stqh_first q) (entries_upto sb SLAB_BUCKET_ENTRIES) -> vector_repr v [] -> v_capacity v = 2 ->
  heap (Geom c sd so si sb ld li lb) w (new_view V sd ld so lo si li sb lb b q v) cont (new_dir (so, lo) q v)
    (first_node SLAB_OUTER_ENTRIES (si, li)) (first_node SLAB_INNER_ENTRIES (sb, lb)) b [] None (entries_upto sb SLAB_BUCKET_ENTRIES).
Proof using.
  intros Hc Hm Ec Hsd Hsnap Hna Hnd Hid He Hch Hv Hcap. pose proof (fun i e => unused_entry b i e He) as Hun.
  rewrite !NoDup_cons, !not_elem_of_cons in Hnd. destruct Hnd as ((N1 & N2 & N3 & _) & (N4 & N5 & _) & (N6 & _) & _).
  assert (Hcn : c <> sd /\ c <> so /\ c <> si /\ c <> sb).
  { split_and!; intros ->; rewrite Hna in Ec; try done; rewrite !elem_of_cons; tauto. }
  destruct Hcn as (C1 & C2 & C3 & C4).
  assert (Hlen : zlen (sb_entries b) = SLAB_BUCKET_ENTRIES).
  { apply (f_equal length) in He. rewrite length_fmap, length_replicate in He. unfold zlen. rewrite He. done. }
  destruct (first_node_get SLAB_DIR_ENTRIES (so, lo) eq_refl) as [D1 D2]. destruct (first_node_get SLAB_OUTER_ENTRIES (si, li) eq_refl) as [O1 O2].
  destruct (first_node_get SLAB_INNER_ENTRIES (sb, lb) eq_refl) as [I1 I2].
  assert (Hold : old_pages (sb_entries b) = 0%nat).
  { rewrite (old_pages_same (replicate (Z.to_nat SLAB_BUCKET_ENTRIES) zero_entry)); [done|]. rewrite He. symmetry. exact (fmap_replicate erase _ zero_entry). }
  split; cbn [g_c g_sd g_so g_si g_sb g_ld g_li g_lb].
  - done.
  - unfold new_view. split; cbn [g_c g_sd g_so g_si g_sb g_ld g_li g_lb].
    + done.
    + exists true, lc. by vlook.
    + done.
    + by vlook.
    + exists true, lo. by vlook.
    + by vlook.
    + split; [done|]. exists lo, (NRef so lo). by split_and!.
    + split; [done|]. exists li, (NRef si li). by split_and!.
    + by split.
    + done.
  - rewrite I2. by eexists.
  - unfold bucket_in, new_view. by vlook.
  - done.
  - split; [split|..].
    + done.
    + intros i e Ei. destruct (Hun i e Ei) as (_ & _ & -> & _). apply NoDup_singleton.
    + intros i j ei ej a Ei _ _. destruct (Hun i ei Ei) as (_ & _ & -> & _). intros Ha. by apply elem_of_nil in Ha.
    + intros i e a Ei. destruct (Hun i e Ei) as (_ & _ & -> & _). intros Ha. by apply elem_of_nil in Ha.
    + intros i e Ei. by destruct (Hun i e Ei) as (_ & _ & _ & ?).
    + intros i e Ei Hi. destruct (Hun i e Ei) as (Hi' & _). congruence.
    + intros i e Ei _. by destruct (Hun i e Ei) as (_ & ? & _).
  - split; cbn [new_dir sd_maddr_root inorder].
    + constructor.
    + intros se Hse. by apply elem_of_nil in Hse.
    + intros i e Ei Hi. destruct (Hun i e Ei) as (Hi' & _). congruence.
  - cbn [new_dir sd_maddr_root]. exists 0%nat. constructor.
  - split; cbn [new_dir sd_vector].
    + done.
    + rewrite Hcap. unfold zlen. simpl. lia.
    + by rewrite Hold.
    + intros se Hse. by apply elem_of_nil in Hse.
  - split; cbn [new_dir sd_size_root inorder].
    + exists 0%nat. constructor.
    + constructor.
    + intros es Hes. by apply elem_of_nil in Hes.
  - split; cbn [new_dir sd_free_list].
    + done.
    + apply NoDup_entries_upto.
    + intros se. rewrite elem_of_entries_upto. split.
      * intros (i & Hi & ->). split; [|done]. destruct (zget_total (sb_entries b) i) as [e Ei]; [lia|]. exists i, e. split_and!; [done|done|]. by destruct (Hun i e Ei).
      * intros [(i & e & -> & Ei & _) _]. exists i. split; [|done]. apply zget_lt in Ei. lia.
Qed.

(** ** [container_init] *)

(** A process without a container: the page allocator can be initialised,
    then has [K] pages, all zero, and gives out the page of the container
    first. *)
Record starts (e : env) (s : clst PS) (K : nat) : Prop := {
  st_none : CONTAINERS (cl_world s) = None;
  st_mode : copynswap_enabled (cl_world s) = false;
  st_first : NEXT_SLAB_BUCKET_ID (cl_world s) = 0;
  st_init : wp (on_pa (page_allocator_init e)) (fun _ w1 => seen w1 ∅ K /\ globals w1 = globals (cl_world s) /\
    forall r w2, getpage PA_PROT_WRITE w1 = Ok r w2 -> r.2 = CONTAINER_LIMA_ADDRESS) (cl_world s);
}.

Lemma wp_upd_cont w V k c cont p lc f (s : clst PS) (Q : unit -> clst PS -> Prop) :
  cl_world s = w -> CONTAINERS w = Some c -> seen w V k -> V !! c = Some (PInfo p true lc) -> as_page (T := container) p = Some cont ->
  (forall w', seen w' (<[c := PInfo (PgCont (f cont)) true lc]> V) k -> globals w' = globals w -> Q tt (set_cl_world w' s)) ->
  wp (upd_cont f) Q s.
Proof using AB.
  intros <- Hc Hs Ec Ep HQ. unfold upd_cont, on_world. apply wp_zoom, wp_bind. eapply wp_ok; [unfold get_container; by rewrite Hc|].
  eapply wp_upd; [exact Hs|exact Ec|exact Ep|]. exact HQ.
Qed.

Lemma wp_closure_init (s : clst PS) (Q : unit -> clst PS -> Prop) :
  (forall s', cl_world s' = cl_world s -> Q tt s') -> wp closure_init Q s.
Proof using.
  intros HQ. destruct htable_init_wf as (ht & Eh & _). assert (Height : 0 < 8) by lia.
  pose proof (VECTOR_INIT_repr 8 Height (pptr_vec s) ltac:(lia)) as Hv. destruct (proj1 (wp_run _ _ _) Hv) as ([] & v & Ev & _).
  unfold closure_init, wp. rewrite Eh, Ev. by apply HQ.
Qed.

Lemma seen_cont w V k c : seen w V k -> seen (set_CONTAINERS c w) V k.
Proof using. intros [[[Ho Hs] Hu] Hl]. split; [split|]; [split; [done|]|done|done]. intros a i Ea. by apply Hs. Qed.

(** What is left when the container page is known: its directory. *)
Lemma wp_container_dir (s : clst PS) K c : let w := cl_world s in
  CONTAINERS w = Some c -> copynswap_enabled w = false -> NEXT_SLAB_BUCKET_ID w = 0 ->
  seen w (<[c := PInfo PgZero true CONTAINER_LIMA_ADDRESS]> ∅) (4 + K) ->
  wp (upd_cont (fun x => Container 0 (current_slab x) (snapshot_slab x) (cont_flags x)) ;;;
      let! d := on_world slab_dir_init in
      upd_cont (fun x => Container (cont_id x) (NRef d.1 d.2) (snapshot_slab x) (cont_flags x)) ;;;
      upd_cont (fun x => Container (cont_id x) (current_slab x) (current_slab x) (cont_flags x)) ;;;
      ret c)
    (fun c s' => exists V G d o n b, let r := NRef (g_sd G) (g_ld G) in
      seen (cl_world s') V K /\ heap G (cl_world s') V (Container 0 r r 0) d o n b [] None (entries_upto (g_sb G) SLAB_BUCKET_ENTRIES) /\ c = g_c G) s.
Proof using AB.
  intros w Hc Hm Hid Hs. apply wp_bind. eapply wp_upd_cont; [reflexivity|exact Hc|exact Hs|by vlook|reflexivity|]. intros w4 Hs4 Hg4. rewrite insert_insert_eq in Hs4.
  apply wp_bind. unfold on_world at 1. apply wp_zoom. cbn [cl_world set_cl_world].
  eapply wp_slab_dir_init; [exact Hs4|]. intros w5 sd ld so lo si li sb lb b q v Hna Hnd Hs5 Hmm Hz5 Hbid He Hch Hv Hcap.
  assert (Hcn : c ∉ [sd; so; si; sb]).
  { intros Hin. specialize (Hna c Hin). by rewrite lookup_insert_eq in Hna. }
  pose proof Hcn as Hcn'. rewrite !not_elem_of_cons in Hcn'. destruct Hcn' as (C1 & C2 & C3 & C4 & _).
  assert (Hc5 : CONTAINERS w5 = Some c) by (destruct Hmm as [_ ->]; by rewrite (globals_cont _ _ Hg4)).
  apply wp_bind. eapply wp_upd_cont; [reflexivity|exact Hc5|exact Hs5|unfold new_view; by vlook|reflexivity|]. intros w6 Hs6 Hg6. rewrite new_view_other, insert_insert_eq in Hs6 by done.
  apply wp_bind. eapply wp_upd_cont; [reflexivity|cbn [cl_world set_cl_world]; by rewrite (globals_cont _ _ Hg6)|exact Hs6|unfold new_view; by vlook|reflexivity|].
  intros w7 Hs7 Hg7. rewrite new_view_other, insert_insert_eq in Hs7 by done. apply wp_ret. cbn [cl_world set_cl_world] in *.
  eexists _, (Geom c sd so si sb ld li lb), _, _, _, _. cbv zeta. cbn [g_sd g_ld g_sb g_c]. split_and!; [exact Hs7| |done].
  eapply new_heap; try done.
  - by rewrite (globals_cont _ _ Hg7), (globals_cont _ _ Hg6).
  - rewrite (globals_mode _ _ Hg7), (globals_mode _ _ Hg6). destruct Hmm as [-> _]. by rewrite (globals_mode _ _ Hg4).
  - apply lookup_insert_eq.
  - intros x Hx. specialize (Hna x Hx). apply lookup_insert_None in Hna as [_ Hne]. by rewrite lookup_insert_ne.
  - rewrite Hbid, <- Hid. unfold globals in Hg4. subst w. congruence.
Qed.

Lemma wp_container_init e (s : clst PS) K : starts e s (5 + K) ->
  wp (container_init e) (fun c s' => exists V G d o n b, let r := NRef (g_sd G) (g_ld G) in
    seen (cl_world s') V K /\ heap G (cl_world s') V (Container 0 r r 0) d o n b [] None (entries_upto (g_sb G) SLAB_BUCKET_ENTRIES) /\ c = g_c G) s.
Proof using AB.
  intros [Hn Hm Hid Hi]. unfold container_init. apply wp_bind. unfold container_getid. apply wp_bind. unfold on_world at 1. apply wp_zoom, wp_gets.
  cbn [cl_world set_cl_world]. rewrite Hn. apply wp_ret. apply wp_bind. unfold check_cid. cbn [Z.leb Z.ltb Z.compare andb negb when]. apply wp_ret.
  apply wp_bind. unfold on_world at 1. apply wp_zoom. cbn [cl_world set_cl_world].
  eapply wp_mono; [exact Hi|]. intros [] w1 (Hs1 & Hg1 & Hplace). apply wp_bind. unfold on_world at 1. apply wp_zoom. cbn [cl_world set_cl_world].
  eapply wp_mono; [eapply wp_also; [eapply (wp_getpage_new w1 ∅ (4 + K) PA_PROT_WRITE (fun r w2 => exists c l, r = (c, l) /\ 0 < c /\
    seen w2 (<[c := PInfo PgZero true l]> ∅) (4 + K) /\ globals w2 = globals w1)); [exact Hs1|]|exact Hplace]|].
  { intros c l b w2 _ Hc Hb Hs2 Hg2. rewrite Hb in Hs2 by done. by exists c, l. }
  intros r w2 [(c & l & -> & Hc & Hs2 & Hg2) Hl]. cbn [fst snd] in *. subst l.
  destruct (Z.eqb_spec c 0); [lia|]. cbn [when]. apply wp_bind, wp_ret. rewrite Z.eqb_refl. cbn [negb when]. apply wp_bind, wp_ret.
  apply wp_bind, wp_closure_init. intros s1 Ew1. change (cl_world s1 = w2) in Ew1.
  apply wp_bind. unfold on_world at 1. apply wp_zoom, wp_modify. rewrite Ew1.
  assert (Hg : globals w2 = globals (cl_world s)) by congruence. assert (E1 : NEXT_SLAB_BUCKET_ID w2 = 0) by (unfold globals in Hg; congruence).
  apply (wp_container_dir (set_cl_world (set_CONTAINERS (Some c) w2) s1)); [done|by rewrite <- Hm, <- (globals_mode _ _ Hg)|exact E1|]. by apply seen_cont.
Qed.
End create.

(** ** Properties *)

Lemma nothing_live {PS} `{PL : PageAllocatorLaws PS} G (w : world PS) V k cont d o n b ls m s i : seen w V k ->
  heap G w V cont d o n b ls None (entries_upto (g_sb G) SLAB_BUCKET_ENTRIES) -> ~ live V b m s i.
Proof.
  intros Hs Hh (j & e & im & bs & Ej & Hj & _). pose proof (zget_lt _ _ _ Ej) as Hlt.
  rewrite (cr_len _ _ _ (bo_ready _ _ _ (hp_entries _ _ _ _ _ _ _ _ _ _ _ Hh))) in Hlt.
  destruct (proj1 (fo_elem _ _ _ _ _ (hp_free _ _ _ _ _ _ _ _ _ _ _ Hh) (se_addr (g_sb G) j))) as [(i' & e' & E%se_addr_inj & Ei' & Hi') _].
  - apply elem_of_entries_upto. by exists j.
  - subst i'. congruence.
Qed.

(** C11 [container_init] creates a container whose slab satisfies the invariant
    of the slab: the page of the container leads to a directory that is both
    the current and the snapshot slab, the free list holds the 28 entries of
    the one bucket in order, and no object is allocated. *)
Theorem container_init_correct {PS} `{AM : AllocatorMalloc PS} `{AB : !AllocatorBrk PS} e (s : clst PS) K :
  starts e s (5 + K) ->
  wp (container_init e) (fun c s' => exists V G d o n b, let r := NRef (g_sd G) (g_ld G) in
    CONTAINERS (cl_world s') = Some c /\ page_at (cl_world s') c = Some (PgCont (Container 0 r r 0)) /\ seen (cl_world s') V K /\
    heap G (cl_world s') V (Container 0 r r 0) d o n b [] None (entries_upto (g_sb G) SLAB_BUCKET_ENTRIES) /\
    forall m size i, ~ live V b m size i) s.
Proof.
  intros Hst. eapply wp_mono; [by eapply wp_container_init|]. intros c s' (V & G & d & o & n & b & Hs & Hh & ->). exists V, G, d, o, n, b.
  pose proof (hp_path _ _ _ _ _ _ _ _ _ _ _ Hh) as [P1 (wr & l & P2) _ _ _ _ _ _ _]. cbv zeta.
  destruct (sees_shows _ _ _ (sn_sees _ _ _ Hs) _ _ P2) as (Ep & _). split_and!; [done|exact Ep|exact Hs|exact Hh|].
  intros m size i. by eapply nothing_live.
Qed.

Definition first_place_ok (s : fmst) : bool :=
  match page_allocator_getpage PA_PROT_WRITE s with Ok r _ => r.2 =? 0 | Fail _ _ => false end.

Definition demo_start : clst fmst :=
  Clst (World (blank (2 ^ 40)) ∅ ∅ None 0 0 ∅ true false) (Htable 0 0 []) (Htable 0 0 []) (Vec 0 0 None) SLeaf ∅ false.

Lemma demo_starts : starts demo_env demo_start 64.
Proof.
  split; [done|done|done|]. unfold on_pa. apply wp_zoom. change (page_allocator_init demo_env) with (fixed_mapper_init demo_env).
  assert (Hc : match fixed_mapper_init demo_env (blank (2 ^ 40)) with Ok _ s => first_place_ok s | Fail _ _ => false end = true) by (vm_compute; reflexivity).
  pose proof demo_init as Hi. unfold wp in *. change (w_pa (cl_world demo_start)) with (blank (2 ^ 40)).
  destruct (fixed_mapper_init demo_env (blank (2 ^ 40))) as [x s|f s]; [|done]. split_and!; [split; [split; [split|]|]|done|].
  - unfold owns. rewrite dom_empty_L. exact Hi.
  - done.
  - intros l [y Hy]. assert (Ey : (∅ : gmap Z page) !! l = Some y) by exact Hy. by rewrite lookup_empty in Ey.
  - intros es [y Hy]. assert (Ey : (∅ : gmap Z slab_entry_size) !! es = Some y) by exact Hy. by rewrite lookup_empty in Ey.
  - intros r w2 Er%getpage_inv. unfold first_place_ok in Hc. change (w_pa (set_w_pa s (cl_world demo_start))) with s in Er. rewrite Er in Hc. by apply Z.eqb_eq in Hc.
Qed.

Lemma container_init_correct_witness : exists e (s : clst fmst),
  wp (container_init e) (fun c s' => CONTAINERS (cl_world s') = Some c /\ exists G V d o n b,
    heap G (cl_world s') V (Container 0 (NRef (g_sd G) (g_ld G)) (NRef (g_sd G) (g_ld G)) 0) d o n b [] None (entries_upto (g_sb G) SLAB_BUCKET_ENTRIES)) s.
Proof.
  exists demo_env, demo_start. eapply wp_mono; [exact (container_init_correct demo_env demo_start 59 demo_starts)|].
  intros c s' (V & G & d & o & n & b & Hc & _ & _ & Hh & _). split; [exact Hc|]. exists G, V, d, o, n, b. exact Hh.
Defined.

(** A world with a new container. *)
Lemma fresh_heap : exists (w : world fmst) V G cont d o n b, seen w V 59 /\
  heap G w V cont d o n b [] None (entries_upto (g_sb G) SLAB_BUCKET_ENTRIES).
Proof.
  pose proof (wp_container_init demo_env demo_start 59 demo_starts) as Hw. destruct (proj1 (wp_run _ _ _) Hw) as (c & s' & _ & V & G & d & o & n & b & Hs & Hh & _). clear Hw.
  exists (cl_world s'), V, G, (Container 0 (NRef (g_sd G) (g_ld G)) (NRef (g_sd G) (g_ld G)) 0), d, o, n, b. split; [exact Hs|exact Hh].
Qed.

(** C7 [slab_palloc] of 1 to 4096 bytes on a slab that satisfies the invariant,
    with a free entry and three free pages left, whichever of the paths this
    leaves is taken (an entry of the size class with room, or a free entry; not
    the new bucket that is opened when no entry is free): the result is the address of an object of the
    rounded size that was free; afterwards this object is allocated and
    otherwise exactly the objects that were allocated before, whose bytes are
    as they were; the entries in use keep their page and size; the invariant
    holds again, and at most one free entry and three pages have been used. *)
Theorem slab_palloc_correct {PS} `{AM : AllocatorMalloc PS} `{AB : !AllocatorBrk PS} G (w : world PS) V k cont d o n b ls se l size :
  seen w V (3 + k) -> heap G w V cont d o n b ls None (se :: l) -> 0 < size <= PAGE_SIZE ->
  wp (slab_palloc size) (fun r w' => exists V' k' d' n' b' ls' l' m idx, (k <= k')%nat /\ (l' = se :: l \/ l' = l) /\
    seen w' V' k' /\ heap G w' V' cont d' o n' b' ls' None l' /\
    r = obj_addr m (ROUND8 size) idx /\ ~ live V b m (ROUND8 size) idx /\ kept V V' b b' /\
    forall m' s' j, live V' b' m' s' j <-> live V b m' s' j \/ (m' = m /\ s' = ROUND8 size /\ j = idx)) w.
Proof.
  intros Hs Hh Hsz. eapply wp_mono; [by eapply wp_slab_palloc|].
  intros r w' (l' & Hl' & V' & k' & d' & n' & b' & ls' & m & idx & H1 & H2 & H3 & H4 & H5 & H6 & H7).
  exists V', k', d', n', b', ls', l', m, idx. by split_and!.
Qed.

Lemma slab_palloc_correct_witness : exists w : world fmst,
  wp (slab_palloc 100) (fun r w' => exists V' b' m idx, r = obj_addr m 104 idx /\ live V' b' m 104 idx) w.
Proof.
  destruct fresh_heap as (w & V & G & cont & d & o & n & b & Hs & Hh). exists w.
  assert (El : entries_upto (g_sb G) SLAB_BUCKET_ENTRIES = se_addr (g_sb G) 0 :: (se_addr (g_sb G) <$> seqZ 1 27)) by reflexivity. rewrite El in Hh.
  assert (Hsz : 0 < 100 <= PAGE_SIZE) by (split; [reflexivity|discriminate]).
  eapply wp_mono; [exact (slab_palloc_correct G w V 56 cont d o n b [] _ _ 100 Hs Hh Hsz)|].
  intros r w' (V' & k' & d' & n' & b' & ls' & l' & m & idx & _ & _ & _ & _ & Er & _ & _ & Hl). exists V', b', m, idx. split; [exact Er|].
  apply Hl. right. split; [reflexivity|split; reflexivity].
Defined.


