(* ===== verification/Objects.v ===== *)
(** * Allocated objects as memory

    What a program gets from [slab_palloc] and then uses with ordinary loads
    and stores: separate blocks of bytes.  A store goes through the signal
    handler of [snapshot.c] when its page is protected, which may copy the
    page, move the snapshot of the entry and record the entry; none of this
    can be seen in the objects.

    The abstract memory is a list of blocks; a byte of a new block is
    unspecified until it is written.  The theorem says that programs of
    allocations, loads and stores on a slab ([crun]) refine the programs on
    the blocks ([brun]). *)
From Stdlib Require Import ZArith Lia.
From stdpp Require Import base numbers gmap option list.
From S2P Require Import Prelude Macros Bitstring Vector Queue Process RBTree FixedMapper PageAlloc NlLaws Brk.
From S2P Require Import SlabLayout World Demo Snapshot Slab Alloc Checkpoint Txn Restore Recovery Index Remap Heap Palloc Cont NewCont.
Open Scope Z_scope.

(** ** Stores to the page of an entry *)
Section store.
Context {PS : Type} `{AM : AllocatorMalloc PS} `{AB : !AllocatorBrk PS}.
Implicit Types (w : world PS) (V : gmap Z pinfo) (k : nat).
#[local] Existing Instance seen_stepping | 0.

(** After stores that left [bs'] in the page of the entry [i]. *)
Record stored G w' V V' cont d' o n b b' ls' l i e bs' : Prop := {
  sr_heap : heap G w' V' cont d' o n b' ls' None l;
  sr_entry : exists e', zget (sb_entries b') i = Some e' /\ SLAB_ENTRY_IS_INIT e' = true /\ se_size e' = se_size e /\
    se_data_current e' = se_data_current e;
  sr_bytes : exists im, V' !! cur_page e = Some im /\ as_page (T := data_page) (pi_page im) = Some (Data bs');
  sr_others : forall j ej, zget (sb_entries b) j = Some ej -> SLAB_ENTRY_IS_INIT ej = true -> j <> i ->
    zget (sb_entries b') j = Some ej /\ V' !! cur_page ej = V !! cur_page ej;
  sr_back : forall j ej, zget (sb_entries b') j = Some ej -> j <> i -> zget (sb_entries b) j = Some ej;
}.

Lemma stored_wrote G w V cont d o n b ls l i e w1 V1 d1 b1 ls1 e1 bs1 w2 V2 d2 b2 ls2 bs2 :
  heap G w V cont d o n b ls None l -> zget (sb_entries b) i = Some e -> SLAB_ENTRY_IS_INIT e = true ->
  wrote G w w1 V V1 cont d d1 o n b b1 ls1 l i e e1 bs1 -> stored G w2 V1 V2 cont d2 o n b1 b2 ls2 l i e1 bs2 ->
  stored G w2 V V2 cont d2 o n b b2 ls2 l i e bs2.
Proof using.
  intros Hh Ei Hi [_ _ Hst Hsz Hdat _ Hfr] [H1 (e' & F1 & F2 & F3 & F4) H3 H4 H5].
  pose proof (fun j => entry_step_get _ _ _ _ _ _ _ j Hst) as Hz. split; [done| | | |].
  - exists e'. split_and!; [done|done|congruence|congruence].
  - unfold cur_page in *. by rewrite <- Hdat.
  - intros j ej Ej Hj Hne. destruct (H4 j ej) as [X1 X2]; [by rewrite Hz, decide_False|done|done|]. split; [done|]. rewrite X2.
    destruct (other_page _ _ _ _ _ _ _ _ _ _ _ _ Hh Ei Hi j ej _ Ej Hne (cur_in_pages ej Hj)) as (Y1 & Y2 & Y3 & Y4). by apply Hfr.
  - intros j ej Ej Hne. specialize (H5 j ej Ej Hne). by rewrite Hz, decide_False in H5.
Qed.

Lemma stored_same G w V cont d o n b ls l i e im bs : heap G w V cont d o n b ls None l -> zget (sb_entries b) i = Some e ->
  SLAB_ENTRY_IS_INIT e = true -> V !! cur_page e = Some im -> as_page (T := data_page) (pi_page im) = Some (Data bs) ->
  stored G w V V cont d o n b b ls l i e bs.
Proof using. intros Hh Ei Hi Em Eb. split; [done|by exists e|by exists im|done|done]. Qed.

Lemma wp_store_byte G w V k cont d o n b ls l i e im bs a x (Q : unit -> world PS -> Prop) :
  seen w V (if pi_writable im then k else S k) -> heap G w V cont d o n b ls None l -> zget (sb_entries b) i = Some e -> SLAB_ENTRY_IS_INIT e = true ->
  V !! cur_page e = Some im -> as_page (T := data_page) (pi_page im) = Some (Data bs) -> zlen bs = PAGE_SIZE -> bytes_ok bs ->
  cur_page e <= a < cur_page e + PAGE_SIZE ->
  (forall w' V' d' b' ls' e', seen w' V' k -> globals w' = globals w ->
     wrote G w w' V V' cont d d' o n b b' ls' l i e e' (<[Z.to_nat (a - cur_page e) := u8 x]> bs) -> Q tt w') ->
  wp (store_byte a x) Q w.
Proof using AB.
  intros Hs Hh Ei Hi Em Eb Hlen Hok Ha HQ. unfold store_byte.
  destruct (in_page_addr w V (if pi_writable im then k else S k) (cur_page e) im bs a 0) as (Er & Ec & Hr); [split; [by eapply sn_sees|done|done|done|lia]|].
  apply wp_bind, wp_gets. rewrite Ec, Er. apply wp_bind. eapply wp_read_view; [exact Hs|exact Em|exact Eb|]. cbn [the_bytes].
  destruct (zset_total bs (a - cur_page e) (u8 x)) as [bs' Ebs]; [lia|]. rewrite Ebs. apply wp_bind, wp_ret.
  pose proof (bytes_ok_zset _ _ _ _ Hok (u8_range x) Ebs) as Hok'. apply zset_Some in Ebs as [_ ->].
  eapply (wp_write_entry G w V k cont d o n b ls l i e im bs); [exact Hs|exact Hh|exact Ei|exact Hi|exact Em|exact Eb|unfold zlen; by rewrite length_insert|done|].
  intros w' V' d' b' ls' e' Hs' Hg Hw. by eapply HQ.
Qed.

Lemma wp_store_in_entry xs : forall G w V k cont d o n b ls l i e im bs a (Q : unit -> world PS -> Prop),
  seen w V (if pi_writable im then k else S k) -> heap G w V cont d o n b ls None l -> zget (sb_entries b) i = Some e -> SLAB_ENTRY_IS_INIT e = true ->
  V !! cur_page e = Some im -> as_page (T := data_page) (pi_page im) = Some (Data bs) -> zlen bs = PAGE_SIZE -> bytes_ok bs ->
  cur_page e <= a -> a + zlen xs <= cur_page e + PAGE_SIZE ->
  (forall w' V' k' d' b' ls', (k <= k')%nat -> seen w' V' k' -> globals w' = globals w ->
     stored G w' V V' cont d' o n b b' ls' l i e (put_bytes bs (Z.to_nat (a - cur_page e)) xs) -> Q tt w') ->
  wp (store_bytes a xs) Q w.
Proof using AB.
  induction xs as [|x xs IH]; intros G w V k cont d o n b ls l i e im bs a Q Hs Hh Ei Hi Em Eb Hlen Hok Ha Hend HQ; cbn [store_bytes put_bytes].
  - apply wp_ret. eapply HQ; [|exact Hs|done|by eapply stored_same]. destruct (pi_writable im); lia.
  - unfold zlen in Hend. rewrite length_cons in Hend. apply wp_bind.
    eapply wp_store_byte; [exact Hs|exact Hh|exact Ei|exact Hi|exact Em|exact Eb|exact Hlen|exact Hok|lia|].
    intros w1 V1 d1 b1 ls1 e1 Hs1 Hg1 Hw. pose proof Hw as [Hh1 _ Hst1 Hsz1 Hdat1 [la Ep1] _].
    assert (Hc : cur_page e1 = cur_page e) by (unfold cur_page; by rewrite Hdat1).
    set (bs1 := <[Z.to_nat (a - cur_page e) := u8 x]> bs) in *.
    eapply (IH G w1 V1 k cont d1 o n b1 ls1 l i e1 (PInfo (PgData bs1) true la) bs1); [exact Hs1|exact Hh1| |by eapply es_init|by rewrite Hc|done| | |lia|unfold zlen; lia|].
    + by rewrite (entry_step_get _ _ _ _ _ _ _ _ Hst1), decide_True.
    + unfold bs1, zlen. by rewrite length_insert.
    + unfold bs1. apply Forall_insert; [done|apply u8_range].
    + intros w2 V2 k2 d2 b2 ls2 Hk Hs2 Hg2 Hr. rewrite Hc in Hr. replace (Z.to_nat (a + 1 - cur_page e)) with (S (Z.to_nat (a - cur_page e))) in Hr by lia.
      eapply HQ; [exact Hk|exact Hs2|congruence|by eapply stored_wrote].
Qed.
End store.

(** ** What a store keeps *)
Section kept_objects.
Context {PS : Type} `{PL : PageAllocatorLaws PS}.
Implicit Types (w : world PS) (V : gmap Z pinfo).

Lemma bitmap_kept e e' bs bs' x : 0 < se_size e <= PAGE_SIZE -> se_size e mod 8 = 0 -> se_size e' = se_size e ->
  se_data_current e' = se_data_current e -> (forall j, Z.of_nat j < dataoffset_of (se_size e) -> bs' !! j = bs !! j) ->
  0 <= x < capacity_of (se_size e) -> bitz (bitmap_of e' bs') x = bitz (bitmap_of e bs) x.
Proof.
  intros H1 H2 Hs Hd Hb Hx. destruct (layout _ H1 H2) as (_ & Hcap & _). unfold bitmap_of. rewrite Hs, Hd.
  destruct (SLAB_LARGE_ALLOC <=? se_size e); [done|]. unfold bitz, zget. destruct (Z.leb_spec 0 (x / 8)); [|done].
  rewrite Hb; [done|]. rewrite Z2Nat.id by done. apply Z.div_lt_upper_bound; lia.
Qed.

(** The same objects are allocated. *)
Lemma stored_live G w w' V V' cont d d' o n b b' ls ls' l i e im bs bs' : heap G w V cont d o n b ls None l ->
  zget (sb_entries b) i = Some e -> SLAB_ENTRY_IS_INIT e = true -> V !! cur_page e = Some im -> as_page (T := data_page) (pi_page im) = Some (Data bs) ->
  stored G w' V V' cont d' o n b b' ls' l i e bs' -> (forall j, Z.of_nat j < dataoffset_of (se_size e) -> bs' !! j = bs !! j) ->
  forall m s x, live V' b' m s x <-> live V b m s x.
Proof.
  intros Hh Ei Hi Em Eb [_ (e' & F1 & F2 & F3 & F4) (im' & G1 & G2) H4 H5] Hb m s x.
  destruct (heap_used _ _ _ _ _ _ _ _ _ _ _ _ _ Hh Ei Hi) as [U1 U2 _ _ _ _].
  assert (Hc : cur_page e' = cur_page e) by (unfold cur_page; by rewrite F4).
  pose proof (bitmap_kept e e' bs bs' x U1 U2 F3 F4 Hb) as Hbit.
  split; intros (j & ej & imj & bsj & E1 & E2 & E3 & E4 & -> & -> & E7 & E8); destruct (decide (j = i)) as [->|Hne].
  - assert (ej = e') as -> by congruence. rewrite Hc in *. rewrite F3 in *. assert (bsj = bs') as -> by congruence.
    exists i, e, im, bs. rewrite <- Hbit by lia. split_and!; (done || lia).
  - pose proof (H5 j ej E1 Hne) as Ej. destruct (H4 j ej Ej E2 Hne) as [_ HV]. rewrite HV in E3. exists j, ej, imj, bsj. split_and!; (done || lia).
  - assert (ej = e) as -> by congruence. assert (bsj = bs) as -> by congruence. exists i, e', im', bs'. rewrite Hc, F3, Hbit by lia. split_and!; (done || lia).
  - destruct (H4 j ej E1 E2 Hne) as [Ej HV]. exists j, ej, imj, bsj. rewrite HV. split_and!; (done || lia).
Qed.

(** The entry of an object. *)
Lemma live_entry G w V cont d o n b ls l m s x : heap G w V cont d o n b ls None l -> live V b m s x -> exists i e im bs,
  zget (sb_entries b) i = Some e /\ SLAB_ENTRY_IS_INIT e = true /\ m = cur_page e /\ s = se_size e /\
  V !! m = Some im /\ as_page (T := data_page) (pi_page im) = Some (Data bs) /\ zlen bs = PAGE_SIZE /\ bytes_ok bs /\
  0 <= x < capacity_of s /\ 0 < s <= PAGE_SIZE /\ 0 <= dataoffset_of s /\ (s ∉ overflowing -> dataoffset_of s + (x + 1) * s <= PAGE_SIZE).
Proof.
  intros Hh (i & e & im & bs & E1 & E2 & E3 & E4 & -> & -> & E7 & _).
  destruct (heap_used _ _ _ _ _ _ _ _ _ _ _ _ _ Hh E1 E2) as [U1 U2 _ _ (im' & bs' & F1 & F2 & F3 & F4 & _) _].
  assert (im' = im) as -> by congruence. assert (bs' = bs) as -> by congruence. destruct (layout _ U1 U2) as (_ & _ & L3 & L4).
  exists i, e, im, bs. split_and!; [done..|lia|lia|lia|lia|lia|]. intros Hov%L4. nia.
Qed.

(** Two objects of one page are of one size. *)
Lemma live_same_page G w V cont d o n b ls l i e m s x : heap G w V cont d o n b ls None l -> live V b m s x ->
  zget (sb_entries b) i = Some e -> SLAB_ENTRY_IS_INIT e = true -> m = cur_page e -> s = se_size e.
Proof.
  intros Hh (j & ej & im & bs & E1 & E2 & _ & _ & -> & -> & _) Ei Hi Hm. destruct (decide (j = i)) as [->|Hne]; [congruence|].
  exfalso. eapply (cr_disjoint _ _ _ (bo_ready _ _ _ (hp_entries _ _ _ _ _ _ _ _ _ _ _ Hh)) j i ej e (cur_page ej)); [done..|by apply cur_in_pages|].
  rewrite Hm. by apply cur_in_pages.
Qed.
End kept_objects.

(** ** The abstract memory *)

(** The blocks, in the order of their allocation; [None] is a byte that was
    not written yet. *)
Notation block := (list (option Z)).
Notation blocks := (list (list (option Z))).

Inductive cmd :=
  | CPalloc (size : Z)
  | CStore (h : nat) (off : nat) (xs : list Z)   (** block [h], offset, bytes *)
  | CLoad (h : nat) (off : nat) (len : nat).

Definition bput (o : block) (off : nat) (xs : list Z) : block := take off o ++ (Some <$> xs) ++ drop (off + length xs) o.

(** One command: the blocks and what was loaded; [None] outside the blocks,
    and for the sizes whose objects do not fit their page. *)
Definition bstep (σ : blocks) (c : cmd) : option (blocks * list block) :=
  match c with
  | CPalloc size =>
      if (0 <? size) && (size <=? PAGE_SIZE) && negb (bool_decide (ROUND8 size ∈ overflowing))
      then Some (σ ++ [replicate (Z.to_nat size) None], []) else None
  | CStore h off xs =>
      match σ !! h with
      | Some o => if bool_decide (off + length xs <= length o)%nat && forallb (fun x => (0 <=? x) && (x <? 256)) xs
                  then Some (<[h := bput o off xs]> σ, []) else None
      | None => None
      end
  | CLoad h off len =>
      match σ !! h with
      | Some o => if bool_decide (off + len <= length o)%nat then Some (σ, [take len (drop off o)]) else None
      | None => None
      end
  end.

Fixpoint brun (σ : blocks) (cs : list cmd) : option (blocks * list block) :=
  match cs with
  | [] => Some (σ, [])
  | c :: cs' =>
      match bstep σ c with
      | Some (σ1, out1) => match brun σ1 cs' with Some (σ2, out2) => Some (σ2, out1 ++ out2) | None => None end
      | None => None
      end
  end.

(** The free entries and pages a program may need. *)
Definition entries_needed (c : cmd) : nat := match c with CPalloc _ => 1 | _ => 0 end.
Definition pages_needed (c : cmd) : nat := match c with CPalloc _ => 3 | CStore _ _ _ => 1 | CLoad _ _ _ => 0 end.
Definition entries (cs : list cmd) : nat := foldr (fun c n => entries_needed c + n)%nat 0%nat cs.
Definition pages (cs : list cmd) : nat := foldr (fun c n => pages_needed c + n)%nat 0%nat cs.

Lemma bput_length o off xs : (off + length xs <= length o)%nat -> length (bput o off xs) = length o.
Proof. intros H. unfold bput. rewrite !length_app, length_fmap, length_take, length_drop. lia. Qed.

Lemma bput_lookup o off xs j : (off + length xs <= length o)%nat ->
  bput o off xs !! j = if decide (off <= j < off + length xs)%nat then Some <$> xs !! (j - off)%nat else o !! j.
Proof.
  intros H. unfold bput. assert (Hl : length (take off o) = off) by (rewrite length_take; lia). case_decide as Hd.
  - rewrite lookup_app_r, lookup_app_l, list_lookup_fmap by (rewrite ?length_fmap; lia). by rewrite Hl.
  - destruct (decide (j < off)%nat).
    + rewrite lookup_app_l by lia. by rewrite lookup_take_lt.
    + rewrite lookup_app_r, lookup_app_r by (rewrite ?length_fmap; lia). rewrite lookup_drop, length_fmap, Hl. f_equal. lia.
Qed.

(** A loaded byte agrees with the specified one. *)
Definition agrees (o : block) (xs : list Z) : Prop := Forall2 (fun y x => forall v, y = Some v -> x = v) o xs.

(** ** The programs *)
Section programs.
Context {PS : Type} `{PA : PageAllocator PS}.
Notation M := (M (world PS)).

(** The program keeps the address of each block. *)
Definition cstep (hs : list Z) (c : cmd) : M (list Z * list (list Z)) :=
  match c with
  | CPalloc size => let! p := slab_palloc size in ret (hs ++ [p], [])
  | CStore h off xs => let! p := from_opt OutOfBounds (hs !! h) in store_bytes (p + Z.of_nat off) xs ;;; ret (hs, [])
  | CLoad h off len => let! p := from_opt OutOfBounds (hs !! h) in let! xs := load_bytes len (p + Z.of_nat off) in ret (hs, [xs])
  end.

Fixpoint crun (hs : list Z) (cs : list cmd) : M (list Z * list (list Z)) :=
  match cs with
  | [] => ret (hs, [])
  | c :: cs' => let! (hs1, out1) := cstep hs c in let! (hs2, out2) := crun hs1 cs' in ret (hs2, out1 ++ out2)
  end.
End programs.

(** ** The relation *)
Section relation.
Implicit Types (V : gmap Z pinfo) (h : Z * Z * Z).

Definition obj_start h : nat := Z.to_nat (dataoffset_of h.1.2 + h.2 * h.1.2).

Definition shows_block (bs : list Z) (start : nat) (o : block) : Prop := forall j v, o !! j = Some (Some v) -> bs !! (start + j)%nat = Some v.

(** The allocated object [h] holds the block [o]. *)
Record obj_rel V (b : slab_bucket) h (o : block) : Prop := {
  or_live : live V b h.1.1 h.1.2 h.2;
  or_fits : h.1.2 ∉ overflowing;
  or_len : zlen o <= h.1.2;
  or_shows : forall im bs, V !! h.1.1 = Some im -> as_page (T := data_page) (pi_page im) = Some (Data bs) -> shows_block bs (obj_start h) o;
}.

Record mem_rel V b (os : list (Z * Z * Z)) (hs : list Z) (σ : blocks) : Prop := {
  mr_nodup : NoDup os;
  mr_addr : hs = map (fun h => obj_addr h.1.1 h.1.2 h.2) os;
  mr_rel : Forall2 (obj_rel V b) os σ;
}.
End relation.

Section steps_rel.
Context {PS : Type} `{AM : AllocatorMalloc PS} `{AB : !AllocatorBrk PS}.
Implicit Types (w : world PS) (V : gmap Z pinfo) (k : nat).
#[local] Existing Instance seen_stepping | 0.

(** An object with unspecified bytes. *)
Lemma obj_rel_new V b m s x size : live V b m s x -> s ∉ overflowing -> 0 < size <= s ->
  obj_rel V b (m, s, x) (replicate (Z.to_nat size) None).
Proof using.
  intros Hl Ho Hs. split; cbn [fst snd]; [done|done| |].
  - unfold zlen. rewrite length_replicate. lia.
  - intros im bs _ _ j v Hj. by apply lookup_replicate in Hj as [? _].
Qed.

(** An allocation keeps the blocks. *)
Lemma obj_rel_kept G w V V' cont d o n b b' ls l h x : heap G w V cont d o n b ls None l -> kept V V' b b' ->
  live V' b' h.1.1 h.1.2 h.2 -> obj_rel V b h x -> obj_rel V' b' h x.
Proof using.
  intros Hh Hk Hl' [Hl H2 H3 H4]. split; [done|done|done|]. intros im' bs' Em' Eb' j v Hj.
  destruct (live_entry _ _ _ _ _ _ _ _ _ _ _ _ _ Hh Hl) as (i & e & im & bs & E1 & E2 & E3 & E4 & E5 & E6 & _ & _ & E7 & E8 & E9 & _).
  rewrite E3 in *. destruct (Hk i e im bs E1 E2 E5 E6) as (e1 & im1 & bs1 & _ & _ & _ & _ & F1 & F2 & F3).
  assert (bs' = bs1) as -> by congruence. rewrite F3; [by eapply H4|]. unfold obj_start. rewrite <- E4. nia.
Qed.

(** A store to one block keeps the others. *)
Lemma obj_rel_apart G w w' V V' cont d d' o n b b' ls ls' l i e im bs h h' off xs y :
  heap G w V cont d o n b ls None l -> zget (sb_entries b) i = Some e -> SLAB_ENTRY_IS_INIT e = true ->
  V !! cur_page e = Some im -> as_page (T := data_page) (pi_page im) = Some (Data bs) ->
  stored G w' V V' cont d' o n b b' ls' l i e (put_bytes bs (obj_start h + off) xs) ->
  h.1.1 = cur_page e -> h.1.2 = se_size e -> 0 <= h.2 -> Z.of_nat (off + length xs) <= h.1.2 -> 0 <= dataoffset_of h.1.2 ->
  h' <> h -> obj_rel V b h' y -> live V' b' h'.1.1 h'.1.2 h'.2 -> obj_rel V' b' h' y.
Proof using.
  intros Hh Ei Hi Em Eb Hst Hm Hs Hx Hlen Hdo Hne [Hl H2 H3 H4] Hl'. split; [done|done|done|]. intros im' bs' Em' Eb' j v Hj.
  destruct (live_entry _ _ _ _ _ _ _ _ _ _ _ _ _ Hh Hl) as (i' & e' & im1 & bs1 & E1 & E2 & E3 & E4 & E5 & E6 & _ & _ & [E7 _] & _).
  destruct Hst as [_ _ (im2 & G1 & G2) G3 _]. destruct (decide (i' = i)) as [->|Hii].
  - assert (e' = e) as -> by congruence. rewrite E3 in *. assert (bs1 = bs) as -> by congruence.
    assert (bs' = put_bytes bs (obj_start h + off) xs) as -> by congruence. pose proof (H4 im1 bs E5 E6 j v Hj) as Hb.
    assert (Hjl : Z.of_nat j < se_size e) by (apply lookup_lt_Some in Hj; unfold zlen in H3; lia).
    destruct h as [[m s] x], h' as [[m' s'] x']. unfold obj_start in *. cbn [fst snd] in *. subst m s m' s'.
    assert (x' < x \/ x < x') as [Hlt|Hlt] by (destruct (Z.lt_trichotomy x' x) as [?|[->|?]]; [by left|done|by right]).
    + rewrite put_bytes_before; [done|]. nia.
    + rewrite put_bytes_after; [done|]. nia.
  - destruct (G3 i' e' E1 E2 Hii) as [_ HV]. rewrite E3 in *. rewrite HV in Em'. exact (H4 im' bs' Em' Eb' j v Hj).
Qed.

(** The block that is stored to. *)
Lemma obj_rel_put V V' b b' h o off xs im bs im' : obj_rel V b h o -> live V' b' h.1.1 h.1.2 h.2 ->
  V !! h.1.1 = Some im -> as_page (T := data_page) (pi_page im) = Some (Data bs) ->
  V' !! h.1.1 = Some im' -> as_page (T := data_page) (pi_page im') = Some (Data (put_bytes bs (obj_start h + off) xs)) ->
  (off + length xs <= length o)%nat -> Forall (in_u 8) xs -> (obj_start h + off + length xs <= length bs)%nat ->
  obj_rel V' b' h (bput o off xs).
Proof using.
  intros [Hl H2 H3 H4] Hl' Em Eb Em' Eb' Hlen Hxs Hend. split; [done|done|unfold zlen; by rewrite bput_length|].
  intros im1 bs1 E1 E2 j v Hj. assert (bs1 = put_bytes bs (obj_start h + off) xs) as -> by congruence.
  rewrite bput_lookup in Hj by done. case_decide as Hd.
  - replace (obj_start h + j)%nat with (obj_start h + off + (j - off))%nat by lia. rewrite put_bytes_in by (done || lia).
    destruct (xs !! (j - off)%nat) as [z|]; [|discriminate Hj]. injection Hj as ->. reflexivity.
  - destruct (decide (j < off)%nat); [rewrite put_bytes_before by lia|rewrite put_bytes_after by lia]; by eapply H4.
Qed.
End steps_rel.

(** ** Each command refines its step *)
Section refine.
Context {PS : Type} `{AM : AllocatorMalloc PS} `{AB : !AllocatorBrk PS}.
Implicit Types (w : world PS) (V : gmap Z pinfo) (k f : nat).
#[local] Existing Instance seen_stepping | 0.

(** The blocks [σ] are objects of the slab, at the addresses [hs]; at least
    [k] pages and [f] entries are free. *)
Definition memory G k f cont o (hs : list Z) (σ : blocks) w : Prop := exists V k' d n b ls l os,
  (k <= k')%nat /\ seen w V k' /\ heap G w V cont d o n b ls None l /\ (f <= length l)%nat /\ mem_rel V b os hs σ.

Lemma mem_lookup V b os hs σ h y : mem_rel V b os hs σ -> σ !! h = Some y ->
  exists x, os !! h = Some x /\ hs !! h = Some (obj_addr x.1.1 x.1.2 x.2) /\ obj_rel V b x y.
Proof using.
  intros [_ -> Hr] Hy. destruct (Forall2_lookup_r _ _ _ _ _ Hr Hy) as (x & Hx & Hxy). exists x.
  split_and!; [done|by rewrite list_lookup_fmap, Hx|done].
Qed.

Lemma memory_address G k f cont o hs σ w h y : memory G k f cont o hs σ w -> σ !! h = Some y -> is_Some (hs !! h).
Proof using.
  intros (V & k' & d & n & b & ls & l & os & _ & _ & _ & _ & Hmr) Hy. destruct (mem_lookup _ _ _ _ _ _ _ Hmr Hy) as (x & _ & -> & _). by eexists.
Qed.

Lemma palloc_refines G k f cont o hs σ w size : memory G (3 + k) (S f) cont o hs σ w -> 0 < size <= PAGE_SIZE -> ROUND8 size ∉ overflowing ->
  wp (slab_palloc size) (fun p w' => memory G k f cont o (hs ++ [p]) (σ ++ [replicate (Z.to_nat size) None]) w') w.
Proof using AM AB.
  intros (V & k' & d & n & b & ls & l & os & Hk & Hs & Hh & Hf & [Hnd -> Hr]) Hsz Hov. destruct l as [|se l]; [simpl in Hf; lia|].
  replace k' with (3 + (k' - 3))%nat in Hs by lia. eapply wp_mono; [by eapply wp_slab_palloc|].
  intros p w' (l' & Hl' & V' & k1 & d' & n' & b' & ls' & m & x & Hk1 & Hs' & Hh' & -> & Hkept & Hno & Hlive).
  assert (Hnew : live V' b' m (ROUND8 size) x) by (apply Hlive; by right).
  exists V', k1, d', n', b', ls', l', (os ++ [(m, ROUND8 size, x)]). split_and!; [lia|done|done|destruct Hl' as [-> | ->]; simpl in *; lia|split].
  - apply NoDup_app. split_and!; [done| |apply NoDup_singleton]. intros h Hin ->%list_elem_of_singleton.
    apply list_elem_of_lookup in Hin as [j Hj]. destruct (Forall2_lookup_l _ _ _ _ _ Hr Hj) as (y & _ & [Hl _ _ _]). done.
  - by rewrite map_app.
  - apply Forall2_app; [|constructor; [|constructor]].
    + eapply Forall2_impl; [exact Hr|]. intros h y Hy. eapply obj_rel_kept; [exact Hh|exact Hkept|apply Hlive; left; apply Hy|exact Hy].
    + pose proof (ROUND8_size size Hsz). apply obj_rel_new; [done|done|lia].
Qed.

Lemma store_refines G k f cont o hs σ w h p off xs y : memory G (1 + k) f cont o hs σ w -> σ !! h = Some y -> hs !! h = Some p ->
  (off + length xs <= length y)%nat -> Forall (in_u 8) xs ->
  wp (store_bytes (p + Z.of_nat off) xs) (fun _ w' => memory G k f cont o hs (<[h := bput y off xs]> σ) w' /\ globals w' = globals w) w.
Proof using AB.
  intros (V & k' & d & n & b & ls & l & os & Hk & Hs & Hh & Hf & Hmr) Hy Hp Hlen Hxs.
  destruct (mem_lookup _ _ _ _ _ _ _ Hmr Hy) as (x & Ex & Ep & Hxy). pose proof Hxy as [Hl Hov Hfit _]. rewrite Hp in Ep. injection Ep as ->.
  destruct (live_entry _ _ _ _ _ _ _ _ _ _ _ _ _ Hh Hl) as (i & e & im & bs & E1 & E2 & E3 & E4 & E5 & E6 & E7 & E8 & [E9 _] & E10 & E11 & E12).
  specialize (E12 Hov). assert (Hst : Z.of_nat (obj_start x) = dataoffset_of x.1.2 + x.2 * x.1.2) by (unfold obj_start; nia).
  assert (Haddr : obj_addr x.1.1 x.1.2 x.2 = cur_page e + Z.of_nat (obj_start x)) by (unfold obj_addr; lia). rewrite Haddr.
  unfold zlen in Hfit. assert (Hlen' : Z.of_nat (off + length xs) <= x.1.2) by lia.
  eapply (wp_store_in_entry xs G w V (if pi_writable im then k' else k' - 1) cont d o n b ls l i e im bs);
    [|exact Hh|exact E1|exact E2|by rewrite <- E3|exact E6|exact E7|exact E8|lia|unfold zlen; nia|].
  { destruct (pi_writable im); [done|]. by replace (S (k' - 1)) with k' by lia. }
  intros w' V' k1 d' b' ls' Hk1 Hs' Hg Hwr. split; [|exact Hg]. replace (Z.to_nat (cur_page e + Z.of_nat (obj_start x) + Z.of_nat off - cur_page e)) with (obj_start x + off)%nat in Hwr by lia.
  rewrite E3 in *. pose proof (stored_live _ _ _ _ _ _ _ _ _ _ _ _ _ _ _ _ _ _ _ _ Hh E1 E2 E5 E6 Hwr) as Hlive.
  assert (Hge : dataoffset_of (se_size e) <= Z.of_nat (obj_start x)) by (rewrite <- E4; nia).
  specialize (Hlive ltac:(intros j Hj; apply put_bytes_before; lia)).
  exists V', k1, d', n, b', ls', l, os. split_and!; [destruct (pi_writable im); lia|done|by apply Hwr|done|].
  destruct Hmr as [Hnd Hhs Hr]. split; [done|done|]. apply Forall2_same_length_lookup. split.
  { rewrite length_insert. by eapply Forall2_length. }
  intros j h' z Ej Ez. destruct (decide (j = h)) as [->|Hne].
  - rewrite list_lookup_insert_eq in Ez by (by eapply lookup_lt_Some). injection Ez as <-. assert (h' = x) as -> by congruence.
    destruct (sr_bytes _ _ _ _ _ _ _ _ _ _ _ _ _ _ _ Hwr) as (im' & G1 & G2).
    eapply obj_rel_put; [exact Hxy|by rewrite E3; apply Hlive|by rewrite E3|exact E6|by rewrite E3|exact G2|done|done|unfold zlen, PAGE_SIZE in *; lia].
  - rewrite list_lookup_insert_ne in Ez by done. destruct (Forall2_lookup_l _ _ _ _ _ Hr Ej) as (z' & Ez' & Hz). assert (z' = z) as -> by congruence.
    eapply (obj_rel_apart G w w' V V'); [exact Hh|exact E1|exact E2|exact E5|exact E6|exact Hwr|exact E3|exact E4|lia|lia|lia| |exact Hz|apply Hlive, Hz].
    intros ->. by apply Hne, (NoDup_lookup os j h x).
Qed.

Lemma load_refines G k f cont o hs σ w h p off len y : memory G k f cont o hs σ w -> σ !! h = Some y -> hs !! h = Some p ->
  (off + len <= length y)%nat ->
  wp (load_bytes len (p + Z.of_nat off)) (fun xs w' => w' = w /\ agrees (take len (drop off y)) xs) w.
Proof using.
  intros (V & k' & d & n & b & ls & l & os & Hk & Hs & Hh & Hf & Hmr) Hy Hp Hlen.
  destruct (mem_lookup _ _ _ _ _ _ _ Hmr Hy) as (x & Ex & Ep & [Hl Hov Hfit Hsh]). rewrite Hp in Ep. injection Ep as ->.
  destruct (live_entry _ _ _ _ _ _ _ _ _ _ _ _ _ Hh Hl) as (i & e & im & bs & E1 & E2 & E3 & E4 & E5 & E6 & E7 & E8 & [E9 _] & E10 & E11 & E12).
  specialize (E12 Hov). assert (Hst : Z.of_nat (obj_start x) = dataoffset_of x.1.2 + x.2 * x.1.2) by (unfold obj_start; nia).
  assert (Haddr : obj_addr x.1.1 x.1.2 x.2 = x.1.1 + Z.of_nat (obj_start x)) by (unfold obj_addr; lia). rewrite Haddr. unfold zlen in *.
  eapply wp_load_bytes; [split; [by eapply sn_sees|exact E5|exact E6|exact E7|lia]|]. split; [done|].
  replace (Z.to_nat (x.1.1 + Z.of_nat (obj_start x) + Z.of_nat off - x.1.1)) with (obj_start x + off)%nat by lia.
  apply Forall2_same_length_lookup. unfold PAGE_SIZE in *. split; [rewrite !length_take, !length_drop; lia|].
  intros j u v Hu Hv z ->. apply lookup_take_Some in Hu as [Hu Hj]. rewrite lookup_take_lt, lookup_drop in Hv by done. rewrite lookup_drop in Hu.
  pose proof (Hsh im bs E5 E6 _ _ Hu) as Hz. rewrite Nat.add_assoc in Hz. congruence.
Qed.

Lemma cstep_refines G k f cont o hs σ w c σ' out : memory G (pages_needed c + k) (entries_needed c + f) cont o hs σ w -> bstep σ c = Some (σ', out) ->
  wp (cstep hs c) (fun r w' => memory G k f cont o r.1 σ' w' /\ Forall2 agrees out r.2) w.
Proof using AM AB.
  intros Hm. destruct c as [size|h off xs|h off len]; cbn [bstep cstep].
  - destruct (Z.ltb_spec 0 size), (Z.leb_spec size PAGE_SIZE); [|done..]. cbn [andb]. case_bool_decide as Hov; [done|]. cbn [negb]. intros [= <- <-].
    apply wp_bind. eapply wp_mono; [by eapply palloc_refines|]. intros p w' Hm'. apply wp_ret. by split; [|constructor].
  - destruct (σ !! h) as [y|] eqn:Hy; [|done]. case_bool_decide as Hlen; [|done]. cbn [andb]. destruct (forallb _ xs) eqn:Hb; [|done]. intros [= <- <-].
    destruct (memory_address _ _ _ _ _ _ _ _ _ _ Hm Hy) as [p Ep]. apply wp_bind. eapply wp_from_opt; [exact Ep|].
    apply wp_bind. eapply wp_mono; [eapply store_refines; [exact Hm|exact Hy|exact Ep|exact Hlen|]|].
    + apply Forall_forall. intros x Hx. apply list_elem_of_In in Hx. rewrite forallb_forall in Hb. specialize (Hb x Hx). unfold in_u. lia.
    + intros [] w' [Hm' _]. apply wp_ret. by split; [|constructor].
  - destruct (σ !! h) as [y|] eqn:Hy; [|done]. case_bool_decide as Hlen; [|done]. intros [= <- <-].
    destruct (memory_address _ _ _ _ _ _ _ _ _ _ Hm Hy) as [p Ep]. apply wp_bind. eapply wp_from_opt; [exact Ep|].
    apply wp_bind. eapply wp_mono; [by eapply load_refines|]. intros xs w' [-> Ha]. apply wp_ret. cbn [fst snd].
    split; [exact Hm|by repeat constructor].
Qed.

Lemma crun_refines cs : forall G hs σ w cont o k f σ' out, memory G (pages cs + k) (entries cs + f) cont o hs σ w -> brun σ cs = Some (σ', out) ->
  wp (crun hs cs) (fun r w' => memory G k f cont o r.1 σ' w' /\ Forall2 agrees out r.2) w.
Proof using AM AB.
  induction cs as [|c cs IH]; intros G hs σ w cont o k f σ' out Hm; cbn [brun crun].
  - intros [= <- <-]. apply wp_ret. by split; [|constructor].
  - destruct (bstep σ c) as [[σ1 out1]|] eqn:E1; [|done]. destruct (brun σ1 cs) as [[σ2 out2]|] eqn:E2; [|done]. intros [= <- <-].
    apply wp_bind. eapply wp_mono; [eapply cstep_refines; [|exact E1]|].
    + cbn [pages entries foldr] in Hm. by rewrite <- !Nat.add_assoc in Hm.
    + intros [hs1 o1] w1 [Hm1 Ho1]. apply wp_bind. eapply wp_mono; [by eapply IH|]. intros [hs2 o2] w2 [Hm2 Ho2]. apply wp_ret.
      split; [done|by apply Forall2_app].
Qed.
End refine.

(** Different blocks do not overlap. *)
Lemma memory_apart {PS} `{AM : AllocatorMalloc PS} G k f cont o hs σ (w : world PS) i j a a' y z : memory G k f cont o hs σ w -> i <> j ->
  hs !! i = Some a -> hs !! j = Some a' -> σ !! i = Some y -> σ !! j = Some z -> apart a (zlen y) a' (zlen z).
Proof.
  intros (V & k' & d & n & b & ls & l & os & _ & Hs & Hh & _ & Hm) Hne Ha Ha' Hy Hz.
  destruct (mem_lookup _ _ _ _ _ _ _ Hm Hy) as (x & Ex & Ep & [L1 F1 Z1 _]). destruct (mem_lookup _ _ _ _ _ _ _ Hm Hz) as (u & Eu & Eq & [L2 F2 Z2 _]).
  assert (a = obj_addr x.1.1 x.1.2 x.2) as -> by congruence. assert (a' = obj_addr u.1.1 u.1.2 u.2) as -> by congruence.
  assert (Hd : (x.1.1, x.1.2, x.2) <> (u.1.1, u.1.2, u.2)).
  { destruct x as [[x1 x2] x3], u as [[u1 u2] u3]. cbn [fst snd]. intros E. rewrite E in Ex. apply Hne. by eapply NoDup_lookup; [apply Hm|..]. }
  pose proof (live_apart _ _ _ _ _ _ _ _ _ _ _ _ _ _ _ _ _ Hs Hh L1 L2 F1 F2 Hd). unfold apart in *. lia.
Qed.

(** ** Properties *)

(** C6 Programs that allocate objects with [slab_palloc] and load and store in
    them refine programs on an abstract memory of separate blocks, with copy
    on write happening underneath.  From any slab that satisfies the
    invariant and any of its objects as the blocks to begin with: a program
    that stays in its blocks runs without a fault the handler does not
    repair, every load returns the bytes written last, afterwards the objects
    hold the content of the abstract blocks, the invariant holds, and no two
    blocks overlap.  Three free pages for each allocation, one for each store
    and one free entry for each allocation are enough. *)
Theorem objects_refine_blocks {PS} `{AM : AllocatorMalloc PS} `{AB : !AllocatorBrk PS} G k f cont o hs σ (w : world PS) cs σ' out :
  memory G (pages cs + k) (entries cs + f) cont o hs σ w -> brun σ cs = Some (σ', out) ->
  wp (crun hs cs) (fun r w' => memory G k f cont o r.1 σ' w' /\ Forall2 agrees out r.2 /\
    forall i j a a' y z, i <> j -> r.1 !! i = Some a -> r.1 !! j = Some a' -> σ' !! i = Some y -> σ' !! j = Some z -> apart a (zlen y) a' (zlen z)) w.
Proof.
  intros Hm Hr. eapply wp_mono; [by eapply crun_refines|]. intros r w' [Hm' Ho]. split; [done|]. split; [done|].
  intros i j a a' y z. by eapply memory_apart.
Qed.

(** Bytes that are specified are loaded. *)
Lemma loaded_exactly (out : list (list Z)) r : Forall2 agrees (map (map Some) out) r -> r = out.
Proof.
  revert r. induction out as [|o out IH]; intros r Hr; inversion Hr as [|? xs ? r' Hx Hr']; subst; [done|]. f_equal; [|by apply IH].
  clear - Hx. revert xs Hx. induction o as [|v o IH]; intros xs Hx; inversion Hx as [|? x ? xs' Hv Hx']; subst; [done|]. f_equal; [by apply Hv|by apply IH].
Qed.

Definition demo_program : list cmd :=
  [CPalloc 100; CPalloc 1000; CStore 0 3 [1; 2; 3]; CStore 1 0 [7]; CPalloc 100; CStore 0 4 [9]; CStore 2 0 [5; 6]; CLoad 0 3 3; CLoad 1 0 1; CLoad 2 1 1].

Lemma objects_refine_blocks_witness : exists w : world fmst,
  wp (crun [] demo_program) (fun r _ => r.2 = [[1; 9; 3]; [7]; [6]]) w.
Proof.
  destruct fresh_heap as (w & V & G & cont & d & o & n & b & Hs & Hh). exists w.
  assert (Hm : memory G (pages demo_program + 46) (entries demo_program + 25) cont o [] [] w).
  { exists V, 59%nat, d, n, b, [], (entries_upto (g_sb G) SLAB_BUCKET_ENTRIES), []. split; [reflexivity|]. split; [exact Hs|]. split; [exact Hh|]. split.
    - unfold entries_upto. rewrite length_fmap, length_seqZ. apply (bool_decide_unpack _). vm_compute. exact I.
    - split; constructor. }
  destruct (brun [] demo_program) as [[σ' out]|] eqn:Er; [|vm_compute in Er; discriminate Er].
  eapply wp_mono; [exact (objects_refine_blocks G 46 25 cont o [] [] w demo_program σ' out Hm Er)|]. intros [hs r] w' (_ & Ha & _). cbn [fst snd] in *.
  assert (Eo : out = [[Some 1; Some 9; Some 3]; [Some 7]; [Some 6]]) by (assert (Hc : option_map snd (brun [] demo_program) = Some [[Some 1; Some 9; Some 3]; [Some 7]; [Some 6]]) by (vm_compute; reflexivity); rewrite Er in Hc; by injection Hc).
  subst out. exact (loaded_exactly [[1; 9; 3]; [7]; [6]] r Ha).
Defined.
