(* ===== verification/Move.v ===== *)
(** * Volatile objects move into the container: [closure.c] on any slab

    What [persist_valloc] does with a pointer that lies in a persistent
    object: a block of volatile memory that the pointer leads into is moved
    to a new object of the slab, and the pointer leads to the same offset of
    that object.  The persistent objects are the abstract blocks of
    [Objects.v]; the volatile memory is a map of bytes. *)
From Stdlib Require Import ZArith Lia.
From stdpp Require Import base numbers gmap option list.
From S2P Require Import Prelude Macros Bitstring Vector Hash Htable Queue Process RBTree FixedMapper PageAlloc NlLaws Brk Splay.
From S2P Require Import SlabLayout World Demo Snapshot Slab Alloc Checkpoint Txn Restore Recovery Index Remap Heap Palloc.
From S2P Require Import Closure MallocTree BackRef Cont NewCont Objects.
Open Scope Z_scope.

(** ** Allocation leaves the volatile memory alone *)
Section vol.
Context {PS : Type} `{PA : PageAllocator PS}.

Definition same_vol (w w' : world PS) : Prop := w_vol w' = w_vol w.

#[export] Instance same_vol_preorder : PreOrder same_vol.
Proof. split; unfold same_vol; [done|]. intros ???. congruence. Qed.

Lemma on_pa_vol {A} (m : M PS A) : grows same_vol (on_pa m).
Proof. intros w a w'. unfold on_pa, zoom. destruct (m (w_pa w)); [|done]. by intros [= _ <-]. Qed.
Lemma load_vol a : grows same_vol (load a).
Proof. intros w x w'. unfold load. destruct (page_at w a); [|done]. by intros [= _ <-]. Qed.
Lemma store_raw_vol a p : grows same_vol (store_raw a p).
Proof. intros w x w'. unfold store_raw. destruct (vm_of (w_pa w) !! a); [|done]. destruct (writable w a); [|done]. by intros [= _ <-]. Qed.
Lemma get_container_vol : grows same_vol get_container.
Proof. intros w x w'. unfold get_container. destruct (CONTAINERS w); [|done]. by intros [= _ <-]. Qed.
Lemma get_es_vol es : grows same_vol (get_es es).
Proof. intros w x w'. unfold get_es. destruct (w_sizes w !! es); [|done]. by intros [= _ <-]. Qed.
Lemma bucket_id_vol : grows same_vol GET_NEXT_BUCKET_ID.
Proof. by intros w x w' [= _ <-]. Qed.
Lemma entry_id_vol : grows same_vol GET_NEXT_SLAB_ENTRY_ID.
Proof. by intros w x w' [= _ <-]. Qed.
Lemma forM_vol {A} (l : list A) body : (forall x, grows same_vol (body x)) -> grows same_vol (forM l body).
Proof. intros Hb. induction l as [|x l IH]; [apply grows_ret, _|]. apply grows_bind; [apply _|apply Hb|by intros]. Qed.

Create HintDb vol discriminated.
#[local] Hint Constants Opaque : vol.
#[local] Hint Resolve on_pa_vol load_vol store_raw_vol get_container_vol get_es_vol bucket_id_vol entry_id_vol : vol.

(** Follows the text of a program down to the calls that have a hint. *)
Ltac vol := repeat match goal with
  | |- grows _ _ => solve [auto 1 with vol nocore]
  | |- grows _ (bind _ _) => apply grows_bind; [exact _| |intros ?]
  | |- grows _ (ret _) => apply grows_ret; exact _
  | |- grows _ (fail _) => apply grows_fail
  | |- grows _ (gets _) => apply grows_gets; exact _
  | |- grows _ (modify _) => apply grows_modify; intros ?; reflexivity
  | |- grows _ (assert_ _) => apply grows_assert; exact _
  | |- grows _ (from_opt _ _) => apply grows_from_opt; exact _
  | |- grows _ (when _ _) => apply grows_when; [exact _|]
  | |- grows _ (for_ _ _ _) => apply grows_for; [exact _|intros ?]
  | |- grows _ (forM _ _) => apply forM_vol; intros ?
  | |- grows _ ((fun _ => _) _) => cbv beta
  | |- grows _ (let _ := _ in _) => cbv zeta
  | |- grows _ (match ?x with _ => _ end) => destruct x
  | |- grows _ ?m => let f := called m in progress unfold f
  end.

Lemma store_vol a p : grows same_vol (store a p).
Proof. vol. Qed.
#[local] Hint Resolve store_vol : vol.
Lemma set_next_vol k v : grows same_vol (set_stqe_next (SLinks := se_links) k v).
Proof. cbn [set_stqe_next se_links]. vol. Qed.
Lemma get_next_vol k : grows same_vol (get_stqe_next (SLinks := se_links) k).
Proof. cbn [get_stqe_next se_links]. vol. Qed.
#[local] Hint Resolve set_next_vol get_next_vol : vol.
Lemma get_free_vol : grows same_vol get_free_slab_entry.
Proof. vol. Qed.
#[local] Hint Resolve get_free_vol : vol.

Lemma slab_palloc_vol size : grows same_vol (slab_palloc size).
Proof. vol. Qed.
End vol.

(** ** The blocks and the volatile memory *)
Section blocks.
Context {PS : Type} `{AM : AllocatorMalloc PS} `{AB : !AllocatorBrk PS}.
Implicit Types (w : world PS) (V : gmap Z pinfo) (k f : nat).
#[local] Existing Instance seen_stepping | 0.

Lemma memory_same_vol G k f cont o hs σ w vol : memory G k f cont o hs σ w -> memory G k f cont o hs σ (set_w_vol vol w).
Proof using.
  intros (V & k' & d & n & b & ls & l & os & Hk & [[[Ho Hs] Hu] Hl] & Hh & Hf & Hm). exists V, k', d, n, b, ls, l, os.
  split_and!; [done| |by apply (heap_same G w)|done|done]. split; [split|]; [split; [done|]|done|done]. intros a i Ea. by apply Hs.
Qed.

(** Flushing a block. *)
Lemma wp_flush_block G k f cont o hs σ w h p y : memory G k f cont o hs σ w -> σ !! h = Some y -> hs !! h = Some p -> y <> [] ->
  wp (flush_segment p (zlen y)) (fun _ w' => memory G k f cont o hs σ w' /\ globals w' = globals w) w.
Proof using AB.
  intros (V & k' & d & n & b & ls & l & os & Hk & Hs & Hh & Hf & Hm) Hy Hp Hne.
  destruct (mem_lookup _ _ _ _ _ _ _ Hm Hy) as (x & _ & Ep & [Hl Hov Hfit _]). rewrite Hp in Ep. injection Ep as ->.
  destruct (live_entry _ _ _ _ _ _ _ _ _ _ _ _ _ Hh Hl) as (i & e & im & bs & _ & _ & _ & _ & E5 & _ & _ & _ & [E9 _] & _ & E11 & E12).
  specialize (E12 Hov). destruct (sees_aligned _ _ _ _ _ (sn_sees _ _ _ Hs) E5) as (_ & Hpos & Htop).
  assert (0 < zlen y) by (unfold zlen; destruct y; [done|simpl; lia]).
  destruct (flush_memsegment_spec (obj_addr x.1.1 x.1.2 x.2) (zlen y)) as (lines & El & _).
  { unfold obj_addr. nia. } { done. } { unfold obj_addr, CACHE_LINE_SIZE_MASK, CACHE_LINE_SIZE, PAGE_SIZE in *. nia. }
  unfold flush_segment. rewrite El. apply wp_bind, wp_ret. apply (quiet_forM lines _ (quiet_stat _) w V k'); [exact Hs|].
  intros w' Hs' Hg. split; [|exact Hg]. destruct (globals_same _ _ Hg) as [Hmode Hz]. exists V, k', d, n, b, ls, l, os.
  split_and!; [done|done|by eapply heap_same|done|done].
Qed.

Lemma bput_all n xs : length xs = n -> bput (replicate n None) 0 xs = Some <$> xs.
Proof using. intros <-. unfold bput. rewrite take_0, drop_ge by (rewrite length_replicate; lia). by rewrite app_nil_r. Qed.

Lemma vol_bytes_length n a vol : length (vol_bytes n a vol) = n.
Proof using. unfold vol_bytes. by rewrite length_map, length_seqZ, Nat2Z.id. Qed.
End blocks.

(** ** Moving one block *)
Section move.
Context {PS : Type} `{AM : AllocatorMalloc PS} `{AB : !AllocatorBrk PS}.
Implicit Types (w : world PS) (s : clst PS) (x : mallocat_entry) (k f : nat).

(** The bytes of a registered block. *)
Definition block_bytes s x : list Z := vol_bytes (Z.to_nat (me_size x)) (me_addr x) (w_vol (cl_world s)).

(** What [move_allocation] needs of the block of [x]; [ptrs] are the pointers
    in it, [pl] the persistent pointers found so far.  Mapping pages of the
    container does not map over the block. *)
Record movable s x (ptrs pl : list Z) : Prop := {
  mv_size : 0 < me_size x <= PAGE_SIZE;
  mv_fits : ROUND8 (me_size x) ∉ overflowing;
  mv_volatile : volatile (cl_world s) (me_addr x) (me_size x);
  mv_bytes : Forall (in_u 8) (block_bytes s x);
  mv_apart : forall p w', slab_palloc (me_size x) (cl_world s) = Ok p w' ->
    forall a, me_addr x <= a < me_addr x + me_size x -> is_container w' a = false;
  mv_ptrs : vec_ok (me_ptrs x) ptrs;
  mv_vec : vec_ok (pptr_vec s) pl;
  mv_room : zlen pl + zlen ptrs <= 2 ^ 26;
  mv_table : ht_wf (ht_pointerat s);
}.

(** The block of [x] has been moved to [p]. *)
Record moved s s' e x (p : Z) (ptrs pl : list Z) : Prop := {
  md_entries : cl_entries s' = <[e := MallocatEntry (me_addr x) (me_size x) p (me_ptrs x)]> (cl_entries s);
  md_vec : vec_ok (pptr_vec s') (pl ++ map (fun a => PTR_REBASE (me_addr x) a p) ptrs);
  md_wf : ht_wf (ht_pointerat s');
  md_table : forall q, ht_map (ht_pointerat s') !! q = if decide (q ∈ ptrs) then None else ht_map (ht_pointerat s) !! q;
  md_vol : w_vol (cl_world s') = free_bytes (Z.to_nat (me_size x)) (me_addr x) (w_vol (cl_world s));
  md_tree : mallocat_tree s' = mallocat_tree s;
  md_mallocat : ht_mallocat s' = ht_mallocat s;
}.

Lemma wp_rebase_all s x p ptrs pl : vec_ok (pptr_vec s) pl -> zlen pl + zlen ptrs <= 2 ^ 26 -> ht_wf (ht_pointerat s) ->
  wp (forM ptrs (fun ptr => on_pptr_vec (VECTOR_APPEND 8 (PTR_REBASE (me_addr x) ptr p)) ;;;
        let! _ := zoom ht_pointerat set_ht_pointerat (htable_remove ptr) in ret tt))
    (fun _ s' => exists v ht, s' = set_ht_pointerat ht (set_pptr_vec v s) /\ vec_ok v (pl ++ map (fun a => PTR_REBASE (me_addr x) a p) ptrs) /\
       ht_wf ht /\ forall q, ht_map ht !! q = if decide (q ∈ ptrs) then None else ht_map (ht_pointerat s) !! q) s.
Proof using.
  intros Hv Hroom Hwf. apply (wp_forM (fun before s' => exists v ht, s' = set_ht_pointerat ht (set_pptr_vec v s) /\
    vec_ok v (pl ++ map (fun a => PTR_REBASE (me_addr x) a p) before) /\ ht_wf ht /\
    forall q, ht_map ht !! q = if decide (q ∈ before) then None else ht_map (ht_pointerat s) !! q)).
  - exists (pptr_vec s), (ht_pointerat s). split_and!; [by destruct s|by rewrite app_nil_r|done|].
    intros q. rewrite decide_False; [done|apply not_elem_of_nil].
  - intros before a after s' E (v & ht & -> & Hv' & Hwf' & Ht). apply wp_bind. unfold on_pptr_vec. apply wp_zoom.
    eapply wp_mono; [apply vec_ok_append; [exact Hv'|]|].
    { rewrite E in Hroom. unfold zlen in *. rewrite !length_app, length_map in *. simpl in Hroom. lia. }
    intros [] v' Hv2. apply wp_bind, wp_zoom. destruct (htable_remove_map ht a Hwf') as (ht' & Er & Hwf2 & Hm2).
    eapply wp_ok; [exact Er|]. apply wp_ret. exists v', ht'. split_and!; [done|by rewrite map_app, app_assoc|done|].
    intros q. rewrite Hm2. destruct (decide (q = a)) as [->|Hne].
    + rewrite lookup_delete_eq, decide_True; [done|]. apply elem_of_app. right. by left.
    + rewrite lookup_delete_ne, Ht by done. apply decide_ext. rewrite elem_of_app, list_elem_of_singleton. naive_solver.
  - done.
Qed.

Lemma wp_move_allocation G k f cont o hs σ s e x ptrs pl : memory G (4 + k) (S f) cont o hs σ (cl_world s) -> cl_entries s !! e = Some x ->
  movable s x ptrs pl ->
  wp (move_allocation e) (fun _ s' => exists p, memory G k f cont o (hs ++ [p]) (σ ++ [Some <$> block_bytes s x]) (cl_world s') /\
    moved s s' e x p ptrs pl) s.
Proof using AM AB.
  intros Hm Hx [Hsz Hov Hvl Hby Hap Hpt Hvec Hroom Hwf]. unfold move_allocation.
  apply wp_bind. eapply wp_ok; [unfold get_me; by rewrite Hx|].
  assert (Eu : u32 (me_size x) = me_size x) by (unfold u32; apply wrap_id; unfold in_u, PAGE_SIZE in *; lia). rewrite Eu.
  apply wp_bind. unfold on_world at 1. apply wp_zoom.
  assert (Hpal : wp (slab_palloc (me_size x)) (fun p w' => memory G (1 + k) f cont o (hs ++ [p]) (σ ++ [replicate (Z.to_nat (me_size x)) None]) w' /\
    w_vol w' = w_vol (cl_world s) /\ volatile w' (me_addr x) (me_size x)) (cl_world s)).
  { pose proof (palloc_refines G (1 + k) f cont o hs σ (cl_world s) (me_size x) Hm Hsz Hov) as Hw. unfold wp in *.
    destruct (slab_palloc (me_size x) (cl_world s)) as [p w'|] eqn:E; [|done]. pose proof (slab_palloc_vol _ _ _ _ E) as Hv. unfold same_vol in Hv.
    split_and!; [done|done|]. intros a Ha. rewrite Hv. split; [by apply (Hap p w' eq_refl)|by apply Hvl]. }
  eapply wp_mono; [exact Hpal|]. intros p w1 (Hm1 & Hv1 & Hvl1). apply wp_bind. unfold put_me at 1. apply wp_modify.
  assert (Hlen : length hs = length σ).
  { destruct Hm as (? & ? & ? & ? & ? & ? & ? & os & _ & _ & _ & _ & [_ -> Hr]). rewrite length_map. by eapply Forall2_length. }
  set (bytes := block_bytes s x) in *. assert (Hbl : length bytes = Z.to_nat (me_size x)) by apply vol_bytes_length.
  apply wp_bind. unfold pmemcpy_bytes. apply wp_bind. unfold on_world at 1. apply wp_zoom. cbn [cl_world set_cl_world set_cl_entries].
  apply wp_bind. eapply wp_ok; [apply load_bytes_vol; by rewrite Z2Nat.id by lia|]. rewrite Hv1. fold (block_bytes s x). fold bytes.
  assert (Hat : forall y, (σ ++ [y]) !! length σ = Some y) by (intros y; by rewrite lookup_app_r, Nat.sub_diag by lia).
  assert (Hp : (hs ++ [p]) !! length σ = Some p) by (rewrite <- Hlen, lookup_app_r, Nat.sub_diag by lia; done).
  replace p with (p + Z.of_nat 0) at 1 by lia.
  eapply wp_mono; [eapply store_refines; [exact Hm1|apply Hat|exact Hp|rewrite length_replicate; lia|exact Hby]|].
  intros [] w2 [Hm2 Hg2]. rewrite bput_all, insert_app_r_alt, Nat.sub_diag in Hm2 by (done || lia). cbn [insert list_insert] in Hm2.
  unfold on_world at 1. apply wp_zoom. cbn [cl_world set_cl_world set_cl_entries].
  assert (Ez : zlen (Some <$> bytes) = me_size x) by (unfold zlen; rewrite length_fmap; lia).
  replace (me_size x) with (zlen (Some <$> bytes)) at 1 by done.
  eapply wp_mono; [eapply wp_flush_block; [exact Hm2|apply Hat|exact Hp|]|].
  { intros E%(f_equal length). rewrite length_fmap in E. simpl in E. lia. }
  intros [] w3 [Hm3 Hg3]. assert (Hv3 : w_vol w3 = w_vol (cl_world s)) by (unfold globals in Hg2, Hg3; congruence).
  apply wp_bind. unfold free_block, on_world at 1. apply wp_zoom, wp_modify. cbn [cl_world set_cl_world set_cl_entries]. rewrite Hv3.
  pose proof Hpt as (Hr & Hb & _). rewrite (VECTOR_FOREACH_repr (me_ptrs x) ptrs Hr Hb).
  eapply wp_mono; [apply wp_rebase_all; [exact Hvec|exact Hroom|exact Hwf]|].
  intros [] s' (v & ht & -> & Hv' & Hwf' & Ht). exists p. split; [by apply memory_same_vol|]. by split.
Qed.

(** ** Pointers in the blocks *)
Lemma memory_weaken G k k' f f' cont o hs σ w : memory G k f cont o hs σ w -> (k' <= k)%nat -> (f' <= f)%nat -> memory G k' f' cont o hs σ w.
Proof using.
  intros (V & j & d & n & b & ls & l & os & Hk & Hs & Hh & Hf & Hm) Hk' Hf'. exists V, j, d, n, b, ls, l, os. split_and!; [lia|done|done|lia|done].
Qed.

Lemma memory_positive G k f cont o hs σ w h p y : memory G k f cont o hs σ w -> σ !! h = Some y -> hs !! h = Some p -> 0 < p.
Proof using.
  intros (V & j & d & n & b & ls & l & os & _ & Hs & Hh & _ & Hm) Hy Hp.
  destruct (mem_lookup _ _ _ _ _ _ _ Hm Hy) as (u & _ & Ep & [Hl _ _ _]). rewrite Hp in Ep. injection Ep as ->.
  destruct (live_entry _ _ _ _ _ _ _ _ _ _ _ _ _ Hh Hl) as (i & e & im & bs & _ & _ & _ & _ & E5 & _ & _ & _ & [E9 _] & E10 & E11 & _).
  destruct (sees_aligned _ _ _ _ _ (sn_sees _ _ _ Hs) E5) as (_ & ? & _). unfold obj_addr. nia.
Qed.

(** The bytes of [y] at [off] are the pointer [v]. *)
Definition points (y : list (option Z)) (off : nat) (v : Z) : Prop := take 8 (drop off y) = Some <$> le_bytes 8 v /\ 0 <= v < 2 ^ 64.

Lemma points_inside y off v : points y off v -> (off + 8 <= length y)%nat.
Proof using.
  intros [E%(f_equal length) _]. rewrite length_fmap, length_take, length_drop, le_bytes_len in E. lia.
Qed.

Lemma points_put y off v : (off + 8 <= length y)%nat -> 0 <= v < 2 ^ 64 -> points (bput y off (le_bytes 8 v)) off v.
Proof using.
  intros Hy Hv. split; [|done]. pose proof (le_bytes_len 8 v) as Hl. apply list_eq. intros j. destruct (decide (j < 8)%nat).
  - rewrite lookup_take_lt, lookup_drop, bput_lookup, decide_True, list_lookup_fmap by lia. do 2 f_equal. lia.
  - rewrite lookup_take_ge, list_lookup_fmap, lookup_ge_None_2 by lia. done.
Qed.

Lemma wp_load_block_ptr G k f cont o hs σ w h p off y v : memory G k f cont o hs σ w -> σ !! h = Some y -> hs !! h = Some p -> points y off v ->
  wp (load_ptr (p + Z.of_nat off)) (fun r w' => w' = w /\ r = v) w.
Proof using.
  intros Hm Hy Hp Hpt. pose proof (points_inside _ _ _ Hpt) as Hin. destruct Hpt as [Ht Hv]. unfold load_ptr. apply wp_bind.
  eapply wp_mono; [by eapply load_refines|]. intros xs w' [-> Ha]. rewrite Ht in Ha.
  assert (E : [xs] = [le_bytes 8 v]) by (apply loaded_exactly; by constructor). apply (f_equal head) in E. apply (inj Some) in E as ->.
  apply wp_ret. split; [done|]. rewrite le_word_bytes. by apply Z.mod_small.
Qed.

Lemma wp_store_block_ptr G k f cont o hs σ w h p off y v : memory G (1 + k) f cont o hs σ w -> σ !! h = Some y -> hs !! h = Some p -> (off + 8 <= length y)%nat ->
  wp (store_ptr (p + Z.of_nat off) v) (fun _ w' => memory G k f cont o hs (<[h := bput y off (le_bytes 8 v)]> σ) w' /\ globals w' = globals w) w.
Proof using AB.
  intros Hm Hy Hp Hin. unfold store_ptr. eapply store_refines; [exact Hm|exact Hy|exact Hp|by rewrite le_bytes_len|apply le_bytes_ok].
Qed.

(** ** One pointer *)

(** After [persist_valloc] on the pointer [v] at the offset [off] of the
    block [h], whose bytes were [y]. *)
Inductive persisted G k f cont o (hs : list Z) (σ : list (list (option Z))) s es (ptrs : Z -> list Z) pl (h off : nat) y v s' : Prop :=
  | ps_elsewhere : owner s es v = None -> memory G k f cont o hs σ (cl_world s') -> cl_entries s' = cl_entries s -> cl_world s' = cl_world s ->
      persisted G k f cont o hs σ s es ptrs pl h off y v s'
  | ps_moved_before e : owner s es v = Some e -> me_paddr (me_at s e) <> 0 ->
      memory G k f cont o hs (<[h := bput y off (le_bytes 8 (PTR_REBASE (me_addr (me_at s e)) v (me_paddr (me_at s e))))]> σ) (cl_world s') ->
      cl_entries s' = cl_entries s -> w_vol (cl_world s') = w_vol (cl_world s) ->
      persisted G k f cont o hs σ s es ptrs pl h off y v s'
  | ps_moved_now e p t : owner s es v = Some e -> me_paddr (me_at s e) = 0 -> 0 < p ->
      memory G k f cont o (hs ++ [p]) (<[h := bput y off (le_bytes 8 (PTR_REBASE (me_addr (me_at s e)) v p))]> σ ++ [Some <$> block_bytes s (me_at s e)]) (cl_world s') ->
      moved (set_mallocat_tree t s) s' e (me_at s e) p (ptrs e) pl ->
      persisted G k f cont o hs σ s es ptrs pl h off y v s'.

Lemma store_rebased G k f cont o hs σ s es h off a y v e : memory G (1 + k) f cont o hs σ (cl_world s) -> tree_ok s es -> e ∈ es ->
  σ !! h = Some y -> hs !! h = Some a -> points y off v ->
  wp (let! x := get_me e in let! target := on_world (load_ptr (a + Z.of_nat off)) in
      on_world (store_ptr (a + Z.of_nat off) (PTR_REBASE (me_addr x) target (me_paddr x))))
    (fun _ s' => exists w', s' = set_cl_world w' s /\ globals w' = globals (cl_world s) /\
       memory G k f cont o hs (<[h := bput y off (le_bytes 8 (PTR_REBASE (me_addr (me_at s e)) v (me_paddr (me_at s e))))]> σ) w') s.
Proof using AB.
  intros Hm Ht He Hy Ha Hp. destruct (to_known _ _ Ht e He) as [x Hx]. apply wp_bind. eapply wp_ok; [unfold get_me; by rewrite Hx|].
  assert (Hxe : me_at s e = x) by (unfold me_at; by rewrite Hx). rewrite Hxe.
  apply wp_bind. unfold on_world at 1. apply wp_zoom. eapply wp_mono; [by eapply wp_load_block_ptr|]. intros r w' [-> ->].
  unfold on_world. apply wp_zoom. eapply wp_mono; [eapply wp_store_block_ptr; [exact Hm|exact Hy|exact Ha|by eapply points_inside]|].
  intros [] w' [Hm' Hg]. exists w'. by destruct s.
Qed.

Lemma movable_splay s t x ptrs pl : movable s x ptrs pl -> movable (set_mallocat_tree t s) x ptrs pl.
Proof using. by intros [H1 H2 H3 H4 H5 H6 H7 H8 H9]; split. Qed.

Lemma wp_persist_valloc G k f cont o hs σ s es ptrs pl h off a y v : memory G (5 + k) (S f) cont o hs σ (cl_world s) -> tree_ok s es ->
  σ !! h = Some y -> hs !! h = Some a -> points y off v ->
  (forall e, owner s es v = Some e -> me_paddr (me_at s e) = 0 -> movable s (me_at s e) (ptrs e) pl) ->
  wp (persist_valloc (a + Z.of_nat off)) (fun _ s' => tree_ok s' es /\ persisted G k f cont o hs σ s es ptrs pl h off y v s') s.
Proof using AM AB.
  intros Hm Ht Hy Ha Hp Hmv. unfold persist_valloc. apply wp_bind. unfold on_world at 1. apply wp_zoom.
  eapply wp_mono; [by eapply wp_load_block_ptr|]. intros r w' [-> ->].
  assert (Es : set_cl_world (cl_world s) s = s) by (by destruct s). rewrite Es.
  destruct (mallocat_find_ok s es v Ht) as (t & Ef & Hto). apply wp_bind. eapply wp_ok; [exact Ef|]. set (s1 := set_mallocat_tree t s).
  assert (Ht1 : tree_ok s1 es).
  { eapply tree_ok_same; [exact Ht|exact Hto|]. intros e He. split; [by apply (to_known _ _ Ht)|done]. }
  destruct (owner s es v) as [e|] eqn:Eo.
  2: { apply wp_ret. split; [done|]. apply ps_elsewhere; [done|by eapply memory_weaken; [exact Hm|lia|lia]|done|done]. }
  pose proof Eo as [He _]%owner_Some. destruct (to_known _ _ Ht e He) as [x Hx]. assert (Hxe : me_at s e = x) by (unfold me_at; by rewrite Hx).
  apply wp_bind. eapply wp_ok; [unfold get_me; change (cl_entries s1) with (cl_entries s); by rewrite Hx|].
  apply wp_bind. destruct (Z.eqb_spec (me_paddr x) 0) as [E0|Hn]; cbn [when].
  - specialize (Hmv e eq_refl). rewrite Hxe in Hmv. specialize (Hmv E0).
    eapply wp_mono; [eapply (wp_move_allocation G (1 + k) f cont o hs σ s1 e x (ptrs e) pl); [exact Hm|exact Hx|by apply movable_splay]|].
    intros [] s2 (p & Hm2 & Hmd). pose proof Hmd as [D1 D2 D3 D4 D5 D6 D7].
    assert (Hxe2 : me_at s2 e = MallocatEntry (me_addr x) (me_size x) p (me_ptrs x)) by (unfold me_at; by rewrite D1, lookup_insert_eq).
    assert (Ht2 : tree_ok s2 es).
    { eapply tree_ok_same; [exact Ht1|by rewrite D6|]. intros e' He'. unfold me_at. rewrite D1. change (cl_entries s1) with (cl_entries s).
      destruct (decide (e' = e)) as [->|Hne]; [rewrite lookup_insert_eq, Hx; split; [by eexists|done]|].
      rewrite lookup_insert_ne by done. split; [by apply (to_known _ _ Ht)|done]. }
    assert (Hlt : (h < length σ)%nat) by by eapply lookup_lt_Some.
    assert (Hy2 : (σ ++ [Some <$> block_bytes s1 x]) !! h = Some y) by (by rewrite lookup_app_l).
    assert (Ha2 : (hs ++ [p]) !! h = Some a) by (by apply lookup_app_l_Some).
    eapply wp_mono; [eapply store_rebased; [exact Hm2|exact Ht2|exact He|exact Hy2|exact Ha2|exact Hp]|].
    intros [] s' (w' & -> & Hg & Hm'). rewrite Hxe2 in Hm'. cbn [me_addr me_paddr] in Hm'. rewrite insert_app_l in Hm' by done.
    split; [eapply tree_ok_same; [exact Ht2|apply Ht2|]; intros e' He'; split; [by apply (to_known _ _ Ht2)|done]|].
    eapply (ps_moved_now _ _ _ _ _ _ _ _ _ _ _ _ _ _ _ _ e p t); rewrite ?Hxe; [done|done| |exact Hm'|].
    + eapply (memory_positive _ _ _ _ _ _ _ _ (length σ)); [exact Hm2|by rewrite lookup_app_r, Nat.sub_diag by lia|].
      destruct Hm as (? & ? & ? & ? & ? & ? & ? & os & _ & _ & _ & _ & [_ Ehs Hr]).
      assert (length hs = length σ) as <- by (rewrite Ehs, length_map; by eapply Forall2_length). by rewrite lookup_app_r, Nat.sub_diag by lia.
    + split; try done. etransitivity; [|exact D5]. cbn [cl_world set_cl_world]. unfold globals in Hg. congruence.
  - apply wp_ret. eapply wp_mono; [eapply (store_rebased G k f cont o hs σ s1 es h off a y v e); [|exact Ht1|exact He|exact Hy|exact Ha|exact Hp]|].
    { eapply memory_weaken; [exact Hm|lia|lia]. }
    intros [] s' (w' & -> & Hg & Hm'). change (me_at s1 e) with (me_at s e) in Hm'.
    split; [eapply tree_ok_same; [exact Ht1|apply Ht1|]; intros e' He'; split; [by apply (to_known _ _ Ht1)|done]|].
    eapply (ps_moved_before _ _ _ _ _ _ _ _ _ _ _ _ _ _ _ _ e); rewrite ?Hxe; [done|done|by rewrite Hxe in Hm'|done|].
    change (cl_world s1) with (cl_world s) in Hg. cbn [cl_world set_cl_world]. unfold globals in Hg. congruence.
Qed.
End move.

(** ** Properties *)

(** C12 A pointer in a persistent object is made persistent, on any slab that
    satisfies the invariant.  A pointer that leads into no registered block
    stays as it is.  A pointer into a block that was moved before leads
    afterwards to the same offset of the block's new place.  A pointer into a
    block that was not moved has the block moved first: its bytes are those of
    a new object of the slab, the volatile block is freed, the pointers in the
    block are handed on as persistent pointers at their new place and leave
    the table of registered pointers, and the pointer leads to the same offset
    of the new object.  No other byte of any object changes, and the tree of
    blocks stays well formed. *)
Theorem persist_valloc_correct {PS} `{AM : AllocatorMalloc PS} `{AB : !AllocatorBrk PS} G k f cont o hs σ (s : clst PS) es ptrs pl h off a y v :
  memory G (5 + k) (S f) cont o hs σ (cl_world s) -> tree_ok s es -> σ !! h = Some y -> hs !! h = Some a -> points y off v ->
  (forall e, owner s es v = Some e -> me_paddr (me_at s e) = 0 -> movable s (me_at s e) (ptrs e) pl) ->
  wp (persist_valloc (a + Z.of_nat off)) (fun _ s' => tree_ok s' es /\ persisted G k f cont o hs σ s es ptrs pl h off y v s') s.
Proof. intros. by eapply wp_persist_valloc. Qed.

(** A container with one object of 64 bytes, whose second word points to the
    byte 8 of a volatile block of 32 bytes at 5000. *)
Definition start_world : world fmst :=
  set_w_vol (list_to_map (map (fun i => (5000 + i, 100 + i)) (seqZ 0 32)))
    (match container_init demo_env demo_start with Ok _ s => cl_world s | Fail _ s => cl_world s end).

Definition pointer_program : list cmd := [CPalloc 64; CStore 0 8 (le_bytes 8 5008)].
Definition pointer_world : world fmst := match crun [] pointer_program start_world with Ok _ w => w | Fail _ w => w end.

Definition demo_block : mallocat_entry := MallocatEntry 5000 32 0 (Vec 2 0 (Some [None; None])).
Definition pointer_state (w : world fmst) (h : htable) : clst fmst :=
  Clst w h h (Vec 2 0 (Some [None; None])) (SNode SLeaf 3 SLeaf) {[3 := demo_block]} true.

Definition outside (w : world fmst) (a n : Z) : bool := forallb (fun x => negb (is_container w x)) (seqZ a n).

Lemma outside_spec w a n x : outside w a n = true -> a <= x < a + n -> is_container w x = false.
Proof. unfold outside. rewrite forallb_forall. intros H Hx. apply negb_true_iff, H, list_elem_of_In, elem_of_seqZ. lia. Qed.

Lemma empty_vec : vec_ok (Vec 2 0 (Some [None; None])) [].
Proof. split_and!; [split_and!; done|by eexists|done]. Qed.

Lemma start_memory : exists G cont o, memory G 59 28 cont o [] [] start_world.
Proof.
  pose proof (wp_container_init demo_env demo_start 59 demo_starts) as Hw.
  destruct (proj1 (wp_run _ _ _) Hw) as (c & s' & E & V & G & d & o & n & b & Hs & Hh & _). clear Hw. eexists G, _, o. unfold start_world. rewrite E. clear E. apply memory_same_vol. exists V, 59%nat, d, n, b, [], (entries_upto (g_sb G) SLAB_BUCKET_ENTRIES), [].
  split_and!; [lia|exact Hs|exact Hh|unfold entries_upto; by rewrite length_fmap, length_seqZ|split; constructor].
Qed.

Definition pointer_block : list (option Z) := bput (replicate 64 None) 8 (le_bytes 8 5008).

Lemma pointer_memory : exists G cont o a, memory G 55 27 cont o [a] [pointer_block] pointer_world.
Proof.
  destruct start_memory as (G & cont & o & Hm). exists G, cont, o.
  pose proof (crun_refines pointer_program G [] [] start_world cont o 55 27 [pointer_block] [] Hm eq_refl) as Hw.
  destruct (proj1 (wp_run _ _ _) Hw) as ([hs out] & w & E & Hm' & _). clear Hw. cbn [fst] in Hm'. unfold pointer_world. rewrite E. clear E.
  pose proof Hm' as (? & ? & ? & ? & ? & ? & ? & os & _ & _ & _ & _ & [_ Ehs Hr]). apply Forall2_length in Hr.
  destruct os as [|h [|? ?]]; [discriminate Hr| |discriminate Hr]. rewrite Ehs in Hm'. eexists. exact Hm'.
Qed.

(** The block lies outside the container, before and after an allocation. *)
Record block_at (w : world fmst) : Prop := {
  ba_volatile : volatile w 5000 32;
  ba_bytes : vol_bytes 32 5000 (w_vol w) = seqZ 100 32;
  ba_apart : forall p w', slab_palloc 32 w = Ok p w' -> outside w' 5000 32 = true;
}.

Lemma pointer_world_block : block_at pointer_world.
Proof.
  split.
  - assert (Hc : forallb (fun x => negb (is_container pointer_world x) && bool_decide (is_Some (w_vol pointer_world !! x))) (seqZ 5000 32) = true) by (vm_compute; reflexivity).
    intros x Hx. rewrite forallb_forall in Hc. specialize (Hc x). rewrite andb_true_iff, negb_true_iff in Hc.
    destruct Hc as [H1 H2]; [apply list_elem_of_In, elem_of_seqZ; exact Hx|]. split; [exact H1|by apply bool_decide_eq_true in H2].
  - vm_compute. reflexivity.
  - intros p w' E. assert (Ho : match slab_palloc 32 pointer_world with Ok _ w' => outside w' 5000 32 | Fail _ _ => false end = true) by (vm_compute; reflexivity).
    rewrite E in Ho. exact Ho.
Qed.

Lemma pointer_movable w h : block_at w -> ht_wf h -> movable (pointer_state w h) demo_block [] [].
Proof.
  intros [H1 H2 H3] Hwf. split; [split; [reflexivity|discriminate]| |exact H1| | |exact empty_vec|exact empty_vec|discriminate|exact Hwf].
  - apply (bool_decide_unpack (ROUND8 32 ∉ overflowing)). vm_compute. exact I.
  - change (Forall (in_u 8) (vol_bytes 32 5000 (w_vol w))). rewrite H2. apply (bool_decide_unpack (Forall (fun b => 0 <= b < 2 ^ 8) (seqZ 100 32))). vm_compute. exact I.
  - intros p w' E x Hx. apply (outside_spec w' 5000 32); [by eapply H3|exact Hx].
Qed.

Lemma some_pointer : exists w G cont o a, memory G 55 27 cont o [a] [pointer_block] w /\ block_at w.
Proof. destruct pointer_memory as (G & cont & o & a & Hm). exists pointer_world, G, cont, o, a. split; [exact Hm|exact pointer_world_block]. Qed.

Lemma persist_valloc_correct_witness : exists (s : clst fmst) a,
  wp (persist_valloc (a + 8)) (fun _ s' => exists G k f cont o p, me_paddr (me_at s' 3) = p /\ 0 < p /\
    memory G k f cont o [a; p] [bput pointer_block 8 (le_bytes 8 (p + 8)); Some <$> seqZ 100 32] (cl_world s')) s.
Proof.
  destruct htable_init_wf as (h & _ & Hwf & _). destruct some_pointer as (w & G & cont & o & a & Hm & Hb). exists (pointer_state w h), a.
  assert (Ht : tree_ok (pointer_state w h) [3]).
  { split; [reflexivity| | |repeat constructor].
    - intros e ->%list_elem_of_singleton. exists demo_block. reflexivity.
    - intros e ->%list_elem_of_singleton. change (0 <= 32). lia. }
  assert (Hp : points pointer_block 8 5008) by (split; [reflexivity|lia]).
  assert (Eo : owner (pointer_state w h) [3] 5008 = Some 3) by reflexivity.
  eapply wp_mono; [apply (persist_valloc_correct G 50 26 cont o [a] [pointer_block] (pointer_state w h) [3] (fun _ => []) [] 0 8 a pointer_block 5008 Hm Ht eq_refl eq_refl Hp)|].
  { intros e E _. assert (e = 3) as -> by congruence. apply (pointer_movable w h Hb Hwf). }
  intros [] s' (_ & Hps). exists G, 50%nat, 26%nat, cont, o, (me_paddr (me_at s' 3)). split; [reflexivity|].
  destruct Hps as [En|e Ee Hn|e p t Ee H0 Hpos Hm' Hmd]; [congruence|exfalso; apply Hn; assert (e = 3) as -> by congruence; reflexivity|].
  assert (e = 3) as -> by congruence. assert (Ep : me_paddr (me_at s' 3) = p) by (unfold me_at; rewrite (md_entries _ _ _ _ _ _ _ Hmd), lookup_insert_eq; reflexivity).
  rewrite Ep. split; [exact Hpos|].
  change (me_at (pointer_state w h) 3) with demo_block in Hm'. change (block_bytes (pointer_state w h) demo_block) with (vol_bytes 32 5000 (w_vol w)) in Hm'.
  rewrite (ba_bytes w Hb) in Hm'. change (PTR_REBASE (me_addr demo_block) 5008 p) with (p + (5008 - 5000)) in Hm'. exact Hm'.
Defined.
