(* ===== verification/Runs.v ===== *)
(** * Whole runs of the public operations

    Transactions from an empty file to a checkpoint, executed on the fixed
    mapper and on the nonlinear mapper.  [boot] is a process that has just
    loaded the library, [reboot] one that loads it again and finds the file
    the first has left. *)
From Stdlib Require Import ZArith Lia.
From stdpp Require Import base numbers gmap option list.
From S2P Require Import Prelude Macros Bitstring Vector Hash Htable Queue Process RBTree FixedMapper NlMapper PageAlloc NlLaws Splay.
From S2P Require Import SlabLayout World Snapshot Slab Alloc Checkpoint Txn Restore Recovery Closure Cont.
Open Scope Z_scope.

(** A file of 64 pages, and the closure switched on; [nl_env] selects the
    nonlinear mapper, and with it the copy-and-swap mode. *)
Definition run_env : env := Env None (Some (PAGE_SIZE * 64)) None None.
Definition nl_env : env := Env (Some 1) (Some (PAGE_SIZE * 64)) None None.

Definition fresh_clst {PS} (w : world PS) : clst PS := Clst w (Htable 0 0 []) (Htable 0 0 []) (Vec 0 0 None) SLeaf ∅ true.
Definition boot (vol : gmap Z Z) : clst fmst := fresh_clst (World (blank (2 ^ 40)) ∅ vol None 0 0 ∅ true false).
Definition nl_boot (vol : gmap Z Z) : clst nlst := fresh_clst (World (nl_blank (2 ^ 40)) ∅ vol None 0 0 ∅ true false).

(** The loops of the closure run over at most 100 elements. *)
Definition loops : nat := 100.

Section runs.
Context {PS : Type} `{PA : PageAllocator PS} (e : env).
Notation M := (M (clst PS)).

Definition start : M Z := init e ;;; container_init e.
Definition cpoint : M unit := container_cpoint loops.

(** The entry of an address, with its place. *)
Definition entry_of_addr (a : Z) : M (Z * slab_entry) :=
  let! se := on_world (slab_find a) in
  let! se := from_opt NullDeref se in
  let! x := on_world (get_se se) in ret (se, x).

Definition protected (a : Z) : M bool := on_world (gets (fun w => negb (writable w (ROUND_DWNPG a)))).

(** ** One transaction *)

(** Allocate, write, commit, write again: what the page and its snapshot
    hold, and whether the page is protected after the checkpoint. *)
Definition one_transaction (allocs : nat) : M (bool * Z * Z) :=
  start ;;;
  let! a := container_palloc 64 in
  for_ (allocs - 1) 0 (fun _ => let! _ := container_palloc 64 in ret tt) ;;;
  on_world (store_ptr a 1111) ;;;
  cpoint ;;;
  let! p := protected a in
  on_world (store_ptr a 2222) ;;;
  let! se := entry_of_addr a in
  let! now := on_world (load_ptr a) in
  let! then_ := on_world (load_ptr (d_maddr (se_data_snapshot se.2) + (a - ROUND_DWNPG a))) in
  ret (p, now, then_).

(** ** Many buckets *)

(** [n] transactions with one allocation each. *)
Definition transactions (n : nat) : M unit :=
  for_ n 0 (fun _ => let! _ := container_palloc 4096 in cpoint).

Fixpoint take_pages (n : nat) : M (list Z) :=
  match n with
  | O => ret []
  | S n' => let! r := on_world (getpage PA_PROT_RNW) in let! l := take_pages n' in ret (r.1 :: l)
  end.

(** Fill the first bucket; the next transaction opens a second one.  Is the
    page of that bucket among the next pages that are handed out? *)
Definition bucket_handed_out : M bool :=
  start ;;;
  transactions 28 ;;;
  let! a := container_palloc 4096 in
  let! se := entry_of_addr a in
  cpoint ;;;
  let! l := take_pages 29 in
  ret (bool_decide (se_page se.1 ∈ l)).

(** ** The closure *)

(** A volatile object of 24 bytes at 5000, whose second word points to its
    third.  [p] is a persistent object that points to it. *)
Definition volatile_object : gmap Z Z := list_to_map (map (fun a => (a, 7)) (seqZ 5000 24)).

Definition closure_run (reachable : bool) : M Z :=
  start ;;;
  let! p := container_palloc 64 in
  on_world (store_ptr p (if reachable then 5000 else 0)) ;;;
  on_world (store_ptr 5008 5016) ;;;
  mallocat 5000 24 ;;;
  pointerat_aux p ;;;
  pointerat_aux 5008 ;;;
  cpoint ;;;
  ret p.

(** After the checkpoint: is the object where the pointer leads, as it was,
    is its pointer corrected, is the old block gone, and what was recorded
    for the page of [p]? *)
Definition closure_moves : M (bool * bool * bool * bool * list slab_ptr_item) :=
  let! p := closure_run true in
  let! q := on_world (load_ptr p) in
  let! w0 := on_world (load_ptr q) in
  let! w1 := on_world (load_ptr (q + 8)) in
  let! w2 := on_world (load_ptr (q + 16)) in
  let! persistent := on_world (gets (fun w => is_container w q)) in
  let! gone := on_world (gets (fun w => bool_decide (w_vol w !! 5000 = None))) in
  let! se := entry_of_addr p in
  let! items := on_world (read (T := list slab_ptr_item) (r_maddr (se_ptr_current se.2))) in
  let sevens := 0x0707070707070707 in
  ret (persistent, (w0 =? sevens) && (w2 =? sevens), w1 =? q + 16, gone, take (Z.to_nat (r_idx (se_ptr_current se.2))) items).

(** The pointer at 5008 when nothing persistent leads to the object. *)
Definition back_reference : M Z := let! _ := closure_run false in on_world (load_ptr 5008).

(** ** What a restart would find *)

(** A page is written and committed, and written again in a transaction that
    allocates nothing: is it protected after the second checkpoint, and what
    does its snapshot hold? *)
Definition store_only : M (bool * Z) :=
  start ;;;
  let! a := container_palloc 64 in
  on_world (store_ptr a 1111) ;;;
  cpoint ;;;
  on_world (store_ptr a 2222) ;;;
  cpoint ;;;
  let! p := protected a in
  let! se := entry_of_addr a in
  let! old := on_world (load_ptr (d_maddr (se_data_snapshot se.2) + (a - ROUND_DWNPG a))) in
  ret (p, old).

(** A page of the file, as the structure it holds. *)
Definition file_page {T} `{PageType T} (l : Z) : M T :=
  on_world (let! o := gets (fun w => w_file w !! l) in from_opt WrongPage (p ← o; as_page p)).

(** The word at the offset [off] of the first data page that a restart would
    map: the page at the snapshot's place in the snapshot of the bucket. *)
Definition recovered_word (off : Z) : M Z :=
  let! si := on_world (
    let! sd := current_dir in
    let! d := read (T := slab_dir) sd in
    let! so := current_maddr (sd_node d) 0 in
    let! o := read (T := outer_node) so in
    current_maddr (the_outer o) 0) in
  let! n := on_world (read (T := inner_node) si) in
  let! r := from_opt OutOfBounds (zget (n_snapshot (the_inner n)) 0) in
  let! b := file_page (T := slab_bucket) (n_laddr r) in
  let! x := from_opt OutOfBounds (zget (sb_entries b) 0) in
  let! d := file_page (T := data_page) (d_laddr (se_data_snapshot x)) in
  ret (le_word (take 8 (drop (Z.to_nat off) (the_bytes d)))).

(** Write and commit 1111, then begin a transaction, with an allocation or
    without one, and write 2222: the word a restart at this moment would
    find. *)
Definition torn (allocate : bool) : M Z :=
  start ;;;
  let! a := container_palloc 64 in
  on_world (store_ptr a 1111) ;;;
  cpoint ;;;
  when allocate (let! _ := container_palloc 64 in ret tt) ;;;
  on_world (store_ptr a 2222) ;;;
  recovered_word (a - ROUND_DWNPG a).

(** ** Sizes at the ends *)
Definition palloc_zero : M Z := start ;;; container_palloc 0.

(** The link of the entry of an object of a whole page. *)
Definition self_loop : M bool :=
  start ;;;
  let! a := container_palloc 4096 in
  let! se := entry_of_addr a in
  ret (bool_decide (se_list se.2 = Some se.1)).

(** An object of a whole page is all ones when it is committed, and is
    overwritten in the next transaction, after another allocation.  The second
    checkpoint frees the page with the ones; an object of another size is
    allocated then. *)
Definition after_recycling : M Z :=
  start ;;;
  let! a := container_palloc 4096 in
  on_world (store_ptr a (2 ^ 64 - 1)) ;;;
  cpoint ;;;
  let! _ := container_palloc 4096 in
  on_world (store_ptr a 0) ;;;
  cpoint ;;;
  container_palloc 64.

End runs.

(** ** Runs on the fixed mapper *)
(** Only the file outlives the process. *)
Definition reboot : M (clst fmst) unit := fun s =>
  Ok tt (fresh_clst (new_process (cl_world s))).

Definition restart (allocs : nat) : M (clst fmst) Z :=
  start run_env ;;;
  for_ allocs 0 (fun _ => let! _ := container_palloc 64 in ret tt) ;;;
  cpoint ;;;
  reboot ;;;
  init run_env ;;;
  container_restore loops run_env 0.

(** A page is written after a checkpoint; then the file grows, and the page
    is written again.  What does the snapshot hold, and how many pages has
    the file? *)
Definition grow_between (n : nat) : M (clst fmst) (Z * Z) :=
  start run_env ;;;
  let! a := container_palloc 64 in
  on_world (store_ptr a 1111) ;;;
  cpoint ;;;
  on_world (store_ptr a 2222) ;;;
  for_ n 0 (fun _ => let! _ := on_world (getpage PA_PROT_RNW) in ret tt) ;;;
  on_world (store_ptr a 3333) ;;;
  let! e := entry_of_addr a in
  let! old := on_world (load_ptr (d_maddr (se_data_snapshot e.2) + (a - ROUND_DWNPG a))) in
  let! size := on_world (gets (fun w => fm_file_size (fs_fm (w_pa w)))) in
  ret (old, size / PAGE_SIZE).

(** ** What the runs give *)

(** A checkpoint moves what a persistent pointer reaches into the
    container: the object is at the new target with its content, the pointer
    inside it leads to the moved third word, the volatile block is freed, and
    the pointer of the page is recorded as entry 1, offset 22.  A registered
    pointer to an allocation that did not move is rebased to the null address:
    it becomes the offset 16 ([BackRef.fix_back_references_correct]). *)
Example closure_moves_allocation :
  value (closure_moves run_env (boot volatile_object)) = inl (true, true, true, true, [PtrItem 8 1 22]) /\
  value (back_reference run_env (boot volatile_object)) = inl 16.
Proof. split; vm_compute; reflexivity. Qed.

(** A transaction with one allocation is committed: the page is protected
    again, and the next write leaves the committed word in the snapshot.
    After a second allocation from the same bucket in the transaction the
    checkpoint skips the bucket: the page stays writable, and the snapshot
    does not hold the committed word. *)
Theorem second_allocation_not_committed :
  value (one_transaction run_env 1 (boot ∅)) = inl (true, 2222, 1111) /\
  value (one_transaction run_env 2 (boot ∅)) = inl (false, 2222, 0).
Proof. split; vm_compute; reflexivity. Qed.

(** A container cannot be restored: the page of the container is mapped
    without write permission, [container_restore] stores into it, and the
    fault handler finds no entry for it ([Restart.container_restore_fails]). *)
Example restore_after_checkpoint_fails :
  map (fun n => value (restart n (boot ∅))) (seq 0 4) = replicate 4 (inr HandleError).
Proof. vm_compute. reflexivity. Qed.

(** The first checkpoint after the second bucket is opened frees the page
    of that bucket while the tree still refers to it, and the page is handed
    out again. *)
Example checkpoint_frees_live_bucket : value (bucket_handed_out run_env (boot ∅)) = inl true.
Proof. vm_compute. reflexivity. Qed.

(** Whether a change is committed depends on the allocations around it.  A
    transaction that only stores is not committed: its page stays writable and
    the snapshot keeps the older content.  In a transaction that allocates,
    the copy of the bucket made at the allocation refers to the page that is
    then overwritten, so a restart finds the uncommitted word
    ([Missed.restart_reads_uncommitted]). *)
Example restart_finds_uncommitted :
  value (store_only run_env (boot ∅)) = inl (false, 1111) /\ value (torn run_env true (boot ∅)) = inl 2222.
Proof. split; vm_compute; reflexivity. Qed.

(** The runs above give the same answers on the two page allocators: one
    and two allocations in a transaction, a transaction of stores only, the
    recovered words, the moves of the closure, the freed bucket, and the
    sizes at the ends. *)
Example allocators_agree :
  map (fun n => value (one_transaction run_env n (boot ∅))) (seq 0 4) =
    map (fun n => value (one_transaction run_env n (nl_boot ∅))) (seq 0 4) /\
  value (store_only run_env (boot ∅)) = value (store_only run_env (nl_boot ∅)) /\
  map (fun b => value (torn run_env b (boot ∅))) [true; false] =
    map (fun b => value (torn run_env b (nl_boot ∅))) [true; false] /\
  value (closure_moves run_env (boot volatile_object)) = value (closure_moves run_env (nl_boot volatile_object)) /\
  value (back_reference run_env (boot volatile_object)) = value (back_reference run_env (nl_boot volatile_object)) /\
  value (bucket_handed_out run_env (boot ∅)) = value (bucket_handed_out run_env (nl_boot ∅)) /\
  value (palloc_zero run_env (boot ∅)) = value (palloc_zero run_env (nl_boot ∅)) /\
  value (self_loop run_env (boot ∅)) = value (self_loop run_env (nl_boot ∅)).
Proof. split_and!; vm_compute; reflexivity. Qed.

(** The copy-and-swap mode, which the nonlinear mapper switches on, loses
    what was committed: the word written before a checkpoint is not what a
    restart finds, while in the other mode, on the same mapper, it is. *)
Example copynswap_loses_commit :
  value (torn nl_env false (nl_boot ∅)) = inl 0 /\ value (torn run_env false (nl_boot ∅)) = inl 1111.
Proof. split; vm_compute; reflexivity. Qed.

(** When the file grows in the middle of a transaction, the pages that were
    written are protected again, and the next write overwrites the snapshot
    with what the transaction had written. *)
Example growth_overwrites_snapshot :
  value (grow_between 0 (boot ∅)) = inl (1111, 64) /\ value (grow_between 60 (boot ∅)) = inl (2222, 128).
Proof. split; vm_compute; reflexivity. Qed.

Example palloc_zero_divides_by_zero : value (palloc_zero run_env (boot ∅)) = inr DivByZero.
Proof. vm_compute. reflexivity. Qed.

(** A new entry that is full at once is put into its queue twice. *)
Example full_entry_links_to_itself : value (self_loop run_env (boot ∅)) = inl true.
Proof. vm_compute. reflexivity. Qed.

(** [empty_mallocat_tree] on an empty tree does not return. *)
Lemma empty_mallocat_tree_diverges {PS} `{PageAllocator PS} fuel (s : clst PS) :
  mallocat_tree s = SLeaf -> empty_mallocat_tree fuel s = Fail Diverges s.
Proof. intros E. induction fuel as [|fuel IH]; [done|]. simpl. unfold bind, gets. by rewrite E. Qed.

(** The new entry gets the freed page as it is: its bitmap is full, and the
    allocation fails although 26 entries of the bucket are free. *)
Example new_entry_in_full_page :
  value (after_recycling (Env None (Some (PAGE_SIZE * 10)) None None) (boot ∅)) = inl 0.
Proof. vm_compute. reflexivity. Qed.
