(* ===== verification/Debug.v ===== *)
(** * Printing the structures: [src/debug.c], and [pptr_print] of
    [src/fixptr.c] and [mallocat_pprint] of [src/closure.c]

    A [line] is one call of [printf]: its constructor is the format, its
    arguments are the values.  The two listings of data pages, from the tree
    of the directory and from the nodes, agree; the listing of the registered
    allocations prints every block and its pointers in the order of the
    addresses. *)
From Stdlib Require Import ZArith Lia Sorted.
From stdpp Require Import base numbers gmap option list.
From S2P Require Import Prelude Macros Bitstring Vector Hash Htable Queue Process RBTree FixedMapper PageAlloc.
From S2P Require Import SlabLayout World Demo Snapshot FixPtr Slab Alloc Checkpoint Txn Splay Closure MallocTree Cont Runs.
Open Scope Z_scope.

Inductive line :=
  | TreeEntry (maddr : Z)
  | AnyEntry (maddr : Z)
  | PtrItemLine (level ploc_offset pval_seid pval_offset : Z)
  | EntryLine (level se id size : Z)
  | DataLine (snapshot : bool) (level maddr laddr count capacity : Z)
  | PtrLine (snapshot : bool) (level idx maddr laddr : Z)
  | BucketLine (level sb id capacity : Z)
  | InnerLine (level si index capacity : Z)
  | OuterLine (level so index capacity : Z)
  | DirLine (level sd index : Z)
  | ContLine (cont id : Z)
  | HeadLine (first_maddr first_laddr last_maddr : Z)
  | INodeLine (level maddr laddr index : Z)
  | DNodeLine (snapshot : bool) (level maddr laddr index : Z)
  | PPtrLine (level loc_offset loc_seid val_offset val_seid : Z)
  | MallocatHead (addr size ptrs_size ptrs_capacity : Z)
  | MallocatPtr (ptr : Z)
  | MallocatEnd.

(** What has been printed, and the world. *)
Record screen (PS : Type) := Screen { sc_world : world PS; sc_lines : list line }.
Arguments Screen {PS}.
Arguments sc_world {PS}.
Arguments sc_lines {PS}.

(** Set bits among the first [size]. *)
Definition bitmap_set_count (bm : list Z) (size : Z) : option Z := bit_count (Z.to_nat size) bm 0 0.

Section debug.
Context {PS : Type} `{PA : PageAllocator PS}.
Notation M := (M (screen PS)).

Definition on_w {A} (m : Prelude.M (world PS) A) : M A := zoom sc_world (fun w s => Screen w (sc_lines s)) m.
Definition printf (l : line) : M unit := modify (fun s => Screen (sc_world s) (sc_lines s ++ [l])).

Definition print_splay_tree (fuel : nat) : M unit :=
  let! sd := on_w current_dir in
  let! d := on_w (read (T := slab_dir) sd) in
  let! l := from_opt Diverges (RB_FOREACH fuel (sd_maddr_root d)) in
  forM l (fun se =>
    let! e := on_w (get_se se) in
    printf (TreeEntry (d_maddr (se_data_current e)))).

Definition slab_entry_print : M unit :=
  let! sd := on_w current_dir in
  let! d := on_w (read (T := slab_dir) sd) in
  for_ (Z.to_nat (n_index (sd_node d))) 0 (fun i =>
    let! so := on_w (current_maddr (sd_node d) i) in
    let! o := on_w (read (T := outer_node) so) in
    for_ (Z.to_nat (n_index (the_outer o))) 0 (fun j =>
      let! si := on_w (current_maddr (the_outer o) j) in
      let! n := on_w (read (T := inner_node) si) in
      for_ (Z.to_nat (n_index (the_inner n))) 0 (fun k =>
        let! sb := on_w (current_maddr (the_inner n) k) in
        for_ (Z.to_nat SLAB_BUCKET_ENTRIES) 0 (fun l =>
          let! e := on_w (get_se (se_addr sb l)) in
          when (SLAB_ENTRY_IS_INIT e) (printf (AnyEntry (d_maddr (se_data_current e)))))))).

Definition slab_ptr_pprint (sp sp_idx level : Z) : M unit :=
  for_ (Z.to_nat sp_idx) 0 (fun i =>
    let! ptrs := on_w (read (T := list slab_ptr_item) sp) in
    let! it := from_opt OutOfBounds (zget ptrs i) in
    printf (PtrItemLine (level + 2) (ploc_offset it) (pval_seid it) (pval_offset it))).

(** [SLAB_ENTRY_CBITMAP] and [SLAB_ENTRY_SBITMAP], followed. *)
Definition bitmap_bytes (r : bitmap_ref) (own : Z) : M (list Z) :=
  match r with
  | InEntry => ret [own]
  | InPage m => let! d := on_w (read (T := data_page) m) in ret (the_bytes d)
  end.

Definition data_line (snapshot : bool) (level : Z) (e : slab_entry) (r : bitmap_ref) (d : data_ref) : M unit :=
  let! bm := bitmap_bytes r (d_bitmap d) in
  let! capacity := from_opt DivByZero (SLAB_ENTRY_CAPACITY e) in
  let! count := from_opt OutOfBounds (bitmap_set_count bm capacity) in
  printf (DataLine snapshot level (d_maddr d) (d_laddr d) count capacity).

Definition slab_entry_pprint (se level : Z) : M unit :=
  let! e := on_w (get_se se) in
  printf (EntryLine level se (se_id e) (se_size e)) ;;;
  data_line false (level + 2) e (SLAB_ENTRY_CBITMAP e) (se_data_current e) ;;;
  data_line true (level + 2) e (SLAB_ENTRY_SBITMAP e) (se_data_snapshot e) ;;;
  let c := se_ptr_current e in
  printf (PtrLine false (level + 2) (r_idx c) (r_maddr c) (r_laddr c)) ;;;
  slab_ptr_pprint (r_maddr c) (r_idx c) (level + 2) ;;;
  let s := se_ptr_snapshot e in
  printf (PtrLine true (level + 2) (r_idx s) (r_maddr s) (r_laddr s)) ;;;
  slab_ptr_pprint (r_maddr s) (r_idx s) (level + 2).

Definition slab_bucket_pprint (sb level : Z) : M unit :=
  let! b := on_w (read (T := slab_bucket) sb) in
  printf (BucketLine level sb (sb_id b) SLAB_BUCKET_ENTRIES) ;;;
  for_ (Z.to_nat SLAB_BUCKET_ENTRIES) 0 (fun i =>
    let! e := on_w (get_se (se_addr sb i)) in
    when (negb (se_size e =? 0)) (slab_entry_pprint (se_addr sb i) (level + 2))).

(** The loop over the current and the snapshot references of a node. *)
Definition pprint_refs (n : slab_node) (cur snap : Z -> M unit) : M unit :=
  for_ (Z.to_nat (n_index n)) 0 (fun i =>
    let! c := from_opt OutOfBounds (zget (n_current n) i) in
    let! s := from_opt OutOfBounds (zget (n_snapshot n) i) in
    cur (n_maddr c) ;;;
    when (negb (n_maddr c =? n_maddr s)) (snap (n_maddr s))).

Definition slab_inner_pprint (si level : Z) : M unit :=
  let! n := on_w (read (T := inner_node) si) in
  printf (InnerLine level si (n_index (the_inner n)) SLAB_INNER_ENTRIES) ;;;
  pprint_refs (the_inner n) (fun sbc => slab_bucket_pprint sbc (level + 2)) (fun sbs => slab_bucket_pprint sbs (level + 2)).

Definition slab_outer_pprint (so level : Z) : M unit :=
  let! o := on_w (read (T := outer_node) so) in
  printf (OuterLine level so (n_index (the_outer o)) SLAB_OUTER_ENTRIES) ;;;
  pprint_refs (the_outer o) (fun sic => slab_inner_pprint sic (level + 2)) (fun sis => slab_inner_pprint sis (level + 2)).

(** The second call is given [soc] again. *)
Definition slab_dir_pprint (sd level : Z) : M unit :=
  let! d := on_w (read (T := slab_dir) sd) in
  let n := sd_node d in
  printf (DirLine level sd (n_index n)) ;;;
  for_ (Z.to_nat (n_index n)) 0 (fun i =>
    let! c := from_opt OutOfBounds (zget (n_current n) i) in
    let! s := from_opt OutOfBounds (zget (n_snapshot n) i) in
    let soc := n_maddr c in
    let sos := n_maddr s in
    slab_outer_pprint soc (level + 2) ;;;
    when (negb (soc =? sos)) (slab_outer_pprint soc (level + 2))).

Definition container_pprint : M unit :=
  let! cont := on_w get_container in
  let! c := on_w (read (T := container) cont) in
  printf (ContLine cont (cont_id c)) ;;;
  slab_dir_pprint (n_maddr (current_slab c)) 2 ;;;
  when (negb (n_maddr (current_slab c) =? n_maddr (snapshot_slab c))) (slab_dir_pprint (n_maddr (snapshot_slab c)) 2).

(** ** The list of persistent pointers *)
Definition pptr_dnode_print (dnode laddr level : Z) (snapshot : bool) : M unit :=
  let! d := on_w (read (T := pptr_dnode) dnode) in
  printf (DNodeLine snapshot level dnode laddr (pdn_index d)) ;;;
  for_ (Z.to_nat PPTR_DNODE_ENTRIES) 0 (fun i =>
    let! p := from_opt OutOfBounds (zget (pdn_entries d) i) in
    when (negb (pp_loc_offset p =? 0))
      (printf (PPtrLine (level + 2) (pp_loc_offset p) (pp_loc_seid p) (pp_val_offset p) (pp_val_seid p)))).

Definition pptr_inode_print (inode laddr level : Z) : M unit :=
  let! n := on_w (read (T := pptr_inode) inode) in
  printf (INodeLine level inode laddr (pin_current_idx n)) ;;;
  for_ (Z.to_nat PPTR_INODE_ENTRIES) 0 (fun i =>
    let! e := from_opt OutOfBounds (zget (pin_entries n) i) in
    let c := pe_current e in
    let s := pe_snapshot e in
    when (negb (n_maddr c =? 0)) (pptr_dnode_print (n_maddr c) (n_laddr c) (level + 2) false) ;;;
    when (negb (n_maddr s =? 0)) (pptr_dnode_print (n_maddr s) (n_laddr s) (level + 2) true)).

Fixpoint print_inodes (fuel : nat) (inode inode_laddr : Z) : M unit :=
  match fuel with
  | O => fail Diverges
  | Datatypes.S fuel' =>
      when (negb (inode =? 0))
        (pptr_inode_print inode inode_laddr 2 ;;;
         let! n := on_w (read (T := pptr_inode) inode) in
         print_inodes fuel' (n_maddr (pin_next n)) (n_laddr (pin_next n)))
  end.

Definition pptr_print (fuel : nat) (head : pptr_head) : M unit :=
  printf (HeadLine (n_maddr (ph_first head)) (n_laddr (ph_first head)) (ph_last head)) ;;;
  print_inodes fuel (n_maddr (ph_first head)) (n_laddr (ph_first head)).
End debug.

(** ** The two listings of data pages *)
Section listings.
Context {PS : Type} `{PL : PageAllocatorLaws PS}.
Implicit Types (w : world PS) (s : screen PS) (G : geom).

Lemma wp_on_w {A} (m : M (world PS) A) s (Q : A -> screen PS -> Prop) :
  wp m (fun x w' => w' = sc_world s /\ Q x s) (sc_world s) -> wp (on_w m) Q s.
Proof.
  intros Hm. unfold on_w. apply wp_zoom. eapply wp_mono; [exact Hm|]. intros x w' [-> HQ]. by destruct s.
Qed.

(** The data pages of the entries in use, in the order of the bucket, and in
    the order of the tree. *)
Definition pages_in_use (es : list slab_entry) : list Z := map cur_page (filter (fun e => SLAB_ENTRY_IS_INIT e = true) es).
Definition pages_of_tree (b : slab_bucket) (d : slab_dir) : list Z := map (key_in b) (inorder (sd_maddr_root d)).

Lemma pages_in_use_step es i e : zget es i = Some e ->
  pages_in_use (take (Z.to_nat (i + 1)) es) =
  pages_in_use (take (Z.to_nat i) es) ++ (if SLAB_ENTRY_IS_INIT e then [cur_page e] else []).
Proof.
  intros E. pose proof (zget_lt _ _ _ E). replace (Z.to_nat (i + 1)) with (S (Z.to_nat i)) by lia.
  rewrite (take_S_r _ _ e) by by apply zget_Some_nat. unfold pages_in_use. rewrite filter_app, map_app. f_equal.
  destruct (SLAB_ENTRY_IS_INIT e) eqn:Ei; [rewrite filter_cons_True by done|rewrite filter_cons_False by congruence]; done.
Qed.

Lemma print_entries s V k G σ cont d o n b ls :
  sees (sc_world s) V k -> txn_rel (sc_world s) V G σ cont d o n b ls ->
  wp slab_entry_print (fun _ s' => sc_world s' = sc_world s /\
    sc_lines s' = sc_lines s ++ map AnyEntry (pages_in_use (sb_entries b))) s.
Proof.
  intros Hs Htx. pose proof Htx as [Hm Hp Hb Hid Hd Ht Hv].
  pose proof Hp as [P1 (wc & lc & P2) P3 P4 (wo & lo & P5) P6 (P7 & l7 & r7 & P7a & _) (P8 & l8 & r8 & P8a & _) (P9 & P9a)].
  assert (Hread : forall T (PT : PageType T) a i (x : T) (Q : T -> screen PS -> Prop),
    V !! a = Some i -> as_page (pi_page i) = Some x -> Q x s -> wp (on_w (read a)) Q s).
  { intros T PT a i x Q E Ex HQ. apply wp_on_w. eapply wp_read_view; [exact Hs|exact E|exact Ex|done]. }
  assert (Hcur : forall m i l a (Q : Z -> screen PS -> Prop), zget (n_current m) i = Some (NRef a l) -> Q a s -> wp (on_w (current_maddr m i)) Q s).
  { intros m i l a Q E HQ. apply wp_on_w. unfold current_maddr. apply wp_bind. eapply wp_from_opt; [exact E|]. by apply wp_ret. }
  unfold slab_entry_print. apply wp_bind. apply wp_on_w.
  eapply wp_current_dir; [exact Hs|split; [exact P4|by exists (g_c G), cont, wc, lc]|]. split; [done|].
  apply wp_bind. eapply Hread; [exact P4|done|]. rewrite P7. cbn [for_ Z.to_nat Pos.to_nat Pos.iter_op]. apply wp_bind.
  apply wp_bind. eapply Hcur; [exact P7a|]. apply wp_bind. eapply Hread; [exact P5|done|]. cbn [the_outer]. rewrite P8.
  cbn [for_ Z.to_nat Pos.to_nat Pos.iter_op]. apply wp_bind. apply wp_bind. eapply Hcur; [exact P8a|].
  apply wp_bind. eapply Hread; [exact P6|done|]. cbn [the_inner]. rewrite P9. cbn [for_ Z.to_nat Pos.to_nat Pos.iter_op].
  apply wp_bind. apply wp_bind. eapply Hcur; [exact P9a|].
  pose proof (cr_len _ _ _ (br_ready _ _ _ _ Hd)) as Hlen.
  apply (wp_for (fun i s' => sc_world s' = sc_world s /\
    sc_lines s' = sc_lines s ++ map AnyEntry (pages_in_use (take (Z.to_nat i) (sb_entries b))))).
  - simpl. by rewrite app_nil_r.
  - intros i s1 Hi [Hw Hl]. destruct (zget_total (sb_entries b) i) as [e Ee]; [rewrite Hlen; change SLAB_BUCKET_ENTRIES with 28 in *; lia|].
    destruct (entry_address _ _ _ _ _ _ _ _ _ _ _ _ _ Hs Htx Ee) as (A1 & A2 & A3).
    apply wp_bind. apply wp_on_w. rewrite Hw. eapply wp_get_se; [exact Hs|rewrite A1; exact Hb|exact A3|]. split; [done|].
    rewrite (pages_in_use_step _ _ _ Ee). destruct (SLAB_ENTRY_IS_INIT e); cbn [when].
    + unfold printf. apply wp_modify. simpl. split; [done|]. by rewrite Hl, map_app, app_assoc.
    + apply wp_ret. rewrite app_nil_r. done.
  - intros s1 [Hw Hl]. rewrite take_ge in Hl by (unfold zlen in Hlen; change SLAB_BUCKET_ENTRIES with 28 in *; lia).
    by do 3 apply wp_ret.
Qed.

Lemma print_tree s V k G σ cont d o n b ls fuel :
  sees (sc_world s) V k -> txn_rel (sc_world s) V G σ cont d o n b ls -> (length (inorder (sd_maddr_root d)) < fuel)%nat ->
  wp (print_splay_tree fuel) (fun _ s' => sc_world s' = sc_world s /\
    sc_lines s' = sc_lines s ++ map TreeEntry (pages_of_tree b d)) s.
Proof.
  intros Hs Htx Hf. pose proof Htx as [Hm Hp Hb Hid Hd Ht Hv]. pose proof Hp as [P1 (wc & lc & P2) P3 P4 _ _ _ _ _].
  unfold print_splay_tree. apply wp_bind, wp_on_w.
  eapply wp_current_dir; [exact Hs|split; [exact P4|by exists (g_c G), cont, wc, lc]|]. split; [done|].
  apply wp_bind, wp_on_w. eapply wp_read_view; [exact Hs|exact P4|done|]. split; [done|].
  apply wp_bind. eapply wp_from_opt; [by apply RB_FOREACH_inorder|].
  apply (wp_forM (fun dn s' => sc_world s' = sc_world s /\ sc_lines s' = sc_lines s ++ map TreeEntry (map (key_in b) dn))).
  - simpl. by rewrite app_nil_r.
  - intros dn se todo s1 Hall [Hw Hl]. destruct (tr_in _ _ _ Ht se) as (A1 & _ & e & A3 & _).
    { rewrite Hall. apply elem_of_app. right. by left. }
    apply wp_bind, wp_on_w. rewrite Hw. eapply wp_get_se; [exact Hs|rewrite A1; exact Hb|exact A3|]. split; [done|].
    unfold printf. apply wp_modify. simpl. split; [done|]. rewrite Hl, !map_app. simpl.
    assert (Ek : key_in b se = d_maddr (se_data_current e)) by (unfold key_in; by rewrite A3). by rewrite Ek, app_assoc.
  - intros s1 [Hw Hl]. done.
Qed.

(** Both list the same pages. *)
Lemma in_pages_in_use es a : a ∈ pages_in_use es <-> exists e, e ∈ es /\ SLAB_ENTRY_IS_INIT e = true /\ a = cur_page e.
Proof.
  unfold pages_in_use. rewrite list_elem_of_In, in_map_iff. split.
  - intros (e & <- & He). apply list_elem_of_In, list_elem_of_filter in He as [H1 H2]. by exists e.
  - intros (e & H1 & H2 & ->). exists e. split; [done|]. by apply list_elem_of_In, list_elem_of_filter.
Qed.

Lemma sorted_nodup f (ls : list Z) : key_sorted f ls -> NoDup (map f ls).
Proof.
  intros Hs. induction ls as [|x ls IH]; simpl; [constructor|]. inversion Hs as [|? ? Hs' Hx]; subst. constructor; [|by apply IH].
  intros Hin. apply list_elem_of_In, in_map_iff in Hin as (y & Ey & Hy). rewrite Forall_forall in Hx.
  specialize (Hx y (proj2 (list_elem_of_In _ _) Hy)). simpl in Hx. lia.
Qed.

Lemma sorted_map f (ls : list Z) : key_sorted f ls -> StronglySorted Z.lt (map f ls).
Proof.
  intros Hs. induction Hs as [|x ls Hs IH Hx]; simpl; constructor; [done|]. apply Forall_forall. intros y Hy.
  apply list_elem_of_In, in_map_iff in Hy as (z & <- & Hz%list_elem_of_In). rewrite Forall_forall in Hx. by apply Hx.
Qed.

Lemma pages_in_use_nodup es :
  (forall i j ei ej, es !! i = Some ei -> es !! j = Some ej -> i <> j -> SLAB_ENTRY_IS_INIT ei = true ->
     SLAB_ENTRY_IS_INIT ej = true -> cur_page ei <> cur_page ej) -> NoDup (pages_in_use es).
Proof.
  induction es as [|e es IH]; intros Hd; [constructor|].
  assert (IH' : NoDup (pages_in_use es)) by (apply IH; intros i j ei ej Ei Ej Hij; apply (Hd (S i) (S j)); [done|done|lia]).
  unfold pages_in_use in *. destruct (decide (SLAB_ENTRY_IS_INIT e = true)) as [He|He];
    [rewrite filter_cons_True by done|rewrite filter_cons_False by done]; [|done].
  simpl. constructor; [|done]. intros Hin. apply in_pages_in_use in Hin as (e' & He' & Hi' & E).
  apply list_elem_of_lookup in He' as [j Ej]. by apply (Hd 0%nat (S j) e e').
Qed.

Lemma listed_pages w V k G σ cont d o n b ls :
  sees w V k -> txn_rel w V G σ cont d o n b ls -> pages_in_use (sb_entries b) ≡ₚ pages_of_tree b d.
Proof.
  intros Hs Htx. pose proof Htx as [_ _ _ _ Hd Ht _]. apply NoDup_Permutation.
  - apply pages_in_use_nodup. intros i j ei ej Ei Ej Hij Hii Hjj E.
    assert (Ez : forall x y, sb_entries b !! x = Some y -> zget (sb_entries b) (Z.of_nat x) = Some y).
    { intros x y Exy. unfold zget. destruct (Z.leb_spec 0 (Z.of_nat x)); [|lia]. by rewrite Nat2Z.id. }
    eapply (cr_disjoint _ _ _ (br_ready _ _ _ _ Hd) _ _ _ _ (cur_page ei) (Ez _ _ Ei) (Ez _ _ Ej)); [lia|by apply cur_in_pages|].
    rewrite E. by apply cur_in_pages.
  - apply sorted_nodup, Ht.
  - intros a. rewrite in_pages_in_use. unfold pages_of_tree. rewrite list_elem_of_In, in_map_iff. split.
    + intros (e & He & Hi & ->). apply list_elem_of_lookup in He as [i Ei].
      assert (Ez : zget (sb_entries b) (Z.of_nat i) = Some e).
      { unfold zget. destruct (Z.leb_spec 0 (Z.of_nat i)); [|lia]. by rewrite Nat2Z.id. }
      destruct (entry_address _ _ _ _ _ _ _ _ _ _ _ _ _ Hs Htx Ez) as (_ & _ & A3).
      exists (se_addr (g_sb G) (Z.of_nat i)). split; [unfold key_in; by rewrite A3|]. apply list_elem_of_In. by apply (tr_all _ _ _ Ht _ e).
    + intros (se & <- & Hse). apply list_elem_of_In in Hse. destruct (tr_in _ _ _ Ht se Hse) as (_ & _ & e & A3 & Hi).
      exists e. split; [|split; [done|unfold key_in; by rewrite A3]]. apply list_elem_of_lookup. exists (Z.to_nat (SLAB_ENTRY_INDEX se)).
      by apply zget_Some_nat.
Qed.
End listings.

(** ** The number of set bits *)
Lemma bitmap_set_count_spec bm size : 0 <= size <= 8 * zlen bm ->
  bitmap_set_count bm size = Some (zlen (filter (fun i => bitz bm i = true) (seqZ 0 size))).
Proof.
  intros Hs. unfold bitmap_set_count. assert (Hg : forall n i c, 0 <= i -> i + Z.of_nat n <= 8 * zlen bm ->
    bit_count n bm i c = Some (c + zlen (filter (fun i => bitz bm i = true) (seqZ i (Z.of_nat n))))).
  { induction n as [|n IH]; intros i c Hi Hn; [simpl; f_equal; unfold zlen; simpl; lia|]. cbn [bit_count].
    destruct (bit_test_total bm i) as [t Ht]; [lia|]. pose proof (bit_test_spec _ _ _ Ht) as Hb. rewrite Ht. cbn [mbind option_bind].
    rewrite IH by lia. f_equal. rewrite (seqZ_cons i) by lia. replace (Z.pred (Z.of_nat (S n))) with (Z.of_nat n) by lia.
    change (Z.succ i) with (i + 1). rewrite Hb. destruct (bitz bm i) eqn:E.
    - rewrite filter_cons_True by done. unfold zlen. simpl. lia.
    - rewrite filter_cons_False by congruence. cbn [negb]. lia. }
  rewrite Hg by lia. f_equal. by rewrite Z2Nat.id by lia.
Qed.

(** ** The registered allocations *)
Section mallocats.
Context {PS : Type} `{PA : PageAllocator PS}.

(** The lines of one entry: the body of the loop. *)
Definition mallocat_lines (x : mallocat_entry) : fault + list line :=
  match VECTOR_FOREACH (me_ptrs x) with
  | inl f => inl f
  | inr (ptrs, _) => inr (MallocatHead (me_addr x) (me_size x) (v_size (me_ptrs x)) (v_capacity (me_ptrs x)) ::
      map MallocatPtr ptrs ++ [MallocatEnd])
  end.

(** The loop splays the tree while it runs; it prints to [lines]. *)
Definition mallocat_pprint : M (clst PS * list line) unit :=
  let! s := gets fst in
  let cmp e y := mallocat_entry_cpm (me_at s e) (me_at s y) in
  let! r := from_opt Diverges (SPLAY_FOREACH cmp (mallocat_tree s)) in
  modify (fun sl => (set_mallocat_tree r.2 sl.1, sl.2)) ;;;
  forM r.1 (fun e =>
    let! x := from_opt NullDeref (cl_entries s !! e) in
    match mallocat_lines x with
    | inl f => fail f
    | inr l => modify (fun sl => (sl.1, sl.2 ++ l))
    end).

(** What is printed for the pointers [ptrs] of a block. *)
Definition block_lines (s : clst PS) (ptrs : Z -> list Z) (e : Z) : list line :=
  let x := me_at s e in
  MallocatHead (me_addr x) (me_size x) (v_size (me_ptrs x)) (v_capacity (me_ptrs x)) ::
    map MallocatPtr (ptrs e) ++ [MallocatEnd].

Lemma tree_ordered (s : clst PS) es :
  tree_ok s es -> (forall e, e ∈ es -> 0 < me_size (me_at s e)) ->
  ordered (fun e y => mallocat_entry_cpm (me_at s e) (me_at s y)) es.
Proof.
  intros [_ _ _ Hs] Hpos. split.
  - induction Hs as [|x es Hs IH Hx]; constructor; [apply IH; intros e He; apply Hpos; by right|].
    eapply Forall_impl; [exact Hx|]. intros y [H1 H2]. unfold mallocat_entry_cpm.
    destruct (Z.ltb_spec (me_addr (me_at s x)) (me_addr (me_at s y))), (Z.ltb_spec (me_addr (me_at s y)) (me_addr (me_at s x))),
      (Z.leb_spec (me_addr (me_at s x) + me_size (me_at s x)) (me_addr (me_at s y))); lia.
  - intros e He. specialize (Hpos e He). unfold mallocat_entry_cpm.
    destruct (Z.ltb_spec (me_addr (me_at s e)) (me_addr (me_at s e))); [lia|].
    destruct (Z.leb_spec (me_addr (me_at s e) + me_size (me_at s e)) (me_addr (me_at s e))); [lia|done].
Qed.

(** Every block is printed once, the lower addresses first, each with its
    pointers. *)
Theorem mallocat_pprint_correct (s : clst PS) es ptrs :
  tree_ok s es -> (forall e, e ∈ es -> 0 < me_size (me_at s e) /\ vec_ok (me_ptrs (me_at s e)) (ptrs e)) ->
  exists t, mallocat_pprint (s, []) = Ok tt (set_mallocat_tree t s, concat (map (block_lines s ptrs) es)) /\ sinorder t = es.
Proof.
  intros Ht Hes. pose proof (to_order _ _ Ht) as Ho.
  destruct (SPLAY_FOREACH_ok (fun e y => mallocat_entry_cpm (me_at s e) (me_at s y)) (mallocat_tree s)) as (t & Ef & Hi).
  { rewrite Ho. apply tree_ordered; [done|]. intros e He. by apply Hes. }
  rewrite Ho in Ef, Hi. exists t. split; [|done].
  enough (Hw : wp mallocat_pprint (fun _ sl => sl = (set_mallocat_tree t s, concat (map (block_lines s ptrs) es))) (s, [])).
  { destruct (proj1 (wp_run _ _ _) Hw) as ([] & sl & E & ->). exact E. }
  unfold mallocat_pprint. apply wp_bind, wp_gets. cbn [fst]. rewrite Ef. apply wp_bind, wp_ret, wp_bind, wp_modify. cbn [fst snd].
  apply (wp_forM (fun done sl => sl = (set_mallocat_tree t s, concat (map (block_lines s ptrs) done)))); [done| |by intros ? ->].
  intros before e after sl E ->. assert (He : e ∈ es) by (rewrite E; apply elem_of_app; right; by left).
  destruct (Hes e He) as [_ (Hv & Hb & _)]. destruct (to_known _ _ Ht e He) as [x Hx].
  assert (Hm : me_at s e = x) by (unfold me_at; by rewrite Hx). rewrite Hm in Hv, Hb.
  apply wp_bind. eapply wp_from_opt; [exact Hx|]. unfold mallocat_lines. rewrite (VECTOR_FOREACH_repr _ _ Hv Hb).
  apply wp_modify. cbn [fst snd]. f_equal. rewrite map_app, concat_app. f_equal. cbn [map concat]. unfold block_lines.
  rewrite Hm. by rewrite app_nil_r.
Qed.
End mallocats.

Lemma mallocat_pprint_correct_witness : exists (s : clst fmst) t,
  mallocat_pprint (s, []) = Ok tt (set_mallocat_tree t s,
    [MallocatHead 1000 16 1 2; MallocatPtr 1008; MallocatEnd; MallocatHead 2000 8 0 2; MallocatEnd]).
Proof.
  set (v0 := Vec 2 0 (Some [None; None]) : vector Z). set (v1 := Vec 2 1 (Some [Some 1008; None])).
  set (s := Clst (World (blank 0) ∅ ∅ None 0 0 ∅ true false) (Htable 0 0 []) (Htable 0 0 []) (Vec 0 0 None)
    (SNode (SNode SLeaf 3 SLeaf) 4 SLeaf) (<[3 := MallocatEntry 1000 16 0 v1]> {[4 := MallocatEntry 2000 8 0 v0]}) true : clst fmst).
  exists s. destruct (mallocat_pprint_correct s [3; 4] (fun e => if e =? 3 then [1008] else [])) as (t & E & _).
  - split; [done| | |].
    + intros e [->|[->|[]%elem_of_nil]%elem_of_cons]%elem_of_cons; (eexists; vm_compute; reflexivity).
    + intros e [->|[->|[]%elem_of_nil]%elem_of_cons]%elem_of_cons; done.
    + repeat constructor; vm_compute; congruence.
  - intros e [->|[->|[]%elem_of_nil]%elem_of_cons]%elem_of_cons.
    + split; [done|]. split_and!; [|eexists; reflexivity|vm_compute; congruence]. unfold vector_repr. vm_compute. split_and!; done.
    + split; [done|]. split_and!; [|eexists; reflexivity|vm_compute; congruence]. unfold vector_repr. vm_compute. split_and!; done.
  - exists t. rewrite E. vm_compute. reflexivity.
Defined.

(** ** Runs on the fixed mapper *)
Definition lines_of (m : M (screen fmst) unit) : M (clst fmst) (list line) := fun s =>
  match m (Screen (cl_world s) []) with Ok _ s' => Ok (sc_lines s') s | Fail f _ => Fail f s end.

Definition pprint_run : M (clst fmst) (list line) :=
  let! _ := start run_env in
  let! _ := container_palloc 64 in
  lines_of container_pprint.

(** The addresses of the outer node and its copy, and those on the lines of
    outer nodes. *)
Definition outer_run : M (clst fmst) (bool * bool) :=
  let! _ := start run_env in
  let! so := on_world (
    let! sd := current_dir in
    let! d := read (T := slab_dir) sd in
    let! so := last_outer d in
    snapshot_outer sd so ;;; ret so) in
  let! c := on_world (let! sd := current_dir in let! d := read (T := slab_dir) sd in
    from_opt OutOfBounds (zget (n_snapshot (sd_node d)) 0)) in
  let! ls := lines_of container_pprint in
  let outers := filter (fun a => a <> 0) (map (fun l => match l with OuterLine _ so _ _ => so | _ => 0 end) ls) in
  ret (bool_decide (outers = [so; so]), bool_decide (n_maddr c = so)).

(** After the first allocation: one bucket and its copy, which is empty; one
    object of the 63 of its page is taken, none in the snapshot of the page. *)
Lemma pprint_after_allocation : value (pprint_run (boot ∅)) =
  let pg i := TERABYTE + PAGE_SIZE * i in
  inl [ContLine (pg 0) 0; DirLine 2 (pg 1) 1; OuterLine 4 (pg 2) 1 127; InnerLine 6 (pg 3) 1 127;
       BucketLine 8 (pg 4) 0 28; EntryLine 10 (pg 4 + 8) 0 64;
       DataLine false 12 (pg 6) (PAGE_SIZE * 6) 1 63; DataLine true 12 (pg 7) (PAGE_SIZE * 7) 0 63;
       PtrLine false 12 0 0 0; PtrLine true 12 0 0 0; BucketLine 8 (pg 5) 0 28].
Proof. vm_compute. reflexivity. Qed.

(** When an outer node has a copy, [slab_dir_pprint] prints the node a second
    time in place of its copy. *)
Lemma outer_copy_not_printed : value (outer_run (boot ∅)) = inl (true, false).
Proof. vm_compute. reflexivity. Qed.

(** ** Properties *)

(** C38 The listing of the tree of the directory and the listing of the nodes
    agree.  In and between transactions on a bucket both print the data pages
    in use, each once, and change nothing; the tree lists them in the order
    of their addresses. *)
Theorem listings_agree {PS} `{PL : PageAllocatorLaws PS} (w : world PS) V k G σ cont d o n b ls fuel :
  sees w V k -> txn_rel w V G σ cont d o n b ls -> (length (inorder (sd_maddr_root d)) < fuel)%nat ->
  slab_entry_print (Screen w []) = Ok tt (Screen w (map AnyEntry (pages_in_use (sb_entries b)))) /\
  print_splay_tree fuel (Screen w []) = Ok tt (Screen w (map TreeEntry (pages_of_tree b d))) /\
  pages_in_use (sb_entries b) ≡ₚ pages_of_tree b d /\ NoDup (pages_in_use (sb_entries b)) /\
  StronglySorted Z.lt (pages_of_tree b d).
Proof.
  intros Hs Htx Hf. pose proof (listed_pages w V k G σ cont d o n b ls Hs Htx) as Hp.
  pose proof (tr_sorted _ _ _ (tx_tree _ _ _ _ _ _ _ _ _ _ Htx)) as Hst.
  destruct (proj1 (wp_run _ _ _) (print_entries (Screen w []) V k G σ cont d o n b ls Hs Htx)) as ([] & [w1 l1] & E1 & Hw1 & Hl1).
  destruct (proj1 (wp_run _ _ _) (print_tree (Screen w []) V k G σ cont d o n b ls fuel Hs Htx Hf)) as ([] & [w2 l2] & E2 & Hw2 & Hl2).
  simpl in *. subst. split_and!; [exact E1|exact E2|exact Hp| |by apply sorted_map].
  rewrite Hp. by apply sorted_nodup.
Qed.

Lemma listings_agree_witness : exists (w : world fmst) p,
  slab_entry_print (Screen w []) = Ok tt (Screen w [AnyEntry (dp_m p).1]) /\
  print_splay_tree 2 (Screen w []) = Ok tt (Screen w [TreeEntry (dp_m p).1]).
Proof.
  destruct demo_exists as (w & p & H). exists w, p.
  destruct (listings_agree w (demo_V p) 58 _ _ _ _ _ _ _ _ 2 (do_sees _ _ _ _ _ _ _ _ H) (demo_txn_rel w p H)) as (E1 & E2 & _);
    [simpl; lia|]. split; [exact E1|].
  assert (Et : pages_of_tree (demo_bucket p) (demo_dir p) = [(dp_m p).1]).
  { unfold pages_of_tree. simpl. unfold key_in. destruct (demo_se_ok w p H) as (_ & _ & A3). by rewrite A3. }
  rewrite Et in E2. exact E2.
Defined.
